(* ===== verification/_CoqProject ===== *)
-Q . S2P
Prelude.v
Heap.v
Context.v
Sched.v
Kernel.v
Sync.v
Ipcsum.v
Netbuf.v
Slip.v
PppAhdlc.v
Oneshot.v
Thread.v
Membuf.v
NetbufMem.v
Ip.v
Udp.v
Parts.v
Asm.v
I386.v
CString.v
AvrString.v
Switch.v
I386Switch.v
AvrSwitch.v
Trap.v
Ethernet.v
EthernetIp.v
Uart.v
AvrUart.v
BbI2c.v
Cards.v
Ne2000.v
C509.v
PppTable.v
Ppp.v
Lcp.v
ConfReq.v
LcpReq.v
PppIp.v
IpcpReq.v
Tcp.v
TcpKeep.v
TcpRecv.v
TcpSend.v
