(* ===== verification/Prelude.v ===== *)
(** * Liquorice: a verification development

    Liquorice is a small operating system for the i386 and for AVR micro-controllers:
    a pre-emptive scheduler with priority-ceiling locks and the usual objects to
    synchronise with, a heap, timers, and a network stack from framing to TCP.  This
    library models the C code of [src/lib] and its headers in [include] for the i386
    target, with [DEBUG] set to 1, the assembly code of both targets, and the drivers
    of the serial port, the clock and the interrupt controller of the PC, and proves
    what makes the parts correct.

    ** The program and its parts

    - The kernel.  [context.c], [spinlock.c] and [isr_context_switch.c] keep one run
      queue ordered by priority; a lock raises the priority of its owner; a context
      that waits goes on a sleep queue and releases its lock.  [sem.c], [rwlock.c] and
      [condvar.c] are built on the sleep queues, [thread.c] on contexts and the heap,
      [oneshot.c] calls back from a tick.  Below it the headers of each processor save
      and restore registers for a switch, [trap.c] and [trap_asm.S] (on the AVR the
      interrupt routines and [entry.S]) for an interrupt.
    - Memory.  [heap.c] keeps its holes in a list threaded through the free memory;
      [membuf.c] puts a reference count and a clean-up function in front of a block;
      [netbuf.c] groups up to four layers of a packet, each a membuf, under a
      structure that is a membuf too.
    - The network.  Received octets go up through the framing ([slip.c],
      [ppp_ahdlc.c], [ethernet.c] over [ethdev.c]), the link protocols ([ppp.c],
      [ppp_ip.c], [ethernet_ip.c], [ip_datalink.c]) and [ip.c] to [udp.c] and [tcp.c]:
      every layer looks up the client for the packet and calls its receive function.
      Packets to send go down through the send functions of the servers.  [ipcsum.c]
      makes and checks checksums.
    - Devices.  The interrupt handler of [uart.c] fills a ring of octets that a thread
      hands to the framing; [timer.c] counts ticks, [pic.c] masks interrupt lines.
      [ne2000.c] and [3c509.c] move packets between netbufs and a network card,
      [bbi2c.c] shifts bytes over the two wires of an I2C bus.

    ** The files

    - [Prelude.v] (this file): record update, the result type [res], machine-width
      integers, byte-addressed memory, locks of an instance, shared lemmas and hints.
    - [Heap.v]: heap.c on bytes in memory, and the refinement of the list of holes.
    - [Context.v]: the data and every operation of src/lib/context; [Sched.v] is its
      invariant, [Kernel.v] the machine of all operations and its theorems.
    - [Sync.v]: Modules for sem.c, rwlock.c and condvar.c over [Context.v].
    - [Thread.v]: thread.c over [Context.v]; [Oneshot.v]: oneshot.c.
    - [Ipcsum.v]: ipcsum.c and the assembly loops of both targets.
    - [Membuf.v], [NetbufMem.v]: membuf.c and netbuf.c in the memory of [Heap.v].
      [Netbuf.v] is a second, coarser view of a netbuf, a record with the bytes of each
      layer, and of counted structures, a map of counts, which is all that the framing
      files use: [Slip.v] is slip.c, [PppAhdlc.v] is ppp_ahdlc.c.
    - [Ip.v], [Udp.v]: ip.c and udp.c, with packets, netbufs and counts in memory.
    - [Parts.v]: the interfaces between the network components.  The state of a host
      is the memory pool, the IP instance and a value [X]; [Part X A] says that [X] has
      an instance of type [A], [Apart] that two of them do not overlap.  Also the
      calls of the one-shot service, and weakest preconditions for long handlers.
    - [Asm.v]: programs with jumps and what it is for one to finish; [I386.v] the
      instructions of the i386 that the source uses; [CString.v], [AvrString.v]: the
      string functions of include/i386 and include/avr as instruction sequences,
      against one reference on lists.
    - [Switch.v]: the interface of a processor that switches contexts; [I386Switch.v],
      [AvrSwitch.v]: context_switch.h and context_enter.h of the two processors,
      instances of it.  [Trap.v]: trap.c and trap_asm.S, and for the AVR the code
      around an interrupt routine.
    - [Uart.v]: uart.c, pic.c and timer.c of the PC, on a model of the registers of a
      16550.  [AvrUart.v]: uart.c and timer0.c of the ATmega103, with the ring and the
      clock of [Uart.v].  [BbI2c.v]: bbi2c.c of the ATmega103, on the levels of the wires with a
      device at the other end.  [Ne2000.v]: ne2000.c of the PC, on a model of the
      registers and the packet memory of an NS8390; [C509.v]: 3c509.c of the PC, on a
      model of a card with a FIFO in each direction; [Cards.v]: what both share.
    - [Ethernet.v]: ethdev.c and ethernet.c; [EthernetIp.v]: ethernet_ip.c and
      ip_datalink.c.
    - [PppTable.v]: the transition table of ppp.c; [Ppp.v]: the rest of ppp.c;
      [Lcp.v]: its control state and the simulation; [PppIp.v]: ppp_ip.c.  Both answer
      Configure-Requests with the same routine: [ConfReq.v] verifies it once, for any
      [Negotiator], [LcpReq.v] and [IpcpReq.v] are its instances.
    - [Tcp.v]: tcp.c; [TcpKeep.v]: rules for what its handlers leave alone;
      [TcpRecv.v], [TcpSend.v]: the receiving and the sending side of a connection.

    A C function has a definition of its name.  A structure is a record with the
    fields of the source; a structure that is shared or linked is in a store by its
    identifier or address.  A w-bit integer is a [Z], reduced with [u8], [u16], [u32]
    where the source stores a result that can overflow.  A failed debug check, or an
    access that C leaves undefined, is [Stop].  What a context executes when it is
    switched in again is data in the kernel state, so that an operation that blocks
    is two steps.  Functions the code calls through pointers are parameters.

    ** What the theorems show

    - C1-C5, [Heap.v].  [heap_alloc] implements best fit, [heap_free] coalescing
      release on the abstract list of holes; every run of the allocator keeps its
      invariant; an allocation is undone by its release; misuse stops.
    - C6-C12, [Kernel.v].  In every reachable kernel the running context is the most
      urgent one; yield, unlock, wait, resume, signal and broadcast do what they
      promise; misuse of locks stops.
    - C13 and C16, [Sync.v].  Counting of semaphores, grants and hand-over of
      reader-writer locks; beside them two defects: an interrupted wait leaves the
      count wrong, a released writer stays registered.
    - C14, [Uart.v].  The serial driver is a queue of fifteen octets for every order of
      octets, interrupts, sends and reads.  [pic_masks_lines] and
      [clock_counts_interrupts] do the same for the masks and the clock, and in
      [AvrUart.v] [avr_uart_refines_port] and [avr_clock_is_clock] for the AVR.
    - C15, [CString.v]; C18, [AvrString.v].  The assembly code of the string functions
      and of memcpy ends and does what the reference says, with the exceptions stated.
    - C17, [IpcpReq.v].  Two hosts that run IPCP agree on an address.
    - C19 and C21, [Ipcsum.v].  The i386 loop is the one's complement sum, a filled-in
      checksum verifies, and the AVR loop differs for some lengths.
    - C20, [TcpSend.v].  The sending side of a socket refines a stop-and-wait sender,
      for every order of calls, segments and timers; [tcp_deferred_fin_is_lost] is a
      defect beside it.
    - C22, [Slip.v]; C25, [PppAhdlc.v].  Framing and unframing a packet is the
      identity, whatever was received before; receivers take any octets without
      leaving their buffer; the CRC table is CRC-16; PPP framing accepts some damaged
      frames ([ahdlc_accepts_damaged_frame]).
    - C23, [BbI2c.v].  Reads and writes of the bit-banged bus are, for every device,
      transfers of whole bytes with at most four attempts.
    - C24, [Ne2000.v].  The NE2000 with its driver is a queue of frames in each
      direction, for every order of events; beside it three defects, among them that a
      long frame is written over the receive ring.  In [C509.v] [c509_moves_frames]:
      what is sent goes on the wire unchanged, what is received is handed up, with a
      byte too many if it is odd.
    - C26, [AvrSwitch.v].  On both processors a context that is switched in goes on
      exactly where it was switched out, and a new one starts in its function,
      whatever the other contexts did.
    - C27, [Oneshot.v]; C29, [Thread.v].  What a tick and the end of a time slice do.
    - C28, [Trap.v].  Every vector has its gate; an interrupted program gets back every
      register and flag, except for two vectors whose entry is wrong.
    - C30-C31, [Membuf.v], [NetbufMem.v].  Membufs implement a map of reference
      counts; a clone and its release restore all counts.
    - C32-C35, [Ip.v], [Udp.v].  The packets that are built, byte by byte, and that
      the receiver delivers exactly what was sent.
    - C36, [EthernetIp.v].  A packet goes to the next hop of a most specific route,
      with the MAC address of the cache, or an ARP request goes out instead.
    - C37-C38, [Lcp.v].  The handlers simulate a finite automaton; the restart timer
      runs exactly in the states that wait; without answers a negotiation ends after
      at most eleven timeouts.
    - C39, [IpcpReq.v].  [lcp_check_request] and [ipcp_check_request] end on every
      request and write exactly the reference answer, inside the first octets of the
      buffer, and take over exactly the acknowledged settings.
    - C40, [TcpRecv.v].  A socket takes exactly the segments that continue its stream
      and hands their data to the client once and in order.

    ** Fuel

    A loop over a linked list gets one more iteration than there are elements in the
    store ([walk_fuel] for contexts, the holes of [Heap.v], the timers, the threads);
    the invariants show that the lists have no cycle, and the theorems state results,
    so that running out of fuel is excluded.  The compound actions of PPP are at most
    three deep ([handle_action_depth]).  An option takes at least a byte of the packet,
    so the option loops get one more iteration than there are bytes
    ([walk_tcp_options_ends], C39).  The search for a free port tries one port more
    than there are sockets ([next_port_free]).  A netbuf is freed through its clean-up
    function, which frees layers that have none: two calls deep.  For assembly code
    [finishes] says that some number of steps reaches the end of the program; programs
    are deterministic, so the end is unique.  The interrupt handler of the UART gets
    three rounds more than octets are pending, which C14 shows to be enough.  The
    NE2000 driver waits for the card only while it is initialised, and empties the ring
    only after an overflow: C24 holds with any fuel.  The 3C509 driver asks once
    whether a packet was discarded.  [tcp_connect] waits
    as long as the other side lets it: its fuel is the number of wake-ups.

    ** Hypotheses

    Theorems about code that calls a driver, a datalink or a client assume of these
    only that they leave the part of the state alone that the theorem is about: in
    [Lcp.v] the control state of the PPP instance and its timer ([send_quiet] and the
    like), in [TcpRecv.v] the receiving side of the socket, in
    [TcpSend.v] its sending side (clients may send and close).  [LcpReq.v] takes the
    bytes that follow a local variable on the stack as a parameter.  Each such theorem
    has a witness with concrete functions.

    ** Not modelled

    The drivers of the other network cards (i82595.c, smc91c96.c, and the NE2000
    driver of the ATmega103, whose 3c509.c is that of the PC), the initialisation of the PC serial port, the
    boot code and the demonstration programs under src/test: they consist of accesses
    to registers of devices whose behaviour the source does not say.  The headers with the addresses of AVR registers have nothing
    but these constants.  The model of the scheduler is above the switch: in
    [Context.v] a context switch is a change of the current context, which [Switch.v]
    justifies.  Debug lights, printed output and the per-target differences other than
    the assembly code are left out.  In [Tcp.v] the condition variables
    are parameters; their effect on the scheduler is in [Sync.v]. *)

From stdpp Require Import base list gmap fin_maps strings.
From Stdlib Require Import ZArith Lia.
Open Scope Z_scope.

(** ** Record update

    [r <| f := v |>] is the record [r] with field [f] replaced; a record type
    opts in with an [Eta] instance, the eta-expansion of its constructor. *)

Class Eta (R : Type) := eta : R -> R.
Class Setter {R T : Type} (proj : R -> T) := setter : (T -> T) -> R -> R.

Ltac build_setter proj :=
  lazymatch type of proj with
  | ?R -> ?T =>
    let e := constr:(_ : Eta R) in
    let e := eval hnf in e in
    exact (fun (f : T -> T) (x : R) =>
      ltac:(let b := eval cbv beta in (e x) in
            lazymatch b with
            | context C [proj x] => let r := context C [f (proj x)] in exact r
            end))
  end.

#[export] Hint Extern 0 (Setter ?proj) => build_setter proj : typeclass_instances.

Declare Scope liq_scope.
Delimit Scope liq_scope with liq.
Notation "x <| f := v |>" := (setter (proj:=f) (fun _ => v) x)
  (at level 1, f at level 200, v at level 200, left associativity) : liq_scope.
Open Scope liq_scope.

(** ** Outcomes

    With [DEBUG] set to 1 (debug.h) a failed consistency check calls
    [debug_stop()] and then loops in [debug_cycle()], which on the i386 target
    is [while (1);]: the system halts.  [Stop why] is that outcome.  [Fuel] is
    the outcome of a model loop that ran out of iterations; the termination
    theorems show that it does not happen. *)

Inductive res (A : Type) : Type :=
  | Ok (a : A)
  | Stop (why : string)
  | Fuel.
Arguments Ok {A} _.
Arguments Stop {A} _.
Arguments Fuel {A}.

#[export] Instance res_ret : MRet res := @Ok.
#[export] Instance res_bind : MBind res := fun A B f m =>
  match m with Ok a => f a | Stop w => Stop w | Fuel => Fuel end.

Definition is_ok {A} (r : res A) : bool := match r with Ok _ => true | _ => false end.

Lemma bind_Ok {A B} (m : res A) (f : A -> res B) (b : B) :
  m ≫= f = Ok b -> exists a, m = Ok a /\ f a = Ok b.
Proof. destruct m; cbn; intros; try discriminate. eauto. Qed.

(** Peel one monadic step off a hypothesis [m ≫= f = Ok b]. *)
Ltac bind_inv H :=
  let a := fresh "r" in let H1 := fresh H in
  apply bind_Ok in H; destruct H as (a & H1 & H).

(** ** Time *)

(** Ticks of the clock per second (include/timer.h), for the clock and for TCP. *)
Definition TICK_RATE : Z := 100.

(** ** Machine integers *)

Definition u8 (x : Z) : Z := x mod 2 ^ 8.
Definition u16 (x : Z) : Z := x mod 2 ^ 16.
Definition u32 (x : Z) : Z := x mod 2 ^ 32.

Lemma u8_small x : 0 <= x < 2 ^ 8 -> u8 x = x.
Proof. apply Z.mod_small. Qed.
Lemma u16_small x : 0 <= x < 2 ^ 16 -> u16 x = x.
Proof. apply Z.mod_small. Qed.
Lemma u32_small x : 0 <= x < 2 ^ 32 -> u32 x = x.
Proof. apply Z.mod_small. Qed.
Lemma u8_range x : 0 <= u8 x < 2 ^ 8.
Proof. apply Z.mod_pos_bound; lia. Qed.
Lemma u16_range x : 0 <= u16 x < 2 ^ 16.
Proof. apply Z.mod_pos_bound; lia. Qed.
Lemma u32_range x : 0 <= u32 x < 2 ^ 32.
Proof. apply Z.mod_pos_bound; lia. Qed.

Lemma lxor_ffff z : 0 <= z < 2 ^ 16 -> Z.lxor z 0xffff = 0xffff - z.
Proof.
  intros Hz. change 0xffff with (Z.ones 16).
  assert (Hl : Z.log2 z < 16) by (destruct (Z.eq_dec z 0) as [->|]; [cbn; lia|apply Z.log2_lt_pow2; lia]).
  rewrite <-Z.ldiff_ones_l_low by lia. symmetry. apply Z.sub_nocarry_ldiff.
  apply Z.ldiff_ones_r_low; lia.
Qed.

(** A property of every number below a bound, decided by evaluation. *)
Fixpoint all_from (n : nat) (x : Z) (f : Z -> bool) : bool :=
  match n with O => true | S n => f x && all_from n (x + 1) f end.

Lemma all_from_spec n x f y :
  all_from n x f = true -> x <= y < x + Z.of_nat n -> f y = true.
Proof.
  revert x; induction n as [|n IH]; intros x; [lia|]. cbn [all_from].
  intros [H1 H2]%andb_true_iff Hy. destruct (decide (y = x)) as [->|]; [done|]. apply (IH (x + 1)); [done|lia].
Qed.

Lemma all_below (b : Z) (f : Z -> bool) x :
  all_from (Z.to_nat b) 0 f = true -> 0 <= x < b -> f x = true.
Proof. intros H Hx. eapply all_from_spec; [exact H|lia]. Qed.

(** Sizes in bytes of the C types the source uses, for the i386 target
    (include/i386/types.h). *)
Definition sizeof_addr_t : Z := 4.
Definition sizeof_ptr : Z := 4.
Definition sizeof_fast_u16_t : Z := 4.

Create HintDb liq.
#[export] Hint Resolve u8_range u16_range u32_range : liq.

(** ** Byte-addressed memory

    The store behind C pointers, one byte per address; a word access may be
    unaligned, as it may on the i386. *)

Abbreviation mem := (gmap Z Z).

Definition load8 (m : mem) (a : Z) : Z := u8 (default 0 (m !! a)).
Definition store8 (m : mem) (a v : Z) : mem := <[a := u8 v]> m.

Definition load32 (m : mem) (a : Z) : Z :=
  load8 m a + 2 ^ 8 * load8 m (a + 1) + 2 ^ 16 * load8 m (a + 2) + 2 ^ 24 * load8 m (a + 3).

Definition store32 (m : mem) (a v : Z) : mem :=
  store8 (store8 (store8 (store8 m a v) (a + 1) (v / 2 ^ 8)) (a + 2) (v / 2 ^ 16))
    (a + 3) (v / 2 ^ 24).

Lemma load8_store8 m a v : load8 (store8 m a v) a = u8 v.
Proof. unfold load8, store8. rewrite lookup_insert_eq. cbn. apply Z.mod_mod. lia. Qed.

Lemma load8_store8_ne m a b v : a <> b -> load8 (store8 m a v) b = load8 m b.
Proof. intros H. unfold load8, store8. by rewrite lookup_insert_ne. Qed.

Lemma load8_store32_ne m a v b :
  b < a \/ a + 4 <= b -> load8 (store32 m a v) b = load8 m b.
Proof. intros H. unfold store32. rewrite !load8_store8_ne by lia. done. Qed.

Lemma load8_store32_in m m' a v b :
  a <= b < a + 4 -> load8 (store32 m a v) b = load8 (store32 m' a v) b.
Proof.
  intros H. unfold store32. assert (b = a \/ b = a + 1 \/ b = a + 2 \/ b = a + 3) by lia.
  destruct_or?; subst b; repeat (rewrite load8_store8 || rewrite load8_store8_ne by lia); done.
Qed.

Lemma load8_store32_ext m m' a v b :
  load8 m b = load8 m' b -> load8 (store32 m a v) b = load8 (store32 m' a v) b.
Proof.
  intros H. destruct (decide (a <= b < a + 4)); [by apply load8_store32_in|].
  by rewrite !load8_store32_ne by lia.
Qed.

Lemma load32_ext m m' a :
  (forall b, a <= b < a + 4 -> load8 m b = load8 m' b) -> load32 m a = load32 m' a.
Proof. intros H. unfold load32. rewrite !H by lia. done. Qed.

Lemma load32_store32_ne m a v b :
  b + 4 <= a \/ a + 4 <= b -> load32 (store32 m a v) b = load32 m b.
Proof. intros H. apply load32_ext. intros c Hc. apply load8_store32_ne. lia. Qed.

Lemma load32_store32 m a v : 0 <= v < 2 ^ 32 -> load32 (store32 m a v) a = v.
Proof.
  intros Hv. unfold load32, store32.
  repeat (rewrite load8_store8 || rewrite load8_store8_ne by lia).
  unfold u8. Z.div_mod_to_equations. lia.
Qed.

Lemma load32_range m a : 0 <= load32 m a < 2 ^ 32.
Proof.
  unfold load32, load8.
  pose proof (u8_range (default 0 (m !! a))). pose proof (u8_range (default 0 (m !! (a + 1)))).
  pose proof (u8_range (default 0 (m !! (a + 2)))). pose proof (u8_range (default 0 (m !! (a + 3)))).
  lia.
Qed.
#[export] Hint Resolve load32_range : liq.

(** Case analysis on the boolean comparisons of the goal and the context. *)
Ltac bool_cases :=
  repeat match goal with
  | H : context [if ?b then _ else _] |- _ =>
      lazymatch b with context [if _ then _ else _] => fail | _ => destruct b eqn:? end
  | |- context [if ?b then _ else _] =>
      lazymatch b with context [if _ then _ else _] => fail | _ => destruct b eqn:? end
  end.

(** ** The lock word of a spinlock

    What [spinlock_lock] and [spinlock_unlock] (src/lib/context/spinlock.c) do
    to the word [l_lock] of a [struct lock], with their [DEBUG] checks: taking a
    held lock and releasing a free one halt.  The components that only use a
    lock to bracket a critical section model it with these two; [Context.v]
    models the complete functions and shows that they act on [l_lock] this
    way. *)

Definition spin_lock (l : bool) : res bool :=
  if l then Stop "spllk already held" else Ok true.

Definition spin_unlock (l : bool) : res bool :=
  if l then Ok false else Stop "splun not held".
