(* ===== verification/Heap.v ===== *)
(** * The heap (src/lib/heap/heap.c, include/heap.h)

    The allocator at the level of the bytes it manages: hole and block headers
    live in memory, the free list is threaded through the holes.  [heap_alloc],
    [heap_free], [heap_get_free], [heap_dump_stats] and [heap_add] are
    translated statement by statement.  The abstract state is the list of holes
    (address, size) in increasing address order; [heap_inv] relates the two, and
    the refinement lemmas show that the byte-level code implements best-fit
    allocation and coalescing release on that list. *)

From stdpp Require Import base list gmap fin_maps strings.
From Stdlib Require Import ZArith Lia.
From S2P Require Import Prelude.
Open Scope Z_scope.

(** ** Data *)

Definition MEMORY_HOLE_MAGIC : Z := 0x4d48.
Definition MEMORY_BLOCK_MAGIC : Z := 0x4d42.

Lemma hole_magic_range : 0 <= MEMORY_HOLE_MAGIC < 2 ^ 32.
Proof. done. Qed.
Lemma block_magic_range : 0 <= MEMORY_BLOCK_MAGIC < 2 ^ 32.
Proof. done. Qed.
#[export] Hint Resolve hole_magic_range block_magic_range : liq.

(** Layout of [struct memory_hole], [struct memory_block] and
    [union memory_union]; [HEAP_DEBUG] is 1, so each carries a magic word of
    type [fast_u16_t] after it. *)
Definition sizeof_memory_hole : Z := sizeof_addr_t + sizeof_ptr.
Definition sizeof_memory_block : Z := sizeof_addr_t.
Definition sizeof_memory_union : Z := Z.max sizeof_memory_hole sizeof_memory_block.

(** The globals of heap.c: the lock word of [heap_lock], [free_ram] and
    [first_hole] (0 is [NULL]), with the memory the holes and blocks lie in. *)
Record heap := Heap_ {
  heap_lock : bool;
  free_ram : Z;
  first_hole : Z;
  h_mem : mem }.

#[export] Instance eta_heap : Eta heap :=
  fun h => Heap_ (heap_lock h) (free_ram h) (first_hole h) (h_mem h).

(** Field access through a [struct memory_hole *]; [mb_size] of a block is at
    the offset of [mh_size] of a hole. *)
Definition mh_size (m : mem) (mh : Z) : Z := load32 m mh.
Definition mh_next (m : mem) (mh : Z) : Z := load32 m (mh + 4).

Definition put32 (a v : Z) (h : heap) : heap := h <| h_mem := store32 (h_mem h) a v |>.

(** A [struct memory_hole **]: [&first_hole] or [&mh->mh_next]. *)
Inductive slot :=
  | Sfirst
  | Snext (mh : Z).

Definition put_slot (s : slot) (v : Z) (h : heap) : heap :=
  match s with
  | Sfirst => h <| first_hole := v |>
  | Snext mh => put32 (mh + 4) v h
  end.

(** ** Operations *)

(** The size a request is rounded up to. *)
Definition alloc_required (size : Z) : Z :=
  let required := u32 (size + sizeof_memory_block + sizeof_fast_u16_t) in
  if required <? sizeof_memory_hole + sizeof_fast_u16_t
  then sizeof_memory_hole + sizeof_fast_u16_t else required.

(** The scan of the hole list in [heap_alloc]. *)
Fixpoint alloc_scan (fuel : nat) (m : mem) (required mh : Z) (mhprev : slot)
    (use : Z) (useprev : slot) : res (Z * slot) :=
  match fuel with
  | O => Fuel
  | S fuel =>
    if mh =? 0 then Ok (use, useprev)
    else if mh_size m mh =? required then Ok (mh, mhprev)
    else
      let better := (required <? mh_size m mh)
                    && ((use =? 0) || (mh_size m mh <? mh_size m use)) in
      alloc_scan fuel m required (mh_next m mh) (Snext mh)
        (if better then mh else use) (if better then mhprev else useprev)
  end.

(** Split the chosen hole, or take all of it: the new state and the size
    actually used. *)
Definition alloc_carve (use : Z) (useprev : slot) (required : Z) (h : heap) : heap * Z :=
  if sizeof_memory_union + 1 + sizeof_fast_u16_t <? u32 (mh_size (h_mem h) use - required)
  then
    let new_hole := u32 (use + required) in
    let h := put32 new_hole (u32 (mh_size (h_mem h) use - required)) h in
    let h := put32 (new_hole + 4) (mh_next (h_mem h) use) h in
    let h := put_slot useprev new_hole h in
    let h := put32 (new_hole + sizeof_memory_hole) MEMORY_HOLE_MAGIC h in
    (h, required)
  else
    let required := mh_size (h_mem h) use in
    (put_slot useprev (mh_next (h_mem h) use) h, required).

Definition heap_alloc (fuel : nat) (size : Z) (h : heap) : res (Z * heap) :=
  if 0x8000 <? size then Stop "heap_alloc: large sz"
  else
    let required := alloc_required size in
    lk ← spin_lock (heap_lock h);
    let h := h <| heap_lock := lk |> in
    '(use, useprev) ← alloc_scan fuel (h_mem h) required (first_hole h) Sfirst 0 Sfirst;
    if use =? 0 then Stop "heap_alloc: NULL pointer"
    else
      let '(h, required) := alloc_carve use useprev required h in
      let mb := use in
      let h := put32 mb required h in
      let magic := mb + sizeof_memory_block in
      let h := put32 magic MEMORY_BLOCK_MAGIC h in
      let block := magic + sizeof_fast_u16_t in
      let h := h <| free_ram := u32 (free_ram h - required) |> in
      lk ← spin_unlock (heap_lock h);
      Ok (block, h <| heap_lock := lk |>).

(** The walk of [heap_free]: merge the block with the hole before it and the
    hole after it, or link it in as a hole of its own. *)
Fixpoint free_scan (fuel : nat) (mb mh : Z) (mhprev : slot) (h : heap) : res heap :=
  match fuel with
  | O => Fuel
  | S fuel =>
    if mh =? 0 then Ok (put_slot mhprev mb (put32 (mb + 4) mh h))
    else if u32 (mh + mh_size (h_mem h) mh) =? mb then
      let h := put32 mh (u32 (mh_size (h_mem h) mh + mh_size (h_mem h) mb)) h in
      if u32 (mh + mh_size (h_mem h) mh) =? mh_next (h_mem h) mh then
        let h := put32 mh (u32 (mh_size (h_mem h) mh
                                + mh_size (h_mem h) (mh_next (h_mem h) mh))) h in
        Ok (put32 (mh + 4) (mh_next (h_mem h) (mh_next (h_mem h) mh)) h)
      else Ok h
    else if mb <? mh then
      let h := put_slot mhprev mb h in
      if u32 (mb + mh_size (h_mem h) mb) =? mh then
        let h := put32 mb (u32 (mh_size (h_mem h) mb + mh_size (h_mem h) mh)) h in
        Ok (put32 (mb + 4) (mh_next (h_mem h) mh) h)
      else Ok (put32 (mb + 4) mh h)
    else free_scan fuel mb (mh_next (h_mem h) mh) (Snext mh) h
  end.

Definition heap_free (fuel : nat) (block : Z) (h : heap) : res heap :=
  let magic := block - sizeof_fast_u16_t in
  if negb (load32 (h_mem h) magic =? MEMORY_BLOCK_MAGIC) then Stop "heap_free: non-memory-blk"
  else
    let mb := magic - sizeof_memory_block in
    lk ← spin_lock (heap_lock h);
    let h := h <| heap_lock := lk |> in
    let h := h <| free_ram := u32 (free_ram h + mh_size (h_mem h) mb) |> in
    let h := put32 (mb + sizeof_memory_hole) MEMORY_HOLE_MAGIC h in
    h ← free_scan fuel mb (first_hole h) Sfirst h;
    lk ← spin_unlock (heap_lock h);
    Ok (h <| heap_lock := lk |>).

Definition heap_get_free (h : heap) : res (Z * heap) :=
  lk ← spin_lock (heap_lock h);
  let h := h <| heap_lock := lk |> in
  let ret := free_ram h in
  lk ← spin_unlock (heap_lock h);
  Ok (ret, h <| heap_lock := lk |>).

(** The loop of [heap_dump_stats]: it ends after [max] entries at the latest, so
    [max] bounds its iterations; [mbuf] is the list of entries written. *)
Fixpoint dump_scan (m : mem) (mh : Z) (max : nat) : list (Z * Z) :=
  match max with
  | O => []
  | S max => if mh =? 0 then [] else (mh, mh_size m mh) :: dump_scan m (mh_next m mh) max
  end.

Definition heap_dump_stats (max : nat) (h : heap) : res (list (Z * Z) * heap) :=
  lk ← spin_lock (heap_lock h);
  let h := h <| heap_lock := lk |> in
  let mbuf := dump_scan (h_mem h) (first_hole h) max in
  lk ← spin_unlock (heap_lock h);
  Ok (mbuf, h <| heap_lock := lk |>).

Definition heap_add (fuel : nat) (addr sz : Z) (h : heap) : res heap :=
  let mb := addr in
  let h := put32 mb sz h in
  let magic := mb + sizeof_memory_block in
  let h := put32 magic MEMORY_BLOCK_MAGIC h in
  heap_free fuel (magic + sizeof_fast_u16_t) h.

(** ** The abstract free list *)

Abbreviation hole := (Z * Z)%type.

Definition hole_end (p : hole) : Z := p.1 + p.2.

(** [hole_list m p l]: starting at pointer [p], memory [m] holds the linked
    holes [l], each with its size and its magic word. *)
Fixpoint hole_list (m : mem) (p : Z) (l : list hole) : Prop :=
  match l with
  | [] => p = 0
  | (a, s) :: l => p = a /\ mh_size m a = s /\ load32 m (a + 8) = MEMORY_HOLE_MAGIC
                  /\ hole_list m (mh_next m a) l
  end.

(** Holes lie above [lo] in increasing order with a gap between neighbours (no
    two adjacent holes are left unmerged), each large enough for its header. *)
Fixpoint wf_holes (lo : Z) (l : list hole) : Prop :=
  match l with
  | [] => True
  | (a, s) :: l => lo < a /\ 12 <= s /\ a + s < 2 ^ 32 /\ wf_holes (a + s) l
  end.

Fixpoint total (l : list hole) : Z :=
  match l with [] => 0 | (_, s) :: l => s + total l end.

Definition in_hole (x : Z) (p : hole) : Prop := p.1 <= x < hole_end p.
Definition in_holes (x : Z) (l : list hole) : Prop := Exists (in_hole x) l.

Record heap_inv (h : heap) (l : list hole) : Prop := {
  inv_list : hole_list (h_mem h) (first_hole h) l;
  inv_wf : wf_holes 0 l;
  inv_free : free_ram h = total l;
  inv_lock : heap_lock h = false }.

(** Best fit: the smallest sufficient hole, the first of them in address
    order. *)
Definition best_fit (required : Z) (l1 : list hole) (p : hole) (l2 : list hole) : Prop :=
  required <= p.2 /\
  Forall (fun q => required <= q.2 -> p.2 < q.2) l1 /\
  Forall (fun q => required <= q.2 -> p.2 <= q.2) l2.

(** What is left of a hole [(a, s)] after [required] bytes are taken, and how
    much is really taken: a remainder too small to be a hole goes with the
    block. *)
Definition splits (s required : Z) : bool := 13 <? s - required.
Definition left_over (a s required : Z) : list hole :=
  if splits s required then [(a + required, s - required)] else [].
Definition taken (s required : Z) : Z := if splits s required then required else s.

(** Releasing block [(a, s)] into the list, merging on both sides. *)
Fixpoint insert_hole (a s : Z) (l : list hole) : list hole :=
  match l with
  | [] => [(a, s)]
  | (b, t) :: l' =>
    if b + t =? a then
      match l' with
      | (c, u) :: l'' => if b + t + s =? c then (b, t + s + u) :: l'' else (b, t + s) :: l'
      | [] => [(b, t + s)]
      end
    else if a <? b then
      if a + s =? b then (a, s + t) :: l' else (a, s) :: l
    else (b, t) :: insert_hole a s l'
  end.

(** ** Facts about well-formed hole lists *)

Lemma wf_holes_mono lo lo' l : lo' <= lo -> wf_holes lo l -> wf_holes lo' l.
Proof. destruct l as [|[a s] l]; cbn; intros; intuition lia. Qed.

Lemma wf_holes_lb lo l p : wf_holes lo l -> p ∈ l -> lo < p.1 /\ 12 <= p.2 /\ hole_end p < 2 ^ 32.
Proof.
  revert lo; induction l as [|[a s] l IH]; intros lo H Hp; [by apply elem_of_nil in Hp|].
  cbn in H. destruct H as (?&?&?&Hl). apply elem_of_cons in Hp as [->|Hp].
  - unfold hole_end; cbn; lia.
  - specialize (IH _ Hl Hp). lia.
Qed.

Lemma wf_holes_app lo l1 a s l2 :
  wf_holes lo (l1 ++ (a, s) :: l2) <->
  wf_holes lo l1 /\ Forall (fun p => hole_end p < a) l1 /\ lo < a /\ 12 <= s /\ a + s < 2 ^ 32
  /\ wf_holes (a + s) l2.
Proof.
  revert lo; induction l1 as [|[b t] l1 IH]; intros lo; cbn.
  { rewrite Forall_nil. tauto. }
  rewrite IH, Forall_cons. unfold hole_end at 2; cbn. intuition lia.
Qed.

Lemma wf_total_bound lo l : 0 <= lo -> wf_holes lo l -> 0 <= total l /\ (l = [] \/ lo + total l < 2 ^ 32).
Proof.
  revert lo; induction l as [|[a s] l IH]; intros lo Hlo H; cbn in *; [auto with lia|].
  destruct H as (?&?&?&Hl). destruct (IH (a + s)) as [? [->|?]]; auto with lia; cbn in *; split; try lia; right; lia.
Qed.

Lemma total_app l1 l2 : total (l1 ++ l2) = total l1 + total l2.
Proof. induction l1 as [|[a s] l1 IH]; cbn; lia. Qed.

(** The header bytes of the holes of [l]. *)
Definition in_header (x : Z) (l : list hole) : Prop :=
  Exists (fun p : hole => p.1 <= x < p.1 + 12) l.

Lemma in_header_hole lo l x : wf_holes lo l -> in_header x l -> in_holes x l.
Proof.
  revert lo; induction l as [|[a s] l IH]; intros lo H Hx; [by apply Exists_nil in Hx|].
  destruct H as (?&?&?&Hl). apply Exists_cons in Hx as [Hx|Hx]; cbn in Hx.
  - left. unfold in_hole, hole_end; cbn; lia.
  - right. eapply IH; eauto.
Qed.

Lemma in_holes_lb lo l x : wf_holes lo l -> in_holes x l -> lo < x.
Proof.
  intros H Hx. apply Exists_exists in Hx as (p & Hp & Hx).
  pose proof (wf_holes_lb _ _ _ H Hp). unfold in_hole in Hx. lia.
Qed.

(** A change of memory outside the headers keeps the linked list. *)
Lemma hole_list_frame m m' p l :
  (forall x, in_header x l -> load8 m' x = load8 m x) ->
  hole_list m p l -> hole_list m' p l.
Proof.
  revert p; induction l as [|[a s] l IH]; intros p Hf H; cbn in *; [done|].
  destruct H as (-> & Hs & Hm & Hl).
  assert (Hw : forall o, 0 <= o <= 8 -> load32 m' (a + o) = load32 m (a + o)).
  { intros o Ho. apply load32_ext. intros b Hb. apply Hf. left. cbn; lia. }
  unfold mh_size, mh_next in *.
  pose proof (Hw 0 ltac:(lia)) as H0. rewrite Z.add_0_r in H0.
  rewrite H0, !Hw by lia. repeat split; auto.
  apply IH; auto. intros x Hx. apply Hf. by right.
Qed.

(** A [struct memory_hole **] that points at the link after the holes [l1]. *)
Definition slot_of (l1 : list hole) : slot :=
  match last l1 with None => Sfirst | Some p => Snext p.1 end.

Lemma slot_of_app l1 a s : slot_of (l1 ++ [(a, s)]) = Snext a.
Proof. unfold slot_of. by rewrite last_snoc. Qed.

Definition in_link (x : Z) (s : slot) : Prop :=
  match s with Sfirst => False | Snext a => a + 4 <= x < a + 8 end.

Definition slot_val (s : slot) (m : mem) (first : Z) : Z :=
  match s with Sfirst => first | Snext a => mh_next m a end.

(** Relinking: if memory changes within the headers of [l1] only at the link
    that follows [l1], and that link now leads to the holes [l2'], then the
    whole list is [l1 ++ l2']. *)
Lemma hole_list_relink lo m m' p p' l1 l2 l2' :
  wf_holes lo l1 ->
  hole_list m p (l1 ++ l2) ->
  (forall x, in_header x l1 -> ~ in_link x (slot_of l1) -> load8 m' x = load8 m x) ->
  (l1 = [] \/ p' = p) ->
  hole_list m' (slot_val (slot_of l1) m' p') l2' ->
  hole_list m' p' (l1 ++ l2').
Proof.
  revert lo p p'; induction l1 as [|[a s] l1 IH]; intros lo p p' Hwf H Hf Hp Hl2.
  { exact Hl2. }
  destruct Hp as [Hp| ->]; [discriminate|].
  cbn in Hwf, H. destruct Hwf as (?&?&?&Hwf), H as (-> & Hs & Hm & Hl). cbn [app hole_list].
  destruct (decide (l1 = [])) as [->|Hne].
  - change (slot_of [(a, s)]) with (Snext a) in *. cbn [in_link slot_val] in Hf, Hl2.
    assert (Hw : forall o, o = 0 \/ o = 8 -> load32 m' (a + o) = load32 m (a + o)).
    { intros o Ho. apply load32_ext. intros x Hx. apply Hf; [left; cbn|]; lia. }
    repeat split; [|by rewrite Hw by auto|exact Hl2].
    unfold mh_size in *. rewrite <-(Z.add_0_r a), Hw, Z.add_0_r; auto.
  - assert (Hslot : slot_of ((a, s) :: l1) = slot_of l1).
    { unfold slot_of. destruct l1; [done|]. done. }
    rewrite Hslot in *.
    assert (Hlink : forall x, in_link x (slot_of l1) -> a + s < x).
    { intros x Hx. unfold slot_of in Hx. destruct (last l1) as [q|] eqn:E; [|done].
      apply last_Some_elem_of in E. pose proof (wf_holes_lb _ _ _ Hwf E). cbn in Hx. lia. }
    assert (Hw : forall o, 0 <= o <= 8 -> load32 m' (a + o) = load32 m (a + o)).
    { intros o Ho. apply load32_ext. intros x Hx. apply Hf; [left; cbn; lia|].
      intros Hx'. apply Hlink in Hx'. lia. }
    unfold mh_size, mh_next in *.
    pose proof (Hw 0 ltac:(lia)) as H0'. rewrite Z.add_0_r in H0'. rewrite H0', !Hw by lia.
    split_and!; [done..|]. eapply IH; eauto.
    + intros x Hx Hx'. apply Hf; auto. by right.
    + destruct (slot_of l1) eqn:E; [|done]. exfalso. unfold slot_of in E.
      destruct (last l1) eqn:E2; [done|]. by apply last_None in E2.
Qed.

(** Position of header bytes relative to a hole in the middle of the list. *)
Lemma in_header_before lo l1 a x :
  wf_holes lo l1 -> Forall (fun p => hole_end p < a) l1 -> in_header x l1 -> x < a.
Proof.
  intros Hwf Hl Hx. apply Exists_exists in Hx as (p & Hp & Hx).
  rewrite Forall_forall in Hl. pose proof (Hl _ Hp). pose proof (wf_holes_lb _ _ _ Hwf Hp).
  unfold hole_end in *. lia.
Qed.

Lemma in_header_after lo l x : wf_holes lo l -> in_header x l -> lo < x.
Proof. intros H Hx. eapply in_holes_lb; eauto using in_header_hole. Qed.

Lemma in_link_before lo l1 a x :
  wf_holes lo l1 -> Forall (fun p => hole_end p < a) l1 -> in_link x (slot_of l1) ->
  x < a /\ in_header x l1.
Proof.
  intros Hwf Hl Hx. unfold slot_of in Hx. destruct (last l1) as [q|] eqn:E; [|done].
  apply last_Some_elem_of in E. rewrite Forall_forall in Hl. pose proof (Hl _ E).
  pose proof (wf_holes_lb _ _ _ Hwf E). cbn in Hx. unfold hole_end in *.
  split; [lia|]. apply Exists_exists. exists q. split; [done|]. lia.
Qed.

(** What [put_slot] changes. *)
Lemma put_slot_first s v h : first_hole (put_slot s v h) = match s with Sfirst => v | _ => first_hole h end.
Proof. by destruct s. Qed.

Lemma put_slot_load8 s v h x :
  ~ in_link x s -> load8 (h_mem (put_slot s v h)) x = load8 (h_mem h) x.
Proof.
  destruct s as [|a]; cbn; intros H; [done|]. apply load8_store32_ne. lia.
Qed.

Lemma put_slot_val s v h :
  0 <= v < 2 ^ 32 ->
  slot_val s (h_mem (put_slot s v h)) (first_hole (put_slot s v h)) = v.
Proof. destruct s; cbn; [done|]. intros. unfold mh_next. by apply load32_store32. Qed.

Lemma put_slot_free s v h : free_ram (put_slot s v h) = free_ram h.
Proof. by destruct s. Qed.
Lemma put_slot_lock s v h : heap_lock (put_slot s v h) = heap_lock h.
Proof. by destruct s. Qed.

(** ** Allocation *)

(** What the scan has established about the holes [l] it has passed. *)
Definition chosen (m : mem) (required : Z) (l : list hole) (use : Z) (prev : slot) : Prop :=
  (use = 0 /\ Forall (fun q : hole => q.2 < required) l) \/
  (exists k1 k2, l = k1 ++ (use, mh_size m use) :: k2 /\ use <> 0 /\ prev = slot_of k1
                 /\ best_fit required k1 (use, mh_size m use) k2).

Lemma chosen_skip m required l q use prev :
  q.2 < required \/ (use <> 0 /\ mh_size m use <= q.2) ->
  chosen m required l use prev -> chosen m required (l ++ [q]) use prev.
Proof.
  intros Hq [[-> Hl]|(k1 & k2 & -> & Hu & -> & Hr & H1 & H2)].
  - left. split; [done|]. rewrite Forall_app, Forall_singleton. split; [done|]. lia.
  - right. exists k1, (k2 ++ [q]). split; [by rewrite <-app_assoc|].
    repeat split; auto. rewrite Forall_app, Forall_singleton. split; [done|].
    cbn in *. lia.
Qed.

Lemma chosen_take m required l a use prev :
  a <> 0 -> required <= mh_size m a ->
  Forall (fun q : hole => q.2 <> required) l ->
  (mh_size m a = required \/ use = 0 \/ mh_size m a < mh_size m use) ->
  chosen m required l use prev ->
  chosen m required (l ++ [(a, mh_size m a)]) a (slot_of l).
Proof.
  intros Ha Hr Hne Hlt H. right. exists l, []. split_and!; auto. split_and!; cbn; auto.
  destruct H as [[-> Hl]|(k1 & k2 & -> & Hu & -> & Hr' & H1 & H2)].
  - eapply Forall_impl; [exact Hl|]. cbn. lia.
  - rewrite Forall_app, Forall_cons in *. cbn in *. destruct Hne as (Hn1 & Hn & Hn2).
    rewrite !Forall_forall in *.
    assert (mh_size m a < mh_size m use) by lia.
    split_and!; [intros q Hq ?|lia|intros q Hq ?].
    + specialize (H1 q Hq). lia.
    + specialize (H2 q Hq). lia.
Qed.

Lemma alloc_scan_spec m required fuel lo l1 l2 mh use useprev :
  0 <= lo -> wf_holes lo l2 -> hole_list m mh l2 -> (length l2 < fuel)%nat ->
  Forall (fun q : hole => q.2 <> required) l1 ->
  chosen m required l1 use useprev ->
  exists use' prev', alloc_scan fuel m required mh (slot_of l1) use useprev = Ok (use', prev')
    /\ chosen m required (l1 ++ l2) use' prev'.
Proof.
  revert fuel lo l1 mh use useprev.
  induction l2 as [|[a s] l2 IH]; intros fuel lo l1 mh use useprev Hlo Hwf Hl Hfuel Hne Hc;
    (destruct fuel as [|fuel]; [cbn in Hfuel; lia|]); cbn in Hl |- *.
  { subst mh. exists use, useprev. rewrite app_nil_r. auto. }
  destruct Hl as (-> & Hs & _ & Hl). cbn in Hwf. destruct Hwf as (?&?&?&Hwf).
  destruct (Z.eqb_spec a 0); [lia|]. destruct (Z.eqb_spec (mh_size m a) required) as [E|E].
  { exists a, (slot_of l1). split; [done|]. right. exists l1, l2. subst s.
    split_and!; auto. split_and!; cbn; [lia|..]; rewrite Forall_forall; intros q Hq ?; [|lia].
    rewrite Forall_forall in Hne. specialize (Hne q Hq). lia. }
  set (better := (required <? mh_size m a) && ((use =? 0) || (mh_size m a <? mh_size m use))).
  replace (Snext a) with (slot_of (l1 ++ [(a, s)])) by apply slot_of_app.
  replace (l1 ++ (a, s) :: l2) with ((l1 ++ [(a, s)]) ++ l2) by by rewrite <-app_assoc.
  eapply (IH _ (a + s)); auto; [lia|cbn in Hfuel; lia| |].
  { rewrite Forall_app, Forall_singleton. cbn. split; [done|lia]. }
  subst s. destruct better eqn:B; subst better.
  - apply andb_true_iff in B as [B1 B2]. apply (chosen_take m required l1 a use useprev); auto; lia.
  - apply chosen_skip; auto. cbn. apply andb_false_iff in B.
    destruct (Z.eqb_spec use 0); cbn in B; lia.
Qed.

Lemma slot_val_frame s m m' f :
  (forall x, in_link x s -> load8 m' x = load8 m x) -> slot_val s m' f = slot_val s m f.
Proof. destruct s; cbn; intros H; [done|]. apply load32_ext. intros. apply H. lia. Qed.

(** Reduce reads of a memory built by stores and [put_slot]; the side
    conditions are inequalities between addresses. *)
Ltac mem_simp :=
  cbn [h_mem put32 setter];
  repeat first
    [ rewrite load8_store32_ne by lia
    | rewrite load32_store32_ne by lia
    | rewrite load32_store32 by (auto with liq; lia) ].

Lemma relink_first k1 v h :
  k1 = [] \/ first_hole (put_slot (slot_of k1) v h) = first_hole h.
Proof.
  rewrite put_slot_first. unfold slot_of. destruct (last k1) eqn:E; [by right|].
  left. by apply last_None in E.
Qed.

Lemma hole_list_suffix m p k1 k2 : hole_list m p (k1 ++ k2) -> exists q, hole_list m q k2.
Proof.
  revert p; induction k1 as [|[b t] k1 IH]; intros p; cbn; [eauto|]. intros (_ & _ & _ & H). eauto.
Qed.

(** [alloc_carve] for a hole in the middle of a well-formed list. *)
Section Carve.
Context (h : heap) (k1 k2 : list hole) (a s required : Z).
Context (Hl : hole_list (h_mem h) (first_hole h) (k1 ++ (a, s) :: k2)).
Context (Hwf : wf_holes 0 (k1 ++ (a, s) :: k2)) (Hr : 12 <= required <= s).

Definition carved (h' : heap) : Prop :=
  hole_list (h_mem h') (first_hole h') (k1 ++ left_over a s required ++ k2)
  /\ free_ram h' = free_ram h /\ heap_lock h' = heap_lock h
  /\ (forall x, ~ (a + required <= x < a + s) -> ~ in_link x (slot_of k1) ->
      load8 (h_mem h') x = load8 (h_mem h) x).

Lemma carve_facts :
  wf_holes 0 k1 /\ Forall (fun p => hole_end p < a) k1 /\ 0 < a /\ a + s < 2 ^ 32 /\ wf_holes (a + s) k2
  /\ mh_size (h_mem h) a = s /\ hole_list (h_mem h) (mh_next (h_mem h) a) k2.
Proof.
  apply wf_holes_app in Hwf. apply hole_list_suffix in Hl as (p & -> & Hsz & _ & Hl2). tauto.
Qed.

Lemma carve_link_lt x : in_link x (slot_of k1) -> x < a.
Proof. intros Hx. destruct carve_facts as (?&?&_). eapply in_link_before; eauto. Qed.

Lemma carve_after x : in_header x k2 -> a + s < x /\ ~ in_link x (slot_of k1).
Proof.
  intros Hx. destruct carve_facts as (?&?&?&?&?&_).
  assert (a + s < x) by (eapply in_header_after; eauto).
  split; [done|]. intros Hx'%carve_link_lt. lia.
Qed.

(** The headers of the new list avoid the bytes of the block taken. *)
Lemma carve_headers x :
  in_header x (k1 ++ left_over a s required ++ k2) -> x < a \/ a + required <= x.
Proof.
  destruct carve_facts as (?&?&_). intros [Hx|[Hx|Hx]%Exists_app]%Exists_app.
  - left. eapply in_header_before; eauto.
  - right. unfold left_over in Hx. destruct (splits s required); [|by apply Exists_nil in Hx].
    apply Exists_cons in Hx as [Hx|Hx%Exists_nil]; [cbn in Hx; lia|done].
  - right. apply carve_after in Hx. lia.
Qed.

Lemma alloc_carve_split :
  splits s required = true ->
  exists h', alloc_carve a (slot_of k1) required h = (h', required) /\ carved h'.
Proof.
  intros E. destruct carve_facts as (Hwf1 & Hend & Ha & Has & Hwf2 & Hsz & Hl2).
  unfold carved, left_over. rewrite E. unfold splits in E.
  unfold alloc_carve. rewrite Hsz, (u32_small (s - required)) by lia.
  change (sizeof_memory_union + 1 + sizeof_fast_u16_t) with 13. rewrite E.
  apply Z.ltb_lt in E. rewrite (u32_small (a + required)) by lia.
  set (nh := a + required). eexists. split; [reflexivity|].
  assert (Hq : mh_next (store32 (h_mem h) nh (s - required)) a = mh_next (h_mem h) a).
  { unfold mh_next. apply load32_store32_ne. lia. }
  cbn [h_mem put32 setter] in *. rewrite Hq. set (q := mh_next (h_mem h) a) in *.
  assert (Hqr : 0 <= q < 2 ^ 32) by apply load32_range.
  set (h2 := put32 (nh + 4) q (put32 nh (s - required) h)).
  cbn [h_mem put32 setter first_hole free_ram heap_lock]. rewrite put_slot_free, put_slot_lock.
  change sizeof_memory_hole with 8. set (m' := store32 _ (nh + 8) _).
  assert (Hfr : forall x, ~ (nh <= x < a + s) -> ~ in_link x (slot_of k1) ->
    load8 m' x = load8 (h_mem h) x).
  { intros x Hx Hx'. subst m'. rewrite load8_store32_ne, put_slot_load8 by (auto; lia).
    subst h2. by mem_simp. }
  assert (Hnh : forall w, nh <= w -> w + 4 <= nh + 8 -> load32 m' w = load32 (h_mem h2) w).
  { intros w Hw1 Hw2. subst m'. rewrite load32_store32_ne by lia.
    apply load32_ext. intros x Hx. apply put_slot_load8. intros Hx'%carve_link_lt. lia. }
  split_and!; [|done|done|exact Hfr].
  eapply (hole_list_relink 0 (h_mem h) _ (first_hole h)); [done|exact Hl| |exact (relink_first k1 nh h2)|].
  - intros x Hx Hx'. apply Hfr; auto. eapply in_header_before in Hx; eauto. lia.
  - rewrite (slot_val_frame _ (h_mem (put_slot (slot_of k1) nh h2))).
    2: { intros x Hx%carve_link_lt. apply load8_store32_ne. lia. }
    rewrite put_slot_val by lia. cbn [app hole_list]. split_and!; [done| | |].
    + unfold mh_size. rewrite Hnh by lia. subst h2. by mem_simp.
    + by apply load32_store32.
    + unfold mh_next at 1. rewrite Hnh by lia. subst h2. mem_simp.
      eapply hole_list_frame; [|exact Hl2].
      intros x [? ?]%carve_after. apply Hfr; [lia|done].
Qed.

Lemma alloc_carve_whole :
  splits s required = false ->
  exists h', alloc_carve a (slot_of k1) required h = (h', s) /\ carved h'.
Proof.
  intros E. destruct carve_facts as (Hwf1 & Hend & Ha & Has & Hwf2 & Hsz & Hl2).
  unfold carved, left_over. rewrite E. unfold splits in E.
  unfold alloc_carve. rewrite Hsz, (u32_small (s - required)) by lia.
  change (sizeof_memory_union + 1 + sizeof_fast_u16_t) with 13. rewrite E.
  eexists. split; [reflexivity|]. rewrite put_slot_free, put_slot_lock.
  split_and!; [|done|done|intros; by apply put_slot_load8].
  eapply (hole_list_relink 0 (h_mem h) _ (first_hole h)); [done|exact Hl| |apply relink_first|].
  - intros x Hx Hx'. by apply put_slot_load8.
  - rewrite put_slot_val by apply load32_range. cbn [app].
    eapply hole_list_frame; [|exact Hl2]. intros x [_ ?]%carve_after. by apply put_slot_load8.
Qed.

Lemma alloc_carve_spec :
  exists h', alloc_carve a (slot_of k1) required h = (h', taken s required) /\ carved h'.
Proof.
  unfold taken. destruct (splits s required) eqn:E; auto using alloc_carve_split, alloc_carve_whole.
Qed.
End Carve.

(** A live block: its size and its magic word in front of the payload. *)
Definition block_at (m : mem) (a s : Z) : Prop :=
  mh_size m a = s /\ load32 m (a + 4) = MEMORY_BLOCK_MAGIC.

Lemma alloc_required_range size :
  0 <= size <= 0x8000 -> alloc_required size = Z.max 12 (size + 8).
Proof.
  intros H. unfold alloc_required. change sizeof_memory_block with 4.
  change sizeof_fast_u16_t with 4. change sizeof_memory_hole with 8.
  rewrite u32_small by lia. destruct (Z.ltb_spec (size + 4 + 4) (8 + 4)); lia.
Qed.

Lemma wf_left_over k1 a s k2 required :
  wf_holes 0 (k1 ++ (a, s) :: k2) -> 12 <= required <= s ->
  wf_holes 0 (k1 ++ left_over a s required ++ k2).
Proof.
  intros (Hwf1 & Hend & Ha & Hs & Has & Hwf2)%wf_holes_app Hr.
  unfold left_over, splits. destruct (Z.ltb_spec 13 (s - required)); cbn [app].
  - apply wf_holes_app. split_and!; auto; try lia.
    + eapply Forall_impl; [exact Hend|]. cbn. lia.
    + by replace (a + required + (s - required)) with (a + s) by lia.
  - destruct k2 as [|[b t] k2]; [by rewrite app_nil_r|]. cbn in Hwf2.
    apply wf_holes_app. split_and!; auto; try lia; try tauto.
    eapply Forall_impl; [exact Hend|]. cbn. lia.
Qed.

Lemma total_left_over k1 a s k2 required :
  total (k1 ++ left_over a s required ++ k2) = total (k1 ++ (a, s) :: k2) - taken s required.
Proof. unfold left_over, taken. rewrite !total_app. destruct (splits s required); cbn; lia. Qed.

(** Outcome of [heap_alloc] on a heap with holes [l]: the best-fitting hole
    [(a, s)] yields the block, what is left of it stays a hole, and no byte
    outside the holes changes. *)
Record alloc_ok (h : heap) (l : list hole) (required block : Z) (h' : heap) (l' : list hole) : Prop := {
  ao_hole : exists k1 a s k2, l = k1 ++ (a, s) :: k2 /\ best_fit required k1 (a, s) k2
              /\ l' = k1 ++ left_over a s required ++ k2
              /\ block = a + 8 /\ block_at (h_mem h') a (taken s required);
  ao_inv : heap_inv h' l';
  ao_frame : forall x, ~ in_holes x l -> load8 (h_mem h') x = load8 (h_mem h) x }.

Lemma heap_alloc_spec h l fuel size :
  heap_inv h l -> 0 <= size <= 0x8000 -> (length l < fuel)%nat ->
  (exists block h' l', heap_alloc fuel size h = Ok (block, h')
     /\ alloc_ok h l (alloc_required size) block h' l')
  \/ (Forall (fun q : hole => q.2 < alloc_required size) l
      /\ heap_alloc fuel size h = Stop "heap_alloc: NULL pointer").
Proof.
  intros [Hl Hwf Hfree Hlk] Hsize Hfuel. unfold heap_alloc.
  destruct (Z.ltb_spec 0x8000 size); [lia|]. rewrite Hlk. cbn [spin_lock mbind res_bind].
  set (h1 := setter _ h). set (req := alloc_required size).
  assert (12 <= req) by (unfold req; rewrite alloc_required_range; lia).
  destruct (alloc_scan_spec (h_mem h1) req fuel 0 [] l (first_hole h1) 0 Sfirst)
    as (use & prev & Hscan & Hc); auto; [lia|by left|].
  change (slot_of []) with Sfirst in Hscan. rewrite Hscan. cbn [mbind res_bind].
  destruct Hc as [[-> Hno]|(k1 & k2 & Heq & Hu & -> & Hbest)]; [by right|]. left.
  destruct (Z.eqb_spec use 0); [lia|]. cbn in Heq. rename use into a.
  change (h_mem h1) with (h_mem h) in *. change (first_hole h1) with (first_hole h) in *.
  remember (mh_size (h_mem h) a) as s eqn:Hsz. clear Hsz. subst l.
  assert (Hreq : 12 <= req <= s) by (split; [done|apply Hbest]).
  destruct (alloc_carve_spec h1 k1 k2 a s req) as (h2 & -> & Hl2 & Hf2 & Hlk2 & Hfr); auto.
  cbn [heap_lock setter put32]. rewrite Hlk2.
  cbn [spin_unlock h1 heap_lock setter put32 mbind res_bind].
  eexists _, _, _. split; [reflexivity|].
  pose proof Hwf as (Hwf1 & Hend & Ha & Hs & Has & Hwf2)%wf_holes_app.
  assert (Ht : req <= taken s req <= s).
  { unfold taken, splits. destruct (13 <? s - req); lia. }
  split.
  - exists k1, a, s, k2. split_and!; [done..| |].
    { change sizeof_memory_block with 4. change sizeof_fast_u16_t with 4. lia. }
    split; cbn [h_mem setter put32]; change sizeof_memory_block with 4; unfold mh_size;
      mem_simp; done.
  - split; cbn [h_mem setter put32 first_hole free_ram heap_lock]; [|by apply wf_left_over| |done].
    + eapply hole_list_frame; [|exact Hl2]. intros x Hx. change sizeof_memory_block with 4.
      eapply carve_headers in Hx; [|exact Hl|exact Hwf|exact Hreq].
      rewrite !load8_store32_ne by lia. done.
    + rewrite Hf2. change (free_ram h1) with (free_ram h). rewrite Hfree, total_left_over.
      apply u32_small. destruct (wf_total_bound 0 (k1 ++ (a, s) :: k2)) as [? [Hn|?]]; auto; [lia| |].
      { by destruct k1. }
      rewrite total_app in *. cbn [total] in *.
      destruct (wf_total_bound 0 k1); auto; [lia|]. destruct (wf_total_bound (a + s) k2); auto; lia.
  - intros x Hx. cbn [h_mem setter put32]. change sizeof_memory_block with 4.
    assert (Hx1 : ~ in_hole x (a, s)).
    { intros Hx'. apply Hx, Exists_app. right. by left. }
    unfold in_hole, hole_end in Hx1; cbn in Hx1.
    rewrite !load8_store32_ne by lia. rewrite Hfr; [done|lia|].
    intros Hx'. eapply in_link_before in Hx' as [_ Hx']; eauto.
    apply Hx, Exists_app. left. by eapply in_header_hole.
Qed.

(** ** Release *)

Lemma slot_val_list m p l1 l2 :
  hole_list m p (l1 ++ l2) -> hole_list m (slot_val (slot_of l1) m p) l2.
Proof.
  revert p. induction l1 as [|[a s] l1 IH]; intros p; [done|].
  intros (-> & _ & _ & H). specialize (IH _ H). unfold slot_of in *.
  destruct l1 as [|q l1]; [done|]. cbn [last] in *. destruct (last (q :: l1)) eqn:E; [done|].
  by apply last_None in E.
Qed.

(** One iteration of the walk of [heap_free], at the hole after [l1], for the
    block [(a, s)] that lies outside all holes. *)
Section Free.
Context (h : heap) (l1 : list hole) (a s : Z).
Context (Hsz : mh_size (h_mem h) a = s) (Hmg : load32 (h_mem h) (a + 8) = MEMORY_HOLE_MAGIC).
Context (Ha : 0 < a) (Hs : 12 <= s) (Has : a + s < 2 ^ 32).
Context (Hwf1 : wf_holes 0 l1).

Definition outside (b t : Z) : Prop := a + s <= b \/ b + t <= a.

(** What one exit of the walk must establish for the holes [l2] still ahead. *)
Definition freed (l2 l2' : list hole) (h' : heap) : Prop :=
  hole_list (h_mem h') (first_hole h') (l1 ++ l2')
  /\ free_ram h' = free_ram h /\ heap_lock h' = heap_lock h
  /\ (forall x, ~ in_holes x (l1 ++ l2) -> ~ a <= x < a + s ->
      load8 (h_mem h') x = load8 (h_mem h) x).

Lemma free_link_lt b x :
  Forall (fun p => hole_end p < b) l1 -> in_link x (slot_of l1) -> x < b /\ in_holes x l1.
Proof.
  intros Hb Hx. eapply in_link_before in Hx as [? ?]; eauto. split; [done|]. by eapply in_header_hole.
Qed.

(** The block becomes a hole in front of [l2]. *)
Lemma free_isolated l2 :
  hole_list (h_mem h) (first_hole h) (l1 ++ l2) ->
  Forall (fun p => hole_end p < a) l1 -> wf_holes (a + s) l2 ->
  let mh := match l2 with [] => 0 | p :: _ => p.1 end in
  freed l2 ((a, s) :: l2) (put32 (a + 4) mh (put_slot (slot_of l1) a h)).
Proof.
  intros Hl Hend Hwf2 mh. unfold freed. cbn [h_mem put32 setter first_hole free_ram heap_lock].
  rewrite put_slot_free, put_slot_lock. set (m' := store32 _ _ _).
  assert (Hlink : forall x, in_link x (slot_of l1) -> x < a /\ in_holes x l1) by (intros; by apply free_link_lt).
  assert (Hmh : 0 <= mh < 2 ^ 32).
  { subst mh. destruct l2 as [|[b t] l2]; cbn in *; lia. }
  assert (Hfr : forall x, ~ in_link x (slot_of l1) -> ~ a + 4 <= x < a + 8 ->
    load8 m' x = load8 (h_mem h) x).
  { intros x Hx Hx'. subst m'. rewrite load8_store32_ne by lia. by apply put_slot_load8. }
  assert (Hw : forall o, o = 0 \/ o = 8 -> load32 m' (a + o) = load32 (h_mem h) (a + o)).
  { intros o Ho. apply load32_ext. intros x Hx. apply Hfr; [|lia]. intros [? _]%Hlink. lia. }
  split_and!; [|done..|].
  - eapply (hole_list_relink 0 (h_mem h)); [done|exact Hl| |apply relink_first|].
    + intros x Hx Hx'. apply Hfr; [done|]. eapply in_header_before in Hx; eauto. lia.
    + rewrite (slot_val_frame _ (h_mem (put_slot (slot_of l1) a h))).
      2: { intros x [? _]%Hlink. apply load8_store32_ne. lia. }
      rewrite put_slot_val by lia. split_and!; [done| |by rewrite Hw by auto|].
      { unfold mh_size in *. rewrite <-(Z.add_0_r a), Hw, Z.add_0_r by auto. done. }
      unfold mh_next. subst m'. rewrite load32_store32 by done.
      eapply hole_list_frame with (m := h_mem h).
      * intros x Hx. eapply in_header_after in Hx; eauto.
        apply Hfr; [|lia]. intros [? _]%Hlink. lia.
      * subst mh. pose proof (slot_val_list _ _ _ _ Hl) as H.
        destruct l2 as [|[b t] l2]; [done|]. cbn in H |- *. tauto.
  - intros x Hx Hx'. apply Hfr; [|lia]. intros [_ ?]%Hlink. apply Hx, Exists_app. by left.
Qed.

(** The block is merged with the hole [(b, t)] that follows it. *)
Lemma free_merge_next b t l2 :
  hole_list (h_mem h) (first_hole h) (l1 ++ (b, t) :: l2) ->
  Forall (fun p => hole_end p < a) l1 -> a + s = b -> wf_holes (a + s - 1) ((b, t) :: l2) ->
  let h1 := put_slot (slot_of l1) a h in
  freed ((b, t) :: l2) ((a, s + t) :: l2)
    (put32 (a + 4) (mh_next (store32 (h_mem h1) a (s + t)) b) (put32 a (s + t) h1)).
Proof.
  intros Hl Hend Hab (_ & ? & ? & Hwf2) h1.
  assert (Hlink : forall x, in_link x (slot_of l1) -> x < a /\ in_holes x l1) by (intros; by apply free_link_lt).
  pose proof (slot_val_list _ _ _ _ Hl) as (_ & _ & _ & Hl2).
  assert (Hnx : mh_next (store32 (h_mem h1) a (s + t)) b = mh_next (h_mem h) b).
  { apply load32_ext. intros x Hx. rewrite load8_store32_ne by lia. apply put_slot_load8.
    intros [? _]%Hlink. lia. }
  rewrite Hnx. set (q := mh_next (h_mem h) b) in *.
  assert (Hq : 0 <= q < 2 ^ 32) by apply load32_range.
  unfold freed. cbn [h_mem put32 setter first_hole free_ram heap_lock]. subst h1.
  rewrite put_slot_free, put_slot_lock. set (m' := store32 _ (a + 4) _).
  assert (Hfr : forall x, ~ in_link x (slot_of l1) -> ~ a <= x < a + 8 ->
    load8 m' x = load8 (h_mem h) x).
  { intros x Hx Hx'. subst m'. rewrite !load8_store32_ne by lia. by apply put_slot_load8. }
  split_and!; [|done..|].
  - eapply (hole_list_relink 0 (h_mem h)); [done|exact Hl| |apply relink_first|].
    + intros x Hx Hx'. apply Hfr; [done|]. eapply in_header_before in Hx; eauto. lia.
    + rewrite (slot_val_frame _ (h_mem (put_slot (slot_of l1) a h))).
      2: { intros x [? _]%Hlink. subst m'. by rewrite !load8_store32_ne by lia. }
      rewrite put_slot_val by lia. subst m'. unfold mh_size, mh_next. split_and!; [done| | |].
      * unfold mh_size. by mem_simp.
      * mem_simp. rewrite <-Hmg. apply load32_ext. intros x Hx. apply put_slot_load8.
        intros [? _]%Hlink. lia.
      * unfold mh_next. mem_simp. eapply hole_list_frame; [|exact Hl2].
        intros x Hx. eapply in_header_after in Hx; eauto. apply Hfr; [|lia]. intros [? _]%Hlink. lia.
  - intros x Hx Hx'. apply Hfr; [|lia]. intros [_ ?]%Hlink. apply Hx, Exists_app. by left.
Qed.
End Free.

(** Rewriting the size and link of the hole [(b, t)] in place. *)
Lemma hole_list_rehead m m' p l1 b t l2 t' l2' :
  hole_list m p (l1 ++ (b, t) :: l2) -> wf_holes 0 (l1 ++ (b, t) :: l2) ->
  (forall x, ~ b <= x < b + 8 -> load8 m' x = load8 m x) ->
  mh_size m' b = t' -> hole_list m' (mh_next m' b) l2' ->
  hole_list m' p (l1 ++ (b, t') :: l2').
Proof.
  intros Hl (Hwf1 & Hend & Hb & Ht & Hbt & Hwf2)%wf_holes_app Hfr Hsz Hl2.
  eapply (hole_list_relink 0 m); [done|exact Hl| |by right|].
  - intros x Hx _. apply Hfr. eapply in_header_before in Hx; eauto. lia.
  - rewrite (slot_val_frame _ m).
    2: { intros x Hx. eapply in_link_before in Hx as [? _]; eauto. apply Hfr. lia. }
    pose proof (slot_val_list _ _ _ _ Hl) as (-> & _ & Hm & _).
    split_and!; auto. rewrite <-Hm. apply load32_ext. intros x Hx. apply Hfr. lia.
Qed.

(** The block is merged with the hole [(b, t)] in front of it, and with the
    hole after it when that one is adjacent too. *)
Lemma free_merge_prev h l1 b t l2 s fuel :
  hole_list (h_mem h) (first_hole h) (l1 ++ (b, t) :: l2) -> wf_holes 0 (l1 ++ (b, t) :: l2) ->
  mh_size (h_mem h) (b + t) = s -> 12 <= s -> b + t + s < 2 ^ 32 ->
  Forall (fun p => outside (b + t) s p.1 p.2) l2 ->
  exists h', free_scan (S fuel) (b + t) b (slot_of l1) h = Ok h'
    /\ freed h l1 (b + t) s ((b, t) :: l2) (insert_hole (b + t) s ((b, t) :: l2)) h'.
Proof.
  intros Hl Hwf Hsz Hs Hbs Hout. pose proof Hwf as (Hwf1 & Hend & Hb & Ht & Hbt & Hwf2)%wf_holes_app.
  pose proof (slot_val_list _ _ _ _ Hl) as (_ & Hbsz & _ & Hl2).
  cbn [free_scan insert_hole]. destruct (Z.eqb_spec b 0); [lia|].
  rewrite Hbsz, Hsz, (u32_small (b + t)), Z.eqb_refl by lia.
  rewrite (u32_small (t + s)) by lia. set (h1 := put32 b (t + s) h).
  assert (Hb1 : mh_size (h_mem h1) b = t + s) by (apply load32_store32; lia).
  assert (Hn1 : mh_next (h_mem h1) b = mh_next (h_mem h) b) by (apply load32_store32_ne; lia).
  assert (Hf1 : forall x, ~ b <= x < b + 4 -> load8 (h_mem h1) x = load8 (h_mem h) x).
  { intros x Hx. apply load8_store32_ne. lia. }
  assert (Hinb : forall x, b <= x < b + t -> in_holes x (l1 ++ (b, t) :: l2)).
  { intros x Hx. apply Exists_app. right; left. unfold in_hole, hole_end; cbn; lia. }
  rewrite Hb1, Hn1, (u32_small (b + (t + s))) by lia.
  destruct l2 as [|[c u] l2]; cbn in Hl2.
  - rewrite Hl2. destruct (Z.eqb_spec (b + (t + s)) 0); [lia|]. eexists. split; [done|].
    split_and!; [|done..|].
    + eapply hole_list_rehead; eauto; [intros; apply Hf1; lia|]. by rewrite Hn1, Hl2.
    + intros x Hx _. apply Hf1. intros Hx'. apply Hx, Hinb. lia.
  - destruct Hl2 as (Hnb & Hcsz & Hcm & Hl2). rewrite Hnb in Hn1 |- *. cbn in Hwf2. destruct Hwf2 as (? & ? & ? & Hwf2).
    apply Forall_cons in Hout as [Hout _]. unfold outside in Hout; cbn in Hout.
    rewrite (Z.add_assoc b t s). destruct (Z.eqb_spec (b + t + s) c) as [<-|Hc]; eexists; (split; [done|]).
    + set (c := b + t + s) in *.
      assert (Hc1 : mh_size (h_mem h1) c = u) by (unfold mh_size in *; rewrite <-Hcsz; apply load32_store32_ne; lia).
      rewrite Hc1, (u32_small (t + s + u)) by lia. set (h2 := put32 b (t + s + u) h1).
      assert (Hn2 : mh_next (h_mem h2) b = c).
      { transitivity (mh_next (h_mem h1) b); [apply load32_store32_ne; lia|exact Hn1]. }
      assert (Hnc : mh_next (h_mem h2) c = mh_next (h_mem h) c).
      { unfold mh_next, h2, h1. by mem_simp. }
      rewrite Hn2, Hnc. set (q := mh_next (h_mem h) c) in *.
      assert (Hq : 0 <= q < 2 ^ 32) by apply load32_range.
      assert (Hf3 : forall x, ~ b <= x < b + 8 ->
        load8 (h_mem (put32 (b + 4) q h2)) x = load8 (h_mem h) x).
      { intros x Hx. unfold h2, h1. by mem_simp. }
      split_and!; [|done..|].
      * eapply hole_list_rehead; eauto; unfold mh_size, mh_next, h2, h1; mem_simp; [done|].
        eapply hole_list_frame; [|exact Hl2]. intros x Hx.
        eapply in_header_after in Hx; eauto. by mem_simp.
      * intros x Hx _. apply Hf3. intros Hx'. apply Hx, Hinb. lia.
    + split_and!; [|done..|].
      * eapply hole_list_rehead; eauto; [intros; apply Hf1; lia|]. rewrite Hn1.
        eapply (hole_list_frame (h_mem h)); [|cbn; auto].
        intros x [Hx|Hx]%Exists_cons; apply Hf1; [cbn in Hx; lia|].
        eapply in_header_after in Hx; eauto. lia.
      * intros x Hx _. apply Hf1. intros Hx'. apply Hx, Hinb. lia.
Qed.

(** The last exit of the walk stores the link before the slot. *)
Lemma put_slot_put32_comm s v b w h x :
  (forall y, in_link y s -> y < b) ->
  load8 (h_mem (put_slot s v (put32 b w h))) x = load8 (h_mem (put32 b w (put_slot s v h))) x.
Proof.
  intros Hs. destruct s as [|c]; [done|]. cbn. 
  destruct (decide (c + 4 <= x < c + 8)) as [Hx|Hx].
  - rewrite (load8_store32_ne _ b) by (pose proof (Hs x Hx); pose proof (Hs (c + 7)); cbn in *; lia).
    apply load8_store32_in. lia.
  - rewrite load8_store32_ne by lia. apply load8_store32_ext. by rewrite load8_store32_ne by lia.
Qed.

Lemma freed_ext h l1 a s l2 l2' h1 h2 :
  (forall x, load8 (h_mem h2) x = load8 (h_mem h1) x) -> first_hole h2 = first_hole h1 ->
  free_ram h2 = free_ram h1 -> heap_lock h2 = heap_lock h1 ->
  freed h l1 a s l2 l2' h1 -> freed h l1 a s l2 l2' h2.
Proof.
  intros Hm Hf Hr Hk (H1 & H2 & H3 & H4). unfold freed. rewrite Hf, Hr, Hk. split_and!; auto.
  - eapply hole_list_frame; [|exact H1]. auto.
  - intros. rewrite Hm. auto.
Qed.

Lemma free_scan_spec a s fuel h l1 l2 mh :
  mh_size (h_mem h) a = s -> load32 (h_mem h) (a + 8) = MEMORY_HOLE_MAGIC ->
  0 < a -> 12 <= s -> a + s < 2 ^ 32 ->
  hole_list (h_mem h) (first_hole h) (l1 ++ l2) -> wf_holes 0 (l1 ++ l2) ->
  hole_list (h_mem h) mh l2 -> Forall (fun p => hole_end p < a) l1 ->
  Forall (fun p => outside a s p.1 p.2) l2 -> (length l2 < fuel)%nat ->
  exists h', free_scan fuel a mh (slot_of l1) h = Ok h'
    /\ freed h l1 a s l2 (insert_hole a s l2) h'.
Proof.
  intros Hsz Hmg Ha Hs Has. revert fuel l1 mh.
  induction l2 as [|[b t] l2 IH]; intros fuel l1 mh Hl Hwf Hmh Hend Hout Hfuel;
    (destruct fuel as [|fuel]; [cbn in Hfuel; lia|]).
  { cbn in Hmh. subst mh. rewrite app_nil_r in Hwf. eexists. split; [reflexivity|].
    eapply (freed_ext _ _ _ _ _ _ (put32 (a + 4) 0 (put_slot (slot_of l1) a h))).
    - intros x. apply put_slot_put32_comm. intros y Hy.
      eapply (in_link_before 0 l1 a) in Hy as [? _]; auto; lia.
    - by destruct (slot_of l1).
    - by destruct (slot_of l1).
    - by destruct (slot_of l1).
    - apply (free_isolated h l1 a s Hsz Hmg Ha Hs Has Hwf []); cbn; auto. }
  destruct Hmh as (-> & Hbsz & Hbm & Hmh).
  pose proof Hwf as (Hwf1 & Hend' & Hb & Ht & Hbt & Hwf2)%wf_holes_app.
  apply Forall_cons in Hout as [Hout1 Hout]. unfold outside in Hout1; cbn in Hout1.
  destruct (Z.eq_dec (b + t) a) as [<-|Hne].
  { by apply free_merge_prev. }
  cbn [free_scan insert_hole]. destruct (Z.eqb_spec b 0); [lia|].
  rewrite Hbsz, (u32_small (b + t)) by lia.
  destruct (Z.eqb_spec (b + t) a); [lia|]. destruct (Z.ltb_spec a b) as [Hab|Hab].
  - assert (Hlink : forall x, in_link x (slot_of l1) -> x < a).
    { intros x Hx. by eapply (in_link_before 0 l1 a) in Hx as [? _]. }
    assert (H1 : mh_size (h_mem (put_slot (slot_of l1) a h)) a = s).
    { rewrite <-Hsz. apply load32_ext. intros x Hx. apply put_slot_load8. intros Hx'%Hlink. lia. }
    assert (H2 : mh_size (h_mem (put_slot (slot_of l1) a h)) b = t).
    { rewrite <-Hbsz. apply load32_ext. intros x Hx. apply put_slot_load8. intros Hx'%Hlink. lia. }
    rewrite H1, H2, (u32_small (a + s)) by lia.
    destruct (Z.eqb_spec (a + s) b) as [Hasb|]; eexists; (split; [reflexivity|]).
    + rewrite (u32_small (s + t)) by lia. apply free_merge_next; auto.
      cbn. split_and!; auto; lia.
    + apply (free_isolated h l1 a s Hsz Hmg Ha Hs Has Hwf1 ((b, t) :: l2)); auto.
      cbn. split_and!; auto; lia.
  - rewrite <-(slot_of_app l1 b t).
    destruct (IH fuel (l1 ++ [(b, t)]) (mh_next (h_mem h) b)) as (h' & -> & Hfr); auto.
    { by rewrite <-app_assoc. }
    { by rewrite <-app_assoc. }
    { rewrite Forall_app, Forall_singleton. split; [done|]. unfold hole_end; cbn; lia. }
    { cbn in Hfuel; lia. }
    exists h'. split; [done|]. unfold freed in *. by rewrite <-!app_assoc in Hfr.
Qed.

Lemma insert_hole_wf a s lo l :
  lo < a -> 12 <= s -> a + s < 2 ^ 32 -> wf_holes lo l ->
  Forall (fun p => outside a s p.1 p.2) l -> wf_holes lo (insert_hole a s l).
Proof.
  intros Hlo Hs Has. revert lo Hlo. induction l as [|[b t] l IH]; intros lo Hlo Hwf Hout; cbn in *; [auto|].
  destruct Hwf as (? & ? & ? & Hwf). apply Forall_cons in Hout as [Hout1 Hout].
  unfold outside in Hout1; cbn in Hout1. destruct (Z.eqb_spec (b + t) a).
  - destruct l as [|[c u] l]; cbn in *; [lia|].
    apply Forall_cons in Hout as [Hout2 Hout]. unfold outside in Hout2; cbn in Hout2.
    destruct Hwf as (? & ? & ? & Hwf). destruct (Z.eqb_spec (b + t + s) c); cbn; split_and!; try lia; auto.
    by replace (b + (t + s + u)) with (c + u) by lia.
  - destruct (Z.ltb_spec a b).
    + destruct (Z.eqb_spec (a + s) b); cbn; split_and!; try lia; auto.
      by replace (a + (s + t)) with (b + t) by lia.
    + cbn. split_and!; try lia. apply IH; auto; lia.
Qed.

Lemma insert_hole_total a s l : total (insert_hole a s l) = s + total l.
Proof.
  induction l as [|[b t] l IH]; cbn; [lia|]. destruct (b + t =? a).
  - destruct l as [|[c u] l]; cbn; [lia|]. destruct (b + t + s =? c); cbn; lia.
  - destruct (a <? b); [destruct (a + s =? b)|]; cbn; lia.
Qed.

Lemma insert_hole_bytes a s l x lo :
  wf_holes lo l -> 0 < s -> in_holes x (insert_hole a s l) <-> in_holes x l \/ a <= x < a + s.
Proof.
  intros Hwf Hs. revert lo Hwf. unfold in_holes.
  induction l as [|[b t] l IH]; intros lo Hwf; cbn [insert_hole].
  { rewrite !Exists_cons, !Exists_nil. unfold in_hole, hole_end; cbn. tauto. }
  cbn in Hwf. destruct Hwf as (? & ? & ? & Hwf). destruct (Z.eqb_spec (b + t) a).
  - destruct l as [|[c u] l]; rewrite ?Exists_cons, ?Exists_nil; unfold in_hole, hole_end; cbn [fst snd]; [lia|].
    cbn in Hwf. destruct (Z.eqb_spec (b + t + s) c);
      rewrite ?Exists_cons; unfold in_hole, hole_end; cbn [fst snd]; intuition lia.
  - destruct (a <? b); [destruct (Z.eqb_spec (a + s) b)|];
      rewrite ?Exists_cons, ?(IH _ Hwf); unfold in_hole, hole_end; cbn [fst snd]; intuition lia.
Qed.

Lemma heap_free_spec h l fuel a s :
  heap_inv h l -> block_at (h_mem h) a s -> 0 < a -> 12 <= s -> a + s < 2 ^ 32 ->
  Forall (fun p => outside a s p.1 p.2) l -> (length l < fuel)%nat ->
  exists h', heap_free fuel (a + 8) h = Ok h' /\ heap_inv h' (insert_hole a s l)
    /\ (forall x, ~ in_holes x l -> ~ a <= x < a + s -> load8 (h_mem h') x = load8 (h_mem h) x).
Proof.
  intros [Hl Hwf Hfree Hlk] [Hsz Hmg] Ha Hs Has Hout Hfuel. unfold heap_free.
  change sizeof_fast_u16_t with 4. change sizeof_memory_block with 4. change sizeof_memory_hole with 8.
  replace (a + 8 - 4) with (a + 4) by lia. rewrite Hmg, Z.eqb_refl. cbn [negb].
  replace (a + 4 - 4) with a by lia. rewrite Hlk. cbn [spin_lock mbind res_bind].
  cbn [setter h_mem free_ram heap_lock first_hole]. rewrite Hsz.
  pose proof (insert_hole_wf a s 0 l Ha Hs Has Hwf Hout) as Hwf'.
  assert (Htot : u32 (free_ram h + s) = total (insert_hole a s l)).
  { rewrite insert_hole_total, Hfree. rewrite u32_small; [lia|].
    pose proof (insert_hole_total a s l) as Ht.
    destruct (wf_total_bound 0 l) as [? _]; auto; [lia|].
    destruct (wf_total_bound 0 _ (Z.le_refl 0) Hwf') as [_ [E|?]]; [rewrite E in Ht; cbn in Ht|]; lia. }
  set (h1 := put32 _ _ _).
  assert (Hfr1 : forall x, ~ a <= x < a + s -> load8 (h_mem h1) x = load8 (h_mem h) x).
  { intros x Hx. apply load8_store32_ne. lia. }
  assert (Hhd : forall x, in_header x l -> ~ a <= x < a + s).
  { intros x Hx. eapply in_header_hole in Hx; [|done]. apply Exists_exists in Hx as ([b t] & Hp & Hx).
    rewrite Forall_forall in Hout. specialize (Hout _ Hp). unfold outside, in_hole, hole_end in *; cbn in *. lia. }
  assert (Hl1 : hole_list (h_mem h1) (first_hole h) l).
  { eapply hole_list_frame; [|exact Hl]. auto. }
  destruct (free_scan_spec a s fuel h1 [] l (first_hole h)) as (h2 & Hscan & Hl2 & Hf2 & Hk2 & Hfr2); auto.
  { rewrite <-Hsz. apply load32_store32_ne. lia. }
  { by apply load32_store32. }
  change (slot_of []) with Sfirst in Hscan. change (first_hole h1) with (first_hole h).
  rewrite Hscan. cbn [mbind res_bind]. rewrite Hk2. cbn [spin_unlock h1 put32 heap_lock setter mbind res_bind].
  eexists. split; [reflexivity|]. split; [split|]; cbn [setter h_mem first_hole free_ram heap_lock]; auto.
  - by rewrite Hf2.
  - intros x Hx Hx'. rewrite Hfr2, Hfr1; auto.
Qed.

(** Undoing an allocation at the level of hole lists. *)
Lemma insert_left_over k1 a s k2 required :
  wf_holes 0 (k1 ++ (a, s) :: k2) -> 12 <= required <= s ->
  insert_hole a (taken s required) (k1 ++ left_over a s required ++ k2) = k1 ++ (a, s) :: k2.
Proof.
  intros (Hwf1 & Hend & _ & _ & Has & Hwf2)%wf_holes_app Hr. revert Hwf1. generalize 0 as lo.
  induction k1 as [|[b t] k1 IH]; intros lo Hwf1; cbn [app].
  - unfold left_over, taken, splits. destruct (Z.ltb_spec 13 (s - required)); cbn [app insert_hole].
    + destruct (Z.eqb_spec (a + required + (s - required)) a); [lia|].
      destruct (Z.ltb_spec a (a + required)); [|lia]. rewrite Z.eqb_refl. repeat f_equal; lia.
    + destruct k2 as [|[c u] k2]; [done|]. cbn in Hwf2 |- *.
      destruct (Z.eqb_spec (c + u) a); [lia|]. destruct (Z.ltb_spec a c); [|lia].
      destruct (Z.eqb_spec (a + s) c); [lia|done].
  - apply Forall_cons in Hend as [Hb Hend]. unfold hole_end in Hb; cbn in Hb. cbn [insert_hole].
    destruct (Z.eqb_spec (b + t) a); [lia|]. destruct (Z.ltb_spec a b) as [?|?]; [cbn in Hwf1; lia|].
    f_equal. eapply IH; [done|apply Hwf1].
Qed.

(** ** The heap as its clients use it

    Regions are handed to the heap once ([heap_add]), blocks are allocated,
    written within their payload, and freed.  [heap_reach h arenas bs]: such a
    run can end in heap [h] with regions [arenas] added and blocks [bs] live. *)

Definition apart (p q : hole) : Prop := hole_end p <= q.1 \/ hole_end q <= p.1.

Inductive heap_reach : heap -> list hole -> list hole -> Prop :=
  | HR_init m : heap_reach (Heap_ false 0 0 m) [] []
  | HR_add h arenas bs fuel addr sz h' :
      heap_reach h arenas bs ->
      0 < addr -> 12 <= sz -> addr + sz < 2 ^ 32 -> Forall (apart (addr, sz)) arenas ->
      heap_add fuel addr sz h = Ok h' ->
      heap_reach h' ((addr, sz) :: arenas) bs
  | HR_alloc h arenas bs fuel size block h' :
      heap_reach h arenas bs -> 0 <= size ->
      heap_alloc fuel size h = Ok (block, h') ->
      heap_reach h' arenas ((block - 8, mh_size (h_mem h') (block - 8)) :: bs)
  | HR_free h arenas bs1 p bs2 fuel h' :
      heap_reach h arenas (bs1 ++ p :: bs2) ->
      heap_free fuel (p.1 + 8) h = Ok h' ->
      heap_reach h' arenas (bs1 ++ bs2)
  | HR_write h arenas bs p x v :
      heap_reach h arenas bs -> p ∈ bs -> p.1 + 8 <= x < hole_end p ->
      heap_reach (h <| h_mem := store8 (h_mem h) x v |>) arenas bs.

(** Every live block has its header intact and its bytes to itself, every free
    or live byte belongs to a region that was added, and the sizes of holes and
    blocks add up to those of the regions. *)
Record heap_ok (h : heap) (arenas bs : list hole) (l : list hole) : Prop := {
  ok_inv : heap_inv h l;
  ok_blocks : Forall (fun p : hole => block_at (h_mem h) p.1 p.2 /\ 0 < p.1 /\ 12 <= p.2
                                      /\ hole_end p < 2 ^ 32) bs;
  ok_holes : Forall (fun p => Forall (apart p) l) bs;
  ok_apart : forall i j p q, i <> j -> bs !! i = Some p -> bs !! j = Some q -> apart p q;
  ok_within : forall x, in_holes x l \/ in_holes x bs -> in_holes x arenas;
  ok_sum : total l + total bs = total arenas }.

(** Block headers survive writes elsewhere. *)
Lemma block_at_frame m m' a s :
  (forall x, a <= x < a + 8 -> load8 m' x = load8 m x) -> block_at m a s -> block_at m' a s.
Proof.
  intros Hf [H1 H2]. unfold block_at, mh_size in *. rewrite <-H1, <-H2.
  split; apply load32_ext; intros; apply Hf; lia.
Qed.

(** Non-overlap read off the byte sets. *)
Lemma apart_bytes p q :
  0 < p.2 -> 0 < q.2 -> (forall x, in_hole x p -> ~ in_hole x q) -> apart p q.
Proof.
  destruct p as [a s], q as [b t]. unfold apart, in_hole, hole_end; cbn. intros ? ? H.
  destruct (decide (a + s <= b)); [by left|]. destruct (decide (b + t <= a)); [by right|].
  exfalso. destruct (H (Z.max a b)); lia.
Qed.

Lemma apart_not_in x p l : Forall (apart p) l -> in_hole x p -> ~ in_holes x l.
Proof.
  intros Hl Hx Hx'. apply Exists_exists in Hx' as (q & Hq & Hx'). rewrite Forall_forall in Hl.
  specialize (Hl _ Hq). unfold apart, in_hole in *. lia.
Qed.

Lemma apart_outside p l : Forall (apart p) l -> Forall (fun q => outside p.1 p.2 q.1 q.2) l.
Proof. intros H. eapply Forall_impl; [exact H|]. unfold apart, outside, hole_end. lia. Qed.

(** The number of holes is bounded by the free memory. *)
Lemma heap_fuel_enough h l fuel :
  heap_inv h l -> (Z.to_nat (free_ram h / 12) < fuel)%nat -> (length l < fuel)%nat.
Proof.
  intros [_ Hwf -> _] Hf. cut (12 * Z.of_nat (length l) <= total l).
  { intros H. pose proof (Z.div_le_lower_bound (total l) 12 (Z.of_nat (length l))). lia. }
  clear Hf. revert Hwf. generalize 0 as lo. induction l as [|[a s] l IH]; intros lo Hwf; cbn in *; [lia|].
  destruct Hwf as (_ & ? & _ & Hwf). specialize (IH _ Hwf). lia.
Qed.

Lemma heap_alloc_keeps h arenas bs l size block h' l' :
  heap_ok h arenas bs l -> alloc_ok h l (alloc_required size) block h' l' -> 12 <= alloc_required size ->
  heap_ok h' arenas ((block - 8, mh_size (h_mem h') (block - 8)) :: bs) l'.
Proof.
  intros [Hinv Hb Hh Hap Hin Hsum] [(k1 & a & s & k2 & -> & Hbest & -> & -> & Hblk) Hinv' Hfr] Hr12.
  replace (a + 8 - 8) with a by lia. set (req := alloc_required size) in *.
  destruct Hblk as [Hsz Hmg]. rewrite Hsz. destruct Hinv as [_ Hwf _ _].
  pose proof Hwf as (Hwf1 & Hend & Ha & Hs & Has & Hwf2)%wf_holes_app.
  assert (Hr : req <= s) by apply Hbest.
  assert (Ht : req <= taken s req <= s) by (unfold taken; destruct (splits s req); lia).
  assert (Hsub : forall x, in_hole x (a, taken s req) -> in_holes x (k1 ++ (a, s) :: k2)).
  { intros x Hx. apply Exists_app. right; left. unfold in_hole, hole_end in *; cbn in *; lia. }
  assert (Hnew : Forall (fun p => apart (a, taken s req) p) bs).
  { rewrite !Forall_forall in *. intros p Hp. apply apart_bytes; cbn; [lia|apply Hb in Hp; lia|].
    intros x Hx Hx'. apply Hsub in Hx. eapply apart_not_in in Hx; eauto. }
  assert (Hback : forall x, in_holes x (k1 ++ left_over a s req ++ k2) -> in_holes x (k1 ++ (a, s) :: k2)).
  { intros x [Hx|[Hx|Hx]%Exists_app]%Exists_app; apply Exists_app; [by left| |by right; right].
    right; left. unfold left_over in Hx. destruct (splits s req); [|by apply Exists_nil in Hx].
    apply Exists_cons in Hx as [Hx|Hx%Exists_nil]; [|done]. unfold in_hole, hole_end in *; cbn in *; lia. }
  split; auto.
  - apply Forall_cons. split; [split_and!; unfold hole_end; cbn; auto; try split; auto; lia|].
    rewrite !Forall_forall in *. intros p Hp. pose proof (Hb _ Hp) as (? & ? & ? & ?).
    split_and!; auto. eapply block_at_frame; [|eassumption]. intros x Hx. apply Hfr.
    eapply apart_not_in; [apply Hh, Hp|]. unfold in_hole, hole_end in *; lia.
  - apply Forall_cons. split.
    + apply Forall_app; split; [|apply Forall_app; split].
      * eapply Forall_impl; [exact Hend|]. unfold apart, hole_end; cbn. lia.
      * unfold left_over, taken. destruct (splits s req); [|done]. apply Forall_singleton. left. done.
      * rewrite Forall_forall. intros p Hp. pose proof (wf_holes_lb _ _ _ Hwf2 Hp).
        left. unfold hole_end; cbn. lia.
    + rewrite !Forall_forall in *. intros p Hp. apply Forall_forall. intros q Hq.
      pose proof (Hb _ Hp) as (_ & _ & ? & _).
      pose proof (inv_wf _ _ Hinv') as Hwf'. pose proof (wf_holes_lb _ _ _ Hwf' Hq).
      apply apart_bytes; [lia..|]. intros x Hx Hx'. eapply apart_not_in; [apply Hh, Hp|exact Hx|].
      apply Hback. apply Exists_exists. eauto.
  - intros i j p q Hij Hi Hj. rewrite Forall_forall in Hnew.
    destruct i as [|i], j as [|j]; cbn in Hi, Hj; simplify_eq; [| |eapply (Hap i j); eauto; lia].
    + apply Hnew. by eapply list_elem_of_lookup_2.
    + apply list_elem_of_lookup_2 in Hi. specialize (Hnew _ Hi). unfold apart in *. tauto.
  - intros x [Hx|Hx]; [apply Hin; auto|]. apply Exists_cons in Hx as [Hx|Hx]; apply Hin; auto.
  - rewrite total_left_over. cbn [total]. lia.
Qed.

(** Giving the block or region [(a, s)] to the heap, as [heap_free] and
    [heap_add] do: the rest of the state keeps its invariant. *)
Lemma heap_give_back h arenas bs l fuel a s :
  heap_inv h l -> block_at (h_mem h) a s -> 0 < a -> 12 <= s -> a + s < 2 ^ 32 ->
  (length l < fuel)%nat ->
  Forall (apart (a, s)) l -> Forall (apart (a, s)) bs ->
  Forall (fun p : hole => block_at (h_mem h) p.1 p.2 /\ 0 < p.1 /\ 12 <= p.2 /\ hole_end p < 2 ^ 32) bs ->
  Forall (fun p => Forall (apart p) l) bs ->
  (forall i j p q, i <> j -> bs !! i = Some p -> bs !! j = Some q -> apart p q) ->
  (forall x, in_holes x l \/ in_holes x bs \/ in_hole x (a, s) -> in_holes x arenas) ->
  total l + s + total bs = total arenas ->
  exists h', heap_free fuel (a + 8) h = Ok h' /\ heap_ok h' arenas bs (insert_hole a s l).
Proof.
  intros Hinv Hblk Ha Hs Has Hfuel Hal Hab Hb Hh Hap Hin Hsum.
  pose proof (apart_outside (a, s) l Hal) as Hout. cbn in Hout.
  destruct (heap_free_spec h l fuel a s) as (h' & -> & Hinv' & Hfr); auto.
  pose proof (inv_wf _ _ Hinv) as Hwf.
  assert (Hbytes : forall x, in_holes x (insert_hole a s l) -> in_holes x l \/ in_hole x (a, s)).
  { intros x Hx. eapply insert_hole_bytes in Hx; eauto. lia. }
  eexists; split; [done|]. split; auto.
  - rewrite !Forall_forall in *. intros p Hp. pose proof (Hb _ Hp) as (? & ? & ? & ?).
    split_and!; auto. eapply block_at_frame; [|eassumption]. intros x Hx. apply Hfr.
    + eapply apart_not_in; [apply Hh, Hp|]. unfold in_hole, hole_end in *; lia.
    + specialize (Hab _ Hp). unfold apart, hole_end in *; cbn in *. lia.
  - rewrite !Forall_forall in *. intros p Hp. apply Forall_forall. intros q Hq.
    pose proof (Hb _ Hp) as (_ & _ & ? & _).
    pose proof (wf_holes_lb _ _ _ (inv_wf _ _ Hinv') Hq).
    apply apart_bytes; [lia..|]. intros x Hx Hx'.
    destruct (Hbytes x) as [Hy|Hy]; [apply Exists_exists; eauto|..].
    + eapply apart_not_in; [apply Hh, Hp|exact Hx|done].
    + specialize (Hab _ Hp). unfold apart, in_hole in *. lia.
  - intros x [[?|?]%Hbytes|?]; auto.
  - rewrite insert_hole_total. lia.
Qed.

(** Changing bytes that are neither header of a hole nor header of a block. *)
Lemma heap_ok_write h arenas bs l m' :
  heap_ok h arenas bs l ->
  (forall x, in_holes x l -> load8 m' x = load8 (h_mem h) x) ->
  (forall p x, p ∈ bs -> p.1 <= x < p.1 + 8 -> load8 m' x = load8 (h_mem h) x) ->
  heap_ok (h <| h_mem := m' |>) arenas bs l.
Proof.
  intros [[Hl Hwf Hf Hk] Hb Hh Hap Hin Hsum] Hm1 Hm2. split; auto.
  - split; auto. eapply hole_list_frame; [|exact Hl]. intros x Hx. apply Hm1.
    by eapply in_header_hole.
  - rewrite !Forall_forall in *. intros p Hp. pose proof (Hb _ Hp) as (? & ? & ? & ?).
    split_and!; auto. eapply block_at_frame; [|eassumption]. intros x Hx. by apply (Hm2 p).
Qed.

Lemma heap_add_keeps h arenas bs l fuel addr sz :
  heap_ok h arenas bs l -> 0 < addr -> 12 <= sz -> addr + sz < 2 ^ 32 ->
  Forall (apart (addr, sz)) arenas -> (length l < fuel)%nat ->
  exists h', heap_add fuel addr sz h = Ok h'
    /\ heap_ok h' ((addr, sz) :: arenas) bs (insert_hole addr sz l).
Proof.
  intros Hok Ha Hs Has Hap Hfuel. unfold heap_add.
  change sizeof_fast_u16_t with 4. change sizeof_memory_block with 4.
  set (m' := store32 (store32 (h_mem h) addr sz) (addr + 4) MEMORY_BLOCK_MAGIC).
  change (put32 (addr + 4) _ _) with (h <| h_mem := m' |>).
  replace (addr + 4 + 4) with (addr + 8) by lia.
  pose proof Hok as [Hinv Hb Hh Hapb Hin Hsum]. pose proof (inv_wf _ _ Hinv) as Hwf.
  assert (Hnot : forall x, addr <= x < addr + sz -> ~ in_holes x arenas).
  { intros x Hx. by eapply apart_not_in. }
  assert (Hm : forall x, in_holes x arenas -> load8 m' x = load8 (h_mem h) x).
  { intros x Hx. unfold m'; cbn. rewrite !load8_store32_ne; [done|..];
      assert (~ addr <= x < addr + sz) by (intros Hx'; by apply (Hnot x)); lia. }
  assert (Hok' : heap_ok (h <| h_mem := m' |>) arenas bs l).
  { apply heap_ok_write; auto. intros p x Hp Hx. apply Hm, Hin. right. apply Exists_exists.
    exists p. split; [done|]. rewrite Forall_forall in Hb. apply Hb in Hp. unfold in_hole, hole_end in *. lia. }
  destruct Hok' as [Hinv' Hb' Hh' Hapb' Hin' Hsum'].
  assert (Hapart : forall k : list hole, Forall (fun p : hole => 12 <= p.2) k ->
    (forall x, in_holes x k -> in_holes x arenas) -> Forall (apart (addr, sz)) k).
  { intros k Hk Hka. rewrite Forall_forall in *. intros p Hp. specialize (Hk _ Hp).
    apply apart_bytes; cbn; [lia..|]. intros x Hx Hx'.
    apply (Hnot x); [unfold in_hole, hole_end in Hx; cbn in Hx; lia|]. apply Hka, Exists_exists. eauto. }
  eapply heap_give_back; eauto.
  - split; unfold mh_size, m'; cbn; mem_simp; done.
  - apply Hapart; auto. apply Forall_forall. intros p Hp. eapply wf_holes_lb in Hp; eauto. tauto.
  - apply Hapart; auto. eapply Forall_impl; [exact Hb|]. cbn. tauto.
  - intros x [?|[?|?]]; [right; apply Hin; auto..|by left].
  - cbn [total]. lia.
Qed.

(** The walk only runs out of fuel, it never goes wrong: more fuel than needed
    gives the same result. *)
Lemma free_scan_fuel fuel fuel' mb mh s h h' :
  free_scan fuel mb mh s h = Ok h' -> (fuel <= fuel')%nat -> free_scan fuel' mb mh s h = Ok h'.
Proof.
  revert fuel' mh s. induction fuel as [|fuel IH]; intros fuel' mh s; [done|].
  destruct fuel' as [|fuel']; [lia|]. cbn [free_scan]. intros H Hle.
  repeat (case_match; [done|]). apply IH; [done|lia].
Qed.

Lemma heap_free_fuel fuel fuel' block h h' :
  heap_free fuel block h = Ok h' -> (fuel <= fuel')%nat -> heap_free fuel' block h = Ok h'.
Proof.
  unfold heap_free. case_match; [done|]. destruct (spin_lock (heap_lock h)); cbn [mbind res_bind]; try done.
  intros Hf Hle. bind_inv Hf. by rewrite (free_scan_fuel _ _ _ _ _ _ _ Hf0 Hle).
Qed.

Lemma heap_alloc_fuel fuel fuel' size h block h' :
  heap_alloc fuel size h = Ok (block, h') -> (fuel <= fuel')%nat ->
  heap_alloc fuel' size h = Ok (block, h').
Proof.
  unfold heap_alloc. case_match; [done|]. destruct (spin_lock (heap_lock h)); cbn [mbind res_bind]; try done.
  intros H' Hle. bind_inv H'.
  assert (Hscan : forall fuel fuel' m r mh p u q z, (fuel <= fuel')%nat ->
    alloc_scan fuel m r mh p u q = Ok z -> alloc_scan fuel' m r mh p u q = Ok z).
  { clear. induction fuel as [|fuel IH]; intros [|fuel'] m r mh p u q z Hle; cbn [alloc_scan]; try done; [lia|].
    repeat (case_match; [done|]). apply IH. lia. }
  by rewrite (Hscan _ _ _ _ _ _ _ _ _ Hle H'0).
Qed.

Lemma lookup_remove {A} (l1 : list A) p l2 i :
  (l1 ++ l2) !! i = (l1 ++ p :: l2) !! (if decide (i < length l1)%nat then i else S i).
Proof.
  case_decide.
  - by rewrite !lookup_app_l.
  - rewrite !lookup_app_r by lia. by replace (S i - length l1)%nat with (S (i - length l1)) by lia.
Qed.

Lemma heap_free_keeps h arenas bs1 p bs2 l fuel :
  heap_ok h arenas (bs1 ++ p :: bs2) l -> (length l < fuel)%nat ->
  exists h', heap_free fuel (p.1 + 8) h = Ok h'
    /\ heap_ok h' arenas (bs1 ++ bs2) (insert_hole p.1 p.2 l).
Proof.
  intros [Hinv Hb Hh Hap Hin Hsum] Hfuel. destruct p as [a s]. cbn [fst snd].
  assert (Hx : forall P : hole -> Prop, Forall P (bs1 ++ (a, s) :: bs2) <-> P (a, s) /\ Forall P (bs1 ++ bs2)).
  { intros P. rewrite !Forall_app, Forall_cons. tauto. }
  apply Hx in Hb as [(Hblk & ? & ? & ?) Hb]. apply Hx in Hh as [Ha Hh].
  apply heap_give_back; auto.
  - apply Forall_lookup. intros i q Hi. rewrite (lookup_remove _ (a, s)) in Hi.
    apply (Hap (length bs1) (if decide (i < length bs1)%nat then i else S i)); auto.
    + case_decide; lia.
    + rewrite lookup_app_r, Nat.sub_diag by lia. done.
  - intros i j q r Hij Hi Hj. rewrite (lookup_remove _ (a, s)) in Hi, Hj.
    eapply Hap; [|exact Hi|exact Hj]. repeat case_decide; lia.
  - intros x [?|[[?|?]%Exists_app|?]]; apply Hin; auto; right; apply Exists_app;
      [by left|right; by right|right; by left].
  - rewrite !total_app in *. cbn [total] in Hsum. lia.
Qed.

Lemma heap_reach_ok h arenas bs : heap_reach h arenas bs -> exists l, heap_ok h arenas bs l.
Proof.
  induction 1 as [m|h arenas bs fuel addr sz h' _ [l IH] Ha Hs Has Hap H
    |h arenas bs fuel size block h' _ [l IH] Hsz H|h arenas bs1 p bs2 fuel h' _ [l IH] H
    |h arenas bs p x v _ [l IH] Hp Hx].
  - exists []. split; [by split|done|done|done| |done].
    by intros x [?%Exists_nil|?%Exists_nil].
  - destruct (heap_add_keeps h arenas bs l (S (length l) + fuel) addr sz) as (h1 & H1 & Hok); auto; [lia|].
    unfold heap_add in *. eapply heap_free_fuel in H; [rewrite H in H1; simplify_eq; eauto|lia].
  - pose proof (ok_inv _ _ _ _ IH) as Hinv.
    assert (Hle : size <= 0x8000).
    { unfold heap_alloc in H. destruct (Z.ltb_spec 0x8000 size); [done|lia]. }
    eapply (heap_alloc_fuel _ (S (length l) + fuel)) in H; [|lia].
    destruct (heap_alloc_spec h l (S (length l) + fuel) size) as [(b & h1 & l' & H1 & Hok)|[_ H1]];
      auto; try lia; rewrite H in H1; simplify_eq.
    exists l'. eapply heap_alloc_keeps; eauto. rewrite alloc_required_range; lia.
  - destruct (heap_free_keeps h arenas bs1 p bs2 l (S (length l) + fuel)) as (h1 & H1 & Hok); auto; [lia|].
    eapply heap_free_fuel in H; [rewrite H in H1; simplify_eq; eauto|lia].
  - exists l. pose proof IH as [Hinv Hb Hh Hap Hin Hsum]. rewrite !Forall_forall in *.
    assert (Hxp : in_hole x p) by (unfold in_hole; lia).
    apply heap_ok_write; auto.
    + intros y Hy. apply load8_store8_ne. intros ->.
      by eapply apart_not_in; [apply (Hh p Hp)|exact Hxp|].
    + intros q y Hq Hy. apply load8_store8_ne. intros ->.
      apply list_elem_of_lookup in Hp as [i Hi]. apply list_elem_of_lookup in Hq as [j Hj].
      destruct (decide (i = j)) as [->|Hij]; [simplify_eq; lia|].
      pose proof (Hap _ _ _ _ Hij Hi Hj). apply list_elem_of_lookup_2 in Hj. apply Hb in Hj.
      unfold apart, hole_end in *. lia.
Qed.

(** ** Properties *)

(** C1. [heap_alloc] implements best-fit allocation.  On any heap whose memory
    holds the hole list [l], with enough iterations for its holes, it either
    returns a block carved from the smallest sufficient hole (the first such in
    address order), leaving the remainder as a hole when it is large enough and
    touching no byte outside the holes, with the header of the block in place
    and the list, the free count and the lock again consistent; or no hole is
    large enough and it halts with the "NULL pointer" report.  It never runs
    out of iterations. *)
Theorem heap_alloc_refines_best_fit h l size fuel :
  heap_inv h l -> 0 <= size <= 0x8000 -> (Z.to_nat (free_ram h / 12) < fuel)%nat ->
  match heap_alloc fuel size h with
  | Ok (block, h') => exists l', alloc_ok h l (Z.max 12 (size + 8)) block h' l'
  | Stop why => why = "heap_alloc: NULL pointer" /\ Forall (fun q : hole => q.2 < Z.max 12 (size + 8)) l
  | Fuel => False
  end.
Proof.
  intros Hinv Hsz Hfuel. eapply heap_fuel_enough in Hfuel; eauto.
  destruct (heap_alloc_spec h l fuel size) as [(b & h' & l' & -> & H)|[H ->]]; auto;
    rewrite alloc_required_range in H; eauto.
Qed.

(** C2. Memory safety over whole runs.  In every state that a sequence of
    [heap_add], [heap_alloc], [heap_free] and writes by the owners of blocks can
    reach, live blocks are pairwise disjoint and carry an intact header, the
    holes form a coalesced list disjoint from every block, [free_ram] is the
    number of bytes in holes, and holes and blocks together account for every
    byte that was given to the heap. *)
Theorem heap_runs_are_safe h arenas bs :
  heap_reach h arenas bs ->
  (forall i j p q, i <> j -> bs !! i = Some p -> bs !! j = Some q -> apart p q) /\
  Forall (fun p : hole => block_at (h_mem h) p.1 p.2) bs /\
  free_ram h + total bs = total arenas /\
  exists l, hole_list (h_mem h) (first_hole h) l /\ wf_holes 0 l
            /\ Forall (fun p => Forall (apart p) l) bs.
Proof.
  intros [l [Hinv Hb Hh Hap _ Hsum]]%heap_reach_ok. destruct Hinv as [Hl Hwf Hf _].
  split_and!; auto; [|lia|eauto]. eapply Forall_impl; [exact Hb|]. cbn. tauto.
Qed.


(** C4. Allocation followed by release is the identity on the free list.  If
    [heap_alloc] succeeds, freeing its block succeeds and gives back exactly the
    holes, the free count and the lock there were before, with every byte
    outside the holes unchanged. *)
Theorem heap_alloc_free_roundtrip h l size fuel block h' :
  heap_inv h l -> 0 <= size <= 0x8000 -> (S (Z.to_nat (free_ram h / 12)) < fuel)%nat ->
  heap_alloc fuel size h = Ok (block, h') ->
  exists h'', heap_free fuel block h' = Ok h'' /\ heap_inv h'' l
    /\ free_ram h'' = free_ram h
    /\ (forall x, ~ in_holes x l -> load8 (h_mem h'') x = load8 (h_mem h) x).
Proof.
  intros Hinv Hsz Hfuel He. assert (Hlen : (S (length l) < fuel)%nat).
  { destruct fuel as [|fuel]; [lia|]. apply -> Nat.succ_lt_mono.
    eapply heap_fuel_enough; eauto. lia. }
  destruct (heap_alloc_spec h l fuel size) as [(b & h1 & l' & H1 & Hok)|[_ H1]]; auto; [lia|..];
    rewrite He in H1; simplify_eq. pose proof (alloc_required_range size Hsz) as Hr12.
  set (req := alloc_required size) in *.
  destruct Hok as [(k1 & a & s & k2 & -> & Hbest & -> & -> & Hblk) Hinv' Hfr].
  pose proof Hinv as [_ Hwf Hf _].
  pose proof Hwf as (Hwf1 & Hend & Ha & Hs & Has & Hwf2)%wf_holes_app.
  assert (Hr : 12 <= req <= s) by (split; [lia|apply Hbest]).
  assert (Ht : req <= taken s req <= s) by (unfold taken; destruct (splits s req); lia).
  destruct (heap_free_spec h1 (k1 ++ left_over a s req ++ k2) fuel a (taken s req))
    as (h2 & H2 & Hinv2 & Hfr2); auto; try lia.
  { apply Forall_app; split; [|apply Forall_app; split].
    - eapply Forall_impl; [exact Hend|]. unfold outside, hole_end; cbn. lia.
    - unfold left_over, taken. destruct (splits s req); [|done]. apply Forall_singleton. left. done.
    - rewrite Forall_forall. intros p Hp. pose proof (wf_holes_lb _ _ _ Hwf2 Hp). left. lia. }
  { rewrite !length_app in *. cbn in Hlen. unfold left_over. destruct (splits s req); cbn; lia. }
  rewrite insert_left_over in Hinv2 by auto. exists h2. split_and!; auto.
  - rewrite Hf. apply Hinv2.
  - intros x Hx. rewrite Hfr2, Hfr; auto.
    + intros Hx'. apply Hx. eapply insert_left_over with (required := req) in Hwf as <-; auto.
      eapply insert_hole_bytes; [apply Hinv'|lia|by left].
    + intros Hx'. apply Hx, Exists_app. right; left. unfold in_hole, hole_end; cbn. lia.
Qed.


(** ** Witnesses *)

(** An empty heap that was given one region of 200 bytes at 0x1000. *)
Definition region_heap : heap :=
  Eval vm_compute in
  match heap_add 1 0x1000 200 (Heap_ false 0 0 ∅) with Ok h => h | _ => Heap_ false 0 0 ∅ end.

Lemma region_heap_inv : heap_inv region_heap [(0x1000, 200)].
Proof. split; [vm_compute; repeat split|cbn; lia|done|done]. Qed.

Lemma region_heap_reach : heap_reach region_heap [(0x1000, 200)] [].
Proof.
  eapply (HR_add (Heap_ false 0 0 ∅) [] [] 1); [constructor|lia..|done|]. by vm_compute.
Qed.

Lemma heap_alloc_refines_best_fit_witness :
  match heap_alloc 20 100 region_heap with
  | Ok (block, h') => exists l', alloc_ok region_heap [(0x1000, 200)] (Z.max 12 (100 + 8)) block h' l'
  | Stop why => why = "heap_alloc: NULL pointer"
                /\ Forall (fun q : hole => q.2 < Z.max 12 (100 + 8)) [(0x1000, 200)]
  | Fuel => False
  end.
Proof.
  apply (heap_alloc_refines_best_fit region_heap [(0x1000, 200)] 100 20).
  - exact region_heap_inv.
  - lia.
  - vm_compute. lia.
Defined.

(** After one allocation of 100 bytes. *)
Definition one_block_heap : heap :=
  Eval vm_compute in
  match heap_alloc 20 100 region_heap with Ok (_, h) => h | _ => region_heap end.

Lemma one_block_heap_reach : heap_reach one_block_heap [(0x1000, 200)] [(0x1000, 108)].
Proof.
  eapply (HR_alloc region_heap [(0x1000, 200)] [] 20 100 (0x1000 + 8));
    [exact region_heap_reach|lia|]. by vm_compute.
Qed.

Lemma heap_runs_are_safe_witness :
  (forall i j p q, i <> j -> [(0x1000, 108)] !! i = Some p -> [(0x1000, 108)] !! j = Some q -> apart p q) /\
  Forall (fun p : hole => block_at (h_mem one_block_heap) p.1 p.2) [(0x1000, 108)] /\
  free_ram one_block_heap + total [(0x1000, 108)] = total [(0x1000, 200)] /\
  exists l, hole_list (h_mem one_block_heap) (first_hole one_block_heap) l /\ wf_holes 0 l
            /\ Forall (fun p => Forall (apart p) l) [(0x1000, 108)].
Proof. exact (heap_runs_are_safe _ _ _ one_block_heap_reach). Defined.


Lemma heap_alloc_free_roundtrip_witness :
  exists h'', heap_free 20 (0x1000 + 8) one_block_heap = Ok h'' /\ heap_inv h'' [(0x1000, 200)]
    /\ free_ram h'' = free_ram region_heap
    /\ (forall x, ~ in_holes x [(0x1000, 200)] -> load8 (h_mem h'') x = load8 (h_mem region_heap) x).
Proof.
  apply (heap_alloc_free_roundtrip region_heap [(0x1000, 200)] 100 20 (0x1000 + 8) one_block_heap).
  - exact region_heap_inv.
  - lia.
  - vm_compute. lia.
  - by vm_compute.
Defined.

