(* ===== verification/Context.v ===== *)
(** * Contexts, the scheduler and spinlocks (src/lib/context)

    [struct context], [struct lock] and the globals of context.c, with every
    scheduling operation of context.c, spinlock.c and isr_context_switch.c
    translated at the level of the links between contexts: the run queue and the
    sleep queues are threaded through the [c_run_queue] and [c_sleep_queue]
    fields, and a [struct context **] is a [slot].

    A context that is switched out keeps, on its stack, the code it returns into
    when it runs again.  That code is data here: [c_saved] is the list of
    [frame]s still to be executed, pushed before [isr_context_switch] and run by
    [resume] once the context is current again.  An operation that blocks is
    thus two steps of the kernel, as in the source.

    The i386 target is modelled: [priority_t] is 32 bits wide, [l_lock] is a
    byte, [run_queue_len] and [c_spinlocks_held] are bytes,
    [c_context_switches] is 16 bits wide.  FPU state and the debug lights are
    left out: no scheduling decision reads them. *)

From stdpp Require Import base list gmap fin_maps strings.
From Stdlib Require Import ZArith Lia.
From S2P Require Import Prelude.
Open Scope Z_scope.

(** ** Data *)

Abbreviation cid := nat.
Abbreviation lid := nat.
Abbreviation qid := nat.

Definition CONTEXT_NULL : Z := 0.
Definition CONTEXT_RUNNING : Z := 1.
Definition CONTEXT_READY : Z := 2.
Definition CONTEXT_INTERRUPTED : Z := 3.
Definition CONTEXT_SLEEP : Z := 4.
Definition CONTEXT_SLEEP_QUEUE : Z := 5.

(** Return points on the stack of a switched-out context. *)
Inductive frame :=
  | F_enter            (* context_enter: iret into the context's function *)
  | F_enable           (* isr_enable() and return to the caller *)
  | F_wait (l : lid)   (* __isr_context_wait(), after isr_context_switch() *)
  | F_unlock (l : lid) (* a caller's spinlock_unlock() after a wait *).

Record context := Context_ {
  c_priority : Z;
  c_state : Z;
  c_run_queue : option cid;
  c_sleep_queue : option cid;
  c_stack_memory : Z;
  c_context_switches : Z;
  c_spinlocks_held : Z;
  c_saved : list frame;   (* what the saved stack returns into *)
  c_ret : Z               (* the value that return delivers *) }.

#[export] Instance eta_context : Eta context := fun c =>
  Context_ (c_priority c) (c_state c) (c_run_queue c) (c_sleep_queue c) (c_stack_memory c)
    (c_context_switches c) (c_spinlocks_held c) (c_saved c) (c_ret c).

Record lock := Lock_ {
  l_lock : bool;
  l_pri_locked : Z;
  l_pri_unlocked : Z }.

#[export] Instance eta_lock : Eta lock := fun l =>
  Lock_ (l_lock l) (l_pri_locked l) (l_pri_unlocked l).

(** The globals of context.c, the store of contexts, locks and sleep-queue
    heads they point into, and the interrupt flag. *)
Record kernel := Kernel_ {
  current_context : option cid;
  run_queue : option cid;
  run_queue_len : Z;
  k_ctx : gmap cid context;
  k_locks : gmap lid lock;
  k_queues : gmap qid (option cid);
  isr_disabled : bool }.

#[export] Instance eta_kernel : Eta kernel := fun k =>
  Kernel_ (current_context k) (run_queue k) (run_queue_len k) (k_ctx k) (k_locks k)
    (k_queues k) (isr_disabled k).

(** ** Kernel computations *)

Definition M (A : Type) : Type := kernel -> res (A * kernel).
#[export] Instance M_ret : MRet M := fun A a k => Ok (a, k).
#[export] Instance M_bind : MBind M := fun A B f m k =>
  match m k with Ok (a, k') => f a k' | Stop w => Stop w | Fuel => Fuel end.

Definition stop {A} (why : string) : M A := fun _ => Stop why.
Definition get : M kernel := fun k => Ok (k, k).
Definition put (k : kernel) : M unit := fun _ => Ok (tt, k).
Definition check (b : bool) (why : string) : M unit := if b then mret tt else stop why.

(** Reading and writing through a [struct context *]. *)
Definition ctx (c : cid) : M context := fun k =>
  match k_ctx k !! c with Some x => Ok (x, k) | None => Stop "bad context pointer" end.
Definition set_ctx (c : cid) (x : context) : M unit := fun k =>
  Ok (tt, k <| k_ctx := <[c := x]> (k_ctx k) |>).
Definition mod_ctx (c : cid) (f : context -> context) : M unit :=
  x ← ctx c; set_ctx c (f x).

(** The current context; [current_context] is [NULL] only before the first
    context starts. *)
Definition current : M cid := fun k =>
  match current_context k with Some c => Ok (c, k) | None => Stop "no current context" end.

Definition lk (l : lid) : M lock := fun k =>
  match k_locks k !! l with Some x => Ok (x, k) | None => Stop "bad lock pointer" end.
Definition set_lk (l : lid) (x : lock) : M unit := fun k =>
  Ok (tt, k <| k_locks := <[l := x]> (k_locks k) |>).

Definition isr_disable : M unit := fun k => Ok (tt, k <| isr_disabled := true |>).
Definition isr_enable : M unit := fun k => Ok (tt, k <| isr_disabled := false |>).

Definition debug_assert_isr (disabled : bool) : M unit := fun k =>
  if Bool.eqb disabled (isr_disabled k) then Ok (tt, k) else Stop "dasi: ints dis".

(** ** Linked queues *)

(** Which link field of a context a queue is threaded through. *)
Inductive link := Run | Sleep.

Definition next (w : link) (x : context) : option cid :=
  match w with Run => c_run_queue x | Sleep => c_sleep_queue x end.
Definition set_next (w : link) (v : option cid) (x : context) : context :=
  match w with Run => x <| c_run_queue := v |> | Sleep => x <| c_sleep_queue := v |> end.

(** A [struct context **]: [&run_queue], the head of a sleep queue, or a link
    field of a context. *)
Inductive slot :=
  | S_run
  | S_queue (q : qid)
  | S_next (w : link) (c : cid).

Definition queue_head (q : qid) (k : kernel) : option cid := default None (k_queues k !! q).

Definition write_slot (s : slot) (v : option cid) : M unit :=
  match s with
  | S_run => fun k => Ok (tt, k <| run_queue := v |>)
  | S_queue q => fun k => Ok (tt, k <| k_queues := <[q := v]> (k_queues k) |>)
  | S_next w c => mod_ctx c (set_next w v)
  end.

(** [while (q && cond(q)) { qprev = &q->next; q = q->next; }].  A queue has no
    more members than there are contexts, which bounds the iterations. *)
Fixpoint walk (fuel : nat) (cond : cid -> context -> bool) (w : link) (q : option cid)
    (qprev : slot) : M (option cid * slot) :=
  match fuel with
  | O => fun _ => Fuel
  | S fuel =>
    match q with
    | None => mret (None, qprev)
    | Some c =>
      x ← ctx c;
      if cond c x then walk fuel cond w (next w x) (S_next w c) else mret (Some c, qprev)
    end
  end.

Definition walk_fuel (k : kernel) : nat := S (size (k_ctx k)).

Definition queue_walk (cond : cid -> context -> bool) (w : link) (q : option cid) (s : slot) :
    M (option cid * slot) := fun k => walk (walk_fuel k) cond w q s k.

(** ** isr_context_switch.c *)

(** From the [startup] mark on: the head of the run queue becomes the current
    context, and its state before that is the value it returns with. *)
Definition startup : M unit :=
  k ← get;
  match run_queue k with
  | None => stop "run queue empty"
  | Some c =>
    put (k <| current_context := Some c |>);;
    mod_ctx c (fun x => x <| c_ret := c_state x |> <| c_state := CONTEXT_RUNNING |>)
  end.

(** [isr_context_switch()], called with the return points [fs] on the stack of
    the outgoing context. *)
Definition isr_context_switch (fs : list frame) : M unit :=
  c ← current;
  mod_ctx c (fun x => x <| c_context_switches := u16 (c_context_switches x + 1) |>
                        <| c_saved := fs ++ c_saved x |>);;
  startup.

(** ** context.c *)

Definition isr_context_ready (c : cid) : M unit :=
  debug_assert_isr true;;
  k ← get;
  p ← ctx c;
  '(q, qprev) ← queue_walk (fun _ x => c_priority x <=? c_priority p) Run (run_queue k) S_run;
  mod_ctx c (set_next Run q);;
  write_slot qprev (Some c).

(** [run_queue = current_context->c_run_queue;] *)
Definition unlink_current : M unit :=
  c ← current;
  x ← ctx c;
  write_slot S_run (c_run_queue x).

Definition add_run_queue_len (d : Z) : M unit := fun k =>
  Ok (tt, k <| run_queue_len := u8 (run_queue_len k + d) |>).

Definition context_exit : M unit :=
  isr_disable;;
  unlink_current;;
  add_run_queue_len (-1);;
  c ← current;
  mod_ctx c (fun x => x <| c_state := CONTEXT_NULL |>);;
  startup.

(** Give up the CPU if the head of the run queue is another context; [true] if
    a switch was made, with [fs] left to run when the caller is back. *)
Definition switch_if_not_head (fs : list frame) : M bool :=
  c ← current;
  k ← get;
  if decide (Some c = run_queue k) then mret false
  else
    mod_ctx c (fun x => x <| c_state := CONTEXT_READY |>);;
    isr_context_switch fs;;
    mret true.

Definition isr_context_yield (fs : list frame) : M bool :=
  unlink_current;;
  c ← current;
  isr_context_ready c;;
  switch_if_not_head fs.

Definition context_yield : M unit :=
  isr_disable;;
  switched ← isr_context_yield [F_enable];
  if switched : bool then mret tt else isr_enable.

(** [__isr_context_wait()] up to and including the switch; [fs] are the return
    points of its callers, its own is [F_wait l]. *)
Definition isr_context_wait_ (l : lid) (sleep_state : Z) (fs : list frame) : M unit :=
  x ← lk l;
  check (l_lock x) "cw lock not held";;
  set_lk l (x <| l_lock := false |>);;
  c ← current;
  mod_ctx c (fun p => p <| c_priority := l_pri_unlocked x |>
                        <| c_spinlocks_held := u8 (c_spinlocks_held p - 1) |>);;
  p ← ctx c;
  check (c_spinlocks_held p =? 0) "context_wait: locks held!";;
  unlink_current;;
  add_run_queue_len (-1);;
  mod_ctx c (fun p => p <| c_state := sleep_state |>);;
  isr_context_switch (F_wait l :: fs).

(** The rest of [__isr_context_wait()]: back and running, retake the lock. *)
Definition wait_tail (l : lid) : M unit :=
  x ← lk l;
  c ← current;
  p ← ctx c;
  set_lk l (x <| l_pri_unlocked := c_priority p |>);;
  set_ctx c (p <| c_priority := l_pri_locked x |>
               <| c_spinlocks_held := u8 (c_spinlocks_held p + 1) |>);;
  check (negb (l_lock x)) "cw lock already held";;
  x ← lk l;
  set_lk l (x <| l_lock := true |>).

Definition isr_context_wait (l : lid) (fs : list frame) : M unit :=
  isr_context_wait_ l CONTEXT_SLEEP fs.

Definition context_wait (l : lid) (fs : list frame) : M unit :=
  isr_disable;;
  isr_context_wait_ l CONTEXT_SLEEP (F_enable :: fs).

Definition context_wait_queue (l : lid) (q : qid) (fs : list frame) : M unit :=
  isr_disable;;
  c ← current;
  k ← get;
  mod_ctx c (set_next Sleep (queue_head q k));;
  write_slot (S_queue q) (Some c);;
  isr_context_wait_ l CONTEXT_SLEEP_QUEUE (F_enable :: fs).

Definition context_wait_pri_queue (l : lid) (q : qid) (fs : list frame) : M unit :=
  isr_disable;;
  x ← lk l;
  let cur_unlocked_pri := l_pri_unlocked x in
  k ← get;
  '(p, s) ← queue_walk (fun _ x => c_priority x <=? cur_unlocked_pri) Sleep (queue_head q k) (S_queue q);
  c ← current;
  mod_ctx c (set_next Sleep p);;
  write_slot s (Some c);;
  isr_context_wait_ l CONTEXT_SLEEP_QUEUE (F_enable :: fs).

(** [c->c_state = state; run_queue_len++; isr_context_ready(c);] *)
Definition make_ready (c : cid) (state : Z) : M unit :=
  mod_ctx c (fun x => x <| c_state := state |>);;
  add_run_queue_len 1;;
  isr_context_ready c.

Definition isr_context_signal (c : cid) : M unit :=
  x ← ctx c;
  if c_state x =? CONTEXT_SLEEP then make_ready c CONTEXT_READY else mret tt.

Definition context_signal (c : cid) : M unit :=
  isr_disable;;
  isr_context_signal c;;
  isr_enable.

Definition context_signal_queue (q : qid) : M Z :=
  isr_disable;;
  k ← get;
  woken ← match queue_head q k with
          | Some c =>
            x ← ctx c;
            write_slot (S_queue q) (c_sleep_queue x);;
            make_ready c CONTEXT_READY;;
            mret 1
          | None => mret 0
          end;
  isr_enable;;
  mret woken.

(** The loop of [context_broadcast_queue]. *)
Fixpoint broadcast_loop (fuel : nat) (c : option cid) (woken : Z) : M Z :=
  match fuel with
  | O => fun _ => Fuel
  | S fuel =>
    match c with
    | None => mret woken
    | Some c =>
      make_ready c CONTEXT_READY;;
      x ← ctx c;
      broadcast_loop fuel (c_sleep_queue x) (u8 (woken + 1))
    end
  end.

Definition context_broadcast_queue (q : qid) : M Z :=
  isr_disable;;
  k ← get;
  woken ← broadcast_loop (walk_fuel k) (queue_head q k) 0;
  write_slot (S_queue q) None;;
  isr_enable;;
  mret woken.

Definition isr_context_interrupt (c : cid) : M unit :=
  x ← ctx c;
  if c_state x =? CONTEXT_SLEEP then make_ready c CONTEXT_INTERRUPTED else mret tt.

Definition context_interrupt (c : cid) : M unit :=
  isr_disable;;
  isr_context_interrupt c;;
  isr_enable.

Definition context_interrupt_queue (c : cid) (q : qid) : M Z :=
  isr_disable;;
  k ← get;
  '(p, s) ← queue_walk (fun x _ => negb (bool_decide (x = c))) Sleep (queue_head q k) (S_queue q);
  woken ← match p with
          | Some _ =>
            x ← ctx c;
            write_slot s (c_sleep_queue x);;
            make_ready c CONTEXT_INTERRUPTED;;
            mret 1
          | None => mret 0
          end;
  isr_enable;;
  mret woken.

(** [context_init()].  The two frames it builds on the new stack make the
    context start, once switched in, as if it returned into [context_enter].
    [fs] are the return points of the caller. *)
Definition context_init (c : cid) (stack_memory pri : Z) (fs : list frame) : M bool :=
  set_ctx c (Context_ pri CONTEXT_READY None None stack_memory 0 0 [F_enter] 0);;
  add_run_queue_len 1;;
  isr_context_ready c;;
  k ← get;
  match current_context k with
  | None => startup;; mret true
  | Some _ => switch_if_not_head fs
  end.

(** ** spinlock.c *)

Definition spinlock_init (l : lid) (pri : Z) : M unit := fun k =>
  let old := default (Lock_ false 0 0) (k_locks k !! l) in
  Ok (tt, k <| k_locks := <[l := old <| l_lock := false |> <| l_pri_locked := pri |>]> (k_locks k) |>).

(** [l->l_pri_unlocked = c_priority; c_priority = pri; c_spinlocks_held++;
    l->l_lock = 1;] with the check that the lock is free. *)
Definition take_lock (l : lid) (pri : Z) (why : string) : M unit :=
  x ← lk l;
  c ← current;
  p ← ctx c;
  set_lk l (x <| l_pri_unlocked := c_priority p |>);;
  set_ctx c (p <| c_priority := pri |> <| c_spinlocks_held := u8 (c_spinlocks_held p + 1) |>);;
  check (negb (l_lock x)) why;;
  x ← lk l;
  set_lk l (x <| l_lock := true |>).

Definition isr_spinlock_lock (l : lid) : M unit :=
  x ← lk l;
  check (l_pri_locked x =? 0) "ispllk pri !0:";;
  take_lock l 0 "ispllk already held".

Definition spinlock_lock (l : lid) : M unit :=
  debug_assert_isr false;;
  isr_disable;;
  x ← lk l;
  c ← current;
  p ← ctx c;
  check (negb (c_priority p <? l_pri_locked x)) "spllk pri";;
  take_lock l (l_pri_locked x) "spllk already held";;
  isr_enable.

(** The body shared by [isr_spinlock_unlock()] and [spinlock_unlock()]: release
    the lock, restore the priority, and give way to a more urgent context.
    [true] if a switch was made. *)
Definition release_lock (l : lid) (why_held why_pri : string) (fs : list frame) : M bool :=
  x ← lk l;
  check (l_lock x) why_held;;
  set_lk l (x <| l_lock := false |>);;
  c ← current;
  p ← ctx c;
  check (negb (l_pri_unlocked x <? c_priority p)) why_pri;;
  let p := p <| c_priority := l_pri_unlocked x |>
             <| c_spinlocks_held := u8 (c_spinlocks_held p - 1) |> in
  set_ctx c p;;
  match c_run_queue p with
  | None => mret false
  | Some n =>
    y ← ctx n;
    if c_priority y <? l_pri_unlocked x then
      write_slot S_run (Some n);;
      '(q, qprev) ← queue_walk (fun _ z => c_priority z <? l_pri_unlocked x) Run (Some n) S_run;
      mod_ctx c (set_next Run q);;
      write_slot qprev (Some c);;
      mod_ctx c (fun p => p <| c_state := CONTEXT_READY |>);;
      isr_context_switch fs;;
      mret true
    else mret false
  end.

Definition isr_spinlock_unlock (l : lid) (fs : list frame) : M bool :=
  release_lock l "isplun not held" "isplun pri" fs.

Definition spinlock_unlock (l : lid) : M unit :=
  debug_assert_isr false;;
  isr_disable;;
  switched ← release_lock l "splun not held" "splun pri" [F_enable];
  if switched : bool then mret tt else isr_enable.

(** ** Resuming a context that was switched out *)

Definition run_frame (f : frame) : M unit :=
  match f with
  | F_enter => isr_enable
  | F_enable => isr_enable
  | F_wait l => wait_tail l
  | F_unlock l => spinlock_unlock l
  end.

(** Run the innermost return point of the current context. *)
Definition resume : M unit :=
  c ← current;
  x ← ctx c;
  match c_saved x with
  | [] => mret tt
  | f :: fs => set_ctx c (x <| c_saved := fs |>);; run_frame f
  end.
