(* ===== verification/Sched.v ===== *)
(** * The scheduler's invariant (theorems about Context.v)

    The links of the run queue and of the sleep queues form lists; the run queue
    is ordered by priority with the current context at its head; states say on
    which queue a context is.  Every operation of the context library keeps this
    invariant, so the most urgent ready context is always the one that runs. *)

From stdpp Require Import base list gmap fin_maps fin_map_dom strings sorting.
From Stdlib Require Import ZArith Lia.
From S2P Require Import Prelude Context.
Open Scope Z_scope.

(** ** Chains: the list a linked queue stands for *)

Fixpoint chain (f : cid -> option (option cid)) (p : option cid) (l : list cid) : Prop :=
  match l with
  | [] => p = None
  | c :: l => p = Some c /\ exists n, f c = Some n /\ chain f n l
  end.

Lemma chain_frame f f' p l : (forall c, c ∈ l -> f' c = f c) -> chain f p l -> chain f' p l.
Proof.
  revert p; induction l as [|c l IH]; intros p Hf; cbn; [done|].
  intros (-> & n & Hn & Hl). split; [done|]. exists n. rewrite Hf by set_solver. split; [done|].
  apply IH; [|done]. intros d Hd. apply Hf. set_solver.
Qed.

Lemma chain_fun f p l l' : chain f p l -> chain f p l' -> l = l'.
Proof.
  revert p l'; induction l as [|c l IH]; intros p [|c' l']; cbn; [done|..].
  - by intros -> [? _].
  - by intros [-> _] ?.
  - intros (-> & n & Hn & Hl) (? & n' & Hn' & Hl'). simplify_eq. f_equal. eauto.
Qed.

Lemma chain_suffix f p l1 l2 : chain f p (l1 ++ l2) -> exists q, chain f q l2.
Proof.
  revert p; induction l1 as [|c l1 IH]; intros p; cbn; [eauto|]. intros (_ & n & _ & H). eauto.
Qed.

(** A terminated chain has no repetition: the list after an element is
    determined by the element. *)
Lemma chain_NoDup f p l : chain f p l -> NoDup l.
Proof.
  revert p; induction l as [|c l IH]; intros p; [constructor|].
  intros (-> & n & Hn & Hl). constructor; [|eauto].
  intros (l1 & l2 & ->)%list_elem_of_split.
  apply chain_suffix in Hl as Hs. destruct Hs as (q & -> & n' & Hn' & Hl2). simplify_eq.
  pose proof (chain_fun _ _ _ _ Hl Hl2) as E. apply (f_equal length) in E.
  rewrite length_app in E. cbn in E. lia.
Qed.

Lemma chain_head f p l : chain f p l -> head l = p.
Proof. destruct l; cbn; [done|]. by intros [-> _]. Qed.

Lemma chain_app f p l1 l2 :
  chain f p (l1 ++ l2) <->
  match last l1 with
  | None => chain f p l2
  | Some e => exists n, f e = Some n /\ chain f n l2 /\
      chain (fun c => if decide (c = e) then Some None else f c) p l1
  end.
Proof.
  destruct (last l1) as [e|] eqn:E; [|by apply last_None in E as ->].
  revert p; induction l1 as [|c l1 IH]; intros p; [done|]. cbn [app chain].
  destruct l1 as [|d l1].
  - cbn in E. simplify_eq. cbn. rewrite decide_True by done. naive_solver.
  - cbn [last] in E. specialize (IH E). destruct (decide (c = e)) as [->|Hc].
    + split.
      * intros (-> & n & Hn & Hl). apply chain_NoDup in Hl as Hd.
        exfalso. assert (e ∈ d :: l1) as He by by apply last_Some_elem_of.
        assert (chain f (Some e) (e :: (d :: l1) ++ l2)) as Hc by (cbn; eauto).
        apply chain_NoDup in Hc. apply NoDup_cons in Hc as [Hc _]. apply Hc. set_solver.
      * intros (n & Hn & Hl2 & -> & n' & Hn' & Hl). cbn in Hl. simplify_eq. by destruct Hl.
    + split.
      * intros (-> & n & Hn & Hl). apply IH in Hl as (n' & ? & ? & ?). exists n'. split_and!; eauto.
      * intros (n' & Hn' & Hl2 & -> & n & Hn & Hl). split; [done|]. exists n. split; [done|].
        apply IH. eauto.
Qed.

(** Inserting [c] between [l1] and [l2] by setting its link and the link before
    it. *)
Lemma chain_insert f p l1 l2 c f' p' :
  chain f p (l1 ++ l2) -> c ∉ l1 ++ l2 ->
  f' c = Some (head l2) ->
  (match last l1 with None => p' = Some c | Some e => f' e = Some (Some c) /\ p' = p end) ->
  (forall d, d <> c -> last l1 <> Some d -> f' d = f d) ->
  chain f' p' (l1 ++ c :: l2).
Proof.
  intros Hl Hc Hfc Hp Hf. rewrite chain_app in Hl |- *. destruct (last l1) as [e|] eqn:E.
  - destruct Hp as [He ->], Hl as (n & Hn & Hl2 & Hl1). apply last_Some_elem_of in E as Hel.
    exists (Some c). split_and!; [done| |].
    + split; [done|]. exists (head l2). split; [done|]. rewrite (chain_head _ _ _ Hl2).
      eapply chain_frame; [|exact Hl2]. intros d Hd. apply Hf; [set_solver|].
      intros [= <-].
      assert (chain f p (l1 ++ l2)) as Hall by (apply chain_app; rewrite E; eauto).
      apply chain_NoDup, NoDup_app in Hall as (_ & Hdis & _). by apply (Hdis e).
    + eapply chain_frame; [|exact Hl1]. intros d Hd. cbn. case_decide; [done|].
      apply Hf; [set_solver|congruence].
  - subst p'. split; [done|]. exists (head l2). split; [done|]. rewrite (chain_head _ _ _ Hl).
    apply last_None in E as ->. eapply chain_frame; [|exact Hl].
    intros d Hd. apply Hf; [set_solver|done].
Qed.

(** Removing [c] from the middle by redirecting the link before it. *)
Lemma chain_remove f p l1 c l2 f' p' :
  chain f p (l1 ++ c :: l2) ->
  (match last l1 with None => p' = head l2 | Some e => f' e = Some (head l2) /\ p' = p end) ->
  (forall d, d <> c -> last l1 <> Some d -> f' d = f d) ->
  chain f' p' (l1 ++ l2).
Proof.
  intros Hl Hp Hf. pose proof (chain_NoDup _ _ _ Hl) as Hnd.
  apply NoDup_app in Hnd as (_ & Hdis & Hnd2). apply NoDup_cons in Hnd2 as [Hc2 _].
  rewrite chain_app in Hl |- *. destruct (last l1) as [e|] eqn:E.
  - destruct Hp as [He ->], Hl as (n & Hn & (-> & n2 & Hn2 & Hl2) & Hl1).
    apply last_Some_elem_of in E as Hel.
    exists (head l2). split_and!; [done| |].
    + rewrite (chain_head _ _ _ Hl2). eapply chain_frame; [|exact Hl2].
      intros d Hd. apply Hf; [set_solver|]. intros [= <-]. apply (Hdis e); set_solver.
    + eapply chain_frame; [|exact Hl1]. intros d Hd. cbn. case_decide; [done|].
      apply Hf; [|congruence]. intros ->. apply (Hdis c); set_solver.
  - subst p'. destruct Hl as (-> & n2 & Hn2 & Hl2). apply last_None in E as ->.
    rewrite (chain_head _ _ _ Hl2). eapply chain_frame; [|exact Hl2].
    intros d Hd. apply Hf; [set_solver|done].
Qed.

(** ** Running kernel computations *)

Lemma bind_run {A B} (m : M A) (f : A -> M B) k a k' :
  m k = Ok (a, k') -> (m ≫= f) k = f a k'.
Proof. unfold mbind, M_bind. by intros ->. Qed.

Lemma bind_stop {A B} (m : M A) (f : A -> M B) k w :
  m k = Stop w -> (m ≫= f) k = Stop w.
Proof. unfold mbind, M_bind. by intros ->. Qed.

Lemma bind_inv {A B} (m : M A) (f : A -> M B) k b k' :
  (m ≫= f) k = Ok (b, k') -> exists a k1, m k = Ok (a, k1) /\ f a k1 = Ok (b, k').
Proof. unfold mbind, M_bind. destruct (m k) as [[a k1]| |]; [eauto|done..]. Qed.

Lemma ctx_run c x k : k_ctx k !! c = Some x -> ctx c k = Ok (x, k).
Proof. unfold ctx. by intros ->. Qed.

Lemma lk_run l x k : k_locks k !! l = Some x -> lk l k = Ok (x, k).
Proof. unfold lk. by intros ->. Qed.

Lemma current_run c k : current_context k = Some c -> current k = Ok (c, k).
Proof. unfold current. by intros ->. Qed.

Lemma mod_ctx_run c f x k :
  k_ctx k !! c = Some x -> mod_ctx c f k = Ok (tt, k <| k_ctx := <[c := f x]> (k_ctx k) |>).
Proof. intros H. unfold mod_ctx. by rewrite (bind_run _ _ _ _ _ (ctx_run _ _ _ H)). Qed.

(** Run the first computation of a sequence with a lemma for it. *)
Ltac run_with H := erewrite (bind_run _ _ _ _ _ H).

(** ** Links of a kernel state *)

Definition lnk (k : kernel) (w : link) (c : cid) : option (option cid) := next w <$> k_ctx k !! c.

(** A context without the link of queue kind [w]. *)
Definition core (w : link) (x : context) : context := set_next w None x.

Definition slot_read (s : slot) (k : kernel) : option cid :=
  match s with
  | S_run => run_queue k
  | S_queue q => queue_head q k
  | S_next w c => default None (lnk k w c)
  end.

(** The head of a queue threaded through link [w]. *)
Definition base_of (w : link) (s : slot) : Prop :=
  match w, s with Run, S_run => True | Sleep, S_queue _ => True | _, _ => False end.

Definition slot_after (s : slot) (w : link) (l : list cid) : slot :=
  match last l with None => s | Some c => S_next w c end.

(** [k'] differs from [k] only in the links of queue [s]. *)
Record relinked (w : link) (s : slot) (k k' : kernel) : Prop := {
  rl_current : current_context k' = current_context k;
  rl_len : run_queue_len k' = run_queue_len k;
  rl_locks : k_locks k' = k_locks k;
  rl_isr : isr_disabled k' = isr_disabled k;
  rl_run : s <> S_run -> run_queue k' = run_queue k;
  rl_queues : forall q, s <> S_queue q -> queue_head q k' = queue_head q k;
  rl_core : forall c, core w <$> k_ctx k' !! c = core w <$> k_ctx k !! c }.

Lemma core_set_next w v x : core w (set_next w v x) = core w x.
Proof. by destruct w. Qed.

Lemma next_set_next w v x : next w (set_next w v x) = v.
Proof. by destruct w. Qed.

Lemma lnk_insert k w c x d :
  lnk (k <| k_ctx := <[c := x]> (k_ctx k) |>) w d = if decide (c = d) then Some (next w x) else lnk k w d.
Proof. unfold lnk. cbn. rewrite lookup_insert. by case_decide. Qed.

Lemma queue_head_insert k q v q' :
  queue_head q' (k <| k_queues := <[q := v]> (k_queues k) |>)
  = if decide (q = q') then v else queue_head q' k.
Proof. unfold queue_head. cbn. rewrite lookup_insert. by case_decide. Qed.

(** Changing the link of one context, or the head, by [write_slot]. *)
Lemma write_slot_spec w s l v k :
  base_of w s -> (forall e, last l = Some e -> is_Some (k_ctx k !! e)) ->
  exists k', write_slot (slot_after s w l) v k = Ok (tt, k') /\ relinked w s k k'
    /\ (match last l with None => slot_read s k' = v
        | Some e => lnk k' w e = Some v /\ slot_read s k' = slot_read s k end)
    /\ (forall d, last l <> Some d -> lnk k' w d = lnk k w d)
    /\ (forall d, is_Some (k_ctx k' !! d) <-> is_Some (k_ctx k !! d)).
Proof.
  intros Hs He. unfold slot_after. destruct (last l) as [e|] eqn:E.
  - destruct (He e eq_refl) as [x Hx]. cbn [write_slot]. rewrite (mod_ctx_run _ _ x) by done.
    eexists. split; [done|]. split_and!.
    + split; try done. intros c. cbn. rewrite lookup_insert. case_decide as Hc; [|done].
      subst c. rewrite Hx. cbn. by rewrite core_set_next.
    + rewrite lnk_insert, decide_True by done. by rewrite next_set_next.
    + destruct w, s; try done.
    + intros d Hd. rewrite lnk_insert, decide_False by congruence. done.
    + intros d. cbn. rewrite lookup_insert. case_decide as Hc; [|done]. subst. rewrite Hx. naive_solver.
  - destruct w, s; try done; cbn [write_slot]; eexists; (split; [done|]); split_and!; try done.
    + split; try done. intros q' Hq. rewrite queue_head_insert, decide_False by congruence. done.
    + cbn [slot_read]. by rewrite queue_head_insert, decide_True.
Qed.

Lemma chain_dom k w p l c : chain (lnk k w) p l -> c ∈ l -> is_Some (k_ctx k !! c).
Proof.
  revert p; induction l as [|d l IH]; intros p; [by intros _ ?%elem_of_nil|].
  intros (-> & n & Hn & Hl) [->|Hc]%elem_of_cons; [|eauto].
  unfold lnk in Hn. destruct (k_ctx k !! d); [eauto|done].
Qed.

Lemma chain_length k w p l : chain (lnk k w) p l -> (length l < walk_fuel k)%nat.
Proof.
  intros H. unfold walk_fuel. apply Nat.lt_succ_r.
  rewrite <-(size_list_to_set (C:=gset cid) l) by by eapply chain_NoDup.
  rewrite <-size_dom. apply subseteq_size. intros c Hc%elem_of_list_to_set.
  apply elem_of_dom. by eapply chain_dom.
Qed.

(** Linking [c] in after [l1]. *)
Lemma link_in w s l1 l2 c x k :
  base_of w s -> chain (lnk k w) (slot_read s k) (l1 ++ l2) -> c ∉ l1 ++ l2 ->
  k_ctx k !! c = Some x ->
  exists k', (mod_ctx c (set_next w (head l2));; write_slot (slot_after s w l1) (Some c)) k = Ok (tt, k')
    /\ relinked w s k k' /\ chain (lnk k' w) (slot_read s k') (l1 ++ c :: l2)
    /\ (forall d, d <> c -> d ∉ l1 -> lnk k' w d = lnk k w d).
Proof.
  intros Hs Hl Hc Hx. run_with (mod_ctx_run c (set_next w (head l2)) x k Hx).
  set (k1 := setter _ k).
  assert (Hr : slot_read s k1 = slot_read s k) by by destruct w, s.
  assert (Hk1 : forall d, lnk k1 w d = if decide (c = d) then Some (head l2) else lnk k w d).
  { intros d. unfold k1. rewrite lnk_insert, next_set_next. done. }
  assert (Hlast : forall e, last l1 = Some e -> e ∈ l1) by (intros; by apply last_Some_elem_of).
  destruct (write_slot_spec w s l1 (Some c) k1 Hs) as (k' & -> & Hrl & Hv & Hd & _).
  { intros e He. unfold k1. cbn. rewrite lookup_insert. case_decide; [eauto|].
    eapply (chain_dom _ _ _ _ _ Hl). apply Hlast in He. set_solver. }
  assert (Hsame : forall d, d <> c -> last l1 <> Some d -> lnk k' w d = lnk k w d).
  { intros d Hdc Hdl. rewrite Hd, Hk1, decide_False by auto. done. }
  exists k'. split_and!; [done| | |intros d ? ?; apply Hsame; [done|]; by intros ?%Hlast].
  - destruct Hrl as [R1 R2 R3 R4 R5 R6 R7]. split; auto.
    intros d. rewrite R7. unfold k1. cbn. rewrite lookup_insert. case_decide as E; [|done].
    subst d. rewrite Hx. cbn. by rewrite core_set_next.
  - eapply chain_insert; [exact Hl|done|..].
    + rewrite Hd, Hk1, decide_True; [done..|]. intros ?%Hlast. set_solver.
    + destruct (last l1); [|done]. rewrite <-Hr. tauto.
    + exact Hsame.
Qed.

(** Unlinking the member after [l1]. *)
Lemma link_out w s l1 c l2 k :
  base_of w s -> chain (lnk k w) (slot_read s k) (l1 ++ c :: l2) ->
  exists k', write_slot (slot_after s w l1) (head l2) k = Ok (tt, k')
    /\ relinked w s k k' /\ chain (lnk k' w) (slot_read s k') (l1 ++ l2)
    /\ (forall d, d ∉ l1 -> lnk k' w d = lnk k w d).
Proof.
  intros Hs Hl.
  destruct (write_slot_spec w s l1 (head l2) k Hs) as (k' & -> & Hrl & Hv & Hd & _).
  { intros e He%last_Some_elem_of. eapply (chain_dom _ _ _ _ _ Hl). set_solver. }
  exists k'. split_and!; auto.
  - eapply chain_remove; [exact Hl|by destruct (last l1)|auto].
  - intros d ?. apply Hd. by intros ?%last_Some_elem_of.
Qed.

(** The member of a chain links to the rest. *)
Lemma chain_next k w p l1 c l2 x :
  chain (lnk k w) p (l1 ++ c :: l2) -> k_ctx k !! c = Some x -> next w x = head l2.
Proof.
  revert p; induction l1 as [|d l1 IH]; intros p; cbn.
  - intros (_ & n & Hn & Hl) Hx. unfold lnk in Hn. rewrite Hx in Hn. cbn in Hn. simplify_eq.
    symmetry. by eapply chain_head.
  - intros (_ & n & _ & Hl) Hx. eauto.
Qed.

(** [walk] stops in front of the first member that does not satisfy the
    condition. *)
Lemma walk_spec cond w k fuel q s l0 l :
  chain (lnk k w) q l -> (length l < fuel)%nat ->
  exists l1 l2, l = l1 ++ l2
    /\ walk fuel cond w q (slot_after s w l0) k = Ok ((head l2, slot_after s w (l0 ++ l1)), k)
    /\ Forall (fun c => exists x, k_ctx k !! c = Some x /\ cond c x = true) l1
    /\ (forall c x, head l2 = Some c -> k_ctx k !! c = Some x -> cond c x = false).
Proof.
  revert fuel q l0; induction l as [|c l IH]; intros fuel q l0 Hl Hfuel;
    (destruct fuel as [|fuel]; [cbn in Hfuel; lia|]).
  - cbn in Hl. subst q. exists [], []. rewrite (app_nil_r l0). split_and!; done.
  - destruct Hl as (-> & n & Hn & Hl). unfold lnk in Hn. destruct (k_ctx k !! c) as [x|] eqn:Hx; [|done].
    cbn in Hn. simplify_eq. cbn [walk]. run_with (ctx_run c x k Hx).
    destruct (cond c x) eqn:Hc.
    + destruct (IH fuel (next w x) (l0 ++ [c]) Hl) as (l1 & l2 & -> & Hw & Hf & Hn); [cbn in Hfuel; lia|].
      exists (c :: l1), l2. split_and!; [done| | |done].
      * replace (S_next w c) with (slot_after s w (l0 ++ [c])) by (unfold slot_after; by rewrite last_snoc).
        rewrite Hw. by rewrite <-app_assoc.
      * constructor; eauto.
    + exists [], (c :: l). rewrite (app_nil_r l0). split_and!; try done.
      intros ? ? [= <-] ?. congruence.
Qed.

Lemma queue_walk_spec cond w k q s l :
  chain (lnk k w) q l ->
  exists l1 l2, l = l1 ++ l2
    /\ queue_walk cond w q s k = Ok ((head l2, slot_after s w l1), k)
    /\ Forall (fun c => exists x, k_ctx k !! c = Some x /\ cond c x = true) l1
    /\ (forall c x, head l2 = Some c -> k_ctx k !! c = Some x -> cond c x = false).
Proof. intros H. apply (walk_spec cond w k _ q s [] l); [done|]. by eapply chain_length. Qed.

Lemma relinked_lookup w s k k' c x :
  relinked w s k k' -> k_ctx k !! c = Some x ->
  exists x', k_ctx k' !! c = Some x' /\ core w x' = core w x.
Proof.
  intros H Hx. pose proof (rl_core _ _ _ _ H c) as E. rewrite Hx in E. cbn in E.
  destruct (k_ctx k' !! c) as [x'|]; [|done]. cbn in E. simplify_eq. eauto.
Qed.

Lemma relinked_other_lnk w w' s k k' c :
  relinked w s k k' -> w <> w' -> lnk k' w' c = lnk k w' c.
Proof.
  intros H Hw. pose proof (rl_core _ _ _ _ H c) as E. unfold lnk.
  destruct (k_ctx k' !! c) as [x'|], (k_ctx k !! c) as [x|]; cbn in *; try done.
  injection E as E. f_equal. destruct w, w'; try done; by injection E.
Qed.

(** ** The invariant *)

Definition pri (k : kernel) (c : cid) : Z := default 0 (c_priority <$> k_ctx k !! c).
Definition runnable (s : Z) : Prop :=
  s = CONTEXT_RUNNING \/ s = CONTEXT_READY \/ s = CONTEXT_INTERRUPTED.

Abbreviation by_pri k := (fun c d => pri k c <= pri k d).

(** The queues and the states agree, for every context but [lim] (one that an
    operation is moving between queues). *)
Definition placed (rq : list cid) (sq : qid -> list cid) (c : cid) (x : context) : Prop :=
  (c ∈ rq <-> runnable (c_state x)) /\
  ((exists q, c ∈ sq q) <-> c_state x = CONTEXT_SLEEP_QUEUE).

Record q_inv (k : kernel) (rq : list cid) (sq : qid -> list cid) (lim : option cid) : Prop := {
  qi_run : chain (lnk k Run) (run_queue k) rq;
  qi_sleep : forall q, chain (lnk k Sleep) (queue_head q k) (sq q);
  qi_sorted : StronglySorted (by_pri k) rq;
  qi_uniq : forall q1 q2 c, c ∈ sq q1 -> c ∈ sq q2 -> q1 = q2;
  qi_placed : forall c x, k_ctx k !! c = Some x -> lim <> Some c -> placed rq sq c x }.

Record sched_inv (k : kernel) (rq : list cid) (sq : qid -> list cid) : Prop := {
  si_q : q_inv k rq sq None;
  si_current : exists c tl, rq = c :: tl /\ current_context k = Some c;
  si_running : forall c x, k_ctx k !! c = Some x ->
                 c_state x = CONTEXT_RUNNING -> current_context k = Some c;
  si_cur_state : forall c x, current_context k = Some c -> k_ctx k !! c = Some x ->
                 c_state x = CONTEXT_RUNNING;
  si_len : run_queue_len k = u8 (Z.of_nat (length rq)) }.

(** What [q_inv] reads of a context, apart from its links. *)
Definition same_view (x y : context) : Prop :=
  c_priority x = c_priority y /\ c_state x = c_state y.

Lemma core_view w x y : core w x = core w y -> same_view x y.
Proof. destruct w; cbn; intros E; injection E; by split. Qed.

Lemma sorted_ext k k' l :
  (forall c, c ∈ l -> pri k' c = pri k c) -> StronglySorted (by_pri k) l -> StronglySorted (by_pri k') l.
Proof.
  intros Hp. induction 1 as [|c l Hl IH Hc]; constructor.
  - apply IH. intros d Hd. apply Hp. set_solver.
  - rewrite Forall_forall in *. intros d Hd. rewrite !Hp by set_solver. auto.
Qed.

Lemma sorted_insert k l1 l2 c :
  StronglySorted (by_pri k) (l1 ++ l2) -> Forall (fun d => pri k d <= pri k c) l1 ->
  (forall d, head l2 = Some d -> pri k c <= pri k d) -> StronglySorted (by_pri k) (l1 ++ c :: l2).
Proof.
  intros Hs H1 H2. induction l1 as [|d l1 IH]; cbn [app] in *.
  - constructor; [done|]. destruct l2 as [|e l2]; [done|]. specialize (H2 e eq_refl).
    constructor; [done|]. apply StronglySorted_inv in Hs as [_ Hs].
    eapply Forall_impl; [exact Hs|]. cbn. lia.
  - apply StronglySorted_inv in Hs as [Hs Hd]. apply Forall_cons in H1 as [Hdc H1].
    constructor; [auto|]. rewrite Forall_app, Forall_cons in *. intuition.
Qed.

Lemma sorted_tail k c l : StronglySorted (by_pri k) (c :: l) -> StronglySorted (by_pri k) l.
Proof. by intros [? _]%StronglySorted_inv. Qed.

Lemma relinked_pri w s k k' c : relinked w s k k' -> pri k' c = pri k c.
Proof.
  intros H. pose proof (rl_core _ _ _ _ H c) as E. unfold pri.
  destruct (k_ctx k' !! c), (k_ctx k !! c); cbn in *; try done.
  injection E as E. by apply core_view in E as [-> _].
Qed.

Lemma relinked_placed w s k k' c x' :
  relinked w s k k' -> k_ctx k' !! c = Some x' ->
  exists x, k_ctx k !! c = Some x /\ same_view x x' /\ core w x' = core w x.
Proof.
  intros H Hx. pose proof (rl_core _ _ _ _ H c) as E. rewrite Hx in E. cbn in E.
  destruct (k_ctx k !! c) as [x|]; [|done]. cbn in E. exists x. injection E as E.
  split_and!; auto. by eapply core_view.
Qed.

(** Changing a context without touching its links keeps the queues. *)
Lemma q_inv_update k rq sq lim c x x' :
  q_inv k rq sq lim -> k_ctx k !! c = Some x ->
  c_run_queue x' = c_run_queue x -> c_sleep_queue x' = c_sleep_queue x ->
  (c_priority x' = c_priority x \/ c ∉ rq) ->
  (c_state x' = c_state x \/ lim = Some c) ->
  q_inv (k <| k_ctx := <[c := x']> (k_ctx k) |>) rq sq lim.
Proof.
  intros [H1 H2 H3 H4 H5] Hx Hr Hsl Hp Hst.
  assert (Hl : forall w d, lnk (k <| k_ctx := <[c := x']> (k_ctx k) |>) w d = lnk k w d).
  { intros w d. rewrite lnk_insert. case_decide; [|done]. subst d. unfold lnk. rewrite Hx.
    destruct w; cbn; congruence. }
  split; auto.
  - eapply chain_frame; [|exact H1]. auto.
  - intros q. eapply chain_frame; [|exact (H2 q)]. auto.
  - eapply sorted_ext; [|exact H3]. intros d Hd. unfold pri. cbn. rewrite lookup_insert.
    case_decide; [|done]. subst d. rewrite Hx. cbn. by destruct Hp.
  - intros d y. cbn. rewrite lookup_insert. case_decide; [|auto]. subst d. intros [= <-] Hlim.
    destruct Hst as [Hst|?]; [|done]. specialize (H5 c x Hx Hlim). unfold placed in *. by rewrite Hst.
Qed.

(** Fields outside the queues do not matter. *)
Lemma q_inv_frame k k' rq sq lim :
  run_queue k' = run_queue k -> k_ctx k' = k_ctx k -> (forall q, queue_head q k' = queue_head q k) ->
  q_inv k rq sq lim -> q_inv k' rq sq lim.
Proof.
  intros Hr Hc Hq [H1 H2 H3 H4 H5]. unfold lnk, pri in *. split; unfold lnk, pri; rewrite ?Hr, ?Hc; auto.
  intros q. rewrite Hq. auto.
Qed.

Lemma q_inv_weaken k rq sq c : q_inv k rq sq None -> q_inv k rq sq (Some c).
Proof. intros [H1 H2 H3 H4 H5]. split; auto. Qed.

(** A context in limbo that has come to its place. *)
Lemma q_inv_settle k rq sq c x :
  q_inv k rq sq (Some c) -> k_ctx k !! c = Some x -> placed rq sq c x -> q_inv k rq sq None.
Proof.
  intros [H1 H2 H3 H4 H5] Hx Hp. split; auto. intros d y Hy _.
  destruct (decide (c = d)) as [->|]; [simplify_eq; done|]. apply H5; congruence.
Qed.

(** ** Moving contexts between queues *)

Definition sq_set (sq : qid -> list cid) (q : qid) (l : list cid) : qid -> list cid :=
  fun q' => if decide (q' = q) then l else sq q'.

Lemma sq_set_eq sq q l : sq_set sq q l q = l.
Proof. unfold sq_set. by rewrite decide_True. Qed.

(** The invariant of the queues after a change of the links of one of them. *)
Lemma q_inv_relinked_run k k' rq rq' sq c x :
  q_inv k rq sq (Some c) -> relinked Run S_run k k' -> k_ctx k !! c = Some x ->
  chain (lnk k' Run) (run_queue k') rq' -> StronglySorted (by_pri k) rq' ->
  (forall d, d <> c -> d ∈ rq' <-> d ∈ rq) ->
  q_inv k' rq' sq (Some c).
Proof.
  intros [H1 H2 H3 H4 H5] Hr Hx Hl Hs Hd. split; auto.
  - intros q. rewrite (rl_queues _ _ _ _ Hr) by done. eapply chain_frame; [|exact (H2 q)].
    intros d _. by eapply relinked_other_lnk.
  - eapply sorted_ext; [|exact Hs]. intros d _. by eapply relinked_pri.
  - intros d y Hy Hlim. destruct (relinked_placed _ _ _ _ _ _ Hr Hy) as (y0 & Hy0 & [_ Hst] & _).
    specialize (H5 d y0 Hy0 Hlim). unfold placed in *. rewrite <-Hst, Hd by congruence. done.
Qed.

Lemma q_inv_relinked_sleep k k' rq sq q l c x :
  q_inv k rq sq (Some c) -> relinked Sleep (S_queue q) k k' -> k_ctx k !! c = Some x ->
  chain (lnk k' Sleep) (queue_head q k') l ->
  (forall d, d <> c -> d ∈ l <-> d ∈ sq q) -> (forall q', q' <> q -> c ∉ sq q') ->
  (forall d, d <> c -> d ∉ sq q -> lnk k' Sleep d = lnk k Sleep d) ->
  q_inv k' rq (sq_set sq q l) (Some c).
Proof.
  intros [H1 H2 H3 H4 H5] Hr Hx Hl Hd Hc Hlk.
  assert (Hmem : forall d q', d <> c -> d ∈ sq_set sq q l q' <-> d ∈ sq q').
  { intros d q' Hdc. unfold sq_set. case_decide; [subst q'; auto|done]. }
  split; auto.
  - rewrite (rl_run _ _ _ _ Hr) by done. eapply chain_frame; [|exact H1].
    intros d _. by eapply relinked_other_lnk.
  - intros q'. unfold sq_set. case_decide as E; [by subst q'|].
    rewrite (rl_queues _ _ _ _ Hr) by congruence. eapply chain_frame; [|exact (H2 q')].
    intros d Hd'. apply Hlk; [intros ->; by eapply Hc|]. intros Hdq. apply E. eauto.
  - eapply sorted_ext; [|exact H3]. intros d _. by eapply relinked_pri.
  - intros q1 q2 d Hd1 Hd2. destruct (decide (d = c)) as [->|Hdc]; [|rewrite Hmem in Hd1, Hd2; eauto].
    unfold sq_set in *. repeat case_decide; subst; try done; exfalso; eapply Hc; eauto.
  - intros d y Hy Hlim. destruct (relinked_placed _ _ _ _ _ _ Hr Hy) as (y0 & Hy0 & [_ Hst] & _).
    specialize (H5 d y0 Hy0 Hlim). unfold placed in *. rewrite <-Hst. destruct H5 as [? <-]. split; [done|].
    assert (d <> c) by congruence. split; intros [q' Hq']; exists q'; by apply Hmem.
Qed.

(** [run_queue = current_context->c_run_queue], with [c] at the head. *)
Lemma q_inv_unlink_head k c tl sq x :
  q_inv k (c :: tl) sq (Some c) -> k_ctx k !! c = Some x ->
  c_run_queue x = head tl /\ q_inv (k <| run_queue := head tl |>) tl sq (Some c).
Proof.
  intros Hq Hx. pose proof Hq as [H1 H2 H3 H4 H5].
  pose proof (chain_next _ Run _ [] c tl x H1 Hx) as Hn. split; [done|].
  pose proof H1 as (_ & n & Hlk & Hl). unfold lnk in Hlk. rewrite Hx in Hlk. cbn in Hlk. simplify_eq.
  eapply q_inv_relinked_run; [exact Hq|..]; [by split|done| | |].
  - change (chain (lnk k Run) (head tl) tl). by rewrite <-Hn.
  - by eapply sorted_tail.
  - set_solver.
Qed.

(** [isr_context_ready] is sorted insertion behind equals. *)
Lemma isr_context_ready_spec k rq sq c x :
  q_inv k rq sq (Some c) -> c ∉ rq -> isr_disabled k = true -> k_ctx k !! c = Some x ->
  exists k' l1 l2, isr_context_ready c k = Ok (tt, k') /\ rq = l1 ++ l2
    /\ q_inv k' (l1 ++ c :: l2) sq (Some c) /\ relinked Run S_run k k'
    /\ Forall (fun d => pri k d <= pri k c) l1 /\ Forall (fun d => pri k c < pri k d) l2.
Proof.
  intros Hq Hc Hisr Hx. pose proof Hq as [H1 H2 H3 H4 H5]. unfold isr_context_ready.
  assert (Hd : debug_assert_isr true k = Ok (tt, k)) by (unfold debug_assert_isr; by rewrite Hisr).
  run_with Hd. run_with (eq_refl : get k = Ok (k, k)). run_with (ctx_run c x k Hx).
  destruct (queue_walk_spec (fun _ y => c_priority y <=? c_priority x) Run k (run_queue k) S_run rq H1)
    as (l1 & l2 & -> & Hw & Hf & Hn).
  run_with Hw. destruct (link_in Run S_run l1 l2 c x k) as (k' & -> & Hr & Hch & _); auto; [done|].
  assert (Hp : pri k c = c_priority x) by (unfold pri; by rewrite Hx).
  assert (Hf1 : Forall (fun d => pri k d <= pri k c) l1).
  { eapply Forall_impl; [exact Hf|]. intros d (y & Hy & Hle). unfold pri. rewrite Hx, Hy. cbn. lia. }
  assert (Hf2 : Forall (fun d => pri k c < pri k d) l2).
  { destruct l2 as [|e l2]; [done|].
    destruct (chain_dom _ _ _ _ e H1) as [y Hy]; [set_solver|].
    specialize (Hn e y eq_refl Hy). assert (pri k c < pri k e) by (unfold pri; rewrite Hx, Hy; cbn; lia).
    constructor; [done|]. clear -H3 H. induction l1 as [|d l1 IH]; cbn in H3; apply StronglySorted_inv in H3 as [H3 Hs]; auto.
    eapply Forall_impl; [exact Hs|]. cbn. lia. }
  exists k', l1, l2. split_and!; auto.
  eapply q_inv_relinked_run; eauto; [|intros d ?; set_solver].
  apply sorted_insert; auto. intros d Hd2. rewrite Forall_forall in Hf2.
  assert (d ∈ l2) by (destruct l2; cbn in *; simplify_eq; set_solver). specialize (Hf2 _ H). lia.
Qed.

(** ** Changes that stay within the invariant *)

Lemma sched_inv_frame k k' rq sq :
  current_context k' = current_context k -> run_queue k' = run_queue k ->
  run_queue_len k' = run_queue_len k -> k_ctx k' = k_ctx k ->
  (forall q, queue_head q k' = queue_head q k) ->
  sched_inv k rq sq -> sched_inv k' rq sq.
Proof.
  intros Hc Hr Hl Hx Hq [H1 H2 H3 H4 H5]. split; rewrite ?Hc, ?Hr, ?Hl, ?Hx; auto.
  eapply q_inv_frame; eauto.
Qed.

Lemma pri_insert k c x d :
  pri (k <| k_ctx := <[c := x]> (k_ctx k) |>) d = if decide (c = d) then c_priority x else pri k d.
Proof. unfold pri. cbn. rewrite lookup_insert. by case_decide. Qed.

(** The current context may change anything but its links and its state, as
    long as it stays the most urgent one. *)
Lemma sched_inv_update_current k c tl sq x x' :
  sched_inv k (c :: tl) sq -> k_ctx k !! c = Some x ->
  c_run_queue x' = c_run_queue x -> c_sleep_queue x' = c_sleep_queue x -> c_state x' = c_state x ->
  Forall (fun d => c_priority x' <= pri k d) tl ->
  sched_inv (k <| k_ctx := <[c := x']> (k_ctx k) |>) (c :: tl) sq.
Proof.
  intros [[Q1 Q2 Q3 Q4 Q5] H2 H3 H4 H5] Hx Hr Hs Hst Hp.
  assert (Hl : forall w d, lnk (k <| k_ctx := <[c := x']> (k_ctx k) |>) w d = lnk k w d).
  { intros w d. rewrite lnk_insert. case_decide; [|done]. subst d. unfold lnk. rewrite Hx.
    destruct w; cbn; congruence. }
  pose proof (chain_NoDup _ _ _ Q1) as Hnd. apply NoDup_cons in Hnd as [Hnc _].
  split; [split| | | |]; auto.
  - eapply chain_frame; [|exact Q1]. auto.
  - intros q. eapply chain_frame; [|exact (Q2 q)]. auto.
  - apply StronglySorted_inv in Q3 as [Q3 _]. constructor.
    + eapply sorted_ext; [|exact Q3]. intros d Hd. rewrite pri_insert, decide_False; [done|]. set_solver.
    + rewrite Forall_forall in *. intros d Hd. rewrite !pri_insert, decide_True, decide_False; [auto|set_solver|done].
  - intros d y. cbn. rewrite lookup_insert. case_decide; [|auto]. subst d. intros [= <-] _.
    specialize (Q5 c x Hx ltac:(done)). unfold placed in *. by rewrite Hst.
  - intros d y. cbn. rewrite lookup_insert. case_decide; [|apply H3]. subst d. intros [= <-]. rewrite Hst. by apply H3.
  - intros d y. cbn. rewrite lookup_insert. intros Hd. case_decide; [|by apply H4]. subst d. intros [= <-].
    rewrite Hst. by apply (H4 c x).
Qed.

(** Switching to the head of the run queue. *)
Lemma startup_spec k c tl sq x :
  q_inv k (c :: tl) sq None -> k_ctx k !! c = Some x ->
  (forall d y, k_ctx k !! d = Some y -> c_state y <> CONTEXT_RUNNING) ->
  run_queue_len k = u8 (Z.of_nat (length (c :: tl))) ->
  exists k', startup k = Ok (tt, k') /\ sched_inv k' (c :: tl) sq
    /\ current_context k' = Some c /\ k_locks k' = k_locks k /\ isr_disabled k' = isr_disabled k
    /\ k_ctx k' = <[c := x <| c_ret := c_state x |> <| c_state := CONTEXT_RUNNING |>]> (k_ctx k)
    /\ (forall d, pri k' d = pri k d).
Proof.
  intros Hq Hx Hnr Hlen. pose proof Hq as [Q1 Q2 Q3 Q4 Q5]. unfold startup.
  run_with (eq_refl : get k = Ok (k, k)). rewrite <-(chain_head _ _ _ Q1). cbn [head].
  run_with (eq_refl : put (k <| current_context := Some c |>) k = Ok (tt, k <| current_context := Some c |>)).
  rewrite (mod_ctx_run _ _ x) by done. set (x' := setter _ (setter _ x)).
  assert (Hp : forall d, pri (k <| k_ctx := <[c := x']> (k_ctx k) |>) d = pri k d).
  { intros d. rewrite pri_insert. case_decide; [|done]. subst d. unfold pri. by rewrite Hx. }
  eexists. split; [reflexivity|]. split_and!; try done.
  assert (Hrun : runnable (c_state x)) by (apply (Q5 c x); set_solver).
  split; [| | | |done].
  - eapply q_inv_settle; [|by apply lookup_insert_eq|].
    + eapply (q_inv_frame (k <| k_ctx := <[c := x']> (k_ctx k) |>)); try done.
      eapply q_inv_update; eauto using q_inv_weaken.
    + pose proof (Q5 c x Hx ltac:(done)) as [E1 E2]. unfold placed. split.
      * rewrite E1. unfold runnable; cbn. tauto.
      * rewrite E2. cbn. split; [|done]. intros E. unfold runnable in Hrun. rewrite E in Hrun.
        by destruct Hrun as [?|[?|?]].
  - by exists c, tl.
  - intros d y. cbn. rewrite lookup_insert. case_decide; [congruence|]. intros Hy Hst. exfalso. by eapply Hnr.
  - intros d y. cbn. intros [= <-]. rewrite lookup_insert_eq. by intros [= <-].
Qed.

(** [isr_context_switch] from context [c], already off the CPU by its state. *)
Lemma isr_context_switch_spec k c0 x0 c tl sq x fs :
  q_inv k (c :: tl) sq None -> current_context k = Some c0 -> c0 <> c ->
  k_ctx k !! c0 = Some x0 -> k_ctx k !! c = Some x ->
  (forall d y, k_ctx k !! d = Some y -> c_state y <> CONTEXT_RUNNING) ->
  run_queue_len k = u8 (Z.of_nat (length (c :: tl))) ->
  exists k', isr_context_switch fs k = Ok (tt, k') /\ sched_inv k' (c :: tl) sq
    /\ current_context k' = Some c /\ k_locks k' = k_locks k /\ isr_disabled k' = isr_disabled k
    /\ k_ctx k' !! c = Some (x <| c_ret := c_state x |> <| c_state := CONTEXT_RUNNING |>)
    /\ k_ctx k' !! c0 = Some (x0 <| c_context_switches := u16 (c_context_switches x0 + 1) |>
                                 <| c_saved := fs ++ c_saved x0 |>)
    /\ (forall d, d <> c -> d <> c0 -> k_ctx k' !! d = k_ctx k !! d)
    /\ (forall d, pri k' d = pri k d).
Proof.
  intros Hq Hc0 Hne Hx0 Hx Hnr Hlen. unfold isr_context_switch.
  run_with (current_run c0 k Hc0).
  run_with (mod_ctx_run c0 (fun x => x <| c_context_switches := u16 (c_context_switches x + 1) |>
              <| c_saved := fs ++ c_saved x |>) x0 k Hx0).
  set (x0' := setter _ (setter _ x0)). set (k1 := setter _ k).
  destruct (startup_spec k1 c tl sq x) as (k' & -> & Hinv & Hcur & Hlk & Hi & Hctx & Hp).
  - unfold k1. by eapply q_inv_update; eauto.
  - unfold k1. cbn. by rewrite lookup_insert_ne.
  - intros d y. unfold k1. cbn. rewrite lookup_insert. case_decide; [|apply Hnr].
    intros [= <-]. by apply (Hnr c0 x0).
  - done.
  - exists k'. split_and!; try done; try (rewrite Hctx; unfold k1; cbn).
    + by rewrite lookup_insert_eq.
    + rewrite lookup_insert_ne by done. by rewrite lookup_insert_eq.
    + intros d ? ?. by rewrite !lookup_insert_ne by congruence.
    + intros d. rewrite Hp. unfold k1. rewrite pri_insert. case_decide; [|done]. subst d.
      unfold pri. by rewrite Hx0.
Qed.

Lemma sched_current_ctx k c tl sq :
  sched_inv k (c :: tl) sq -> current_context k = Some c /\ exists x, k_ctx k !! c = Some x.
Proof.
  intros [Hq (? & ? & [= <- <-] & Hc) _ _ _]. split; [done|].
  destruct (chain_dom _ _ _ _ c (qi_run _ _ _ _ Hq)) as [x Hx]; [set_solver|eauto].
Qed.

(** Taking a lock raises the current context's priority. *)
Lemma take_lock_inv k c tl sq l p why k' :
  sched_inv k (c :: tl) sq -> p <= pri k c -> take_lock l p why k = Ok (tt, k') ->
  sched_inv k' (c :: tl) sq.
Proof.
  intros Hinv Hp H. destruct (sched_current_ctx _ _ _ _ Hinv) as [Hc [x Hx]].
  unfold take_lock in H. apply bind_inv in H as (y & k1 & Hy & H).
  unfold lk in Hy. destruct (k_locks k !! l) as [y'|] eqn:Hl; [|done]. simplify_eq.
  rewrite (bind_run _ _ _ _ _ (current_run c k1 Hc)) in H.
  rewrite (bind_run _ _ _ _ _ (ctx_run c x k1 Hx)) in H.
  apply bind_inv in H as ([] & k2 & H2 & H). unfold set_lk in H2. simplify_eq.
  apply bind_inv in H as ([] & k3 & H3 & H). unfold set_ctx in H3. simplify_eq.
  apply bind_inv in H as ([] & k4 & H4 & H). unfold check in H4.
  destruct (negb (l_lock y)) eqn:E; [|done]. unfold mret, M_ret in H4. simplify_eq.
  cbn in H. unfold lk, set_lk, mbind, M_bind in H. cbn in H. rewrite lookup_insert_eq in H. simplify_eq.
  set (x' := setter _ (setter _ x)).
  eapply (sched_inv_frame (k1 <| k_ctx := <[c := x']> (k_ctx k1) |>)); try done.
  eapply sched_inv_update_current; eauto. cbn.
  destruct Hinv as [[_ _ Hs _ _] _ _ _ _]. apply StronglySorted_inv in Hs as [_ Hs].
  eapply Forall_impl; [exact Hs|]. cbn. lia.
Qed.

(** ** Giving up the CPU *)

(** The kernel while the current context [c] is being moved: it is still the
    only one in state RUNNING. *)
Record moving (k : kernel) (c : cid) (x : context) : Prop := {
  mv_current : current_context k = Some c;
  mv_ctx : k_ctx k !! c = Some x;
  mv_state : c_state x = CONTEXT_RUNNING;
  mv_only : forall d y, k_ctx k !! d = Some y -> c_state y = CONTEXT_RUNNING -> d = c }.

Lemma sched_moving k c tl sq :
  sched_inv k (c :: tl) sq -> exists x, moving k c x /\ c ∉ tl /\ (forall q, c ∉ sq q).
Proof.
  intros Hinv. destruct (sched_current_ctx _ _ _ _ Hinv) as [Hc [x Hx]].
  destruct Hinv as [[Q1 Q2 Q3 Q4 Q5] H2 H3 H4 H5]. exists x.
  pose proof (H4 c x Hc Hx) as Hst. split_and!.
  - split; auto. intros d y Hy Hr. specialize (H3 d y Hy Hr). congruence.
  - apply chain_NoDup, NoDup_cons in Q1. tauto.
  - intros q Hq. destruct (Q5 c x Hx ltac:(done)) as [_ E].
    assert (c_state x = CONTEXT_SLEEP_QUEUE) as Hsl by (apply E; eauto). by rewrite Hst in Hsl.
Qed.

Lemma moving_relinked w s k k' c x :
  relinked w s k k' -> moving k c x -> exists x', moving k' c x' /\ (core w x' = core w x).
Proof.
  intros Hr [M1 M2 M3 M4]. destruct (relinked_lookup _ _ _ _ _ _ Hr M2) as (x' & Hx' & Hcore).
  exists x'. split; [|done]. split; auto.
  - by rewrite (rl_current _ _ _ _ Hr).
  - apply core_view in Hcore as [_ ->]. done.
  - intros d y Hy Hst. destruct (relinked_placed _ _ _ _ _ _ Hr Hy) as (y0 & Hy0 & [_ E] & _).
    apply (M4 d y0 Hy0). congruence.
Qed.

(** [current_context->c_state = CONTEXT_READY; isr_context_switch();] *)
Lemma leave_cpu k c x h t sq fs :
  q_inv k (h :: t) sq (Some c) -> moving k c x -> c ∈ h :: t -> (forall q, c ∉ sq q) -> h <> c ->
  run_queue_len k = u8 (Z.of_nat (length (h :: t))) ->
  exists k', (mod_ctx c (fun p => p <| c_state := CONTEXT_READY |>);; isr_context_switch fs) k = Ok (tt, k')
    /\ sched_inv k' (h :: t) sq /\ current_context k' = Some h
    /\ k_locks k' = k_locks k /\ isr_disabled k' = isr_disabled k
    /\ (forall d, pri k' d = pri k d).
Proof.
  intros Hq [M1 M2 M3 M4] Hin Hsq Hne Hlen.
  run_with (mod_ctx_run c (fun p => p <| c_state := CONTEXT_READY |>) x k M2).
  set (x' := setter _ x). set (k1 := setter _ k).
  assert (Hx' : k_ctx k1 !! c = Some x') by (unfold k1; cbn; by rewrite lookup_insert_eq).
  destruct (chain_dom _ _ _ _ h (qi_run _ _ _ _ Hq)) as [y Hy]; [set_solver|].
  destruct (isr_context_switch_spec k1 c x' h t sq y fs) as (k' & -> & Hinv & Hcur & Hl & Hi & _ & _ & _ & Hp).
  - eapply q_inv_settle; [by eapply q_inv_update; eauto|exact Hx'|]. split; [|split].
    + split; [|done]. intros _. right; by left.
    + intros [q ?]. by destruct (Hsq q).
    + done.
  - done.
  - done.
  - done.
  - unfold k1. cbn. by rewrite lookup_insert_ne.
  - intros d z. unfold k1. cbn. rewrite lookup_insert. case_decide as E; [by intros [= <-]|].
    intros Hz Hst. apply E. symmetry. by eapply M4.
  - done.
  - exists k'. split_and!; auto. intros d. rewrite Hp. unfold k1. rewrite pri_insert.
    case_decide; [|done]. subst d. unfold pri. by rewrite M2.
Qed.

(** The head of the run queue is the current context, or it takes over. *)
Lemma switch_if_not_head_spec k c x rq sq fs :
  q_inv k rq sq (Some c) -> moving k c x -> c ∈ rq -> (forall q, c ∉ sq q) ->
  run_queue_len k = u8 (Z.of_nat (length rq)) ->
  exists b k', switch_if_not_head fs k = Ok (b, k') /\ sched_inv k' rq sq
    /\ k_locks k' = k_locks k /\ isr_disabled k' = isr_disabled k /\ (forall d, pri k' d = pri k d).
Proof.
  intros Hq Hm Hin Hsq Hlen. pose proof Hm as [M1 M2 M3 M4]. unfold switch_if_not_head.
  run_with (current_run c k M1). run_with (eq_refl : get k = Ok (k, k)).
  rewrite <-(chain_head _ _ _ (qi_run _ _ _ _ Hq)). destruct rq as [|h t]; [set_solver|]. cbn [head].
  case_decide as E.
  - exists false, k. injection E as <-. split_and!; try done. split; auto.
    + eapply q_inv_settle; eauto. split.
      * split; [intros _; by left|set_solver].
      * split; [intros [q ?]; by destruct (Hsq q)|by rewrite M3].
    + eauto.
    + intros d y Hy Hst. rewrite M1. f_equal. symmetry. eauto.
    + intros d y Hd Hy. rewrite M1 in Hd. by simplify_eq.
  - destruct (leave_cpu k c x h t sq fs) as (k' & Hk' & ? & ? & ? & ? & ?); auto; try congruence.
    exists true, k'. split; [|done].
    apply bind_inv in Hk' as ([] & k1 & Hm1 & Hm2). run_with Hm1. by run_with Hm2.
Qed.

Lemma unlink_current_run c x k :
  current_context k = Some c -> k_ctx k !! c = Some x ->
  unlink_current k = Ok (tt, k <| run_queue := c_run_queue x |>).
Proof. intros Hc Hx. unfold unlink_current. run_with (current_run c k Hc). by run_with (ctx_run c x k Hx). Qed.

Lemma isr_context_yield_inv k c tl sq fs :
  sched_inv k (c :: tl) sq -> isr_disabled k = true ->
  exists b k' l1 l2, isr_context_yield fs k = Ok (b, k') /\ tl = l1 ++ l2
    /\ sched_inv k' (l1 ++ c :: l2) sq /\ isr_disabled k' = true
    /\ Forall (fun d => pri k d <= pri k c) l1 /\ Forall (fun d => pri k c < pri k d) l2.
Proof.
  intros Hinv Hisr. destruct (sched_moving _ _ _ _ Hinv) as (x & Hm & Hc & Hsq).
  destruct (q_inv_unlink_head k c tl sq x) as [Hn Hq]; [apply q_inv_weaken, Hinv|apply Hm|].
  unfold isr_context_yield. run_with (unlink_current_run c x k (mv_current _ _ _ Hm) (mv_ctx _ _ _ Hm)).
  rewrite Hn. set (k1 := setter _ k) in *.
  assert (Hm1 : moving k1 c x) by (destruct Hm; by split).
  run_with (current_run c k1 (mv_current _ _ _ Hm1)).
  destruct (isr_context_ready_spec k1 tl sq c x Hq) as (k2 & l1 & l2 & H2 & -> & Hq2 & Hr & Hf1 & Hf2);
    [done|done|apply Hm1|]. run_with H2.
  destruct (moving_relinked _ _ _ _ _ _ Hr Hm1) as (x2 & Hm2 & _).
  destruct (switch_if_not_head_spec k2 c x2 (l1 ++ c :: l2) sq fs Hq2 Hm2) as (b & k3 & H3 & Hi3 & _ & Hisr3 & _); auto.
  - set_solver.
  - rewrite (rl_len _ _ _ _ Hr). cbn. rewrite (si_len _ _ _ Hinv). f_equal. rewrite !length_app. cbn.
    rewrite length_app. lia.
  - exists b, k3, l1, l2. split_and!; auto. by rewrite Hisr3, (rl_isr _ _ _ _ Hr).
Qed.

(** Inverting a run that returned: split off its first computation. *)
Lemma check_inv b why k r : check b why k = Ok r -> b = true /\ r = (tt, k).
Proof. destruct b; cbn; [|done]. by intros [= <-]. Qed.

Lemma lk_inv l k y k1 : lk l k = Ok (y, k1) -> k_locks k !! l = Some y /\ k1 = k.
Proof. unfold lk. destruct (k_locks k !! l); [|done]. by intros [= <- <-]. Qed.

Lemma ctx_inv c k y k1 : ctx c k = Ok (y, k1) -> k_ctx k !! c = Some y /\ k1 = k.
Proof. unfold ctx. destruct (k_ctx k !! c); [|done]. by intros [= <- <-]. Qed.

(** The relation [moving] after a change of the current context that keeps its
    state. *)
Lemma moving_update k c x x' :
  moving k c x -> c_state x' = c_state x -> moving (k <| k_ctx := <[c := x']> (k_ctx k) |>) c x'.
Proof.
  intros [M1 M2 M3 M4] Hst. split; auto; [by apply lookup_insert_eq|congruence|].
  intros d y. cbn. rewrite lookup_insert. case_decide; [by subst|eauto].
Qed.

Lemma moving_frame k k' c x :
  moving k c x -> k_ctx k' = k_ctx k -> current_context k' = current_context k -> moving k' c x.
Proof. intros [M1 M2 M3 M4] Hk Hc. split; rewrite ?Hk, ?Hc; auto. Qed.

Lemma sorted_head_le k c l d : StronglySorted (by_pri k) (c :: l) -> d ∈ l -> pri k c <= pri k d.
Proof. intros [_ H]%StronglySorted_inv Hd. rewrite Forall_forall in H. auto. Qed.

Lemma head_elem {A} (l : list A) d : head l = Some d -> d ∈ l.
Proof. destruct l; cbn; [done|]. intros [= ->]. set_solver. Qed.

(** The owner of a released lock goes back behind the more urgent contexts and
    in front of its equals, and the head of the run queue takes over. *)
Lemma preempt_spec k c x n t sq fs :
  q_inv k (n :: t) sq (Some c) -> moving k c x -> c ∉ n :: t -> (forall q, c ∉ sq q) ->
  pri k n < c_priority x -> run_queue_len k = u8 (Z.of_nat (length (c :: n :: t))) ->
  exists k' l1 l2,
    ('(q, qprev) ← queue_walk (fun _ z => c_priority z <? c_priority x) Run (Some n) S_run;
     mod_ctx c (set_next Run q);;
     write_slot qprev (Some c);;
     mod_ctx c (fun p => p <| c_state := CONTEXT_READY |>);;
     isr_context_switch fs;;
     mret true) k = Ok (true, k')
    /\ sched_inv k' (n :: l1 ++ c :: l2) sq /\ t = l1 ++ l2 /\ isr_disabled k' = isr_disabled k
    /\ (forall d, pri k' d = pri k d) /\ k_locks k' = k_locks k
    /\ Forall (fun d => pri k d < pri k c) l1
    /\ (forall d, head l2 = Some d -> pri k c <= pri k d).
Proof.
  intros Hq Hm Hc Hsq Hn Hlen. pose proof Hq as [H1 H2 H3 H4 H5]. pose proof Hm as [M1 M2 M3 M4].
  assert (Hp : pri k c = c_priority x) by (unfold pri; by rewrite M2).
  pose proof (chain_head _ _ _ H1) as Hh. cbn in Hh. rewrite <-Hh in H1.
  destruct (queue_walk_spec (fun _ z => c_priority z <? c_priority x) Run k (Some n) S_run (n :: t) H1)
    as (l1 & l2 & E & Hw & Hf & Hn2). run_with Hw.
  destruct l1 as [|n' l1].
  { cbn in E. subst l2. destruct (chain_dom _ _ _ _ n H1) as [y Hy]; [set_solver|].
    specialize (Hn2 n y eq_refl Hy). cbn in Hn2. unfold pri in Hn. rewrite Hy in Hn. cbn in Hn. lia. }
  cbn in E. injection E as <- ->.
  assert (Hf1 : Forall (fun d => pri k d < pri k c) (n :: l1)).
  { eapply Forall_impl; [exact Hf|]. intros d (z & Hz & Hlt). rewrite Hp. unfold pri. rewrite Hz. cbn. lia. }
  assert (Hf2 : forall d, head l2 = Some d -> pri k c <= pri k d).
  { intros d Hd. destruct (chain_dom _ _ _ _ d H1) as [z Hz]; [apply head_elem in Hd; set_solver|].
    specialize (Hn2 d z Hd Hz). cbn in Hn2. rewrite Hp. unfold pri. rewrite Hz. cbn. lia. }
  destruct (link_in Run S_run (n :: l1) l2 c x k) as (k1 & Hk1 & Hr & Hch & _); auto.
  { done. }
  { cbn [slot_read]. by rewrite <-Hh. }
  apply bind_inv in Hk1 as ([] & k0 & Hk0 & Hk1). run_with Hk0. run_with Hk1.
  assert (Hq1 : q_inv k1 (n :: l1 ++ c :: l2) sq (Some c)).
  { eapply q_inv_relinked_run; eauto; [|intros d ?; set_solver].
    apply (sorted_insert k (n :: l1) l2 c); [exact H3| |exact Hf2].
    eapply Forall_impl; [exact Hf1|]. cbn. lia. }
  destruct (moving_relinked _ _ _ _ _ _ Hr Hm) as (x1 & Hm1 & _).
  destruct (leave_cpu k1 c x1 n (l1 ++ c :: l2) sq fs) as (k2 & Hk2 & Hi2 & _ & Hlk & Hisr & Hp2); auto.
  { set_solver. }
  { set_solver. }
  { rewrite (rl_len _ _ _ _ Hr), Hlen. f_equal. cbn. rewrite !length_app. cbn. lia. }
  apply bind_inv in Hk2 as ([] & k3 & Hk3 & Hk2). run_with Hk3. run_with Hk2.
  exists k2, l1, l2. apply Forall_cons in Hf1 as [_ Hf1]. split_and!; auto.
  - by rewrite Hisr, (rl_isr _ _ _ _ Hr).
  - intros d. rewrite Hp2. by eapply relinked_pri.
  - by rewrite Hlk, (rl_locks _ _ _ _ Hr).
Qed.

(** Releasing a lock restores the owner's priority and gives the CPU to the most
    urgent ready context, the owner keeping its turn among its equals. *)
Lemma release_lock_spec k c tl sq l y w1 w2 fs :
  sched_inv k (c :: tl) sq -> k_locks k !! l = Some y -> l_lock y = true -> pri k c <= l_pri_unlocked y ->
  exists b k' l1 l2, release_lock l w1 w2 fs k = Ok (b, k') /\ sched_inv k' (l1 ++ c :: l2) sq
    /\ tl = l1 ++ l2 /\ isr_disabled k' = isr_disabled k
    /\ k_locks k' = <[l := y <| l_lock := false |>]> (k_locks k)
    /\ pri k' c = l_pri_unlocked y /\ (forall d, d <> c -> pri k' d = pri k d)
    /\ Forall (fun d => pri k d < l_pri_unlocked y) l1
    /\ (forall d, head l2 = Some d -> l_pri_unlocked y <= pri k d).
Proof.
  intros Hinv Hl Hheld Hle. destruct (sched_moving _ _ _ _ Hinv) as (x & Hm & Hc & Hsq).
  pose proof Hm as [M1 M2 M3 M4]. unfold release_lock. run_with (lk_run _ _ _ Hl). rewrite Hheld. cbn [check].
  set (k1 := k <| k_locks := <[l := y <| l_lock := false |>]> (k_locks k) |>).
  rewrite (bind_run _ _ _ _ k eq_refl), (bind_run _ _ _ _ k1 eq_refl), (bind_run _ _ _ _ _ (current_run c k1 M1)),
    (bind_run _ _ _ _ _ (ctx_run c x k1 M2)).
  assert (Hck : negb (l_pri_unlocked y <? c_priority x) = true).
  { unfold pri in Hle. rewrite M2 in Hle. cbn in Hle. apply negb_true_iff. lia. }
  rewrite Hck. cbn [check]. rewrite (bind_run _ _ _ _ k1 eq_refl). cbv zeta.
  assert (Hinv1 : sched_inv k1 (c :: tl) sq) by (eapply sched_inv_frame; [..|exact Hinv]; done).
  assert (Hm1 : moving k1 c x) by by eapply moving_frame.
  destruct (q_inv_unlink_head k1 c tl sq x (q_inv_weaken _ _ _ _ (si_q _ _ _ Hinv1)) M2) as [Hn Hq].
  set (x' := x <| c_priority := l_pri_unlocked y |>
               <| c_spinlocks_held := u8 (c_spinlocks_held x - 1) |>) in *.
  set (k2 := k1 <| k_ctx := <[c := x']> (k_ctx k1) |>).
  rewrite (bind_run _ _ _ _ k2 eq_refl). change (c_run_queue x') with (c_run_queue x). rewrite Hn.
  assert (Hp2 : pri k2 c = l_pri_unlocked y) by (unfold k2; by rewrite pri_insert, decide_True).
  assert (Hp2' : forall d, d <> c -> pri k2 d = pri k d)
    by (intros d ?; unfold k2; by rewrite pri_insert, decide_False).
  pose proof (sorted_tail _ _ _ (qi_sorted _ _ _ _ (si_q _ _ _ Hinv))) as Hs.
  assert (Hstay : (forall d, head tl = Some d -> l_pri_unlocked y <= pri k d) -> sched_inv k2 (c :: tl) sq).
  { intros Hh. eapply sched_inv_update_current; eauto. cbn. change (pri k1) with (pri k).
    destruct tl as [|n tl]; [done|]. specialize (Hh n eq_refl). apply Forall_forall.
    intros d [->|Hd]%elem_of_cons; [done|]. pose proof (sorted_head_le _ _ _ d Hs Hd). lia. }
  destruct tl as [|n tl]; [by exists false, k2, [], []; split_and!; try done; apply Hstay|].
  cbn [head] in *. assert (Hnc : n <> c) by set_solver.
  destruct (chain_dom _ _ _ _ n (qi_run _ _ _ _ (si_q _ _ _ Hinv))) as [z Hz]; [set_solver|].
  assert (Hz2 : k_ctx k2 !! n = Some z) by (unfold k2; cbn; by rewrite lookup_insert_ne).
  rewrite (bind_run _ _ _ _ _ (ctx_run n z k2 Hz2)).
  assert (Hpn : pri k n = c_priority z) by (unfold pri; by rewrite Hz).
  destruct (Z.ltb_spec (c_priority z) (l_pri_unlocked y)) as [Hlt|Hge].
  - set (k3 := k2 <| run_queue := Some n |>). rewrite (bind_run _ _ _ _ k3 eq_refl).
    destruct (preempt_spec k3 c x' n tl sq fs) as (k4 & l1 & l2 & Hk4 & Hi & -> & Hisr & Hp4 & Hl4 & Hf1 & Hf2); auto.
    + eapply (q_inv_frame ((k1 <| run_queue := Some n |>)
        <| k_ctx := <[c := x']> (k_ctx (k1 <| run_queue := Some n |>)) |>)); try done.
      eapply q_inv_update; eauto.
    + eapply moving_frame; [by apply (moving_update k1 c x x')|done|done].
    + change (pri k2 n < l_pri_unlocked y). rewrite Hp2' by done. lia.
    + exact (si_len _ _ _ Hinv).
    + change (c_priority x') with (l_pri_unlocked y) in Hk4. rewrite Hk4.
      change (pri k3) with (pri k2) in *. rewrite Hp2 in Hf1, Hf2.
      assert (Hout : forall d, d ∈ l1 ++ l2 -> d <> c) by (intros d Hd ->; set_solver).
      exists true, k4, (n :: l1), l2. split_and!; auto.
      * by rewrite Hp4.
      * intros d Hd. rewrite Hp4. auto.
      * constructor; [lia|]. rewrite Forall_forall in *. intros d Hd. rewrite <-Hp2' by (apply Hout; set_solver). auto.
      * intros d Hd. rewrite <-Hp2' by (apply Hout; apply head_elem in Hd; set_solver). auto.
  - exists false, k2, [], (n :: tl). split_and!; auto.
    + apply Hstay. intros d [= <-]. lia.
    + intros d [= <-]. lia.
Qed.

(** A run that returned met its checks. *)
Lemma release_lock_held k c tl sq l w1 w2 fs r :
  sched_inv k (c :: tl) sq -> release_lock l w1 w2 fs k = Ok r ->
  exists y, k_locks k !! l = Some y /\ l_lock y = true /\ pri k c <= l_pri_unlocked y.
Proof.
  intros Hinv H. destruct r as [b k']. destruct (sched_current_ctx _ _ _ _ Hinv) as [M1 [x M2]].
  unfold release_lock in H.
  apply bind_inv in H as (y & k1 & Hy & H). apply lk_inv in Hy as [Hl ->]. exists y.
  apply bind_inv in H as (u & k1 & Hck & H). apply check_inv in Hck as [Hheld [= -> ->]].
  set (k1 := k <| k_locks := <[l := y <| l_lock := false |>]> (k_locks k) |>).
  rewrite (bind_run _ _ _ _ k1 eq_refl), (bind_run _ _ _ _ _ (current_run c k1 M1)),
    (bind_run _ _ _ _ _ (ctx_run c x k1 M2)) in H.
  apply bind_inv in H as (u & k2 & Hck & H). apply check_inv in Hck as [Hle _].
  split_and!; auto. unfold pri. rewrite M2. cbn. lia.
Qed.

Lemma release_lock_inv k c tl sq l w1 w2 fs b k' :
  sched_inv k (c :: tl) sq -> release_lock l w1 w2 fs k = Ok (b, k') ->
  exists rq, sched_inv k' rq sq /\ rq ≡ₚ c :: tl /\ isr_disabled k' = isr_disabled k.
Proof.
  intros Hinv H. destruct (release_lock_held _ _ _ _ _ _ _ _ _ Hinv H) as (y & Hl & Hh & Hle).
  destruct (release_lock_spec k c tl sq l y w1 w2 fs Hinv Hl Hh Hle) as (b1 & k1 & l1 & l2 & Hk1 & Hi & -> & Hisr & _).
  rewrite Hk1 in H. injection H as <- <-. exists (l1 ++ c :: l2). split_and!; auto.
  by rewrite <-Permutation_middle.
Qed.

(** ** Waiting *)

(** [__isr_context_wait()] takes the current context off the run queue; it may
    already be on the sleep queue it waits on.  There is always a context left to
    run: the system keeps an idle context that never waits. *)
Lemma isr_context_wait_spec_ k c x tl sq l y st fs :
  q_inv k (c :: tl) sq (Some c) -> moving k c x -> c ∉ tl ->
  run_queue_len k = u8 (Z.of_nat (length (c :: tl))) ->
  ~ runnable st -> ((exists q, c ∈ sq q) <-> st = CONTEXT_SLEEP_QUEUE) ->
  k_locks k !! l = Some y -> l_lock y = true -> u8 (c_spinlocks_held x - 1) = 0 ->
  match tl with
  | [] => isr_context_wait_ l st fs k = Stop "run queue empty"
  | h :: _ => exists k', isr_context_wait_ l st fs k = Ok (tt, k') /\ sched_inv k' tl sq
    /\ isr_disabled k' = isr_disabled k /\ current_context k' = Some h
    /\ (exists x', k_ctx k' !! c = Some x' /\ c_state x' = st /\ c_saved x' = F_wait l :: fs ++ c_saved x)
    /\ (forall d, d <> c -> pri k' d = pri k d)
    /\ k_locks k' = <[l := y <| l_lock := false |>]> (k_locks k) /\ pri k' c = l_pri_unlocked y
  end.
Proof.
  intros Hq Hm Hc Hlen Hst Hsl Hl Hheld Hone. pose proof Hm as [M1 M2 M3 M4].
  set (run := isr_context_wait_ l st fs k).
  set (k1 := k <| k_locks := <[l := y <| l_lock := false |>]> (k_locks k) |>).
  set (x1 := x <| c_priority := l_pri_unlocked y |> <| c_spinlocks_held := u8 (c_spinlocks_held x - 1) |>).
  set (k2 := k1 <| k_ctx := <[c := x1]> (k_ctx k1) |>).
  assert (Hx1 : k_ctx k2 !! c = Some x1) by by apply lookup_insert_eq.
  destruct (q_inv_unlink_head k c tl sq x Hq M2) as [Hn Hq1].
  set (k3 := k2 <| run_queue := head tl |>).
  set (k4 := k3 <| run_queue_len := u8 (run_queue_len k3 + -1) |>).
  set (x2 := x1 <| c_state := st |>). set (k5 := k4 <| k_ctx := <[c := x2]> (k_ctx k4) |>).
  assert (Hx2 : k_ctx k5 !! c = Some x2) by by apply lookup_insert_eq.
  assert (Hrun : run = isr_context_switch (F_wait l :: fs) k5).
  { unfold run, isr_context_wait_. run_with (lk_run _ _ _ Hl). rewrite Hheld.
    rewrite (bind_run _ _ _ _ k eq_refl), (bind_run _ _ _ _ k1 eq_refl), (bind_run _ _ _ _ _ (current_run c k1 M1)),
      (bind_run _ _ _ _ _ (mod_ctx_run c _ x k1 M2)), (bind_run _ _ _ _ _ (ctx_run c x1 k2 Hx1)).
    change (c_spinlocks_held x1) with (u8 (c_spinlocks_held x - 1)). rewrite Hone.
    rewrite (bind_run _ _ _ _ k2 eq_refl), (bind_run _ _ _ _ _ (unlink_current_run c x1 k2 M1 Hx1)).
    change (c_run_queue x1) with (c_run_queue x). rewrite Hn.
    by rewrite (bind_run _ _ _ _ k4 eq_refl), (bind_run _ _ _ _ _ (mod_ctx_run c _ x1 k4 Hx1)). }
  rewrite Hrun.
  assert (Hq5 : q_inv k5 tl sq None).
  { eapply q_inv_settle; [|exact Hx2|split; [split; intros Hx; [by destruct Hc|by destruct Hst]|exact Hsl]].
    eapply q_inv_update; [|exact Hx1|done|done|by left|by right].
    eapply (q_inv_frame ((k <| run_queue := head tl |>)
        <| k_ctx := <[c := x1]> (k_ctx (k <| run_queue := head tl |>)) |>)); try done.
    eapply q_inv_update; eauto. }
  destruct tl as [|h t].
  { unfold isr_context_switch. by rewrite (bind_run _ _ _ _ _ (current_run c k5 M1)),
      (bind_run _ _ _ _ _ (mod_ctx_run c _ x2 k5 Hx2)). }
  destruct (chain_dom _ _ _ _ h (qi_run _ _ _ _ Hq5)) as [z Hz]; [set_solver|].
  assert (Hhc : c <> h) by set_solver.
  destruct (isr_context_switch_spec k5 c x2 h t sq z (F_wait l :: fs))
    as (k6 & Hk6 & Hi & Hcur & Hl6 & Hi6 & _ & Hc6 & _ & Hp6); auto.
  { intros d v. unfold k5. cbn. rewrite lookup_insert. case_decide as E.
    - intros [= <-] E'. apply Hst. left. done.
    - rewrite lookup_insert_ne by done. intros Hv Ev. apply E. symmetry. eauto. }
  { change (u8 (run_queue_len k + -1) = u8 (Z.of_nat (length (h :: t)))). rewrite Hlen.
    unfold u8. rewrite Zplus_mod_idemp_l. f_equal. cbn. lia. }
  exists k6. rewrite Hk6. split_and!; auto; [by eauto|..].
  - intros d Hd. rewrite Hp6. unfold pri, k5. cbn. by rewrite !lookup_insert_ne by done.
  - rewrite Hp6. unfold pri. by rewrite Hx2.
Qed.

(** A run that returned met its checks. *)
Lemma isr_context_wait_checked k c x l st fs r :
  current_context k = Some c -> k_ctx k !! c = Some x -> isr_context_wait_ l st fs k = Ok r ->
  exists y, k_locks k !! l = Some y /\ l_lock y = true /\ u8 (c_spinlocks_held x - 1) = 0.
Proof.
  intros M1 M2 H. destruct r as [u k']. unfold isr_context_wait_ in H.
  apply bind_inv in H as (y & k1 & Hy & H). apply lk_inv in Hy as [Hl ->]. exists y.
  apply bind_inv in H as (v & k1 & Hck & H). apply check_inv in Hck as [Hheld [= -> ->]].
  set (k1 := k <| k_locks := <[l := y <| l_lock := false |>]> (k_locks k) |>).
  rewrite (bind_run _ _ _ _ k1 eq_refl), (bind_run _ _ _ _ _ (current_run c k1 M1)),
    (bind_run _ _ _ _ _ (mod_ctx_run c _ x k1 M2)) in H.
  set (x1 := setter _ (setter _ x)) in H. set (k2 := k1 <| k_ctx := <[c := x1]> (k_ctx k1) |>) in H.
  assert (Hx1 : k_ctx k2 !! c = Some x1) by by apply lookup_insert_eq.
  rewrite (bind_run _ _ _ _ _ (ctx_run c x1 k2 Hx1)) in H.
  apply bind_inv in H as (v & k3 & Hck & H). apply check_inv in Hck as [Hz _].
  split_and!; auto. by apply Z.eqb_eq in Hz.
Qed.

Lemma isr_context_wait_inv_ k c x tl sq l st fs k' :
  q_inv k (c :: tl) sq (Some c) -> moving k c x -> c ∉ tl ->
  run_queue_len k = u8 (Z.of_nat (length (c :: tl))) ->
  ~ runnable st -> ((exists q, c ∈ sq q) <-> st = CONTEXT_SLEEP_QUEUE) ->
  isr_context_wait_ l st fs k = Ok (tt, k') -> sched_inv k' tl sq.
Proof.
  intros Hq Hm Hc Hlen Hst Hsl H.
  destruct (isr_context_wait_checked _ _ _ _ _ _ _ (mv_current _ _ _ Hm) (mv_ctx _ _ _ Hm) H) as (y & Hl & Hh & Hone).
  pose proof (isr_context_wait_spec_ k c x tl sq l y st fs Hq Hm Hc Hlen Hst Hsl Hl Hh Hone) as Hs.
  destruct tl as [|h t]; [by rewrite Hs in H|]. destruct Hs as (k1 & Hk1 & Hi & _).
  rewrite Hk1 in H. by injection H as <-.
Qed.

Lemma runnable_sleep : ~ runnable CONTEXT_SLEEP.
Proof. by intros [?|[?|?]]. Qed.
Lemma runnable_sleep_queue : ~ runnable CONTEXT_SLEEP_QUEUE.
Proof. by intros [?|[?|?]]. Qed.
#[local] Hint Resolve runnable_sleep runnable_sleep_queue : core.

Lemma context_wait_inv k c tl sq l fs k' :
  sched_inv k (c :: tl) sq -> context_wait l fs k = Ok (tt, k') -> sched_inv k' tl sq.
Proof.
  intros Hinv H. destruct (sched_moving _ _ _ _ Hinv) as (x & Hm & Hc & Hsq).
  unfold context_wait in H. set (k1 := k <| isr_disabled := true |>).
  rewrite (bind_run _ _ _ _ k1 eq_refl) in H.
  eapply isr_context_wait_inv_; [| | | | | |exact H]; auto.
  - apply q_inv_weaken. eapply q_inv_frame; [..|exact (si_q _ _ _ Hinv)]; done.
  - by eapply moving_frame.
  - done.
  - exact (si_len _ _ _ Hinv).
  - split; [intros [q ?]; by destruct (Hsq q)|done].
Qed.

(** Putting the current context on sleep queue [q] behind [l1]. *)
Lemma enqueue_current k c x tl sq q l1 l2 :
  sched_inv k (c :: tl) sq -> moving k c x -> (forall q, c ∉ sq q) -> sq q = l1 ++ l2 ->
  exists k' x', (mod_ctx c (set_next Sleep (head l2));; write_slot (slot_after (S_queue q) Sleep l1) (Some c)) k
    = Ok (tt, k') /\ relinked Sleep (S_queue q) k k'
    /\ q_inv k' (c :: tl) (sq_set sq q (l1 ++ c :: l2)) (Some c) /\ moving k' c x'
    /\ c_saved x' = c_saved x.
Proof.
  intros Hinv Hm Hsq E. pose proof (qi_sleep _ _ _ _ (si_q _ _ _ Hinv) q) as Hch. rewrite E in Hch.
  destruct (link_in Sleep (S_queue q) l1 l2 c x k) as (k1 & Hk1 & Hr & Hch1 & Hlk); auto.
  { done. } { specialize (Hsq q). by rewrite E in Hsq. } { apply Hm. }
  destruct (moving_relinked _ _ _ _ _ _ Hr Hm) as (x1 & Hm1 & Hcore).
  exists k1, x1. split_and!; auto; [|by injection Hcore].
  eapply q_inv_relinked_sleep; [apply q_inv_weaken, Hinv|exact Hr|apply Hm|exact Hch1|..]; auto.
  - intros d ?. rewrite E. set_solver.
  - intros d ? Hd. apply Hlk; [done|]. rewrite E in Hd. set_solver.
Qed.

Lemma wait_enqueued k k1 k' c x1 tl sq q l1 l2 l fs :
  sched_inv k (c :: tl) sq -> c ∉ tl -> relinked Sleep (S_queue q) k k1 ->
  q_inv k1 (c :: tl) (sq_set sq q (l1 ++ c :: l2)) (Some c) -> moving k1 c x1 ->
  isr_context_wait_ l CONTEXT_SLEEP_QUEUE fs k1 = Ok (tt, k') ->
  sched_inv k' tl (sq_set sq q (l1 ++ c :: l2)).
Proof.
  intros Hinv Hc Hr Hq Hm H. eapply isr_context_wait_inv_; [exact Hq|exact Hm|done|..|exact H]; auto.
  - rewrite (rl_len _ _ _ _ Hr). exact (si_len _ _ _ Hinv).
  - split; [done|]. intros _. exists q. rewrite sq_set_eq. set_solver.
Qed.

Lemma context_wait_queue_inv k c tl sq l q fs k' :
  sched_inv k (c :: tl) sq -> context_wait_queue l q fs k = Ok (tt, k') ->
  sched_inv k' tl (sq_set sq q (c :: sq q)).
Proof.
  intros Hinv H. set (k1 := k <| isr_disabled := true |>).
  assert (Hinv1 : sched_inv k1 (c :: tl) sq) by (eapply sched_inv_frame; [..|exact Hinv]; done).
  destruct (sched_moving _ _ _ _ Hinv1) as (x & Hm & Hc & Hsq). unfold context_wait_queue in H.
  rewrite (bind_run _ _ _ _ k1 eq_refl), (bind_run _ _ _ _ _ (current_run c k1 (mv_current _ _ _ Hm))),
    (bind_run _ _ _ k1 k1 eq_refl) in H.
  rewrite <-(chain_head _ _ _ (qi_sleep _ _ _ _ (si_q _ _ _ Hinv1) q)) in H.
  destruct (enqueue_current k1 c x tl sq q [] (sq q)) as (k2 & x2 & Hk2 & Hr & Hq2 & Hm2 & _); auto.
  apply bind_inv in Hk2 as ([] & k3 & Hk3 & Hk2).
  rewrite (bind_run _ _ _ _ _ Hk3), (bind_run _ _ _ _ _ Hk2) in H.
  eapply (wait_enqueued k1 k2 k' c x2 tl sq q []); eauto.
Qed.

Lemma context_wait_pri_queue_inv k c tl sq l q fs k' :
  sched_inv k (c :: tl) sq -> context_wait_pri_queue l q fs k = Ok (tt, k') ->
  exists l1 l2 y, sq q = l1 ++ l2 /\ sched_inv k' tl (sq_set sq q (l1 ++ c :: l2))
    /\ k_locks k !! l = Some y
    /\ Forall (fun d => pri k d <= l_pri_unlocked y) l1
    /\ (forall d, head l2 = Some d -> l_pri_unlocked y < pri k d).
Proof.
  intros Hinv H. set (k1 := k <| isr_disabled := true |>).
  assert (Hinv1 : sched_inv k1 (c :: tl) sq) by (eapply sched_inv_frame; [..|exact Hinv]; done).
  destruct (sched_moving _ _ _ _ Hinv1) as (x & Hm & Hc & Hsq). unfold context_wait_pri_queue in H.
  rewrite (bind_run _ _ _ _ k1 eq_refl) in H.
  apply bind_inv in H as (y & k0 & Hy & H). apply lk_inv in Hy as [Hl ->]. cbv zeta in H.
  rewrite (bind_run _ _ _ k1 k1 eq_refl) in H.
  pose proof (qi_sleep _ _ _ _ (si_q _ _ _ Hinv1) q) as Hch.
  destruct (queue_walk_spec (fun _ z => c_priority z <=? l_pri_unlocked y) Sleep k1 _ (S_queue q) _ Hch)
    as (l1 & l2 & E & Hw & Hf & Hn).
  rewrite (bind_run _ _ _ _ _ Hw), (bind_run _ _ _ _ _ (current_run c k1 (mv_current _ _ _ Hm))) in H.
  destruct (enqueue_current k1 c x tl sq q l1 l2) as (k2 & x2 & Hk2 & Hr & Hq2 & Hm2 & _); auto.
  apply bind_inv in Hk2 as ([] & k3 & Hk3 & Hk2).
  rewrite (bind_run _ _ _ _ _ Hk3), (bind_run _ _ _ _ _ Hk2) in H.
  exists l1, l2, y. split_and!; auto.
  - eapply (wait_enqueued k1 k2 k' c x2 tl sq q); eauto.
  - eapply Forall_impl; [exact Hf|]. intros d (z & Hz & Hle). unfold pri. change (k_ctx k) with (k_ctx k1).
    rewrite Hz. cbn. lia.
  - intros d Hd. destruct (chain_dom _ _ _ _ d Hch) as [z Hz]; [apply head_elem in Hd; rewrite E; set_solver|].
    specialize (Hn d z Hd Hz). cbn in Hn. unfold pri. change (k_ctx k) with (k_ctx k1). rewrite Hz. cbn. lia.
Qed.

(** The common tail of the two queueing waits, for a caller that holds exactly
    the lock it waits with. *)
Lemma enqueue_and_wait k c x tl sq q l1 l2 l y fs :
  sched_inv k (c :: tl) sq -> k_ctx k !! c = Some x -> sq q = l1 ++ l2 ->
  k_locks k !! l = Some y -> l_lock y = true -> c_spinlocks_held x = 1 ->
  let run := (mod_ctx c (set_next Sleep (head l2));;
              write_slot (slot_after (S_queue q) Sleep l1) (Some c);;
              isr_context_wait_ l CONTEXT_SLEEP_QUEUE fs) k in
  match tl with
  | [] => run = Stop "run queue empty"
  | h :: _ => exists k', run = Ok (tt, k') /\ sched_inv k' tl (sq_set sq q (l1 ++ c :: l2))
    /\ isr_disabled k' = isr_disabled k /\ current_context k' = Some h
    /\ (exists x', k_ctx k' !! c = Some x' /\ c_state x' = CONTEXT_SLEEP_QUEUE
          /\ c_saved x' = F_wait l :: fs ++ c_saved x)
    /\ (forall d, d <> c -> pri k' d = pri k d)
    /\ k_locks k' = <[l := y <| l_lock := false |>]> (k_locks k) /\ pri k' c = l_pri_unlocked y
  end.
Proof.
  intros Hinv Hx E Hl Hheld Hone run. destruct (sched_moving _ _ _ _ Hinv) as (x1 & Hm & Hc & Hsq).
  assert (x1 = x) as -> by (pose proof (mv_ctx _ _ _ Hm); congruence).
  destruct (enqueue_current k c x tl sq q l1 l2 Hinv Hm Hsq E) as (k2 & x2 & Hk2 & Hr & Hq2 & Hm2 & Hsv).
  assert (Hrun : run = isr_context_wait_ l CONTEXT_SLEEP_QUEUE fs k2).
  { apply bind_inv in Hk2 as ([] & k3 & Hk3 & Hk2). unfold run. run_with Hk3. by run_with Hk2. }
  assert (Hcore : core Sleep x2 = core Sleep x).
  { destruct (relinked_lookup _ _ _ _ _ _ Hr Hx) as (x3 & Hx3 & Ec).
    rewrite (mv_ctx _ _ _ Hm2) in Hx3. by injection Hx3 as ->. }
  pose proof (isr_context_wait_spec_ k2 c x2 tl (sq_set sq q (l1 ++ c :: l2)) l y CONTEXT_SLEEP_QUEUE fs) as Hs.
  assert (Hlen : run_queue_len k2 = u8 (Z.of_nat (length (c :: tl)))) by (rewrite (rl_len _ _ _ _ Hr); exact (si_len _ _ _ Hinv)).
  assert (Hlk2 : k_locks k2 !! l = Some y) by by rewrite (rl_locks _ _ _ _ Hr).
  assert (Hone2 : u8 (c_spinlocks_held x2 - 1) = 0).
  { replace (c_spinlocks_held x2) with (c_spinlocks_held x) by (injection Hcore; congruence). by rewrite Hone. }
  assert (Hsl : (exists q0, c ∈ sq_set sq q (l1 ++ c :: l2) q0) <-> CONTEXT_SLEEP_QUEUE = CONTEXT_SLEEP_QUEUE).
  { split; [done|]. intros _. exists q. rewrite sq_set_eq. set_solver. }
  specialize (Hs Hq2 Hm2 Hc Hlen runnable_sleep_queue Hsl Hlk2 Hheld Hone2). rewrite Hrun.
  destruct tl as [|h t]; [done|].
  destruct Hs as (k3 & Hk3 & Hi3 & Hisr & Hcur & (x3 & Hx3 & Hst & Hsv3) & Hp & Hl3 & Hp3).
  exists k3. split_and!; auto.
  - by rewrite Hisr, (rl_isr _ _ _ _ Hr).
  - exists x3. split_and!; auto. by rewrite Hsv3, Hsv.
  - intros d Hd. rewrite Hp by done. by eapply relinked_pri.
  - by rewrite Hl3, (rl_locks _ _ _ _ Hr).
Qed.

(** ** Computations that do not look at the sleep-queue heads *)

Definition blind {A} (P : A -> Prop) (m : M A) : Prop := forall k a k', m k = Ok (a, k') ->
  P a /\ k_queues k' = k_queues k
  /\ forall Q, m (k <| k_queues := Q |>) = Ok (a, k' <| k_queues := Q |>).

Lemma blind_bind {A B} P R (m : M A) (f : A -> M B) :
  blind P m -> (forall a, P a -> blind R (f a)) -> blind R (m ≫= f).
Proof.
  intros Hm Hf k b k' (a & k1 & H1 & H2)%bind_inv.
  destruct (Hm _ _ _ H1) as (Ha & E1 & R1), (Hf a Ha _ _ _ H2) as (Hb & E2 & R2).
  split_and!; [done|congruence|]. intros Q. by rewrite (bind_run _ _ _ _ _ (R1 Q)).
Qed.

Lemma blind_get {B} R (f : kernel -> M B) :
  (forall k0, blind R (f k0)) -> (forall k0 Q, f (k0 <| k_queues := Q |>) = f k0) -> blind R (get ≫= f).
Proof.
  intros Hf Hq k b k' H. change (f k k = Ok (b, k')) in H.
  destruct (Hf _ _ _ _ H) as (Hb & E & HQ). split_and!; auto. intros Q.
  change (f (k <| k_queues := Q |>) (k <| k_queues := Q |>) = Ok (b, k' <| k_queues := Q |>)). by rewrite Hq.
Qed.

Lemma blind_ctx c : blind (fun _ => True) (ctx c).
Proof.
  intros k a k' [Hx ->]%ctx_inv. split_and!; auto. intros Q. by apply ctx_run.
Qed.

Lemma blind_mod_ctx c f : blind (fun _ => True) (mod_ctx c f).
Proof.
  eapply blind_bind; [apply blind_ctx|]. intros x _ k [] k' [= <-]. done.
Qed.

Lemma blind_walk fuel cond c s :
  (forall q, s <> S_queue q) -> blind (fun r => forall q, r.2 <> S_queue q) (walk fuel cond Run c s).
Proof.
  revert c s; induction fuel as [|fuel IH]; intros c s Hs; [by intros k a k'|].
  destruct c as [c|]; cbn [walk]; [|by intros k a k' [= <- <-]].
  eapply blind_bind; [apply blind_ctx|]. intros x _. destruct (cond c x); [by apply IH|].
  by intros k a k' [= <- <-].
Qed.

Lemma blind_ready c : blind (fun _ => True) (isr_context_ready c).
Proof.
  unfold isr_context_ready. apply (blind_bind (fun _ => True)).
  { intros k a k' H. unfold debug_assert_isr in *. destruct (Bool.eqb true (isr_disabled k)) eqn:E; [|done].
    injection H as <- <-. split_and!; [done..|]. intros Q. change (isr_disabled (k <| k_queues := Q |>)) with (isr_disabled k). by rewrite E. }
  intros _ _. apply blind_get; [|done]. intros k0. eapply blind_bind; [apply blind_ctx|].
  intros p _. eapply (blind_bind (fun r => forall q, r.2 <> S_queue q)).
  { intros k a k' H. apply (blind_walk (walk_fuel k)) in H; [exact H|done]. }
  intros [q s] Hs. eapply blind_bind; [apply blind_mod_ctx|]. intros _ _.
  destruct s as [|q'|w d]; [by intros k [] k' [= <-]|by destruct (Hs q')|apply blind_mod_ctx].
Qed.

(** ** Waking *)

(** Every context is left its stack and its count of locks. *)
Definition same_stacks (k k' : kernel) : Prop := forall d x, k_ctx k !! d = Some x ->
  exists x', k_ctx k' !! d = Some x' /\ c_spinlocks_held x' = c_spinlocks_held x /\ c_saved x' = c_saved x.

Lemma same_stacks_refl k : same_stacks k k.
Proof. intros d x Hx. by exists x. Qed.

Lemma same_stacks_trans k1 k2 k3 : same_stacks k1 k2 -> same_stacks k2 k3 -> same_stacks k1 k3.
Proof.
  intros H1 H2 d x Hx. destruct (H1 d x Hx) as (y & Hy & E1 & E2), (H2 d y Hy) as (z & Hz & E3 & E4).
  exists z. split_and!; congruence.
Qed.

Lemma relinked_stacks w s k k' : relinked w s k k' -> same_stacks k k'.
Proof.
  intros Hr d x Hx. destruct (relinked_lookup _ _ _ _ _ _ Hr Hx) as (x' & Hx' & E). exists x'.
  split; [done|]. destruct w; injection E; auto.
Qed.

(** A sleeping context [c], on no queue, becomes ready behind its equals; the
    running context [h] is at least as urgent and stays where it is. *)
Lemma make_ready_spec k h y t sq c x st :
  q_inv k (h :: t) sq (Some c) -> moving k h y -> c ∉ h :: t -> (forall q, c ∉ sq q) ->
  k_ctx k !! c = Some x -> isr_disabled k = true ->
  run_queue_len k = u8 (Z.of_nat (length (h :: t))) ->
  st = CONTEXT_READY \/ st = CONTEXT_INTERRUPTED -> pri k h <= pri k c ->
  exists k' x' l1 l2, make_ready c st k = Ok (tt, k') /\ t = l1 ++ l2
    /\ sched_inv k' (h :: l1 ++ c :: l2) sq /\ isr_disabled k' = true
    /\ k_ctx k' !! c = Some x' /\ c_state x' = st /\ c_sleep_queue x' = c_sleep_queue x
    /\ c_saved x' = c_saved x /\ k_locks k' = k_locks k
    /\ (forall d, pri k' d = pri k d) /\ k_queues k' = k_queues k /\ same_stacks k k'
    /\ Forall (fun d => pri k d <= pri k c) l1 /\ Forall (fun d => pri k c < pri k d) l2.
Proof.
  intros Hq Hm Hc Hsq Hx Hisr Hlen Hst Hp. unfold make_ready.
  run_with (mod_ctx_run c (fun x => x <| c_state := st |>) x k Hx).
  set (x1 := setter _ x). set (k1 := setter _ k).
  run_with (eq_refl : add_run_queue_len 1 k1 = Ok (tt, k1 <| run_queue_len := u8 (run_queue_len k1 + 1) |>)).
  set (k2 := setter _ k1).
  assert (Hx1 : k_ctx k2 !! c = Some x1) by by apply lookup_insert_eq.
  assert (Hpri : forall d, pri k2 d = pri k d).
  { intros d. change (pri k2 d) with (pri k1 d). unfold k1. rewrite pri_insert. case_decide; [|done].
    subst d. unfold pri. by rewrite Hx. }
  assert (Hhc : c <> h) by set_solver.
  assert (Hm2 : moving k2 h y).
  { destruct Hm as [M1 M2 M3 M4]. split; auto.
    - cbn. by rewrite lookup_insert_ne.
    - intros d z. cbn. rewrite lookup_insert. case_decide; [|eauto].
      intros [= <-] E. cbn in E. destruct Hst; subst st; done. }
  assert (Hq2 : q_inv k2 (h :: t) sq (Some c)).
  { eapply (q_inv_frame k1); [done..|]. eapply q_inv_update; eauto. }
  destruct (isr_context_ready_spec k2 (h :: t) sq c x1 Hq2) as (k3 & l1 & l2 & Hk3 & E & Hq3 & Hr & Hf1 & Hf2); auto.
  rewrite Hk3. rewrite Hpri in Hf1, Hf2.
  destruct l1 as [|h' l1].
  { cbn in E. subst l2. apply Forall_cons in Hf2 as [Hh _]. rewrite Hpri in Hh. lia. }
  cbn in E. injection E as <- ->. destruct (moving_relinked _ _ _ _ _ _ Hr Hm2) as (y3 & Hm3 & _).
  destruct (relinked_lookup _ _ _ _ _ _ Hr Hx1) as (x3 & Hx3 & Hcore).
  apply Forall_cons in Hf1 as [_ Hf1].
  exists k3, x3, l1, l2. split_and!; auto.
  - split; [|by eauto using mv_current|..].
    + eapply q_inv_settle; [exact Hq3|exact Hx3|]. apply core_view in Hcore as [_ Hs].
      cbn in Hs. split.
      * split; [|set_solver]. intros _. rewrite Hs. right. destruct Hst; auto.
      * split; [intros [q ?]; by destruct (Hsq q)|]. rewrite Hs. destruct Hst; by subst st.
    + intros d z Hz Hs. rewrite (mv_current _ _ _ Hm3). f_equal. symmetry. by eapply (mv_only _ _ _ Hm3).
    + intros d z Hd Hz. rewrite (mv_current _ _ _ Hm3) in Hd. simplify_eq.
      rewrite (mv_ctx _ _ _ Hm3) in Hz. simplify_eq. apply Hm3.
    + rewrite (rl_len _ _ _ _ Hr). change (u8 (run_queue_len k + 1) = u8 (Z.of_nat (length (h :: l1 ++ c :: l2)))).
      rewrite Hlen. unfold u8. rewrite Zplus_mod_idemp_l. f_equal. cbn. rewrite !length_app. cbn. lia.
  - by rewrite (rl_isr _ _ _ _ Hr).
  - apply core_view in Hcore as [_ Hs]. done.
  - by injection Hcore.
  - by injection Hcore.
  - by rewrite (rl_locks _ _ _ _ Hr).
  - intros d. rewrite (relinked_pri _ _ _ _ _ Hr). apply Hpri.
  - by destruct (blind_ready _ _ _ _ Hk3) as (_ & -> & _).
  - eapply same_stacks_trans; [|by eapply relinked_stacks]. intros d z Hz. unfold k2, k1. cbn.
    rewrite lookup_insert. case_decide; [subst d|by exists z]. simplify_eq. by exists x1.
  - eapply Forall_impl; [exact Hf1|]. cbn. intros d. by rewrite Hpri.
  - eapply Forall_impl; [exact Hf2|]. cbn. intros d. by rewrite Hpri.
Qed.

(** What waking [c] does to the run queue. *)
Definition woken (k k' : kernel) (c : cid) (rq : list cid) (sq : qid -> list cid) (st : Z) : Prop :=
  exists h l1 l2 x, rq = h :: l1 ++ l2 /\ sched_inv k' (h :: l1 ++ c :: l2) sq
    /\ k_ctx k' !! c = Some x /\ c_state x = st /\ (forall d, pri k' d = pri k d)
    /\ Forall (fun d => pri k d <= pri k c) l1 /\ Forall (fun d => pri k c < pri k d) l2
    /\ k_locks k' = k_locks k /\ same_stacks k k'.

Lemma make_ready_woken k h t sq c st k1 s sq' :
  sched_inv k (h :: t) sq -> relinked Sleep s k k1 -> q_inv k1 (h :: t) sq' (Some c) ->
  c ∉ h :: t -> (forall q, c ∉ sq' q) -> is_Some (k_ctx k !! c) ->
  isr_disabled k1 = true -> pri k h <= pri k c ->
  st = CONTEXT_READY \/ st = CONTEXT_INTERRUPTED ->
  exists k', make_ready c st k1 = Ok (tt, k') /\ woken k k' c (h :: t) sq' st /\ isr_disabled k' = true.
Proof.
  intros Hinv Hr Hq Hc Hsq [x Hx] Hisr Hp Hst.
  destruct (sched_moving _ _ _ _ Hinv) as (y & Hm & _ & _).
  destruct (moving_relinked _ _ _ _ _ _ Hr Hm) as (y1 & Hm1 & _).
  destruct (relinked_lookup _ _ _ _ _ _ Hr Hx) as (x1 & Hx1 & _).
  assert (Hpri : forall d, pri k1 d = pri k d) by (intros d; by eapply relinked_pri).
  destruct (make_ready_spec k1 h y1 t sq' c x1 st) as
    (k' & x' & l1 & l2 & Hk' & -> & Hi & Hisr' & Hx' & Hs & _ & _ & Hlk & Hp' & _ & Hss & Hf1 & Hf2); auto.
  - rewrite (rl_len _ _ _ _ Hr). exact (si_len _ _ _ Hinv).
  - by rewrite !Hpri.
  - exists k'. split_and!; auto. exists h, l1, l2, x'. split_and!; auto.
    + intros d. by rewrite Hp'.
    + eapply Forall_impl; [exact Hf1|]. cbn. intros d. by rewrite !Hpri.
    + eapply Forall_impl; [exact Hf2|]. cbn. intros d. by rewrite !Hpri.
    + by rewrite Hlk, (rl_locks _ _ _ _ Hr).
    + eapply same_stacks_trans; [by eapply relinked_stacks|done].
Qed.

(** A context in a sleeping state is on no run queue, and on no sleep queue
    unless its state says so. *)
Lemma sleeping_out k rq sq c x :
  sched_inv k rq sq -> k_ctx k !! c = Some x -> ~ runnable (c_state x) ->
  c ∉ rq /\ (c_state x <> CONTEXT_SLEEP_QUEUE -> forall q, c ∉ sq q).
Proof.
  intros Hinv Hx Hst. destruct (qi_placed _ _ _ _ (si_q _ _ _ Hinv) c x Hx ltac:(done)) as [E1 E2].
  split; [tauto|]. intros Hs q Hq. apply Hs, E2. eauto.
Qed.

Lemma relinked_refl w s k : relinked w s k k.
Proof. by split. Qed.

Lemma make_ready_sleeper k h t sq c x st :
  sched_inv k (h :: t) sq -> k_ctx k !! c = Some x -> c_state x = CONTEXT_SLEEP ->
  isr_disabled k = true -> pri k h <= pri k c -> st = CONTEXT_READY \/ st = CONTEXT_INTERRUPTED ->
  exists k', make_ready c st k = Ok (tt, k') /\ woken k k' c (h :: t) sq st /\ isr_disabled k' = true.
Proof.
  intros Hinv Hx Hs Hisr Hp Hst.
  destruct (sleeping_out _ _ _ _ _ Hinv Hx) as [Hc Hsq]; [by rewrite Hs|].
  eapply make_ready_woken; eauto.
  - exact (relinked_refl Sleep S_run k).
  - apply q_inv_weaken, Hinv.
  - apply Hsq. by rewrite Hs.
Qed.

(** Taking [c] out of sleep queue [q]. *)
Lemma dequeue k rq sq q l1 c l2 x :
  sched_inv k rq sq -> sq q = l1 ++ c :: l2 -> k_ctx k !! c = Some x ->
  c_sleep_queue x = head l2 /\
  exists k', write_slot (slot_after (S_queue q) Sleep l1) (head l2) k = Ok (tt, k')
    /\ relinked Sleep (S_queue q) k k' /\ q_inv k' rq (sq_set sq q (l1 ++ l2)) (Some c)
    /\ c ∉ rq /\ (forall q', c ∉ sq_set sq q (l1 ++ l2) q').
Proof.
  intros Hinv E Hx. pose proof (si_q _ _ _ Hinv) as Hq. pose proof Hq as [Q1 Q2 Q3 Q4 Q5].
  pose proof (Q2 q) as Hch. rewrite E in Hch. split; [by eapply (chain_next _ Sleep)|].
  destruct (link_out Sleep (S_queue q) l1 c l2 k) as (k' & Hk' & Hr & Hch' & Hlk); auto; [done|].
  pose proof (chain_NoDup _ _ _ Hch) as Hnd. apply NoDup_app in Hnd as (_ & Hd1 & Hnd).
  apply NoDup_cons in Hnd as [Hd2 _].
  assert (Hcl : c ∉ l1 ++ l2).
  { intros [Hc|Hc]%elem_of_app; [|done]. apply (Hd1 c Hc). set_solver. }
  assert (Hoth : forall q', q' <> q -> c ∉ sq q').
  { intros q' Hne Hc. apply Hne. eapply Q4; [exact Hc|]. rewrite E. set_solver. }
  exists k'. split_and!; auto.
  - eapply q_inv_relinked_sleep; [by apply q_inv_weaken|exact Hr|exact Hx|exact Hch'|..]; auto.
    + intros d ?. rewrite E. set_solver.
    + intros d _ Hd. apply Hlk. rewrite E in Hd. set_solver.
  - intros Hc. destruct (Q5 c x Hx ltac:(done)) as [E1 E2]. apply E1 in Hc.
    assert (c_state x = CONTEXT_SLEEP_QUEUE) as Hs by (apply E2; exists q; rewrite E; set_solver).
    rewrite Hs in Hc. by destruct Hc as [?|[?|?]].
  - intros q'. unfold sq_set. case_decide; auto.
Qed.

(** Turning interrupts on or off does not touch the queues. *)
Lemma sched_inv_isr k rq sq b : sched_inv k rq sq -> sched_inv (k <| isr_disabled := b |>) rq sq.
Proof. intros H. eapply sched_inv_frame; [..|exact H]; done. Qed.

Lemma woken_isr k k' c rq sq st b b' :
  woken (k <| isr_disabled := b |>) k' c rq sq st -> woken k (k' <| isr_disabled := b' |>) c rq sq st.
Proof.
  intros (h & l1 & l2 & x & -> & Hi & Hx & Hs & Hp & Hf1 & Hf2 & Hlk & Hss).
  exists h, l1, l2, x. split_and!; auto. by apply sched_inv_isr.
Qed.

(** [context_signal] and [context_interrupt]: a context that sleeps on no queue
    becomes ready, any other is left alone. *)
Definition wake_sleeper (c : cid) (st : Z) : M unit :=
  isr_disable;; (x ← ctx c; if c_state x =? CONTEXT_SLEEP then make_ready c st else mret tt);; isr_enable.

Lemma wake_sleeper_spec k h t sq c x st :
  sched_inv k (h :: t) sq -> k_ctx k !! c = Some x -> pri k h <= pri k c ->
  st = CONTEXT_READY \/ st = CONTEXT_INTERRUPTED ->
  exists k', wake_sleeper c st k = Ok (tt, k') /\ isr_disabled k' = false /\
    (c_state x = CONTEXT_SLEEP /\ woken k k' c (h :: t) sq st
     \/ c_state x <> CONTEXT_SLEEP /\ k' = k <| isr_disabled := false |>).
Proof.
  intros Hinv Hx Hp Hst. unfold wake_sleeper. set (k1 := k <| isr_disabled := true |>).
  rewrite (bind_run _ _ _ _ k1 eq_refl).
  pose proof (bind_run (ctx c) (fun x => if c_state x =? CONTEXT_SLEEP then make_ready c st else mret tt)
     _ _ _ (ctx_run c x k1 Hx)) as E. cbv beta in E.
  destruct (Z.eqb_spec (c_state x) CONTEXT_SLEEP) as [Hs|Hs].
  - destruct (make_ready_sleeper k1 h t sq c x st) as (k2 & Hk2 & Hw & _); auto.
    { by apply sched_inv_isr. }
    rewrite Hk2 in E. rewrite (bind_run _ _ _ _ _ E). eexists. split; [done|]. split; [done|].
    left. split; [done|]. by eapply woken_isr.
  - rewrite (bind_run _ _ _ _ _ E). eexists. split; [done|]. split; [done|]. by right.
Qed.

Lemma context_signal_queue_spec k h t sq q :
  sched_inv k (h :: t) sq -> (forall c, head (sq q) = Some c -> pri k h <= pri k c) ->
  match sq q with
  | [] => context_signal_queue q k = Ok (0, k <| isr_disabled := false |>)
  | c :: l => exists k', context_signal_queue q k = Ok (1, k') /\ isr_disabled k' = false
      /\ woken k k' c (h :: t) (sq_set sq q l) CONTEXT_READY
  end.
Proof.
  intros Hinv Hp. unfold context_signal_queue. set (k1 := k <| isr_disabled := true |>).
  rewrite (bind_run _ _ _ _ k1 eq_refl), (bind_run _ _ _ _ k1 eq_refl).
  assert (Hi1 : sched_inv k1 (h :: t) sq) by by apply sched_inv_isr.
  pose proof (qi_sleep _ _ _ _ (si_q _ _ _ Hi1) q) as Hch. rewrite <-(chain_head _ _ _ Hch).
  destruct (sq q) as [|c l] eqn:E; [done|]. cbn [head].
  destruct (chain_dom _ _ _ _ c Hch) as [x Hx]; [set_solver|].
  destruct (dequeue k1 (h :: t) sq q [] c l x Hi1 E Hx) as (Hn & k2 & Hk2 & Hr & Hq & Hc & Hsq).
  destruct (make_ready_woken k1 h t sq c CONTEXT_READY k2 (S_queue q) (sq_set sq q l)) as (k3 & Hk3 & Hw & _); auto.
  { by rewrite (rl_isr _ _ _ _ Hr). }
  { by apply Hp. }
  eexists. split; [|split; [|by eapply woken_isr]].
  - erewrite bind_run; [|rewrite (bind_run _ _ _ _ _ (ctx_run c x k1 Hx)), Hn, (bind_run _ _ _ _ _ Hk2), (bind_run _ _ _ _ _ Hk3); done].
    done.
  - done.
Qed.

Lemma context_interrupt_queue_spec k h t sq q c :
  sched_inv k (h :: t) sq -> pri k h <= pri k c ->
  (c ∉ sq q /\ context_interrupt_queue c q k = Ok (0, k <| isr_disabled := false |>))
  \/ exists k' l1 l2, sq q = l1 ++ c :: l2 /\ context_interrupt_queue c q k = Ok (1, k')
      /\ isr_disabled k' = false /\ woken k k' c (h :: t) (sq_set sq q (l1 ++ l2)) CONTEXT_INTERRUPTED.
Proof.
  intros Hinv Hp. unfold context_interrupt_queue. set (k1 := k <| isr_disabled := true |>).
  rewrite (bind_run _ _ _ _ k1 eq_refl), (bind_run _ _ _ _ k1 eq_refl).
  assert (Hi1 : sched_inv k1 (h :: t) sq) by by apply sched_inv_isr.
  pose proof (qi_sleep _ _ _ _ (si_q _ _ _ Hi1) q) as Hch.
  destruct (queue_walk_spec (fun x _ => negb (bool_decide (x = c))) Sleep k1 _ (S_queue q) _ Hch)
    as (l1 & l2 & E & Hw & Hf & Hn). rewrite (bind_run _ _ _ _ _ Hw).
  destruct l2 as [|c' l2].
  - left. split; [|done]. rewrite E, (app_nil_r l1). rewrite Forall_forall in Hf. intros Hc.
    destruct (Hf c Hc) as (? & _ & Hb). rewrite bool_decide_true in Hb; done.
  - destruct (chain_dom _ _ _ _ c' Hch) as [x Hx]; [rewrite E; set_solver|].
    assert (c' = c) as ->.
    { specialize (Hn c' x eq_refl Hx). cbn in Hn. by apply negb_false_iff, bool_decide_eq_true in Hn. }
    right. cbn [head].
    destruct (dequeue k1 (h :: t) sq q l1 c l2 x Hi1 E Hx) as (Hn' & k2 & Hk2 & Hr & Hq & Hc & Hsq).
    destruct (make_ready_woken k1 h t sq c CONTEXT_INTERRUPTED k2 (S_queue q) (sq_set sq q (l1 ++ l2)))
      as (k3 & Hk3 & Hwk & _); auto.
      { by rewrite (rl_isr _ _ _ _ Hr). }
    eexists _, l1, l2. split; [done|]. split; [|split; [|by eapply woken_isr]].
    + erewrite bind_run; [|rewrite (bind_run _ _ _ _ _ (ctx_run c x k1 Hx)), Hn', (bind_run _ _ _ _ _ Hk2), (bind_run _ _ _ _ _ Hk3); done].
      done.
    + done.
Qed.

Lemma sched_inv_ext k rq sq sq' : (forall q, sq' q = sq q) -> sched_inv k rq sq -> sched_inv k rq sq'.
Proof.
  intros E [[Q1 Q2 Q3 Q4 Q5] H2 H3 H4 H5]. split; [split| | | |]; auto.
  - intros q. rewrite E. auto.
  - intros q1 q2 c. rewrite !E. eauto.
  - intros c x Hx Hl. destruct (Q5 c x Hx Hl) as [E1 E2]. split; [done|]. rewrite <-E2.
    split; intros [q Hq]; exists q; by rewrite E in *.
Qed.

Lemma sq_set_twice sq q l l' q' : sq_set (sq_set sq q l) q l' q' = sq_set sq q l' q'.
Proof. unfold sq_set. by case_decide. Qed.

Lemma blind_make_ready c st : blind (fun _ => True) (make_ready c st).
Proof.
  eapply blind_bind; [apply blind_mod_ctx|]. intros _ _. eapply (blind_bind (fun _ => True)).
  - by intros k [] k' [= <-].
  - intros _ _. apply blind_ready.
Qed.

(** The kernel with the head of sleep queue [q] set to [p]; the broadcast loop
    has not written the head yet, but its invariant is about this view. *)
Definition with_head (q : qid) (p : option cid) (k : kernel) : kernel :=
  k <| k_queues := <[q := p]> (k_queues k) |>.

Lemma broadcast_loop_spec fuel k h t sq q p l n :
  sched_inv (with_head q p k) (h :: t) sq -> sq q = l -> isr_disabled k = true ->
  Forall (fun c => pri k h <= pri k c) l -> (length l < fuel)%nat ->
  exists k' t', broadcast_loop fuel p (u8 n) k = Ok (u8 (n + Z.of_nat (length l)), k')
    /\ sched_inv (with_head q None k') (h :: t') (sq_set sq q []) /\ t' ≡ₚ l ++ t
    /\ (forall d, pri k' d = pri k d) /\ isr_disabled k' = true
    /\ k_locks k' = k_locks k /\ same_stacks k k'.
Proof.
  revert k t sq p l n; induction fuel as [|fuel IH]; intros k t sq p l n Hinv El Hisr Hp Hfuel; [lia|].
  pose proof (qi_sleep _ _ _ _ (si_q _ _ _ Hinv) q) as Hch. rewrite El in Hch.
  assert (Hqh : queue_head q (with_head q p k) = p) by (unfold with_head; rewrite queue_head_insert; by case_decide).
  rewrite Hqh in Hch. pose proof (chain_head _ _ _ Hch) as <-. destruct l as [|c l]; cbn [head broadcast_loop] in *.
  - exists k, t. rewrite Z.add_0_r. split_and!; auto using same_stacks_refl. eapply sched_inv_ext; [|exact Hinv].
    intros q'. unfold sq_set. case_decide; congruence.
  - destruct (chain_dom _ _ _ _ c Hch) as [x Hx]; [set_solver|].
    destruct (dequeue _ _ sq q [] c l x Hinv El Hx) as (Hn & k2 & Hk2 & Hr & Hq2 & Hc & Hsq).
    cbn in Hk2. injection Hk2 as Hk2.
    destruct (sched_moving _ _ _ _ Hinv) as (y & Hm & _ & _).
    destruct (moving_relinked _ _ _ _ _ _ Hr Hm) as (y2 & Hm2 & _).
    apply Forall_cons in Hp as [Hpc Hp].
    destruct (make_ready_spec k2 h y2 t (sq_set sq q l) c x CONTEXT_READY) as
      (k3 & x3 & l1 & l2 & Hk3 & -> & Hi3 & Hisr3 & Hx3 & _ & Hs3 & _ & Hlk3 & Hp3 & Hq3 & Hss3 & _); auto.
    { by rewrite <-Hk2. } { by rewrite <-Hk2. }
    { rewrite (rl_len _ _ _ _ Hr). exact (si_len _ _ _ Hinv). } { by rewrite <-Hk2. }
    destruct (blind_make_ready _ _ _ _ _ Hk3) as (_ & _ & Hblind). specialize (Hblind (k_queues k)).
    assert (k2 <| k_queues := k_queues k |> = k) as E2 by (rewrite <-Hk2; by destruct k).
    rewrite E2 in Hblind. rewrite (bind_run _ _ _ _ _ Hblind).
    set (k4 := k3 <| k_queues := k_queues k |>) in *.
    rewrite (bind_run _ _ _ _ _ (ctx_run c x3 k4 Hx3)), Hs3, Hn.
    assert (E4 : with_head q (head l) k4 = k3).
    { unfold with_head, k4. destruct k3; cbn in *. f_equal. rewrite Hq3, <-Hk2. cbn. by rewrite insert_insert_eq. }
    assert (Hpri : forall d, pri k4 d = pri k d).
    { intros d. change (pri k4 d) with (pri k3 d). by rewrite Hp3, <-Hk2. }
    replace (u8 (u8 n + 1)) with (u8 (n + 1)) by (unfold u8; by rewrite Zplus_mod_idemp_l).
    destruct (IH k4 (l1 ++ c :: l2) (sq_set sq q l) (head l) l (n + 1)) as (k5 & t5 & Hk5 & Hi5 & Ht & Hp5 & Hisr5 & Hlk5 & Hss5).
    + by rewrite E4.
    + apply sq_set_eq.
    + done.
    + eapply Forall_impl; [exact Hp|]. cbn. intros d. by rewrite !Hpri.
    + cbn in Hfuel. lia.
    + exists k5, t5. split_and!; auto.
      * rewrite Hk5. do 3 f_equal. cbn [length]. lia.
      * eapply sched_inv_ext; [|exact Hi5]. intros q'. by rewrite sq_set_twice.
      * rewrite Ht. cbn. by rewrite <-!Permutation_middle.
      * intros d. by rewrite Hp5, Hpri.
      * rewrite Hlk5. change (k_locks k3 = k_locks k). by rewrite Hlk3, <-Hk2.
      * eapply same_stacks_trans; [|exact Hss5]. by rewrite <-Hk2 in Hss3.
Qed.

(** A broadcast makes every waiter ready and empties the queue. *)
Lemma context_broadcast_queue_spec k h t sq q :
  sched_inv k (h :: t) sq -> Forall (fun c => pri k h <= pri k c) (sq q) ->
  exists k' t', context_broadcast_queue q k = Ok (u8 (Z.of_nat (length (sq q))), k')
    /\ sched_inv k' (h :: t') (sq_set sq q []) /\ t' ≡ₚ sq q ++ t
    /\ (forall d, pri k' d = pri k d) /\ isr_disabled k' = false
    /\ k_locks k' = k_locks k /\ same_stacks k k'.
Proof.
  intros Hinv Hp. unfold context_broadcast_queue. set (k1 := k <| isr_disabled := true |>).
  rewrite (bind_run _ _ _ _ k1 eq_refl), (bind_run _ _ _ _ k1 eq_refl).
  assert (Hi1 : sched_inv k1 (h :: t) sq) by by apply sched_inv_isr.
  destruct (broadcast_loop_spec (walk_fuel k1) k1 h t sq q (queue_head q k1) (sq q) 0)
    as (k2 & t2 & Hk2 & Hi2 & Ht & Hpri & Hisr & Hlk & Hss); auto.
  - eapply sched_inv_frame; [..|exact Hi1]; try done. intros q'. unfold with_head.
    rewrite queue_head_insert. by case_decide; subst.
  - exact (chain_length _ _ _ _ (qi_sleep _ _ _ _ (si_q _ _ _ Hi1) q)).
  - change (u8 0) with 0 in Hk2. rewrite (bind_run _ _ _ _ _ Hk2).
    eexists _, t2. split; [done|]. split_and!; auto. by apply sched_inv_isr.
Qed.

(** ** Starting and ending contexts *)

Lemma context_exit_inv k c tl sq k' :
  sched_inv k (c :: tl) sq -> context_exit k = Ok (tt, k') -> sched_inv k' tl sq.
Proof.
  intros Hinv H. set (k1 := k <| isr_disabled := true |>).
  assert (Hinv1 : sched_inv k1 (c :: tl) sq) by by apply sched_inv_isr.
  destruct (sched_moving _ _ _ _ Hinv1) as (x & Hm & Hc & Hsq). pose proof Hm as [M1 M2 M3 M4].
  unfold context_exit in H. rewrite (bind_run _ _ _ _ k1 eq_refl) in H.
  rewrite (bind_run _ _ _ _ _ (unlink_current_run c x k1 M1 M2)) in H.
  destruct (q_inv_unlink_head k1 c tl sq x (q_inv_weaken _ _ _ _ (si_q _ _ _ Hinv1)) M2) as [Hn Hq1].
  rewrite Hn in H. set (k2 := k1 <| run_queue := head tl |>) in *.
  set (k3 := k2 <| run_queue_len := u8 (run_queue_len k2 + -1) |>).
  rewrite (bind_run _ _ _ _ k3 eq_refl), (bind_run _ _ _ _ _ (current_run c k3 M1)),
    (bind_run _ _ _ _ _ (mod_ctx_run c _ x k3 M2)) in H.
  set (x1 := setter _ x) in H. set (k4 := k3 <| k_ctx := <[c := x1]> (k_ctx k3) |>) in H.
  assert (Hx1 : k_ctx k4 !! c = Some x1) by by apply lookup_insert_eq.
  assert (Hq4 : q_inv k4 tl sq None).
  { eapply q_inv_settle; [eapply q_inv_update; [|exact M2|done|done|by left|by right]|exact Hx1|].
    - by eapply (q_inv_frame k2).
    - split; split; intros Hp; try done.
      + by destruct Hp as [?|[?|?]].
      + destruct Hp as [q ?]. by destruct (Hsq q). }
  destruct tl as [|h t]; [done|].
  destruct (chain_dom _ _ _ _ h (qi_run _ _ _ _ Hq4)) as [z Hz]; [set_solver|].
  destruct (startup_spec k4 h t sq z Hq4 Hz) as (k5 & Hk5 & Hi & _).
  - intros d v. unfold k4. cbn. rewrite lookup_insert. case_decide as E; [by intros [= <-]|].
    intros Hv Ev. apply E. symmetry. eauto.
  - change (u8 (run_queue_len k + -1) = u8 (Z.of_nat (length (h :: t)))).
    rewrite (si_len _ _ _ Hinv). unfold u8. rewrite Zplus_mod_idemp_l. f_equal. cbn. lia.
  - rewrite Hk5 in H. by injection H as <-.
Qed.

(** A context that is not in the store yet. *)
Lemma q_inv_fresh k rq sq c x :
  q_inv k rq sq None -> k_ctx k !! c = None ->
  q_inv (k <| k_ctx := <[c := x]> (k_ctx k) |>) rq sq (Some c) /\ c ∉ rq /\ (forall q, c ∉ sq q).
Proof.
  intros [H1 H2 H3 H4 H5] Hx.
  assert (Hout : forall w p l, chain (lnk k w) p l -> c ∉ l).
  { intros w p l Hl Hc. destruct (chain_dom _ _ _ _ c Hl Hc) as [? ?]. congruence. }
  assert (Hk : forall w d, d <> c -> lnk (k <| k_ctx := <[c := x]> (k_ctx k) |>) w d = lnk k w d).
  { intros w d Hd. rewrite lnk_insert, decide_False by done. done. }
  split_and!; [split; auto|by eapply Hout|intros q; by eapply Hout].
  - eapply chain_frame; [|exact H1]. intros d Hd. apply Hk. intros ->. by eapply Hout.
  - intros q. eapply chain_frame; [|exact (H2 q)]. intros d Hd. apply Hk. intros ->. by eapply (Hout Sleep).
  - eapply sorted_ext; [|exact H3]. intros d Hd. rewrite pri_insert, decide_False; [done|].
    intros ->. by eapply (Hout Run).
  - intros d y. cbn. rewrite lookup_insert. case_decide; [congruence|]. intros Hy Hl. by apply H5.
Qed.

Lemma context_init_inv k c h t sq stk p fs b k' :
  sched_inv k (h :: t) sq -> k_ctx k !! c = None -> isr_disabled k = true ->
  context_init c stk p fs k = Ok (b, k') ->
  exists l1 l2, h :: t = l1 ++ l2 /\ sched_inv k' (l1 ++ c :: l2) sq.
Proof.
  intros Hinv Hx Hisr H. destruct (sched_moving _ _ _ _ Hinv) as (y & Hm & Hh & Hsqh).
  unfold context_init in H. set (x := Context_ p CONTEXT_READY None None stk 0 0 [F_enter] 0) in H.
  set (k1 := k <| k_ctx := <[c := x]> (k_ctx k) |>). set (k2 := k1 <| run_queue_len := u8 (run_queue_len k1 + 1) |>).
  rewrite (bind_run _ _ _ _ k1 eq_refl), (bind_run _ _ _ _ k2 eq_refl) in H.
  destruct (q_inv_fresh k (h :: t) sq c x (si_q _ _ _ Hinv) Hx) as (Hq & Hc & Hsq).
  assert (Hx2 : k_ctx k2 !! c = Some x) by by apply lookup_insert_eq.
  assert (Hhc : c <> h) by set_solver.
  destruct (isr_context_ready_spec k2 (h :: t) sq c x) as (k3 & l1 & l2 & Hk3 & E & Hq3 & Hr & _); auto.
  { by eapply (q_inv_frame k1). }
  rewrite (bind_run _ _ _ _ _ Hk3), (bind_run _ _ _ _ k3 eq_refl) in H.
  assert (Hm2 : moving k2 h y).
  { destruct Hm as [M1 M2 M3 M4]. split; auto.
    - cbn. by rewrite lookup_insert_ne.
    - intros d z. cbn. rewrite lookup_insert. case_decide; [by intros [= <-]|eauto]. }
  destruct (moving_relinked _ _ _ _ _ _ Hr Hm2) as (y3 & Hm3 & _).
  destruct (relinked_lookup _ _ _ _ _ _ Hr Hx2) as (x3 & Hx3 & Hcore). apply core_view in Hcore as [_ Hs].
  rewrite (mv_current _ _ _ Hm3) in H. exists l1, l2. split; [done|].
  assert (Hset : q_inv k3 (l1 ++ c :: l2) sq (Some h)).
  { apply q_inv_weaken. eapply q_inv_settle; [exact Hq3|exact Hx3|]. split; split; intros Hp; try (rewrite Hs in *); try done.
    - right; by left.
    - set_solver.
    - destruct Hp as [q ?]. by destruct (Hsq q). }
  destruct (switch_if_not_head_spec k3 h y3 (l1 ++ c :: l2) sq fs Hset Hm3) as (b4 & k4 & Hk4 & Hi4 & _); auto.
  - assert (h ∈ l1 ++ l2) by (rewrite <-E; set_solver). set_solver.
  - rewrite (rl_len _ _ _ _ Hr). change (u8 (run_queue_len k + 1) = u8 (Z.of_nat (length (l1 ++ c :: l2)))).
    rewrite (si_len _ _ _ Hinv), E. unfold u8. rewrite Zplus_mod_idemp_l. f_equal. rewrite !length_app. cbn. lia.
  - rewrite Hk4 in H. by injection H as <- <-.
Qed.
