(* ===== verification/Kernel.v ===== *)
(** * Runs of the kernel (theorems about Context.v)

    The operations of the context library as the steps of one machine, and the
    promises the scheduler makes about every run of it: the context that runs is
    the most urgent one, equal contexts take turns, a released lock lets a more
    urgent context in at once, and a context that waits comes back with the lock
    it waited with and the reason it was woken for. *)

From stdpp Require Import base list gmap fin_maps strings sorting.
From Stdlib Require Import ZArith Lia.
From S2P Require Import Prelude Context Sched.
Open Scope Z_scope.

(** ** Locks *)

Lemma spinlock_lock_inv k c tl sq l k' :
  sched_inv k (c :: tl) sq -> spinlock_lock l k = Ok (tt, k') -> sched_inv k' (c :: tl) sq.
Proof.
  intros Hinv H. unfold spinlock_lock in H. apply bind_inv in H as (u & k0 & Hd & H).
  assert (k0 = k) as -> by (unfold debug_assert_isr in Hd; destruct (Bool.eqb false (isr_disabled k)); by simplify_eq).
  set (k1 := k <| isr_disabled := true |>). rewrite (bind_run _ _ _ _ k1 eq_refl) in H.
  apply bind_inv in H as (y & k2 & Hy & H). apply lk_inv in Hy as [Hl ->].
  assert (Hi1 : sched_inv k1 (c :: tl) sq) by by apply sched_inv_isr.
  destruct (sched_current_ctx _ _ _ _ Hi1) as [Hc [x Hx]].
  rewrite (bind_run _ _ _ _ _ (current_run c k1 Hc)), (bind_run _ _ _ _ _ (ctx_run c x k1 Hx)) in H.
  apply bind_inv in H as (v & k2 & Hck & H). apply check_inv in Hck as [Hle [= -> ->]].
  apply bind_inv in H as ([] & k2 & Ht & H). injection H as <-. apply sched_inv_isr.
  eapply take_lock_inv; [exact Hi1| |exact Ht]. unfold pri. rewrite Hx. cbn. lia.
Qed.

Lemma isr_spinlock_lock_inv k c tl sq l k' :
  sched_inv k (c :: tl) sq -> 0 <= pri k c -> isr_spinlock_lock l k = Ok (tt, k') -> sched_inv k' (c :: tl) sq.
Proof.
  intros Hinv Hp H. unfold isr_spinlock_lock in H.
  apply bind_inv in H as (y & k2 & Hy & H). apply lk_inv in Hy as [Hl ->].
  apply bind_inv in H as (v & k2 & Hck & H). apply check_inv in Hck as [Hle [= -> ->]].
  by eapply take_lock_inv.
Qed.

Lemma spinlock_unlock_inv k c tl sq l k' :
  sched_inv k (c :: tl) sq -> spinlock_unlock l k = Ok (tt, k') ->
  exists rq, sched_inv k' rq sq /\ rq ≡ₚ c :: tl.
Proof.
  intros Hinv H. unfold spinlock_unlock in H. apply bind_inv in H as (u & k0 & Hd & H).
  assert (k0 = k) as -> by (unfold debug_assert_isr in Hd; destruct (Bool.eqb false (isr_disabled k)); by simplify_eq).
  set (k1 := k <| isr_disabled := true |>). rewrite (bind_run _ _ _ _ k1 eq_refl) in H.
  assert (Hi1 : sched_inv k1 (c :: tl) sq) by by apply sched_inv_isr.
  apply bind_inv in H as (b & k2 & Hr & H).
  destruct (release_lock_inv _ _ _ _ _ _ _ _ _ _ Hi1 Hr) as (rq & Hi & Hp & _).
  exists rq. split; [|done]. destruct b; injection H as <-; [done|by apply sched_inv_isr].
Qed.

(** Retaking the lock after a wait is [take_lock]. *)
Lemma wait_tail_take l k y :
  k_locks k !! l = Some y -> wait_tail l k = take_lock l (l_pri_locked y) "cw lock already held" k.
Proof.
  intros Hl. unfold wait_tail, take_lock.
  by rewrite !(bind_run _ _ _ _ _ (lk_run _ _ _ Hl)).
Qed.

(** ** Operations as steps *)

Inductive kop :=
  | K_yield | K_isr_yield
  | K_wait (l : lid) | K_wait_queue (l : lid) (q : qid) | K_wait_pri_queue (l : lid) (q : qid)
  | K_signal (c : cid) | K_signal_queue (q : qid) | K_broadcast_queue (q : qid)
  | K_interrupt (c : cid) | K_interrupt_queue (c : cid) (q : qid)
  | K_init (c : cid) (stack pri : Z) | K_exit
  | K_spinlock_init (l : lid) (pri : Z)
  | K_lock (l : lid) | K_unlock (l : lid) | K_isr_lock (l : lid) | K_isr_unlock (l : lid)
  | K_resume | K_isr_disable | K_isr_enable.

Definition exec (o : kop) : M unit :=
  match o with
  | K_yield => context_yield
  | K_isr_yield => isr_context_yield [];; mret tt
  | K_wait l => context_wait l []
  | K_wait_queue l q => context_wait_queue l q []
  | K_wait_pri_queue l q => context_wait_pri_queue l q []
  | K_signal c => context_signal c
  | K_signal_queue q => context_signal_queue q;; mret tt
  | K_broadcast_queue q => context_broadcast_queue q;; mret tt
  | K_interrupt c => context_interrupt c
  | K_interrupt_queue c q => context_interrupt_queue c q;; mret tt
  | K_init c stack pri => context_init c stack pri [];; mret tt
  | K_exit => context_exit
  | K_spinlock_init l pri => spinlock_init l pri
  | K_lock l => spinlock_lock l
  | K_unlock l => spinlock_unlock l
  | K_isr_lock l => isr_spinlock_lock l
  | K_isr_unlock l => isr_spinlock_unlock l [];; mret tt
  | K_resume => resume
  | K_isr_disable => isr_disable
  | K_isr_enable => isr_enable
  end.

(** The running context is at least as urgent as [c]. *)
Definition urgent (k : kernel) (c : cid) : Prop :=
  forall h, current_context k = Some h -> pri k h <= pri k c.

(** What the callers owe.  A context is woken by one that is at least as urgent:
    the lock it waits with has the priority of the most urgent of its users, so
    whoever holds that lock is.  A lock is retaken after a wait at a priority at
    least as urgent.  A new context uses new memory, and starts
    with interrupts off.  Priorities are unsigned. *)
Definition allowed (k : kernel) (o : kop) : Prop :=
  match o with
  | K_isr_yield => isr_disabled k = true
  | K_signal c | K_interrupt c | K_interrupt_queue c _ => urgent k c
  | K_signal_queue q => forall c, queue_head q k = Some c -> urgent k c
  | K_broadcast_queue q => forall l c, chain (lnk k Sleep) (queue_head q k) l -> c ∈ l -> urgent k c
  | K_init c _ _ => k_ctx k !! c = None /\ isr_disabled k = true
  | K_isr_lock _ => forall c, 0 <= pri k c
  | K_resume => forall c x l fs y, current_context k = Some c -> k_ctx k !! c = Some x ->
      c_saved x = F_wait l :: fs -> k_locks k !! l = Some y -> l_pri_locked y <= c_priority x
  | _ => True
  end.

Definition step (k k' : kernel) : Prop := exists o, allowed k o /\ exec o k = Ok (tt, k').

(** The globals before [context_init()] has made the first context. *)
Definition boot : kernel := Kernel_ None None 0 ∅ ∅ ∅ true.

Inductive kernel_reach : kernel -> Prop :=
  | reach_boot c stack pri k : context_init c stack pri [] boot = Ok (true, k) -> kernel_reach k
  | reach_step k k' : kernel_reach k -> step k k' -> kernel_reach k'.

(** ** Every step keeps the invariant *)

Definition ordered (k : kernel) : Prop := exists rq sq, sched_inv k rq sq.

Lemma ordered_isr k b : ordered k -> ordered (k <| isr_disabled := b |>).
Proof. intros (rq & sq & H). exists rq, sq. by apply sched_inv_isr. Qed.

Lemma woken_ordered k k' c rq sq st : woken k k' c rq sq st -> ordered k'.
Proof. intros (h & l1 & l2 & x & _ & H & _). by eexists _, _. Qed.

Lemma sched_cons k rq sq : sched_inv k rq sq -> exists h t, rq = h :: t /\ current_context k = Some h.
Proof. intros H. exact (si_current _ _ _ H). Qed.

(** [context_signal] and [context_interrupt] are [wake_sleeper]. *)
Lemma wake_ordered k c st k' :
  ordered k -> urgent k c -> st = CONTEXT_READY \/ st = CONTEXT_INTERRUPTED ->
  wake_sleeper c st k = Ok (tt, k') -> ordered k'.
Proof.
  intros (rq & sq & Hinv) Hu Hst H. destruct (sched_cons _ _ _ Hinv) as (h & t & -> & Hc).
  destruct (k_ctx k !! c) as [x|] eqn:Hx.
  - destruct (wake_sleeper_spec k h t sq c x st Hinv Hx (Hu h Hc) Hst) as (k1 & Hk1 & _ & Hcase).
    rewrite Hk1 in H. injection H as <-. destruct Hcase as [[_ Hw]|[_ ->]]; [by eapply woken_ordered|].
    apply ordered_isr. by exists (h :: t), sq.
  - unfold wake_sleeper in H. rewrite (bind_run _ _ _ _ (k <| isr_disabled := true |>) eq_refl) in H.
    apply bind_inv in H as (u & k1 & H & _). apply bind_inv in H as (x & k2 & H & _).
    unfold ctx in H. cbn in H. by rewrite Hx in H.
Qed.

Lemma signal_queue_ordered k q n k' :
  ordered k -> (forall c, queue_head q k = Some c -> urgent k c) ->
  context_signal_queue q k = Ok (n, k') -> ordered k'.
Proof.
  intros (rq & sq & Hinv) Hu H. destruct (sched_cons _ _ _ Hinv) as (h & t & -> & Hc).
  pose proof (chain_head _ _ _ (qi_sleep _ _ _ _ (si_q _ _ _ Hinv) q)) as Hh.
  pose proof (context_signal_queue_spec k h t sq q Hinv) as Hs. rewrite Hh in Hs.
  specialize (Hs (fun c Hq => Hu c Hq h Hc)). destruct (sq q) as [|c l].
  - rewrite Hs in H. injection H as <- <-. apply ordered_isr. by exists (h :: t), sq.
  - destruct Hs as (k1 & Hk1 & _ & Hw). rewrite Hk1 in H. injection H as <- <-. by eapply woken_ordered.
Qed.

Lemma interrupt_queue_ordered k c q n k' :
  ordered k -> urgent k c -> context_interrupt_queue c q k = Ok (n, k') -> ordered k'.
Proof.
  intros (rq & sq & Hinv) Hu H. destruct (sched_cons _ _ _ Hinv) as (h & t & -> & Hc).
  destruct (context_interrupt_queue_spec k h t sq q c Hinv (Hu h Hc))
    as [[_ Hk1]|(k1 & l1 & l2 & _ & Hk1 & _ & Hw)]; rewrite Hk1 in H; injection H as <- <-.
  - apply ordered_isr. by exists (h :: t), sq.
  - by eapply woken_ordered.
Qed.

Lemma broadcast_ordered k q n k' :
  ordered k -> allowed k (K_broadcast_queue q) -> context_broadcast_queue q k = Ok (n, k') -> ordered k'.
Proof.
  intros (rq & sq & Hinv) Hu H. destruct (sched_cons _ _ _ Hinv) as (h & t & -> & Hc).
  destruct (context_broadcast_queue_spec k h t sq q Hinv) as (k1 & t1 & Hk1 & Hi & _).
  { apply Forall_forall. intros c Hcq. eapply Hu; [apply (qi_sleep _ _ _ _ (si_q _ _ _ Hinv))|done|done]. }
  rewrite Hk1 in H. injection H as <- <-. by eexists _, _.
Qed.

Lemma yield_ordered k fs b k' :
  ordered k -> isr_disabled k = true -> isr_context_yield fs k = Ok (b, k') -> ordered k'.
Proof.
  intros (rq & sq & Hinv) Hisr H. destruct (sched_cons _ _ _ Hinv) as (h & t & -> & Hc).
  destruct (isr_context_yield_inv k h t sq fs Hinv Hisr) as (b1 & k1 & l1 & l2 & Hk1 & _ & Hi & _).
  rewrite Hk1 in H. injection H as <- <-. by eexists _, _.
Qed.

(** The current context pops its innermost return point. *)
Lemma pop_frame k c tl sq x fs :
  sched_inv k (c :: tl) sq -> k_ctx k !! c = Some x ->
  sched_inv (k <| k_ctx := <[c := x <| c_saved := fs |>]> (k_ctx k) |>) (c :: tl) sq.
Proof.
  intros Hinv Hx. eapply sched_inv_update_current; eauto.
  apply Forall_forall. intros d Hd. cbn. replace (c_priority x) with (pri k c) by (unfold pri; by rewrite Hx).
  eapply sorted_head_le; [apply (qi_sorted _ _ _ _ (si_q _ _ _ Hinv))|done].
Qed.

Lemma resume_ordered k k' : ordered k -> allowed k K_resume -> resume k = Ok (tt, k') -> ordered k'.
Proof.
  intros (rq & sq & Hinv) Hu H. destruct (sched_cons _ _ _ Hinv) as (c & tl & -> & Hc).
  destruct (sched_current_ctx _ _ _ _ Hinv) as [_ [x Hx]]. unfold resume in H.
  rewrite (bind_run _ _ _ _ _ (current_run c k Hc)), (bind_run _ _ _ _ _ (ctx_run c x k Hx)) in H.
  destruct (c_saved x) as [|f fs] eqn:E; [injection H as <-; by exists (c :: tl), sq|].
  set (k1 := k <| k_ctx := <[c := x <| c_saved := fs |>]> (k_ctx k) |>).
  rewrite (bind_run _ _ _ _ k1 eq_refl) in H.
  assert (Hi1 : sched_inv k1 (c :: tl) sq) by by apply pop_frame.
  assert (Ho1 : ordered k1) by by exists (c :: tl), sq.
  destruct f as [| |l|l]; cbn in H.
  - injection H as <-. by apply ordered_isr.
  - injection H as <-. by apply ordered_isr.
  - destruct (k_locks k !! l) as [y|] eqn:Hl.
    + rewrite (wait_tail_take l k1 y Hl) in H. exists (c :: tl), sq.
      eapply take_lock_inv; [exact Hi1| |exact H]. unfold pri, k1. cbn. rewrite lookup_insert_eq. cbn. eauto.
    + unfold wait_tail in H. apply bind_inv in H as (y & k2 & Hy & _). apply lk_inv in Hy as [Hy _].
      change (k_locks k !! l = Some y) in Hy. congruence.
  - destruct (spinlock_unlock_inv k1 c tl sq l k' Hi1 H) as (rq & Hi & _). by exists rq, sq.
Qed.

Lemma step_ordered k k' : ordered k -> step k k' -> ordered k'.
Proof.
  intros Ho (o & Ha & H). pose proof Ho as (rq & sq & Hinv). destruct (sched_cons _ _ _ Hinv) as (c & tl & -> & Hc).
  destruct o; cbn [exec allowed] in *; try (apply bind_inv in H as (r & k1 & H & [= <-])).
  - unfold context_yield in H. set (k1 := k <| isr_disabled := true |>). rewrite (bind_run _ _ _ _ k1 eq_refl) in H.
    apply bind_inv in H as (b & k2 & H2 & H).
    apply (yield_ordered k1) in H2; [|by apply ordered_isr|done].
    destruct b; injection H as <-; [done|by apply ordered_isr].
  - by eapply yield_ordered.
  - exists tl, sq. by eapply context_wait_inv.
  - eexists _, _. by eapply context_wait_queue_inv.
  - destruct (context_wait_pri_queue_inv _ _ _ _ _ _ _ _ Hinv H) as (l1 & l2 & y & _ & Hi & _). by eexists _, _.
  - eapply (wake_ordered k c0 CONTEXT_READY); eauto.
  - by eapply signal_queue_ordered.
  - by eapply broadcast_ordered.
  - eapply (wake_ordered k c0 CONTEXT_INTERRUPTED); eauto.
  - by eapply interrupt_queue_ordered.
  - destruct Ha as [Hf Hi]. destruct (context_init_inv _ _ _ _ _ _ _ _ _ _ Hinv Hf Hi H) as (l1 & l2 & _ & ?).
    by eexists _, _.
  - exists tl, sq. by eapply context_exit_inv.
  - injection H as <-. exists (c :: tl), sq. eapply sched_inv_frame; [..|exact Hinv]; done.
  - exists (c :: tl), sq. by eapply spinlock_lock_inv.
  - destruct (spinlock_unlock_inv _ _ _ _ _ _ Hinv H) as (rq & Hi & _). by exists rq, sq.
  - exists (c :: tl), sq. eapply isr_spinlock_lock_inv; eauto.
  - destruct (release_lock_inv _ _ _ _ _ _ _ _ _ _ Hinv H) as (rq & Hi & _). by exists rq, sq.
  - by eapply resume_ordered.
  - injection H as <-. by apply ordered_isr.
  - injection H as <-. by apply ordered_isr.
Qed.

Lemma boot_ordered c stack p k : context_init c stack p [] boot = Ok (true, k) -> ordered k.
Proof.
  intros H.
  set (x := Context_ p CONTEXT_RUNNING None None stack 0 0 [F_enter] CONTEXT_READY).
  assert (k = Kernel_ (Some c) (Some c) 1 {[c := x]} ∅ ∅ true) as ->.
  { unfold context_init in H. set (x0 := Context_ p CONTEXT_READY None None stack 0 0 [F_enter] 0) in H.
    set (k1 := boot <| k_ctx := <[c := x0]> (k_ctx boot) |>).
    set (k2 := k1 <| run_queue_len := u8 (run_queue_len k1 + 1) |>).
    rewrite (bind_run _ _ _ _ k1 eq_refl), (bind_run _ _ _ _ k2 eq_refl) in H.
    assert (Hx : k_ctx k2 !! c = Some x0) by by apply lookup_insert_eq.
    assert (Hr : isr_context_ready c k2 = Ok (tt, k2 <| k_ctx := <[c := x0]> (k_ctx k2) |> <| run_queue := Some c |>)).
    { unfold isr_context_ready. rewrite (bind_run (debug_assert_isr true) _ k2 _ k2 eq_refl), (bind_run get _ k2 k2 k2 eq_refl),
        (bind_run _ _ _ _ _ (ctx_run c x0 k2 Hx)).
      rewrite (bind_run (queue_walk _ Run (run_queue k2) S_run) _ k2 (None, S_run) k2 eq_refl). by rewrite (bind_run _ _ _ _ _ (mod_ctx_run c _ x0 k2 Hx)). }
    rewrite (bind_run _ _ _ _ _ Hr) in H.
    set (k3 := setter _ _) in H. rewrite (bind_run _ _ _ k3 k3 eq_refl) in H. cbn [current_context] in H.
    change (current_context k3) with (@None cid) in H.
    assert (Hx3 : k_ctx (k3 <| current_context := Some c |>) !! c = Some x0) by by apply lookup_insert_eq.
    apply bind_inv in H as (u & k4 & Hs & [= <-]). unfold startup in Hs.
    rewrite (bind_run _ _ _ k3 k3 eq_refl) in Hs. change (run_queue k3) with (Some c) in Hs. cbv beta iota in Hs.
    rewrite (bind_run _ _ _ tt (k3 <| current_context := Some c |>) eq_refl), (mod_ctx_run _ _ x0) in Hs by exact Hx3.
    injection Hs as <- <-. unfold k3, k2, k1, boot, x. cbn. f_equal. by rewrite !insert_insert_eq. }
  exists [c], (fun _ => []). split; [split| | | |]; cbn.
  - split; [done|]. exists None. unfold lnk; cbn. by rewrite lookup_singleton_eq.
  - intros q. done.
  - by repeat constructor.
  - intros q1 q2 d ?%elem_of_nil. done.
  - intros d y [<- <-]%lookup_singleton_Some _. split; split; try done.
    + intros _. by left.
    + intros _. set_solver.
    + intros [q ?%elem_of_nil]. done.
  - by exists c, [].
  - by intros d y [<- <-]%lookup_singleton_Some _.
  - by intros d y _ [<- <-]%lookup_singleton_Some.
  - done.
Qed.

Lemma reach_ordered k : kernel_reach k -> ordered k.
Proof. induction 1; [by eapply boot_ordered|by eapply step_ordered]. Qed.

(** ** What the scheduler promises *)

(** The contexts on the run queue and on a sleep queue, in order. *)
Definition run_list (k : kernel) (l : list cid) : Prop := chain (lnk k Run) (run_queue k) l.
Definition sleep_list (k : kernel) (q : qid) (l : list cid) : Prop := chain (lnk k Sleep) (queue_head q k) l.

Lemma reach_sched k rq : kernel_reach k -> run_list k rq -> exists sq, sched_inv k rq sq.
Proof.
  intros (rq' & sq & H)%reach_ordered Hl. exists sq.
  by rewrite (chain_fun _ _ _ _ Hl (qi_run _ _ _ _ (si_q _ _ _ H))).
Qed.

Lemma sched_sleep k rq sq q l : sched_inv k rq sq -> sleep_list k q l -> sq q = l.
Proof. intros H Hl. eapply chain_fun; [apply (qi_sleep _ _ _ _ (si_q _ _ _ H))|exact Hl]. Qed.

Lemma sched_run k rq sq : sched_inv k rq sq -> run_list k rq.
Proof. intros H. apply (qi_run _ _ _ _ (si_q _ _ _ H)). Qed.

Lemma sched_head k rq sq : sched_inv k rq sq -> current_context k = head rq.
Proof. intros (h & t & -> & H)%sched_cons. done. Qed.

(** Concrete kernels, reached by running operations from [boot]. *)
Fixpoint run_ops (os : list kop) (k : kernel) : res kernel :=
  match os with
  | [] => Ok k
  | o :: os => match exec o k with Ok (_, k) => run_ops os k | Stop w => Stop w | Fuel => Fuel end
  end.

Definition from_boot (pri : Z) (os : list kop) : kernel :=
  match context_init 0%nat 0 pri [] boot with
  | Ok (_, k) => match run_ops os k with Ok k => k | _ => boot end
  | _ => boot
  end.

(** Three contexts of priorities 5, 9 and 5 beside the idle context 0; context 1
    runs, with lock 0 (priority 2) taken when [locked]. *)
Definition demo (locked : bool) : kernel :=
  from_boot 20 ([K_init 1 0 5; K_init 2 0 9; K_init 3 0 5; K_spinlock_init 0 2; K_resume]
    ++ if locked then [K_lock 0] else []).

Fixpoint all_allowed (os : list kop) (k : kernel) : Prop :=
  match os with
  | [] => True
  | o :: os => allowed k o /\ match exec o k with Ok (_, k) => all_allowed os k | _ => False end
  end.

Lemma reach_ops os k : kernel_reach k -> all_allowed os k ->
  kernel_reach (match run_ops os k with Ok k => k | _ => boot end).
Proof.
  revert k; induction os as [|o os IH]; intros k Hk; cbn; [done|]. intros [Ha Hos].
  destruct (exec o k) as [[[] k1]| |] eqn:E; [|done..]. apply IH; [|done].
  eapply reach_step; [exact Hk|]. by exists o.
Qed.

Lemma demo_reach locked : kernel_reach (demo locked).
Proof.
  unfold demo, from_boot. destruct (context_init 0%nat 0 20 [] boot) as [[[] k]| |] eqn:E; [|by vm_compute in E..].
  apply reach_ops; [by eapply reach_boot|]. vm_compute in E. injection E as <-.
  destruct locked; vm_compute; repeat (split; try reflexivity; try exact I);
    intros c x l fs y E1 E2 E3; simplify_eq; done.
Qed.

Lemma demo_run_list locked : run_list (demo locked) [1; 3; 2; 0]%nat.
Proof. destruct locked; vm_compute; repeat (split; [reflexivity|]; eexists; split; [reflexivity|]); reflexivity. Qed.



(** C7: [context_yield()] returns in every reachable state; the caller goes
    behind every ready context of its own priority and stays in front of the less
    urgent ones, the order of the others is kept, and the head of the run queue
    runs. *)
Theorem yield_rotates_equals k c tl :
  kernel_reach k -> run_list k (c :: tl) ->
  exists k' l1 l2, context_yield k = Ok (tt, k') /\ tl = l1 ++ l2
    /\ run_list k' (l1 ++ c :: l2) /\ current_context k' = head (l1 ++ c :: l2)
    /\ Forall (fun d => pri k d = pri k c) l1 /\ Forall (fun d => pri k c < pri k d) l2.
Proof.
  intros Hk Hl. destruct (reach_sched _ _ Hk Hl) as [sq H]. unfold context_yield.
  set (k1 := k <| isr_disabled := true |>). rewrite (bind_run _ _ _ _ k1 eq_refl).
  destruct (isr_context_yield_inv k1 c tl sq [F_enable]) as (b & k2 & l1 & l2 & Hk2 & -> & Hi & _ & Hf1 & Hf2);
    [by apply sched_inv_isr|done|]. run_with Hk2.
  assert (Hf1' : Forall (fun d => pri k d = pri k c) l1).
  { rewrite Forall_forall in *. intros d Hd. specialize (Hf1 d Hd).
    pose proof (sorted_head_le k c (l1 ++ l2) d (qi_sorted _ _ _ _ (si_q _ _ _ H))).
    change (pri k1) with (pri k) in Hf1. assert (d ∈ l1 ++ l2) by set_solver. naive_solver lia. }
  destruct b; eexists _, l1, l2; (split; [done|]); split_and!; auto.
  - by eapply sched_run.
  - by eapply sched_head.
  - by eapply sched_run, sched_inv_isr.
  - eapply sched_head. by apply sched_inv_isr.
Qed.

Lemma yield_rotates_equals_witness :
  exists k' l1 l2, context_yield (demo false) = Ok (tt, k') /\ [3; 2; 0]%nat = l1 ++ l2
    /\ run_list k' (l1 ++ 1%nat :: l2) /\ current_context k' = head (l1 ++ 1%nat :: l2)
    /\ Forall (fun d => pri (demo false) d = pri (demo false) 1%nat) l1
    /\ Forall (fun d => pri (demo false) 1%nat < pri (demo false) d) l2.
Proof. apply (yield_rotates_equals (demo false)); [apply demo_reach|apply demo_run_list]. Defined.

(** C8: releasing a held lock returns in every reachable state, frees the lock,
    restores the owner's priority, puts the owner behind the contexts that are
    more urgent than that and in front of all others, and runs the head: a
    context that became ready while the lock was held gets the CPU at once. *)
Theorem unlock_gives_way_to_urgent k c tl l y :
  kernel_reach k -> run_list k (c :: tl) -> isr_disabled k = false ->
  k_locks k !! l = Some y -> l_lock y = true -> pri k c <= l_pri_unlocked y ->
  exists k' l1 l2, spinlock_unlock l k = Ok (tt, k') /\ tl = l1 ++ l2
    /\ run_list k' (l1 ++ c :: l2) /\ current_context k' = head (l1 ++ c :: l2)
    /\ pri k' c = l_pri_unlocked y /\ k_locks k' !! l = Some (y <| l_lock := false |>)
    /\ Forall (fun d => pri k d < l_pri_unlocked y) l1
    /\ Forall (fun d => l_pri_unlocked y <= pri k d) l2.
Proof.
  intros Hk Hl Hisr Hlk Hheld Hle. destruct (reach_sched _ _ Hk Hl) as [sq H].
  set (k1 := k <| isr_disabled := true |>).
  destruct (release_lock_spec k1 c tl sq l y "splun not held" "splun pri" [F_enable])
    as (b & k2 & l1 & l2 & Hk2 & Hi & -> & _ & Hl2 & Hp & _ & Hf1 & Hf2);
    [by apply sched_inv_isr|done..|].
  assert (Hd : debug_assert_isr false k = Ok (tt, k)) by (unfold debug_assert_isr; by rewrite Hisr).
  unfold spinlock_unlock. run_with Hd. rewrite (bind_run _ _ _ _ k1 eq_refl), (bind_run _ _ _ _ _ Hk2).
  assert (Hf2' : Forall (fun d => l_pri_unlocked y <= pri k d) l2).
  { pose proof (sorted_tail _ _ _ (qi_sorted _ _ _ _ (si_q _ _ _ H))) as Hs.
    destruct l2 as [|e l2]; [done|]. specialize (Hf2 e eq_refl). change (pri k1) with (pri k) in Hf2.
    constructor; [done|]. clear -Hs Hf2. induction l1 as [|d l1 IH]; cbn in Hs; apply StronglySorted_inv in Hs as [Hs Hf]; auto.
    eapply Forall_impl; [exact Hf|]. cbn. lia. }
  destruct b; eexists _, l1, l2; (split; [done|]); split_and!; auto;
    try (by eapply sched_run); try (by eapply sched_head); try (rewrite Hl2; apply lookup_insert_eq).
  - by eapply sched_run, sched_inv_isr.
  - eapply sched_head. by apply sched_inv_isr.
  - change (k_locks k2 !! l = Some (y <| l_lock := false |>)). rewrite Hl2; apply lookup_insert_eq.
Qed.

Lemma unlock_gives_way_to_urgent_witness :
  exists k' l1 l2, spinlock_unlock 0%nat (demo true) = Ok (tt, k') /\ [3; 2; 0]%nat = l1 ++ l2
    /\ run_list k' (l1 ++ 1%nat :: l2) /\ current_context k' = head (l1 ++ 1%nat :: l2)
    /\ pri k' 1%nat = 5 /\ k_locks k' !! 0%nat = Some (Lock_ false 2 5)
    /\ Forall (fun d => pri (demo true) d < 5) l1 /\ Forall (fun d => 5 <= pri (demo true) d) l2.
Proof.
  apply (unlock_gives_way_to_urgent (demo true) 1%nat [3; 2; 0]%nat 0%nat (Lock_ true 2 5));
    [apply demo_reach|apply demo_run_list|vm_compute; congruence..].
Defined.

(** C9: [context_wait_queue()] by a context that holds exactly the lock it waits
    with: the lock is freed, the caller has its own priority back, is first on the
    sleep queue and off the run queue, and the most urgent other context runs;
    the caller is left to continue in [__isr_context_wait()].  If no other context
    is ready the kernel has nothing to run. *)
Theorem wait_queue_releases_lock k c tl l q y x ws :
  kernel_reach k -> run_list k (c :: tl) -> sleep_list k q ws ->
  k_locks k !! l = Some y -> l_lock y = true ->
  k_ctx k !! c = Some x -> c_spinlocks_held x = 1 ->
  match tl with
  | [] => context_wait_queue l q [] k = Stop "run queue empty"
  | h :: _ => exists k', context_wait_queue l q [] k = Ok (tt, k')
      /\ run_list k' tl /\ sleep_list k' q (c :: ws) /\ current_context k' = Some h
      /\ k_locks k' !! l = Some (y <| l_lock := false |>) /\ pri k' c = l_pri_unlocked y
      /\ exists x', k_ctx k' !! c = Some x' /\ c_state x' = CONTEXT_SLEEP_QUEUE
           /\ c_saved x' = F_wait l :: F_enable :: c_saved x
  end.
Proof.
  intros Hk Hl Hws Hlk Hheld Hx Hone. destruct (reach_sched _ _ Hk Hl) as [sq H].
  set (k1 := k <| isr_disabled := true |>).
  assert (Hi1 : sched_inv k1 (c :: tl) sq) by by apply sched_inv_isr.
  pose proof (sched_sleep _ _ _ _ _ H Hws) as <-.
  unfold context_wait_queue. rewrite (bind_run _ _ _ _ k1 eq_refl),
    (bind_run _ _ _ _ _ (current_run c k1 (proj1 (sched_current_ctx _ _ _ _ Hi1)))), (bind_run _ _ _ k1 k1 eq_refl),
    <-(chain_head _ _ _ (qi_sleep _ _ _ _ (si_q _ _ _ Hi1) q)).
  pose proof (enqueue_and_wait k1 c x tl sq q [] (sq q) l y [F_enable] Hi1 Hx eq_refl Hlk Hheld Hone) as Hs.
  destruct tl as [|h t]; [exact Hs|].
  destruct Hs as (k3 & Hk3 & Hi3 & _ & Hcur & (x3 & Hx3 & Hst & Hsv3) & _ & Hl3 & Hp3).
  exists k3. split_and!; auto.
  - by eapply sched_run.
  - pose proof (qi_sleep _ _ _ _ (si_q _ _ _ Hi3) q) as Hch. by rewrite sq_set_eq in Hch.
  - rewrite Hl3. apply lookup_insert_eq.
  - exists x3. by split_and!.
Qed.

Lemma wait_queue_releases_lock_witness :
  exists k', context_wait_queue 0%nat 7%nat [] (demo true) = Ok (tt, k')
      /\ run_list k' [3; 2; 0]%nat /\ sleep_list k' 7%nat [1%nat] /\ current_context k' = Some 3%nat
      /\ k_locks k' !! 0%nat = Some (Lock_ false 2 5) /\ pri k' 1%nat = 5
      /\ exists x', k_ctx k' !! 1%nat = Some x' /\ c_state x' = CONTEXT_SLEEP_QUEUE
           /\ c_saved x' = [F_wait 0%nat; F_enable].
Proof.
  refine (wait_queue_releases_lock (demo true) 1%nat [3; 2; 0]%nat 0%nat 7%nat (Lock_ true 2 5)
    (Context_ 2 CONTEXT_RUNNING (Some 3%nat) None 0 0 1 [] CONTEXT_READY) [] _ _ _ _ _ _ _);
    [apply demo_reach|apply demo_run_list|vm_compute; reflexivity..].
Defined.


(** Context 1 waited on queue 7 with lock 0 and was signalled by context 3, which
    then yielded. *)
Definition demo_woken : kernel :=
  match run_ops [K_wait_queue 0 7; K_resume; K_signal_queue 7; K_yield] (demo true) with Ok k => k | _ => boot end.

Lemma demo_woken_reach : kernel_reach demo_woken.
Proof.
  apply reach_ops; [apply demo_reach|]. vm_compute.
  repeat (split; try reflexivity; try exact I).
  - intros c x l fs y E1 E2 E3. simplify_eq.
  - intros c E h E'. by simplify_eq.
Qed.


(** C11: signalling a queue wakes exactly its first waiter, which goes into the run
    queue behind its equals with READY as the value its wait will return; an
    empty queue reports 0 and nothing changes.  A broadcast wakes them all. *)
Theorem signal_wakes_first k h t q ws :
  kernel_reach k -> run_list k (h :: t) -> sleep_list k q ws ->
  (forall c, c ∈ ws -> pri k h <= pri k c) ->
  match ws with
  | [] => context_signal_queue q k = Ok (0, k <| isr_disabled := false |>)
  | c :: ws' => exists k' l1 l2 x, context_signal_queue q k = Ok (1, k') /\ t = l1 ++ l2
      /\ run_list k' (h :: l1 ++ c :: l2) /\ sleep_list k' q ws'
      /\ k_ctx k' !! c = Some x /\ c_state x = CONTEXT_READY
      /\ Forall (fun d => pri k d <= pri k c) l1 /\ Forall (fun d => pri k c < pri k d) l2
  end
  /\ exists k' t', context_broadcast_queue q k = Ok (u8 (Z.of_nat (length ws)), k')
      /\ run_list k' (h :: t') /\ t' ≡ₚ ws ++ t /\ sleep_list k' q []
      /\ StronglySorted (fun c d => pri k c <= pri k d) (h :: t').
Proof.
  intros Hk Hl Hws Hp. destruct (reach_sched _ _ Hk Hl) as [sq H].
  pose proof (sched_sleep _ _ _ _ _ H Hws) as E. split.
  - pose proof (context_signal_queue_spec k h t sq q H) as Hs. rewrite E in Hs.
    assert (Hh : forall c, head ws = Some c -> pri k h <= pri k c) by (intros c Hc; apply Hp; by apply head_elem).
    specialize (Hs Hh). destruct ws as [|c ws]; [done|].
    destruct Hs as (k' & Hk' & _ & h' & l1 & l2 & x & [= <- ->] & Hi & Hx & Hst & _ & Hf1 & Hf2 & _).
    exists k', l1, l2, x. split_and!; auto; [by eapply sched_run|..].
    pose proof (qi_sleep _ _ _ _ (si_q _ _ _ Hi) q) as Hch. by rewrite sq_set_eq in Hch.
  - destruct (context_broadcast_queue_spec k h t sq q H) as (k' & t' & Hk' & Hi & Ht & Hpri & _);
      [rewrite E; by apply Forall_forall|]. rewrite E in *.
    exists k', t'. split_and!; auto; [by eapply sched_run|..].
    + pose proof (qi_sleep _ _ _ _ (si_q _ _ _ Hi) q) as Hch. by rewrite sq_set_eq in Hch.
    + eapply sorted_ext; [|exact (qi_sorted _ _ _ _ (si_q _ _ _ Hi))]. auto.
Qed.

Definition demo_waiting : kernel :=
  match run_ops [K_wait_queue 0 7; K_resume] (demo true) with Ok k => k | _ => boot end.

Lemma demo_waiting_reach : kernel_reach demo_waiting.
Proof.
  apply reach_ops; [apply demo_reach|]. vm_compute.
  repeat (split; try reflexivity; try exact I). intros c x l fs y E1 E2 E3. simplify_eq.
Qed.

Lemma signal_wakes_first_witness :
  (exists k' l1 l2 x, context_signal_queue 7%nat demo_waiting = Ok (1, k') /\ [2; 0]%nat = l1 ++ l2
      /\ run_list k' (3%nat :: l1 ++ 1%nat :: l2) /\ sleep_list k' 7%nat []
      /\ k_ctx k' !! 1%nat = Some x /\ c_state x = CONTEXT_READY
      /\ Forall (fun d => pri demo_waiting d <= pri demo_waiting 1%nat) l1
      /\ Forall (fun d => pri demo_waiting 1%nat < pri demo_waiting d) l2)
  /\ exists k' t', context_broadcast_queue 7%nat demo_waiting = Ok (1, k')
      /\ run_list k' (3%nat :: t') /\ t' ≡ₚ [1; 2; 0]%nat /\ sleep_list k' 7%nat []
      /\ StronglySorted (fun c d => pri demo_waiting c <= pri demo_waiting d) (3%nat :: t').
Proof.
  refine (signal_wakes_first demo_waiting 3%nat [2; 0]%nat 7%nat [1%nat] _ _ _ _).
  - apply demo_waiting_reach.
  - vm_compute; repeat (split; [reflexivity|]; eexists; split; [reflexivity|]); reflexivity.
  - vm_compute; repeat (split; [reflexivity|]; eexists; split; [reflexivity|]); reflexivity.
  - intros c ->%list_elem_of_singleton. vm_compute. congruence.
Defined.

(** C12: misuse of a lock halts the machine at the debug check that finds it,
    instead of corrupting the kernel: locking a lock that is held, locking below
    the lock's own priority, releasing or waiting with a lock that is free, and
    waiting while another lock is held. *)
Theorem lock_misuse_halts k c x l y :
  current_context k = Some c -> k_ctx k !! c = Some x -> k_locks k !! l = Some y -> isr_disabled k = false ->
  (c_priority x < l_pri_locked y -> spinlock_lock l k = Stop "spllk pri")
  /\ (l_lock y = true -> l_pri_locked y <= c_priority x -> spinlock_lock l k = Stop "spllk already held")
  /\ (l_lock y = false -> spinlock_unlock l k = Stop "splun not held")
  /\ (l_lock y = false -> context_wait l [] k = Stop "cw lock not held")
  /\ (l_lock y = true -> 1 < c_spinlocks_held x < 256 -> context_wait l [] k = Stop "context_wait: locks held!").
Proof.
  intros Hc Hx Hl Hisr. set (k1 := k <| isr_disabled := true |>).
  assert (Hd : debug_assert_isr false k = Ok (tt, k)) by (unfold debug_assert_isr; by rewrite Hisr).
  assert (Hc1 := current_run c k1 Hc). assert (Hx1 := ctx_run c x k1 Hx). assert (Hl1 := lk_run l y k1 Hl).
  unfold spinlock_lock, spinlock_unlock, context_wait, release_lock, isr_context_wait_.
  rewrite !(bind_run _ _ _ _ _ Hd), !(bind_run _ _ _ _ k1 eq_refl), !(bind_run _ _ _ _ _ Hl1),
    (bind_run _ _ _ _ _ Hc1), (bind_run _ _ _ _ _ Hx1).
  split_and!.
  - intros Hp. by replace (c_priority x <? l_pri_locked y) with true by lia.
  - intros Hh Hp. replace (c_priority x <? l_pri_locked y) with false by lia.
    rewrite (bind_run _ _ _ _ k1 eq_refl). unfold take_lock. apply bind_stop.
    rewrite (bind_run _ _ _ _ _ Hl1), (bind_run _ _ _ _ _ Hc1), (bind_run _ _ _ _ _ Hx1).
    erewrite bind_run; [|reflexivity]. erewrite bind_run; [|reflexivity]. rewrite Hh. done.
  - intros Hh. apply bind_stop. rewrite (bind_run _ _ _ _ _ Hl1). by rewrite Hh.
  - intros Hh. by rewrite Hh.
  - intros Hh Hn. rewrite Hh. rewrite (bind_run _ _ _ _ k1 eq_refl).
    set (k2 := k1 <| k_locks := <[l := y <| l_lock := false |>]> (k_locks k1) |>).
    rewrite (bind_run _ _ _ _ k2 eq_refl), (bind_run _ _ _ _ _ (current_run c k2 Hc)),
      (bind_run _ _ _ _ _ (mod_ctx_run c _ x k2 Hx)).
    erewrite bind_run; [|apply ctx_run, lookup_insert_eq]. cbn.
    rewrite u8_small by lia. by replace (c_spinlocks_held x - 1 =? 0) with false by lia.
Qed.

Lemma lock_misuse_halts_witness :
  spinlock_lock 0%nat (demo true) = Stop "spllk already held".
Proof.
  apply (lock_misuse_halts (demo true) 1%nat
    (Context_ 2 CONTEXT_RUNNING (Some 3%nat) None 0 0 1 [] CONTEXT_READY) 0%nat (Lock_ true 2 5));
    vm_compute; congruence.
Defined.
