(* ===== verification/Sync.v ===== *)
(** * Semaphores, reader-writer locks and condition variables
    (src/lib/sem, src/lib/rwlock, src/lib/condvar)

    Each object is a record of its fields next to the kernel state of Context.v;
    its lock and its sleep queues are named by identifiers.  An operation that
    blocks leaves [F_unlock] on the caller's stack: after the wait the caller
    releases the object's lock, which [resume] executes. *)

From stdpp Require Import base list gmap fin_maps strings sorting.
From Stdlib Require Import ZArith Lia.
From S2P Require Import Prelude Context Sched Kernel.
Open Scope Z_scope.

(** ** Computations on an object and the kernel *)

Definition SM (S A : Type) : Type := S -> kernel -> res (A * S * kernel).
#[export] Instance SM_ret S : MRet (SM S) := fun A a s k => Ok (a, s, k).
#[export] Instance SM_bind S : MBind (SM S) := fun A B f m s k =>
  match m s k with Ok (a, s', k') => f a s' k' | Stop w => Stop w | Fuel => Fuel end.

Definition lift {S A} (m : M A) : SM S A := fun s k =>
  match m k with Ok (a, k') => Ok (a, s, k') | Stop w => Stop w | Fuel => Fuel end.
Definition obj {S} : SM S S := fun s k => Ok (s, s, k).
Definition upd {S} (f : S -> S) : SM S unit := fun s k => Ok (tt, f s, k).
Definition sm_stop {S A} (why : string) : SM S A := fun _ _ => Stop why.

(** [s8_t]. *)
Definition s8 (z : Z) : Z := (z + 128) mod 256 - 128.

Lemma s8_small z : -128 <= z <= 127 -> s8 z = z.
Proof. intros H. unfold s8. rewrite Z.mod_small by lia. lia. Qed.

(** ** sem.c *)
Module Sem.

Record sem := Sem_ {
  s_lock : lid;
  s_sleep_queue : qid;
  s_count : Z }.
#[export] Instance eta_sem : Eta sem := fun s => Sem_ (s_lock s) (s_sleep_queue s) (s_count s).

(** [Some r] when the call returns [r], [None] when the caller was put to sleep
    (its return value is then [c_ret] at its resumption). *)
Definition sem_wait : SM sem (option Z) :=
  s ← obj;
  lift (spinlock_lock (s_lock s));;
  upd (fun s => s <| s_count := s8 (s_count s - 1) |>);;
  s ← obj;
  if 0 <=? s_count s then
    lift (spinlock_unlock (s_lock s));;
    mret (Some CONTEXT_READY)
  else
    lift (context_wait_pri_queue (s_lock s) (s_sleep_queue s) [F_unlock (s_lock s)]);;
    mret None.

Definition sem_post : SM sem unit :=
  s ← obj;
  lift (spinlock_lock (s_lock s));;
  upd (fun s => s <| s_count := s8 (s_count s + 1) |>);;
  s ← obj;
  (if s_count s <=? 0 then lift (context_signal_queue (s_sleep_queue s);; mret tt) else mret tt);;
  lift (spinlock_unlock (s_lock s)).

Definition sem_interrupt (c : cid) : SM sem unit :=
  s ← obj;
  lift (spinlock_lock (s_lock s));;
  lift (context_interrupt_queue c (s_sleep_queue s));;
  lift (spinlock_unlock (s_lock s)).

Definition sem_get_count : SM sem Z :=
  s ← obj;
  lift (spinlock_lock (s_lock s));;
  s ← obj;
  let res := s_count s in
  lift (spinlock_unlock (s_lock s));;
  mret res.

Definition sem_init (pri count : Z) : SM sem unit :=
  s ← obj;
  lift (write_slot (S_queue (s_sleep_queue s)) None);;
  lift (spinlock_init (s_lock s) pri);;
  upd (fun s => s <| s_count := count |>).

End Sem.

(** ** rwlock.c *)
Module Rwlock.

Record rwlock := Rwlock_ {
  rwl_lock : lid;
  rwl_read_sleep_queue : qid;
  rwl_write_sleep_queue : qid;
  rwl_readers : Z;
  rwl_writers : Z }.
#[export] Instance eta_rwlock : Eta rwlock := fun r =>
  Rwlock_ (rwl_lock r) (rwl_read_sleep_queue r) (rwl_write_sleep_queue r) (rwl_readers r) (rwl_writers r).

Definition head_of {S} (q : qid) : SM S (option cid) := fun s k => Ok (queue_head q k, s, k).

Definition rwlock_lock_read : SM rwlock (option Z) :=
  r ← obj;
  lift (spinlock_lock (rwl_lock r));;
  h ← head_of (rwl_write_sleep_queue r);
  if (rwl_writers r =? 0) && bool_decide (h = None) then
    upd (fun r => r <| rwl_readers := u8 (rwl_readers r + 1) |>);;
    lift (spinlock_unlock (rwl_lock r));;
    mret (Some CONTEXT_READY)
  else
    lift (context_wait_queue (rwl_lock r) (rwl_read_sleep_queue r) [F_unlock (rwl_lock r)]);;
    mret None.

Definition rwlock_lock_write : SM rwlock (option Z) :=
  r ← obj;
  lift (spinlock_lock (rwl_lock r));;
  if (rwl_writers r =? 0) && (rwl_readers r =? 0) then
    upd (fun r => r <| rwl_writers := u8 (rwl_writers r + 1) |>);;
    lift (spinlock_unlock (rwl_lock r));;
    mret (Some CONTEXT_READY)
  else
    lift (context_wait_pri_queue (rwl_lock r) (rwl_write_sleep_queue r) [F_unlock (rwl_lock r)]);;
    mret None.

Definition rwlock_unlock_read : SM rwlock unit :=
  r ← obj;
  lift (spinlock_lock (rwl_lock r));;
  if rwl_readers r =? 0 then sm_stop "rwl_unl_rd: not holding"
  else
    upd (fun r => r <| rwl_readers := u8 (rwl_readers r - 1) |>);;
    r ← obj;
    (if rwl_readers r =? 0 then
       w ← lift (context_signal_queue (rwl_write_sleep_queue r));
       upd (fun r => r <| rwl_writers := w |>)
     else mret tt);;
    lift (spinlock_unlock (rwl_lock r)).

Definition rwlock_unlock_write : SM rwlock unit :=
  r ← obj;
  lift (spinlock_lock (rwl_lock r));;
  if rwl_writers r =? 0 then sm_stop "rwl_unl_wr: not holding"
  else
    w ← lift (context_signal_queue (rwl_write_sleep_queue r));
    (if w =? 0 then
       n ← lift (context_broadcast_queue (rwl_read_sleep_queue r));
       upd (fun r => r <| rwl_readers := n |>)
     else mret tt);;
    lift (spinlock_unlock (rwl_lock r)).

Definition rwlock_interrupt (c : cid) : SM rwlock unit :=
  r ← obj;
  lift (spinlock_lock (rwl_lock r));;
  w ← lift (context_interrupt_queue c (rwl_write_sleep_queue r));
  (if w =? 0 then lift (context_interrupt_queue c (rwl_read_sleep_queue r));; mret tt else mret tt);;
  lift (spinlock_unlock (rwl_lock r)).

Definition rwlock_init (pri : Z) : SM rwlock unit :=
  r ← obj;
  lift (write_slot (S_queue (rwl_read_sleep_queue r)) None);;
  lift (write_slot (S_queue (rwl_write_sleep_queue r)) None);;
  lift (spinlock_init (rwl_lock r) pri);;
  upd (fun r => r <| rwl_readers := 0 |>).

End Rwlock.

(** ** condvar.c *)
Module Condvar.

Record condvar := Condvar_ {
  c_lock : lid;
  c_sleep_queue : qid }.

(** The caller holds [c_lock]; [fs] are its return points. *)
Definition condvar_wait (cv : condvar) (fs : list frame) : M unit :=
  context_wait_pri_queue (c_lock cv) (c_sleep_queue cv) fs.

Definition condvar_signal (cv : condvar) : M unit := context_signal_queue (c_sleep_queue cv);; mret tt.

Definition condvar_broadcast (cv : condvar) : M unit := context_broadcast_queue (c_sleep_queue cv);; mret tt.

Definition condvar_interrupt (cv : condvar) (c : cid) : M unit :=
  context_interrupt_queue c (c_sleep_queue cv);; mret tt.

Definition condvar_init (q : qid) (l : lid) : M condvar :=
  write_slot (S_queue q) None;;
  mret (Condvar_ l q).

End Condvar.

(** ** A critical section of the object's lock *)

(** The running context [c] may enter the section of lock [l]. *)
Record may_lock (k : kernel) (c : cid) (tl : list cid) (sq : qid -> list cid) (l : lid) (y : lock) (x : context) : Prop := {
  ml_sched : sched_inv k (c :: tl) sq;
  ml_isr : isr_disabled k = false;
  ml_lock : k_locks k !! l = Some y;
  ml_free : l_lock y = false;
  ml_ctx : k_ctx k !! c = Some x;
  ml_pri : l_pri_locked y <= c_priority x }.

(** [c] is inside it. *)
Record in_section (k : kernel) (c : cid) (tl : list cid) (sq : qid -> list cid) (l : lid) (y : lock) (x : context) : Prop := {
  is_sched : sched_inv k (c :: tl) sq;
  is_isr : isr_disabled k = false;
  is_lock : k_locks k !! l = Some (Lock_ true (l_pri_locked y) (c_priority x));
  is_pri : pri k c = l_pri_locked y;
  is_ge : l_pri_locked y <= c_priority x;
  is_held : exists x', k_ctx k !! c = Some x' /\ c_spinlocks_held x' = u8 (c_spinlocks_held x + 1)
              /\ c_saved x' = c_saved x }.

Lemma spinlock_lock_spec k c tl sq l y x :
  may_lock k c tl sq l y x ->
  exists k', spinlock_lock l k = Ok (tt, k') /\ in_section k' c tl sq l y x
    /\ (forall d, d <> c -> pri k' d = pri k d).
Proof.
  intros [Hinv Hisr Hl Hf Hx Hp]. destruct (sched_current_ctx _ _ _ _ Hinv) as [Hc _].
  set (k1 := k <| isr_disabled := true |>).
  set (k2 := k1 <| k_locks := <[l := y <| l_pri_unlocked := c_priority x |>]> (k_locks k1) |>).
  set (x2 := x <| c_priority := l_pri_locked y |> <| c_spinlocks_held := u8 (c_spinlocks_held x + 1) |>).
  set (k3 := k2 <| k_ctx := <[c := x2]> (k_ctx k2) |>).
  set (k4 := k3 <| k_locks := <[l := Lock_ true (l_pri_locked y) (c_priority x)]> (k_locks k3) |>).
  assert (Hl3 : k_locks k3 !! l = Some (y <| l_pri_unlocked := c_priority x |>)) by apply lookup_insert_eq.
  assert (Hd : debug_assert_isr false k = Ok (tt, k)) by (unfold debug_assert_isr; by rewrite Hisr).
  assert (Ht : take_lock l (l_pri_locked y) "spllk already held" k1 = Ok (tt, k4)).
  { unfold take_lock. rewrite (bind_run _ _ _ _ _ (lk_run l y k1 Hl)), (bind_run _ _ _ _ _ (current_run c k1 Hc)),
      (bind_run _ _ _ _ _ (ctx_run c x k1 Hx)), (bind_run _ _ _ _ k2 eq_refl), (bind_run _ _ _ _ k3 eq_refl), Hf.
    by rewrite (bind_run _ _ _ _ k3 eq_refl), (bind_run _ _ _ _ _ (lk_run l _ k3 Hl3)). }
  assert (Hi4 : sched_inv k4 (c :: tl) sq).
  { eapply (take_lock_inv k1); [by apply sched_inv_isr| |exact Ht]. unfold pri. cbn. rewrite Hx. exact Hp. }
  exists (k4 <| isr_disabled := false |>). split.
  - unfold spinlock_lock. run_with Hd. rewrite (bind_run _ _ _ _ k1 eq_refl), (bind_run _ _ _ _ _ (lk_run l y k1 Hl)),
      (bind_run _ _ _ _ _ (current_run c k1 Hc)), (bind_run _ _ _ _ _ (ctx_run c x k1 Hx)).
    replace (c_priority x <? l_pri_locked y) with false by lia.
    by rewrite (bind_run _ _ _ _ k1 eq_refl), (bind_run _ _ _ _ _ Ht).
  - split.
    + split; auto; [by apply sched_inv_isr|apply lookup_insert_eq| |].
      * unfold pri. cbn. by rewrite lookup_insert_eq.
      * exists x2. split; [apply lookup_insert_eq|done].
    + intros d Hd'. unfold pri. cbn. by rewrite lookup_insert_ne.
Qed.

(** Leaving the section: the lock is free, the context has its priority back, and
    the head of the run queue runs. *)
Lemma spinlock_unlock_spec k c tl sq l y x :
  in_section k c tl sq l y x ->
  exists k' l1 l2, spinlock_unlock l k = Ok (tt, k') /\ sched_inv k' (l1 ++ c :: l2) sq /\ tl = l1 ++ l2
    /\ k_locks k' !! l = Some (Lock_ false (l_pri_locked y) (c_priority x))
    /\ pri k' c = c_priority x /\ (forall d, d <> c -> pri k' d = pri k d)
    /\ Forall (fun d => pri k d < c_priority x) l1.
Proof.
  intros [Hinv Hisr Hl Hp Hge Hx]. set (k1 := k <| isr_disabled := true |>).
  destruct (release_lock_spec k1 c tl sq l (Lock_ true (l_pri_locked y) (c_priority x)) "splun not held" "splun pri" [F_enable])
    as (b & k2 & l1 & l2 & Hk2 & Hi & Et & _ & Hl2 & Hp2 & Ho & Hf & _); auto.
  { by apply sched_inv_isr. }
  { change (pri k1 c) with (pri k c). cbn. lia. }
  assert (Hd : debug_assert_isr false k = Ok (tt, k)) by (unfold debug_assert_isr; by rewrite Hisr).
  unfold spinlock_unlock. run_with Hd. rewrite (bind_run _ _ _ _ k1 eq_refl), (bind_run _ _ _ _ _ Hk2).
  assert (Hl2' : k_locks k2 !! l = Some (Lock_ false (l_pri_locked y) (c_priority x))) by (rewrite Hl2; apply lookup_insert_eq).
  destruct b; eexists _, l1, l2; (split; [done|]); split_and!; auto. by apply sched_inv_isr.
Qed.

(** Nobody became more urgent: the context goes on running. *)
Lemma unlock_quiet k c tl sq l y x :
  in_section k c tl sq l y x -> Forall (fun d => c_priority x <= pri k d) tl ->
  exists k', spinlock_unlock l k = Ok (tt, k') /\ sched_inv k' (c :: tl) sq
    /\ k_locks k' !! l = Some (Lock_ false (l_pri_locked y) (c_priority x)) /\ pri k' c = c_priority x.
Proof.
  intros H Hf. destruct (spinlock_unlock_spec _ _ _ _ _ _ _ H) as (k' & l1 & l2 & Hk' & Hi & -> & Hl & Hp & _ & Hf1).
  exists k'. split; [done|]. destruct l1 as [|d l1]; [done|]. cbn in Hf.
  apply Forall_cons in Hf as [Hd _], Hf1 as [Hd' _]. lia.
Qed.

Lemma may_lock_tail k c tl sq l y x : may_lock k c tl sq l y x -> Forall (fun d => c_priority x <= pri k d) tl.
Proof.
  intros H. apply Forall_forall. intros d Hd.
  pose proof (sorted_head_le _ _ _ d (qi_sorted _ _ _ _ (si_q _ _ _ (ml_sched _ _ _ _ _ _ _ H))) Hd) as E.
  unfold pri at 1 in E. by rewrite (ml_ctx _ _ _ _ _ _ _ H) in E.
Qed.

Lemma tail_frame k k' c tl sq l y x :
  may_lock k c tl sq l y x -> (forall d, d <> c -> pri k' d = pri k d) -> Forall (fun d => c_priority x <= pri k' d) tl.
Proof.
  intros H Hp. pose proof (may_lock_tail _ _ _ _ _ _ _ H) as Hf. rewrite Forall_forall in *.
  intros d Hd. rewrite Hp; [auto|]. intros ->.
  destruct (sched_moving _ _ _ _ (ml_sched _ _ _ _ _ _ _ H)) as (z & _ & Hc & _). done.
Qed.

(** Waiting inside the section on a priority queue: behind the waiters at least as
    urgent as the caller. *)
Lemma section_wait_pri_queue k c tl sq l y x q fs :
  in_section k c tl sq l y x -> c_spinlocks_held x = 0 ->
  match tl with
  | [] => context_wait_pri_queue l q fs k = Stop "run queue empty"
  | h :: _ => exists k' l1 l2, context_wait_pri_queue l q fs k = Ok (tt, k') /\ sq q = l1 ++ l2
    /\ sched_inv k' tl (sq_set sq q (l1 ++ c :: l2)) /\ current_context k' = Some h
    /\ k_locks k' !! l = Some (Lock_ false (l_pri_locked y) (c_priority x)) /\ pri k' c = c_priority x
    /\ (exists x', k_ctx k' !! c = Some x' /\ c_state x' = CONTEXT_SLEEP_QUEUE
          /\ c_saved x' = F_wait l :: F_enable :: fs ++ c_saved x)
    /\ (forall d, d <> c -> pri k' d = pri k d)
    /\ Forall (fun d => pri k d <= c_priority x) l1
    /\ (forall d, head l2 = Some d -> c_priority x < pri k d)
  end.
Proof.
  intros [Hinv Hisr Hl Hp Hge (x1 & Hx1 & Hh1 & Hsv)] Hh. set (k1 := k <| isr_disabled := true |>).
  assert (Hi1 : sched_inv k1 (c :: tl) sq) by by apply sched_inv_isr.
  destruct (sched_current_ctx _ _ _ _ Hi1) as [Hc _].
  pose proof (qi_sleep _ _ _ _ (si_q _ _ _ Hi1) q) as Hch.
  destruct (queue_walk_spec (fun _ z => c_priority z <=? c_priority x) Sleep k1 _ (S_queue q) _ Hch)
    as (l1 & l2 & E & Hw & Hf & Hn).
  unfold context_wait_pri_queue. rewrite (bind_run _ _ _ _ k1 eq_refl), (bind_run _ _ _ _ _ (lk_run l _ k1 Hl)).
  cbn [l_pri_unlocked]. rewrite (bind_run _ _ _ k1 k1 eq_refl), (bind_run _ _ _ _ _ Hw), (bind_run _ _ _ _ _ (current_run c k1 Hc)).
  rewrite Hh in Hh1.
  pose proof (enqueue_and_wait k1 c x1 tl sq q l1 l2 l _ (F_enable :: fs) Hi1 Hx1 E Hl eq_refl Hh1) as Hs.
  destruct tl as [|h t]; [exact Hs|].
  destruct Hs as (k3 & Hk3 & Hi3 & _ & Hcur & (x3 & Hx3 & Hst & Hsv3) & Hpri & Hl3 & Hp3).
  exists k3, l1, l2. split_and!; auto.
  - rewrite Hl3. apply lookup_insert_eq.
  - exists x3. split_and!; auto. rewrite Hsv3, Hsv. done.
  - eapply Forall_impl; [exact Hf|]. intros d (z & Hz & Hle). unfold pri. change (k_ctx k) with (k_ctx k1).
    rewrite Hz. cbn. lia.
  - intros d Hd. destruct (chain_dom _ _ _ _ d Hch) as [z Hz]; [apply head_elem in Hd; rewrite E; set_solver|].
    specialize (Hn d z Hd Hz). cbn in Hn. unfold pri. change (k_ctx k) with (k_ctx k1). rewrite Hz. cbn. lia.
Qed.

Lemma section_kept k k' c tl tl' sq sq' l y x :
  in_section k c tl sq l y x -> sched_inv k' (c :: tl') sq' -> isr_disabled k' = false ->
  k_locks k' = k_locks k -> same_stacks k k' -> (forall d, pri k' d = pri k d) -> in_section k' c tl' sq' l y x.
Proof.
  intros [H1 H2 H3 H4 H5 (x1 & Hx1 & Hh & Hsv)] Hi Hisr Hl Hs Hp. split; auto; [by rewrite Hl|by rewrite Hp|].
  destruct (Hs c x1 Hx1) as (x2 & Hx2 & E1 & E2). exists x2. split_and!; congruence.
Qed.

(** Signalling inside the section of the lock the waiters wait with. *)
Lemma section_signal k c tl sq l y x q :
  in_section k c tl sq l y x -> Forall (fun d => l_pri_locked y <= pri k d) (sq q) ->
  match sq q with
  | [] => exists k', context_signal_queue q k = Ok (0, k') /\ in_section k' c tl sq l y x /\ (forall d, pri k' d = pri k d)
  | w :: ws => exists k' l1 l2, context_signal_queue q k = Ok (1, k') /\ tl = l1 ++ l2
      /\ in_section k' c (l1 ++ w :: l2) (sq_set sq q ws) l y x /\ (forall d, pri k' d = pri k d)
  end.
Proof.
  intros Hs Hf. pose proof (context_signal_queue_spec k c tl sq q (is_sched _ _ _ _ _ _ _ Hs)) as H.
  assert (Hh : forall d, head (sq q) = Some d -> pri k c <= pri k d).
  { intros d Hd. rewrite (is_pri _ _ _ _ _ _ _ Hs). rewrite Forall_forall in Hf. apply Hf. by apply head_elem. }
  specialize (H Hh). destruct (sq q) as [|w ws].
  - eexists. split; [exact H|]. split; [|done].
    eapply section_kept; [exact Hs|apply sched_inv_isr, Hs|done|done|exact (same_stacks_refl k)|done].
  - destruct H as (k' & Hk' & Hisr & h & l1 & l2 & z & [= <- ->] & Hi & _ & _ & Hp & _ & _ & Hl & Hss).
    exists k', l1, l2. split_and!; auto. by eapply section_kept.
Qed.

Lemma section_interrupt k c tl sq l y x q w :
  in_section k c tl sq l y x -> l_pri_locked y <= pri k w ->
  (w ∉ sq q /\ exists k', context_interrupt_queue w q k = Ok (0, k') /\ in_section k' c tl sq l y x
      /\ (forall d, pri k' d = pri k d))
  \/ exists k' l1 l2 w1 w2, sq q = w1 ++ w :: w2 /\ context_interrupt_queue w q k = Ok (1, k') /\ tl = l1 ++ l2
      /\ in_section k' c (l1 ++ w :: l2) (sq_set sq q (w1 ++ w2)) l y x /\ (forall d, pri k' d = pri k d).
Proof.
  intros Hs Hf. rewrite <-(is_pri _ _ _ _ _ _ _ Hs) in Hf.
  destruct (context_interrupt_queue_spec k c tl sq q w (is_sched _ _ _ _ _ _ _ Hs) Hf)
    as [[Hn Hk']|(k' & w1 & w2 & E & Hk' & Hisr & h & l1 & l2 & z & [= <- ->] & Hi & _ & _ & Hp & _ & _ & Hl & Hss)].
  - left. split; [done|]. eexists. split; [exact Hk'|]. split; [|done].
    eapply section_kept; [exact Hs|apply sched_inv_isr, Hs|done|done|exact (same_stacks_refl k)|done].
  - right. exists k', l1, l2, w1, w2. split_and!; auto. by eapply section_kept.
Qed.

Lemma section_broadcast k c tl sq l y x q :
  in_section k c tl sq l y x -> Forall (fun d => l_pri_locked y <= pri k d) (sq q) ->
  exists k' tl', context_broadcast_queue q k = Ok (u8 (Z.of_nat (length (sq q))), k') /\ tl' ≡ₚ sq q ++ tl
      /\ in_section k' c tl' (sq_set sq q []) l y x /\ (forall d, pri k' d = pri k d).
Proof.
  intros Hs Hf. rewrite <-(is_pri _ _ _ _ _ _ _ Hs) in Hf.
  destruct (context_broadcast_queue_spec k c tl sq q (is_sched _ _ _ _ _ _ _ Hs) Hf)
    as (k' & t' & Hk' & Hi & Ht & Hp & Hisr & Hl & Hss).
  exists k', t'. split_and!; auto. by eapply section_kept.
Qed.

(** ** Running object computations *)

Lemma lift_run {S A} (m : M A) (s : S) k a k' : m k = Ok (a, k') -> lift m s k = Ok (a, s, k').
Proof. unfold lift. by intros ->. Qed.

Lemma sm_bind_run {S A B} (m : SM S A) (f : A -> SM S B) s k a s' k' :
  m s k = Ok (a, s', k') -> (m ≫= f) s k = f a s' k'.
Proof. unfold mbind, SM_bind. by intros ->. Qed.

Lemma obj_bind {S B} (f : S -> SM S B) s k : (obj ≫= f) s k = f s s k.
Proof. done. Qed.

Lemma lift_bind {S A B} (m : M A) (f : A -> SM S B) s k a k' :
  m k = Ok (a, k') -> (lift m ≫= f) s k = f a s k'.
Proof. intros H. by apply sm_bind_run, lift_run. Qed.

(** The running context may use an object guarded by lock [l]: it holds no lock
    and is no more urgent than the lock's priority allows. *)
Definition can_enter (k : kernel) (c : cid) (tl : list cid) (l : lid) : Prop :=
  ordered k /\ run_list k (c :: tl) /\ isr_disabled k = false
  /\ exists y x, k_locks k !! l = Some y /\ l_lock y = false /\ k_ctx k !! c = Some x
       /\ l_pri_locked y <= c_priority x /\ c_spinlocks_held x = 0.

(** The sleepers on [q], waiting with lock [l], whose priority is at least as
    urgent as theirs. *)
Definition waiters (k : kernel) (l : lid) (q : qid) (ws : list cid) : Prop :=
  sleep_list k q ws /\ exists y, k_locks k !! l = Some y /\ l_lock y = false
    /\ Forall (fun w => l_pri_locked y <= pri k w) ws.

Lemma can_enter_may_lock k c tl l :
  can_enter k c tl l -> exists sq y x, may_lock k c tl sq l y x /\ c_spinlocks_held x = 0.
Proof.
  intros ((rq & sq & H) & Hrl & Hisr & y & x & Hl & Hf & Hx & Hp & Hh).
  pose proof (chain_fun _ _ _ _ Hrl (qi_run _ _ _ _ (si_q _ _ _ H))) as <-. exists sq, y, x. by split.
Qed.

Lemma may_lock_waiters k c tl sq l y x q ws :
  may_lock k c tl sq l y x -> waiters k l q ws ->
  sq q = ws /\ c ∉ ws /\ Forall (fun w => l_pri_locked y <= pri k w) ws.
Proof.
  intros Hm (Hs & y' & Hl & _ & Hf). pose proof (ml_lock _ _ _ _ _ _ _ Hm). simplify_eq.
  pose proof (sched_sleep _ _ _ _ _ (ml_sched _ _ _ _ _ _ _ Hm) Hs) as <-. split_and!; auto.
  destruct (sched_moving _ _ _ _ (ml_sched _ _ _ _ _ _ _ Hm)) as (z & _ & _ & Hc). apply Hc.
Qed.

Lemma sched_waiters k rq sq l q p u ws :
  sched_inv k rq sq -> k_locks k !! l = Some (Lock_ false p u) -> sq q = ws ->
  Forall (fun w => p <= pri k w) ws -> waiters k l q ws.
Proof.
  intros Hi Hl <- Hf. split; [apply (qi_sleep _ _ _ _ (si_q _ _ _ Hi))|]. by exists (Lock_ false p u).
Qed.

Lemma Forall_pri_frame k k' p c ws :
  c ∉ ws -> (forall d, d <> c -> pri k' d = pri k d) ->
  Forall (fun w => p <= pri k w) ws -> Forall (fun w => p <= pri k' w) ws.
Proof.
  intros Hc Hp. rewrite !Forall_forall. intros Hf w Hw. rewrite Hp; [auto|]. intros ->. done.
Qed.

(** Entering the section of a lock with the waiters [ws] on [q]. *)
Lemma enter_section k c tl l q ws :
  can_enter k c tl l -> waiters k l q ws ->
  exists sq y x k1, may_lock k c tl sq l y x /\ c_spinlocks_held x = 0 /\ spinlock_lock l k = Ok (tt, k1)
    /\ in_section k1 c tl sq l y x /\ (forall d, d <> c -> pri k1 d = pri k d)
    /\ sq q = ws /\ c ∉ ws /\ Forall (fun w => l_pri_locked y <= pri k1 w) ws.
Proof.
  intros Hce Hw. destruct (can_enter_may_lock _ _ _ _ Hce) as (sq & y & x & Hm & Hh).
  destruct (may_lock_waiters _ _ _ _ _ _ _ _ _ Hm Hw) as (Esq & Hcw & Hf).
  destruct (spinlock_lock_spec _ _ _ _ _ _ _ Hm) as (k1 & Hk1 & Hs1 & Hp1).
  exists sq, y, x, k1. split_and!; auto. by eapply (Forall_pri_frame k).
Qed.

(** Signalling and leaving: the first waiter, if there is one, is moved to the run queue. *)
Lemma signal_unlock k k1 c tl sq l y x q ws :
  may_lock k c tl sq l y x -> in_section k1 c tl sq l y x -> (forall d, d <> c -> pri k1 d = pri k d) ->
  sq q = ws -> c ∉ ws -> Forall (fun w => l_pri_locked y <= pri k1 w) ws ->
  exists k2 k3 rq, context_signal_queue q k1 = Ok (match ws with [] => 0 | _ => 1 end, k2)
    /\ spinlock_unlock l k2 = Ok (tt, k3) /\ ordered k3 /\ run_list k3 rq /\ waiters k3 l q (tail ws)
    /\ match ws with [] => rq = c :: tl | w :: _ => rq ≡ₚ w :: c :: tl end.
Proof.
  intros Hm Hs Hp <- Hc Hf. pose proof (section_signal _ _ _ _ _ _ _ _ Hs Hf) as Hsig. destruct (sq q) as [|w ws] eqn:E.
  - destruct Hsig as (k2 & Hk2 & Hs2 & Hp2). destruct (unlock_quiet _ _ _ _ _ _ _ Hs2) as (k3 & Hk3 & Hi3 & Hl3 & _).
    { eapply tail_frame; [exact Hm|]. intros d Hd. rewrite Hp2. auto. }
    exists k2, k3, (c :: tl). split_and!; [done..|by eexists _, _|by eapply sched_run|by eapply sched_waiters|done].
  - destruct Hsig as (k2 & l1 & l2 & Hk2 & -> & Hs2 & Hp2).
    destruct (spinlock_unlock_spec _ _ _ _ _ _ _ Hs2) as (k3 & m1 & m2 & Hk3 & Hi3 & Em & Hl3 & _ & Ho3 & _).
    apply not_elem_of_cons in Hc as [_ Hc]. apply Forall_cons in Hf as [_ Hf].
    exists k2, k3, (m1 ++ c :: m2). split_and!; [done..|by eexists _, _|by eapply sched_run| |].
    + eapply sched_waiters; [exact Hi3|exact Hl3|apply sq_set_eq|].
      eapply (Forall_pri_frame k1); [done| |done]. intros d Hd. by rewrite Ho3, Hp2.
    + rewrite <-Permutation_middle, <-Em, <-Permutation_middle. by rewrite perm_swap.
Qed.

(** Sleeping on [q]: behind the waiters that are at least as urgent as the caller. *)
Lemma sleep_section k k1 c tl sq l y x q ws :
  may_lock k c tl sq l y x -> in_section k1 c tl sq l y x -> (forall d, d <> c -> pri k1 d = pri k d) ->
  c_spinlocks_held x = 0 -> sq q = ws -> c ∉ ws -> Forall (fun w => l_pri_locked y <= pri k1 w) ws -> tl <> [] ->
  exists k2 l1 l2, context_wait_pri_queue l q [F_unlock l] k1 = Ok (tt, k2) /\ ordered k2 /\ run_list k2 tl
    /\ ws = l1 ++ l2 /\ waiters k2 l q (l1 ++ c :: l2)
    /\ Forall (fun d => pri k d <= pri k c) l1 /\ (forall d, head l2 = Some d -> pri k c < pri k d).
Proof.
  intros Hm Hs Hp Hh <- Hc Hf Htl. pose proof (section_wait_pri_queue k1 c tl sq l y x q [F_unlock l] Hs Hh) as Hq.
  assert (Hpc : pri k c = c_priority x) by (unfold pri; by rewrite (ml_ctx _ _ _ _ _ _ _ Hm)).
  destruct tl as [|h t]; [done|]. destruct Hq as (k2 & l1 & l2 & Hk2 & E & Hi2 & _ & Hl2 & Hp2 & _ & Hoth & Hf1 & Hf2).
  rewrite E in *. assert (Hpr : forall d, d ∈ l1 ++ l2 -> pri k1 d = pri k d) by (intros d Hd; apply Hp; by intros ->).
  exists k2, l1, l2. split_and!; [done|by eexists _, _|by eapply sched_run|done| | |].
  - eapply sched_waiters; [exact Hi2|exact Hl2|apply sq_set_eq|].
    rewrite Forall_app, Forall_cons in *. rewrite Hp2. pose proof (ml_pri _ _ _ _ _ _ _ Hm).
    split_and!; [|done|]; (eapply (Forall_pri_frame k1); [|exact Hoth|]; [set_solver|tauto]).
  - rewrite Forall_forall in *. intros d Hd. rewrite <-(Hpr d), Hpc by set_solver. auto.
  - intros d Hd. rewrite <-(Hpr d), Hpc by (apply head_elem in Hd; set_solver). auto.
Qed.

(** ** Semaphores: properties *)
Module SemFacts.
Import Sem.

(** A negative count is the number of waiters. *)
Definition sem_inv (s : sem) (k : kernel) : Prop :=
  exists ws, waiters k (s_lock s) (s_sleep_queue s) ws
    /\ Z.of_nat (length ws) = Z.max 0 (- s_count s) /\ -128 <= s_count s <= 127.

(** [sem_wait()] takes a unit, or the caller sleeps. *)
Lemma sem_wait_takes_or_sleeps s k c tl :
  can_enter k c tl (s_lock s) -> sem_inv s k -> -128 < s_count s -> tl <> [] ->
  exists r s' k', sem_wait s k = Ok (r, s', k') /\ s' = s <| s_count := s_count s - 1 |>
    /\ ordered k' /\ sem_inv s' k'
    /\ if 0 <? s_count s then r = Some CONTEXT_READY /\ run_list k' (c :: tl)
       else r = None /\ run_list k' tl
         /\ exists l1 l2, sleep_list k (s_sleep_queue s) (l1 ++ l2)
              /\ sleep_list k' (s_sleep_queue s) (l1 ++ c :: l2)
              /\ Forall (fun d => pri k d <= pri k c) l1
              /\ (forall d, head l2 = Some d -> pri k c < pri k d).
Proof.
  intros Hce (ws & Hw & Hlen & Hb) Hlow Htl.
  destruct (enter_section _ _ _ _ _ _ Hce Hw) as (sq & y & x & k1 & Hm & Hh & Hk1 & Hs1 & Hp1 & Esq & Hcw & Hf).
  unfold sem_wait. rewrite obj_bind, (lift_bind _ _ _ _ _ _ Hk1).
  set (s' := s <| s_count := s_count s - 1 |>).
  assert (Hs' : s <| s_count := s8 (s_count s - 1) |> = s') by (unfold s'; rewrite s8_small by lia; done).
  rewrite (sm_bind_run _ _ _ _ tt s' k1) by (unfold upd; by rewrite Hs').
  rewrite obj_bind. change (s_lock s') with (s_lock s). change (s_sleep_queue s') with (s_sleep_queue s).
  change (s_count s') with (s_count s - 1). destruct (Z.ltb_spec 0 (s_count s)) as [Hpos|Hneg].
  - replace (0 <=? s_count s - 1) with true by lia.
    destruct (unlock_quiet _ _ _ _ _ _ _ Hs1) as (k2 & Hk2 & Hi2 & Hl2 & Hp2); [by eapply tail_frame|].
    rewrite (lift_bind _ _ _ _ _ _ Hk2). exists (Some CONTEXT_READY), s', k2. split_and!; auto; [by exists (c :: tl), sq| |by eapply sched_run].
    assert (ws = []) as -> by (destruct ws; [done|cbn in Hlen; lia]).
    exists []. split_and!; [by eapply sched_waiters|cbn; lia|cbn; lia..].
  - replace (0 <=? s_count s - 1) with false by lia.
    destruct (sleep_section k k1 c tl sq (s_lock s) y x (s_sleep_queue s) ws) as (k2 & l1 & l2 & Hk2 & Ho & Hr & -> & Hw2 & Hf1 & Hf2); auto.
    rewrite (lift_bind _ _ _ _ _ _ Hk2). exists None, s', k2. split_and!; auto.
    + exists (l1 ++ c :: l2). split_and!; [done|rewrite length_app in *; cbn in *; lia|cbn; lia..].
    + exists l1, l2. split_and!; [apply Hw|apply Hw2|done..].
Qed.

(** [sem_post()] gives a unit back and wakes the first waiter. *)
Lemma sem_post_wakes_first s k c tl ws :
  can_enter k c tl (s_lock s) -> sem_inv s k -> s_count s < 127 -> sleep_list k (s_sleep_queue s) ws ->
  exists s' k' rq, sem_post s k = Ok (tt, s', k') /\ s' = s <| s_count := s_count s + 1 |>
    /\ ordered k' /\ sem_inv s' k' /\ run_list k' rq
    /\ match ws with
       | [] => rq = c :: tl /\ sleep_list k' (s_sleep_queue s) []
       | w :: ws' => rq ≡ₚ w :: c :: tl /\ sleep_list k' (s_sleep_queue s) ws'
       end.
Proof.
  intros Hce (ws' & Hw & Hlen & Hb) Hhigh Hws. pose proof (chain_fun _ _ _ _ Hws (proj1 Hw)) as <-.
  destruct (enter_section _ _ _ _ _ _ Hce Hw) as (sq & y & x & k1 & Hm & Hh & Hk1 & Hs1 & Hp1 & Esq & Hcw & Hf).
  unfold sem_post. rewrite obj_bind, (lift_bind _ _ _ _ _ _ Hk1).
  set (s' := s <| s_count := s_count s + 1 |>).
  assert (Hs' : s <| s_count := s8 (s_count s + 1) |> = s') by (unfold s'; rewrite s8_small by lia; done).
  rewrite (sm_bind_run _ _ _ _ tt s' k1) by (unfold upd; by rewrite Hs').
  rewrite obj_bind. change (s_lock s') with (s_lock s). change (s_sleep_queue s') with (s_sleep_queue s).
  change (s_count s') with (s_count s + 1).
  destruct (signal_unlock k k1 c tl sq (s_lock s) y x (s_sleep_queue s) ws) as (k2 & k3 & rq & Hk2 & Hk3 & Ho & Hr & Hw3 & Hrq); auto.
  destruct (Z.leb_spec (s_count s + 1) 0) as [Hle|Hgt].
  - rewrite (sm_bind_run _ _ _ _ tt s' k2), (lift_run _ _ _ _ _ Hk3) by (apply lift_run; by run_with Hk2).
    exists s', k3, rq. split_and!; [done..| |done|].
    + exists (tail ws). split_and!; [done|destruct ws; cbn in *; lia|cbn; lia..].
    + destruct ws; split; auto; apply Hw3.
  - assert (ws = []) as -> by (destruct ws; [done|cbn in Hlen; lia]).
    destruct (unlock_quiet _ _ _ _ _ _ _ Hs1) as (k4 & Hk4 & Hi4 & Hl4 & _); [by eapply tail_frame|].
    rewrite (sm_bind_run _ _ _ _ tt s' k1 eq_refl), (lift_run _ _ _ _ _ Hk4). assert (Hw4 := sched_waiters _ _ _ _ _ _ _ _ Hi4 Hl4 Esq (List.Forall_nil _)).
    exists s', k4, (c :: tl). split_and!; [done..|by eexists _, _| |by eapply sched_run|done|apply Hw4].
    exists []. split_and!; [done|cbn; lia..].
Qed.

(** C13: a semaphore counts its units and, when negative, its waiters.  [sem_wait()]
    takes a unit without blocking when the count is positive; otherwise the caller
    sleeps on the semaphore behind the waiters that are at least as urgent, the lock is
    free and the next context runs.  [sem_post()] gives a unit back and returns: the
    first waiter, if there is one, leaves the semaphore's queue for the run queue and
    nobody else moves.  Both keep a negative count the number of waiters. *)
Theorem sem_counts_units s k c tl ws :
  can_enter k c tl (s_lock s) -> sem_inv s k -> -128 < s_count s < 127 -> tl <> [] ->
  sleep_list k (s_sleep_queue s) ws ->
  (exists r s' k', sem_wait s k = Ok (r, s', k') /\ s' = s <| s_count := s_count s - 1 |>
    /\ ordered k' /\ sem_inv s' k'
    /\ if 0 <? s_count s then r = Some CONTEXT_READY /\ run_list k' (c :: tl)
       else r = None /\ run_list k' tl
         /\ exists l1 l2, sleep_list k (s_sleep_queue s) (l1 ++ l2)
              /\ sleep_list k' (s_sleep_queue s) (l1 ++ c :: l2)
              /\ Forall (fun d => pri k d <= pri k c) l1
              /\ (forall d, head l2 = Some d -> pri k c < pri k d))
  /\ (exists s' k' rq, sem_post s k = Ok (tt, s', k') /\ s' = s <| s_count := s_count s + 1 |>
    /\ ordered k' /\ sem_inv s' k' /\ run_list k' rq
    /\ match ws with
       | [] => rq = c :: tl /\ sleep_list k' (s_sleep_queue s) []
       | w :: ws' => rq ≡ₚ w :: c :: tl /\ sleep_list k' (s_sleep_queue s) ws'
       end).
Proof.
  intros Hce Hs Hb Htl Hws. split; [apply sem_wait_takes_or_sleeps|apply sem_post_wakes_first]; auto; lia.
Qed.

(** [sem_interrupt()] wakes a waiter (its wait returns INTERRUPTED) but leaves
    the count as it was, so the count no longer is the number of waiters: the
    unit the next [sem_post()] gives back goes to a waiter that has left. *)
Theorem sem_interrupt_breaks_count s k c tl w ws1 ws2 :
  can_enter k c tl (s_lock s) -> sem_inv s k -> sleep_list k (s_sleep_queue s) (ws1 ++ w :: ws2) ->
  exists k' rq, sem_interrupt w s k = Ok (tt, s, k') /\ ordered k'
    /\ run_list k' rq /\ rq ≡ₚ w :: c :: tl
    /\ sleep_list k' (s_sleep_queue s) (ws1 ++ ws2)
    /\ Z.of_nat (length (ws1 ++ ws2)) = - s_count s - 1 /\ ~ sem_inv s k'.
Proof.
  intros Hce (ws' & Hw & Hlen & Hb) Hws.
  pose proof (chain_fun _ _ _ _ Hws (proj1 Hw)) as <-.
  destruct (can_enter_may_lock _ _ _ _ Hce) as (sq & y & x & Hm & Hh).
  destruct (may_lock_waiters _ _ _ _ _ _ _ _ _ Hm Hw) as (Esq & Hcw & Hf).
  destruct (spinlock_lock_spec _ _ _ _ _ _ _ Hm) as (k1 & Hk1 & Hs1 & Hp1).
  unfold sem_interrupt. rewrite obj_bind, (lift_bind _ _ _ _ _ _ Hk1).
  assert (Hf1 : Forall (fun w => l_pri_locked y <= pri k1 w) (ws1 ++ w :: ws2)) by by eapply (Forall_pri_frame k).
  destruct (section_interrupt k1 c tl sq _ y x (s_sleep_queue s) w Hs1)
    as [[Hn _]|(k2 & l1 & l2 & v1 & v2 & E & Hk2 & -> & Hs2 & Hp2)].
  { rewrite Forall_forall in Hf1. apply Hf1. set_solver. }
  { exfalso. apply Hn. rewrite Esq. set_solver. }
  rewrite Esq in E. pose proof (chain_NoDup _ _ _ Hws) as Hnd.
  assert (v1 ++ v2 = ws1 ++ ws2) as Ev.
  { apply NoDup_app in Hnd as (_ & Hn1 & Hnd). apply NoDup_cons in Hnd as [Hn2 _].
    clear -E Hn1 Hn2. revert v1 E Hn1; induction ws1 as [|a ws1 IH]; intros [|b v1] E Hn1; cbn in E.
    - by injection E as <-.
    - injection E as <- ->. exfalso. apply Hn2. set_solver.
    - injection E as -> <-. exfalso. apply (Hn1 w); set_solver.
    - injection E as <- E. cbn. f_equal. apply IH; [done|]. intros d Hd. apply Hn1. set_solver. }
  rewrite (lift_bind _ _ _ _ _ _ Hk2).
  destruct (spinlock_unlock_spec _ _ _ _ _ _ _ Hs2) as (k3 & m1 & m2 & Hk3 & Hi3 & Em & Hl3 & Hp3 & Ho3 & _).
  rewrite (lift_run _ _ _ _ _ Hk3). exists k3, (m1 ++ c :: m2).
  assert (Hch : sleep_list k3 (s_sleep_queue s) (ws1 ++ ws2)).
  { pose proof (qi_sleep _ _ _ _ (si_q _ _ _ Hi3) (s_sleep_queue s)) as Hch. by rewrite sq_set_eq, Ev in Hch. }
  assert (Hcnt : Z.of_nat (length (ws1 ++ ws2)) = - s_count s - 1).
  { rewrite length_app in *. cbn in Hlen. lia. }
  split_and!; auto.
  - by eexists _, _.
  - by eapply sched_run.
  - rewrite <-Permutation_middle, <-Em, <-Permutation_middle. by rewrite perm_swap.
  - intros (ws' & [Hw' _] & Hlen' & _). rewrite (chain_fun _ _ _ _ Hw' Hch) in Hlen'. lia.
Qed.

Lemma demo_enters : can_enter (demo false) 1%nat [3; 2; 0]%nat 0%nat.
Proof.
  split_and!; [apply reach_ordered, demo_reach|apply demo_run_list|reflexivity|].
  exists (Lock_ false 2 0), (Context_ 5 CONTEXT_RUNNING (Some 3%nat) None 0 0 0 [] CONTEXT_READY).
  vm_compute. split_and!; congruence.
Qed.

Lemma demo_waiting_enters : can_enter demo_waiting 3%nat [2; 0]%nat 0%nat.
Proof.
  split_and!; [apply reach_ordered, demo_waiting_reach| |reflexivity|].
  - vm_compute; repeat (split; [reflexivity|]; eexists; split; [reflexivity|]); reflexivity.
  - exists (Lock_ false 2 5), (Context_ 5 CONTEXT_RUNNING (Some 2%nat) None 0 0 0 [] CONTEXT_READY).
    vm_compute. split_and!; congruence.
Qed.

Lemma demo_waiting_waiters : waiters demo_waiting 0%nat 7%nat [1%nat].
Proof.
  split; [vm_compute; repeat (split; [reflexivity|]; eexists; split; [reflexivity|]); reflexivity|].
  exists (Lock_ false 2 5). split_and!; [reflexivity..|]. constructor; [vm_compute; congruence|constructor].
Qed.

Lemma sem_counts_units_witness :
  (exists r s' k', sem_wait (Sem_ 0 7 (-1)) demo_waiting = Ok (r, s', k') /\ s' = Sem_ 0 7 (-2)
    /\ ordered k' /\ sem_inv s' k' /\ r = None /\ run_list k' [2; 0]%nat
    /\ exists l1 l2, sleep_list demo_waiting 7%nat (l1 ++ l2) /\ sleep_list k' 7%nat (l1 ++ 3%nat :: l2)
         /\ Forall (fun d => pri demo_waiting d <= pri demo_waiting 3%nat) l1
         /\ (forall d, head l2 = Some d -> pri demo_waiting 3%nat < pri demo_waiting d))
  /\ (exists s' k' rq, sem_post (Sem_ 0 7 (-1)) demo_waiting = Ok (tt, s', k') /\ s' = Sem_ 0 7 0
    /\ ordered k' /\ sem_inv s' k' /\ run_list k' rq /\ rq ≡ₚ [1; 3; 2; 0]%nat /\ sleep_list k' 7%nat []).
Proof.
  refine (sem_counts_units (Sem_ 0 7 (-1)) demo_waiting 3%nat [2; 0]%nat [1%nat] demo_waiting_enters _ _ _ _);
    [exists [1%nat]; split_and!; [apply demo_waiting_waiters|reflexivity|cbn; lia..]|cbn; lia|done|apply demo_waiting_waiters].
Defined.

Lemma sem_interrupt_breaks_count_witness :
  exists k' rq, sem_interrupt 1%nat (Sem_ 0 7 (-1)) demo_waiting = Ok (tt, Sem_ 0 7 (-1), k') /\ ordered k'
    /\ run_list k' rq /\ rq ≡ₚ [1; 3; 2; 0]%nat /\ sleep_list k' 7%nat []
    /\ Z.of_nat (length (@nil cid)) = - (-1) - 1 /\ ~ sem_inv (Sem_ 0 7 (-1)) k'.
Proof.
  refine (sem_interrupt_breaks_count (Sem_ 0 7 (-1)) demo_waiting 3%nat [2; 0]%nat 1%nat [] [] demo_waiting_enters _ _);
    [exists [1%nat]; split_and!; [apply demo_waiting_waiters|reflexivity|cbn; lia..]|apply demo_waiting_waiters].
Defined.

End SemFacts.

(** Waiting inside the section on a plain queue: in front of everybody. *)
Lemma section_wait_queue k c tl sq l y x q fs :
  in_section k c tl sq l y x -> c_spinlocks_held x = 0 ->
  match tl with
  | [] => context_wait_queue l q fs k = Stop "run queue empty"
  | h :: _ => exists k', context_wait_queue l q fs k = Ok (tt, k')
    /\ sched_inv k' tl (sq_set sq q (c :: sq q))
    /\ k_locks k' !! l = Some (Lock_ false (l_pri_locked y) (c_priority x))
  end.
Proof.
  intros [Hinv Hisr Hl Hp Hge (x1 & Hx1 & Hh1 & Hsv)] Hh. set (k1 := k <| isr_disabled := true |>).
  assert (Hi1 : sched_inv k1 (c :: tl) sq) by by apply sched_inv_isr.
  destruct (sched_current_ctx _ _ _ _ Hi1) as [Hc _].
  unfold context_wait_queue. rewrite (bind_run _ _ _ _ k1 eq_refl), (bind_run _ _ _ _ _ (current_run c k1 Hc)),
    (bind_run _ _ _ k1 k1 eq_refl), <-(chain_head _ _ _ (qi_sleep _ _ _ _ (si_q _ _ _ Hi1) q)).
  rewrite Hh in Hh1.
  pose proof (enqueue_and_wait k1 c x1 tl sq q [] (sq q) l _ (F_enable :: fs) Hi1 Hx1 eq_refl Hl eq_refl Hh1) as Hs.
  destruct tl as [|h t]; [exact Hs|]. destruct Hs as (k3 & Hk3 & Hi3 & _ & _ & _ & _ & Hl3 & _).
  exists k3. split_and!; auto. rewrite Hl3. apply lookup_insert_eq.
Qed.

(** ** Reader-writer locks: properties *)
Module RwlockFacts.
Import Rwlock.

Lemma sched_sleep_at k rq sq q : sched_inv k rq sq -> sleep_list k q (sq q).
Proof. intros H. apply (qi_sleep _ _ _ _ (si_q _ _ _ H)). Qed.

Lemma sched_queue_head k rq sq q : sched_inv k rq sq -> queue_head q k = head (sq q).
Proof. intros H. symmetry. eapply chain_head, (sched_sleep_at _ _ _ q H). Qed.

(** Who is granted access. *)
Lemma rwlock_grants r k c tl ws :
  can_enter k c tl (rwl_lock r) -> sleep_list k (rwl_write_sleep_queue r) ws -> tl <> [] ->
  (exists k', ordered k' /\
     if (rwl_writers r =? 0) && bool_decide (ws = [])
     then rwlock_lock_read r k = Ok (Some CONTEXT_READY, r <| rwl_readers := u8 (rwl_readers r + 1) |>, k')
          /\ run_list k' (c :: tl)
     else rwlock_lock_read r k = Ok (None, r, k') /\ run_list k' tl
          /\ exists rs, sleep_list k' (rwl_read_sleep_queue r) (c :: rs))
  /\ (exists k', ordered k' /\
     if (rwl_writers r =? 0) && (rwl_readers r =? 0)
     then rwlock_lock_write r k = Ok (Some CONTEXT_READY, r <| rwl_writers := 1 |>, k')
          /\ run_list k' (c :: tl)
     else rwlock_lock_write r k = Ok (None, r, k') /\ run_list k' tl
          /\ exists l1 l2, ws = l1 ++ l2 /\ sleep_list k' (rwl_write_sleep_queue r) (l1 ++ c :: l2)).
Proof.
  intros Hce Hws Htl. destruct (can_enter_may_lock _ _ _ _ Hce) as (sq & y & x & Hm & Hh).
  destruct (spinlock_lock_spec _ _ _ _ _ _ _ Hm) as (k1 & Hk1 & Hs1 & Hp1).
  pose proof (sched_sleep _ _ _ _ _ (ml_sched _ _ _ _ _ _ _ Hm) Hws) as Ews.
  pose proof (sched_queue_head _ _ _ (rwl_write_sleep_queue r) (is_sched _ _ _ _ _ _ _ Hs1)) as Hhd. rewrite Ews in Hhd.
  destruct (unlock_quiet _ _ _ _ _ _ _ Hs1) as (k2 & Hk2 & Hi2 & _ & _); [by eapply tail_frame|].
  assert (Hgo : ordered k2 /\ run_list k2 (c :: tl)) by (split; [by exists (c :: tl), sq|by eapply sched_run]).
  split.
  - unfold rwlock_lock_read. rewrite obj_bind, (lift_bind _ _ _ _ _ _ Hk1).
    rewrite (sm_bind_run (head_of _) _ r k1 (head ws) r k1) by (unfold head_of; by rewrite Hhd).
    replace (bool_decide (head ws = None)) with (bool_decide (ws = [])) by (apply bool_decide_ext; by destruct ws).
    destruct ((rwl_writers r =? 0) && bool_decide (ws = [])).
    + exists k2. split; [tauto|]. rewrite (sm_bind_run (upd _) _ r k1 tt _ k1 eq_refl), (lift_bind _ _ _ _ _ _ Hk2). tauto.
    + pose proof (section_wait_queue k1 c tl sq _ y x (rwl_read_sleep_queue r) [F_unlock (rwl_lock r)] Hs1 Hh) as Hq.
      destruct tl as [|h t]; [done|]. destruct Hq as (k3 & Hk3 & Hi3 & _). exists k3.
      rewrite (lift_bind _ _ _ _ _ _ Hk3). split; [by eexists _, _|]. split_and!; [done|by eapply sched_run|].
      exists (sq (rwl_read_sleep_queue r)). pose proof (sched_sleep_at _ _ _ (rwl_read_sleep_queue r) Hi3) as Hc.
      by rewrite sq_set_eq in Hc.
  - unfold rwlock_lock_write. rewrite obj_bind, (lift_bind _ _ _ _ _ _ Hk1).
    destruct (Z.eqb_spec (rwl_writers r) 0) as [Ew|Ew], (Z.eqb_spec (rwl_readers r) 0) as [Er|Er]; cbn [andb].
    1: { exists k2. split; [tauto|]. rewrite (sm_bind_run (upd _) _ r k1 tt _ k1 eq_refl), (lift_bind _ _ _ _ _ _ Hk2), Ew. tauto. }
    all: pose proof (section_wait_pri_queue k1 c tl sq _ y x (rwl_write_sleep_queue r) [F_unlock (rwl_lock r)] Hs1 Hh) as Hq;
      destruct tl as [|h t]; [done|]; destruct Hq as (k3 & l1 & l2 & Hk3 & E & Hi3 & _); exists k3;
      rewrite (lift_bind _ _ _ _ _ _ Hk3); (split; [by eexists _, _|]); split_and!; [done|by eapply sched_run|];
      exists l1, l2; rewrite <-Ews; split; [done|];
      pose proof (sched_sleep_at _ _ _ (rwl_write_sleep_queue r) Hi3) as Hc; by rewrite sq_set_eq in Hc.
Qed.

(** Leaving with nothing changed for the others. *)
Lemma leave_quiet k k1 c tl sq l y x :
  may_lock k c tl sq l y x -> in_section k1 c tl sq l y x -> (forall d, d <> c -> pri k1 d = pri k d) ->
  exists k2, spinlock_unlock l k1 = Ok (tt, k2) /\ ordered k2 /\ run_list k2 (c :: tl)
    /\ forall q, sleep_list k2 q (sq q).
Proof.
  intros Hm Hs Hp. destruct (unlock_quiet _ _ _ _ _ _ _ Hs) as (k2 & Hk2 & Hi2 & _ & _); [by eapply tail_frame|].
  exists k2. split_and!; [done|by eexists _, _|by eapply sched_run|]. intros q. by apply (sched_sleep_at _ _ _ q Hi2).
Qed.

(** [rwlock_unlock_read()]: the last reader hands the lock over. *)
Lemma rwlock_unlock_read_hands_over r k c tl ws :
  can_enter k c tl (rwl_lock r) -> waiters k (rwl_lock r) (rwl_write_sleep_queue r) ws ->
  0 <= rwl_readers r <= 255 ->
  if rwl_readers r =? 0 then rwlock_unlock_read r k = Stop "rwl_unl_rd: not holding"
  else exists k' r', rwlock_unlock_read r k = Ok (tt, r', k') /\ ordered k'
    /\ rwl_readers r' = rwl_readers r - 1
    /\ if 1 <? rwl_readers r then rwl_writers r' = rwl_writers r /\ run_list k' (c :: tl)
       else match ws with
            | [] => rwl_writers r' = 0 /\ run_list k' (c :: tl)
            | w :: ws' => rwl_writers r' = 1 /\ sleep_list k' (rwl_write_sleep_queue r) ws'
                /\ exists rq, run_list k' rq /\ rq ≡ₚ w :: c :: tl
            end.
Proof.
  intros Hce Hw Hb.
  destruct (enter_section _ _ _ _ _ _ Hce Hw) as (sq & y & x & k1 & Hm & Hh & Hk1 & Hs1 & Hp1 & Esq & Hcw & Hf).
  unfold rwlock_unlock_read. rewrite obj_bind, (lift_bind _ _ _ _ _ _ Hk1).
  destruct (Z.eqb_spec (rwl_readers r) 0) as [E0|E0]; [done|].
  set (r1 := r <| rwl_readers := rwl_readers r - 1 |>).
  rewrite (sm_bind_run _ _ _ _ tt r1 k1) by (unfold upd; by rewrite u8_small by lia).
  rewrite obj_bind. change (rwl_readers r1) with (rwl_readers r - 1).
  change (rwl_lock r1) with (rwl_lock r). change (rwl_write_sleep_queue r1) with (rwl_write_sleep_queue r).
  destruct (Z.ltb_spec 1 (rwl_readers r)) as [Hmany|Hlast].
  - destruct (leave_quiet _ _ _ _ _ _ _ _ Hm Hs1 Hp1) as (k2 & Hk2 & Ho2 & Hr2 & _).
    replace (rwl_readers r - 1 =? 0) with false by lia. rewrite (sm_bind_run _ _ _ _ tt r1 k1 eq_refl), (lift_run _ _ _ _ _ Hk2).
    by exists k2, r1.
  - replace (rwl_readers r - 1 =? 0) with true by lia.
    destruct (signal_unlock k k1 c tl sq (rwl_lock r) y x (rwl_write_sleep_queue r) ws) as (k2 & k3 & rq & Hk2 & Hk3 & Ho & Hr & Hw3 & Hrq); auto.
    rewrite (sm_bind_run _ _ _ _ tt (r1 <| rwl_writers := match ws with [] => 0 | _ => 1 end |>) k2) by by rewrite (lift_bind _ _ _ _ _ _ Hk2).
    rewrite (lift_run _ _ _ _ _ Hk3). exists k3, (r1 <| rwl_writers := match ws with [] => 0 | _ => 1 end |>).
    split_and!; [done..|]. destruct ws as [|w ws]; [by rewrite <-Hrq|]. split_and!; [done|apply Hw3|by exists rq].
Qed.

(** C16: read access is granted exactly when no writer holds the lock or waits for it,
    write access exactly when nobody holds the lock; a caller that is not granted access
    sleeps with the lock's fields unchanged.  [rwlock_unlock_read()] by one of several
    readers only lowers the reader count; the last reader hands the lock to the first
    waiting writer, or leaves it free when no writer waits; without a reader the debug
    check halts. *)
Theorem rwlock_access r k c tl ws :
  can_enter k c tl (rwl_lock r) -> waiters k (rwl_lock r) (rwl_write_sleep_queue r) ws -> tl <> [] ->
  0 <= rwl_readers r <= 255 ->
  (exists k', ordered k' /\
     if (rwl_writers r =? 0) && bool_decide (ws = [])
     then rwlock_lock_read r k = Ok (Some CONTEXT_READY, r <| rwl_readers := u8 (rwl_readers r + 1) |>, k')
          /\ run_list k' (c :: tl)
     else rwlock_lock_read r k = Ok (None, r, k') /\ run_list k' tl
          /\ exists rs, sleep_list k' (rwl_read_sleep_queue r) (c :: rs))
  /\ (exists k', ordered k' /\
     if (rwl_writers r =? 0) && (rwl_readers r =? 0)
     then rwlock_lock_write r k = Ok (Some CONTEXT_READY, r <| rwl_writers := 1 |>, k')
          /\ run_list k' (c :: tl)
     else rwlock_lock_write r k = Ok (None, r, k') /\ run_list k' tl
          /\ exists l1 l2, ws = l1 ++ l2 /\ sleep_list k' (rwl_write_sleep_queue r) (l1 ++ c :: l2))
  /\ (if rwl_readers r =? 0 then rwlock_unlock_read r k = Stop "rwl_unl_rd: not holding"
  else exists k' r', rwlock_unlock_read r k = Ok (tt, r', k') /\ ordered k'
    /\ rwl_readers r' = rwl_readers r - 1
    /\ if 1 <? rwl_readers r then rwl_writers r' = rwl_writers r /\ run_list k' (c :: tl)
       else match ws with
            | [] => rwl_writers r' = 0 /\ run_list k' (c :: tl)
            | w :: ws' => rwl_writers r' = 1 /\ sleep_list k' (rwl_write_sleep_queue r) ws'
                /\ exists rq, run_list k' rq /\ rq ≡ₚ w :: c :: tl
            end).
Proof.
  intros Hce Hw Htl Hb. destruct (rwlock_grants r k c tl ws Hce (proj1 Hw) Htl) as [H1 H2].
  split_and!; [done..|]. by apply rwlock_unlock_read_hands_over.
Qed.

(** [rwlock_unlock_write()] with nobody waiting returns with [rwl_writers] as
    it was: the lock still counts a writer, so neither a reader nor a writer can
    be granted access again. *)
Theorem rwlock_unlock_write_keeps_writer r k c tl :
  can_enter k c tl (rwl_lock r) -> rwl_writers r <> 0 ->
  waiters k (rwl_lock r) (rwl_write_sleep_queue r) [] -> waiters k (rwl_lock r) (rwl_read_sleep_queue r) [] ->
  exists k', rwlock_unlock_write r k = Ok (tt, r <| rwl_readers := 0 |>, k') /\ ordered k'
    /\ (exists tl', run_list k' (c :: tl') /\ tl' ≡ₚ tl) /\ sleep_list k' (rwl_write_sleep_queue r) []
    /\ rwl_writers (r <| rwl_readers := 0 |>) <> 0.
Proof.
  intros Hce Hw0 Hw Hr. destruct (can_enter_may_lock _ _ _ _ Hce) as (sq & y & x & Hm & Hh).
  destruct (may_lock_waiters _ _ _ _ _ _ _ _ _ Hm Hw) as (Esq & _ & _).
  destruct (may_lock_waiters _ _ _ _ _ _ _ _ _ Hm Hr) as (Esr & _ & _).
  destruct (spinlock_lock_spec _ _ _ _ _ _ _ Hm) as (k1 & Hk1 & Hs1 & Hp1).
  unfold rwlock_unlock_write. rewrite obj_bind, (lift_bind _ _ _ _ _ _ Hk1).
  destruct (Z.eqb_spec (rwl_writers r) 0) as [|_]; [done|].
  pose proof (section_signal k1 c tl sq _ y x (rwl_write_sleep_queue r) Hs1) as Hsig. rewrite Esq in Hsig.
  destruct (Hsig ltac:(constructor)) as (k2 & Hk2 & Hs2 & Hp2). rewrite (lift_bind _ _ _ _ _ _ Hk2).
  destruct (section_broadcast k2 c tl sq _ y x (rwl_read_sleep_queue r) Hs2) as (k3 & t' & Hk3 & Ht & Hs3 & Hp3);
    [rewrite Esr; constructor|]. rewrite Esr in *. cbn in Hk3.
  change (0 =? 0) with true. cbv iota.
  rewrite (sm_bind_run _ _ _ _ tt (r <| rwl_readers := 0 |>) k3) by by rewrite (lift_bind _ _ _ _ _ _ Hk3).
  destruct (unlock_quiet _ _ _ _ _ _ _ Hs3) as (k4 & Hk4 & Hi4 & _ & _).
  { rewrite Ht. eapply tail_frame; [exact Hm|]. intros d Hd. rewrite Hp3, Hp2. auto. }
  rewrite (lift_run _ _ _ _ _ Hk4). exists k4. split_and!; auto.
  - by eexists _, _.
  - exists t'. split; [by eapply sched_run|done].
  - pose proof (sched_sleep_at _ _ _ (rwl_write_sleep_queue r) Hi4) as Hc. unfold sq_set in Hc.
    case_decide; [done|]. by rewrite Esq in Hc.
Qed.

Lemma demo_no_waiters q : waiters (demo false) 0%nat q [].
Proof.
  split; [|exists (Lock_ false 2 0); by split_and!]. unfold sleep_list, queue_head.
  replace (k_queues (demo false)) with (∅ : gmap qid (option cid)) by reflexivity. by rewrite lookup_empty.
Qed.

Lemma rwlock_access_witness :
  (exists k', ordered k' /\
     rwlock_lock_read (Rwlock_ 0 8 7 1 0) demo_waiting = Ok (None, Rwlock_ 0 8 7 1 0, k') /\ run_list k' [2; 0]%nat
          /\ exists rs, sleep_list k' 8%nat (3%nat :: rs))
  /\ (exists k', ordered k' /\
     rwlock_lock_write (Rwlock_ 0 8 7 1 0) demo_waiting = Ok (None, Rwlock_ 0 8 7 1 0, k') /\ run_list k' [2; 0]%nat
          /\ exists l1 l2, [1%nat] = l1 ++ l2 /\ sleep_list k' 7%nat (l1 ++ 3%nat :: l2))
  /\ (exists k' r', rwlock_unlock_read (Rwlock_ 0 8 7 1 0) demo_waiting = Ok (tt, r', k') /\ ordered k'
    /\ rwl_readers r' = 0 /\ rwl_writers r' = 1 /\ sleep_list k' 7%nat []
    /\ exists rq, run_list k' rq /\ rq ≡ₚ [1; 3; 2; 0]%nat).
Proof.
  refine (rwlock_access (Rwlock_ 0 8 7 1 0) demo_waiting 3%nat [2; 0]%nat [1%nat]
    SemFacts.demo_waiting_enters SemFacts.demo_waiting_waiters _ _); [done|cbn; lia].
Defined.

Lemma rwlock_unlock_write_keeps_writer_witness :
  exists k', rwlock_unlock_write (Rwlock_ 0 7 8 0 1) (demo false) = Ok (tt, Rwlock_ 0 7 8 0 1, k') /\ ordered k'
    /\ (exists tl', run_list k' (1%nat :: tl') /\ tl' ≡ₚ [3; 2; 0]%nat) /\ sleep_list k' 8%nat [] /\ 1 <> 0.
Proof.
  apply (rwlock_unlock_write_keeps_writer (Rwlock_ 0 7 8 0 1) (demo false) 1%nat [3; 2; 0]%nat SemFacts.demo_enters);
    [done|apply demo_no_waiters|apply demo_no_waiters].
Defined.

End RwlockFacts.
