(* ===== verification/Ipcsum.v ===== *)
(** * The Internet checksum (src/lib/ipcsum)

    [ipcsum_partial()] is an assembly loop per target: the 16-bit loop of the
    i386 and the byte loop of the AVR, both modelled at the level of their
    registers and the carry flag, with the buffer as a function from offsets to
    bytes (the AVR loop can run past the end of it).  [ipcsum()] and the pseudo
    header functions are those of ipcsum.c.  The reference is the one's
    complement sum of RFC 1071. *)

From stdpp Require Import base list.
From Stdlib Require Import ZArith Lia.
From S2P Require Import Prelude.
Open Scope Z_scope.

Definition buffer := Z -> Z.
Definition bytes_ok (buf : buffer) : Prop := forall i, 0 <= buf i < 256.

(** ** i386/ipcsum.c *)

(** [addw %ax, %0; adcw $0, %0] *)
Definition addw_adc (p w : Z) : Z :=
  let s := u16 (p + w) in
  let carry := (p + w) / 2 ^ 16 in
  u16 (s + carry).

(** [lodsw], little endian. *)
Definition lodsw (buf : buffer) (i : Z) : Z := buf i + 2 ^ 8 * buf (i + 1).

(** The [loop] instruction: [n] times, [%esi] at [i]. *)
Fixpoint csum_words (n : nat) (buf : buffer) (i p : Z) : Z :=
  match n with
  | O => p
  | S n => csum_words n buf (i + 2) (addw_adc p (lodsw buf i))
  end.

Definition ipcsum_partial (partial_csum : Z) (buf : buffer) (count : Z) : Z :=
  let words := Z.shiftr count 1 in
  let p := if words =? 0 then partial_csum else csum_words (Z.to_nat words) buf 0 partial_csum in
  if Z.land count 1 =? 0 then p else addw_adc p (buf (2 * words)).

(** ** ipcsum.c *)

Definition ipcsum (partial_csum : Z) (buf : buffer) (count : Z) : Z :=
  Z.lxor (ipcsum_partial partial_csum buf count) 0xffff.

(** [struct pseudo_hdr] in memory; the addresses and the length are stored as the
    little-endian words the callers pass. *)
Definition pseudo_hdr (src_addr dest_addr protocol len : Z) : buffer := fun i =>
  nth (Z.to_nat i)
    [u8 src_addr; u8 (src_addr / 2 ^ 8); u8 (src_addr / 2 ^ 16); u8 (src_addr / 2 ^ 24);
     u8 dest_addr; u8 (dest_addr / 2 ^ 8); u8 (dest_addr / 2 ^ 16); u8 (dest_addr / 2 ^ 24);
     0; u8 protocol; u8 len; u8 (len / 2 ^ 8)] 0.

Definition ipcsum_pseudo_partial (src_addr dest_addr protocol len : Z) : Z :=
  ipcsum_partial 0 (pseudo_hdr src_addr dest_addr protocol len) 12.

Definition ipcsum_pseudo (src_addr dest_addr protocol len : Z) : Z :=
  Z.lxor (ipcsum_pseudo_partial src_addr dest_addr protocol len) 0xffff.

(** ** avr/ipcsum.c *)

(** [add]/[adc] on a register: the result and the carry flag. *)
Definition adc8 (a b carry : Z) : Z * Z := (u8 (a + b + carry), (a + b + carry) / 2 ^ 8).

(** One pass of the word loop on the register pair ([%A0], [%B0]). *)
Definition avr_word (a0 b0 : Z) (buf : buffer) (i : Z) : Z * Z :=
  let '(a0, c) := adc8 a0 (buf i) 0 in
  let '(b0, c) := adc8 b0 (buf (i + 1)) c in
  let '(a0, c) := adc8 a0 0 c in
  let '(b0, c) := adc8 b0 0 c in
  (a0, b0).

(** [dec %A2; brne L_redo; subi %B2, 1; brsh L_redo] *)
Fixpoint avr_loop (fuel : nat) (buf : buffer) (i a0 b0 a2 b2 : Z) : option (Z * Z * Z) :=
  match fuel with
  | O => None
  | S fuel =>
    let '(a0, b0) := avr_word a0 b0 buf i in
    let a2 := u8 (a2 - 1) in
    if negb (a2 =? 0) then avr_loop fuel buf (i + 2) a0 b0 a2 b2
    else if 1 <=? b2 then avr_loop fuel buf (i + 2) a0 b0 a2 (u8 (b2 - 1))
    else Some (a0, b0, i + 2)
  end.

(** The word loop runs at most 2^16 + 2^8 times. *)
Definition avr_fuel : nat := Z.to_nat (2 ^ 16 + 2 ^ 8).

Definition avr_ipcsum_partial (partial_csum : Z) (buf : buffer) (count : Z) : option Z :=
  let words := Z.shiftr count 1 in
  '(a0, b0, i) ← (if words =? 0 then Some (u8 partial_csum, partial_csum / 2 ^ 8, 0)
                  else avr_loop avr_fuel buf 0 (u8 partial_csum) (partial_csum / 2 ^ 8) (u8 words) (words / 2 ^ 8));
  if Z.land count 1 =? 0 then Some (a0 + 2 ^ 8 * b0)
  else
    let '(a0, c) := adc8 a0 (buf i) 0 in
    let '(b0, c) := adc8 b0 0 c in
    let '(a0, c) := adc8 a0 0 c in
    Some (a0 + 2 ^ 8 * b0).

(** ** Reference: the one's complement sum *)

(** The 16-bit one's complement number congruent to [z] modulo 2^16 - 1; zero only
    for zero. *)
Definition ones (z : Z) : Z := if z =? 0 then 0 else (z - 1) mod 65535 + 1.

(** The little-endian 16-bit words of [n] bytes from offset [i], the last one
    padded with a zero byte, added up as integers. *)
Fixpoint word_sum (n : nat) (buf : buffer) (i : Z) : Z :=
  match n with
  | O => 0
  | S n => lodsw buf i + word_sum n buf (i + 2)
  end.

Definition byte_sum (buf : buffer) (count : Z) : Z :=
  word_sum (Z.to_nat (count / 2)) buf 0 + (if Z.odd count then buf (count - 1) else 0).

Lemma ones_range z : 0 <= z -> 0 <= ones z < 2 ^ 16.
Proof. intros H. unfold ones. destruct (Z.eqb_spec z 0); [lia|]. pose proof (Z.mod_pos_bound (z - 1) 65535). lia. Qed.

Lemma ones_small z : 0 <= z < 2 ^ 16 -> ones z = z.
Proof. intros H. unfold ones. destruct (Z.eqb_spec z 0); [lia|]. rewrite Z.mod_small; lia. Qed.

Lemma ones_add a b : 0 <= a -> 0 <= b -> ones (ones a + b) = ones (a + b).
Proof.
  intros Ha Hb. unfold ones at 2. destruct (Z.eqb_spec a 0) as [->|Hn]; [done|].
  pose proof (Z.mod_pos_bound (a - 1) 65535 ltac:(lia)). unfold ones.
  destruct (Z.eqb_spec ((a - 1) mod 65535 + 1 + b) 0); [lia|]. destruct (Z.eqb_spec (a + b) 0); [lia|].
  f_equal. replace ((a - 1) mod 65535 + 1 + b - 1) with ((a - 1) mod 65535 + b) by lia.
  rewrite Zplus_mod_idemp_l. f_equal. lia.
Qed.

Lemma addw_adc_ones p w : 0 <= p < 2 ^ 16 -> 0 <= w < 2 ^ 16 -> addw_adc p w = ones (p + w).
Proof.
  intros Hp Hw. unfold addw_adc, ones, u16. destruct (Z.eqb_spec (p + w) 0) as [->|]; [done|].
  Z.div_mod_to_equations. lia.
Qed.

Lemma lodsw_range buf i : bytes_ok buf -> 0 <= lodsw buf i < 2 ^ 16.
Proof. intros H. unfold lodsw. pose proof (H i). pose proof (H (i + 1)). lia. Qed.

Lemma word_sum_nonneg n buf i : bytes_ok buf -> 0 <= word_sum n buf i.
Proof.
  intros H. revert i; induction n as [|n IH]; intros i; cbn; [lia|].
  pose proof (lodsw_range buf i H). pose proof (IH (i + 2)). lia.
Qed.

Lemma csum_words_ones n buf i p :
  bytes_ok buf -> 0 <= p < 2 ^ 16 -> csum_words n buf i p = ones (p + word_sum n buf i).
Proof.
  intros Hb. revert i p; induction n as [|n IH]; intros i p Hp; cbn.
  - by rewrite Z.add_0_r, ones_small.
  - pose proof (lodsw_range buf i Hb). pose proof (word_sum_nonneg n buf (i + 2) Hb).
    rewrite addw_adc_ones, IH by (auto; apply ones_range; lia).
    rewrite ones_add by lia. f_equal. lia.
Qed.

Lemma byte_sum_nonneg buf n : bytes_ok buf -> 0 <= byte_sum buf n.
Proof.
  intros H. unfold byte_sum. pose proof (word_sum_nonneg (Z.to_nat (n / 2)) buf 0 H).
  pose proof (H (n - 1)). destruct (Z.odd n); lia.
Qed.

Lemma odd_land n : (Z.land n 1 =? 0) = negb (Z.odd n).
Proof.
  change 1 with (Z.ones 1). rewrite Z.land_ones by lia. rewrite Zmod_odd. by destruct (Z.odd n).
Qed.

Lemma last_byte n : Z.odd n = true -> 2 * (n / 2) = n - 1.
Proof. intros H. pose proof (Zmod_odd n). rewrite H in H0. Z.div_mod_to_equations. lia. Qed.

Lemma ipcsum_partial_ones p buf count :
  bytes_ok buf -> 0 <= p < 2 ^ 16 -> 0 <= count ->
  ipcsum_partial p buf count = ones (p + byte_sum buf count).
Proof.
  intros Hb Hp Hc. unfold ipcsum_partial, byte_sum. rewrite Z.shiftr_div_pow2, odd_land by lia.
  change (2 ^ 1) with 2. pose proof (word_sum_nonneg (Z.to_nat (count / 2)) buf 0 Hb).
  assert (E : (if count / 2 =? 0 then p else csum_words (Z.to_nat (count / 2)) buf 0 p)
    = ones (p + word_sum (Z.to_nat (count / 2)) buf 0)).
  { destruct (Z.eqb_spec (count / 2) 0) as [->|]; [|by apply csum_words_ones].
    cbn. by rewrite Z.add_0_r, ones_small. }
  rewrite E. destruct (Z.odd count) eqn:Ho; cbn [negb]; [|by rewrite Z.add_0_r].
  rewrite last_byte by done. pose proof (Hb (count - 1)).
  rewrite addw_adc_ones, ones_add by (try apply ones_range; lia). f_equal. lia.
Qed.

(** ** A checksum field *)

(** Store the 16-bit value [v] at offset [f], as the C code does. *)
Definition put16 (f v : Z) (buf : buffer) : buffer := fun i =>
  if i =? f then u8 v else if i =? f + 1 then u8 (v / 2 ^ 8) else buf i.

Lemma put16_ok f v buf : bytes_ok buf -> bytes_ok (put16 f v buf).
Proof.
  intros H i. unfold put16. pose proof (u8_range v). pose proof (u8_range (v / 2 ^ 8)). pose proof (H i).
  destruct (i =? f), (i =? f + 1); lia.
Qed.

Lemma word_sum_ext n b b' i :
  (forall j, i <= j < i + 2 * Z.of_nat n -> b j = b' j) -> word_sum n b i = word_sum n b' i.
Proof.
  revert i; induction n as [|n IH]; intros i H; cbn; [done|]. unfold lodsw. rewrite (H i), (H (i + 1)) by lia.
  f_equal. apply IH. intros j Hj. apply H. lia.
Qed.

Lemma word_sum_put n buf i k v :
  (k < n)%nat -> 0 <= v < 2 ^ 16 ->
  word_sum n (put16 (i + 2 * Z.of_nat k) v buf) i = word_sum n (put16 (i + 2 * Z.of_nat k) 0 buf) i + v.
Proof.
  intros Hk Hv. revert i k Hk; induction n as [|n IH]; intros i k Hk; [lia|]. cbn [word_sum].
  destruct k as [|k].
  - rewrite Z.mul_0_r, Z.add_0_r.
    rewrite (word_sum_ext n (put16 i v buf) (put16 i 0 buf) (i + 2)).
    2: { intros j Hj. unfold put16. replace (j =? i) with false by lia. replace (j =? i + 1) with false by lia. done. }
    unfold lodsw, put16. rewrite !Z.eqb_refl. replace (i + 1 =? i) with false by lia.
    change (u8 0) with 0. change (u8 (0 / 2 ^ 8)) with 0. unfold u8. Z.div_mod_to_equations. lia.
  - specialize (IH (i + 2) k ltac:(lia)).
    replace (i + 2 + 2 * Z.of_nat k) with (i + 2 * Z.of_nat (S k)) in IH by lia. rewrite IH.
    assert (Hsk : 1 <= Z.of_nat (S k)) by lia. set (z := Z.of_nat (S k)) in *. clearbody z.
    unfold lodsw, put16.
    destruct (Z.eqb_spec i (i + 2 * z)), (Z.eqb_spec (i + 1) (i + 2 * z)), (Z.eqb_spec i (i + 2 * z + 1)),
      (Z.eqb_spec (i + 1) (i + 2 * z + 1)); lia.
Qed.

Lemma byte_sum_put buf f v count :
  0 <= f -> Z.even f = true -> f + 2 <= count -> 0 <= v < 2 ^ 16 ->
  byte_sum (put16 f v buf) count = byte_sum (put16 f 0 buf) count + v.
Proof.
  intros Hf He Hc Hv. unfold byte_sum. apply Zeven_bool_iff in He. apply Zeven_div2 in He.
  set (h := Z.div2 f) in *.
  replace f with (0 + 2 * Z.of_nat (Z.to_nat h)) by lia.
  assert (Hk : (Z.to_nat h < Z.to_nat (count / 2))%nat) by (apply Z2Nat.inj_lt; Z.div_mod_to_equations; lia).
  rewrite word_sum_put by (exact Hk || lia).
  destruct (Z.odd count) eqn:Ho; [|lia].
  assert (Hlast : count <> f + 2).
  { intros ->. rewrite He in Ho. replace (2 * h + 2) with (2 * (h + 1)) in Ho by lia. by rewrite Z.odd_mul in Ho. }
  unfold put16. rewrite Z2Nat.id by lia. replace (count - 1 =? 0 + 2 * h) with false by lia.
  replace (count - 1 =? 0 + 2 * h + 1) with false by lia. lia.
Qed.

Lemma ones_ffff z : 0 <= z -> ones z = 0xffff <-> z <> 0 /\ z mod 65535 = 0.
Proof.
  intros Hz. unfold ones. destruct (Z.eqb_spec z 0) as [->|]; [split; [lia|tauto]|].
  Z.div_mod_to_equations. split; intros; [split|]; lia.
Qed.

Lemma ipcsum_ones p buf count :
  bytes_ok buf -> 0 <= p < 2 ^ 16 -> 0 <= count -> ipcsum p buf count = 0xffff - ones (p + byte_sum buf count).
Proof.
  intros Hb Hp Hc. pose proof (byte_sum_nonneg buf count Hb). unfold ipcsum.
  rewrite ipcsum_partial_ones by done. apply lxor_ffff, ones_range. lia.
Qed.

(** The sums only look at the bytes they cover. *)
Lemma csum_words_ext n b b' i p :
  (forall j, i <= j < i + 2 * Z.of_nat n -> b j = b' j) -> csum_words n b i p = csum_words n b' i p.
Proof.
  revert i p; induction n as [|n IH]; intros i p H; cbn; [done|]. unfold lodsw. rewrite (H i), (H (i + 1)) by lia.
  apply IH. intros j Hj. apply H. lia.
Qed.

Lemma ipcsum_partial_ext p b b' count :
  0 <= count -> (forall j, 0 <= j < count -> b j = b' j) -> ipcsum_partial p b count = ipcsum_partial p b' count.
Proof.
  intros Hc H. unfold ipcsum_partial. rewrite Z.shiftr_div_pow2, odd_land by lia. change (2 ^ 1) with 2.
  rewrite (csum_words_ext _ b b'); [|intros j Hj; apply H; Z.div_mod_to_equations; lia].
  destruct (Z.odd count) eqn:Ho; cbn [negb]; [|done]. by rewrite last_byte, H by (done || Z.div_mod_to_equations; destruct count; cbn in *; lia).
Qed.

Lemma ipcsum_ext p b b' count :
  0 <= count -> (forall j, 0 <= j < count -> b j = b' j) -> ipcsum p b count = ipcsum p b' count.
Proof. intros Hc H. unfold ipcsum. by rewrite (ipcsum_partial_ext _ b b'). Qed.

(** A field filled with the checksum makes the whole check to zero. *)
Lemma checksum_field_zero p buf f count :
  bytes_ok buf -> 0 <= p < 2 ^ 16 -> 0 <= f -> Z.even f = true -> f + 2 <= count ->
  ipcsum p (put16 f (ipcsum p (put16 f 0 buf) count) buf) count = 0.
Proof.
  intros Hb Hp Hf He Hc. pose proof (byte_sum_nonneg _ count (put16_ok f 0 buf Hb)) as H0.
  set (c := ipcsum p (put16 f 0 buf) count).
  assert (Ec : c = 0xffff - ones (p + byte_sum (put16 f 0 buf) count))
    by (apply ipcsum_ones; [by apply put16_ok|done|lia]).
  pose proof (ones_range (p + byte_sum (put16 f 0 buf) count) ltac:(lia)) as Ho.
  rewrite ipcsum_ones by (try apply put16_ok; auto; lia). rewrite byte_sum_put by (auto; lia).
  rewrite Z.add_assoc, <-ones_add by lia. rewrite Ec.
  replace (ones (p + byte_sum (put16 f 0 buf) count) + (0xffff - ones (p + byte_sum (put16 f 0 buf) count))) with 0xffff by lia.
  reflexivity.
Qed.

(** C19: the assembly loop computes the Internet checksum.  For every starting value
    and every buffer, odd lengths included, [ipcsum_partial()] is the 16-bit one's
    complement number congruent to the sum of the words.  A packet whose checksum field
    is filled with [ipcsum()] of the packet (the field being zero meanwhile, the pseudo
    header summed before) passes the receiver's check [ipcsum() == 0]; and the check
    accepts exactly the packets whose word sum is a nonzero multiple of 65535, so any
    damage that changes the sum modulo 65535 is found. *)
Theorem ipcsum_is_internet_checksum p buf count :
  bytes_ok buf -> 0 <= p < 2 ^ 16 -> 0 <= count ->
  ipcsum_partial p buf count = ones (p + byte_sum buf count)
  /\ (forall f, 0 <= f -> Z.even f = true -> f + 2 <= count ->
        ipcsum p (put16 f (ipcsum p (put16 f 0 buf) count) buf) count = 0)
  /\ (ipcsum p buf count = 0 <-> p + byte_sum buf count <> 0 /\ (p + byte_sum buf count) mod 65535 = 0).
Proof.
  intros Hb Hp Hc. pose proof (byte_sum_nonneg _ count Hb) as H1.
  split_and!; [by apply ipcsum_partial_ones|intros; by apply checksum_field_zero|].
  rewrite ipcsum_ones by (auto; lia). rewrite <-ones_ffff by lia.
  pose proof (ones_range (p + byte_sum buf count) ltac:(lia)). lia.
Qed.

Lemma ipcsum_is_internet_checksum_witness :
  ipcsum_partial 0xfff0 (fun i => i mod 256) 21 = ones (0xfff0 + byte_sum (fun i => i mod 256) 21)
  /\ ipcsum 0xfff0 (put16 10 (ipcsum 0xfff0 (put16 10 0 (fun i => i mod 256)) 21) (fun i => i mod 256)) 21 = 0.
Proof.
  destruct (ipcsum_is_internet_checksum 0xfff0 (fun i => i mod 256) 21) as (H1 & H2 & _); [|lia|lia|].
  - intros i. apply Z.mod_pos_bound. lia.
  - split; [exact H1|by apply (H2 10)].
Defined.

(** ** The AVR loop *)

Lemma avr_word_spec a b buf i :
  0 <= a < 256 -> 0 <= b < 256 -> bytes_ok buf ->
  exists a' b', avr_word a b buf i = (a', b') /\ 0 <= a' < 256 /\ 0 <= b' < 256
    /\ a' + 2 ^ 8 * b' = addw_adc (a + 2 ^ 8 * b) (lodsw buf i).
Proof.
  intros Ha Hb Hok. pose proof (Hok i). pose proof (Hok (i + 1)). unfold avr_word, adc8. eexists _, _.
  split; [reflexivity|]. unfold addw_adc, lodsw, u8, u16.
  Z.div_mod_to_equations. lia.
Qed.

(** The number of passes the loop makes for the counter registers [a2], [b2]: a
    low byte of zero counts as 256. *)
Definition avr_passes (a2 b2 : Z) : Z := (if a2 =? 0 then 256 else a2) + 256 * b2.

Lemma avr_loop_spec fuel buf i a b a2 b2 :
  bytes_ok buf -> 0 <= a < 256 -> 0 <= b < 256 -> 0 <= a2 < 256 -> 0 <= b2 < 256 ->
  avr_passes a2 b2 <= Z.of_nat fuel ->
  exists a' b', avr_loop fuel buf i a b a2 b2 = Some (a', b', i + 2 * avr_passes a2 b2)
    /\ 0 <= a' < 256 /\ 0 <= b' < 256
    /\ a' + 2 ^ 8 * b' = csum_words (Z.to_nat (avr_passes a2 b2)) buf i (a + 2 ^ 8 * b).
Proof.
  intros Hok. revert i a b a2 b2; induction fuel as [|fuel IH]; intros i a b a2 b2 Ha Hb Ha2 Hb2 Hf.
  { unfold avr_passes in Hf. destruct (Z.eqb_spec a2 0); lia. }
  destruct (avr_word_spec a b buf i Ha Hb Hok) as (a1 & b1 & Ew & Ha1 & Hb1 & Ev).
  cbn [avr_loop]. rewrite Ew.
  assert (Hpos : 1 <= avr_passes a2 b2) by (unfold avr_passes; destruct (Z.eqb_spec a2 0); lia).
  assert (Hn : Z.to_nat (avr_passes a2 b2) = S (Z.to_nat (avr_passes a2 b2 - 1))) by lia.
  rewrite Hn. cbn [csum_words]. rewrite <-Ev.
  assert (Hu : u8 (a2 - 1) = if a2 =? 0 then 255 else a2 - 1).
  { unfold u8. destruct (Z.eqb_spec a2 0) as [->|]; [done|]. rewrite Z.mod_small; lia. }
  assert (Hnext : forall a3 b3, avr_passes a3 b3 = avr_passes a2 b2 - 1 -> 0 <= a3 < 256 -> 0 <= b3 < 256 ->
    exists a' b', avr_loop fuel buf (i + 2) a1 b1 a3 b3 = Some (a', b', i + 2 * avr_passes a2 b2)
    /\ 0 <= a' < 256 /\ 0 <= b' < 256
    /\ a' + 2 ^ 8 * b' = csum_words (Z.to_nat (avr_passes a2 b2 - 1)) buf (i + 2) (a1 + 2 ^ 8 * b1)).
  { intros a3 b3 Hp H3 H4. destruct (IH (i + 2) a1 b1 a3 b3) as (a' & b' & E & ? & ? & ?); auto; [lia|].
    exists a', b'. rewrite E, <-Hp. split_and!; [do 2 f_equal; lia|lia..|done]. }
  destruct (Z.eqb_spec (u8 (a2 - 1)) 0) as [E0|E0]; cbn [negb].
  - assert (a2 = 1) as -> by (rewrite Hu in E0; destruct (Z.eqb_spec a2 0); lia). rewrite E0.
    destruct (Z.leb_spec 1 b2).
    + apply Hnext; [|lia|pose proof (u8_range (b2 - 1)); lia].
      rewrite u8_small by lia. unfold avr_passes. cbn. lia.
    + assert (b2 = 0) as -> by lia. exists a1, b1. split_and!; try lia; reflexivity.
  - apply Hnext; [|pose proof (u8_range (a2 - 1)); lia|lia]. rewrite Hu in *. unfold avr_passes.
    destruct (Z.eqb_spec a2 0); [cbn; lia|]. replace (a2 - 1 =? 0) with false by lia. lia.
Qed.

(** C21: the AVR routine always finishes.  It computes the same sum as the i386
    routine unless the number of 16-bit words is a positive multiple of 256: the
    low byte of its loop counter is then zero and the loop makes 256 passes too
    many, adding 512 bytes that do not belong to the buffer. *)
Theorem avr_ipcsum_partial_passes p buf count :
  bytes_ok buf -> 0 <= p < 2 ^ 16 -> 0 <= count < 2 ^ 16 ->
  avr_ipcsum_partial p buf count =
    Some (if (Z.shiftr count 1 mod 256 =? 0) && negb (Z.shiftr count 1 =? 0)
          then let p' := csum_words (Z.to_nat (Z.shiftr count 1 + 256)) buf 0 p in
               if Z.odd count then addw_adc p' (buf (count + 511)) else p'
          else ipcsum_partial p buf count).
Proof.
  intros Hok Hp Hc. unfold avr_ipcsum_partial, ipcsum_partial. rewrite odd_land.
  assert (Hw : 0 <= Z.shiftr count 1 < 2 ^ 15) by (rewrite Z.shiftr_div_pow2 by lia; Z.div_mod_to_equations; lia).
  assert (Hodd : Z.odd count = true -> 2 * Z.shiftr count 1 = count - 1)
    by (rewrite Z.shiftr_div_pow2 by lia; apply last_byte).
  set (w := Z.shiftr count 1) in *. clearbody w.
  pose proof (u8_range p). assert (0 <= p / 2 ^ 8 < 256) by (Z.div_mod_to_equations; lia).
  assert (Ep : u8 p + 2 ^ 8 * (p / 2 ^ 8) = p) by (unfold u8; Z.div_mod_to_equations; lia).
  assert (Htail : forall a b j (P := a + 2 ^ 8 * b), 0 <= a < 256 -> 0 <= b < 256 ->
    (if negb (Z.odd count) then Some P
     else let '(a0, c) := adc8 a (buf j) 0 in
          let '(b0, c) := adc8 b 0 c in
          let '(a0, c) := adc8 a0 0 c in Some (a0 + 2 ^ 8 * b0))
    = Some (if Z.odd count then addw_adc P (buf j) else P)).
  { intros a b j P Ha Hb. destruct (Z.odd count); cbn [negb]; [|done]. unfold adc8, P, addw_adc, u8, u16.
    pose proof (Hok j). f_equal. Z.div_mod_to_equations. lia. }
  destruct (Z.eqb_spec w 0) as [->|Hw0]; cbn [negb andb].
  - rewrite andb_false_r. cbn [mbind option_bind]. rewrite Htail by lia. rewrite Ep.
    f_equal. by destruct (Z.odd count).
  - rewrite andb_true_r.
    destruct (avr_loop_spec avr_fuel buf 0 (u8 p) (p / 2 ^ 8) (u8 w) (w / 2 ^ 8)) as (a & b & -> & Ha & Hb & E); auto; try lia.
    { apply u8_range. } { Z.div_mod_to_equations; lia. }
    { unfold avr_fuel, avr_passes. rewrite Z2Nat.id by lia. pose proof (u8_range w). destruct (u8 w =? 0); Z.div_mod_to_equations; lia. }
    cbn [mbind option_bind]. rewrite Htail, E, Ep by lia. f_equal.
    assert (Hn : avr_passes (u8 w) (w / 2 ^ 8) = if w mod 256 =? 0 then w + 256 else w).
    { unfold avr_passes, u8. change (2 ^ 8) with 256. destruct (Z.eqb_spec (w mod 256) 0); Z.div_mod_to_equations; lia. }
    rewrite Hn. destruct (w mod 256 =? 0); cbn [andb]; cbv zeta; destruct (Z.odd count); cbn [negb]; try done.
    + do 2 f_equal. specialize (Hodd eq_refl). lia.
Qed.

Lemma avr_ipcsum_partial_passes_witness :
  avr_ipcsum_partial 0 (fun i => i mod 256) 6 = Some (ipcsum_partial 0 (fun i => i mod 256) 6).
Proof.
  apply (avr_ipcsum_partial_passes 0 (fun i => i mod 256) 6); [|lia|lia].
  intros i. apply Z.mod_pos_bound. lia.
Defined.
