(* ===== verification/Netbuf.v ===== *)
(** * Network buffers as the protocols see them (include/netbuf.h)

    The protocol components work on the layers of a [struct netbuf]: each layer is
    its bytes.  The netbufs live in a store, because the send queues link them
    through their [nb_next] fields, and are counted.  The memory behind the layers and
    the counts is the subject of Membuf.v and NetbufMem.v. *)

From stdpp Require Import base list gmap fin_maps strings.
From Stdlib Require Import ZArith Lia.
From S2P Require Import Prelude Sched.
Open Scope Z_scope.

Abbreviation nbid := nat.

Record netbuf := Netbuf_ {
  nb_datalink : list Z;
  nb_network : list Z;
  nb_transport : list Z;
  nb_application : list Z;
  nb_next : option nbid;
  nb_refs : Z;
  nb_hint : option Z   (* the word in the hint membuf, if there is one *) }.

#[export] Instance eta_netbuf : Eta netbuf := fun n =>
  Netbuf_ (nb_datalink n) (nb_network n) (nb_transport n) (nb_application n) (nb_next n) (nb_refs n) (nb_hint n).

Abbreviation nbstore := (gmap nbid netbuf).

Definition size_of (l : list Z) : Z := Z.of_nat (length l).

Definition is_byte (b : Z) : Prop := 0 <= b < 256.

(** ** Send queues: netbufs linked through [nb_next] *)

Definition nb_link (st : nbstore) (n : nbid) : option (option nbid) := nb_next <$> st !! n.

Definition set_nb_next (n : nbid) (v : option nbid) (st : nbstore) : nbstore :=
  alter (fun b => b <| nb_next := v |>) n st.

(** [pprev = &queue; p = queue; while (p) { pprev = &p->nb_next; p = p->nb_next; }
    *pprev = nb; nb->nb_next = NULL;].  The result is the new head and store; a
    queue has no more members than there are netbufs, which bounds the loop. *)
Fixpoint queue_append_at (fuel : nat) (p : nbid) (nb : nbid) (st : nbstore) : res nbstore :=
  match fuel with
  | O => Fuel
  | S fuel =>
    match st !! p with
    | None => Stop "bad netbuf pointer"
    | Some b =>
      match nb_next b with
      | Some p' => queue_append_at fuel p' nb st
      | None => Ok (set_nb_next nb None (set_nb_next p (Some nb) st))
      end
    end
  end.

Definition queue_append (head : option nbid) (nb : nbid) (st : nbstore) : res (option nbid * nbstore) :=
  match head with
  | None => Ok (Some nb, set_nb_next nb None st)
  | Some p => st ← queue_append_at (S (size st)) p nb st; Ok (Some p, st)
  end.

(** ** Reference counts

    A structure is a membuf; [refs] has the counts of the live ones by address.  That
    [membuf_alloc], [membuf_ref] and [membuf_deref] do this on memory is shown in
    Membuf.v.  A reference to a structure that has been freed stops the model. *)

Abbreviation refs := (gmap Z Z).

Definition struct_alloc (a : Z) (r : refs) : res refs :=
  match r !! a with
  | None => Ok (<[a := 1]> r)
  | Some _ => Stop "allocation of a block in use"
  end.

Definition struct_ref (a : Z) (r : refs) : res refs :=
  match r !! a with
  | None => Stop "reference to a freed structure"
  | Some n => Ok (<[a := u32 (n + 1)]> r)
  end.

Definition struct_deref (a : Z) (r : refs) : res refs :=
  match r !! a with
  | None => Stop "release of a freed structure"
  | Some n => Ok (if u32 (n - 1) =? 0 then delete a r else <[a := u32 (n - 1)]> r)
  end.

Definition nb_ref (n : nbid) (st : nbstore) : res nbstore :=
  match st !! n with
  | None => Stop "bad netbuf pointer"
  | Some b => Ok (<[n := b <| nb_refs := u32 (nb_refs b + 1) |>]> st)
  end.

Definition nb_deref (n : nbid) (st : nbstore) : res nbstore :=
  match st !! n with
  | None => Stop "bad netbuf pointer"
  | Some b => Ok (if u32 (nb_refs b - 1) =? 0 then delete n st else <[n := b <| nb_refs := u32 (nb_refs b - 1) |>]> st)
  end.

(** A structure with at least one reference and room for another. *)
Definition live (r : refs) (a : Z) : Prop := exists n, r !! a = Some n /\ 0 < n < 2 ^ 32 - 1.

(** A reference around a call leaves the counts as they were. *)
Lemma struct_ref_deref a r : live r a -> (r' ← struct_ref a r; struct_deref a r') = Ok r.
Proof.
  intros (n & Hn & Hr). unfold struct_ref. rewrite Hn. cbn [mbind res_bind]. unfold struct_deref. rewrite lookup_insert_eq.
  rewrite (u32_small (n + 1)) by lia. replace (n + 1 - 1) with n by lia. rewrite u32_small by lia.
  replace (n =? 0) with false by lia. by rewrite insert_insert_eq, insert_id.
Qed.

(** The netbufs of a queue, in order. *)
Definition nb_queue (st : nbstore) (head : option nbid) (l : list nbid) : Prop := chain (nb_link st) head l.

Lemma set_nb_next_link n v st m :
  is_Some (st !! n) -> nb_link (set_nb_next n v st) m = if decide (m = n) then Some v else nb_link st m.
Proof.
  intros [b Hb]. unfold nb_link, set_nb_next. case_decide as E.
  - subst m. by rewrite lookup_alter_eq, Hb.
  - by rewrite lookup_alter_ne by done.
Qed.

Lemma set_nb_next_lookup n v st m b :
  st !! m = Some b -> exists b', set_nb_next n v st !! m = Some b'
    /\ nb_network b' = nb_network b /\ nb_transport b' = nb_transport b
    /\ nb_application b' = nb_application b /\ nb_datalink b' = nb_datalink b /\ nb_refs b' = nb_refs b /\ nb_hint b' = nb_hint b.
Proof.
  intros Hb. unfold set_nb_next. destruct (decide (n = m)) as [->|].
  - rewrite lookup_alter_eq, Hb. by eexists.
  - rewrite lookup_alter_ne by done. by exists b.
Qed.

Lemma nb_link_dom st n v : nb_link st n = Some v -> is_Some (st !! n).
Proof. unfold nb_link. destruct (st !! n); [eauto|done]. Qed.

Lemma nb_queue_dom st h l n : nb_queue st h l -> n ∈ l -> is_Some (st !! n).
Proof.
  unfold nb_queue. revert h; induction l as [|m l IH]; intros h; [by intros _ ?%elem_of_nil|].
  intros (_ & nx & Hn & Hl) [->|Hm]%elem_of_cons; [by eapply nb_link_dom|eauto].
Qed.

Lemma nb_queue_length st h l : nb_queue st h l -> (length l <= size st)%nat.
Proof.
  intros H. rewrite <-(size_list_to_set (C:=gset nbid) l) by by eapply chain_NoDup.
  rewrite <-size_dom. apply subseteq_size. intros c Hc%elem_of_list_to_set.
  apply elem_of_dom. by eapply nb_queue_dom.
Qed.

Lemma queue_append_at_spec fuel st p l nb :
  nb_queue st (Some p) l -> (length l <= fuel)%nat ->
  exists e l0, l = l0 ++ [e]
    /\ queue_append_at fuel p nb st = Ok (set_nb_next nb None (set_nb_next e (Some nb) st)).
Proof.
  revert fuel p; induction l as [|m l IH]; intros fuel p Hq Hf; [done|].
  destruct Hq as ([= ->] & nx & Hn & Hl). destruct fuel as [|fuel]; [cbn in Hf; lia|].
  cbn [queue_append_at]. unfold nb_link in Hn. destruct (st !! m) as [b|] eqn:Hb; [|done].
  injection Hn as ->. destruct l as [|m' l].
  - cbn in Hl. subst nx. exists m, []. done.
  - destruct Hl as (-> & Hl). destruct (IH fuel m') as (e & l0 & El & Hr).
    + by split.
    + cbn in *. lia.
    + exists e, (m :: l0). split; [by rewrite El|done].
Qed.

(** Appending a netbuf that is not queued puts it last and keeps the others. *)
Lemma queue_append_spec st h l nb :
  nb_queue st h l -> nb ∉ l -> is_Some (st !! nb) ->
  exists h' st', queue_append h nb st = Ok (h', st') /\ nb_queue st' h' (l ++ [nb])
    /\ forall m b, st !! m = Some b -> exists b', st' !! m = Some b'
        /\ nb_network b' = nb_network b /\ nb_transport b' = nb_transport b
        /\ nb_application b' = nb_application b /\ nb_datalink b' = nb_datalink b /\ nb_refs b' = nb_refs b /\ nb_hint b' = nb_hint b.
Proof.
  intros Hq Hn Hd. destruct h as [p|]; cbn [queue_append].
  - destruct (queue_append_at_spec (S (size st)) st p l nb Hq) as (e & l0 & -> & Hr).
    { pose proof (nb_queue_length _ _ _ Hq). lia. }
    rewrite Hr. cbn. eexists _, _. split; [done|].
    assert (He : is_Some (st !! e)) by (eapply nb_queue_dom; [exact Hq|set_solver]).
    assert (Hne : nb <> e) by set_solver.
    assert (Hd' : is_Some (set_nb_next e (Some nb) st !! nb)).
    { destruct Hd as [b Hb]. destruct (set_nb_next_lookup e (Some nb) st nb b Hb) as (b' & -> & _). eauto. }
    split.
    + unfold nb_queue. eapply (chain_insert (nb_link st) (Some p) (l0 ++ [e]) [] nb).
      * by rewrite (app_nil_r (l0 ++ [e])).
      * by rewrite (app_nil_r (l0 ++ [e])).
      * by rewrite set_nb_next_link, decide_True.
      * rewrite last_snoc. split; [|done].
        by rewrite set_nb_next_link, decide_False, set_nb_next_link, decide_True by done.
      * intros d Hd1 Hd2. rewrite last_snoc in Hd2.
        rewrite set_nb_next_link, decide_False, set_nb_next_link, decide_False by (done || congruence). done.
    + intros m b Hb. destruct (set_nb_next_lookup e (Some nb) st m b Hb) as (b1 & Hb1 & E1).
      destruct (set_nb_next_lookup nb None _ m b1 Hb1) as (b2 & Hb2 & E2). exists b2. split; [done|].
      destruct_and!; split_and!; congruence.
  - destruct l as [|m l]; [|by destruct Hq]. eexists _, _. split; [done|]. split.
    + cbn. split; [done|]. exists None. split; [|done]. by rewrite set_nb_next_link, decide_True.
    + intros m b Hb. by apply set_nb_next_lookup.
Qed.
