(* ===== verification/Slip.v ===== *)
(** * SLIP framing (src/lib/slip/slip.c)

    The receiver is a byte-driven state machine over the fields of [struct
    slip_instance]; the packet buffer is an array of [MRU] bytes and a write
    outside it would be [Stop].  The sender turns the layers of a queued netbuf
    into the bytes handed to the UART.  A call of the client's [idc_recv] is an
    output event.  The client, server and instance structures are counted. *)

From stdpp Require Import base list gmap fin_maps strings.
From Stdlib Require Import ZArith Lia.
From S2P Require Import Prelude Sched Netbuf.
Open Scope Z_scope.

Definition MRU : Z := 576.
Definition SLIP_END : Z := 0xc0.
Definition SLIP_ESC : Z := 0xdb.

(** The fields of [struct slip_instance] and of the [struct ip_datalink_instance] it
    starts with, and the structures it shares with its client: their reference
    counts, and the [idc_server] of the clients.  [si_send_ctx] is [None] until the
    send thread has set it. *)
Record slip_instance := Slip_ {
  si_addr : Z;                  (* where the instance is *)
  idi_lock : bool;
  idi_mru : Z;
  idi_mtu : Z;
  idi_client : option Z;
  si_server : option Z;         (* the UART *)
  si_recv_esc : bool;
  si_recv_octets : Z;
  si_recv_ignore : bool;
  si_recv_packet : list Z;      (* the MRU bytes of the membuf *)
  si_send_ctx : option Z;
  si_send_queue : option nbid;
  structs : refs;
  idc_server : gmap Z Z }.

#[export] Instance eta_slip : Eta slip_instance := fun s =>
  Slip_ (si_addr s) (idi_lock s) (idi_mru s) (idi_mtu s) (idi_client s) (si_server s) (si_recv_esc s) (si_recv_octets s)
    (si_recv_ignore s) (si_recv_packet s) (si_send_ctx s) (si_send_queue s) (structs s) (idc_server s).

Definition lock_idi (si : slip_instance) : res slip_instance :=
  lk ← spin_lock (idi_lock si); Ok (si <| idi_lock := lk |>).

Definition unlock_idi (si : slip_instance) : res slip_instance :=
  lk ← spin_unlock (idi_lock si); Ok (si <| idi_lock := lk |>).

(** A call that changes the counts. *)
Definition on_structs (f : refs -> res refs) (si : slip_instance) : res slip_instance :=
  r ← f (structs si); Ok (si <| structs := r |>).

(** ** Receiving *)

(** [idc_recv] of the client called with a netbuf of this network layer. *)
Inductive slip_event := Recv (idc : Z) (network : list Z).

(** A fresh membuf of [MRU] bytes. *)
Definition fresh_packet : list Z := replicate (Z.to_nat MRU) 0.

(** [si->si_recv_packet[si->si_recv_octets++] = ch] and the test after it. *)
Definition store_octet (ch : Z) (si : slip_instance) : res slip_instance :=
  if si_recv_octets si <? MRU then
    let si := si <| si_recv_packet := <[Z.to_nat (si_recv_octets si) := ch]> (si_recv_packet si) |>
                 <| si_recv_octets := u16 (si_recv_octets si + 1) |> in
    Ok (if MRU <=? si_recv_octets si then si <| si_recv_ignore := true |> else si)
  else Stop "write past si_recv_packet".

(** The netbuf goes to the client, if there is one, with the lock released. *)
Definition deliver (network : list Z) (si : slip_instance) : res (slip_instance * list slip_event) :=
  match idi_client si with
  | None => Ok (si, [])
  | Some idc =>
    si ← on_structs (struct_ref idc) si;
    si ← unlock_idi si;
    si ← lock_idi si;
    si ← on_structs (struct_deref idc) si;
    Ok (si, [Recv idc network])
  end.

(** The netbuf takes the packet over, so that the release of the netbuf frees it
    and a new packet is allocated. *)
Definition recv_end (si : slip_instance) : res (slip_instance * list slip_event) :=
  '(si, evs) ← (if negb (si_recv_ignore si) && negb (si_recv_octets si =? 0) then
      '(si, evs) ← deliver (take (Z.to_nat (si_recv_octets si)) (si_recv_packet si)) si;
      Ok (si <| si_recv_packet := fresh_packet |>, evs)
    else Ok (si, []));
  Ok (si <| si_recv_octets := 0 |> <| si_recv_esc := false |> <| si_recv_ignore := false |>, evs).

Definition recv_other (ch : Z) (si : slip_instance) : res slip_instance :=
  if si_recv_ignore si then Ok si
  else if ch =? SLIP_ESC then
    Ok (if si_recv_esc si then si <| si_recv_ignore := true |> else si <| si_recv_esc := true |>)
  else if si_recv_esc si then
    if ch =? 0xdc then store_octet SLIP_END (si <| si_recv_esc := false |>)
    else if ch =? 0xdd then store_octet SLIP_ESC (si <| si_recv_esc := false |>)
    else Ok (si <| si_recv_ignore := true |>)
  else store_octet ch si.

Definition slip_recv_u8 (ch : Z) (si : slip_instance) : res (slip_instance * list slip_event) :=
  si ← lock_idi si;
  '(si, evs) ← (if ch =? SLIP_END then recv_end si else si ← recv_other ch si; Ok (si, []));
  si ← unlock_idi si;
  Ok (si, evs).

(** ** Sending *)

(** The bytes handed to [us_send]; [cnt] bytes of [buf]. *)
Fixpoint slip_send_sequence (buf : list Z) (cnt : nat) : list Z :=
  match cnt, buf with
  | S cnt, ch :: buf =>
    (if ch =? SLIP_END then [SLIP_ESC; 0xdc]
     else if ch =? SLIP_ESC then [SLIP_ESC; 0xdd] else [ch]) ++ slip_send_sequence buf cnt
  | _, _ => []
  end.

(** [slip_send_sequence(us, layer, size)]: the size is passed as a [u16_t]. *)
Definition send_layer (layer : list Z) : list Z :=
  slip_send_sequence layer (Z.to_nat (u16 (size_of layer))).

(** What [slip_send_thread] does before its loop; [ctx] is its context.  The call of
    [us_set_send_isr] is the driver's. *)
Definition slip_send_start (ctx : Z) (si : slip_instance) : slip_instance := si <| si_send_ctx := Some ctx |>.

(** One turn of the loop of [slip_send_thread]: the bytes sent, the queue and the
    netbufs left; [None] when there is nothing to send, and the thread sleeps in
    [context_wait], the lock released, until [slip_send_netbuf] signals it. *)
Definition slip_send_one (si : slip_instance) (st : nbstore) : res (option (slip_instance * nbstore * list Z)) :=
  si ← lock_idi si;
  match si_send_queue si with
  | None => Ok None
  | Some n =>
    match st !! n with
    | None => Stop "bad netbuf pointer"
    | Some nb =>
      si ← unlock_idi (si <| si_send_queue := nb_next nb |>);
      let sent :=
        [SLIP_END] ++ send_layer (nb_network nb)
        ++ (if size_of (nb_transport nb) =? 0 then [] else send_layer (nb_transport nb))
        ++ (if size_of (nb_application nb) =? 0 then [] else send_layer (nb_application nb))
        ++ [SLIP_END] in
      st ← nb_deref n st;
      Ok (Some (si, st, sent))
    end
  end.

(** The third result is the context signalled. *)
Definition slip_send_netbuf (n : nbid) (si : slip_instance) (st : nbstore) : res (slip_instance * nbstore * Z) :=
  st ← nb_ref n st;
  si ← lock_idi si;
  '(q, st) ← queue_append (si_send_queue si) n st;
  let si := si <| si_send_queue := q |> in
  match si_send_ctx si with
  | None => Stop "context_signal before si_send_ctx is set"
  | Some ctx => si ← unlock_idi si; Ok (si, st, ctx)
  end.

(** ** Clients *)

(** [ids] is the address [membuf_alloc] gives to the new server; the result is the
    server, if the client was accepted. *)
Definition slip_client_attach (idc ids : Z) (si : slip_instance) : res (option Z * slip_instance) :=
  si ← lock_idi si;
  '(r, si) ← match idi_client si with
    | Some _ => Ok (None, si)
    | None =>
      si ← on_structs (struct_alloc ids) si;
      si ← on_structs (struct_ref (si_addr si)) si;
      let si := si <| idc_server := <[idc := ids]> (idc_server si) |> <| idi_client := Some idc |> in
      si ← on_structs (struct_ref idc) si;
      Ok (Some ids, si)
    end;
  si ← unlock_idi si;
  Ok (r, si).

(** [ip_datalink_client_detach], the [idi_client_detach] of the instance. *)
Definition slip_client_detach (ids : Z) (si : slip_instance) : res slip_instance :=
  si ← lock_idi si;
  match idi_client si with
  | None => Stop "null idi_client"
  | Some idc =>
    si ← (if bool_decide (idc_server si !! idc = Some ids) then
        si ← on_structs (struct_deref ids) si;
        si ← on_structs (struct_deref (si_addr si)) si;
        si ← on_structs (struct_deref idc) si;
        Ok (si <| idi_client := None |>)
      else Ok si);
    unlock_idi si
  end.

(** [idi] and [uc] are the addresses of the instance and of its UART client among the
    structures [r]; the attachment to the UART is the driver's.  The thread it creates
    is [slip_send_start] and then [slip_send_one] for ever. *)
Definition slip_instance_alloc (ui_client_attach : Z -> refs -> res (Z * refs)) (idi uc : Z) (r : refs) : res slip_instance :=
  r ← struct_alloc idi r;
  r ← struct_alloc uc r;
  r ← struct_ref idi r;
  '(us, r) ← ui_client_attach uc r;
  r ← struct_deref uc r;
  Ok (Slip_ idi false MRU MRU None (Some us) false 0 true fresh_packet None None r ∅).

(** ** Running the receiver over a byte stream *)

Fixpoint slip_recv (chs : list Z) (si : slip_instance) : res (slip_instance * list slip_event) :=
  match chs with
  | [] => Ok (si, [])
  | ch :: chs =>
    '(si, e1) ← slip_recv_u8 ch si;
    '(si, e2) ← slip_recv chs si;
    Ok (si, e1 ++ e2)
  end.

(** ** The receiver's invariant *)

(** The attached client and the counts. *)
Definition attached (si : slip_instance) : option Z * refs := (idi_client si, structs si).

(** The client, if there is one, is live. *)
Definition client_live (si : slip_instance) : Prop := forall c, idi_client si = Some c -> live (structs si) c.

Record slip_ok (si : slip_instance) : Prop := {
  so_octets : 0 <= si_recv_octets si <= MRU;
  so_full : si_recv_octets si = MRU -> si_recv_ignore si = true;
  so_packet : length (si_recv_packet si) = Z.to_nat MRU;
  so_client : client_live si }.

Lemma client_live_eq si si' : attached si' = attached si -> client_live si -> client_live si'.
Proof. intros [= E1 E2] H c. rewrite E1, E2. apply H. Qed.

Lemma slip_instance_ok attach idi uc r si :
  slip_instance_alloc attach idi uc r = Ok si -> slip_ok si /\ idi_lock si = false.
Proof.
  unfold slip_instance_alloc. intros H. repeat (apply bind_Ok in H as (? & _ & H); try case_match).
  injection H as <-. split; [|done]. split; [unfold MRU; cbn; lia|done..].
Qed.

(** What the client has received when a delivery of [network] is over. *)
Definition to_client (network : list Z) (si : slip_instance) : list slip_event :=
  match idi_client si with Some idc => [Recv idc network] | None => [] end.

(** The reference taken for the call is given back, and the lock retaken. *)
Lemma deliver_run network si :
  client_live si -> idi_lock si = true -> deliver network si = Ok (si, to_client network si).
Proof.
  intros Hc Hl. unfold deliver, to_client. destruct (idi_client si) as [idc|] eqn:Ei; [|done].
  pose proof (struct_ref_deref idc _ (Hc idc Ei)) as Hr. apply bind_Ok in Hr as (r & Hr & Hd).
  unfold on_structs, unlock_idi, lock_idi. rewrite Hr. cbn. rewrite Hl. cbn. rewrite Hd. cbn.
  do 2 f_equal. destruct si; cbn in *. by subst.
Qed.

(** What an END delivers. *)
Definition pending (si : slip_instance) : list slip_event :=
  if negb (si_recv_ignore si) && negb (si_recv_octets si =? 0)
  then to_client (take (Z.to_nat (si_recv_octets si)) (si_recv_packet si)) si else [].

(** The state after an END. *)
Definition ended (si : slip_instance) : slip_instance :=
  (if negb (si_recv_ignore si) && negb (si_recv_octets si =? 0) then si <| si_recv_packet := fresh_packet |> else si)
    <| si_recv_octets := 0 |> <| si_recv_esc := false |> <| si_recv_ignore := false |>.

Lemma recv_end_run si : client_live si -> idi_lock si = true -> recv_end si = Ok (ended si, pending si).
Proof.
  intros Hc Hl. unfold recv_end, ended, pending. destruct (_ && _); [|done]. by rewrite deliver_run.
Qed.

(** Appending [ch] to the packet so far. *)
Lemma store_octet_spec ch si :
  0 <= si_recv_octets si < MRU -> length (si_recv_packet si) = Z.to_nat MRU ->
  exists si', store_octet ch si = Ok si'
    /\ take (Z.to_nat (si_recv_octets si')) (si_recv_packet si')
       = take (Z.to_nat (si_recv_octets si)) (si_recv_packet si) ++ [ch]
    /\ si_recv_octets si' = si_recv_octets si + 1 /\ si_recv_esc si' = si_recv_esc si
    /\ idi_lock si' = idi_lock si /\ attached si' = attached si
    /\ si_recv_ignore si' = (MRU <=? si_recv_octets si + 1) || si_recv_ignore si
    /\ length (si_recv_packet si') = Z.to_nat MRU /\ si_send_queue si' = si_send_queue si.
Proof.
  intros Ho Hl. unfold store_octet. replace (si_recv_octets si <? MRU) with true by lia.
  rewrite u16_small by (unfold MRU in *; lia).
  eexists. split; [reflexivity|]. set (n := Z.to_nat (si_recv_octets si)).
  assert (Htake : take (Z.to_nat (si_recv_octets si + 1)) (<[n:=ch]> (si_recv_packet si))
    = take n (si_recv_packet si) ++ [ch]).
  { assert (Hn : (n < length (si_recv_packet si))%nat) by (unfold n; lia).
    replace (Z.to_nat (si_recv_octets si + 1)) with (S n) by (unfold n; lia).
    rewrite insert_take_drop by done. rewrite take_app, length_take, Nat.min_l by lia.
    replace (S n - n)%nat with 1%nat by lia. rewrite take_take, Nat.min_r by lia. reflexivity. }
  cbn [si_recv_octets setter].
  destruct (MRU <=? si_recv_octets si + 1); cbn; split_and!; auto; by rewrite length_insert.
Qed.

Lemma recv_other_ok ch si :
  slip_ok si -> exists si', recv_other ch si = Ok si' /\ slip_ok si' /\ idi_lock si' = idi_lock si.
Proof.
  intros [H2 H3 H4 H5]. unfold recv_other. destruct (si_recv_ignore si) eqn:Hi; [by exists si|].
  assert (Hlt : si_recv_octets si <> MRU) by (intros E; specialize (H3 E); congruence).
  assert (Hst : forall ch' si0, si_recv_octets si0 = si_recv_octets si -> idi_lock si0 = idi_lock si ->
    si_recv_packet si0 = si_recv_packet si -> attached si0 = attached si ->
    exists si', store_octet ch' si0 = Ok si' /\ slip_ok si' /\ idi_lock si' = idi_lock si).
  { intros ch' si0 E1 E2 E3 E4. destruct (store_octet_spec ch' si0) as (si' & Hs & _ & Ho & _ & Hl & Ha & Hg & Hp & _).
    - lia.
    - by rewrite E3.
    - exists si'. split; [done|]. split; [|congruence]. split; [lia| |done|eapply client_live_eq; [|exact H5]; congruence].
      intros E. rewrite Hg, <-Ho, E. done. }
  destruct (ch =? SLIP_ESC); [destruct (si_recv_esc si); eexists; split_and!; by split|].
  destruct (si_recv_esc si); [|by apply Hst].
  destruct (ch =? 0xdc); [by apply Hst|]. destruct (ch =? 0xdd); [by apply Hst|]. eexists; split_and!; by split.
Qed.

Lemma ended_ok si : slip_ok si -> slip_ok (ended si) /\ idi_lock (ended si) = idi_lock si.
Proof.
  intros [H2 H3 H4 H5]. unfold ended.
  destruct (negb (si_recv_ignore si) && negb (si_recv_octets si =? 0)); cbn; (split; [|done]);
    split; cbn; auto; try (unfold MRU; lia); done.
Qed.

(** One byte, with the lock taken and released around it. *)
Lemma slip_recv_u8_run ch si :
  client_live si -> idi_lock si = false ->
  slip_recv_u8 ch si =
    '(si', evs) ← (if ch =? SLIP_END then Ok (ended (si <| idi_lock := true |>), pending si)
                   else si' ← recv_other ch (si <| idi_lock := true |>); Ok (si', []));
    si' ← unlock_idi si';
    Ok (si', evs).
Proof.
  intros Hc H. unfold slip_recv_u8, lock_idi. rewrite H. cbn [spin_lock mbind res_bind].
  by destruct (ch =? SLIP_END); [rewrite recv_end_run|].
Qed.

Lemma slip_recv_u8_ok ch si :
  slip_ok si -> idi_lock si = false ->
  exists si' evs, slip_recv_u8 ch si = Ok (si', evs) /\ slip_ok si' /\ idi_lock si' = false.
Proof.
  intros Hok Hl. rewrite slip_recv_u8_run by (done || by destruct Hok).
  assert (Hok1 : slip_ok (si <| idi_lock := true |>)) by (destruct Hok; by split).
  unfold unlock_idi. destruct (ch =? SLIP_END).
  - destruct (ended_ok _ Hok1) as [Hk Hlk]. cbn [mbind res_bind]. rewrite Hlk. cbn.
    eexists _, _. split; [done|]. split; [|done]. destruct Hk; by split.
  - destruct (recv_other_ok ch _ Hok1) as (si' & -> & Hk & Hlk). cbn in *. rewrite Hlk. cbn.
    eexists _, _. split; [done|]. split; [|done]. destruct Hk; by split.
Qed.

Lemma recv_other_attached ch si si' : recv_other ch si = Ok si' -> attached si' = attached si.
Proof.
  unfold recv_other, store_octet. intros H. repeat case_match; by simplify_eq.
Qed.

(** What a byte delivers goes to the client, which stays. *)
Lemma slip_recv_u8_events ch si si' evs :
  slip_ok si -> idi_lock si = false -> slip_recv_u8 ch si = Ok (si', evs) ->
  attached si' = attached si /\ Forall (fun '(Recv idc p) => idi_client si = Some idc /\ 0 < size_of p < MRU) evs.
Proof.
  intros [O1 O2 O3 O4] Hl H. rewrite slip_recv_u8_run in H by done. destruct (ch =? SLIP_END).
  - cbn in H. unfold ended in H. cbn [si_recv_ignore si_recv_octets setter] in H. unfold pending in H.
    destruct (negb (si_recv_ignore si) && negb (si_recv_octets si =? 0)) eqn:E; cbn in H; simplify_eq; (split; [done|]); [|constructor].
    apply andb_true_iff in E as [E1%negb_true_iff E2%negb_true_iff].
    unfold to_client. destruct (idi_client si) as [c|]; repeat constructor; unfold size_of; rewrite length_take_le by lia; [lia|].
    assert (si_recv_octets si <> MRU) by (intros E; specialize (O2 E); congruence). lia.
  - destruct (recv_other ch _) as [s1| |] eqn:E; cbn in H; [|done..]. apply recv_other_attached in E.
    unfold unlock_idi in H. destruct (spin_unlock (idi_lock s1)); cbn in H; [|done..]. simplify_eq.
    split; [cbn; unfold attached; cbn; congruence|constructor].
Qed.

(** An accepted client has one more reference, so the receiver's invariant holds on. *)
Lemma slip_client_attach_ok idc ids si r si' n :
  slip_ok si -> structs si !! idc = Some n -> 0 < n < 2 ^ 32 - 2 -> idc <> si_addr si ->
  slip_client_attach idc ids si = Ok (r, si') -> slip_ok si' /\ is_Some (idi_client si').
Proof.
  intros [O1 O2 O3 O4] Hn Hr Hne H. unfold slip_client_attach, lock_idi, unlock_idi, on_structs in H.
  destruct (spin_lock (idi_lock si)); cbn in H; [|done..]. destruct (idi_client si) eqn:Ei; cbn in H.
  - destruct (spin_unlock _); cbn in H; [|done..]. simplify_eq. split; [by split|]. cbn. by rewrite Ei.
  - unfold struct_alloc in H. destruct (structs si !! ids) eqn:Es; cbn in H; [done|].
    unfold struct_ref in H. destruct (<[ids:=1]> (structs si) !! si_addr si); cbn in H; [|done].
    rewrite lookup_insert_ne, lookup_insert_ne, Hn in H by congruence. cbn in H.
    destruct (spin_unlock _); cbn in H; [|done..]. simplify_eq. split; [|done]. split; [done..|].
    intros c [= <-]. cbn. exists (u32 (n + 1)). rewrite lookup_insert_eq, u32_small by lia. split; [done|lia].
Qed.

(** ** Encoding and decoding *)

(** The bytes a data byte is sent as. *)
Definition stuff (ch : Z) : list Z :=
  if ch =? SLIP_END then [SLIP_ESC; 0xdc] else if ch =? SLIP_ESC then [SLIP_ESC; 0xdd] else [ch].

Definition encode (data : list Z) : list Z := mjoin (stuff <$> data).

Lemma send_sequence_encode data : slip_send_sequence data (length data) = encode data.
Proof. induction data as [|ch data IH]; [done|]. cbn. rewrite IH. done. Qed.

Lemma send_layer_encode data : size_of data < 2 ^ 16 -> send_layer data = encode data.
Proof.
  intros H. unfold send_layer, size_of in *. rewrite u16_small by lia. rewrite Nat2Z.id. apply send_sequence_encode.
Qed.

Lemma encode_app a b : encode (a ++ b) = encode a ++ encode b.
Proof. unfold encode. by rewrite fmap_app, join_app. Qed.

Lemma encode_no_end data : SLIP_END ∉ encode data.
Proof.
  induction data as [|ch data IH]; [by intros ?%elem_of_nil|].
  change (SLIP_END ∉ stuff ch ++ encode data). rewrite not_elem_of_app. split; [|done].
  unfold stuff. destruct (Z.eqb_spec ch SLIP_END); [set_solver|].
  destruct (Z.eqb_spec ch SLIP_ESC); set_solver.
Qed.

Lemma slip_recv_app a b si :
  slip_recv (a ++ b) si =
    '(si, e1) ← slip_recv a si; '(si, e2) ← slip_recv b si; Ok (si, e1 ++ e2).
Proof.
  revert si; induction a as [|ch a IH]; intros si; cbn [app slip_recv].
  - cbn. by destruct (slip_recv b si) as [[? ?]| |].
  - destruct (slip_recv_u8 ch si) as [[si1 e1]| |]; cbn; [|done..]. rewrite IH.
    destruct (slip_recv a si1) as [[si2 e2]| |]; cbn; [|done..].
    destruct (slip_recv b si2) as [[si3 e3]| |]; cbn; [|done..]. by rewrite app_assoc.
Qed.

(** The receiver with [acc] received so far of a frame. *)
Record receiving (si : slip_instance) (acc : list Z) : Prop := {
  rv_lock : idi_lock si = false;
  rv_esc : si_recv_esc si = false;
  rv_octets : si_recv_octets si = Z.of_nat (length acc);
  rv_acc : take (length acc) (si_recv_packet si) = acc;
  rv_packet : length (si_recv_packet si) = Z.to_nat MRU;
  rv_ignore : si_recv_ignore si = (MRU <=? Z.of_nat (length acc));
  rv_client : client_live si }.

Lemma store_receiving ch si0 si acc :
  receiving si acc -> Z.of_nat (length acc) < MRU ->
  si_recv_octets si0 = si_recv_octets si -> si_recv_packet si0 = si_recv_packet si ->
  si_recv_esc si0 = false -> si_recv_ignore si0 = false -> idi_lock si0 = true -> attached si0 = attached si ->
  exists si', store_octet ch si0 = Ok si' /\ receiving (si' <| idi_lock := false |>) (acc ++ [ch])
    /\ idi_lock si' = true /\ attached si' = attached si.
Proof.
  intros [R1 R2 R3 R4 R5 R6 R7] Hlt E1 E2 E3 E4 E5 E6.
  destruct (store_octet_spec ch si0) as (si' & Hs & Ht & Ho & He & Hl & Hc & Hg & Hp & _).
  { rewrite E1, R3. lia. } { by rewrite E2. }
  exists si'. split; [done|]. split; [|split; congruence].
  assert (Ea : Z.of_nat (length (acc ++ [ch])) = si_recv_octets si0 + 1) by (rewrite E1, R3, length_app; cbn; lia).
  split; cbn; auto; try congruence.
  - rewrite Ho, E1, R3, E2, Nat2Z.id, R4 in Ht.
    replace (Z.to_nat (Z.of_nat (length acc) + 1)) with (length (acc ++ [ch])) in Ht by (rewrite length_app; cbn; lia).
    done.
  - rewrite Hg, E4, orb_false_r, Ea. done.
  - eapply (client_live_eq si); [|done]. change (attached si' = attached si). congruence.
Qed.

(** Receiving what one data byte was sent as. *)
Lemma recv_stuff ch si acc :
  receiving si acc -> Z.of_nat (length acc) < MRU ->
  exists si', slip_recv (stuff ch) si = Ok (si', []) /\ receiving si' (acc ++ [ch]) /\ attached si' = attached si.
Proof.
  intros Hr Hlt. pose proof Hr as [R1 R2 R3 R4 R5 R6 R7].
  assert (Hi : si_recv_ignore si = false) by (rewrite R6; lia).
  assert (Hone : forall c si1, ch <> SLIP_END -> c = ch -> ch <> SLIP_ESC -> si1 = si ->
    exists si', slip_recv [c] si1 = Ok (si', []) /\ receiving si' (acc ++ [ch]) /\ attached si' = attached si).
  { intros c si1 H1 -> H2 ->. cbn [slip_recv]. rewrite slip_recv_u8_run by done.
    replace (ch =? SLIP_END) with false by lia. unfold recv_other. cbn [si_recv_ignore si_recv_esc setter].
    rewrite Hi, R2. replace (ch =? SLIP_ESC) with false by lia.
    destruct (store_receiving ch (si <| idi_lock := true |>) si acc) as (si' & Hs & Hr' & Hl & Hc); auto.
    rewrite Hs. cbn. unfold unlock_idi. rewrite Hl. cbn. eexists. split; [done|]. by split. }
  assert (Htwo : forall c, c = 0xdc /\ ch = SLIP_END \/ c = 0xdd /\ ch = SLIP_ESC ->
    exists si', slip_recv [SLIP_ESC; c] si = Ok (si', []) /\ receiving si' (acc ++ [ch]) /\ attached si' = attached si).
  { intros c Hc. cbn [slip_recv]. rewrite slip_recv_u8_run by done. change (SLIP_ESC =? SLIP_END) with false. cbv iota.
    unfold recv_other. cbn [si_recv_ignore si_recv_esc setter]. rewrite Hi, R2.
    change (SLIP_ESC =? SLIP_ESC) with true. unfold unlock_idi. cbn.
    unfold slip_recv_u8, lock_idi. cbn [idi_lock setter]. cbn [spin_lock mbind res_bind].
    assert (c =? SLIP_END = false) as -> by (destruct Hc as [[-> _]|[-> _]]; done). 
    unfold recv_other. cbn [si_recv_ignore si_recv_esc setter]. rewrite Hi.
    assert (c =? SLIP_ESC = false) as -> by (destruct Hc as [[-> _]|[-> _]]; done).
    match goal with |- context [store_octet SLIP_END ?s] => set (si0 := s) end.
    destruct (store_receiving ch si0 si acc) as (si' & Hs & Hr' & Hl & Hcl); auto.
    exists (si' <| idi_lock := false |>). split; [|by split].
    destruct Hc as [[-> ->]|[-> ->]]; cbn; rewrite Hs; cbn; unfold unlock_idi; rewrite Hl; done. }
  unfold stuff. destruct (Z.eqb_spec ch SLIP_END); [apply Htwo; auto|].
  destruct (Z.eqb_spec ch SLIP_ESC); [apply Htwo; auto|]. by apply Hone.
Qed.

Lemma recv_encode data si acc :
  receiving si acc -> Z.of_nat (length (acc ++ data)) <= MRU ->
  exists si', slip_recv (encode data) si = Ok (si', []) /\ receiving si' (acc ++ data) /\ attached si' = attached si.
Proof.
  revert si acc; induction data as [|ch data IH]; intros si acc Hr Hlen.
  - exists si. by rewrite app_nil_r.
  - change (encode (ch :: data)) with (stuff ch ++ encode data). rewrite slip_recv_app.
    rewrite length_app in Hlen. cbn in Hlen.
    destruct (recv_stuff ch si acc Hr) as (si1 & -> & Hr1 & Hc1); [lia|]. cbn.
    destruct (IH si1 (acc ++ [ch]) Hr1) as (si2 & -> & Hr2 & Hc2); [rewrite !length_app in *; cbn; lia|].
    exists si2. cbn. split; [done|]. split; [by rewrite <-app_assoc in Hr2|congruence].
Qed.

(** A frame too long is dropped byte by byte. *)
Lemma recv_ignored chs si :
  client_live si -> idi_lock si = false -> si_recv_ignore si = true -> SLIP_END ∉ chs -> slip_recv chs si = Ok (si, []).
Proof.
  intros Hc Hl Hi. revert si Hc Hl Hi; induction chs as [|ch chs IH]; intros si Hc Hl Hi Hn; [done|].
  apply not_elem_of_cons in Hn as [H1 H2]. cbn [slip_recv]. rewrite slip_recv_u8_run by done.
  replace (ch =? SLIP_END) with false by lia. unfold recv_other. cbn [si_recv_ignore setter]. rewrite Hi. cbn.
  assert (E : si <| idi_lock := true |> <| idi_lock := false |> = si) by (destruct si; cbn in *; by subst).
  cbn in E. rewrite E, IH by done. done.
Qed.

(** The end of a frame delivers it unless it is to be ignored or empty. *)
Lemma recv_end_frame si acc :
  receiving si acc ->
  exists si', slip_recv [SLIP_END] si = Ok (si', if negb (MRU <=? size_of acc) && negb (size_of acc =? 0)
      then to_client acc si else []) /\ receiving si' [] /\ attached si' = attached si.
Proof.
  intros [R1 R2 R3 R4 R5 R6 R7]. cbn [slip_recv]. rewrite slip_recv_u8_run by done. change (SLIP_END =? SLIP_END) with true.
  unfold ended, pending, unlock_idi. cbn [si_recv_ignore si_recv_octets setter]. rewrite R6, R3.
  unfold size_of. rewrite Nat2Z.id, R4.
  destruct (negb (MRU <=? Z.of_nat (length acc)) && negb (Z.of_nat (length acc) =? 0)); cbn;
    (eexists; split; [by rewrite ?app_nil_r|]); (split; [|done]); split; cbn; auto; by rewrite ?length_replicate.
Qed.

(** Any state the receiver can be in starts a new frame at the next END. *)
Lemma recv_start si :
  slip_ok si -> idi_lock si = false ->
  exists si', slip_recv [SLIP_END] si = Ok (si', pending si) /\ receiving si' [] /\ attached si' = attached si.
Proof.
  intros [O1 O2 O3 O4] Hl. cbn [slip_recv]. rewrite slip_recv_u8_run by done. change (SLIP_END =? SLIP_END) with true.
  unfold ended, pending, unlock_idi. cbn [si_recv_ignore si_recv_octets setter].
  destruct (negb (si_recv_ignore si) && negb (si_recv_octets si =? 0)); cbn;
    (eexists; split; [by rewrite ?app_nil_r|]); (split; [|done]); split; cbn; auto; by rewrite ?length_replicate.
Qed.

(** The packet a queued netbuf stands for. *)
Definition payload (nb : netbuf) : list Z := nb_network nb ++ nb_transport nb ++ nb_application nb.

(** A turn of the send thread with a packet queued. *)
Lemma slip_send_one_frame si st n nb :
  idi_lock si = false -> si_send_queue si = Some n -> st !! n = Some nb -> size_of (payload nb) < 2 ^ 16 ->
  exists st', nb_deref n st = Ok st'
    /\ slip_send_one si st = Ok (Some (si <| si_send_queue := nb_next nb |>, st', [SLIP_END] ++ encode (payload nb) ++ [SLIP_END])).
Proof.
  intros Hl Hq Hn Hs. unfold slip_send_one, lock_idi, unlock_idi. rewrite Hl. cbn [spin_lock mbind res_bind si_send_queue setter].
  rewrite Hq, Hn. cbn [spin_unlock mbind res_bind idi_lock setter].
  unfold payload, size_of in Hs. rewrite !length_app in Hs.
  assert (E : forall l, (length l <= length (payload nb))%nat ->
    (if size_of l =? 0 then [] else send_layer l) = encode l).
  { intros l Hle. unfold payload in Hle. rewrite !length_app in Hle. destruct (Z.eqb_spec (size_of l) 0) as [E|E].
    - destruct l; [done|]. unfold size_of in E. cbn in E. lia.
    - apply send_layer_encode. unfold size_of. lia. }
  rewrite send_layer_encode by (unfold size_of; lia).
  rewrite !E by (unfold payload; rewrite !length_app; lia).
  unfold nb_deref. rewrite Hn. eexists. split; [reflexivity|]. cbn [mbind res_bind].
  unfold payload. rewrite !encode_app, <-!app_assoc. do 4 f_equal. destruct si; cbn in *. by subst.
Qed.

(** A frame, received in any state. *)
Lemma slip_frame_received si st n nb ri idc :
  idi_lock si = false -> si_send_queue si = Some n -> st !! n = Some nb -> 0 < size_of (payload nb) < 2 ^ 16 ->
  slip_ok ri -> idi_lock ri = false -> idi_client ri = Some idc ->
  exists sent st' ri', slip_send_one si st = Ok (Some (si <| si_send_queue := nb_next nb |>, st', sent))
    /\ nb_deref n st = Ok st'
    /\ slip_recv sent ri = Ok (ri', pending ri ++
         if size_of (payload nb) <? MRU then [Recv idc (payload nb)] else [])
    /\ receiving ri' [] /\ idi_client ri' = Some idc /\ structs ri' = structs ri.
Proof.
  intros Hls Hq Hn Hs Hok Hl Hc. destruct (slip_send_one_frame si st n nb) as (st' & Hd & ->); [auto; lia..|].
  set (data := payload nb) in *.
  destruct (recv_start ri Hok Hl) as (r1 & H1 & Hr1 & Hc1).
  destruct (Z.ltb_spec (size_of data) MRU) as [Hlt|Hge].
  - destruct (recv_encode data r1 [] Hr1) as (r2 & H2 & Hr2 & Hc2); [unfold size_of in *; cbn; lia|].
    destruct (recv_end_frame r2 ([] ++ data) Hr2) as (r3 & H3 & Hr3 & Hc3).
    rewrite Hc2, Hc1 in Hc3. injection Hc3 as Hc3 Hs3. injection Hc2 as Hc2 _. injection Hc1 as Hc1 _.
    eexists _, st', r3. split_and!; [done|done| |done|congruence|done]. rewrite !slip_recv_app, H1. cbn [mbind res_bind].
    rewrite slip_recv_app, H2. cbn [mbind res_bind]. rewrite H3. cbn [mbind res_bind app].
    replace (MRU <=? size_of data) with false by lia. replace (size_of data =? 0) with false by lia.
    cbn [negb andb]. unfold to_client. by rewrite Hc2, Hc1, Hc.
  - assert (Hd1 : exists d1 d2, data = d1 ++ d2 /\ Z.of_nat (length d1) = MRU).
    { exists (take (Z.to_nat MRU) data), (drop (Z.to_nat MRU) data). rewrite take_drop. split; [done|].
      rewrite length_take_le; unfold size_of, MRU in *; lia. }
    destruct Hd1 as (d1 & d2 & Ed & Hd1).
    destruct (recv_encode d1 r1 [] Hr1) as (r2 & H2 & Hr2 & Hc2); [cbn; lia|].
    pose proof (recv_ignored (encode d2) r2 (rv_client _ _ Hr2) (rv_lock _ _ Hr2)) as H3.
    rewrite (rv_ignore _ _ Hr2) in H3. cbn [app] in H3, Hr2.
    specialize (H3 ltac:(lia) (encode_no_end d2)).
    destruct (recv_end_frame r2 d1 Hr2) as (r3 & H4 & Hr3 & Hc3).
    rewrite Hc2, Hc1 in Hc3. injection Hc3 as Hc3 Hs3.
    eexists _, st', r3. split_and!; [done|done| |done|congruence|done].
    rewrite Ed, encode_app, !slip_recv_app, H1. cbn [mbind res_bind].
    rewrite !slip_recv_app, H2. cbn [mbind res_bind]. rewrite H3. cbn [mbind res_bind]. rewrite H4. cbn [mbind res_bind].
    replace (MRU <=? size_of d1) with true by (unfold size_of; lia). done.
Qed.

(** Whatever bytes arrive, the receiver takes them all without writing outside
    its packet buffer, and every packet it delivers goes to the attached client, is
    nonempty and shorter than MRU.  The client and every reference count are as
    before. *)
Lemma slip_recv_total chs si :
  slip_ok si -> idi_lock si = false ->
  exists si' evs, slip_recv chs si = Ok (si', evs) /\ slip_ok si' /\ idi_lock si' = false
    /\ idi_client si' = idi_client si /\ structs si' = structs si
    /\ Forall (fun '(Recv idc p) => idi_client si = Some idc /\ 0 < size_of p < MRU) evs.
Proof.
  revert si; induction chs as [|ch chs IH]; intros si Hok Hl; [by exists si, []|].
  destruct (slip_recv_u8_ok ch si Hok Hl) as (si1 & e1 & H1 & Hok1 & Hl1).
  destruct (slip_recv_u8_events ch si si1 e1 Hok Hl H1) as [[Hc1 Hs1]%pair_eq Hf1].
  destruct (IH si1 Hok1 Hl1) as (si2 & e2 & H2 & Hok2 & Hl2 & Hc2 & Hs2 & Hf2).
  exists si2, (e1 ++ e2). cbn [slip_recv]. rewrite H1. cbn [mbind res_bind]. rewrite H2.
  split_and!; auto; try congruence. apply Forall_app. split; [done|]. by rewrite Hc1 in Hf2.
Qed.

(** C22: the link recovers.  Whatever octets arrive first, the receiver takes them all
    without writing outside its packet buffer, and every packet it delivers meanwhile goes
    to the attached client, is nonempty and shorter than MRU.  What the sender then puts
    on the line for a queued netbuf delivers to the client exactly the bytes of the
    netbuf's layers, in one piece, provided there are fewer than MRU of them; a packet of
    MRU bytes or more is dropped.  Before that, the leading END ends whatever the receiver
    had been receiving.  The sender takes the netbuf off its queue and gives its reference
    back; the receiver keeps its client and all counts. *)
Theorem slip_frame_roundtrip noise si st n nb ri idc :
  idi_lock si = false -> si_send_queue si = Some n -> st !! n = Some nb -> 0 < size_of (payload nb) < 2 ^ 16 ->
  slip_ok ri -> idi_lock ri = false -> idi_client ri = Some idc ->
  exists ri1 evs sent st' ri', slip_recv noise ri = Ok (ri1, evs)
    /\ Forall (fun '(Recv c p) => c = idc /\ 0 < size_of p < MRU) evs
    /\ slip_send_one si st = Ok (Some (si <| si_send_queue := nb_next nb |>, st', sent))
    /\ nb_deref n st = Ok st'
    /\ slip_recv sent ri1 = Ok (ri', pending ri1 ++
         if size_of (payload nb) <? MRU then [Recv idc (payload nb)] else [])
    /\ receiving ri' [] /\ idi_client ri' = Some idc /\ structs ri' = structs ri.
Proof.
  intros Hls Hq Hn Hs Hok Hl Hc. destruct (slip_recv_total noise ri Hok Hl) as (ri1 & evs & H1 & Hok1 & Hl1 & Hc1 & Hs1 & Hf).
  destruct (slip_frame_received si st n nb ri1 idc Hls Hq Hn Hs Hok1 Hl1 ltac:(congruence)) as (sent & st' & ri' & H2 & H3 & H4 & H5 & H6 & H7).
  exists ri1, evs, sent, st', ri'. split_and!; try done; [|congruence].
  eapply Forall_impl; [exact Hf|]. intros [c p] [E Hp]. split; [congruence|done].
Qed.

(** An instance at address 100 with its send thread at 9, and with a client at 300
    that has the server 400. *)
Definition demo_slip : slip_instance :=
  Slip_ 100 false MRU MRU None (Some 50) false 0 true fresh_packet (Some 9) None {[100 := 2; 300 := 1]} ∅.
Definition demo_attached : slip_instance :=
  demo_slip <| idi_client := Some 300 |> <| structs := {[100 := 3; 300 := 2; 400 := 1]} |> <| idc_server := {[300 := 400]} |>.

Example demo_slip_alloc :
  (si ← slip_instance_alloc (fun uc r => r ← struct_ref uc r; Ok (50, r)) 100 200 {[300 := 1]};
   slip_client_attach 300 400 (slip_send_start 9 si))
  = Ok (Some 400, demo_attached <| structs := {[100 := 3; 200 := 1; 300 := 2; 400 := 1]} |>).
Proof. vm_compute. reflexivity. Qed.

Example demo_slip_detach : slip_client_detach 400 demo_attached = Ok (demo_slip <| idc_server := {[300 := 400]} |>).
Proof. vm_compute. reflexivity. Qed.

Lemma demo_slip_ok : slip_ok demo_attached.
Proof.
  split; [unfold MRU; cbn; lia|done..|]. intros c [= <-]. exists 2. split; [reflexivity|lia].
Qed.

Lemma slip_frame_roundtrip_witness :
  exists ri1 evs sent st' ri', slip_recv [1; 2; 0xc0; 5; 0xdb] demo_attached = Ok (ri1, evs)
    /\ Forall (fun '(Recv c p) => c = 300 /\ 0 < size_of p < MRU) evs
    /\ slip_send_one (demo_slip <| si_send_queue := Some 0%nat |>)
      {[0%nat := Netbuf_ [] [0xc0; 1] [0xdb] [2; 3] None 1 None]}
    = Ok (Some (demo_slip, st', sent))
    /\ nb_deref 0 {[0%nat := Netbuf_ [] [0xc0; 1] [0xdb] [2; 3] None 1 None]} = Ok st'
    /\ slip_recv sent ri1 = Ok (ri', pending ri1 ++ [Recv 300 [0xc0; 1; 0xdb; 2; 3]])
    /\ receiving ri' [] /\ idi_client ri' = Some 300 /\ structs ri' = structs demo_attached.
Proof.
  refine (slip_frame_roundtrip [1; 2; 0xc0; 5; 0xdb] (demo_slip <| si_send_queue := Some 0%nat |>)
    {[0%nat := Netbuf_ [] [0xc0; 1] [0xdb] [2; 3] None 1 None]} 0%nat (Netbuf_ [] [0xc0; 1] [0xdb] [2; 3] None 1 None)
    demo_attached 300 eq_refl eq_refl eq_refl _ demo_slip_ok eq_refl eq_refl).
  split; reflexivity.
Defined.
