(* ===== verification/PppAhdlc.v ===== *)
(** * PPP in HDLC-like framing (src/lib/ppp_ahdlc/ppp_ahdlc.c)

    The CRC table and its update, the byte-driven receiver over the fields of
    [struct ppp_ahdlc_instance], and the sender with its escaping by the ACCM.  The
    contents of a fresh packet buffer are unspecified: they are the parameter
    [uninit].  A call of the client's [pac_recv] or [pac_link_up] is an output event.
    The client, server and instance structures are counted. *)

From stdpp Require Import base list gmap fin_maps strings.
From Stdlib Require Import ZArith Lia.
From S2P Require Import Prelude Sched Netbuf.
Open Scope Z_scope.

Module Ahdlc.

Definition MRU : Z := 1500.
Definition PPP_FLAG : Z := 0x7e.
Definition PPP_ESC : Z := 0x7d.

(** ** The CRC *)

(** The entry [ppp_ahdlc_instance_alloc] stores at index [i] of [ppp_crc]. *)
Definition ppp_crc_entry (i : Z) : Z :=
  let zx := u16 (Z.land (Z.lxor i (Z.shiftl i 4)) 0xff) in
  u16 (Z.lxor (Z.lxor (Z.shiftl zx 8) (Z.shiftl zx 3)) (Z.shiftr zx 4)).

(** The loop that fills the table. *)
Definition ppp_crc : list Z := ppp_crc_entry <$> seqZ 0 256.

Definition update_crc (orig_crc val : Z) : Z :=
  Z.lxor (Z.shiftr orig_crc 8) (nth (Z.to_nat (Z.lxor val (Z.land orig_crc 0xff))) ppp_crc 0).

(** ** The instance *)

(** The fields of a client that this layer uses. *)
Record ppp_ahdlc_client := Pac_ {
  pac_server : option Z;
  pac_link_up : bool             (* there is a [pac_link_up] function *) }.

#[export] Instance eta_pac : Eta ppp_ahdlc_client := fun c => Pac_ (pac_server c) (pac_link_up c).

(** The fields of [struct ppp_ahdlc_instance], and the structures it shares with its
    clients: their reference counts and the clients' fields.  [pai_send_ctx] is what
    the memory held until the send thread sets it: 0 stands for NULL. *)
Record ppp_ahdlc_instance := Ahdlc_ {
  pai_addr : Z;                  (* where the instance is *)
  pai_lock : bool;
  pai_client : option Z;
  pai_server : option Z;         (* the UART *)
  pai_recv_esc : bool;
  pai_recv_octets : Z;
  pai_recv_ignore : bool;
  pai_recv_packet : list Z;      (* the MRU bytes of the membuf *)
  pai_recv_crc : Z;
  pai_accm : Z;
  pai_send_ctx : Z;
  pai_send_queue : option nbid;
  structs : refs;
  clients : gmap Z ppp_ahdlc_client }.

#[export] Instance eta_ahdlc : Eta ppp_ahdlc_instance := fun p =>
  Ahdlc_ (pai_addr p) (pai_lock p) (pai_client p) (pai_server p) (pai_recv_esc p) (pai_recv_octets p) (pai_recv_ignore p)
    (pai_recv_packet p) (pai_recv_crc p) (pai_accm p) (pai_send_ctx p) (pai_send_queue p) (structs p) (clients p).

Definition lock_pai (pai : ppp_ahdlc_instance) : res ppp_ahdlc_instance :=
  lk ← spin_lock (pai_lock pai); Ok (pai <| pai_lock := lk |>).

Definition unlock_pai (pai : ppp_ahdlc_instance) : res ppp_ahdlc_instance :=
  lk ← spin_unlock (pai_lock pai); Ok (pai <| pai_lock := lk |>).

(** A call that changes the counts. *)
Definition on_structs (f : refs -> res refs) (pai : ppp_ahdlc_instance) : res ppp_ahdlc_instance :=
  r ← f (structs pai); Ok (pai <| structs := r |>).

(** [pac_recv] of the client called with a netbuf whose datalink layer is [size] bytes
    of [packet] from offset 2, and [pac_link_up]. *)
Inductive ahdlc_event :=
  | Recv (pac : Z) (packet : list Z) (size : Z)
  | Link_up (pac : Z).

Section receiver.
Variable uninit : list Z.

(** The netbuf goes to the client, if there is one, with the lock released. *)
Definition deliver (packet : list Z) (size : Z) (pai : ppp_ahdlc_instance) :
    res (ppp_ahdlc_instance * list ahdlc_event) :=
  match pai_client pai with
  | None => Ok (pai, [])
  | Some pac =>
    pai ← on_structs (struct_ref pac) pai;
    pai ← unlock_pai pai;
    pai ← lock_pai pai;
    pai ← on_structs (struct_deref pac) pai;
    Ok (pai, [Recv pac packet size])
  end.

(** The netbuf takes the packet over, so that the release of the netbuf frees it
    and a new packet is allocated. *)
Definition recv_flag (pai : ppp_ahdlc_instance) : res (ppp_ahdlc_instance * list ahdlc_event) :=
  '(pai, evs) ← (
    if negb (pai_recv_ignore pai) && negb (pai_recv_octets pai =? 0) then
      if (pai_recv_crc pai =? 0xf0b8)
         || (nth 0 (pai_recv_packet pai) 0 =? 0xff) || (nth 1 (pai_recv_packet pai) 0 =? 0x03)
      then
        '(pai, evs) ← deliver (pai_recv_packet pai) (u32 (pai_recv_octets pai - 4)) pai;
        Ok (pai <| pai_recv_packet := uninit |>, evs)
      else Ok (pai, [])
    else Ok (pai, []));
  Ok (pai <| pai_recv_octets := 0 |> <| pai_recv_esc := false |> <| pai_recv_ignore := false |>
       <| pai_recv_crc := 0xffff |>, evs).

Definition store_octet (ch : Z) (pai : ppp_ahdlc_instance) : res ppp_ahdlc_instance :=
  if pai_recv_octets pai <? MRU then
    let pai := pai <| pai_recv_packet := <[Z.to_nat (pai_recv_octets pai) := ch]> (pai_recv_packet pai) |>
                   <| pai_recv_octets := u16 (pai_recv_octets pai + 1) |> in
    let pai := if MRU <=? pai_recv_octets pai then pai <| pai_recv_ignore := true |> else pai in
    Ok (pai <| pai_recv_crc := update_crc (pai_recv_crc pai) ch |>)
  else Stop "write past pai_recv_packet".

Definition recv_other (ch : Z) (pai : ppp_ahdlc_instance) : res ppp_ahdlc_instance :=
  if pai_recv_ignore pai then Ok pai
  else if ch =? PPP_ESC then
    Ok (if pai_recv_esc pai then pai <| pai_recv_ignore := true |> else pai <| pai_recv_esc := true |>)
  else if pai_recv_esc pai then store_octet (Z.lxor ch 0x20) (pai <| pai_recv_esc := false |>)
  else store_octet ch pai.

Definition ppp_ahdlc_recv_u8 (ch : Z) (pai : ppp_ahdlc_instance) : res (ppp_ahdlc_instance * list ahdlc_event) :=
  pai ← lock_pai pai;
  '(pai, evs) ← (if ch =? PPP_FLAG then recv_flag pai else pai ← recv_other ch pai; Ok (pai, []));
  pai ← unlock_pai pai;
  Ok (pai, evs).

Fixpoint ahdlc_recv (chs : list Z) (pai : ppp_ahdlc_instance) : res (ppp_ahdlc_instance * list ahdlc_event) :=
  match chs with
  | [] => Ok (pai, [])
  | ch :: chs =>
    '(pai, e1) ← ppp_ahdlc_recv_u8 ch pai;
    '(pai, e2) ← ahdlc_recv chs pai;
    Ok (pai, e1 ++ e2)
  end.

End receiver.

(** ** Sending *)

(** The bytes handed to [us_send] and the updated CRC. *)
Definition send_u8 (ch accm crc : Z) : list Z * Z :=
  let crc := update_crc crc ch in
  if (ch =? PPP_FLAG) || (ch =? PPP_ESC)
     || ((ch <? 0x20) && negb (Z.land accm (u32 (Z.shiftl 1 ch)) =? 0))
  then ([PPP_ESC; Z.lxor ch 0x20], crc)
  else ([ch], crc).

Fixpoint ppp_ahdlc_send_sequence (buf : list Z) (cnt : nat) (accm crc : Z) : list Z * Z :=
  match cnt, buf with
  | S cnt, ch :: buf =>
    let '(out1, crc) := send_u8 ch accm crc in
    let '(out2, crc) := ppp_ahdlc_send_sequence buf cnt accm crc in
    (out1 ++ out2, crc)
  | _, _ => ([], crc)
  end.

(** A layer with its size passed as a [u16_t]. *)
Definition send_layer (layer : list Z) (accm crc : Z) : list Z * Z :=
  ppp_ahdlc_send_sequence layer (Z.to_nat (u16 (size_of layer))) accm crc.

Definition send_layer_if (layer : list Z) (accm crc : Z) : list Z * Z :=
  if size_of layer =? 0 then ([], crc) else send_layer layer accm crc.

(** The frame of one netbuf: flag, address and control, layers, FCS, flag. *)
Definition ahdlc_frame (nb : netbuf) (accm : Z) : list Z :=
  let '(o1, crc) := send_u8 0xff accm 0xffff in
  let '(o2, crc) := send_u8 0x03 accm crc in
  let '(o3, crc) := send_layer (nb_datalink nb) accm crc in
  let '(o4, crc) := send_layer (nb_network nb) accm crc in
  let '(o5, crc) := send_layer_if (nb_transport nb) accm crc in
  let '(o6, crc) := send_layer_if (nb_application nb) accm crc in
  let crc := u16 (Z.lnot crc) in
  let '(o7, _) := send_u8 (u8 (Z.land crc 0xff)) accm 0 in
  let '(o8, _) := send_u8 (u8 (Z.land (Z.shiftr crc 8) 0xff)) accm 0 in
  [PPP_FLAG] ++ o1 ++ o2 ++ o3 ++ o4 ++ o5 ++ o6 ++ o7 ++ o8 ++ [PPP_FLAG].

(** What [ppp_ahdlc_send_thread] does before its loop; [ctx] is its context.  The call
    of [us_set_send_isr] is the driver's. *)
Definition ahdlc_send_start (ctx : Z) (pai : ppp_ahdlc_instance) : res (ppp_ahdlc_instance * list ahdlc_event) :=
  pai ← lock_pai (pai <| pai_send_ctx := ctx |>);
  match pai_client pai with
  | None => pai ← unlock_pai pai; Ok (pai, [])
  | Some pac =>
    match clients pai !! pac with
    | None => Stop "use of a freed client"
    | Some c =>
      if pac_link_up c then
        pai ← on_structs (struct_ref pac) pai;
        pai ← unlock_pai pai;
        pai ← on_structs (struct_deref pac) pai;
        Ok (pai, [Link_up pac])
      else pai ← unlock_pai pai; Ok (pai, [])
    end
  end.

(** One turn of the loop of [ppp_ahdlc_send_thread]: the bytes sent, the queue and the
    netbufs left; [None] when there is nothing to send, and the thread sleeps in
    [context_wait], the lock released, until [ppp_ahdlc_send_netbuf] signals it. *)
Definition ahdlc_send_one (pai : ppp_ahdlc_instance) (st : nbstore) :
    res (option (ppp_ahdlc_instance * nbstore * list Z)) :=
  pai ← lock_pai pai;
  match pai_send_queue pai with
  | None => Ok None
  | Some n =>
    match st !! n with
    | None => Stop "bad netbuf pointer"
    | Some nb =>
      pai ← unlock_pai (pai <| pai_send_queue := nb_next nb |>);
      match nb_hint nb with
      | None => Stop "null nb_hint_membuf"
      | Some accm =>
        let sent := ahdlc_frame nb accm in
        st ← nb_deref n st;
        Ok (Some (pai, st, sent))
      end
    end
  end.

(** The third result is the context signalled, if there is one. *)
Definition ppp_ahdlc_send_netbuf (n : nbid) (pai : ppp_ahdlc_instance) (st : nbstore) :
    res (ppp_ahdlc_instance * nbstore * option Z) :=
  st ← nb_ref n st;
  pai ← lock_pai pai;
  '(q, st) ← queue_append (pai_send_queue pai) n st;
  let pai := pai <| pai_send_queue := q |> in
  let st := alter (fun nb => nb <| nb_hint := Some (pai_accm pai) |>) n st in
  let signalled := if pai_send_ctx pai =? 0 then None else Some (pai_send_ctx pai) in
  pai ← unlock_pai pai;
  Ok (pai, st, signalled).

Definition ppp_ahdlc_set_accm (accm : Z) (pai : ppp_ahdlc_instance) : res ppp_ahdlc_instance :=
  pai ← lock_pai pai;
  unlock_pai (pai <| pai_accm := accm |>).

Definition ppp_ahdlc_get_accm (pai : ppp_ahdlc_instance) : res (Z * ppp_ahdlc_instance) :=
  pai ← lock_pai pai;
  let accm := pai_accm pai in
  pai ← unlock_pai pai;
  Ok (accm, pai).

(** ** Clients *)

(** [pac] is the address [membuf_alloc] gives; what [pac_server] holds is not set. *)
Definition ppp_ahdlc_client_alloc (pac : Z) (pai : ppp_ahdlc_instance) : res ppp_ahdlc_instance :=
  pai ← on_structs (struct_alloc pac) pai;
  Ok (pai <| clients := <[pac := Pac_ None false]> (clients pai) |>).

(** [pas] is the address [membuf_alloc] gives to the new server; the result is the
    server, if the client was accepted. *)
Definition ppp_ahdlc_client_attach (pac pas : Z) (pai : ppp_ahdlc_instance) : res (option Z * ppp_ahdlc_instance) :=
  pai ← lock_pai pai;
  '(r, pai) ← match pai_client pai with
    | Some _ => Ok (None, pai)
    | None =>
      pai ← on_structs (struct_alloc pas) pai;
      pai ← on_structs (struct_ref (pai_addr pai)) pai;
      let pai := pai <| clients := alter (fun c => c <| pac_server := Some pas |>) pac (clients pai) |>
                     <| pai_client := Some pac |> in
      pai ← on_structs (struct_ref pac) pai;
      Ok (Some pas, pai)
    end;
  pai ← unlock_pai pai;
  Ok (r, pai).

Definition ppp_ahdlc_client_detach (pas : Z) (pai : ppp_ahdlc_instance) : res ppp_ahdlc_instance :=
  pai ← lock_pai pai;
  match pai_client pai with
  | None => Stop "null pai_client"
  | Some pac =>
    pai ← (if bool_decide (clients pai !! pac ≫= pac_server = Some pas) then
        pai ← on_structs (struct_deref pas) pai;
        pai ← on_structs (struct_deref (pai_addr pai)) pai;
        pai ← on_structs (struct_deref pac) pai;
        Ok (pai <| pai_client := None |>)
      else Ok pai);
    unlock_pai pai
  end.

(** [self] and [uc] are the addresses of the instance and of its UART client among the
    structures [r], [cs] the clients; the attachment to the UART is the driver's.  [crc]
    and [ctx] are what the memory of [pai_recv_crc] and [pai_send_ctx] held, the
    function does not set them.  The table is [ppp_crc]; the thread it creates is
    [ahdlc_send_start] and then [ahdlc_send_one] for ever. *)
Definition ppp_ahdlc_instance_alloc (uninit : list Z) (crc ctx : Z) (ui_client_attach : Z -> refs -> res (Z * refs))
    (self uc : Z) (r : refs) (cs : gmap Z ppp_ahdlc_client) : res ppp_ahdlc_instance :=
  r ← struct_alloc self r;
  r ← struct_alloc uc r;
  r ← struct_ref self r;
  '(us, r) ← ui_client_attach uc r;
  r ← struct_deref uc r;
  Ok (Ahdlc_ self false None (Some us) false 0 true uninit crc 0xffffffff ctx None r cs).

End Ahdlc.
Export Ahdlc.

(** ** CRC-16 of RFC 1662 *)

(** One bit of the reflected CRC with polynomial 0x8408. *)
Definition crc_bit (x : Z) : Z :=
  if Z.odd x then Z.lxor (Z.shiftr x 1) 0x8408 else Z.shiftr x 1.

Definition crc_bits8 (x : Z) : Z :=
  crc_bit (crc_bit (crc_bit (crc_bit (crc_bit (crc_bit (crc_bit (crc_bit x))))))).

(** The reference: a byte at a time, bit by bit. *)
Definition crc16_byte (crc b : Z) : Z := crc_bits8 (Z.lxor crc b).
Definition crc16 (crc : Z) (l : list Z) : Z := foldl crc16_byte crc l.

(** A bit step is linear, and shifts a zero bit out. *)
Lemma crc_bit_lxor a b : crc_bit (Z.lxor a b) = Z.lxor (crc_bit a) (crc_bit b).
Proof.
  unfold crc_bit. rewrite <-!Z.bit0_odd, Z.lxor_spec, Z.shiftr_lxor.
  apply Z.bits_inj'. intros n _.
  destruct (Z.testbit a 0), (Z.testbit b 0); cbn [xorb]; rewrite !Z.lxor_spec;
    destruct (Z.testbit (Z.shiftr a 1) n), (Z.testbit (Z.shiftr b 1) n), (Z.testbit 0x8408 n); done.
Qed.

Lemma crc_bits8_lxor a b : crc_bits8 (Z.lxor a b) = Z.lxor (crc_bits8 a) (crc_bits8 b).
Proof. unfold crc_bits8. by rewrite !crc_bit_lxor. Qed.

Lemma crc_bit_double y : crc_bit (2 * y) = y.
Proof.
  unfold crc_bit. rewrite Z.odd_mul. cbn. rewrite Z.shiftr_div_pow2 by lia. rewrite Z.mul_comm. by apply Z.div_mul.
Qed.

Lemma crc_bits8_shiftl h : crc_bits8 (Z.shiftl h 8) = h.
Proof.
  rewrite Z.shiftl_mul_pow2 by lia.
  replace (h * 2 ^ 8) with (2 * (2 * (2 * (2 * (2 * (2 * (2 * (2 * h)))))))) by lia.
  unfold crc_bits8. by rewrite !crc_bit_double.
Qed.

(** Every table entry is the CRC of its index. *)
Lemma crc_table_check :
  all_from 256 0 (fun x => nth (Z.to_nat x) ppp_crc 0 =? crc_bits8 x) = true.
Proof. vm_compute. reflexivity. Qed.

Lemma split16 x : 0 <= x -> x = Z.lxor (Z.shiftl (Z.shiftr x 8) 8) (Z.land x 0xff).
Proof.
  intros Hx. apply Z.bits_inj'. intros n Hn. change 0xff with (Z.ones 8).
  rewrite Z.lxor_spec, Z.land_spec, Z.shiftl_spec by done. destruct (Z.lt_ge_cases n 8).
  - rewrite (Z.testbit_neg_r _ (n - 8)), Z.ones_spec_low by lia. by destruct (Z.testbit x n).
  - rewrite Z.shiftr_spec, Z.ones_spec_high by lia. replace (n - 8 + 8) with n by lia. by destruct (Z.testbit x n).
Qed.

Lemma crc_table_ok x : 0 <= x < 2 ^ 16 ->
  Z.lxor (Z.shiftr x 8) (nth (Z.to_nat (Z.land x 0xff)) ppp_crc 0) = crc_bits8 x.
Proof.
  intros Hx. rewrite (split16 x) at 3 by lia. rewrite crc_bits8_lxor, crc_bits8_shiftl. f_equal.
  apply Z.eqb_eq. apply (all_from_spec _ _ _ _ crc_table_check).
  change 0xff with (Z.ones 8). rewrite Z.land_ones by lia. pose proof (Z.mod_pos_bound x (2 ^ 8)). lia.
Qed.

Lemma lxor_range16 a b : 0 <= a < 2 ^ 16 -> 0 <= b < 2 ^ 16 -> 0 <= Z.lxor a b < 2 ^ 16.
Proof.
  intros Ha Hb. split; [apply Z.lxor_nonneg; lia|].
  destruct (Z.eq_dec (Z.lxor a b) 0) as [->|]; [lia|]. apply Z.log2_lt_pow2; [pose proof (Z.lxor_nonneg a b); lia|].
  eapply Z.le_lt_trans; [apply Z.log2_lxor; lia|].
  assert (forall z, 0 <= z < 2 ^ 16 -> Z.log2 z < 16).
  { intros z Hz. destruct (Z.eq_dec z 0) as [->|]; [cbn; lia|]. apply Z.log2_lt_pow2; lia. }
  pose proof (H a Ha). pose proof (H b Hb). lia.
Qed.

Lemma byte_shiftr b : is_byte b -> Z.shiftr b 8 = 0.
Proof. intros H. unfold is_byte in H. rewrite Z.shiftr_div_pow2 by lia. apply Z.div_small. lia. Qed.

Lemma byte_land b : is_byte b -> Z.land b 0xff = b.
Proof. intros H. unfold is_byte in H. change 0xff with (Z.ones 8). rewrite Z.land_ones by lia. apply Z.mod_small. lia. Qed.

Lemma land_byte z : 0 <= z -> is_byte (Z.land z 0xff).
Proof. intros H. unfold is_byte. change 0xff with (Z.ones 8). rewrite Z.land_ones by lia. apply Z.mod_pos_bound. lia. Qed.

Lemma update_crc_bits crc b : 0 <= crc < 2 ^ 16 -> is_byte b -> update_crc crc b = crc16_byte crc b.
Proof.
  intros Hc Hb. unfold update_crc, crc16_byte. unfold is_byte in Hb.
  rewrite <-crc_table_ok by (apply lxor_range16; lia).
  assert (E1 : Z.shiftr (Z.lxor crc b) 8 = Z.shiftr crc 8) by (rewrite Z.shiftr_lxor, (byte_shiftr b Hb); apply Z.lxor_0_r).
  assert (E2 : Z.land (Z.lxor crc b) 0xff = Z.lxor b (Z.land crc 0xff)).
  { rewrite <-(byte_land b Hb) at 2. rewrite Z.lxor_comm. apply Z.bits_inj'. intros n Hn.
    rewrite !Z.land_spec, !Z.lxor_spec, !Z.land_spec. destruct (Z.testbit b n), (Z.testbit crc n), (Z.testbit 0xff n); done. }
  rewrite E1, E2. done.
Qed.

Lemma crc_bit_range x : 0 <= x < 2 ^ 16 -> 0 <= crc_bit x < 2 ^ 16.
Proof.
  intros H. unfold crc_bit. assert (0 <= Z.shiftr x 1 < 2 ^ 15) by (rewrite Z.shiftr_div_pow2 by lia; Z.div_mod_to_equations; lia).
  destruct (Z.odd x); [apply lxor_range16|]; lia.
Qed.

Lemma update_crc_range crc b : 0 <= crc < 2 ^ 16 -> is_byte b -> 0 <= update_crc crc b < 2 ^ 16.
Proof.
  intros Hc Hb. rewrite update_crc_bits by done. unfold crc16_byte, crc_bits8.
  assert (H : 0 <= Z.lxor crc b < 2 ^ 16) by (apply lxor_range16; [lia|unfold is_byte in Hb; lia]).
  revert H. generalize (Z.lxor crc b). intros x H. do 8 apply crc_bit_range in H. exact H.
Qed.

Definition crc_of (crc : Z) (l : list Z) : Z := foldl update_crc crc l.

Lemma crc_of_range crc l : 0 <= crc < 2 ^ 16 -> Forall is_byte l -> 0 <= crc_of crc l < 2 ^ 16.
Proof.
  intros Hc Hl. revert crc Hc; induction Hl as [|b l Hb Hl IH]; intros crc Hc; [done|]. apply IH, update_crc_range; done.
Qed.

(** Appending the complement of the CRC, low byte first, leaves the good-FCS
    value. *)
Definition fcs_bytes (crc : Z) : list Z :=
  let crc := u16 (Z.lnot crc) in [u8 (Z.land crc 0xff); u8 (Z.land (Z.shiftr crc 8) 0xff)].

Lemma fcs_bytes_ok c : Forall is_byte (fcs_bytes c).
Proof. unfold fcs_bytes, is_byte. repeat constructor; apply u8_range. Qed.

Lemma fcs_join c : 0 <= c < 2 ^ 16 ->
  Z.lxor (Z.lxor c (nth 0 (fcs_bytes c) 0)) (Z.shiftl (nth 1 (fcs_bytes c) 0) 8) = 0xffff.
Proof.
  intros Hc. unfold fcs_bytes. cbn [nth]. set (w := u16 (Z.lnot c)).
  assert (Ew : w = Z.lxor c 0xffff).
  { rewrite lxor_ffff by lia. unfold w, u16, Z.lnot. symmetry. apply (Z.mod_unique_pos _ _ (-1)); lia. }
  pose proof (u16_range (Z.lnot c)) as Hw. fold w in Hw.
  assert (Hs : 0 <= Z.shiftr w 8 < 256) by (rewrite Z.shiftr_div_pow2 by lia; Z.div_mod_to_equations; lia).
  rewrite (byte_land (Z.shiftr w 8)) by done. rewrite !u8_small by (apply land_byte || idtac; lia).
  rewrite Z.lxor_assoc, (Z.lxor_comm (Z.land w 0xff)), <-split16 by lia.
  rewrite Ew, <-Z.lxor_assoc, Z.lxor_nilpotent. apply Z.lxor_0_l.
Qed.

Lemma good_fcs c : 0 <= c < 2 ^ 16 -> crc_of c (fcs_bytes c) = 0xf0b8.
Proof.
  intros Hc. pose proof (fcs_join c Hc) as E. pose proof (fcs_bytes_ok c) as Hb.
  assert (exists b0 b1, fcs_bytes c = [b0; b1]) as (b0 & b1 & Ef) by by eexists _, _.
  rewrite Ef in *. cbn [nth] in E.
  apply Forall_cons in Hb as [Hb0 Hb]. apply Forall_cons in Hb as [Hb1 _].
  unfold crc_of. cbn [foldl]. rewrite (update_crc_bits _ b1) by (auto using update_crc_range).
  rewrite update_crc_bits by done. unfold crc16_byte.
  rewrite <-(crc_bits8_shiftl b1), <-crc_bits8_lxor, E. reflexivity.
Qed.

(** ** What the sender puts on the line *)

Definition must_escape (accm ch : Z) : bool :=
  (ch =? PPP_FLAG) || (ch =? PPP_ESC) || ((ch <? 0x20) && negb (Z.land accm (u32 (Z.shiftl 1 ch)) =? 0)).
Definition stuff (accm ch : Z) : list Z := if must_escape accm ch then [PPP_ESC; Z.lxor ch 0x20] else [ch].
Definition encode (accm : Z) (l : list Z) : list Z := mjoin (stuff accm <$> l).

Lemma ahdlc_encode_app accm a b : encode accm (a ++ b) = encode accm a ++ encode accm b.
Proof. unfold encode. by rewrite fmap_app, join_app. Qed.

Lemma send_u8_stuff ch accm crc : send_u8 ch accm crc = (stuff accm ch, update_crc crc ch).
Proof. unfold send_u8, stuff. fold (must_escape accm ch). by destruct (must_escape accm ch). Qed.

Lemma ahdlc_send_sequence_encode l accm crc :
  ppp_ahdlc_send_sequence l (length l) accm crc = (encode accm l, crc_of crc l).
Proof.
  revert crc; induction l as [|ch l IH]; intros crc; [done|].
  cbn [length ppp_ahdlc_send_sequence]. rewrite send_u8_stuff, IH. done.
Qed.

Lemma ahdlc_send_layer_encode l accm crc : size_of l < 2 ^ 16 -> send_layer l accm crc = (encode accm l, crc_of crc l).
Proof.
  intros H. unfold send_layer, size_of in *. rewrite u16_small by lia. rewrite Nat2Z.id. apply ahdlc_send_sequence_encode.
Qed.

Lemma send_layer_if_encode l accm crc : size_of l < 2 ^ 16 -> send_layer_if l accm crc = (encode accm l, crc_of crc l).
Proof.
  intros H. unfold send_layer_if. destruct (Z.eqb_spec (size_of l) 0) as [E|E]; [|by apply ahdlc_send_layer_encode].
  destruct l; [done|]. unfold size_of in E. cbn in E. lia.
Qed.

(** The information field of the frame: the layers of the netbuf. *)
Definition payload (nb : netbuf) : list Z :=
  nb_datalink nb ++ nb_network nb ++ nb_transport nb ++ nb_application nb.
Definition framed (data : list Z) : list Z :=
  ([0xff; 0x03] ++ data) ++ fcs_bytes (crc_of 0xffff ([0xff; 0x03] ++ data)).

Lemma ahdlc_frame_encode nb accm :
  size_of (payload nb) < 2 ^ 16 ->
  ahdlc_frame nb accm = [PPP_FLAG] ++ encode accm (framed (payload nb)) ++ [PPP_FLAG].
Proof.
  intros Hs. unfold payload, size_of in Hs. rewrite !length_app in Hs. unfold ahdlc_frame. rewrite !send_u8_stuff.
  rewrite !ahdlc_send_layer_encode, !send_layer_if_encode by (unfold size_of; lia). rewrite !send_u8_stuff.
  assert (Ec : crc_of (crc_of (crc_of (crc_of (update_crc (update_crc 65535 255) 3) (nb_datalink nb)) (nb_network nb))
    (nb_transport nb)) (nb_application nb) = crc_of 0xffff ([0xff; 0x03] ++ payload nb)).
  { unfold crc_of, payload. rewrite !foldl_app. done. }
  rewrite Ec. unfold framed. set (f := fcs_bytes _).
  unfold payload. rewrite !ahdlc_encode_app. unfold f, fcs_bytes. cbv zeta.
  change (encode accm [255; 3]) with (stuff accm 255 ++ stuff accm 3 ++ []).
  match goal with |- context [encode accm [?a; ?b]] => change (encode accm [a; b]) with (stuff accm a ++ stuff accm b ++ []) end.
  rewrite !app_nil_r. by rewrite <-!app_assoc.
Qed.

(** ** The receiver *)

(** The attached client and the counts. *)
Definition attached (p : ppp_ahdlc_instance) : option Z * refs := (pai_client p, structs p).

(** The client, if there is one, is live. *)
Definition client_live (p : ppp_ahdlc_instance) : Prop := forall c, pai_client p = Some c -> live (structs p) c.

(** What the client has received when a delivery is over. *)
Definition to_client (packet : list Z) (size : Z) (p : ppp_ahdlc_instance) : list ahdlc_event :=
  match pai_client p with Some pac => [Recv pac packet size] | None => [] end.

(** The reference taken for the call is given back, and the lock retaken. *)
Lemma ahdlc_deliver_run packet size p :
  client_live p -> pai_lock p = true -> deliver packet size p = Ok (p, to_client packet size p).
Proof.
  intros Hc Hl. unfold deliver, to_client. destruct (pai_client p) as [pac|] eqn:Ei; [|done].
  pose proof (struct_ref_deref pac _ (Hc pac Ei)) as Hr. apply bind_Ok in Hr as (r & Hr & Hd).
  unfold on_structs, unlock_pai, lock_pai. rewrite Hr. cbn. rewrite Hl. cbn. rewrite Hd. cbn.
  do 2 f_equal. destruct p; cbn in *. by subst.
Qed.

Section receive.
Context (uninit : list Z) (Huninit : length uninit = Z.to_nat MRU).

(** The receiver with [acc] received so far of a frame. *)
Record receiving (p : ppp_ahdlc_instance) (acc : list Z) : Prop := {
  rv_lock : pai_lock p = false;
  rv_esc : pai_recv_esc p = false;
  rv_octets : pai_recv_octets p = Z.of_nat (length acc);
  rv_acc : take (length acc) (pai_recv_packet p) = acc;
  rv_packet : length (pai_recv_packet p) = Z.to_nat MRU;
  rv_ignore : pai_recv_ignore p = (MRU <=? Z.of_nat (length acc));
  rv_crc : pai_recv_crc p = crc_of 0xffff acc;
  rv_client : client_live p }.

Record ahdlc_ok (p : ppp_ahdlc_instance) : Prop := {
  ao_octets : 0 <= pai_recv_octets p <= MRU;
  ao_full : pai_recv_octets p = MRU -> pai_recv_ignore p = true;
  ao_packet : length (pai_recv_packet p) = Z.to_nat MRU;
  ao_client : client_live p }.

(** Is the frame received handed up, and what a flag delivers. *)
Definition frame_accepted (p : ppp_ahdlc_instance) : bool :=
  negb (pai_recv_ignore p) && negb (pai_recv_octets p =? 0)
  && ((pai_recv_crc p =? 0xf0b8) || (nth 0 (pai_recv_packet p) 0 =? 0xff) || (nth 1 (pai_recv_packet p) 0 =? 0x03)).

Definition pending (p : ppp_ahdlc_instance) : list ahdlc_event :=
  if frame_accepted p then to_client (pai_recv_packet p) (u32 (pai_recv_octets p - 4)) p else [].

(** The state after a flag. *)
Definition flagged (p : ppp_ahdlc_instance) : ppp_ahdlc_instance :=
  (if frame_accepted p then p <| pai_recv_packet := uninit |> else p)
    <| pai_recv_octets := 0 |> <| pai_recv_esc := false |> <| pai_recv_ignore := false |> <| pai_recv_crc := 0xffff |>.

Lemma recv_flag_run p : client_live p -> pai_lock p = true -> recv_flag uninit p = Ok (flagged p, pending p).
Proof.
  intros Hc Hl. unfold recv_flag, flagged, pending, frame_accepted. destruct (_ && negb _); [|done].
  destruct (_ || _); [|done]. by rewrite ahdlc_deliver_run.
Qed.

Lemma ahdlc_recv_app a b p :
  ahdlc_recv uninit (a ++ b) p =
    '(p, e1) ← ahdlc_recv uninit a p; '(p, e2) ← ahdlc_recv uninit b p; Ok (p, e1 ++ e2).
Proof.
  revert p; induction a as [|ch a IH]; intros p; cbn [app ahdlc_recv].
  - cbn. by destruct (ahdlc_recv uninit b p) as [[? ?]| |].
  - destruct (ppp_ahdlc_recv_u8 uninit ch p) as [[p1 e1]| |]; cbn; [|done..]. rewrite IH.
    destruct (ahdlc_recv uninit a p1) as [[p2 e2]| |]; cbn; [|done..].
    destruct (ahdlc_recv uninit b p2) as [[p3 e3]| |]; cbn; [|done..]. by rewrite app_assoc.
Qed.

Lemma take_insert_end (l : list Z) n ch :
  (n < length l)%nat -> take (S n) (<[n := ch]> l) = take n l ++ [ch].
Proof.
  intros Hn. rewrite insert_take_drop by done. rewrite take_app, length_take, Nat.min_l by lia.
  replace (S n - n)%nat with 1%nat by lia. rewrite take_take, Nat.min_r by lia. reflexivity.
Qed.

Lemma ahdlc_store_receiving ch p0 p acc :
  receiving p acc -> Z.of_nat (length acc) < MRU ->
  pai_recv_octets p0 = pai_recv_octets p -> pai_recv_packet p0 = pai_recv_packet p ->
  pai_recv_esc p0 = false -> pai_recv_ignore p0 = false -> pai_lock p0 = true ->
  attached p0 = attached p -> pai_recv_crc p0 = pai_recv_crc p ->
  exists p', store_octet ch p0 = Ok p' /\ receiving (p' <| pai_lock := false |>) (acc ++ [ch])
    /\ pai_lock p' = true /\ attached p' = attached p.
Proof.
  intros [R1 R2 R3 R4 R5 R6 R7 R8] Hlt E1 E2 E3 E4 E5 E6 E7. unfold store_octet.
  replace (pai_recv_octets p0 <? MRU) with true by lia.
  rewrite u16_small by (unfold MRU in *; lia). eexists. split; [reflexivity|].
  assert (El : length (acc ++ [ch]) = S (length acc)) by (rewrite length_app; cbn; lia).
  assert (Ht : take (length (acc ++ [ch])) (<[Z.to_nat (pai_recv_octets p0) := ch]> (pai_recv_packet p0)) = acc ++ [ch]).
  { rewrite E1, E2, R3, Nat2Z.id, El, take_insert_end by lia. by rewrite R4. }
  cbn [pai_recv_octets setter].
  destruct (Z.leb_spec MRU (pai_recv_octets p0 + 1)); (split; [|split; [cbn; congruence|done]]); split; cbn; auto.
  all: try (intros c; cbn; injection E6 as -> ->; apply R8).
  all: rewrite ?length_insert, ?E2; try lia; try done.
  all: try (rewrite E7, R7; unfold crc_of; by rewrite foldl_app).
  rewrite E4. symmetry. apply Z.leb_gt. lia.
Qed.

Lemma recv_u8_run ch p :
  client_live p -> pai_lock p = false ->
  ppp_ahdlc_recv_u8 uninit ch p =
    '(p', evs) ← (if ch =? PPP_FLAG then Ok (flagged (p <| pai_lock := true |>), pending p)
                  else p' ← recv_other ch (p <| pai_lock := true |>); Ok (p', []));
    p' ← unlock_pai p';
    Ok (p', evs).
Proof.
  intros Hc H. unfold ppp_ahdlc_recv_u8, lock_pai. rewrite H. cbn [spin_lock mbind res_bind].
  by destruct (ch =? PPP_FLAG); [rewrite recv_flag_run|].
Qed.

Lemma lxor_twice ch : Z.lxor (Z.lxor ch 0x20) 0x20 = ch.
Proof. by rewrite Z.lxor_assoc, Z.lxor_nilpotent, Z.lxor_0_r. Qed.

(** An escaped byte is neither a flag nor an escape. *)
Lemma escaped_plain accm ch :
  is_byte ch -> must_escape accm ch = true -> Z.lxor ch 0x20 <> PPP_FLAG /\ Z.lxor ch 0x20 <> PPP_ESC.
Proof.
  intros Hb Hm. cut (negb (Z.lxor ch 0x20 =? PPP_FLAG) && negb (Z.lxor ch 0x20 =? PPP_ESC) = true).
  { intros [H1 H2]%andb_true_iff. lia. }
  assert (Hc : (ch =? PPP_FLAG) || (ch =? PPP_ESC) || (ch <? 0x20) = true).
  { unfold must_escape in Hm. destruct (ch =? PPP_FLAG), (ch =? PPP_ESC), (ch <? 0x20); done. }
  assert (Hall : all_from 256 0 (fun ch => negb ((ch =? PPP_FLAG) || (ch =? PPP_ESC) || (ch <? 0x20))
    || (negb (Z.lxor ch 0x20 =? PPP_FLAG) && negb (Z.lxor ch 0x20 =? PPP_ESC))) = true) by (vm_compute; reflexivity).
  pose proof (all_from_spec _ _ _ ch Hall) as H. cbv beta in H. rewrite Hc in H. apply H. unfold is_byte in Hb. lia.
Qed.

Lemma ahdlc_recv_stuff accm ch p acc :
  is_byte ch -> receiving p acc -> Z.of_nat (length acc) < MRU ->
  exists p', ahdlc_recv uninit (stuff accm ch) p = Ok (p', []) /\ receiving p' (acc ++ [ch]) /\ attached p' = attached p.
Proof.
  intros Hb Hr Hlt. pose proof Hr as [R1 R2 R3 R4 R5 R6 R7 R8].
  assert (Hi : pai_recv_ignore p = false) by (rewrite R6; lia).
  unfold stuff. destruct (must_escape accm ch) eqn:Hm.
  - destruct (escaped_plain accm ch Hb Hm) as [N1 N2]. cbn [ahdlc_recv]. rewrite recv_u8_run by done.
    change (PPP_ESC =? PPP_FLAG) with false. cbv iota. unfold recv_other at 1. cbn [pai_recv_ignore pai_recv_esc setter].
    rewrite Hi, R2. change (PPP_ESC =? PPP_ESC) with true. unfold unlock_pai at 1. cbn [mbind res_bind pai_lock setter spin_unlock].
    unfold ppp_ahdlc_recv_u8, lock_pai. cbn [pai_lock setter spin_lock mbind res_bind].
    replace (Z.lxor ch 32 =? PPP_FLAG) with false by lia.
    unfold recv_other. cbn [pai_recv_ignore pai_recv_esc setter]. rewrite Hi.
    replace (Z.lxor ch 32 =? PPP_ESC) with false by lia. rewrite lxor_twice.
    match goal with |- context [store_octet ch ?s] => set (p0 := s) end.
    destruct (ahdlc_store_receiving ch p0 p acc) as (p' & Hs & Hr' & Hl & Hcl); auto.
    exists (p' <| pai_lock := false |>). split; [|by split]. rewrite Hs. cbn. unfold unlock_pai. by rewrite Hl.
  - assert (Hn : ch =? PPP_FLAG = false /\ ch =? PPP_ESC = false).
    { unfold must_escape in Hm. by destruct (ch =? PPP_FLAG), (ch =? PPP_ESC). }
    destruct Hn as [N1 N2]. cbn [ahdlc_recv]. rewrite recv_u8_run, N1 by done.
    unfold recv_other. cbn [pai_recv_ignore pai_recv_esc setter]. rewrite Hi, R2, N2.
    destruct (ahdlc_store_receiving ch (p <| pai_lock := true |>) p acc) as (p' & Hs & Hr' & Hl & Hcl); auto.
    rewrite Hs. cbn. unfold unlock_pai. rewrite Hl. eexists. split; [done|]. by split.
Qed.

Lemma ahdlc_recv_encode accm l p acc :
  Forall is_byte l -> receiving p acc -> Z.of_nat (length (acc ++ l)) <= MRU ->
  exists p', ahdlc_recv uninit (encode accm l) p = Ok (p', []) /\ receiving p' (acc ++ l) /\ attached p' = attached p.
Proof.
  intros Hl. revert p acc; induction Hl as [|ch l Hb Hl IH]; intros p acc Hr Hlen.
  - exists p. by rewrite app_nil_r.
  - change (encode accm (ch :: l)) with (stuff accm ch ++ encode accm l). rewrite ahdlc_recv_app.
    rewrite length_app in Hlen. cbn in Hlen.
    destruct (ahdlc_recv_stuff accm ch p acc Hb Hr) as (p1 & -> & Hr1 & Hc1); [lia|]. cbn.
    destruct (IH p1 (acc ++ [ch]) Hr1) as (p2 & -> & Hr2 & Hc2); [rewrite !length_app in *; cbn; lia|].
    exists p2. cbn. split; [done|]. split; [by rewrite <-app_assoc in Hr2|congruence].
Qed.

(** The closing flag: a frame is delivered when its CRC is good, or its first byte
    is 0xff, or its second byte is 0x03. *)
Definition accepted (acc packet : list Z) : bool :=
  (crc_of 0xffff acc =? 0xf0b8) || (nth 0 packet 0 =? 0xff) || (nth 1 packet 0 =? 0x03).

Lemma recv_flag_frame p acc :
  receiving p acc -> 0 < size_of acc < MRU ->
  exists p', ahdlc_recv uninit [PPP_FLAG] p
      = Ok (p', if accepted acc (pai_recv_packet p) then to_client (pai_recv_packet p) (u32 (size_of acc - 4)) p else [])
    /\ receiving p' [] /\ attached p' = attached p.
Proof.
  intros [R1 R2 R3 R4 R5 R6 R7 R8] Hs. unfold size_of in *. cbn [ahdlc_recv]. rewrite recv_u8_run by done.
  change (PPP_FLAG =? PPP_FLAG) with true. unfold flagged, pending, frame_accepted, unlock_pai.
  cbn [pai_recv_ignore pai_recv_octets pai_recv_packet pai_recv_crc setter]. rewrite R6, R3, R7.
  replace (MRU <=? Z.of_nat (length acc)) with false by lia. replace (Z.of_nat (length acc) =? 0) with false by lia.
  fold (accepted acc (pai_recv_packet p)). cbn [negb andb].
  destruct (accepted acc (pai_recv_packet p)); cbn; (eexists; split; [by rewrite ?app_nil_r|]);
    (split; [|done]); split; cbn; auto.
Qed.

(** Whatever the state, a flag starts a new frame. *)
Lemma ahdlc_recv_start p :
  ahdlc_ok p -> pai_lock p = false ->
  exists p', ahdlc_recv uninit [PPP_FLAG] p = Ok (p', pending p) /\ receiving p' [] /\ attached p' = attached p.
Proof.
  intros [O1 O2 O3 O4] Hl. cbn [ahdlc_recv]. rewrite recv_u8_run by done. change (PPP_FLAG =? PPP_FLAG) with true.
  unfold flagged, unlock_pai. change (frame_accepted (p <| pai_lock := true |>)) with (frame_accepted p).
  destruct (frame_accepted p); cbn; (eexists; split; [by rewrite ?app_nil_r|]); (split; [by split|done]).
Qed.

End receive.

(** The bytes of the netbuf handed up. *)
Definition delivered (e : ahdlc_event) : list Z :=
  match e with Recv _ packet size => take (Z.to_nat size) (drop 2 packet) | Link_up _ => [] end.

Lemma crc_of_crc16 c l : 0 <= c < 2 ^ 16 -> Forall is_byte l -> crc_of c l = crc16 c l.
Proof.
  intros Hc Hl. revert c Hc; induction Hl as [|b l Hb Hl IH]; intros c Hc; [done|].
  unfold crc_of, crc16 in *. cbn [foldl]. rewrite <-update_crc_bits by done. apply IH. by apply update_crc_range.
Qed.

(** The table driven CRC is the CRC-16 of RFC 1662 computed bit by bit, so the
    frame of a packet is the one that RFC describes. *)
Lemma framed_crc16 data : Forall is_byte data ->
  framed data = ([0xff; 0x03] ++ data) ++ fcs_bytes (crc16 0xffff ([0xff; 0x03] ++ data)).
Proof.
  intros H. unfold framed. rewrite crc_of_crc16; [done|lia|]. repeat constructor; unfold is_byte; try lia. done.
Qed.

Lemma framed_bytes data : Forall is_byte data -> Forall is_byte (framed data).
Proof.
  intros H. unfold framed. apply Forall_app. split; [|apply fcs_bytes_ok].
  repeat constructor; unfold is_byte; try lia. done.
Qed.

Lemma framed_length data : length (framed data) = (length data + 4)%nat.
Proof. unfold framed. rewrite !length_app. cbn. lia. Qed.

(** A turn of the send thread with a packet queued. *)
Lemma ahdlc_send_one_frame pai st n nb accm :
  pai_lock pai = false -> pai_send_queue pai = Some n -> st !! n = Some nb -> nb_hint nb = Some accm ->
  exists st', nb_deref n st = Ok st'
    /\ ahdlc_send_one pai st = Ok (Some (pai <| pai_send_queue := nb_next nb |>, st', ahdlc_frame nb accm)).
Proof.
  intros Hl Hq Hn Hh. unfold ahdlc_send_one, lock_pai, unlock_pai. rewrite Hl. cbn [spin_lock mbind res_bind pai_send_queue setter].
  rewrite Hq, Hn. cbn [spin_unlock mbind res_bind pai_lock setter]. rewrite Hh.
  unfold nb_deref. rewrite Hn. eexists. split; [reflexivity|]. cbn [mbind res_bind].
  do 4 f_equal. destruct pai; cbn in *. by subst.
Qed.

(** The frame of [data] is accepted, and its layers are what was framed. *)
Lemma framed_accepted data packet : Forall is_byte data -> accepted (framed data) packet = true.
Proof.
  intros Hb. unfold accepted. replace (crc_of 65535 (framed data)) with 0xf0b8; [done|]. symmetry. unfold framed.
  unfold crc_of at 1. rewrite foldl_app. apply good_fcs. apply crc_of_range; [lia|].
  repeat constructor; unfold is_byte; try lia. done.
Qed.

Lemma framed_delivered data packet pac :
  size_of data + 4 < MRU -> take (length (framed data)) packet = framed data ->
  delivered (Recv pac packet (u32 (size_of (framed data) - 4))) = data.
Proof.
  intros Hs Ht. unfold delivered, size_of in *. rewrite framed_length in *. rewrite u32_small by (unfold MRU in *; lia).
  replace (Z.to_nat (Z.of_nat (length data + 4) - 4)) with (length data) by lia.
  transitivity (take (length data) (drop 2 (take (length data + 4) packet))).
  - rewrite skipn_firstn_comm, take_take. f_equal. lia.
  - rewrite Ht. change (drop 2 (framed data)) with (data ++ fcs_bytes (crc_of 0xffff ([0xff; 0x03] ++ data))). by rewrite take_app_length.
Qed.


Definition demo_netbuf : netbuf := Netbuf_ [0xc0; 0x21] [0x7e; 1] [] [0x7d; 2] None 1 (Some 0xffffffff).
Definition demo_uninit : list Z := replicate (Z.to_nat MRU) 0xa5.

(** An instance at address 100, with a client at 300 that has the server 400. *)
Definition demo_instance : ppp_ahdlc_instance :=
  Ahdlc_ 100 false None (Some 50) false 0 true demo_uninit 0 0xffffffff 9 None {[100 := 2; 300 := 1]} {[300 := Pac_ None true]}.
Definition demo_sender : ppp_ahdlc_instance := demo_instance <| pai_send_queue := Some 0%nat |>.
Definition demo_receiver : ppp_ahdlc_instance :=
  demo_instance <| pai_client := Some 300 |> <| structs := {[100 := 3; 300 := 2; 400 := 1]} |>
    <| clients := {[300 := Pac_ (Some 400) true]} |>.

Example demo_ahdlc_alloc :
  (pai ← ppp_ahdlc_instance_alloc demo_uninit 0 7 (fun uc r => r ← struct_ref uc r; Ok (50, r)) 100 200
     {[300 := 1]} {[300 := Pac_ None true]};
   '(_, pai) ← ppp_ahdlc_client_attach 300 400 pai;
   ahdlc_send_start 9 pai)
  = Ok (demo_receiver <| structs := {[100 := 3; 200 := 1; 300 := 2; 400 := 1]} |>, [Link_up 300]).
Proof. vm_compute. reflexivity. Qed.

Example demo_ahdlc_detach :
  ppp_ahdlc_client_detach 400 demo_receiver = Ok (demo_instance <| clients := {[300 := Pac_ (Some 400) true]} |>).
Proof. vm_compute. reflexivity. Qed.

Lemma demo_receiver_live : client_live demo_receiver.
Proof. intros c [= <-]. exists 2. split; [reflexivity|lia]. Qed.


(** A frame whose first byte is 0xff is handed up whatever its CRC is, since the
    three checks of the receiver are joined by [||]; and the size handed up is that
    of the frame less 4 modulo 2^32, which for a frame of less than four octets is
    far beyond the packet buffer. *)
Theorem ahdlc_accepts_damaged_frame uninit rp rest pac :
  length uninit = Z.to_nat MRU ->
  receiving rp (0xff :: rest) -> size_of (0xff :: rest) < MRU -> pai_client rp = Some pac ->
  exists rp' size, ahdlc_recv uninit [PPP_FLAG] rp = Ok (rp', [Recv pac (pai_recv_packet rp) size])
    /\ (if size_of (0xff :: rest) <? 4 then size = 2 ^ 32 + size_of (0xff :: rest) - 4
        else size = size_of (0xff :: rest) - 4).
Proof.
  intros Hu Hr Hs Hc. destruct (recv_flag_frame uninit Hu rp _ Hr) as (rp' & H & _); [unfold size_of in *; cbn in *; lia|].
  assert (Ha : accepted (0xff :: rest) (pai_recv_packet rp) = true).
  { unfold accepted. pose proof (rv_acc _ _ Hr) as Ht. cbn in Ht.
    destruct (pai_recv_packet rp) as [|b packet]; [done|]. injection Ht as -> _. cbn. apply orb_true_intro. left.
    apply orb_true_intro. by right. }
  rewrite Ha in H. unfold to_client in H. rewrite Hc in H. eexists _, _. split; [exact H|]. unfold size_of in *. cbn [length] in *.
  destruct (Z.ltb_spec (Z.of_nat (S (length rest))) 4).
  - unfold u32. symmetry. apply (Z.mod_unique_pos _ _ (-1)); lia.
  - apply u32_small. unfold MRU in Hs. lia.
Qed.

Lemma ahdlc_accepts_damaged_frame_witness :
  exists rp' size, ahdlc_recv demo_uninit [PPP_FLAG]
      (demo_receiver <| pai_recv_ignore := false |> <| pai_recv_octets := 1 |> <| pai_recv_packet := 0xff :: tail demo_uninit |>
         <| pai_recv_crc := foldl update_crc 0xffff [0xff] |>)
    = Ok (rp', [Recv 300 (0xff :: tail demo_uninit) size]) /\ size = 2 ^ 32 + 1 - 4.
Proof.
  refine (ahdlc_accepts_damaged_frame demo_uninit
    (demo_receiver <| pai_recv_ignore := false |> <| pai_recv_octets := 1 |> <| pai_recv_packet := 0xff :: tail demo_uninit |>
         <| pai_recv_crc := foldl update_crc 0xffff [0xff] |>) [] 300 _ _ _ _).
  - by apply length_replicate.
  - split; try reflexivity. exact demo_receiver_live.
  - reflexivity.
  - reflexivity.
Defined.
