(* ===== verification/Oneshot.v ===== *)
(** * One-shot timers (src/lib/oneshot/oneshot.c)

    The timers live in a store, linked through [os_next] from [oneshot_list] and
    through [os_call_queue] from the local [callq] of [oneshot_tick].  Each timer
    is a membuf: [os_refs] is its reference count, and a timer whose last reference
    goes is deleted from the store.  A callback is an output event; it is called
    with the lock released, after the timer list has been updated. *)

From stdpp Require Import base list gmap fin_maps strings.
From Stdlib Require Import ZArith Lia.
From S2P Require Import Prelude Sched.
Open Scope Z_scope.

Abbreviation tid := nat.

Record oneshot := Oneshot_ {
  os_ticks_left : Z;
  os_callback : option nat;   (* the callback function, if there is one *)
  os_arg : Z;
  os_next : option tid;
  os_call_queue : option tid;
  os_refs : Z }.

#[export] Instance eta_oneshot : Eta oneshot := fun o =>
  Oneshot_ (os_ticks_left o) (os_callback o) (os_arg o) (os_next o) (os_call_queue o) (os_refs o).

Record timers := Timers_ {
  oneshot_list : option tid;
  oneshot_lock : bool;
  t_store : gmap tid oneshot }.

#[export] Instance eta_timers : Eta timers := fun t =>
  Timers_ (oneshot_list t) (oneshot_lock t) (t_store t).

Inductive timer_event := Call (callback : nat) (arg : Z).

(** A [struct oneshot **]. *)
Inductive tslot := T_list | T_next (t : tid).

Definition mod_timer (t : tid) (f : oneshot -> oneshot) (s : timers) : timers :=
  s <| t_store := alter f t (t_store s) |>.

Definition put_tslot (sl : tslot) (v : option tid) (s : timers) : timers :=
  match sl with
  | T_list => s <| oneshot_list := v |>
  | T_next t => mod_timer t (fun o => o <| os_next := v |>) s
  end.

(** The first loop of [oneshot_tick]. *)
Fixpoint tick_walk (fuel : nat) (ticks : Z) (os : option tid) (osprev : tslot) (callq : option tid)
    (s : timers) : res (option tid * timers) :=
  match fuel with
  | O => Fuel
  | S fuel =>
    match os with
    | None => Ok (callq, s)
    | Some t =>
      match t_store s !! t with
      | None => Stop "bad timer pointer"
      | Some o =>
        if os_ticks_left o <=? ticks then
          let s := mod_timer t (fun o => o <| os_call_queue := callq |>) s in
          let s := put_tslot osprev (os_next o) s in
          let s := mod_timer t (fun o => o <| os_next := None |>) s in
          (* os = os->os_next, after os->os_next = NULL *)
          tick_walk fuel ticks None osprev (Some t) s
        else
          let s := mod_timer t (fun o => o <| os_ticks_left := u32 (os_ticks_left o - ticks) |>) s in
          tick_walk fuel ticks (os_next o) (T_next t) callq s
      end
    end
  end.

(** [oneshot_deref]: the references left, the timer being freed with the last. *)
Definition oneshot_deref (t : tid) (s : timers) : Z * timers :=
  let refs := u32 (default 0 (os_refs <$> t_store s !! t) - 1) in
  (refs, if refs =? 0 then s <| t_store := delete t (t_store s) |>
         else mod_timer t (fun o => o <| os_refs := refs |>) s).

(** The second loop. *)
Fixpoint tick_calls (fuel : nat) (callq : option tid) (s : timers) : res (timers * list timer_event) :=
  match fuel with
  | O => Fuel
  | S fuel =>
    match callq with
    | None => Ok (s, [])
    | Some t =>
      match t_store s !! t with
      | None => Stop "bad timer pointer"
      | Some o =>
        let '(refs, s) := oneshot_deref t s in
        let evs := if refs =? 0 then []
                   else match os_callback o with Some f => [Call f (os_arg o)] | None => [] end in
        '(s, evs') ← tick_calls fuel (os_call_queue o) s;
        Ok (s, evs ++ evs')
      end
    end
  end.

Definition oneshot_tick (ticks : Z) (s : timers) : res (timers * list timer_event) :=
  lk ← spin_lock (oneshot_lock s);
  let s := s <| oneshot_lock := lk |> in
  let fuel := S (size (t_store s)) in
  '(callq, s) ← tick_walk fuel ticks (oneshot_list s) T_list None s;
  '(s, evs) ← tick_calls fuel callq s;
  lk ← spin_unlock (oneshot_lock s);
  Ok (s <| oneshot_lock := lk |>, evs).

(** A timer as [oneshot_alloc] sets it up, at the new address [t]. *)
Definition oneshot_alloc (t : tid) (s : timers) : timers :=
  s <| t_store := <[t := Oneshot_ 0 None 0 None None 1]> (t_store s) |>.

Definition oneshot_attach (t : tid) (s : timers) : res timers :=
  lk ← spin_lock (oneshot_lock s);
  let s := s <| oneshot_lock := lk |> in
  match t_store s !! t with
  | None => Stop "bad timer pointer"
  | Some o =>
    if bool_decide (os_next o <> None) then Stop "Attach timer: is already"
    else
      let s := mod_timer t (fun o => o <| os_next := oneshot_list s |>) s in
      let s := s <| oneshot_list := Some t |> in
      let s := mod_timer t (fun o => o <| os_refs := u32 (os_refs o + 1) |>) s in
      lk ← spin_unlock (oneshot_lock s);
      Ok (s <| oneshot_lock := lk |>)
  end.

Fixpoint detach_walk (fuel : nat) (timer : tid) (os : option tid) (osprev : tslot) (s : timers) : res timers :=
  match fuel with
  | O => Fuel
  | S fuel =>
    match os with
    | None => Ok s
    | Some t =>
      match t_store s !! t with
      | None => Stop "bad timer pointer"
      | Some o =>
        if bool_decide (t = timer) then
          let s := put_tslot osprev (os_next o) s in
          let s := mod_timer t (fun o => o <| os_next := None |>) s in
          Ok (oneshot_deref timer s).2
        else detach_walk fuel timer (os_next o) (T_next t) s
      end
    end
  end.

Definition oneshot_detach (timer : tid) (s : timers) : res timers :=
  lk ← spin_lock (oneshot_lock s);
  let s := s <| oneshot_lock := lk |> in
  s ← detach_walk (S (size (t_store s))) timer (oneshot_list s) T_list s;
  lk ← spin_unlock (oneshot_lock s);
  Ok (s <| oneshot_lock := lk |>).

(** The timers copied out: pointer and copy, the copy's [os_next] overwritten with
    the pointer. *)
Fixpoint dump_walk (max : nat) (os : option tid) (s : timers) : list (tid * oneshot) :=
  match max with
  | O => []
  | S max =>
    match os with
    | None => []
    | Some t =>
      match t_store s !! t with
      | None => []
      | Some o => (t, o <| os_next := Some t |>) :: dump_walk max (os_next o) s
      end
    end
  end.

Definition oneshot_dump_stats (max : nat) (s : timers) : res (list (tid * oneshot) * timers) :=
  lk ← spin_lock (oneshot_lock s);
  let s := s <| oneshot_lock := lk |> in
  let l := dump_walk max (oneshot_list s) s in
  lk ← spin_unlock (oneshot_lock s);
  Ok (l, s <| oneshot_lock := lk |>).

Definition oneshot_init : timers := Timers_ None false ∅.

(** ** The list *)

Definition t_link (s : timers) (t : tid) : option (option tid) := os_next <$> t_store s !! t.
Definition attached (s : timers) (l : list tid) : Prop := chain (t_link s) (oneshot_list s) l.

Definition tslot_after (l : list tid) : tslot := match last l with None => T_list | Some t => T_next t end.

Lemma t_link_dom s t v : t_link s t = Some v -> is_Some (t_store s !! t).
Proof. unfold t_link. destruct (t_store s !! t); [eauto|done]. Qed.

Lemma attached_dom s p l t : chain (t_link s) p l -> t ∈ l -> is_Some (t_store s !! t).
Proof.
  revert p; induction l as [|m l IH]; intros p; [by intros _ ?%elem_of_nil|].
  intros (_ & nx & Hn & Hl) [->|Hm]%elem_of_cons; [by eapply t_link_dom|eauto].
Qed.

Lemma attached_length s p l : chain (t_link s) p l -> (length l < S (size (t_store s)))%nat.
Proof.
  intros H. rewrite <-(size_list_to_set (C:=gset tid) l) by by eapply chain_NoDup.
  rewrite <-size_dom. apply Nat.lt_succ_r, subseteq_size. intros c Hc%elem_of_list_to_set.
  apply elem_of_dom. by eapply attached_dom.
Qed.

Lemma mod_timer_link t f s d :
  t_link (mod_timer t f s) d = if decide (d = t) then os_next <$> (f <$> t_store s !! t) else t_link s d.
Proof.
  unfold t_link, mod_timer. cbn. case_decide as E; [subst; by rewrite lookup_alter_eq|by rewrite lookup_alter_ne].
Qed.

Lemma mod_timer_lookup t f s d :
  t_store (mod_timer t f s) !! d = if decide (d = t) then f <$> t_store s !! t else t_store s !! d.
Proof. unfold mod_timer. cbn. case_decide as E; [subst; by rewrite lookup_alter_eq|by rewrite lookup_alter_ne]. Qed.

(** Unlinking the timer after [l1], as [oneshot_tick] and [oneshot_detach] do: the
    link before it is redirected, its own is cleared. *)
Definition unlink (l1 : list tid) (t : tid) (o : oneshot) (s : timers) : timers :=
  mod_timer t (fun o => o <| os_next := None |>) (put_tslot (tslot_after l1) (os_next o) s).

Lemma unlink_spec s l1 t l2 o :
  attached s (l1 ++ t :: l2) -> t_store s !! t = Some o ->
  attached (unlink l1 t o s) (l1 ++ l2)
  /\ t_store (unlink l1 t o s) !! t = Some (o <| os_next := None |>)
  /\ oneshot_lock (unlink l1 t o s) = oneshot_lock s
  /\ forall d x, d <> t -> t_store s !! d = Some x ->
       exists n, t_store (unlink l1 t o s) !! d = Some (x <| os_next := n |>).
Proof.
  intros Ha Ho. pose proof (chain_NoDup _ _ _ Ha) as Hnd.
  apply NoDup_app in Hnd as (_ & Hdis & Hnd). apply NoDup_cons in Hnd as [Ht2 _].
  assert (Hlast : forall e, last l1 = Some e -> e <> t /\ is_Some (t_store s !! e)).
  { intros e He%last_Some_elem_of. split; [intros ->; apply (Hdis t He); set_solver|].
    eapply attached_dom; [exact Ha|set_solver]. }
  assert (Hn : os_next o = head l2).
  { unfold attached in Ha. clear -Ha Ho. revert Ha. generalize (oneshot_list s).
    induction l1 as [|d l1 IH]; intros p; cbn.
    - intros (_ & n & Hn & Hl). unfold t_link in Hn. rewrite Ho in Hn. injection Hn as ->. symmetry. by eapply chain_head.
    - intros (_ & n & _ & Hl). eauto. }
  unfold unlink, tslot_after. destruct (last l1) as [e|] eqn:El; cbn [put_tslot].
  - destruct (Hlast e eq_refl) as [Het [x Hx]]. split_and!; try done.
    + unfold attached. eapply chain_remove; [exact Ha|rewrite El; split|].
      * rewrite mod_timer_link, decide_False by done. rewrite mod_timer_link, decide_True by done. rewrite Hx. cbn. by rewrite Hn.
      * done.
      * rewrite El. intros d Hd1 Hd2. rewrite !mod_timer_link, !decide_False by congruence. done.
    + rewrite mod_timer_lookup, decide_True by done. rewrite mod_timer_lookup, decide_False by done. by rewrite Ho.
    + intros d y Hd Hy. rewrite mod_timer_lookup, decide_False by done. rewrite mod_timer_lookup. case_decide as E.
      * subst d. rewrite Hx in Hy. injection Hy as <-. rewrite Hx. by eexists.
      * exists (os_next y). rewrite Hy. by destruct y.
  - split_and!; try done.
    + unfold attached. eapply chain_remove; [exact Ha|rewrite El; by rewrite Hn|].
      rewrite El. intros d Hd1 _. rewrite mod_timer_link, decide_False by done. done.
    + rewrite mod_timer_lookup, decide_True by done. change (t_store (s <| oneshot_list := os_next o |>)) with (t_store s).
      by rewrite Ho.
    + intros d y Hd Hy. rewrite mod_timer_lookup, decide_False by done. exists (os_next y). cbn. rewrite Hy. by destruct y.
Qed.

Lemma age_attached s t f l :
  (forall o, os_next (f o) = os_next o) -> attached s l -> attached (mod_timer t f s) l.
Proof.
  intros Hf. unfold attached. apply chain_frame. intros d _. rewrite mod_timer_link. case_decide; [|done].
  subst d. unfold t_link. destruct (t_store s !! t); [|done]. cbn. by rewrite Hf.
Qed.

Lemma attached_next s l0 t l o :
  attached s (l0 ++ t :: l) -> t_store s !! t = Some o -> os_next o = head l.
Proof.
  unfold attached. generalize (oneshot_list s). induction l0 as [|d l0 IH]; intros p; cbn.
  - intros (_ & n & Hn & Hl) Ho. unfold t_link in Hn. rewrite Ho in Hn. injection Hn as ->. symmetry. by eapply chain_head.
  - intros (_ & n & _ & Hl). eauto.
Qed.

(** ** Attaching and detaching *)

(** Timer [t] has an owner and is on the list ([on]) or not. *)
Record timer_state (s : timers) (t : tid) (on : bool) : Prop := {
  ts_lock : oneshot_lock s = false;
  ts_list : exists l, attached s l /\ (t ∈ l <-> on = true);
  ts_timer : exists o, t_store s !! t = Some o /\ os_refs o = (if on then 2 else 1) /\ (on = false -> os_next o = None) }.

Lemma timer_attach_state s t :
  timer_state s t false ->
  exists s', oneshot_attach t s = Ok s' /\ timer_state s' t true
    /\ forall d on, d <> t -> timer_state s d on -> timer_state s' d on.
Proof.
  intros [Hl (l & Ha & Hin) (o & Ho & Hr & Hn)]. specialize (Hn eq_refl).
  assert (Ht : t ∉ l) by (intros Hx; by apply Hin in Hx).
  unfold oneshot_attach. rewrite Hl. cbn [spin_lock mbind res_bind]. cbn. rewrite Ho, Hn, bool_decide_false by naive_solver.
  set (s1 := mod_timer t _ _). eexists. split; [reflexivity|].
  assert (H1 : t_store s1 !! t = Some (o <| os_next := oneshot_list s |> <| os_refs := 2 |>)).
  { unfold s1. rewrite mod_timer_lookup, decide_True by done. cbn. rewrite lookup_alter_eq, Ho. cbn. do 2 f_equal. by rewrite Hr. }
  assert (H2 : forall d, d <> t -> t_store s1 !! d = t_store s !! d).
  { intros d Hd. unfold s1. rewrite mod_timer_lookup, decide_False by done. cbn. by rewrite lookup_alter_ne. }
  assert (Ha1 : attached s1 (t :: l)).
  { split; [done|]. exists (oneshot_list s). unfold t_link. rewrite H1. split; [done|].
    eapply chain_frame; [|exact Ha]. intros d Hd. unfold t_link. rewrite H2; [done|]. intros ->. done. }
  split.
  - split; [done| |exists (o <| os_next := oneshot_list s |> <| os_refs := 2 |>); by split_and!].
    exists (t :: l). split; [exact Ha1|]. split; [done|by left].
  - intros d on Hd [Hl' (l' & Ha' & Hin') (o' & Ho' & Hr' & Hn')]. rewrite (chain_fun _ _ _ _ Ha' Ha) in Hin'.
    split; [done| |exists o'; by rewrite <-Ho', <-(H2 d Hd)].
    exists (t :: l). split; [exact Ha1|]. rewrite elem_of_cons. naive_solver.
Qed.

Lemma detach_walk_absent fuel s l0 l t :
  attached s (l0 ++ l) -> t ∉ l -> (length l < fuel)%nat -> detach_walk fuel t (head l) (tslot_after l0) s = Ok s.
Proof.
  revert fuel l0; induction l as [|d l IH]; intros fuel l0 Ha Ht Hf; (destruct fuel as [|fuel]; [lia|]); [done|].
  destruct (attached_dom s _ _ d Ha) as [o Ho]; [set_solver|]. apply not_elem_of_cons in Ht as [Htd Ht].
  cbn [head detach_walk]. rewrite Ho, bool_decide_false by done. rewrite (attached_next _ _ _ _ _ Ha Ho).
  replace (T_next d) with (tslot_after (l0 ++ [d])) by (unfold tslot_after; by rewrite last_snoc).
  apply IH; [by rewrite <-app_assoc|done|cbn in Hf; lia].
Qed.

Lemma detach_walk_found fuel s l0 l1 t l2 o :
  attached s (l0 ++ l1 ++ t :: l2) -> t_store s !! t = Some o -> (length (l1 ++ t :: l2) < fuel)%nat ->
  detach_walk fuel t (head (l1 ++ t :: l2)) (tslot_after l0) s = Ok (oneshot_deref t (unlink (l0 ++ l1) t o s)).2.
Proof.
  revert fuel l0; induction l1 as [|d l1 IH]; intros fuel l0 Ha Ho Hf; (destruct fuel as [|fuel]; [cbn in Hf; lia|]).
  - cbn [head app detach_walk]. rewrite Ho, bool_decide_true by done. by rewrite app_nil_r.
  - destruct (attached_dom s _ _ d Ha) as [x Hx]; [set_solver|].
    assert (Hd : d <> t).
    { intros ->. apply chain_NoDup in Ha. apply NoDup_app in Ha as (_ & _ & Ha). cbn in Ha.
      apply NoDup_cons in Ha as [Ha _]. apply Ha. set_solver. }
    cbn [head app detach_walk]. rewrite Hx, bool_decide_false by done. cbn [app] in Ha. rewrite (attached_next _ _ _ _ _ Ha Hx).
    replace (T_next d) with (tslot_after (l0 ++ [d])) by (unfold tslot_after; by rewrite last_snoc).
    rewrite IH; [by rewrite <-app_assoc|by rewrite <-app_assoc|done|cbn in Hf; lia].
Qed.

Lemma unlink_other s l1 t o d : d ∉ l1 -> d <> t -> t_store (unlink l1 t o s) !! d = t_store s !! d.
Proof.
  intros Hd Hdt. unfold unlink, tslot_after. rewrite mod_timer_lookup, decide_False by done.
  destruct (last l1) as [e|] eqn:E; cbn [put_tslot]; [|done]. rewrite mod_timer_lookup, decide_False; [done|].
  intros ->. by apply last_Some_elem_of in E.
Qed.

Lemma deref_second s t o :
  t_store s !! t = Some o -> os_refs o = 2 ->
  (oneshot_deref t s).2 = mod_timer t (fun o => o <| os_refs := 1 |>) s.
Proof. intros Ho Hr. unfold oneshot_deref. rewrite Ho. cbn. by rewrite Hr. Qed.

Lemma timer_detach_state s t on :
  timer_state s t on ->
  exists s', oneshot_detach t s = Ok s' /\ timer_state s' t false
    /\ forall d on', d <> t -> timer_state s d on' -> timer_state s' d on'.
Proof.
  intros [Hl (l & Ha & Hin) (o & Ho & Hr & Hn)]. unfold oneshot_detach. rewrite Hl. cbn [spin_lock mbind res_bind].
  set (s0 := s <| oneshot_lock := true |>). assert (Ha0 : attached s0 ([] ++ l)) by exact Ha.
  assert (Hf : (length l < S (size (t_store s0)))%nat) by by eapply attached_length.
  pose proof (chain_head _ _ _ Ha0) as Hh. cbn [app] in Hh. rewrite <-Hh. change T_list with (tslot_after []).
  destruct on.
  - assert (Ht : t ∈ l) by by apply Hin. apply list_elem_of_split in Ht as (l1 & l2 & ->).
    rewrite (detach_walk_found _ s0 [] l1 t l2 o) by done. cbn [mbind res_bind app].
    destruct (unlink_spec s0 l1 t l2 o Ha0 Ho) as (Ha1 & Ho1 & Hl1 & Hoth).
    rewrite (deref_second _ t _ Ho1 Hr). set (s1 := unlink l1 t o s0) in *.
    change (oneshot_lock (mod_timer _ _ s1)) with (oneshot_lock s1). rewrite Hl1. cbn [spin_unlock mbind res_bind].
    eexists. split; [reflexivity|].
    assert (Ha2 : attached (mod_timer t (fun o => o <| os_refs := 1 |>) s1) (l1 ++ l2)) by by apply age_attached.
    apply chain_NoDup, NoDup_app in Ha0 as (_ & _ & Hnd). pose proof Hnd as Hnd'.
    apply NoDup_app in Hnd as (_ & Hdis & Hnd2). apply NoDup_cons in Hnd2 as [Ht2 _].
    split.
    + split; [done| |exists (o <| os_next := None |> <| os_refs := 1 |>)].
      * exists (l1 ++ l2). split; [exact Ha2|]. rewrite elem_of_app. split; [|done]. intros [Hx|Hx]; [|done].
        exfalso. apply (Hdis t Hx). by left.
      * change (t_store _) with (t_store (mod_timer t (fun o => o <| os_refs := 1 |>) s1)).
        rewrite mod_timer_lookup, decide_True, Ho1 by done. by split_and!.
    + intros d on' Hd [_ (l' & Ha' & Hin') (o' & Ho' & Hr' & Hn')]. rewrite (chain_fun _ _ _ _ Ha' Ha) in Hin'.
      split; [done| |].
      * exists (l1 ++ l2). split; [exact Ha2|]. rewrite <-Hin'. set_solver.
      * destruct (Hoth d o' Hd Ho') as [n Hon]. exists (o' <| os_next := n |>).
        change (t_store _) with (t_store (mod_timer t (fun o => o <| os_refs := 1 |>) s1)).
        rewrite mod_timer_lookup, decide_False, Hon by done.
        split_and!; [done|done|]. intros E. cbn. assert (Hnin : d ∉ l1) by (intros Hx; rewrite E in Hin'; set_solver).
        unfold s1 in Hon. rewrite (unlink_other s0 l1 t o d Hnin Hd) in Hon. change (t_store s0) with (t_store s) in Hon.
        rewrite Ho' in Hon. injection Hon as Hon. rewrite Hon in Hn'. by apply Hn'.
  - assert (Ht : t ∉ l) by (intros Hx; by apply Hin in Hx).
    rewrite (detach_walk_absent _ s0 [] l t) by done. cbn. exists s.
    split; [f_equal; unfold s0; destruct s; cbn in *; by subst|]. split; [|done].
    split; [done|eauto|eauto].
Qed.

(** ** A tick *)

Definition left_of (s : timers) (t : tid) : Z := default 0 (os_ticks_left <$> t_store s !! t).

(** [t]'s time is up within [ticks]. *)
Definition due (s : timers) (ticks : Z) (t : tid) : Prop := left_of s t <= ticks.
#[export] Instance due_dec s ticks t : Decision (due s ticks t) := Z_le_dec _ _.

(** What a tick does to the fields of the timers but [os_next]: those in [l1] age,
    [e] goes on the callback queue. *)
Definition aged (ticks : Z) (l1 : list tid) (e : option tid) (d : tid) (o : oneshot) : oneshot :=
  if bool_decide (d ∈ l1) then o <| os_ticks_left := u32 (os_ticks_left o - ticks) |>
  else if bool_decide (Some d = e) then o <| os_call_queue := None |> else o.

Definition changed (f : tid -> oneshot -> oneshot) (s s' : timers) : Prop := forall d o,
  t_store s !! d = Some o -> exists n, t_store s' !! d = Some ((f d o) <| os_next := n |>).

Lemma tick_walk_spec fuel ticks s l0 l :
  attached s (l0 ++ l) -> (length l < fuel)%nat ->
  exists l1 e l2 s', l = l1 ++ match e with Some e => e :: l2 | None => [] end /\ (e = None -> l2 = [])
    /\ tick_walk fuel ticks (head l) (tslot_after l0) None s = Ok (e, s')
    /\ Forall (fun t => ~ due s ticks t) l1 /\ (forall t, e = Some t -> due s ticks t)
    /\ attached s' (l0 ++ l1 ++ l2) /\ changed (aged ticks l1 e) s s' /\ oneshot_lock s' = oneshot_lock s
    /\ (forall t, e = Some t -> os_next <$> t_store s' !! t = Some None).
Proof.
  revert fuel s l0; induction l as [|t l IH]; intros fuel s l0 Ha Hf; (destruct fuel as [|fuel]; [lia|]).
  { exists [], None, [], s. split_and!; try done. intros d o Ho. exists (os_next o). rewrite Ho. unfold aged.
    rewrite !bool_decide_false by (done || apply not_elem_of_nil). by destruct o. }
  destruct (attached_dom s _ _ t Ha) as [o Ho]; [set_solver|].
  cbn [head tick_walk]. rewrite Ho. pose proof (attached_next _ _ _ _ _ Ha Ho) as Hnx.
  assert (Hleft : left_of s t = os_ticks_left o) by (unfold left_of; by rewrite Ho).
  pose proof (chain_NoDup _ _ _ Ha) as Hnd. apply NoDup_app in Hnd as (_ & Hdis & Hnd).
  apply NoDup_cons in Hnd as [Htl Hndl].
  destruct (Z.leb_spec (os_ticks_left o) ticks) as [Hle|Hgt].
  - set (s1 := mod_timer t (fun o => o <| os_call_queue := None |>) s).
    assert (Ho1 : t_store s1 !! t = Some (o <| os_call_queue := None |>))
      by (unfold s1; rewrite mod_timer_lookup, decide_True by done; by rewrite Ho).
    assert (Ha1 : attached s1 (l0 ++ t :: l)) by by apply age_attached.
    destruct (unlink_spec s1 l0 t l _ Ha1 Ho1) as (Ha2 & Ho2 & Hl2 & Hoth).
    destruct fuel as [|fuel]; [cbn in Hf; lia|].
    exists [], (Some t), l, (unlink l0 t (o <| os_call_queue := None |>) s1). split_and!; auto.
    + done.
    + intros t' [= <-]. unfold due. lia.
    + intros d x Hx. unfold aged. rewrite bool_decide_false by apply not_elem_of_nil.
      case_bool_decide as E.
      * injection E as ->. rewrite Ho2. exists None. rewrite Ho in Hx. by injection Hx as ->.
      * apply Hoth; [congruence|]. unfold s1. rewrite mod_timer_lookup, decide_False by congruence. done.
    + intros t' [= <-]. by rewrite Ho2.
  - set (f := fun o : oneshot => o <| os_ticks_left := u32 (os_ticks_left o - ticks) |>).
    assert (Ha1 : attached (mod_timer t f s) ((l0 ++ [t]) ++ l)) by (rewrite <-app_assoc; by apply age_attached).
    rewrite Hnx. replace (T_next t) with (tslot_after (l0 ++ [t])) by (unfold tslot_after; by rewrite last_snoc).
    destruct (IH fuel (mod_timer t f s) (l0 ++ [t]) Ha1) as (l1 & e & l2 & s' & -> & He & Hw & Hf1 & Hd & Ha2 & Hc & Hl & Hn);
      [cbn in Hf; lia|].
    assert (Hdue : forall d, d <> t -> due (mod_timer t f s) ticks d <-> due s ticks d).
    { intros d Hd'. unfold due, left_of. rewrite mod_timer_lookup, decide_False by done. done. }
    exists (t :: l1), e, l2, s'. split_and!; auto.
    + constructor; [unfold due; lia|]. rewrite Forall_forall in *. intros d Hd'. rewrite <-Hdue; [auto|].
      intros ->. apply Htl. set_solver.
    + intros e' ->. rewrite <-Hdue; [auto|]. intros ->. apply Htl. set_solver.
    + by rewrite <-app_assoc in Ha2.
    + intros d x Hx. destruct (decide (d = t)) as [->|Hne].
      * destruct (Hc t (f x)) as [n Hn']; [rewrite mod_timer_lookup, decide_True, Hx by done; done|]. exists n.
        rewrite Hn'. unfold aged. rewrite (bool_decide_true (t ∈ t :: l1)) by set_solver.
        rewrite bool_decide_false by (intros ?; apply Htl; set_solver).
        rewrite bool_decide_false; [done|]. intros <-. apply Htl. set_solver.
      * destruct (Hc d x) as [n Hn']; [rewrite mod_timer_lookup, decide_False by done; done|]. exists n. rewrite Hn'.
        unfold aged. replace (bool_decide (d ∈ t :: l1)) with (bool_decide (d ∈ l1)); [done|].
        apply bool_decide_ext. set_solver.
Qed.

Lemma deref_attached s t l : attached s l -> t ∉ l -> attached (oneshot_deref t s).2 l.
Proof.
  intros Ha Ht. unfold oneshot_deref. cbn. set (r := u32 _). destruct (r =? 0).
  - unfold attached. eapply chain_frame; [|exact Ha]. intros d Hd. unfold t_link. cbn.
    rewrite lookup_delete_ne; [done|]. intros ->. done.
  - by apply age_attached.
Qed.

Lemma deref_lookup s t d : d <> t -> t_store (oneshot_deref t s).2 !! d = t_store s !! d.
Proof.
  intros Hd. unfold oneshot_deref. cbn. set (r := u32 _). destruct (r =? 0); cbn.
  - by rewrite lookup_delete_ne.
  - by rewrite lookup_alter_ne.
Qed.

Lemma left_deref s t b d : d <> t -> left_of ((oneshot_deref t s).2 <| oneshot_lock := b |>) d = left_of s d.
Proof. intros Hd. unfold left_of. by rewrite <-(deref_lookup s t d Hd). Qed.

(** What the callback queue of one timer does. *)
Definition call_of (o : oneshot) : list timer_event :=
  if os_refs o =? 1 then [] else match os_callback o with Some f => [Call f (os_arg o)] | None => [] end.

Lemma left_changed f s s' d :
  changed f s s' -> is_Some (t_store s !! d) ->
  exists o, t_store s !! d = Some o /\ left_of s' d = os_ticks_left (f d o) /\ left_of s d = os_ticks_left o.
Proof.
  intros Hc [o Ho]. destruct (Hc d o Ho) as [n Hn]. exists o. unfold left_of. by rewrite Hn, Ho.
Qed.

Lemma fired_not_before s l1 t l2 : attached s (l1 ++ t :: l2) -> t ∉ l1.
Proof. intros Ha Hin. apply chain_NoDup, NoDup_app in Ha as (_ & Hdis & _). apply (Hdis t Hin). by left. Qed.

(** The tick as a whole: the walk, and the call for the timer [e] it stopped at. *)
Lemma oneshot_tick_run s ticks l :
  attached s l -> oneshot_lock s = false ->
  (forall t o, t_store s !! t = Some o -> 1 <= os_refs o < 2 ^ 32) ->
  exists l1 e l2 s1, l = l1 ++ match e with Some e => e :: l2 | None => [] end /\ (e = None -> l2 = [])
    /\ Forall (fun t => ~ due s ticks t) l1 /\ (forall t, e = Some t -> due s ticks t)
    /\ attached s1 (l1 ++ l2) /\ changed (aged ticks l1 e) s s1 /\ oneshot_lock s1 = true
    /\ (forall t, e = Some t -> os_next <$> t_store s1 !! t = Some None)
    /\ oneshot_tick ticks s = Ok (match e with Some t => (oneshot_deref t s1).2 | None => s1 end <| oneshot_lock := false |>,
         match e with None => [] | Some t => match t_store s !! t with Some o => call_of o | None => [] end end).
Proof.
  intros Ha Hl Hrefs. unfold oneshot_tick. rewrite Hl. cbn [spin_lock mbind res_bind].
  set (s0 := s <| oneshot_lock := true |>).
  assert (Ha0 : attached s0 ([] ++ l)) by exact Ha.
  destruct (tick_walk_spec (S (size (t_store s0))) ticks s0 [] l Ha0) as
    (l1 & e & l2 & s1 & -> & He & Hw & Hf & Hd & Ha1 & Hc & Hlk & Hn); [by eapply attached_length|].
  pose proof (chain_head _ _ _ Ha0) as Hh. cbn [app] in Hh. rewrite Hh in Hw. change (tslot_after []) with T_list in Hw.
  rewrite Hw. cbn [mbind res_bind app] in *. exists l1, e, l2, s1. split_and!; try done.
  destruct e as [t|]; [|cbn [tick_calls mbind res_bind]; by rewrite Hlk].
  destruct (attached_dom s _ _ t Ha) as [o Ho]; [set_solver|]. rewrite Ho.
  destruct (Hc t o Ho) as [n Hon].
  assert (Hr1 : os_refs (aged ticks l1 (Some t) t o) = os_refs o /\ os_callback (aged ticks l1 (Some t) t o) = os_callback o
    /\ os_arg (aged ticks l1 (Some t) t o) = os_arg o /\ os_call_queue (aged ticks l1 (Some t) t o) = None).
  { unfold aged. rewrite bool_decide_false, bool_decide_true by (done || by apply (fired_not_before s l1 t l2)). done. }
  destruct Hr1 as (Er & Ec & Ea & Eq).
  assert (Hcalls : tick_calls (S (size (t_store s0))) (Some t) s1 = Ok ((oneshot_deref t s1).2, call_of o)).
  { destruct (size (t_store s0)) as [|sz] eqn:Esz.
    { apply map_size_empty_iff in Esz. change (t_store s0) with (t_store s) in Esz. by rewrite Esz in Ho. }
    cbn [tick_calls]. rewrite Hon. destruct (oneshot_deref t s1) as [refs s2] eqn:Ed. cbn. rewrite Eq. cbn [tick_calls mbind res_bind].
    rewrite app_nil_r. repeat f_equal. unfold oneshot_deref in Ed. rewrite Hon in Ed. cbn in Ed. injection Ed as <- _.
    specialize (Hrefs t o Ho). rewrite Er, Ec, Ea, u32_small by lia. unfold call_of.
    destruct (Z.eqb_spec (os_refs o) 1), (Z.eqb_spec (os_refs o - 1) 0); try lia; done. }
  rewrite Hcalls. cbn [mbind res_bind].
  assert (Hlk2 : oneshot_lock (oneshot_deref t s1).2 = true).
  { unfold oneshot_deref. cbn. set (r := u32 _). destruct (r =? 0); cbn; by rewrite Hlk. }
  by rewrite Hlk2.
Qed.

(** What the tick does to the ticks left. *)
Lemma aged_left s s1 ticks l1 e l :
  attached s l -> (forall t, 0 <= left_of s t < 2 ^ 32) -> 0 <= ticks -> changed (aged ticks l1 e) s s1 ->
  (forall d, d ∈ l1 -> d ∈ l -> ~ due s ticks d -> left_of s1 d = left_of s d - ticks)
  /\ (forall d, d ∉ l1 -> Some d <> e -> d ∈ l -> left_of s1 d = left_of s d).
Proof.
  intros Ha Hb Ht Hc. split.
  - intros d Hd Hl Hdue. destruct (left_changed _ _ _ d Hc) as (o & Ho & E1 & E2); [by eapply attached_dom|].
    specialize (Hb d). unfold due in Hdue. rewrite E1. unfold aged. rewrite bool_decide_true by done. cbn. rewrite u32_small; lia.
  - intros d Hd He Hl. destruct (left_changed _ _ _ d Hc) as (o & Ho & E1 & E2); [by eapply attached_dom|].
    rewrite E1. unfold aged. by rewrite !bool_decide_false.
Qed.

(** C27: [oneshot_tick()] returns, and its walk of the list ends at the first timer
    that is due: the timers before it age by [ticks], that timer leaves the list
    and its callback is called unless the list held its last reference, and the
    timers behind it are not aged at all.  With none due, all of them age. *)
Theorem oneshot_tick_stops_at_first_due s ticks l :
  attached s l -> oneshot_lock s = false -> 0 <= ticks -> (forall t, 0 <= left_of s t < 2 ^ 32) ->
  (forall t o, t_store s !! t = Some o -> 1 <= os_refs o < 2 ^ 32) ->
  exists l1 e l2 s' evs, l = l1 ++ match e with Some e => e :: l2 | None => [] end /\ (e = None -> l2 = [])
    /\ Forall (fun t => ticks < left_of s t) l1 /\ (forall t, e = Some t -> left_of s t <= ticks)
    /\ oneshot_tick ticks s = Ok (s', evs) /\ oneshot_lock s' = false /\ attached s' (l1 ++ l2)
    /\ Forall (fun t => left_of s' t = left_of s t - ticks) l1
    /\ Forall (fun t => left_of s' t = left_of s t) l2
    /\ evs = match e with None => [] | Some t => match t_store s !! t with Some o => call_of o | None => [] end end.
Proof.
  intros Ha Hl Ht Hb Hrefs.
  destruct (oneshot_tick_run s ticks l Ha Hl Hrefs) as (l1 & e & l2 & s1 & -> & He & Hf & Hd & Ha1 & Hc & _ & _ & Hrun).
  destruct (aged_left _ _ _ _ _ _ Ha Hb Ht Hc) as [Hage Hkeep].
  pose proof (chain_NoDup _ _ _ Ha) as Hnd. apply NoDup_app in Hnd as (_ & Hdis & Hnd).
  exists l1, e, l2. eexists _, _. rewrite Hrun. rewrite Forall_forall in Hf. split_and!; try done.
  - apply Forall_forall. intros d Hd'%Hf. unfold due in Hd'. lia.
  - destruct e as [t|]; [|done]. apply NoDup_cons in Hnd as [Hel Hnd]. apply (deref_attached s1 t _ Ha1).
    rewrite not_elem_of_app. split; [intros Hin; apply (Hdis t Hin); set_solver|done].
  - apply Forall_forall. intros d Hd'. rewrite <-Hage by (try apply Hf; set_solver). destruct e as [t|]; [|done]. apply left_deref.
    intros ->. apply (Hdis t Hd'). set_solver.
  - apply Forall_forall. intros d Hd'. destruct e as [t|]; [|rewrite He in Hd' by done; by apply elem_of_nil in Hd'].
    apply NoDup_cons in Hnd as [Hel Hnd]. assert (d <> t) by (intros ->; done).
    rewrite <-Hkeep; [by apply left_deref|intros Hin; apply (Hdis d Hin); set_solver|congruence|set_solver].
Qed.

(** Setting the ticks, the callback or its argument. *)
Lemma timer_mod_state s t f d on :
  (forall o, os_next (f o) = os_next o /\ os_refs (f o) = os_refs o) ->
  timer_state s d on -> timer_state (mod_timer t f s) d on.
Proof.
  intros Hf [Hl (l & Ha & Hin) (o & Ho & Hr & Hn)]. split; [done| |].
  - exists l. split; [|done]. apply age_attached; [|done]. intros x. apply Hf.
  - rewrite mod_timer_lookup. case_decide as E; [|eauto]. subst d. rewrite Ho. exists (f o). destruct (Hf o) as [-> ->]. eauto.
Qed.

(** A new timer is off the list; the others are as they were. *)
Lemma timer_alloc_state s t :
  oneshot_lock s = false -> (exists l, attached s l) -> t_store s !! t = None ->
  timer_state (oneshot_alloc t s) t false
  /\ forall d on, d <> t -> timer_state s d on -> timer_state (oneshot_alloc t s) d on.
Proof.
  intros Hl [l Ha] Ht.
  assert (Htl : t ∉ l) by (intros Hx; destruct (attached_dom s _ _ t Ha Hx); congruence).
  assert (Ha' : attached (oneshot_alloc t s) l).
  { unfold attached. eapply chain_frame; [|exact Ha]. intros d Hd. unfold t_link. cbn. rewrite lookup_insert_ne; [done|congruence]. }
  split.
  - split; [done|by exists l|]. exists (Oneshot_ 0 None 0 None None 1). cbn. by rewrite lookup_insert_eq.
  - intros d on Hd [_ (l' & Hal & Hin) (o & Ho & Hr)]. rewrite (chain_fun _ _ _ _ Hal Ha) in Hin.
    split; [done|by exists l|]. exists o. cbn. by rewrite lookup_insert_ne.
Qed.

(** A timer on the list stays there or has fired: it is off the list, and its
    callback is called. *)
Lemma tick_timer_state s ticks t :
  timer_state s t true -> (forall d o, t_store s !! d = Some o -> 1 <= os_refs o < 2 ^ 32) ->
  exists s' evs, oneshot_tick ticks s = Ok (s', evs)
    /\ (timer_state s' t true
        \/ timer_state s' t false
           /\ forall o f, t_store s !! t = Some o -> os_callback o = Some f -> evs = [Call f (os_arg o)]).
Proof.
  intros [Hl (l & Ha & Hin) (o & Ho & Hr & _)] Hrefs.
  destruct (oneshot_tick_run s ticks l Ha Hl Hrefs) as (l1 & e & l2 & s1 & -> & He & _ & _ & Ha1 & Hc & Hl1 & Hn & Hrun).
  eexists _, _. split; [exact Hrun|]. destruct (Hc t o Ho) as [n Hon].
  assert (Hr1 : os_refs (aged ticks l1 e t o) = 2) by (unfold aged; by repeat case_bool_decide).
  destruct (decide (e = Some t)) as [->|Het].
  - right. specialize (Hn t eq_refl). assert (Htl1 : t ∉ l1 ++ l2).
    { apply chain_NoDup, NoDup_app in Ha as (_ & Hdis & Hnd). apply NoDup_cons in Hnd as [Hnd _].
      rewrite not_elem_of_app. split; [|done]. intros Hx. apply (Hdis t Hx). by left. }
    rewrite (deref_second _ _ _ Hon Hr1). split.
    + split; [done| |].
      * exists (l1 ++ l2). split; [|done].
        assert (Ha2 : attached (mod_timer t (fun o => o <| os_refs := 1 |>) s1) (l1 ++ l2)) by by apply age_attached.
        exact Ha2.
      * eexists. change (t_store _) with (t_store (mod_timer t (fun o => o <| os_refs := 1 |>) s1)).
        rewrite mod_timer_lookup, decide_True, Hon by done. split_and!; [done..|]. intros _. cbn.
        rewrite Hon in Hn. cbn in Hn. by injection Hn.
    + intros o' f Ho' Hf. rewrite Ho' in *. simplify_eq. unfold call_of. by rewrite Hr, Hf.
  - left. assert (Hd : forall d, e = Some d -> t <> d) by (intros; congruence).
    assert (Ht : t ∈ l1 ++ l2) by (destruct e as [d|]; [specialize (Hd d eq_refl)|rewrite He in * by done]; set_solver).
    assert (Hs : t_store match e with Some t => (oneshot_deref t s1).2 | None => s1 end !! t = t_store s1 !! t).
    { destruct e as [d|]; [|done]. apply deref_lookup. by apply Hd. }
    split; [done| |].
    + exists (l1 ++ l2). split; [|done]. destruct e as [d|]; [|exact Ha1]. apply (deref_attached s1 d _ Ha1).
      apply chain_NoDup, NoDup_app in Ha as (_ & Hdis & Hnd). apply NoDup_cons in Hnd as [Hnd _].
      rewrite not_elem_of_app. split; [|done]. intros Hx. apply (Hdis d Hx). by left.
    + eexists. cbn [t_store]. change (t_store (_ <| oneshot_lock := false |>)) with (t_store match e with Some t => (oneshot_deref t s1).2 | None => s1 end).
      rewrite Hs, Hon. split_and!; [done|exact Hr1|done].
Qed.

(** Timers 0 (5 ticks), 1 (2 ticks), 2 (3 ticks) on the list in this order. *)
Definition demo_timers : timers :=
  Timers_ (Some 0%nat) false
    {[0%nat := Oneshot_ 5 (Some 10%nat) 7 (Some 1%nat) None 2;
      1%nat := Oneshot_ 2 (Some 11%nat) 8 (Some 2%nat) None 2;
      2%nat := Oneshot_ 3 (Some 12%nat) 9 None None 2]}.

Lemma oneshot_tick_stops_at_first_due_witness :
  exists l1 e l2 s' evs, [0; 1; 2]%nat = l1 ++ match e with Some e => e :: l2 | None => [] end /\ (e = None -> l2 = [])
    /\ Forall (fun t => 4 < left_of demo_timers t) l1 /\ (forall t, e = Some t -> left_of demo_timers t <= 4)
    /\ oneshot_tick 4 demo_timers = Ok (s', evs) /\ oneshot_lock s' = false /\ attached s' (l1 ++ l2)
    /\ Forall (fun t => left_of s' t = left_of demo_timers t - 4) l1
    /\ Forall (fun t => left_of s' t = left_of demo_timers t) l2
    /\ evs = match e with None => [] | Some t => match t_store demo_timers !! t with Some o => call_of o | None => [] end end.
Proof.
  apply oneshot_tick_stops_at_first_due; [|reflexivity|lia|..].
  - vm_compute. repeat (split; [reflexivity|]; eexists; split; [reflexivity|]). reflexivity.
  - intros t. unfold left_of. destruct (t_store demo_timers !! t) as [o|] eqn:E; [|cbn; lia]. revert E.
    unfold demo_timers. cbn [t_store]. rewrite !lookup_insert_Some, lookup_singleton_Some.
    intros [[<- <-]|[_ [[<- <-]|[_ [<- <-]]]]]; cbn; lia.
  - intros t o. unfold demo_timers. cbn [t_store]. rewrite !lookup_insert_Some, lookup_singleton_Some.
    intros [[<- <-]|[_ [[<- <-]|[_ [<- <-]]]]]; cbn; lia.
Defined.
