(* ===== verification/Thread.v ===== *)
(** * Threads (src/lib/thread/thread.c, include/thread.h)

    A [struct thread] starts with its context, so a thread and its context have one
    identifier; the other fields are in a store of threads next to the kernel
    state of Context.v.  [heap_alloc] is called by [thread_create] and [heap_free]
    by the idle thread: the block allocated is an argument, the blocks freed are an
    output.  The clean-up loop of the idle thread is split where other threads can
    run, which is at every call it makes with interrupts enabled. *)

From stdpp Require Import base list gmap fin_maps strings.
From Stdlib Require Import ZArith Lia.
From S2P Require Import Prelude Context Sched Kernel Sync.
Open Scope Z_scope.

Record thread := Thread_ {
  t_ticks_scheduled : Z;
  t_ticks_left : Z;
  t_next : option cid }.
#[export] Instance eta_thread : Eta thread := fun t =>
  Thread_ (t_ticks_scheduled t) (t_ticks_left t) (t_next t).

Record threads := Threads_ {
  thread_list : option cid;
  idle_free : option cid;
  th : gmap cid thread }.
#[export] Instance eta_threads : Eta threads := fun t =>
  Threads_ (thread_list t) (idle_free t) (th t).

(** ** Operations *)

Definition thread_build (t : cid) (stack_memory pri : Z) (fs : list frame) : SM threads bool :=
  upd (fun s => s <| th := <[t := Thread_ 10 10 (thread_list s)]> (th s) |> <| thread_list := Some t |>);;
  lift (context_init t stack_memory pri fs).

(** [stack] is the block [heap_alloc(stack_sz + sizeof(struct thread))] returned; the
    thread structure is the new context [t] at its end. *)
Definition thread_create (t : cid) (stack priority : Z) : SM threads unit :=
  lift isr_disable;;
  switched ← thread_build t stack priority [F_enable];
  if switched : bool then mret tt else lift isr_enable.

(** The walk of [thread_exit] to the current thread: [*tprev = t->t_next]. *)
Fixpoint exit_walk (fuel : nat) (c : cid) (t : option cid) (tprev : option cid) (s : threads) : res threads :=
  match fuel with
  | O => Fuel
  | S fuel =>
    match t with
    | None => Stop "null thread"
    | Some t =>
      match th s !! t with
      | None => Stop "bad thread pointer"
      | Some x =>
        if bool_decide (t = c) then
          Ok (match tprev with
              | None => s <| thread_list := t_next x |>
              | Some p => s <| th := alter (fun y => y <| t_next := t_next x |>) p (th s) |>
              end)
        else exit_walk fuel c (t_next x) (Some t) s
      end
    end
  end.

(** What [thread_exit] does to the thread lists. *)
Definition exit_lists (c : cid) (s : threads) : res threads :=
  s ← exit_walk (S (size (th s))) c (thread_list s) None s;
  Ok (s <| th := alter (fun y => y <| t_next := idle_free s |>) c (th s) |> <| idle_free := Some c |>).

Definition thread_exit : SM threads unit :=
  lift isr_disable;;
  c ← lift current;
  (fun s k => match exit_lists c s with Ok s => Ok (tt, s, k) | Stop w => Stop w | Fuel => Fuel end);;
  lift context_exit.

Definition thread_yield : SM threads unit :=
  lift isr_disable;;
  c ← lift current;
  upd (fun s => s <| th := alter (fun t => t <| t_ticks_left := t_ticks_scheduled t |>) c (th s) |>);;
  switched ← lift (isr_context_yield [F_enable]);
  if switched : bool then mret tt else lift isr_enable.

Definition thread_wait (l : lid) (fs : list frame) : M unit := context_wait l fs.

Definition thread_interrupt (t : cid) : M unit := context_interrupt t.

(** [isr_thread_schedule] (thread.h), called by the timer interrupt; the result is
    whether the current thread was switched out. *)
Definition isr_thread_schedule (fs : list frame) : SM threads bool :=
  c ← lift current;
  x ← lift (ctx c);
  if 0x80 <=? c_priority x then
    upd (fun s => s <| th := alter (fun t => t <| t_ticks_left := u32 (t_ticks_left t - 1) |>) c (th s) |>);;
    s ← obj;
    if default 0 (t_ticks_left <$> th s !! c) =? 0 then
      upd (fun s => s <| th := alter (fun t => t <| t_ticks_left := t_ticks_scheduled t |>) c (th s) |>);;
      lift (isr_context_yield fs)
    else mret false
  else mret false.

Fixpoint dump_threads (max : nat) (t : option cid) (s : threads) : list (cid * thread) :=
  match max, t with
  | S max, Some t =>
    match th s !! t with
    | None => []
    | Some x => (t, x <| t_next := Some t |>) :: dump_threads max (t_next x) s
    end
  | _, _ => []
  end.

Definition thread_dump_stats (max : nat) : SM threads (list (cid * thread)) :=
  lift isr_disable;;
  s ← obj;
  let l := dump_threads max (thread_list s) s in
  lift isr_enable;;
  mret l.

(** [thread_init]: the idle thread, at priority 0x7f until it has run [init()]. *)
Definition thread_init (idle stack : Z) (t : cid) : SM threads unit :=
  lift (debug_assert_isr true);;
  thread_build t stack 0x7f [];;
  mret tt.

(** The idle thread lowers itself once [init()] is done. *)
Definition idle_start : M unit :=
  isr_disable;;
  c ← current;
  mod_ctx c (fun x => x <| c_priority := 255 |>);;
  switched ← isr_context_yield [F_enable];
  if switched : bool then mret tt else isr_enable.

(** The clean-up loop: the list is taken, its members are freed one by one ([None]
    when the list is done), the head is cleared.  Other threads can exit between
    these steps. *)
Definition idle_take (s : threads) : option cid := idle_free s.

Definition idle_step (t : cid) (s : threads) (k : kernel) : option (Z * option cid) :=
  x ← th s !! t;
  c ← k_ctx k !! t;
  Some (c_stack_memory c, t_next x).

Definition idle_clear (s : threads) : threads := s <| idle_free := None |>.

(** ** The thread lists *)

Definition th_link (s : threads) (t : cid) : option (option cid) := t_next <$> th s !! t.
Definition running_threads (s : threads) (l : list cid) : Prop := chain (th_link s) (thread_list s) l.
Definition exited_threads (s : threads) (l : list cid) : Prop := chain (th_link s) (idle_free s) l.

Lemma th_link_alter s p v t :
  is_Some (th s !! p) ->
  th_link (s <| th := alter (fun y => y <| t_next := v |>) p (th s) |>) t = if decide (t = p) then Some v else th_link s t.
Proof.
  intros [y Hy]. unfold th_link. cbn. case_decide as E.
  - subst t. by rewrite lookup_alter_eq, Hy.
  - by rewrite lookup_alter_ne by done.
Qed.

Lemma th_dom s p l t : chain (th_link s) p l -> t ∈ l -> is_Some (th s !! t).
Proof.
  revert p; induction l as [|m l IH]; intros p; [by intros _ ?%elem_of_nil|].
  intros (_ & nx & Hn & Hl) [->|Hm]%elem_of_cons; [|eauto].
  unfold th_link in Hn. destruct (th s !! m); [eauto|done].
Qed.

Lemma th_length s p l : chain (th_link s) p l -> (length l <= size (th s))%nat.
Proof.
  intros H. rewrite <-(size_list_to_set (C:=gset cid) l) by by eapply chain_NoDup.
  rewrite <-size_dom. apply subseteq_size. intros c Hc%elem_of_list_to_set.
  apply elem_of_dom. by eapply th_dom.
Qed.

(** The walk finds the thread and names the link in front of it. *)
Lemma exit_walk_spec fuel c s l0 l1 l2 p x :
  chain (th_link s) p (l1 ++ c :: l2) -> th s !! c = Some x -> (length l1 < fuel)%nat ->
  exit_walk fuel c p (last l0) s =
    Ok (match last (l0 ++ l1) with
        | None => s <| thread_list := t_next x |>
        | Some q => s <| th := alter (fun y => y <| t_next := t_next x |>) q (th s) |>
        end).
Proof.
  revert fuel p l0; induction l1 as [|d l1 IH]; intros fuel p l0 Hc Hx Hf; (destruct fuel as [|fuel]; [lia|]).
  - destruct Hc as (-> & _). cbn [exit_walk]. rewrite Hx, bool_decide_true by done. by rewrite (app_nil_r l0).
  - pose proof (chain_NoDup _ _ _ Hc) as Hnd. apply NoDup_cons in Hnd as [Hnd _].
    destruct Hc as (-> & n & Hn & Hl). unfold th_link in Hn. destruct (th s !! d) as [y|] eqn:Hy; [|done].
    injection Hn as <-. cbn [exit_walk]. rewrite Hy, bool_decide_false by (intros ->; apply Hnd; set_solver).
    specialize (IH fuel (t_next y) (l0 ++ [d]) Hl Hx). rewrite last_snoc in IH. rewrite IH by (cbn in Hf; lia).
    by rewrite <-app_assoc.
Qed.

(** [thread_exit] moves the thread from the list of threads to the front of the list
    of those to be cleaned up. *)
Lemma exit_lists_spec c s l1 l2 fl :
  running_threads s (l1 ++ c :: l2) -> exited_threads s fl -> (forall t, t ∈ l1 ++ c :: l2 -> t ∉ fl) ->
  exists s', exit_lists c s = Ok s' /\ running_threads s' (l1 ++ l2) /\ exited_threads s' (c :: fl)
    /\ (forall t, is_Some (th s' !! t) <-> is_Some (th s !! t)).
Proof.
  intros Hr He Hd. pose proof (chain_NoDup _ _ _ Hr) as Hnd.
  apply NoDup_app in Hnd as (_ & Hd1 & Hnd). apply NoDup_cons in Hnd as [Hd2 _].
  destruct (th_dom _ _ _ c Hr) as [x Hx]; [set_solver|].
  assert (Hn : t_next x = head l2).
  { unfold running_threads in Hr. clear -Hr Hx. revert Hr. generalize (thread_list s).
    induction l1 as [|d l1 IH]; intros p; cbn.
    - intros (_ & n & Hn & Hl). unfold th_link in Hn. rewrite Hx in Hn. injection Hn as ->. symmetry. by eapply chain_head.
    - intros (_ & n & _ & Hl). eauto. }
  unfold exit_lists.
  rewrite (exit_walk_spec _ c s [] l1 l2 _ x Hr Hx) by (pose proof (th_length _ _ _ Hr); rewrite length_app in *; cbn in *; lia).
  cbn [app mbind res_bind].
  set (s1 := match last l1 with None => _ | Some q => _ end).
  assert (Hlast : forall e, last l1 = Some e -> e <> c /\ e ∉ fl /\ is_Some (th s !! e)).
  { intros e He'%last_Some_elem_of. split_and!.
    - intros ->. apply (Hd1 c He'). set_solver.
    - apply Hd. set_solver.
    - eapply th_dom; [exact Hr|set_solver]. }
  assert (Hlk : forall t, last l1 <> Some t -> th_link s1 t = th_link s t).
  { intros t Ht. unfold s1. destruct (last l1) as [e|] eqn:El; [|done]. destruct (Hlast e eq_refl) as (_ & _ & Hsome).
    rewrite th_link_alter, decide_False by (done || congruence). done. }
  assert (Hdom : forall t, is_Some (th s1 !! t) <-> is_Some (th s !! t)).
  { intros t. unfold s1. destruct (last l1) as [e|]; [|done]. cbn. destruct (decide (t = e)) as [->|].
    - rewrite lookup_alter_eq. destruct (th s !! e); cbn; split; intros []; eauto; done.
    - by rewrite lookup_alter_ne. }
  assert (Hif : idle_free s1 = idle_free s) by (unfold s1; by destruct (last l1)).
  assert (Hr1 : chain (th_link s1) (thread_list s1) (l1 ++ l2)).
  { eapply chain_remove; [exact Hr| |intros d _ Hd'; by apply Hlk].
    unfold s1. destruct (last l1) as [e|] eqn:El; [|by rewrite Hn].
    destruct (Hlast e eq_refl) as (_ & _ & Hsome). split; [|done].
    rewrite th_link_alter, decide_True by done. by rewrite Hn. }
  assert (He1 : chain (th_link s1) (idle_free s1) fl).
  { rewrite Hif. eapply chain_frame; [|exact He]. intros t Ht. apply Hlk. intros E.
    destruct (Hlast t E) as (_ & Hnf & _). done. }
  assert (Hc1 : is_Some (th s1 !! c)) by (apply Hdom; rewrite Hx; eauto).
  eexists. split; [reflexivity|].
  set (s2 := s1 <| th := alter (fun y => y <| t_next := idle_free s1 |>) c (th s1) |>).
  assert (Hlk2 : forall t, th_link s2 t = if decide (t = c) then Some (idle_free s1) else th_link s1 t)
    by (intros t; by apply th_link_alter).
  split_and!.
  - change (chain (th_link s2) (thread_list s1) (l1 ++ l2)). eapply chain_frame; [|exact Hr1].
    intros t Ht. rewrite Hlk2, decide_False; [done|]. intros ->. apply elem_of_app in Ht as [Ht|Ht]; [|done].
    apply (Hd1 c Ht). set_solver.
  - change (chain (th_link s2) (Some c) (c :: fl)). split; [done|]. exists (idle_free s1).
    rewrite Hlk2, decide_True by done. split; [done|]. eapply chain_frame; [|exact He1].
    intros t Ht. rewrite Hlk2, decide_False; [done|]. intros ->. apply (Hd c); [set_solver|done].
  - intros t. cbn. rewrite <-Hdom. destruct (decide (t = c)) as [->|].
    + rewrite lookup_alter_eq. destruct (th s1 !! c); cbn; split; intros []; eauto; done.
    + by rewrite lookup_alter_ne.
Qed.

(** ** A pass of the clean-up loop, with threads exiting meanwhile *)

Fixpoint run_exits (es : list cid) (s : threads) : res threads :=
  match es with [] => Ok s | c :: es => s ← exit_lists c s; run_exits es s end.

(** From [t] on: before each step, and before the list head is cleared, the threads
    of the next batch of [exits] exit.  The result is the blocks freed. *)
Fixpoint idle_pass (fuel : nat) (exits : list (list cid)) (t : option cid) (s : threads) (k : kernel) :
    res (threads * list Z) :=
  match fuel with
  | O => Fuel
  | S fuel =>
    s ← run_exits (default [] (head exits)) s;
    match t with
    | None => Ok (idle_clear s, [])
    | Some t =>
      match idle_step t s k with
      | None => Stop "bad thread pointer"
      | Some (stack, t) => '(s, freed) ← idle_pass fuel (tail exits) t s k; Ok (s, stack :: freed)
      end
    end
  end.

Lemma chain_suffix_head f p l1 l2 : chain f p (l1 ++ l2) -> chain f (head l2) l2.
Proof. intros (q & Hq)%chain_suffix. by rewrite (chain_head _ _ _ Hq). Qed.

Lemma run_exits_spec es s rl fl :
  running_threads s rl -> exited_threads s fl -> (forall t, t ∈ rl -> t ∉ fl) -> NoDup es -> es ⊆ rl ->
  exists s' rl', run_exits es s = Ok s' /\ running_threads s' rl' /\ exited_threads s' (reverse es ++ fl)
    /\ rl ≡ₚ es ++ rl' /\ (forall t, t ∈ rl' -> t ∉ reverse es ++ fl).
Proof.
  revert s rl fl; induction es as [|c es IH]; intros s rl fl Hr He Hd Hnd Hsub.
  - exists s, rl. split_and!; auto.
  - assert (Hc : c ∈ rl) by (apply Hsub; set_solver). apply list_elem_of_split in Hc as (l1 & l2 & ->).
    destruct (exit_lists_spec c s l1 l2 fl Hr He Hd) as (s1 & H1 & Hr1 & He1 & _).
    pose proof (chain_NoDup _ _ _ Hr) as Hnr. apply NoDup_app in Hnr as (_ & Hd1 & Hnr). apply NoDup_cons in Hnr as [Hd2 _].
    apply NoDup_cons in Hnd as [Hce Hnd].
    destruct (IH s1 (l1 ++ l2) (c :: fl) Hr1 He1) as (s2 & rl' & H2 & Hr2 & He2 & Hp & Hd').
    + intros t Ht [->|Hf]%elem_of_cons; [|apply (Hd t); set_solver].
      apply elem_of_app in Ht as [Ht|Ht]; [apply (Hd1 c Ht); set_solver|done].
    + done.
    + intros t Ht. assert (t <> c) by (intros ->; done).
      assert (Ht' : t ∈ l1 ++ c :: l2) by (apply Hsub; set_solver). set_solver.
    + exists s2, rl'. cbn [run_exits]. rewrite H1. cbn [mbind res_bind]. rewrite reverse_cons, <-app_assoc. cbn [app].
      split_and!; auto. rewrite <-Permutation_middle. cbn. by rewrite Hp.
Qed.

Definition stack_of (k : kernel) (t : cid) : Z := default 0 (c_stack_memory <$> k_ctx k !! t).

Lemma idle_pass_spec fuel exits s k rl pre fl :
  running_threads s rl -> exited_threads s (pre ++ fl) -> (forall t, t ∈ rl -> t ∉ pre ++ fl) ->
  NoDup (mjoin exits) -> mjoin exits ⊆ rl -> (forall t, t ∈ fl -> is_Some (k_ctx k !! t)) -> (length fl < fuel)%nat ->
  exists s' rl', idle_pass fuel exits (head fl) s k = Ok (s', stack_of k <$> fl)
    /\ running_threads s' rl' /\ exited_threads s' []
    /\ rl ≡ₚ mjoin (take (S (length fl)) exits) ++ rl'.
Proof.
  revert exits s rl pre fl; induction fuel as [|fuel IH]; intros exits s rl pre fl Hr He Hd Hnd Hsub Hk Hf; [lia|].
  cbn [idle_pass]. set (es := default [] (head exits)).
  assert (Hex : mjoin exits = es ++ mjoin (tail exits)) by by destruct exits.
  assert (Htk : forall n, mjoin (take (S n) exits) = es ++ mjoin (take n (tail exits))) by (intros n; destruct exits; [by destruct n|done]).
  rewrite Hex in Hnd, Hsub. apply NoDup_app in Hnd as (Hn1 & Hn12 & Hn2).
  destruct (run_exits_spec es s rl (pre ++ fl) Hr He Hd Hn1) as (s1 & rl1 & H1 & Hr1 & He1 & Hp1 & Hd1); [intros d Hd'; apply Hsub, elem_of_app; by left|].
  rewrite H1. cbn [mbind res_bind]. destruct fl as [|t fl]; cbn [head].
  - exists (idle_clear s1), rl1. split_and!; auto; [done|]. rewrite Htk, take_0. change (mjoin []) with (@nil cid). by rewrite (app_nil_r es).
  - rewrite app_assoc in He1. pose proof (chain_suffix_head _ _ _ _ He1) as (_ & n & Hn & Hl).
    destruct (Hk t) as [c Hc]; [set_solver|].
    unfold th_link in Hn. destruct (th s1 !! t) as [x|] eqn:Hx; [|done]. injection Hn as Hn.
    unfold idle_step. rewrite Hx. cbn [mbind option_bind]. rewrite Hc. cbn [mbind option_bind].
    rewrite Hn, <-(chain_head _ _ _ Hl).
    destruct (IH (tail exits) s1 rl1 ((reverse es ++ pre) ++ [t]) fl) as (s2 & rl2 & H2 & Hr2 & He2 & Hp2); auto.
    + by rewrite <-(app_assoc _ [t]).
    + rewrite <-(app_assoc _ [t]). cbn [app]. rewrite <-app_assoc. exact Hd1.
    + intros d Hd'. assert (Hdr : d ∈ rl) by (apply Hsub; set_solver). rewrite Hp1 in Hdr.
      apply elem_of_app in Hdr as [Hde|Hde]; [|done]. exfalso. by apply (Hn12 d).
    + intros d Hd'. apply Hk. set_solver.
    + cbn in Hf. lia.
    + exists s2, rl2. cbn [mbind res_bind]. rewrite H2. cbn [mbind res_bind]. split_and!; auto.
      * cbn. unfold stack_of at 2. by rewrite Hc.
      * rewrite Htk, <-app_assoc, <-Hp2. done.
Qed.

(** A pass of the idle thread's clean-up loop frees the memory of exactly the
    threads that had exited when it started, and empties the list; a thread that
    exits during the pass leaves the list of threads but its memory is not freed,
    and it is not on the emptied list either: it is lost. *)
Theorem idle_pass_frees_only_taken s k rl fl exits :
  running_threads s rl -> exited_threads s fl -> (forall t, t ∈ rl -> t ∉ fl) ->
  NoDup (mjoin exits) -> mjoin exits ⊆ rl -> (forall t, t ∈ fl -> is_Some (k_ctx k !! t)) ->
  exists s' rl', idle_pass (S (length fl)) exits (idle_take s) s k = Ok (s', stack_of k <$> fl)
    /\ running_threads s' rl' /\ exited_threads s' []
    /\ rl ≡ₚ mjoin (take (S (length fl)) exits) ++ rl'.
Proof.
  intros Hr He Hd Hnd Hsub Hk. unfold idle_take. rewrite <-(chain_head _ _ _ He).
  apply (idle_pass_spec (S (length fl)) exits s k rl [] fl); auto.
Qed.

Definition demo_threads : threads :=
  Threads_ (Some 1%nat) (Some 3%nat)
    {[1%nat := Thread_ 10 10 (Some 0%nat); 0%nat := Thread_ 10 10 None; 3%nat := Thread_ 10 4 None]}.

Lemma idle_pass_frees_only_taken_witness :
  exists s' rl', idle_pass 2 [[]; [1%nat]] (Some 3%nat) demo_threads (demo false) = Ok (s', [0])
    /\ running_threads s' rl' /\ exited_threads s' [] /\ [1; 0]%nat ≡ₚ [1%nat] ++ rl'.
Proof.
  apply (idle_pass_frees_only_taken demo_threads (demo false) [1; 0]%nat [3%nat] [[]; [1%nat]]).
  - vm_compute. repeat (split; [reflexivity|]; eexists; split; [reflexivity|]). reflexivity.
  - vm_compute. repeat (split; [reflexivity|]; eexists; split; [reflexivity|]). reflexivity.
  - set_solver.
  - cbn. apply NoDup_singleton.
  - cbn. set_solver.
  - intros t ->%list_elem_of_singleton. vm_compute. eauto.
Defined.

Lemma alter_th c t f (m : gmap cid thread) : m !! c = Some t -> alter f c m = <[c := f t]> m.
Proof.
  intros Hc. apply map_eq. intros d. destruct (decide (d = c)) as [->|].
  - by rewrite lookup_alter_eq, lookup_insert_eq, Hc.
  - by rewrite lookup_alter_ne, lookup_insert_ne.
Qed.

(** C29: the timer interrupt counts the time slice of a thread of priority 0x80 or
    below down and does nothing else until it runs out; then the slice is refilled
    and the thread goes behind the ready threads of its own priority.  Threads of
    more urgent priorities are left alone. *)
Theorem timeslice_rotates k s c tl x t fs :
  kernel_reach k -> run_list k (c :: tl) -> isr_disabled k = true ->
  k_ctx k !! c = Some x -> th s !! c = Some t -> 1 <= t_ticks_left t < 2 ^ 32 ->
  if 0x80 <=? c_priority x then
    if t_ticks_left t =? 1 then
      exists b k' l1 l2, isr_thread_schedule fs s k
          = Ok (b, s <| th := <[c := t <| t_ticks_left := t_ticks_scheduled t |>]> (th s) |>, k')
        /\ tl = l1 ++ l2 /\ run_list k' (l1 ++ c :: l2) /\ current_context k' = head (l1 ++ c :: l2)
        /\ Forall (fun d => pri k d <= pri k c) l1 /\ Forall (fun d => pri k c < pri k d) l2
    else isr_thread_schedule fs s k
      = Ok (false, s <| th := <[c := t <| t_ticks_left := t_ticks_left t - 1 |>]> (th s) |>, k)
  else isr_thread_schedule fs s k = Ok (false, s, k).
Proof.
  intros Hk Hl Hisr Hx Ht Hb. destruct (reach_sched _ _ Hk Hl) as [sq H].
  destruct (sched_current_ctx _ _ _ _ H) as [Hc _]. unfold isr_thread_schedule.
  rewrite (lift_bind _ _ _ _ _ _ (current_run c k Hc)), (lift_bind _ _ _ _ _ _ (ctx_run c x k Hx)).
  destruct (0x80 <=? c_priority x); [|done].
  set (s1 := s <| th := <[c := t <| t_ticks_left := t_ticks_left t - 1 |>]> (th s) |>).
  rewrite (sm_bind_run _ _ _ _ tt s1 k).
  2: { unfold upd, s1. rewrite (alter_th c t _ (th s) Ht). by rewrite u32_small by lia. }
  assert (Hs1 : th s1 !! c = Some (t <| t_ticks_left := t_ticks_left t - 1 |>)) by apply lookup_insert_eq.
  rewrite obj_bind, Hs1. cbn [fmap option_fmap option_map default].
  cbn [t_ticks_left setter]. unfold default, id.
  destruct (Z.eqb_spec (t_ticks_left t) 1) as [E|E].
  - replace (t_ticks_left t - 1 =? 0) with true by lia. cbv match.
    set (s2 := s <| th := <[c := t <| t_ticks_left := t_ticks_scheduled t |>]> (th s) |>).
    destruct (isr_context_yield_inv k c tl sq fs H Hisr) as (b & k' & l1 & l2 & Hy & -> & Hi & _ & Hf1 & Hf2).
    exists b, k', l1, l2. split; [|split_and!; auto; [by eapply sched_run|by eapply sched_head]].
    rewrite (sm_bind_run _ _ _ _ tt s2 k); [by rewrite (lift_run _ _ _ _ _ Hy)|].
    unfold upd, s1, s2. cbn [th setter]. erewrite (alter_th c); [|by apply lookup_insert_eq].
    cbn. by rewrite insert_insert_eq.
  - replace (t_ticks_left t - 1 =? 0) with false by lia. reflexivity.
Qed.

(** Two threads of priority 0x90; thread 1 is running in the timer interrupt. *)
Definition demo_slice : kernel :=
  from_boot 0xff [K_init 1 0 0x90; K_init 2 0 0x90; K_resume; K_isr_disable].

Lemma demo_slice_reach : kernel_reach demo_slice.
Proof.
  unfold demo_slice, from_boot. destruct (context_init 0%nat 0 0xff [] boot) as [[[] k]| |] eqn:E; [|by vm_compute in E..].
  apply reach_ops; [by eapply reach_boot|]. vm_compute in E. injection E as <-.
  vm_compute; repeat (split; try reflexivity; try exact I); try (intros; discriminate).
Qed.

Lemma timeslice_rotates_witness :
  exists b k' l1 l2, isr_thread_schedule []
      (Threads_ (Some 1%nat) None {[1%nat := Thread_ 10 1 None]}) demo_slice
      = Ok (b, Threads_ (Some 1%nat) None {[1%nat := Thread_ 10 10 None]}, k')
    /\ [2; 0]%nat = l1 ++ l2 /\ run_list k' (l1 ++ 1%nat :: l2) /\ current_context k' = head (l1 ++ 1%nat :: l2)
    /\ Forall (fun d => pri demo_slice d <= pri demo_slice 1%nat) l1
    /\ Forall (fun d => pri demo_slice 1%nat < pri demo_slice d) l2.
Proof.
  let x := eval vm_compute in (k_ctx demo_slice !! 1%nat) in
  lazymatch x with
  | Some ?x => pose proof (timeslice_rotates demo_slice (Threads_ (Some 1%nat) None {[1%nat := Thread_ 10 1 None]})
                 1%nat [2; 0]%nat x (Thread_ 10 1 None) []) as H
  end.
  change (0x80 <=? _) with true in H. change (_ =? 1) with true in H. cbv match in H. apply H; clear H.
  - apply demo_slice_reach.
  - vm_compute. repeat (split; [reflexivity|]; eexists; split; [reflexivity|]). reflexivity.
  - reflexivity.
  - reflexivity.
  - reflexivity.
  - cbn. lia.
Defined.
