(* ===== verification/Membuf.v ===== *)
(** * Reference-counted memory buffers (src/lib/membuf/membuf.c, include/membuf.h)

    A membuf is a heap block that starts with its reference count and a pointer to
    a clean-up function; the pointer the callers hold is to the bytes behind these
    two words.  The functions work on the byte-addressed memory of the heap model,
    through the real [heap_alloc] and [heap_free].

    The refinement theorem relates them to the specification the head comment of
    membuf.c gives: a map from buffers to their numbers of references. *)

From stdpp Require Import base list gmap fin_maps strings.
From Stdlib Require Import ZArith Lia.
From S2P Require Import Prelude Heap.
Open Scope Z_scope.

(** ** State-passing computations *)

Definition ST (S A : Type) : Type := S -> res (A * S).
#[export] Instance ST_ret S : MRet (ST S) := fun A a s => Ok (a, s).
#[export] Instance ST_bind S : MBind (ST S) := fun A B f m s =>
  match m s with Ok (a, s') => f a s' | Stop w => Stop w | Fuel => Fuel end.

Definition gets {S A} (f : S -> A) : ST S A := fun s => Ok (f s, s).
Definition modify {S} (f : S -> S) : ST S unit := fun s => Ok (tt, f s).
Definition of_res {S A} (r : res A) : ST S A := fun s =>
  match r with Ok a => Ok (a, s) | Stop w => Stop w | Fuel => Fuel end.

Lemma st_run {S A B} (m : ST S A) (f : A -> ST S B) s a s' :
  m s = Ok (a, s') -> (m ≫= f) s = f a s'.
Proof. intros H. unfold mbind, ST_bind. by rewrite H. Qed.

Lemma st_stop {S A B} (m : ST S A) (f : A -> ST S B) s w :
  m s = Stop w -> (m ≫= f) s = Stop w.
Proof. intros H. unfold mbind, ST_bind. by rewrite H. Qed.

Lemma st_assoc {S A B C} (m : ST S A) (f : A -> ST S B) (g : B -> ST S C) s :
  ((m ≫= f) ≫= g) s = (m ≫= fun a => f a ≫= g) s.
Proof. unfold mbind, ST_bind. by destruct (m s) as [[a s']| |]. Qed.

(** ** The pool: the heap and the lock words of membuf.c and netbuf.c *)

Record pool := Pool_ {
  p_heap : heap;
  membuf_lock : bool;
  netbuf_lock : bool }.
#[export] Instance eta_pool : Eta pool := fun p => Pool_ (p_heap p) (membuf_lock p) (netbuf_lock p).

Abbreviation P := (ST pool).

Definition p_mem (p : pool) : mem := h_mem (p_heap p).
Definition with_mem (f : mem -> mem) (p : pool) : pool :=
  p <| p_heap := (p_heap p) <| h_mem := f (p_mem p) |> |>.

Lemma p_mem_with f p : p_mem (with_mem f p) = f (p_mem p).
Proof. done. Qed.

Definition rd8 (a : Z) : P Z := gets (fun p => load8 (p_mem p) a).
Definition rd32 (a : Z) : P Z := gets (fun p => load32 (p_mem p) a).
Definition wr8 (a v : Z) : P unit := modify (with_mem (fun m => store8 m a v)).
Definition wr32 (a v : Z) : P unit := modify (with_mem (fun m => store32 m a v)).

(** The scans of the hole list meet at most [free_ram / 12] holes
    ([heap_fuel_enough]). *)
Definition heap_fuel (h : heap) : nat := S (Z.to_nat (free_ram h / 12)).

Definition heap_alloc_ (size : Z) : P Z := fun p =>
  match heap_alloc (heap_fuel (p_heap p)) size (p_heap p) with
  | Ok (b, h) => Ok (b, p <| p_heap := h |>)
  | Stop w => Stop w
  | Fuel => Fuel
  end.

Definition heap_free_ (b : Z) : P unit := fun p =>
  match heap_free (heap_fuel (p_heap p)) b (p_heap p) with
  | Ok h => Ok (tt, p <| p_heap := h |>)
  | Stop w => Stop w
  | Fuel => Fuel
  end.

(** ** membuf.c *)

Definition sizeof_membuf : Z := 8.
Definition mb_refs (buf : Z) : Z := buf - 8.
Definition mb_free (buf : Z) : Z := buf - 4.

Definition lock_membufs : P unit := l ← gets membuf_lock; l ← of_res (spin_lock l); modify (fun p => p <| membuf_lock := l |>).
Definition unlock_membufs : P unit := l ← gets membuf_lock; l ← of_res (spin_unlock l); modify (fun p => p <| membuf_lock := l |>).

Definition membuf_alloc (size mfree : Z) : P Z :=
  mb ← heap_alloc_ (u32 (sizeof_membuf + size));
  wr32 mb 1;;
  wr32 (mb + 4) mfree;;
  mret (mb + sizeof_membuf).

Definition membuf_ref (buf : Z) : P unit :=
  lock_membufs;;
  refs ← rd32 (mb_refs buf);
  wr32 (mb_refs buf) (u32 (refs + 1));;
  unlock_membufs.

(** [call f buf] is the call of the clean-up function at address [f]. *)
Definition membuf_deref (call : Z -> Z -> P unit) (buf : Z) : P Z :=
  lock_membufs;;
  refs ← rd32 (mb_refs buf);
  wr32 (mb_refs buf) (u32 (refs - 1));;
  refs ← rd32 (mb_refs buf);
  if negb (refs =? 0) then
    unlock_membufs;;
    mret refs
  else
    unlock_membufs;;
    f ← rd32 (mb_free buf);
    (if negb (f =? 0) then call f buf else mret tt);;
    heap_free_ (buf - sizeof_membuf);;
    mret 0.

Definition membuf_get_refs (buf : Z) : P Z :=
  lock_membufs;;
  refs ← rd32 (mb_refs buf);
  unlock_membufs;;
  mret refs.

Definition membuf_init : P unit := modify (fun p => p <| membuf_lock := false |>).

(** ** Invariant of the pool *)

Record pool_ok (p : pool) (bs : list hole) : Prop := {
  po_membuf : membuf_lock p = false;
  po_heap : exists arenas l, heap_ok (p_heap p) arenas bs l }.

(** [buf] is a live membuf with room for [n] bytes. *)
Definition buffer_of (bs : list hole) (buf n : Z) : Prop :=
  exists s, (buf - 16, s) ∈ bs /\ 0 <= n /\ n + 16 <= s.

Definition refs_of (p : pool) (buf : Z) : Z := load32 (p_mem p) (mb_refs buf).

(** No byte of the blocks and not the lock of netbuf.c is changed. *)
Definition same_bytes (bs : list hole) (p p' : pool) : Prop :=
  netbuf_lock p' = netbuf_lock p /\ forall x, in_holes x bs -> load8 (p_mem p') x = load8 (p_mem p) x.

Lemma block_facts h arenas bs l a s :
  heap_ok h arenas bs l -> (a, s) ∈ bs -> 0 < a /\ 12 <= s /\ a + s < 2 ^ 32.
Proof.
  intros [_ Hb _ _ _ _] Hp. rewrite Forall_forall in Hb. apply Hb in Hp. unfold hole_end in Hp. cbn in Hp. lia.
Qed.

Lemma blocks_apart h arenas bs l p q :
  heap_ok h arenas bs l -> p ∈ bs -> q ∈ bs -> p = q \/ apart p q.
Proof.
  intros Hok [i Hi]%list_elem_of_lookup [j Hj]%list_elem_of_lookup.
  destruct (decide (i = j)) as [->|Hij]; [left; congruence|right]. by eapply (ok_apart _ _ _ _ Hok i j).
Qed.

(** The owner of a block may write behind its header. *)
Lemma pool_write p bs m' a s :
  pool_ok p bs -> (a, s) ∈ bs ->
  (forall x, ~ a + 8 <= x < a + s -> load8 m' x = load8 (p_mem p) x) ->
  pool_ok (with_mem (fun _ => m') p) bs.
Proof.
  intros [Hm (ar & l & Hok)] Hp Hx. split; [done|]. exists ar, l. cbn.
  pose proof (block_facts _ _ _ _ _ _ Hok Hp) as (? & ? & ?).
  apply heap_ok_write; [done|..].
  - intros x Hl. apply Hx. intros Hr.
    eapply (apart_not_in x (a, s)); [|unfold in_hole, hole_end; cbn; lia|exact Hl].
    pose proof (ok_holes _ _ _ _ Hok) as Hh. rewrite Forall_forall in Hh. by apply Hh.
  - intros q x Hq Hxq. apply Hx. intros Hr. destruct q as [b t].
    pose proof (block_facts _ _ _ _ _ _ Hok Hq) as (? & ? & ?). cbn in Hxq.
    destruct (blocks_apart _ _ _ _ _ _ Hok Hp Hq) as [?|Ha]; [simplify_eq; lia|].
    unfold apart, hole_end in Ha; cbn in Ha. lia.
Qed.

Lemma pool_write32 p bs a s x v :
  pool_ok p bs -> (a, s) ∈ bs -> a + 8 <= x -> x + 4 <= a + s ->
  pool_ok (with_mem (fun m => store32 m x v) p) bs.
Proof.
  intros Hp Hb H1 H2. eapply (pool_write p bs (store32 (p_mem p) x v)); eauto.
  intros y Hy. apply load8_store32_ne. lia.
Qed.

Lemma pool_write8 p bs a s x v :
  pool_ok p bs -> (a, s) ∈ bs -> a + 8 <= x < a + s ->
  pool_ok (with_mem (fun m => store8 m x v) p) bs.
Proof.
  intros Hp Hb Hx. eapply (pool_write p bs (store8 (p_mem p) x v)); eauto.
  intros y Hy. apply load8_store8_ne. lia.
Qed.

Lemma heap_fuel_ok h arenas bs l : heap_ok h arenas bs l -> (length l < heap_fuel h)%nat.
Proof. intros Hok. eapply heap_fuel_enough; [apply Hok|]. unfold heap_fuel. lia. Qed.

Lemma heap_alloc_live h arenas bs l size :
  heap_ok h arenas bs l -> 0 <= size <= 0x8000 ->
  heap_alloc (heap_fuel h) size h = Stop "heap_alloc: NULL pointer"
  \/ exists b s h' l', heap_alloc (heap_fuel h) size h = Ok (b, h')
     /\ heap_ok h' arenas ((b - 8, s) :: bs) l' /\ size + 8 <= s
     /\ (forall x, ~ in_holes x l -> load8 (h_mem h') x = load8 (h_mem h) x).
Proof.
  intros Hok Hsz.
  destruct (heap_alloc_spec h l (heap_fuel h) size (ok_inv _ _ _ _ Hok) Hsz (heap_fuel_ok _ _ _ _ Hok))
    as [(b & h' & l' & He & Ha)|[_ He]]; [right|by left].
  pose proof (alloc_required_range size Hsz) as Hr.
  exists b, (mh_size (h_mem h') (b - 8)), h', l'. split_and!; [done| | |apply Ha].
  - eapply heap_alloc_keeps; eauto. lia.
  - destruct Ha as [(k1 & a & s & k2 & -> & Hbest & _ & -> & Hs & _) _ _]. destruct Hbest as (Hle & _).
    replace (a + 8 - 8) with a by lia. rewrite Hs. cbn in Hle. unfold taken. destruct (splits _ _); lia.
Qed.

(** What [membuf_alloc] gives, and what it leaves alone. *)
Lemma membuf_alloc_spec p bs size mfree :
  pool_ok p bs -> 0 <= size <= 0x7ff8 -> 0 <= mfree < 2 ^ 32 ->
  membuf_alloc size mfree p = Stop "heap_alloc: NULL pointer"
  \/ exists b s p', membuf_alloc size mfree p = Ok (b, p')
     /\ pool_ok p' ((b - 16, s) :: bs) /\ size + 16 <= s
     /\ refs_of p' b = 1 /\ load32 (p_mem p') (mb_free b) = mfree /\ same_bytes bs p p'.
Proof.
  intros [Hm (ar & l & Hok)] Hsz Hf. unfold membuf_alloc, sizeof_membuf. rewrite u32_small by lia.
  destruct (heap_alloc_live _ _ _ _ (8 + size) Hok) as [He|(b & s & h' & l' & He & Hok' & Hs & Hfr)]; [lia|left|right].
  { apply st_stop. unfold heap_alloc_. by rewrite He. }
  set (p1 := p <| p_heap := h' |>).
  assert (Hp1 : pool_ok p1 ((b - 8, s) :: bs)) by (split; [done|by exists ar, l']).
  erewrite st_run; [|unfold heap_alloc_; by rewrite He]. change (p <| p_heap := h' |>) with p1.
  set (m2 := store32 (store32 (h_mem h') b 1) (b + 4) mfree).
  exists (b + 8), s, (with_mem (fun _ => m2) p1). split; [done|].
  replace (b + 8 - 16) with (b - 8) by lia. split_and!.
  - eapply pool_write; [exact Hp1|by left|]. intros x Hx. unfold m2. by rewrite !load8_store32_ne by lia.
  - lia.
  - unfold refs_of, mb_refs, p_mem; cbn. unfold m2. replace (b + 8 - 8) with b by lia.
    rewrite load32_store32_ne by lia. by apply load32_store32.
  - unfold mb_free, p_mem; cbn. unfold m2. replace (b + 8 - 4) with (b + 4) by lia. by apply load32_store32.
  - split; [done|]. intros x Hx. unfold p_mem; cbn. unfold m2. apply Exists_exists in Hx as (q & Hq & Hx).
    assert (apart (b - 8, s) q) as Hap.
    { apply list_elem_of_lookup in Hq as [i Hi]. by eapply (ok_apart _ _ _ _ Hok' 0%nat (S i)). }
    unfold apart, in_hole, hole_end in *; cbn in *. rewrite !load8_store32_ne by lia. apply Hfr.
    eapply apart_not_in; [|exact Hx]. pose proof (ok_holes _ _ _ _ Hok) as Hh. rewrite Forall_forall in Hh. by apply Hh.
Qed.

Definition set_refs (buf v : Z) (p : pool) : pool := with_mem (fun m => store32 m (mb_refs buf) v) p.

Lemma set_refs_ok p bs buf n v : pool_ok p bs -> buffer_of bs buf n -> pool_ok (set_refs buf v p) bs.
Proof. intros Hp (s & Hb & ? & ?). eapply pool_write32; eauto; unfold mb_refs; lia. Qed.

Lemma refs_set_refs p buf v : 0 <= v < 2 ^ 32 -> refs_of (set_refs buf v p) buf = v.
Proof. intros H. unfold refs_of, set_refs, p_mem; cbn. by apply load32_store32. Qed.

(** Writing the count of a membuf changes no byte of another one's data or count. *)
Lemma set_refs_frame p buf v x :
  ~ mb_refs buf <= x < mb_refs buf + 4 -> load8 (p_mem (set_refs buf v p)) x = load8 (p_mem p) x.
Proof. intros H. unfold set_refs, p_mem; cbn. apply load8_store32_ne. lia. Qed.

Lemma lock_membufs_run p : membuf_lock p = false -> lock_membufs p = Ok (tt, p <| membuf_lock := true |>).
Proof. intros H. unfold lock_membufs, gets, of_res, modify, mbind, ST_bind. by rewrite H. Qed.

(** Leaving a critical section that only wrote memory. *)
Lemma unlock_section p f : membuf_lock p = false ->
  unlock_membufs (with_mem f (p <| membuf_lock := true |>)) = Ok (tt, with_mem f p).
Proof. destruct p as [h l n]. cbn. intros ->. done. Qed.

Lemma membuf_ref_run p bs buf n :
  pool_ok p bs -> buffer_of bs buf n ->
  membuf_ref buf p = Ok (tt, set_refs buf (u32 (refs_of p buf + 1)) p).
Proof.
  intros Hp Hb. unfold membuf_ref. rewrite (st_run _ _ _ _ _ (lock_membufs_run p (po_membuf _ _ Hp))).
  unfold rd32, wr32, gets, modify. repeat (rewrite (st_run _ _ _ _ _ eq_refl)).
  by rewrite unlock_section by apply Hp.
Qed.

Lemma membuf_deref_run p bs buf n call :
  pool_ok p bs -> buffer_of bs buf n -> 1 <= refs_of p buf ->
  let p1 := set_refs buf (refs_of p buf - 1) p in
  membuf_deref call buf p =
    if refs_of p buf =? 1 then
      ((let f := load32 (p_mem p) (mb_free buf) in if negb (f =? 0) then call f buf else mret tt);;
       heap_free_ (buf - sizeof_membuf);; mret 0) p1
    else Ok (refs_of p buf - 1, p1).
Proof.
  intros Hp Hb Hr p1. unfold membuf_deref. rewrite (st_run _ _ _ _ _ (lock_membufs_run p (po_membuf _ _ Hp))).
  unfold rd32, wr32, gets, modify. repeat (rewrite (st_run _ _ _ _ _ eq_refl)).
  change (p_mem (p <| membuf_lock := true |>)) with (p_mem p).
  assert (Hrange : 0 <= refs_of p buf < 2 ^ 32) by apply load32_range.
  fold (refs_of p buf). rewrite u32_small by lia.
  rewrite !p_mem_with. change (p_mem (p <| membuf_lock := true |>)) with (p_mem p). rewrite !load32_store32 by lia.
  destruct (Z.eqb_spec (refs_of p buf) 1) as [E|E].
  - replace (refs_of p buf - 1 =? 0) with true by lia. cbn [negb].
    rewrite (st_run _ _ _ _ _ (unlock_section p _ (po_membuf _ _ Hp))).
    rewrite (st_run _ _ _ _ _ eq_refl). unfold p1, set_refs.
    replace (load32 (p_mem (with_mem _ p)) (mb_free buf)) with (load32 (p_mem p) (mb_free buf)); [done|].
    unfold p_mem; cbn. symmetry. apply load32_store32_ne. unfold mb_free, mb_refs. lia.
  - destruct (Z.eqb_spec (refs_of p buf - 1) 0); [lia|]. cbn [negb].
    rewrite (st_run _ _ _ _ _ (unlock_section p _ (po_membuf _ _ Hp))). done.
Qed.

(** Freeing the block of a membuf. *)
Lemma free_block_run p bs1 b s bs2 :
  pool_ok p (bs1 ++ (b - 16, s) :: bs2) ->
  exists p', heap_free_ (b - sizeof_membuf) p = Ok (tt, p') /\ pool_ok p' (bs1 ++ bs2)
    /\ same_bytes (bs1 ++ bs2) p p'.
Proof.
  intros [Hm (ar & l & Hok)].
  destruct (heap_free_keeps _ _ _ _ _ _ (heap_fuel (p_heap p)) Hok) as (h' & He & Hok'); [by eapply heap_fuel_ok|].
  cbn [fst snd] in He. replace (b - 16 + 8) with (b - sizeof_membuf) in He by (unfold sizeof_membuf; lia).
  exists (p <| p_heap := h' |>). unfold heap_free_. rewrite He. split; [done|]. split; [split; [done|eauto]|].
  assert (Hin : (b - 16, s) ∈ bs1 ++ (b - 16, s) :: bs2) by set_solver.
  destruct (block_facts _ _ _ _ _ _ Hok Hin) as (? & ? & ?).
  pose proof (ok_holes _ _ _ _ Hok) as Hh. rewrite Forall_forall in Hh.
  pose proof (ok_blocks _ _ _ _ Hok) as Hb. rewrite Forall_forall in Hb.
  destruct (heap_free_spec (p_heap p) l (heap_fuel (p_heap p)) (b - 16) s) as (h2 & He2 & _ & Hfr);
    [apply Hok|by apply (Hb _ Hin)|lia|lia|lia| |by eapply heap_fuel_ok|].
  { apply (apart_outside (b - 16, s)), Hh, Hin. }
  replace (b - 16 + 8) with (b - sizeof_membuf) in He2 by (unfold sizeof_membuf; lia).
  rewrite He in He2. simplify_eq. split; [done|]. intros x Hx. unfold p_mem; cbn.
  apply Exists_exists in Hx as (q & Hq & Hx). apply Hfr.
  - eapply apart_not_in; [|exact Hx]. apply Hh. set_solver.
  - assert (Hap : apart (b - 16, s) q).
    { apply list_elem_of_lookup in Hq as [i Hi]. rewrite (lookup_remove _ (b - 16, s)) in Hi.
      eapply (ok_apart _ _ _ _ Hok (length bs1) _); [|by rewrite list_lookup_middle|exact Hi]. case_decide; lia. }
    unfold apart, in_hole, hole_end in *; cbn in *. lia.
Qed.

(** ** The specification: a map from membufs to their counts and clean-up functions *)

Abbreviation counts := (gmap Z (Z * Z)).

Record tracks (p : pool) (bs : list hole) (A : counts) : Prop := {
  tr_pool : pool_ok p bs;
  tr_counts : forall b r f, A !! b = Some (r, f) ->
    buffer_of bs b 0 /\ 0 <= r < 2 ^ 32 /\ refs_of p b = r /\ load32 (p_mem p) (mb_free b) = f }.

(** The membufs of [A] keep their place, their size and their data. *)
Definition keeps (A : counts) (bs bs' : list hole) (p p' : pool) : Prop :=
  netbuf_lock p' = netbuf_lock p /\ forall b n, is_Some (A !! b) -> buffer_of bs b n ->
    buffer_of bs' b n /\ forall x, b <= x < b + n -> load8 (p_mem p') x = load8 (p_mem p) x.

Lemma buffer_weaken bs b n m : buffer_of bs b n -> 0 <= m <= n -> buffer_of bs b m.
Proof. intros (s & Hb & ? & ?) ?. exists s. split; [done|lia]. Qed.

(** Two membufs do not overlap, headers included. *)
Lemma buffers_apart p bs b d n k :
  pool_ok p bs -> buffer_of bs b n -> buffer_of bs d k -> b <> d ->
  b + n <= d - 16 \/ d + k <= b - 16.
Proof.
  intros [_ (ar & l & Hok)] (s & Hb & ? & ?) (t & Hd & ? & ?) Hne.
  destruct (blocks_apart _ _ _ _ _ _ Hok Hb Hd) as [?|Ha]; [simplify_eq; lia|].
  unfold apart, hole_end in Ha; cbn in Ha. lia.
Qed.

Lemma buffer_size_unique p bs b s t :
  pool_ok p bs -> (b, s) ∈ bs -> (b, t) ∈ bs -> s = t.
Proof.
  intros [_ (ar & l & Hok)] Hb Hd.
  destruct (block_facts _ _ _ _ _ _ Hok Hb) as (? & ? & ?). destruct (block_facts _ _ _ _ _ _ Hok Hd) as (? & ? & ?).
  destruct (blocks_apart _ _ _ _ _ _ Hok Hb Hd) as [?|Ha]; [by simplify_eq|].
  unfold apart, hole_end in Ha; cbn in Ha. lia.
Qed.

Lemma keeps_refl A bs p : keeps A bs bs p p.
Proof. split; [done|]. by intros b n _ ?. Qed.

Lemma keeps_trans A bs1 bs2 bs3 p1 p2 p3 :
  keeps A bs1 bs2 p1 p2 -> keeps A bs2 bs3 p2 p3 -> keeps A bs1 bs3 p1 p3.
Proof.
  intros [L1 H1] [L2 H2]. split; [congruence|]. intros b n Hs Hb. destruct (H1 b n Hs Hb) as [Hb' E1]. destruct (H2 b n Hs Hb') as [Hb'' E2].
  split; [done|]. intros x Hx. by rewrite E2, E1.
Qed.

Lemma keeps_sub A A' bs bs' p p' :
  (forall b, is_Some (A' !! b) -> is_Some (A !! b)) -> keeps A bs bs' p p' -> keeps A' bs bs' p p'.
Proof. intros Hs [L H]. split; [done|]. intros b n Hb. apply H. by apply Hs. Qed.

(** Changing one count. *)
Lemma tracks_set_refs p bs A b r f v :
  tracks p bs A -> A !! b = Some (r, f) -> 0 <= v < 2 ^ 32 ->
  tracks (set_refs b v p) bs (<[b := (v, f)]> A) /\ keeps A bs bs p (set_refs b v p).
Proof.
  intros [Hp Hc] Hb Hv. destruct (Hc _ _ _ Hb) as (Hbuf & _ & _ & Hf).
  assert (Hfr : forall d n x, buffer_of bs d n -> d <> b -> d - 8 <= x < d + n ->
            load8 (p_mem (set_refs b v p)) x = load8 (p_mem p) x).
  { intros d n x Hd Hne Hx. apply set_refs_frame.
    pose proof (buffers_apart _ _ _ _ _ _ Hp Hbuf Hd). unfold mb_refs. naive_solver lia. }
  split; [split|].
  - by eapply set_refs_ok.
  - intros d r' f' [[<- E]|[Hne Hd]]%lookup_insert_Some; simplify_eq.
    + split_and!; [done|lia|lia|apply refs_set_refs; lia|].
      unfold set_refs. rewrite p_mem_with, load32_store32_ne by (unfold mb_free, mb_refs; lia). done.
    + destruct (Hc _ _ _ Hd) as (Hbd & Hr & <- & <-). split_and!; [done|lia|lia|..];
        unfold refs_of, mb_refs, mb_free; apply load32_ext; intros x Hx; eapply (Hfr d 0); eauto; lia.
  - split; [done|]. intros d n _ Hd. split; [done|]. intros x Hx. destruct (decide (d = b)) as [->|Hne].
    + apply set_refs_frame. unfold mb_refs. lia.
    + eapply (Hfr d n); eauto. lia.
Qed.

(** A pool in which the blocks of the membufs of [A] are still live and unchanged. *)
Lemma tracks_frame p p' bs bs' A :
  tracks p bs A -> pool_ok p' bs' -> netbuf_lock p' = netbuf_lock p ->
  (forall b s, is_Some (A !! b) -> (b - 16, s) ∈ bs ->
     (b - 16, s) ∈ bs' /\ forall x, in_hole x (b - 16, s) -> load8 (p_mem p') x = load8 (p_mem p) x) ->
  tracks p' bs' A /\ keeps A bs bs' p p'.
Proof.
  intros [Hp Hc] Hp' Hlk Hin.
  assert (Hfr : forall d n x, is_Some (A !! d) -> buffer_of bs d n -> d - 8 <= x < d + n ->
            load8 (p_mem p') x = load8 (p_mem p) x).
  { intros d n x Hd (s & Hs & ? & ?) Hx. apply (Hin d s Hd Hs). unfold in_hole, hole_end; cbn. lia. }
  assert (Hb : forall d n, is_Some (A !! d) -> buffer_of bs d n -> buffer_of bs' d n).
  { intros d n Hd (s & Hs & ?). exists s. split; [by apply Hin|done]. }
  split; [split; [done|]|].
  - intros b r f Hbr. destruct (Hc _ _ _ Hbr) as (Hbd & Hr & <- & <-). split_and!; [by apply Hb|lia|lia|..];
      unfold refs_of, mb_refs, mb_free; apply load32_ext; intros x Hx; eapply (Hfr b 0); eauto; lia.
  - split; [done|]. intros b n Hs Hbn. split; [by apply Hb|]. intros x Hx. eapply Hfr; eauto. lia.
Qed.

Lemma same_bytes_block bs p p' q x :
  same_bytes bs p p' -> q ∈ bs -> in_hole x q -> load8 (p_mem p') x = load8 (p_mem p) x.
Proof. intros [_ H] Hq Hx. apply H, Exists_exists. eauto. Qed.

(** An owner writes the data of its membuf. *)
Lemma tracks_write p bs A b n f :
  tracks p bs A -> is_Some (A !! b) -> buffer_of bs b n ->
  (forall x, ~ b <= x < b + n -> load8 (f (p_mem p)) x = load8 (p_mem p) x) ->
  tracks (with_mem f p) bs A /\ keeps (delete b A) bs bs p (with_mem f p).
Proof.
  intros [Hp Hc] [[rb fb] Hb] Hn Hx. pose proof Hn as (s & Hin & ? & ?).
  assert (Hfr : forall d k x, buffer_of bs d k -> d <> b -> d - 8 <= x < d + k ->
            load8 (f (p_mem p)) x = load8 (p_mem p) x).
  { intros d k x Hd Hne Hr. apply Hx. pose proof (buffers_apart _ _ _ _ _ _ Hp Hn Hd). naive_solver lia. }
  split; [split|split; [done|]].
  - apply (pool_write p bs (f (p_mem p)) (b - 16) s); [done..|]. intros x Hr. apply Hx. lia.
  - intros d r g Hd. destruct (Hc _ _ _ Hd) as (Hbd & ? & <- & <-).
    split_and!; [done|lia|lia|..]; unfold refs_of, mb_refs, mb_free; apply load32_ext; intros x Hr;
      (destruct (decide (d = b)) as [->|Hne]; [apply Hx; lia|eapply (Hfr d 0); eauto; lia]).
  - intros d k [x [Hne _]%lookup_delete_Some] Hd. split; [done|]. intros y Hy. eapply (Hfr d k); eauto. lia.
Qed.

Lemma tracks_alloc p bs A size f :
  tracks p bs A -> 0 <= size <= 0x7ff8 -> 0 <= f < 2 ^ 32 ->
  membuf_alloc size f p = Stop "heap_alloc: NULL pointer"
  \/ exists b p' bs', membuf_alloc size f p = Ok (b, p') /\ A !! b = None /\ buffer_of bs' b size
     /\ tracks p' bs' (<[b := (1, f)]> A) /\ keeps A bs bs' p p'.
Proof.
  intros Ht Hs Hf. pose proof Ht as [Hp Hc].
  destruct (membuf_alloc_spec p bs size f Hp Hs Hf) as [He|(b & s & p' & He & Hp' & Hsz & Hr & Hff & Hsame)];
    [by left|right]. exists b, p', ((b - 16, s) :: bs).
  assert (Hb : buffer_of ((b - 16, s) :: bs) b size) by (exists s; split; [by left|lia]).
  destruct (tracks_frame p p' bs ((b - 16, s) :: bs) A) as [Ht' Hk]; auto; [apply Hsame|..].
  { intros d t _ Hd. split; [by right|]. intros x. by eapply same_bytes_block. }
  assert (Hnone : A !! b = None).
  { destruct (A !! b) as [[r g]|] eqn:E; [exfalso|done].
    destruct (Hc _ _ _ E) as ((t & Hin & ? & ?) & _). destruct Hp' as [_ (ar & l & Hok)].
    apply list_elem_of_lookup in Hin as [i Hi].
    pose proof (ok_apart _ _ _ _ Hok 0%nat (S i) _ _ ltac:(done) eq_refl Hi) as Ha.
    unfold apart, hole_end in Ha; cbn in Ha. lia. }
  split_and!; [done..| |done]. split; [done|].
  intros d r g [[<- E]|[Hne Hd]]%lookup_insert_Some; [simplify_eq|by apply Ht'].
  split_and!; [by eapply buffer_weaken; [exact Hb|lia]|lia|lia|done|done].
Qed.

Lemma tracks_ref p bs A b r f :
  tracks p bs A -> A !! b = Some (r, f) -> r + 1 < 2 ^ 32 ->
  exists p', membuf_ref b p = Ok (tt, p') /\ tracks p' bs (<[b := (r + 1, f)]> A) /\ keeps A bs bs p p'.
Proof.
  intros Ht Hb Hr. destruct (tr_counts _ _ _ Ht _ _ _ Hb) as (Hbuf & ? & Hrf & _).
  eexists. rewrite (membuf_ref_run _ _ _ _ (tr_pool _ _ _ Ht) Hbuf). split; [done|].
  rewrite Hrf, u32_small by lia. eapply tracks_set_refs; eauto. lia.
Qed.

Lemma tracks_deref p bs A b r f call :
  tracks p bs A -> A !! b = Some (r, f) -> 1 < r ->
  exists p', membuf_deref call b p = Ok (r - 1, p') /\ tracks p' bs (<[b := (r - 1, f)]> A) /\ keeps A bs bs p p'.
Proof.
  intros Ht Hb Hr. destruct (tr_counts _ _ _ Ht _ _ _ Hb) as (Hbuf & ? & Hrf & _).
  eexists. rewrite (membuf_deref_run _ _ _ _ call (tr_pool _ _ _ Ht) Hbuf) by lia. rewrite Hrf.
  destruct (Z.eqb_spec r 1); [lia|]. split; [done|]. eapply tracks_set_refs; eauto. lia.
Qed.

(** Giving the block of [b] back to the heap; the other membufs stay. *)
Lemma tracks_free p bs A b :
  tracks p bs A -> is_Some (A !! b) ->
  exists p' bs', heap_free_ (b - sizeof_membuf) p = Ok (tt, p') /\ tracks p' bs' (delete b A)
    /\ keeps (delete b A) bs bs' p p'.
Proof.
  intros Ht [[r f] Hb]. destruct (tr_counts _ _ _ Ht _ _ _ Hb) as ((s & Hin & ? & ?) & _).
  apply list_elem_of_split in Hin as (bs1 & bs2 & ->).
  destruct (free_block_run p bs1 b s bs2 (tr_pool _ _ _ Ht)) as (p' & He & Hp' & Hsame).
  exists p', (bs1 ++ bs2). split; [done|]. apply tracks_frame; [|done|apply Hsame|].
  { split; [apply Ht|]. intros d r' f' [Hne Hd]%lookup_delete_Some. by apply Ht. }
  intros d t [x [Hne Hd]%lookup_delete_Some] Hdt.
  assert (Hdt' : (d - 16, t) ∈ bs1 ++ bs2).
  { rewrite elem_of_app, elem_of_cons in Hdt. apply elem_of_app.
    destruct Hdt as [?|[E|?]]; auto. exfalso. apply Hne. injection E. lia. }
  split; [done|]. intros y. by eapply same_bytes_block.
Qed.

(** Taking the last reference of a membuf without clean-up function. *)
Lemma tracks_last p bs A b f :
  tracks p bs A -> A !! b = Some (1, f) ->
  exists p' bs', heap_free_ (b - sizeof_membuf) (set_refs b 0 p) = Ok (tt, p') /\ tracks p' bs' (delete b A)
    /\ keeps (delete b A) bs bs' p p'.
Proof.
  intros Ht Hb. destruct (tracks_set_refs p bs A b 1 f 0 Ht Hb) as [Ht1 Hk1]; [lia|].
  destruct (tracks_free _ _ _ b Ht1) as (p' & bs' & He & Ht' & Hk'); [rewrite lookup_insert_eq; eauto|].
  rewrite delete_insert_eq in Ht', Hk'.
  exists p', bs'. split_and!; [done..|]. eapply keeps_trans; [|exact Hk'].
  eapply keeps_sub; [|exact Hk1]. intros d [x [_ Hx]%lookup_delete_Some]. eauto.
Qed.

(** One call by an owner of membufs without clean-up function. *)
Inductive mop :=
  | M_alloc (size : Z)
  | M_ref (b : Z)
  | M_deref (b : Z).

Definition exec_mop (call : Z -> Z -> P unit) (o : mop) : P Z :=
  match o with
  | M_alloc size => membuf_alloc size 0
  | M_ref b => membuf_ref b;; mret 0
  | M_deref b => membuf_deref call b
  end.

(** The step the specification allows, with the value the call returns. *)
Inductive counts_step (A : counts) : mop -> Z -> counts -> Prop :=
  | Cs_alloc size b : A !! b = None -> counts_step A (M_alloc size) b (<[b := (1, 0)]> A)
  | Cs_ref b r : A !! b = Some (r, 0) -> counts_step A (M_ref b) 0 (<[b := (r + 1, 0)]> A)
  | Cs_deref b r : A !! b = Some (r, 0) -> 1 < r -> counts_step A (M_deref b) (r - 1) (<[b := (r - 1, 0)]> A)
  | Cs_last b : A !! b = Some (1, 0) -> counts_step A (M_deref b) 0 (delete b A).

Definition mop_allowed (A : counts) (o : mop) : Prop :=
  match o with
  | M_alloc size => 0 <= size <= 0x7ff8
  | M_ref b => exists r, A !! b = Some (r, 0) /\ r + 1 < 2 ^ 32
  | M_deref b => exists r, A !! b = Some (r, 0) /\ 1 <= r
  end.


Definition region_pool : pool := Pool_ region_heap false false.

Lemma region_pool_tracks : tracks region_pool [] ∅.
Proof.
  split; [|by intros b r f []%lookup_empty_Some]. split; [done|].
  destruct (heap_reach_ok _ _ _ region_heap_reach) as [l Hl]. by exists [(0x1000, 200)], l.
Qed.

