(* ===== verification/NetbufMem.v ===== *)
(** * Network buffers in memory (src/lib/netbuf/netbuf.c, include/netbuf.h)

    A [struct netbuf] is a membuf of fourteen words: for each of four layers the
    membuf that holds it, the address of its first byte and its size, then the link
    of the send queues and the hint membuf.  The functions of netbuf.c work on these
    words; the layers are membufs of their own, shared between the clones of a
    netbuf. *)

From stdpp Require Import base list gmap fin_maps strings.
From Stdlib Require Import ZArith Lia.
From S2P Require Import Prelude Heap Membuf.
Open Scope Z_scope.

(** Offsets in [struct netbuf]. *)
Module Nb.
Definition datalink_membuf : Z := 0.
Definition datalink : Z := 4.
Definition datalink_size : Z := 8.
Definition network_membuf : Z := 12.
Definition network : Z := 16.
Definition network_size : Z := 20.
Definition transport_membuf : Z := 24.
Definition transport : Z := 28.
Definition transport_size : Z := 32.
Definition application_membuf : Z := 36.
Definition application : Z := 40.
Definition application_size : Z := 44.
Definition next : Z := 48.
Definition hint_membuf : Z := 52.
Definition sizeof : Z := 56.
End Nb.

(** [memcpy] (include/i386/memory.h), ascending. *)
Fixpoint copy_bytes (n : nat) (dest src : Z) (m : mem) : mem :=
  match n with
  | O => m
  | S n => copy_bytes n (dest + 1) (src + 1) (store8 m dest (load8 m src))
  end.

Definition memcpy (dest src count : Z) : P unit :=
  modify (with_mem (copy_bytes (Z.to_nat count) dest src)).

Definition lock_netbufs : P unit := l ← gets netbuf_lock; l ← of_res (spin_lock l); modify (fun p => p <| netbuf_lock := l |>).
Definition unlock_netbufs : P unit := l ← gets netbuf_lock; l ← of_res (spin_unlock l); modify (fun p => p <| netbuf_lock := l |>).

(** The address of [__netbuf_free], as the pointer in [mb_free] has it. *)
Definition NETBUF_FREE : Z := 0x100000.

Definition ref_if (a : Z) : P unit :=
  m ← rd32 a;
  if negb (m =? 0) then membuf_ref m else mret tt.

Definition deref_if (deref : Z -> P Z) (a : Z) : P unit :=
  m ← rd32 a;
  if negb (m =? 0) then _ ← deref m; mret tt else mret tt.

(** [__netbuf_free]; [deref] is [membuf_deref]. *)
Definition netbuf_free_ (deref : Z -> P Z) (nb : Z) : P unit :=
  deref_if deref (nb + Nb.datalink_membuf);;
  deref_if deref (nb + Nb.network_membuf);;
  deref_if deref (nb + Nb.transport_membuf);;
  deref_if deref (nb + Nb.application_membuf);;
  deref_if deref (nb + Nb.hint_membuf).

(** [membuf_deref] with the clean-up functions there are; [__netbuf_free] calls it
    again for the layers, which are one level down. *)
Fixpoint buf_deref (depth : nat) (buf : Z) : P Z :=
  match depth with
  | O => fun _ => Fuel
  | S depth => membuf_deref (fun f b =>
      if f =? NETBUF_FREE then netbuf_free_ (buf_deref depth) b
      else fun _ => Stop "call of an unknown function") buf
  end.

Definition netbuf_ref (nb : Z) : P unit := membuf_ref nb.
Definition netbuf_deref (nb : Z) : P Z := buf_deref 2 nb.
Definition netbuf_get_refs (nb : Z) : P Z := membuf_get_refs nb.

Definition netbuf_alloc : P Z :=
  nb ← membuf_alloc Nb.sizeof NETBUF_FREE;
  wr32 (nb + Nb.datalink_membuf) 0;;
  wr32 (nb + Nb.datalink) 0;;
  wr32 (nb + Nb.datalink_size) 0;;
  wr32 (nb + Nb.network_membuf) 0;;
  wr32 (nb + Nb.network) 0;;
  wr32 (nb + Nb.network_size) 0;;
  wr32 (nb + Nb.transport_membuf) 0;;
  wr32 (nb + Nb.transport) 0;;
  wr32 (nb + Nb.transport_size) 0;;
  wr32 (nb + Nb.application_membuf) 0;;
  wr32 (nb + Nb.application) 0;;
  wr32 (nb + Nb.application_size) 0;;
  wr32 (nb + Nb.next) 0;;
  wr32 (nb + Nb.hint_membuf) 0;;
  mret nb.

Definition netbuf_clone (orig : Z) : P Z :=
  lock_netbufs;;
  nb ← membuf_alloc Nb.sizeof NETBUF_FREE;
  memcpy nb orig Nb.sizeof;;
  ref_if (nb + Nb.datalink_membuf);;
  ref_if (nb + Nb.network_membuf);;
  ref_if (nb + Nb.transport_membuf);;
  ref_if (nb + Nb.application_membuf);;
  wr32 (nb + Nb.next) 0;;
  ref_if (nb + Nb.hint_membuf);;
  unlock_netbufs;;
  mret nb.

Definition netbuf_init : P unit := modify (fun p => p <| netbuf_lock := false |>).

(** ** Copying *)

Lemma copy_bytes_spec n dest src m x :
  dest + Z.of_nat n <= src \/ src + Z.of_nat n <= dest ->
  load8 (copy_bytes n dest src m) x =
    if decide (dest <= x < dest + Z.of_nat n) then load8 m (src + (x - dest)) else load8 m x.
Proof.
  revert dest src m; induction n as [|n IH]; intros dest src m H; cbn [copy_bytes].
  - case_decide; [lia|done].
  - rewrite IH by lia. repeat case_decide; try lia.
    + rewrite load8_store8_ne by lia. f_equal. lia.
    + assert (x = dest) as -> by lia. rewrite load8_store8.
      replace (src + (dest - dest)) with src by lia. apply u8_small. unfold load8. apply u8_range.
    + apply load8_store8_ne. lia.
Qed.

Lemma load32_copy n dest src m a :
  dest + Z.of_nat n <= src \/ src + Z.of_nat n <= dest -> dest <= a -> a + 4 <= dest + Z.of_nat n ->
  load32 (copy_bytes n dest src m) a = load32 m (src + (a - dest)).
Proof.
  intros H H1 H2. unfold load32. rewrite !copy_bytes_spec by done.
  repeat (rewrite decide_True by lia).
  replace (src + (a + 1 - dest)) with (src + (a - dest) + 1) by lia.
  replace (src + (a + 2 - dest)) with (src + (a - dest) + 2) by lia.
  by replace (src + (a + 3 - dest)) with (src + (a - dest) + 3) by lia.
Qed.

(** ** The layers of a netbuf and their counts *)

Definition layer_fields : list Z :=
  [Nb.datalink_membuf; Nb.network_membuf; Nb.transport_membuf; Nb.application_membuf; Nb.hint_membuf].

(** The membufs a netbuf refers to; 0 for a layer without one. *)
Definition layers_of (m : mem) (nb : Z) : list Z := (fun o => load32 m (nb + o)) <$> layer_fields.

(** [k] added to the count of membuf [m]. *)
Definition bump (k m : Z) (A : counts) : counts :=
  if m =? 0 then A else alter (fun x => (x.1 + k, x.2)) m A.

Fixpoint bumps (k : Z) (ms : list Z) (A : counts) : counts :=
  match ms with [] => A | m :: ms => bump k m (bumps k ms A) end.

(** Every membuf among [ms] is live, has no clean-up function, and its count can
    still grow by [k]. *)
Definition shareable (k : Z) (A : counts) (ms : list Z) : Prop :=
  forall m, m ∈ ms -> m <> 0 -> exists r, A !! m = Some (r, 0) /\ 1 <= r /\ r + k < 2 ^ 32.

Lemma bump_comm k m1 m2 A : bump k m1 (bump k m2 A) = bump k m2 (bump k m1 A).
Proof.
  unfold bump. destruct (m1 =? 0), (m2 =? 0); auto.
  destruct (decide (m1 = m2)) as [->|Hne]; [done|]. by rewrite alter_alter_ne.
Qed.

Lemma bumps_perm k ms ms' A : ms ≡ₚ ms' -> bumps k ms A = bumps k ms' A.
Proof.
  induction 1 as [|x l l' _ IH|x y l|l1 l2 l3 _ IH1 _ IH2]; cbn; [done|by f_equal|apply bump_comm|congruence].
Qed.

Lemma bump_undo m A : bump (-1) m (bump 1 m A) = A.
Proof.
  unfold bump. destruct (m =? 0); [done|].
  apply map_eq. intros d. destruct (decide (d = m)) as [->|]; [|by rewrite !lookup_alter_ne].
  rewrite !lookup_alter_eq. destruct (A !! m) as [[r f]|]; [|done]. cbn. do 2 f_equal. lia.
Qed.

Lemma lookup_bump k m A d : d <> m -> bump k m A !! d = A !! d.
Proof. intros H. unfold bump. destruct (m =? 0); [done|]. by rewrite lookup_alter_ne. Qed.

Lemma lookup_bump_eq k m A : m <> 0 -> bump k m A !! m = (fun x => (x.1 + k, x.2)) <$> A !! m.
Proof. intros H. unfold bump. destruct (Z.eqb_spec m 0); [done|]. by rewrite lookup_alter_eq. Qed.

Lemma bump_dom k m A d : is_Some (bump k m A !! d) <-> is_Some (A !! d).
Proof.
  destruct (decide (d = m)) as [->|?]; [|by rewrite lookup_bump].
  unfold bump. destruct (m =? 0); [done|]. rewrite lookup_alter_eq. by rewrite fmap_is_Some.
Qed.

Lemma bumps_dom k ms A d : is_Some (bumps k ms A !! d) <-> is_Some (A !! d).
Proof. induction ms; cbn; [done|]. by rewrite bump_dom. Qed.

Lemma bumps_lookup_ne k ms A d : d ∉ ms -> bumps k ms A !! d = A !! d.
Proof.
  induction ms as [|m ms IH]; cbn; [done|]. intros [H1 H2]%not_elem_of_cons. rewrite lookup_bump by done. by apply IH.
Qed.

Lemma bumps_insert k ms A c v : c ∉ ms -> bumps k ms (<[c := v]> A) = <[c := v]> (bumps k ms A).
Proof.
  induction ms as [|m ms IH]; cbn; [done|]. intros [H1 H2]%not_elem_of_cons. rewrite IH by done.
  unfold bump. destruct (m =? 0); [done|]. apply map_eq. intros d.
  destruct (decide (d = c)) as [->|Hc].
  - by rewrite lookup_alter_ne, !lookup_insert_eq.
  - rewrite lookup_insert_ne by done. destruct (decide (d = m)) as [->|].
    + by rewrite !lookup_alter_eq, lookup_insert_ne.
    + by rewrite !lookup_alter_ne, lookup_insert_ne.
Qed.

Lemma shareable_bump k A m ms : shareable (k + 1) A ms -> shareable k (bump 1 m A) ms.
Proof.
  intros H d Hd H0. destruct (H d Hd H0) as (r & Hr & ? & ?). destruct (decide (d = m)) as [->|Hne].
  - exists (r + 1). rewrite lookup_bump_eq, Hr by done. split; [done|lia].
  - exists r. rewrite lookup_bump by done. split; [done|lia].
Qed.

Lemma bumps_bump k ms m A : bumps k ms (bump k m A) = bump k m (bumps k ms A).
Proof. induction ms as [|x ms IH]; cbn; [done|]. by rewrite IH, bump_comm. Qed.

Lemma bumps_app k ms ms' A : bumps k (ms ++ ms') A = bumps k ms (bumps k ms' A).
Proof. induction ms as [|m ms IH]; cbn; [done|]. by rewrite IH. Qed.

Lemma bumps_ge ms A m r f : A !! m = Some (r, f) -> exists r', bumps 1 ms A !! m = Some (r', f) /\ r <= r'.
Proof.
  intros H. induction ms as [|x ms (r' & IH & Hr)]; cbn; [eauto with lia|].
  destruct (decide (m = x)) as [->|Hne]; [|rewrite lookup_bump by done; eauto].
  destruct (decide (x = 0)) as [->|H0].
  - exists r'. split; [exact IH|done].
  - exists (r' + 1). rewrite lookup_bump_eq, IH by done. split; [done|lia].
Qed.

Lemma shareable_cons k A m ms : shareable k A (m :: ms) -> shareable k A ms.
Proof. intros H d Hd. apply H. by right. Qed.

(** ** Taking and dropping the references of a netbuf *)

Fixpoint ref_ifs {B} (nb : Z) (os : list Z) (k : P B) : P B :=
  match os with [] => k | o :: os => ref_if (nb + o);; ref_ifs nb os k end.

Fixpoint deref_ifs {B} (deref : Z -> P Z) (nb : Z) (os : list Z) (k : P B) : P B :=
  match os with [] => k | o :: os => deref_if deref (nb + o);; deref_ifs deref nb os k end.

Lemma st_done {S} (m : ST S unit) s : (m;; mret tt) s = m s.
Proof. unfold mbind, ST_bind. by destruct (m s) as [[[] s']| |]. Qed.

Lemma st_bind_ext {S A B} (m : ST S A) (f g : A -> ST S B) s :
  (forall a s', f a s' = g a s') -> (m ≫= f) s = (m ≫= g) s.
Proof. intros H. unfold mbind, ST_bind. destruct (m s) as [[a s']| |]; auto. Qed.

Lemma netbuf_free_ifs deref nb p : netbuf_free_ deref nb p = deref_ifs deref nb layer_fields (mret tt) p.
Proof. unfold netbuf_free_. cbn [deref_ifs layer_fields]. do 4 (apply st_bind_ext; intros _ ?). by rewrite st_done. Qed.

Definition in_netbuf (os : list Z) : Prop := Forall (fun o => 0 <= o /\ o + 4 <= Nb.sizeof) os.

Lemma layer_fields_in : in_netbuf layer_fields.
Proof. unfold in_netbuf, layer_fields. repeat (apply Forall_cons; split; [cbv; split; discriminate|]). done. Qed.

(** A netbuf that is kept keeps its fields. *)
Lemma keeps_field A bs bs' p p' c o :
  keeps A bs bs' p p' -> is_Some (A !! c) -> buffer_of bs c Nb.sizeof -> 0 <= o -> o + 4 <= Nb.sizeof ->
  load32 (p_mem p') (c + o) = load32 (p_mem p) (c + o).
Proof.
  intros [_ Hk] Hc Hb H1 H2. destruct (Hk c Nb.sizeof Hc Hb) as [_ Hx]. apply load32_ext. intros x Hr. apply Hx. lia.
Qed.

Lemma keeps_fields A bs bs' p p' c os :
  keeps A bs bs' p p' -> is_Some (A !! c) -> buffer_of bs c Nb.sizeof -> in_netbuf os ->
  ((fun o => load32 (p_mem p') (c + o)) <$> os) = ((fun o => load32 (p_mem p) (c + o)) <$> os).
Proof.
  intros Hk Hc Hb Ho. apply list_fmap_ext. intros i o Hi. unfold in_netbuf in Ho. rewrite Forall_forall in Ho.
  apply list_elem_of_lookup_2 in Hi. apply Ho in Hi as [? ?]. eapply keeps_field; eauto.
Qed.

Lemma ref_if_run p bs A a :
  tracks p bs A -> shareable 1 A [load32 (p_mem p) a] ->
  exists p', ref_if a p = Ok (tt, p') /\ tracks p' bs (bump 1 (load32 (p_mem p) a) A) /\ keeps A bs bs p p'.
Proof.
  intros Ht Hs. set (m := load32 (p_mem p) a) in *.
  unfold ref_if, rd32, gets. rewrite (st_run _ _ _ _ _ eq_refl). fold m. unfold bump.
  destruct (Z.eqb_spec m 0) as [E|E]; cbn [negb].
  - exists p. split_and!; [done..|apply keeps_refl].
  - destruct (Hs m) as (r & Hm & ? & ?); [by left|done|].
    destruct (tracks_ref p bs A m r 0 Ht Hm) as (p' & He & Ht' & Hk); [lia|]. exists p'. split_and!; [done| |done].
    replace (alter _ m A) with (<[m := (r + 1, 0)]> A); [done|].
    apply map_eq. intros d. destruct (decide (d = m)) as [->|].
    + by rewrite lookup_alter_eq, lookup_insert_eq, Hm.
    + by rewrite lookup_alter_ne, lookup_insert_ne.
Qed.

Lemma ref_ifs_run {B} (k : P B) c bs os p A :
  tracks p bs A -> is_Some (A !! c) -> buffer_of bs c Nb.sizeof -> in_netbuf os ->
  let ms := (fun o => load32 (p_mem p) (c + o)) <$> os in
  shareable (Z.of_nat (length os)) A ms ->
  exists p', ref_ifs c os k p = k p' /\ tracks p' bs (bumps 1 ms A) /\ keeps A bs bs p p'.
Proof.
  revert p A; induction os as [|o os IH]; intros p A Ht Hc Hb Ho ms Hs.
  - exists p. split_and!; [done..|apply keeps_refl].
  - cbn [ref_ifs]. pose proof (Forall_cons_1 _ _ _ Ho) as [[Hlo Hhi] Ho'].
    destruct (ref_if_run p bs A (c + o) Ht) as (p1 & H1 & Ht1 & Hk1).
    { intros d ->%list_elem_of_singleton H0. destruct (Hs (load32 (p_mem p) (c + o))) as (r & ? & ? & ?); [by left|done|].
      exists r. split_and!; [done..|]. cbn [length] in *. lia. }
    destruct (IH p1 (bump 1 (load32 (p_mem p) (c + o)) A) Ht1) as (p2 & H2 & Ht2 & Hk2); auto.
    + by apply bump_dom.
    + rewrite (keeps_fields _ _ _ _ _ _ _ Hk1 Hc Hb Ho'). apply shareable_bump. apply shareable_cons in Hs.
      intros d Hd H0. destruct (Hs d Hd H0) as (r & ? & ? & ?). exists r. split_and!; [done..|]. cbn [length] in *. lia.
    + exists p2. rewrite (st_run _ _ _ _ _ H1), H2. split_and!; [done| |].
      * rewrite (keeps_fields _ _ _ _ _ _ _ Hk1 Hc Hb Ho'), bumps_bump in Ht2. exact Ht2.
      * eapply keeps_trans; [exact Hk1|]. eapply keeps_sub; [|exact Hk2]. intros d Hd. by apply bump_dom.
Qed.

Lemma deref_if_run p bs A a depth :
  let m := load32 (p_mem p) a in
  tracks p bs (bump 1 m A) -> (m <> 0 -> exists r, A !! m = Some (r, 0) /\ 1 <= r) ->
  exists p', deref_if (buf_deref (S depth)) a p = Ok (tt, p') /\ tracks p' bs A /\ keeps A bs bs p p'.
Proof.
  intros m Ht Hs. unfold deref_if, rd32, gets. rewrite (st_run _ _ _ _ _ eq_refl). fold m.
  destruct (Z.eqb_spec m 0) as [E|E]; cbn [negb].
  - exists p. unfold bump in Ht. rewrite E in Ht. split_and!; [done..|apply keeps_refl].
  - destruct (Hs E) as (r & Hm & ?).
    assert (Hm' : bump 1 m A !! m = Some (r + 1, 0)) by (by rewrite lookup_bump_eq, Hm by done).
    cbn [buf_deref]. set (call := fun f b => _).
    destruct (tracks_deref p bs _ m (r + 1) 0 call Ht Hm') as (p' & He & Ht' & Hk); [lia|].
    exists p'. rewrite (st_run _ _ _ _ _ He). split_and!; [done| |].
    + replace A with (<[m := (r + 1 - 1, 0)]> (bump 1 m A)); [done|].
      apply map_eq. intros d. destruct (decide (d = m)) as [->|].
      * rewrite lookup_insert_eq, Hm. do 2 f_equal. lia.
      * by rewrite lookup_insert_ne, lookup_bump.
    + eapply keeps_sub; [|exact Hk]. intros d Hd. by apply bump_dom.
Qed.

Lemma deref_ifs_run {B} (k : P B) depth c bs os p A ms :
  is_Some (A !! c) -> buffer_of bs c Nb.sizeof -> in_netbuf os ->
  ms = ((fun o => load32 (p_mem p) (c + o)) <$> os) -> tracks p bs (bumps 1 ms A) ->
  (forall m, m ∈ ms -> m <> 0 -> exists r, A !! m = Some (r, 0) /\ 1 <= r) ->
  exists p', deref_ifs (buf_deref (S depth)) c os k p = k p' /\ tracks p' bs A /\ keeps A bs bs p p'.
Proof.
  revert p ms; induction os as [|o os IH]; intros p ms Hc Hb Ho -> Ht Hs.
  - exists p. split_and!; [done..|apply keeps_refl].
  - cbn [deref_ifs]. pose proof (Forall_cons_1 _ _ _ Ho) as [[Hlo Hhi] Ho']. cbn [fmap list_fmap bumps] in Ht.
    destruct (deref_if_run p bs (bumps 1 ((fun o => load32 (p_mem p) (c + o)) <$> os) A) (c + o) depth Ht) as (p1 & H1 & Ht1 & Hk1).
    { intros H0. destruct (Hs (load32 (p_mem p) (c + o))) as (r & Hr & ?); [by left|done|].
      destruct (bumps_ge ((fun o => load32 (p_mem p) (c + o)) <$> os) A _ r 0 Hr) as (r' & ? & ?). exists r'. split; [done|lia]. }
    pose proof (keeps_sub _ A _ _ _ _ (fun d Hd => proj2 (bumps_dom _ _ _ d) Hd) Hk1) as Hk1'.
    pose proof (keeps_fields _ _ _ _ _ _ _ Hk1' Hc Hb Ho') as Ef.
    destruct (IH p1 _ Hc Hb Ho' eq_refl) as (p2 & H2 & Ht2 & Hk2).
    + by rewrite Ef.
    + intros m Hm. rewrite Ef in Hm. apply Hs. by right.
    + exists p2. rewrite (st_run _ _ _ _ _ H1), H2. split_and!; [done..|by eapply keeps_trans].
Qed.

Lemma tracks_netlock p bs A v : tracks p bs A -> tracks (p <| netbuf_lock := v |>) bs A.
Proof. intros [[Hm Hh] Hc]. by split; [split|]. Qed.

Lemma keeps_netlock A bs bs' p p' :
  keeps A bs bs' (p <| netbuf_lock := true |>) p' -> netbuf_lock p = false ->
  keeps A bs bs' p (p' <| netbuf_lock := false |>).
Proof. intros [_ Hk] Hp. split; [by rewrite Hp|exact Hk]. Qed.

Lemma shareable_insert k A ms c v : A !! c = None -> shareable k A ms -> shareable k (<[c := v]> A) ms.
Proof.
  intros Hc H m Hm H0. destruct (H m Hm H0) as (r & Hr & ?). exists r. split; [|done].
  rewrite lookup_insert_ne; [done|]. intros ->. by rewrite Hc in Hr.
Qed.

Lemma shareable_sub k A ms ms' : ms' ⊆ ms -> shareable k A ms -> shareable k A ms'.
Proof. intros Hs H m Hm. apply H. by apply Hs. Qed.

Lemma not_layer A ms c k : A !! c = None -> c <> 0 -> shareable k A ms -> c ∉ ms.
Proof. intros Hc H0 Hs Hm. destruct (Hs c Hm H0) as (r & Hr & _). by rewrite Hc in Hr. Qed.

(** The new membuf with the fields of the original. *)
Lemma clone_copied p bs A nb :
  tracks p bs A -> is_Some (A !! nb) -> buffer_of bs nb Nb.sizeof ->
  membuf_alloc Nb.sizeof NETBUF_FREE p = Stop "heap_alloc: NULL pointer"
  \/ exists c p1 p' bs', membuf_alloc Nb.sizeof NETBUF_FREE p = Ok (c, p1) /\ memcpy c nb Nb.sizeof p1 = Ok (tt, p')
     /\ A !! c = None /\ c <> 0 /\ buffer_of bs' c Nb.sizeof /\ tracks p' bs' (<[c := (1, NETBUF_FREE)]> A)
     /\ keeps A bs bs' p p'
     /\ (forall o, 0 <= o -> o + 4 <= Nb.sizeof -> load32 (p_mem p') (c + o) = load32 (p_mem p) (nb + o)).
Proof.
  intros Ht Hnb Hb. destruct (tracks_alloc p bs A Nb.sizeof NETBUF_FREE Ht) as [?|(c & p1 & bs1 & He & Hc & Hbc & Ht1 & Hk1)];
    [by cbv|by cbv|by left|right].
  set (cp := copy_bytes (Z.to_nat Nb.sizeof) c nb).
  assert (Hne : nb <> c) by (intros ->; rewrite Hc in Hnb; by destruct Hnb).
  destruct (proj2 Hk1 nb Nb.sizeof Hnb Hb) as [Hb1 Hd1].
  pose proof (buffers_apart _ _ _ _ _ _ (tr_pool _ _ _ Ht1) Hb1 Hbc Hne) as Hap.
  assert (Hdis : c + Z.of_nat (Z.to_nat Nb.sizeof) <= nb \/ nb + Z.of_nat (Z.to_nat Nb.sizeof) <= c) by (unfold Nb.sizeof in *; lia).
  destruct (tracks_write p1 bs1 _ c Nb.sizeof cp Ht1) as [Ht2 Hk2]; [rewrite lookup_insert_eq; eauto|done|..].
  { intros x Hx. unfold cp. rewrite copy_bytes_spec by done. rewrite decide_False; [done|]. unfold Nb.sizeof in *. lia. }
  rewrite delete_insert_id in Hk2 by done.
  exists c, p1, (with_mem cp p1), bs1. split_and!; auto.
  - destruct Hbc as (s & Hin & _). destruct (tr_pool _ _ _ Ht1) as [_ (ar & l & Hok)].
    pose proof (block_facts _ _ _ _ _ _ Hok Hin). lia.
  - by eapply keeps_trans.
  - intros o H1 H2. rewrite p_mem_with. unfold cp. rewrite load32_copy; [|done|lia|unfold Nb.sizeof in *; lia].
    replace (nb + (c + o - c)) with (nb + o) by lia. eapply keeps_field; eauto.
Qed.

(** Dropping the only reference of a netbuf whose layers have other references. *)
Lemma netbuf_deref_last p bs A c ms :
  tracks p bs (<[c := (1, NETBUF_FREE)]> (bumps 1 ms A)) -> A !! c = None -> c <> 0 ->
  buffer_of bs c Nb.sizeof -> layers_of (p_mem p) c = ms ->
  (forall m, m ∈ ms -> m <> 0 -> exists r, A !! m = Some (r, 0) /\ 1 <= r) ->
  exists p' bs', netbuf_deref c p = Ok (0, p') /\ tracks p' bs' A /\ keeps A bs bs' p p'.
Proof.
  intros Ht Hc H0 Hb Hl Hs.
  assert (Hcm : c ∉ ms) by (intros Hm; destruct (Hs c Hm H0) as (r & Hr & _); by rewrite Hc in Hr).
  destruct (tr_counts _ _ _ Ht _ _ _ (lookup_insert_eq _ _ _)) as (Hb0 & _ & Hr & Hf).
  destruct (tracks_set_refs p bs _ c 1 NETBUF_FREE 0 Ht (lookup_insert_eq _ _ _)) as [Ht1 Hk1]; [lia|].
  rewrite insert_insert_eq, <-bumps_insert in Ht1 by done.
  set (A0 := <[c := (0, NETBUF_FREE)]> A) in *.
  assert (Hc0 : is_Some (A0 !! c)) by (unfold A0; rewrite lookup_insert_eq; eauto).
  destruct (deref_ifs_run (mret tt) 0 c bs layer_fields (set_refs c 0 p) A0 ms) as (p2 & H2 & Ht2 & Hk2); auto.
  { apply layer_fields_in. }
  { rewrite <-Hl. symmetry. eapply keeps_fields; [exact Hk1| |done|apply layer_fields_in]. rewrite lookup_insert_eq. eauto. }
  { intros m Hm Hm0. destruct (Hs m Hm Hm0) as (r & Hmr & ?). exists r. split; [|done].
    unfold A0. rewrite lookup_insert_ne; [done|]. intros ->. done. }
  destruct (tracks_free p2 bs A0 c Ht2 Hc0) as (p3 & bs3 & He3 & Ht3 & Hk3).
  unfold A0 in Ht3, Hk3. rewrite delete_insert_id in Ht3, Hk3 by done.
  exists p3, bs3. split_and!; [|done|].
  - set (call := fun f b => if f =? NETBUF_FREE then netbuf_free_ (buf_deref 1) b
                            else fun _ => Stop "call of an unknown function").
    change (netbuf_deref c p) with (membuf_deref call c p).
    rewrite (membuf_deref_run _ _ _ _ call (tr_pool _ _ _ Ht) Hb0) by lia.
    rewrite Hr, Hf. cbv zeta. change (1 =? 1) with true. change (negb (NETBUF_FREE =? 0)) with true. cbv match.
    assert (Hfree : call NETBUF_FREE c (set_refs c 0 p) = Ok (tt, p2)).
    { unfold call. change (NETBUF_FREE =? NETBUF_FREE) with true. cbv match. by rewrite netbuf_free_ifs, H2. }
    by rewrite (st_run _ _ _ _ _ Hfree), (st_run _ _ _ _ _ He3).
  - assert (Hsub : forall d, is_Some (A !! d) -> is_Some (A0 !! d)).
    { intros d Hd. unfold A0. destruct (decide (d = c)) as [->|]; [done|by rewrite lookup_insert_ne]. }
    eapply keeps_trans; [|exact Hk3]. eapply keeps_trans; [|eapply keeps_sub; [exact Hsub|exact Hk2]].
    eapply keeps_sub; [|exact Hk1]. intros d Hd. destruct (decide (d = c)) as [->|]; [by rewrite Hc in Hd; destruct Hd|].
    rewrite lookup_insert_ne by done. by apply bumps_dom.
Qed.

Lemma tracks_nonzero p bs A c n : tracks p bs A -> buffer_of bs c n -> 0 < c - 16.
Proof.
  intros Ht (s & Hin & _). destruct (tr_pool _ _ _ Ht) as [_ (ar & l & Hok)].
  pose proof (block_facts _ _ _ _ _ _ Hok Hin). lia.
Qed.

(** ** [netbuf_alloc] gives a netbuf with every field clear *)

Definition zero_words (c : Z) (os : list Z) (m : mem) : mem := foldl (fun m o => store32 m (c + o) 0) m os.

Lemma zero_words_other c os m x :
  Forall (fun o => x < c + o \/ c + o + 4 <= x) os -> load8 (zero_words c os m) x = load8 m x.
Proof.
  unfold zero_words. revert m; induction os as [|o os IH]; intros m; [done|]. intros [Ho Hos]%Forall_cons.
  cbn [foldl]. rewrite IH by done. by apply load8_store32_ne.
Qed.

Lemma zero_words_load c os m o :
  o ∈ os -> Forall (fun q => (q = o \/ q + 4 <= o \/ o + 4 <= q)) os -> load32 (zero_words c os m) (c + o) = 0.
Proof.
  unfold zero_words. revert m; induction os as [|q os IH]; intros m Ho Hf; [by apply elem_of_nil in Ho|].
  apply Forall_cons in Hf as [Hq Hf]. cbn [foldl].
  destruct (decide (o ∈ os)) as [Hin|Hin]; [by apply IH|]. apply elem_of_cons in Ho as [->|]; [|done].
  transitivity (load32 (store32 m (c + q) 0) (c + q)); [|by apply load32_store32]. apply load32_ext. intros x Hx.
  apply zero_words_other. rewrite !Forall_forall in *. intros r Hr.
  assert (r <> q) by (intros ->; done). destruct (Hf r Hr); lia.
Qed.

Definition netbuf_words : list Z := [0; 4; 8; 12; 16; 20; 24; 28; 32; 36; 40; 44; 48; 52].

Lemma netbuf_alloc_spec p bs A :
  tracks p bs A ->
  netbuf_alloc p = Stop "heap_alloc: NULL pointer"
  \/ exists c p' bs', netbuf_alloc p = Ok (c, p') /\ A !! c = None /\ buffer_of bs' c Nb.sizeof
     /\ tracks p' bs' (<[c := (1, NETBUF_FREE)]> A) /\ keeps A bs bs' p p'
     /\ (forall o, o ∈ netbuf_words -> load32 (p_mem p') (c + o) = 0).
Proof.
  intros Ht. unfold netbuf_alloc.
  destruct (tracks_alloc p bs A Nb.sizeof NETBUF_FREE Ht) as [He|(c & p1 & bs1 & He & Hc & Hbc & Ht1 & Hk1)];
    [by cbv|by cbv|left; by apply st_stop|right].
  rewrite (st_run _ _ _ _ _ He).
  destruct (tracks_write p1 bs1 _ c Nb.sizeof (zero_words c netbuf_words) Ht1) as [Ht2 Hk2]; [rewrite lookup_insert_eq; eauto|done|..].
  { intros x Hx. apply zero_words_other. unfold netbuf_words, Nb.sizeof in *. rewrite !Forall_cons. split_and!; lia || done. }
  rewrite delete_insert_id in Hk2 by done.
  exists c, (with_mem (zero_words c netbuf_words) p1), bs1. split_and!; auto; [by eapply keeps_trans|].
  intros o Ho. rewrite p_mem_with. apply zero_words_load; [done|].
  unfold netbuf_words in *. rewrite !Forall_cons. set_unfold in Ho. destruct_or? Ho; subst; split_and!; (lia || done).
Qed.

(** The references taken and the link cleared, after the copy. *)
Lemma clone_refs {B} (k : P B) p bs A c ms :
  tracks p bs A -> is_Some (A !! c) -> c ∉ ms -> buffer_of bs c Nb.sizeof -> layers_of (p_mem p) c = ms ->
  shareable 5 (delete c A) ms ->
  exists p', (ref_if (c + Nb.datalink_membuf);; ref_if (c + Nb.network_membuf);; ref_if (c + Nb.transport_membuf);;
              ref_if (c + Nb.application_membuf);; wr32 (c + Nb.next) 0;; ref_if (c + Nb.hint_membuf);; k) p = k p'
    /\ tracks p' bs (bumps 1 ms A) /\ keeps (delete c A) bs bs p p'
    /\ load32 (p_mem p') (c + Nb.next) = 0
    /\ (forall o, 0 <= o -> o + 4 <= Nb.next \/ o = Nb.hint_membuf -> load32 (p_mem p') (c + o) = load32 (p_mem p) (c + o)).
Proof.
  intros Ht Hc Hcm Hb Hl Hs.
  assert (HsA : shareable 5 A ms).
  { intros m Hm H0. destruct (Hs m Hm H0) as (r & [_ Hr]%lookup_delete_Some & ?). eauto. }
  set (os := take 4 layer_fields). set (ms1 := (fun o => load32 (p_mem p) (c + o)) <$> os).
  set (h := load32 (p_mem p) (c + Nb.hint_membuf)).
  assert (Hms : ms = ms1 ++ [h]) by (by rewrite <-Hl).
  pose proof layer_fields_in as Hin. unfold in_netbuf, layer_fields in Hin. rewrite !Forall_cons in Hin.
  assert (Hos : in_netbuf os) by (unfold in_netbuf, os; cbn; rewrite !Forall_cons; tauto).
  destruct (ref_ifs_run (wr32 (c + Nb.next) 0;; ref_if (c + Nb.hint_membuf);; k) c bs os p A) as (p1 & H1 & Ht1 & Hk1); auto.
  { intros m Hm H0. fold ms1 in Hm. assert (Hm' : m ∈ ms) by (rewrite Hms; apply elem_of_app; by left).
    destruct (HsA m Hm' H0) as (r & ? & ? & ?). exists r. split_and!; auto. change (Z.of_nat (length os)) with 4. lia. }
  fold ms1 in Ht1. assert (Hc1 : is_Some (bumps 1 ms1 A !! c)) by by apply bumps_dom.
  destruct (tracks_write p1 bs _ c Nb.sizeof (fun m => store32 m (c + Nb.next) 0) Ht1 Hc1 Hb) as [Ht2 Hk2].
  { intros x Hx. apply load8_store32_ne. unfold Nb.next, Nb.sizeof in *. lia. }
  set (p2 := with_mem _ p1) in *.
  assert (Hh : load32 (p_mem p2) (c + Nb.hint_membuf) = h).
  { unfold p2. rewrite p_mem_with, load32_store32_ne by (unfold Nb.next, Nb.hint_membuf; lia).
    eapply keeps_field; eauto; by cbv. }
  destruct (ref_if_run p2 bs _ (c + Nb.hint_membuf) Ht2) as (p3 & H3 & Ht3 & Hk3).
  { rewrite Hh. intros m ->%list_elem_of_singleton H0. destruct (HsA h) as (r & Hr & ? & ?); [set_solver|done|].
    assert (shareable 1 (bumps 1 ms1 A) [h]) as Hsh.
    { unfold ms1, os. cbn [fmap list_fmap take layer_fields bumps]. do 4 apply shareable_bump.
      intros d ->%list_elem_of_singleton _. eauto with lia. }
    by apply Hsh; [left|]. }
  rewrite Hh in Ht3. exists p3. split_and!.
  - change ((ref_ifs c os (wr32 (c + Nb.next) 0;; ref_if (c + Nb.hint_membuf);; k)) p = k p3).
    rewrite H1. unfold wr32, modify. by rewrite (st_run _ _ _ _ _ eq_refl), (st_run _ _ _ _ _ H3).
  - rewrite Hms, bumps_app. change (bumps 1 [h] A) with (bump 1 h A). by rewrite bumps_bump.
  - eapply keeps_trans; [eapply keeps_sub; [|exact Hk1]|eapply keeps_trans; [eapply keeps_sub; [|exact Hk2]|eapply keeps_sub; [|exact Hk3]]];
      intros d [x [Hne Hd]%lookup_delete_Some]; [eauto| |].
    + rewrite lookup_delete_ne by done. apply bumps_dom. eauto.
    + apply bumps_dom. eauto.
  - erewrite keeps_field; [|exact Hk3|done|done|by cbv..].
    unfold p2. rewrite p_mem_with. apply load32_store32. lia.
  - intros o Ho1 Ho2. assert (o + 4 <= Nb.sizeof) by (unfold Nb.next, Nb.hint_membuf, Nb.sizeof in *; lia).
    erewrite keeps_field; [|exact Hk3|done|done|done..]. unfold p2.
    rewrite p_mem_with, load32_store32_ne by (unfold Nb.next, Nb.hint_membuf in *; lia). by eapply keeps_field.
Qed.

(** C31: cloning a netbuf shares its layers.  The clone is a new netbuf with the
    fields of the original but for the queue link, which is cleared; every layer
    membuf has one more reference per field that names it; no live buffer is
    written.  Dropping the clone then frees the clone alone: every count, and the
    data of every buffer, is what it was before the clone.  The only other outcome
    is the halt for lack of memory. *)
Theorem netbuf_clone_deref_roundtrip p bs A nb r :
  tracks p bs A -> netbuf_lock p = false -> A !! nb = Some (r, NETBUF_FREE) -> buffer_of bs nb Nb.sizeof ->
  shareable 5 A (layers_of (p_mem p) nb) ->
  netbuf_clone nb p = Stop "heap_alloc: NULL pointer"
  \/ exists c p1 bs1, netbuf_clone nb p = Ok (c, p1) /\ A !! c = None
     /\ tracks p1 bs1 (<[c := (1, NETBUF_FREE)]> (bumps 1 (layers_of (p_mem p) nb) A)) /\ keeps A bs bs1 p p1
     /\ (forall o, 0 <= o -> o + 4 <= Nb.next \/ o = Nb.hint_membuf -> load32 (p_mem p1) (c + o) = load32 (p_mem p) (nb + o))
     /\ load32 (p_mem p1) (c + Nb.next) = 0
     /\ exists p2 bs2, netbuf_deref c p1 = Ok (0, p2) /\ tracks p2 bs2 A /\ keeps A bs bs2 p p2.
Proof.
  intros Ht Hlk Hnb Hb Hs. set (ms := layers_of (p_mem p) nb) in *.
  set (p0 := p <| netbuf_lock := true |>). pose proof (tracks_netlock p bs A true Ht) as Ht0. fold p0 in Ht0.
  assert (Hlock : lock_netbufs p = Ok (tt, p0)) by (unfold lock_netbufs, gets, of_res, modify, mbind, ST_bind; by rewrite Hlk).
  unfold netbuf_clone. rewrite (st_run _ _ _ _ _ Hlock).
  destruct (clone_copied p0 bs A nb Ht0 ltac:(eauto) Hb) as [He|(c & pa & p1 & bs1 & Ha & He & Hc & H0 & Hbc & Ht1 & Hk1 & Hf1)];
    [left; by apply st_stop|right].
  assert (Hl1 : layers_of (p_mem p1) c = ms).
  { apply list_fmap_ext. intros i o Hi. apply Hf1; apply list_elem_of_lookup_2 in Hi;
      pose proof layer_fields_in as Hin; unfold in_netbuf in Hin; rewrite Forall_forall in Hin; by apply Hin. }
  assert (Hcm : c ∉ ms) by by eapply not_layer.
  destruct (clone_refs (unlock_netbufs;; mret c) p1 bs1 _ c ms Ht1) as (p2 & He2 & Ht2 & Hk2 & Hn2 & Hf2); auto.
  { rewrite lookup_insert_eq. eauto. }
  { by rewrite delete_insert_id. }
  rewrite bumps_insert in Ht2 by done. rewrite delete_insert_id in Hk2 by done.
  set (p3 := p2 <| netbuf_lock := false |>).
  assert (Hk3 : keeps A bs bs1 p p3) by (apply keeps_netlock; [by eapply keeps_trans|done]).
  assert (Hunlock : unlock_netbufs p2 = Ok (tt, p3)).
  { unfold unlock_netbufs, gets, of_res, modify, mbind, ST_bind.
    rewrite (proj1 Hk2), (proj1 Hk1). done. }
  pose proof (tracks_netlock p2 bs1 _ false Ht2) as Ht3. fold p3 in Ht3.
  exists c, p3, bs1. split; [|split_and!; auto].
  - by rewrite (st_run _ _ _ _ _ Ha), (st_run _ _ _ _ _ He), He2, (st_run _ _ _ _ _ Hunlock).
  - intros o Ho1 Ho2. change (load32 (p_mem p2) (c + o) = load32 (p_mem p) (nb + o)).
    rewrite Hf2, Hf1; [done|done| |done|done]. unfold Nb.next, Nb.hint_membuf, Nb.sizeof in *. lia.
  - destruct (netbuf_deref_last p3 bs1 A c ms Ht3 Hc H0 Hbc) as (p4 & bs4 & He4 & Ht4 & Hk4).
    + rewrite <-Hl1. apply list_fmap_ext. intros i o Hi. apply Hf2; apply list_elem_of_lookup_2 in Hi.
      * pose proof layer_fields_in as Hin. unfold in_netbuf in Hin. rewrite Forall_forall in Hin. by apply Hin.
      * unfold layer_fields in Hi. set_unfold in Hi. destruct_or? Hi; subst; cbv; auto; left; discriminate.
    + intros m Hm Hm0. destruct (Hs m Hm Hm0) as (rm & ? & ? & ?). eauto.
    + exists p4, bs4. split_and!; auto. by eapply keeps_trans.
Qed.

(** A netbuf at 0x1010, then a membuf for its network layer at 0x1058. *)
Definition demo_pool1 : pool :=
  Eval vm_compute in match netbuf_alloc region_pool with Ok (_, p) => p | _ => region_pool end.
Definition demo_pool2 : pool :=
  Eval vm_compute in match membuf_alloc 20 0 demo_pool1 with Ok (_, p) => p | _ => region_pool end.
Definition demo_pool : pool := with_mem (fun m => store32 m (0x1010 + Nb.network_membuf) 0x1058) demo_pool2.

Lemma demo_pool1_run : netbuf_alloc region_pool = Ok (0x1010, demo_pool1).
Proof. by vm_compute. Qed.
Lemma demo_pool2_run : membuf_alloc 20 0 demo_pool1 = Ok (0x1058, demo_pool2).
Proof. by vm_compute. Qed.

Lemma demo_pool_tracks :
  exists bs, tracks demo_pool bs {[0x1058 := (1, 0); 0x1010 := (1, NETBUF_FREE)]} /\ buffer_of bs 0x1010 Nb.sizeof.
Proof.
  destruct (netbuf_alloc_spec region_pool [] ∅ region_pool_tracks)
    as [He|(c & p1 & bs1 & He & _ & Hb1 & Ht1 & _)]; rewrite demo_pool1_run in He; [done|].
  injection He as <- <-.
  destruct (tracks_alloc _ _ _ 20 0 Ht1) as [He|(m & p2 & bs2 & He & _ & _ & Ht2 & Hk2)];
    [lia|lia|rewrite demo_pool2_run in He; done|].
  rewrite demo_pool2_run in He. injection He as <- <-. exists bs2.
  destruct (proj2 Hk2 0x1010 Nb.sizeof) as [Hb2 _]; [by eexists|done|]. split; [|done].
  apply (tracks_write demo_pool2 _ _ 0x1010 Nb.sizeof); [done|by eexists|done|..].
  intros x Hx. apply load8_store32_ne. unfold Nb.network_membuf, Nb.sizeof in *. lia.
Qed.

Lemma netbuf_clone_deref_roundtrip_witness :
  exists bs, netbuf_clone 0x1010 demo_pool = Stop "heap_alloc: NULL pointer"
  \/ exists c p1 bs1, netbuf_clone 0x1010 demo_pool = Ok (c, p1)
     /\ ({[0x1058 := (1, 0); 0x1010 := (1, NETBUF_FREE)]} : counts) !! c = None
     /\ tracks p1 bs1 (<[c := (1, NETBUF_FREE)]> (bumps 1 (layers_of (p_mem demo_pool) 0x1010)
          {[0x1058 := (1, 0); 0x1010 := (1, NETBUF_FREE)]}))
     /\ keeps {[0x1058 := (1, 0); 0x1010 := (1, NETBUF_FREE)]} bs bs1 demo_pool p1
     /\ (forall o, 0 <= o -> o + 4 <= Nb.next \/ o = Nb.hint_membuf -> load32 (p_mem p1) (c + o) = load32 (p_mem demo_pool) (0x1010 + o))
     /\ load32 (p_mem p1) (c + Nb.next) = 0
     /\ exists p2 bs2, netbuf_deref c p1 = Ok (0, p2)
          /\ tracks p2 bs2 {[0x1058 := (1, 0); 0x1010 := (1, NETBUF_FREE)]}
          /\ keeps {[0x1058 := (1, 0); 0x1010 := (1, NETBUF_FREE)]} bs bs2 demo_pool p2.
Proof.
  destruct demo_pool_tracks as (bs & Ht & Hb). exists bs.
  apply (netbuf_clone_deref_roundtrip demo_pool bs {[0x1058 := (1, 0); 0x1010 := (1, NETBUF_FREE)]} 0x1010 1); auto.
  intros m Hm H0. replace (layers_of (p_mem demo_pool) 0x1010) with [0; 0x1058; 0; 0; 0] in Hm by (by vm_compute).
  set_unfold in Hm. destruct_or? Hm; subst; [done| |done..]. exists 1. by vm_compute.
Defined.
