(* ===== verification/Ip.v ===== *)
(** * The Internet Protocol and ICMP (src/lib/ip/ip.c, include/ip.h)

    [ip_recv_netbuf] checks a received packet, splits off its header and passes it
    to the client for its protocol, to ICMP, or answers with an ICMP error;
    [ip_issue_netbuf] builds the header of an outgoing packet.  Packets, netbufs
    and reference counts are in memory, byte by byte; the fields of an IP instance
    and of its clients are records, each with the address of its membuf.

    The functions an instance calls through pointers (the send function of the
    datalink server, the receive functions of the clients) are parameters. *)

From stdpp Require Import base list gmap fin_maps strings.
From Stdlib Require Import ZArith Lia.
From S2P Require Import Prelude Heap Membuf NetbufMem Ipcsum.
Open Scope Z_scope.

(** ** 16-bit accesses and byte order (include/i386/types.h) *)

Definition load16 (m : mem) (a : Z) : Z := load8 m a + 2 ^ 8 * load8 m (a + 1).
Definition store16 (m : mem) (a v : Z) : mem := store8 (store8 m a v) (a + 1) (v / 2 ^ 8).

Definition rd16 (a : Z) : P Z := gets (fun p => load16 (p_mem p) a).
Definition wr16 (a v : Z) : P unit := modify (with_mem (fun m => store16 m a v)).

(** [xchgb %b0, %h0]: swap the two low bytes. *)
Definition xchgb (v : Z) : Z := v / 2 ^ 16 * 2 ^ 16 + v mod 2 ^ 8 * 2 ^ 8 + v / 2 ^ 8 mod 2 ^ 8.
Definition rorl16 (v : Z) : Z := v / 2 ^ 16 + v mod 2 ^ 16 * 2 ^ 16.

Definition hton16 (hval : Z) : Z := xchgb hval.
Definition hton32 (hval : Z) : Z := xchgb (rorl16 (xchgb hval)).

(** The bytes at [a], as [ipcsum] reads them. *)
Definition bytes_from (m : mem) (a : Z) : buffer := fun i => load8 m (a + i).

(** [ipcsum] and [ipcsum_partial] of [count] bytes at [a]; the parameter is a
    [u16_t]. *)
Definition csum_partial (csum a count : Z) : P Z :=
  gets (fun p => ipcsum_partial csum (bytes_from (p_mem p) a) (u16 count)).
Definition csum (c a count : Z) : P Z := gets (fun p => ipcsum c (bytes_from (p_mem p) a) (u16 count)).

(** Offsets in [struct ip_header]; the first byte has [ih_header_len] in its low
    half and [ih_version] in its high half, the word at 6 has [ih_flags] in its low
    three bits. *)
Module Ih.
Definition type_of_service : Z := 1.
Definition total_len : Z := 2.
Definition ident : Z := 4.
Definition flags : Z := 6.
Definition time_to_live : Z := 8.
Definition protocol : Z := 9.
Definition header_csum : Z := 10.
Definition src_addr : Z := 12.
Definition dest_addr : Z := 16.
Definition sizeof : Z := 20.
End Ih.

(** Offsets in [struct icmp_header]. *)
Module Ich.
Definition type : Z := 0.
Definition code : Z := 1.
Definition csum : Z := 2.
Definition sizeof : Z := 4.
End Ich.

(** ** Instances and clients *)

Record ip_client := Ip_client_ {
  ic_self : Z;            (* the address of the structure *)
  ic_protocol : Z;
  ic_server : Z;
  ic_recv_icmp_set : bool (* [ic_recv_icmp] is not [NULL] *) }.
#[export] Instance eta_ip_client : Eta ip_client := fun c =>
  Ip_client_ (ic_self c) (ic_protocol c) (ic_server c) (ic_recv_icmp_set c).

Record icmp_client := Icmp_client_ {
  icc_self : Z;
  icc_type : Z;
  icc_server : Z }.
#[export] Instance eta_icmp_client : Eta icmp_client := fun c =>
  Icmp_client_ (icc_self c) (icc_type c) (icc_server c).

(** The lists are linked through [ic_next]; here they are the sequences. *)
Record ip_instance := Ip_instance_ {
  ii_self : Z;
  ii_lock : bool;
  ii_addr : Z;
  ii_pkt_ident : Z;
  ii_server : Z;
  ii_client_list : list ip_client;
  ii_icmp_client_list : list icmp_client }.
#[export] Instance eta_ip_instance : Eta ip_instance := fun i =>
  Ip_instance_ (ii_self i) (ii_lock i) (ii_addr i) (ii_pkt_ident i) (ii_server i) (ii_client_list i)
    (ii_icmp_client_list i).

(** The state: memory, the instance, and what belongs to the parts of the system
    the instance calls. *)
Record world (X : Type) := World_ {
  w_pool : pool;
  w_ip : ip_instance;
  w_more : X }.
Arguments World_ {X} _ _ _.
Arguments w_pool {X} _.
Arguments w_ip {X} _.
Arguments w_more {X} _.
#[export] Instance eta_world X : Eta (world X) := fun w => World_ (w_pool w) (w_ip w) (w_more w).

Abbreviation W X := (ST (world X)).

Definition mem_ {X A} (m : P A) : W X A := fun w =>
  match m (w_pool w) with
  | Ok (a, p) => Ok (a, World_ p (w_ip w) (w_more w))
  | Stop e => Stop e
  | Fuel => Fuel
  end.

Definition get_ii {X A} (f : ip_instance -> A) : W X A := gets (fun w => f (w_ip w)).
Definition mod_ii {X} (f : ip_instance -> ip_instance) : W X unit :=
  modify (fun w => World_ (w_pool w) (f (w_ip w)) (w_more w)).

Definition lock_ii {X} : W X unit := l ← get_ii ii_lock; l ← of_res (spin_lock l); mod_ii (fun i => i <| ii_lock := l |>).
Definition unlock_ii {X} : W X unit := l ← get_ii ii_lock; l ← of_res (spin_unlock l); mod_ii (fun i => i <| ii_lock := l |>).

(** [membuf_deref] on any membuf: a netbuf's clean-up is one level deep. *)
Definition deref_ {X} (buf : Z) : W X unit := _ ← mem_ (buf_deref 2 buf); mret tt.

Definition ip_client_ref {X} (ic : ip_client) : W X unit := mem_ (membuf_ref (ic_self ic)).
Definition ip_client_deref {X} (ic : ip_client) : W X unit := deref_ (ic_self ic).
Definition ip_instance_ref {X} : W X unit := self ← get_ii ii_self; mem_ (membuf_ref self).
Definition ip_instance_deref {X} : W X unit := self ← get_ii ii_self; deref_ self.

(** [while (ic && (ic->ic_protocol != protocol)) ic = ic->ic_next;] *)
Fixpoint find_client (protocol : Z) (l : list ip_client) : option ip_client :=
  match l with
  | [] => None
  | ic :: l => if negb (ic_protocol ic =? protocol) then find_client protocol l else Some ic
  end.

Fixpoint find_icmp_client (type : Z) (l : list icmp_client) : option icmp_client :=
  match l with
  | [] => None
  | ic :: l => if negb (icc_type ic =? type) then find_icmp_client type l else Some ic
  end.

Section calls.
Context {X : Type}.
Context (ids_send : Z -> Z -> W X unit)            (* server, netbuf *)
        (ic_recv : ip_client -> Z -> W X unit)
        (ic_recv_icmp : ip_client -> Z -> W X unit)
        (icmp_recv : icmp_client -> Z -> W X unit).

(** ** Sending *)

(** The assignments to the header fields, in their order. *)
Definition ip_header_fields (iph src_addr dest_addr protocol ident total_len : Z) : P unit :=
  b ← rd8 iph; wr8 iph (b mod 2 ^ 4 + 4 * 2 ^ 4);;
  b ← rd8 iph; wr8 iph (b / 2 ^ 4 * 2 ^ 4 + Ih.sizeof / 4);;
  wr32 (iph + Ih.src_addr) (hton32 src_addr);;
  wr32 (iph + Ih.dest_addr) dest_addr;;
  wr8 (iph + Ih.protocol) protocol;;
  wr8 (iph + Ih.time_to_live) 0x40;;
  wr8 (iph + Ih.type_of_service) 0x00;;
  wr16 (iph + Ih.ident) (hton16 ident);;
  h ← rd16 (iph + Ih.flags); wr16 (iph + Ih.flags) (h / 2 ^ 3 * 2 ^ 3);;
  h ← rd16 (iph + Ih.flags); wr16 (iph + Ih.flags) (h mod 2 ^ 3);;
  wr16 (iph + Ih.total_len) (hton16 total_len);;
  wr16 (iph + Ih.header_csum) 0x0000.

Definition ip_issue_netbuf (dest_addr protocol nb : Z) : W X unit :=
  m ← mem_ (membuf_alloc Ih.sizeof 0);
  mem_ (wr32 (nb + Nb.network_membuf) m);;
  iph ← mem_ (rd32 (nb + Nb.network_membuf));
  mem_ (wr32 (nb + Nb.network) iph);;
  mem_ (wr32 (nb + Nb.network_size) Ih.sizeof);;
  iph ← mem_ (rd32 (nb + Nb.network));
  addr ← get_ii ii_addr;
  ident ← get_ii ii_pkt_ident;
  mod_ii (fun i => i <| ii_pkt_ident := u16 (ident + 1) |>);;
  nsz ← mem_ (rd32 (nb + Nb.network_size));
  tsz ← mem_ (rd32 (nb + Nb.transport_size));
  asz ← mem_ (rd32 (nb + Nb.application_size));
  mem_ (ip_header_fields iph addr dest_addr protocol ident (u16 (nsz + tsz + asz)));;
  lock_ii;;
  ids ← get_ii ii_server;
  mem_ (membuf_ref ids);;
  unlock_ii;;
  b ← mem_ (rd8 iph);
  c ← mem_ (csum 0 iph (b mod 2 ^ 4 * 4));
  mem_ (wr16 (iph + Ih.header_csum) c);;
  ids_send ids nb;;
  deref_ ids.

(** [extra] reads the four bytes the [u8_t *extra] of the source points to. *)
Definition icmp_issue_netbuf (dest_addr type code : Z) (extra : P Z) (nb : Z) : W X unit :=
  m ← mem_ (membuf_alloc 8 0);
  mem_ (wr32 (nb + Nb.transport_membuf) m);;
  t ← mem_ (rd32 (nb + Nb.transport_membuf));
  mem_ (wr32 (nb + Nb.transport) t);;
  mem_ (wr32 (nb + Nb.transport_size) 8);;
  ich ← mem_ (rd32 (nb + Nb.transport));
  mem_ (wr8 (ich + Ich.type) type);;
  mem_ (wr8 (ich + Ich.code) code);;
  mem_ (wr16 (ich + Ich.csum) 0x0000);;
  e ← mem_ extra;
  mem_ (wr32 (ich + Ich.sizeof) e);;
  tsz ← mem_ (rd32 (nb + Nb.transport_size));
  c ← mem_ (csum_partial 0 ich tsz);
  a ← mem_ (rd32 (nb + Nb.application));
  asz ← mem_ (rd32 (nb + Nb.application_size));
  c ← mem_ (csum c a asz);
  mem_ (wr16 (ich + Ich.csum) c);;
  ip_issue_netbuf dest_addr 0x01 nb.

Definition icmp_send_netbuf := icmp_issue_netbuf.
Definition ip_send_netbuf := ip_issue_netbuf.

(** ** Receiving *)

Definition icmp_recv_netbuf_echo_request (nb : Z) : W X unit :=
  iph ← mem_ (rd32 (nb + Nb.network));
  ich ← mem_ (rd32 (nb + Nb.transport));
  nbrep ← mem_ netbuf_alloc;
  asz ← mem_ (rd32 (nb + Nb.application_size));
  m ← mem_ (membuf_alloc asz 0);
  mem_ (wr32 (nbrep + Nb.application_membuf) m);;
  a ← mem_ (rd32 (nbrep + Nb.application_membuf));
  mem_ (wr32 (nbrep + Nb.application) a);;
  mem_ (wr32 (nbrep + Nb.application_size) asz);;
  dest ← mem_ (rd32 (nbrep + Nb.application));
  src ← mem_ (rd32 (nb + Nb.application));
  mem_ (memcpy dest src asz);;
  src_addr ← mem_ (rd32 (iph + Ih.src_addr));
  icmp_issue_netbuf src_addr 0x00 0x00 (rd32 (ich + Ich.sizeof)) nbrep;;
  deref_ nbrep.

Definition icmp_recv_netbuf_notify_transport (nb : Z) : W X unit :=
  iph ← mem_ (rd32 (nb + Nb.application));
  lock_ii;;
  l ← get_ii ii_client_list;
  protocol ← mem_ (rd8 (iph + Ih.protocol));
  match find_client protocol l with
  | Some ic =>
    if ic_recv_icmp_set ic then
      ip_client_ref ic;;
      unlock_ii;;
      ic_recv_icmp ic nb;;
      ip_client_deref ic
    else unlock_ii
  | None => unlock_ii
  end.

Definition icmp_recv_netbuf_default (nb : Z) : W X unit :=
  ich ← mem_ (rd32 (nb + Nb.transport));
  lock_ii;;
  l ← get_ii ii_icmp_client_list;
  type ← mem_ (rd8 (ich + Ich.type));
  match find_icmp_client type l with
  | Some ic =>
    mem_ (membuf_ref (icc_self ic));;
    unlock_ii;;
    icmp_recv ic nb;;
    deref_ (icc_self ic)
  | None => unlock_ii
  end.

Definition icmp_recv_netbuf (nb : Z) : W X unit :=
  ich ← mem_ (rd32 (nb + Nb.transport));
  cs ← mem_ (rd16 (ich + Ich.csum));
  tsz ← mem_ (rd32 (nb + Nb.transport_size));
  sum ← mem_ (csum 0 ich tsz);
  if negb (cs =? 0) && negb (sum =? 0) then mret tt
  else
    mem_ (wr32 (nb + Nb.application) (ich + 8));;
    mem_ (wr32 (nb + Nb.application_size) (u32 (tsz - 8)));;
    mem_ (wr32 (nb + Nb.transport_size) 8);;
    type ← mem_ (rd8 (ich + Ich.type));
    if (type =? 0x03) || (type =? 0x04) || (type =? 0x0b) || (type =? 0x0c) then
      icmp_recv_netbuf_notify_transport nb
    else if type =? 0x08 then icmp_recv_netbuf_echo_request nb
    else icmp_recv_netbuf_default nb.

(** The ICMP "protocol unreachable" answer of [ip_recv_netbuf]. *)
Definition ip_unreachable (nb : Z) : W X unit :=
  iph ← mem_ (rd32 (nb + Nb.network));
  nbrep ← mem_ netbuf_alloc;
  nsz ← mem_ (rd32 (nb + Nb.network_size));
  m ← mem_ (membuf_alloc (u32 (nsz + 8)) 0);
  mem_ (wr32 (nbrep + Nb.application_membuf) m);;
  a ← mem_ (rd32 (nbrep + Nb.application_membuf));
  mem_ (wr32 (nbrep + Nb.application) a);;
  mem_ (wr32 (nbrep + Nb.application_size) (u32 (nsz + 8)));;
  iphc ← mem_ (rd32 (nbrep + Nb.application));
  mem_ (memcpy iphc iph nsz);;
  t ← mem_ (rd32 (nb + Nb.transport));
  mem_ (memcpy (iphc + Ih.sizeof) t 8);;
  src_addr ← mem_ (rd32 (iph + Ih.src_addr));
  icmp_issue_netbuf src_addr 0x03 0x02 (mret 0) nbrep;;
  deref_ nbrep.

Definition ip_recv_netbuf (nb : Z) : W X unit :=
  iph ← mem_ (rd32 (nb + Nb.network));
  b ← mem_ (rd8 iph);
  let version := b / 2 ^ 4 in
  let header_len := b mod 2 ^ 4 in
  if negb (version =? 4) then mret tt
  else
    cs ← mem_ (rd16 (iph + Ih.header_csum));
    sum ← mem_ (csum 0 iph (header_len * 4));
    if negb (cs =? 0) && negb (sum =? 0) then mret tt
    else
      dest ← mem_ (rd32 (iph + Ih.dest_addr));
      addr ← get_ii ii_addr;
      if negb (hton32 dest =? addr) then mret tt
      else
        mem_ (wr32 (nb + Nb.network_size) (4 * header_len));;
        mem_ (wr32 (nb + Nb.transport) (iph + 4 * header_len));;
        total_len ← mem_ (rd16 (iph + Ih.total_len));
        mem_ (wr32 (nb + Nb.transport_size) (u32 (hton16 total_len - 4 * header_len)));;
        protocol ← mem_ (rd8 (iph + Ih.protocol));
        if protocol =? 0x01 then icmp_recv_netbuf nb
        else
          lock_ii;;
          l ← get_ii ii_client_list;
          match find_client protocol l with
          | Some ic =>
            ip_client_ref ic;;
            unlock_ii;;
            ic_recv ic nb;;
            ip_client_deref ic
          | None =>
            unlock_ii;;
            ip_unreachable nb
          end.
End calls.

(** ** Clients *)

Definition sizeof_ip_server : Z := 12.
Definition sizeof_icmp_server : Z := 8.
Definition sizeof_ip_client : Z := 24.
Definition sizeof_icmp_client : Z := 16.
Definition sizeof_ip_instance : Z := 48.

Definition ip_server_alloc {X} : W X Z := mem_ (membuf_alloc sizeof_ip_server 0).
Definition icmp_server_alloc {X} : W X Z := mem_ (membuf_alloc sizeof_icmp_server 0).

(** The protocol and the callbacks are filled in by the caller. *)
Definition ip_client_alloc {X} (protocol : Z) (icmp : bool) : W X ip_client :=
  ic ← mem_ (membuf_alloc sizeof_ip_client 0);
  mret (Ip_client_ ic protocol 0 icmp).

Definition icmp_client_alloc {X} (type : Z) : W X icmp_client :=
  ic ← mem_ (membuf_alloc sizeof_icmp_client 0);
  mret (Icmp_client_ ic type 0).

(** The result is the server structure, 0 for [NULL]. *)
Definition ip_client_attach {X} (ic : ip_client) : W X Z :=
  lock_ii;;
  l ← get_ii ii_client_list;
  match find_client (ic_protocol ic) l with
  | Some _ => unlock_ii;; mret 0
  | None =>
    srv ← ip_server_alloc;
    ip_instance_ref;;
    mod_ii (fun i => i <| ii_client_list := (ic <| ic_server := srv |>) :: ii_client_list i |>);;
    ip_client_ref ic;;
    unlock_ii;;
    mret srv
  end.

Definition icmp_client_attach {X} (ic : icmp_client) : W X Z :=
  if negb (icc_type ic =? 0x00) && negb (icc_type ic =? 0x0d) && negb (icc_type ic =? 0x11) then mret 0
  else
    lock_ii;;
    l ← get_ii ii_icmp_client_list;
    match find_icmp_client (icc_type ic) l with
    | Some _ => unlock_ii;; mret 0
    | None =>
      srv ← icmp_server_alloc;
      ip_instance_ref;;
      mod_ii (fun i => i <| ii_icmp_client_list := (ic <| icc_server := srv |>) :: ii_icmp_client_list i |>);;
      mem_ (membuf_ref (icc_self ic));;
      unlock_ii;;
      mret srv
    end.

(** The walk to the client of server [srv], and the list without it. *)
Fixpoint unlink_client (srv : Z) (l : list ip_client) : option (ip_client * list ip_client) :=
  match l with
  | [] => None
  | ic :: l =>
    if ic_server ic =? srv then Some (ic, l)
    else '(c, l) ← unlink_client srv l; Some (c, ic :: l)
  end.

Fixpoint unlink_icmp_client (srv : Z) (l : list icmp_client) : option (icmp_client * list icmp_client) :=
  match l with
  | [] => None
  | ic :: l =>
    if icc_server ic =? srv then Some (ic, l)
    else '(c, l) ← unlink_icmp_client srv l; Some (c, ic :: l)
  end.

Definition ip_client_detach {X} (srv : Z) : W X unit :=
  lock_ii;;
  l ← get_ii ii_client_list;
  match unlink_client srv l with
  | Some (ic, l) =>
    mod_ii (fun i => i <| ii_client_list := l |>);;
    deref_ srv;;
    ip_instance_deref;;
    ip_client_deref ic
  | None => mret tt
  end;;
  unlock_ii.

Definition icmp_client_detach {X} (srv : Z) : W X unit :=
  lock_ii;;
  l ← get_ii ii_icmp_client_list;
  match unlink_icmp_client srv l with
  | Some (ic, l) =>
    mod_ii (fun i => i <| ii_icmp_client_list := l |>);;
    deref_ srv;;
    ip_instance_deref;;
    deref_ (icc_self ic)
  | None => mret tt
  end;;
  unlock_ii.

(** [attach] is the [idi_client_attach] of the datalink instance for the new
    [struct ip_datalink_client], given by its address. *)
Definition sizeof_ip_datalink_client : Z := 16.

Definition ip_instance_alloc {X} (attach : Z -> W X Z) (addr : Z) : W X Z :=
  ii ← mem_ (membuf_alloc sizeof_ip_instance 0);
  mod_ii (fun _ => Ip_instance_ ii false addr 0 0 [] []);;
  idc ← mem_ (membuf_alloc sizeof_ip_datalink_client 0);
  ip_instance_ref;;
  ids ← attach idc;
  mod_ii (fun i => i <| ii_server := ids |>);;
  deref_ idc;;
  mret ii.

(** ** What is on the wire *)

Definition bytes_at (m : mem) (a n : Z) : list Z := (fun i => load8 m (a + i)) <$> seqZ 0 n.

(** The three layers a datalink sends. *)
Definition nb_view (m : mem) (nb : Z) : list Z * list Z * list Z :=
  (bytes_at m (load32 m (nb + Nb.network)) (load32 m (nb + Nb.network_size)),
   bytes_at m (load32 m (nb + Nb.transport)) (load32 m (nb + Nb.transport_size)),
   bytes_at m (load32 m (nb + Nb.application)) (load32 m (nb + Nb.application_size))).

Definition list_buf (l : list Z) : buffer := fun i => nth (Z.to_nat i) l 0.

Definition be16 (v : Z) : list Z := [v / 2 ^ 8; v mod 2 ^ 8].
Definition le16 (v : Z) : list Z := [v mod 2 ^ 8; v / 2 ^ 8].
Definition be32 (v : Z) : list Z := [v / 2 ^ 24; v / 2 ^ 16 mod 2 ^ 8; v / 2 ^ 8 mod 2 ^ 8; v mod 2 ^ 8].
Definition le32 (v : Z) : list Z := [v mod 2 ^ 8; v / 2 ^ 8 mod 2 ^ 8; v / 2 ^ 16 mod 2 ^ 8; v / 2 ^ 24].

(** A header without options (RFC 791) with checksum field [c]; [dest] is in
    network order, [src] in host order. *)
Definition ip_header_with (c src dest protocol ident len : Z) : list Z :=
  [0x45; 0] ++ be16 len ++ be16 ident ++ [0; 0; 0x40; protocol] ++ le16 c ++ be32 src ++ le32 dest.

Definition ip_header (src dest protocol ident len : Z) : list Z :=
  ip_header_with (ipcsum 0 (list_buf (ip_header_with 0 src dest protocol ident len)) Ih.sizeof)
    src dest protocol ident len.

(** ** Memory and header lemmas *)

Lemma load8_range m a : 0 <= load8 m a < 2 ^ 8.
Proof. apply u8_range. Qed.

Lemma load8_store16_ne m a v b : b < a \/ a + 2 <= b -> load8 (store16 m a v) b = load8 m b.
Proof. intros H. unfold store16. by rewrite !load8_store8_ne by lia. Qed.

Lemma load16_range m a : 0 <= load16 m a < 2 ^ 16.
Proof. unfold load16. pose proof (load8_range m a). pose proof (load8_range m (a + 1)). lia. Qed.

Lemma hton16_bytes v : 0 <= v < 2 ^ 16 -> u8 (hton16 v) = v / 2 ^ 8 /\ u8 (hton16 v / 2 ^ 8) = v mod 2 ^ 8.
Proof. intros H. unfold hton16, xchgb, u8. Z.div_mod_to_equations. lia. Qed.

Lemma xchgb_join h x y : 0 <= x < 2 ^ 8 -> 0 <= y < 2 ^ 8 ->
  xchgb (h * 2 ^ 16 + x * 2 ^ 8 + y) = h * 2 ^ 16 + y * 2 ^ 8 + x.
Proof.
  intros Hx Hy. unfold xchgb.
  replace ((h * 2 ^ 16 + x * 2 ^ 8 + y) / 2 ^ 16) with h by (apply (Z.div_unique _ _ _ (x * 2 ^ 8 + y)); lia).
  replace ((h * 2 ^ 16 + x * 2 ^ 8 + y) mod 2 ^ 8) with y by (apply (Z.mod_unique _ _ (h * 2 ^ 8 + x)); lia).
  replace ((h * 2 ^ 16 + x * 2 ^ 8 + y) / 2 ^ 8) with (h * 2 ^ 8 + x) by (apply (Z.div_unique _ _ _ y); lia).
  replace ((h * 2 ^ 8 + x) mod 2 ^ 8) with x by (apply (Z.mod_unique _ _ h); lia). done.
Qed.

Lemma rorl16_join h l : 0 <= l < 2 ^ 16 -> rorl16 (h * 2 ^ 16 + l) = l * 2 ^ 16 + h.
Proof.
  intros Hl. unfold rorl16.
  replace ((h * 2 ^ 16 + l) / 2 ^ 16) with h by (apply (Z.div_unique _ _ _ l); lia).
  replace ((h * 2 ^ 16 + l) mod 2 ^ 16) with l by (apply (Z.mod_unique _ _ h); lia). lia.
Qed.

(** [hton32] reverses the bytes. *)
Lemma hton32_join a b c d :
  0 <= a < 2 ^ 8 -> 0 <= b < 2 ^ 8 -> 0 <= c < 2 ^ 8 -> 0 <= d < 2 ^ 8 ->
  hton32 (a * 2 ^ 24 + b * 2 ^ 16 + c * 2 ^ 8 + d) = d * 2 ^ 24 + c * 2 ^ 16 + b * 2 ^ 8 + a.
Proof.
  intros Ha Hb Hc Hd. unfold hton32.
  replace (a * 2 ^ 24 + b * 2 ^ 16 + c * 2 ^ 8 + d) with ((a * 2 ^ 8 + b) * 2 ^ 16 + c * 2 ^ 8 + d) by lia.
  rewrite xchgb_join by done. rewrite <-Z.add_assoc, rorl16_join by lia.
  replace ((d * 2 ^ 8 + c) * 2 ^ 16 + (a * 2 ^ 8 + b)) with ((d * 2 ^ 8 + c) * 2 ^ 16 + a * 2 ^ 8 + b) by lia.
  rewrite xchgb_join by done. lia.
Qed.

Lemma word_split v : 0 <= v < 2 ^ 32 ->
  v = v / 2 ^ 24 * 2 ^ 24 + v / 2 ^ 16 mod 2 ^ 8 * 2 ^ 16 + v / 2 ^ 8 mod 2 ^ 8 * 2 ^ 8 + v mod 2 ^ 8
  /\ 0 <= v / 2 ^ 24 < 2 ^ 8.
Proof.
  intros H. split; [|split; [apply Z.div_pos; lia|apply Z.div_lt_upper_bound; lia]].
  assert (E : forall k, 0 <= k -> v / 2 ^ k mod 2 ^ 8 = v / 2 ^ k - 2 ^ 8 * (v / 2 ^ (k + 8))).
  { intros k Hk. rewrite Z.mod_eq, Z.div_div, <-Z.pow_add_r by lia. done. }
  rewrite (E 16), (E 8) by lia. change (16 + 8) with 24. change (8 + 8) with 16.
  rewrite (Z.div_mod v (2 ^ 8)) at 1 by lia. lia.
Qed.

Lemma hton32_involutive v : 0 <= v < 2 ^ 32 -> hton32 (hton32 v) = v.
Proof.
  intros H. destruct (word_split v H) as [E Ha]. rewrite E at 1.
  pose proof (Z.mod_pos_bound (v / 2 ^ 16) (2 ^ 8)). pose proof (Z.mod_pos_bound (v / 2 ^ 8) (2 ^ 8)).
  pose proof (Z.mod_pos_bound v (2 ^ 8)). rewrite !hton32_join by lia. by rewrite <-E.
Qed.

Lemma word_bytes a b c d :
  0 <= a < 2 ^ 8 -> 0 <= b < 2 ^ 8 -> 0 <= c < 2 ^ 8 -> 0 <= d < 2 ^ 8 ->
  let v := d * 2 ^ 24 + c * 2 ^ 16 + b * 2 ^ 8 + a in
  u8 v = a /\ u8 (v / 2 ^ 8) = b /\ u8 (v / 2 ^ 16) = c /\ u8 (v / 2 ^ 24) = d.
Proof.
  intros Ha Hb Hc Hd v. unfold u8.
  replace (v / 2 ^ 8) with (d * 2 ^ 16 + c * 2 ^ 8 + b) by (apply (Z.div_unique _ _ _ a); unfold v; lia).
  replace (v / 2 ^ 16) with (d * 2 ^ 8 + c) by (apply (Z.div_unique _ _ _ (b * 2 ^ 8 + a)); unfold v; lia).
  replace (v / 2 ^ 24) with d by (apply (Z.div_unique _ _ _ (c * 2 ^ 16 + b * 2 ^ 8 + a)); unfold v; lia).
  split_and!; symmetry; [apply (Z.mod_unique _ _ (d * 2 ^ 16 + c * 2 ^ 8 + b))|apply (Z.mod_unique _ _ (d * 2 ^ 8 + c))
    |apply (Z.mod_unique _ _ d)|apply (Z.mod_unique _ _ 0)]; unfold v; lia.
Qed.

(** The bytes a word write leaves. *)
Lemma bytes_store32 m a v : 
  load8 (store32 m a v) a = u8 v /\ load8 (store32 m a v) (a + 1) = u8 (v / 2 ^ 8)
  /\ load8 (store32 m a v) (a + 2) = u8 (v / 2 ^ 16) /\ load8 (store32 m a v) (a + 3) = u8 (v / 2 ^ 24).
Proof. unfold store32. split_and!; repeat (rewrite load8_store8 || rewrite load8_store8_ne by lia); done. Qed.

(** [ip_header_fields] as one write. *)
Definition header_mem (iph src_addr dest_addr protocol ident total_len : Z) (m : mem) : mem :=
  let m := store8 m iph (load8 m iph mod 2 ^ 4 + 4 * 2 ^ 4) in
  let m := store8 m iph (load8 m iph / 2 ^ 4 * 2 ^ 4 + Ih.sizeof / 4) in
  let m := store32 m (iph + Ih.src_addr) (hton32 src_addr) in
  let m := store32 m (iph + Ih.dest_addr) dest_addr in
  let m := store8 m (iph + Ih.protocol) protocol in
  let m := store8 m (iph + Ih.time_to_live) 0x40 in
  let m := store8 m (iph + Ih.type_of_service) 0x00 in
  let m := store16 m (iph + Ih.ident) (hton16 ident) in
  let m := store16 m (iph + Ih.flags) (load16 m (iph + Ih.flags) / 2 ^ 3 * 2 ^ 3) in
  let m := store16 m (iph + Ih.flags) (load16 m (iph + Ih.flags) mod 2 ^ 3) in
  let m := store16 m (iph + Ih.total_len) (hton16 total_len) in
  store16 m (iph + Ih.header_csum) 0x0000.

Lemma ip_header_fields_run iph src dest protocol ident len p :
  ip_header_fields iph src dest protocol ident len p
  = Ok (tt, with_mem (header_mem iph src dest protocol ident len) p).
Proof. reflexivity. Qed.

Lemma header_mem_other iph src dest protocol ident len m x :
  ~ iph <= x < iph + Ih.sizeof -> load8 (header_mem iph src dest protocol ident len m) x = load8 m x.
Proof.
  intros H. unfold header_mem, Ih.sizeof in *. cbv zeta.
  rewrite !load8_store16_ne by (unfold Ih.total_len, Ih.ident, Ih.flags, Ih.header_csum; lia).
  rewrite !load8_store8_ne by (unfold Ih.type_of_service, Ih.time_to_live, Ih.protocol; lia).
  rewrite !load8_store32_ne by (unfold Ih.src_addr, Ih.dest_addr; lia).
  by rewrite !load8_store8_ne by lia.
Qed.

Lemma load8_store8_at m a b v : b = a -> load8 (store8 m a v) b = u8 v.
Proof. intros ->. apply load8_store8. Qed.

Lemma load16_store16 m a v : 0 <= v < 2 ^ 16 -> load16 (store16 m a v) a = v.
Proof.
  intros Hv. unfold load16, store16. rewrite load8_store8_ne, !load8_store8 by lia.
  unfold u8. Z.div_mod_to_equations. lia.
Qed.

(** Clearing the low three bits and then all others leaves zero. *)
Lemma flags_cleared w : 0 <= w < 2 ^ 16 -> 0 <= w / 2 ^ 3 * 2 ^ 3 < 2 ^ 16 /\ (w / 2 ^ 3 * 2 ^ 3) mod 2 ^ 3 = 0.
Proof. intros H. Z.div_mod_to_equations. lia. Qed.

(** Look a byte up through writes. *)
Ltac mem_at :=
  repeat first
    [ rewrite load8_store8_at by lia | rewrite load8_store8_ne by lia | rewrite load8_store16_ne by lia
    | rewrite load8_store32_ne by lia ].

Lemma header_mem_bytes iph src dest protocol ident len m :
  0 <= src < 2 ^ 32 -> 0 <= dest < 2 ^ 32 -> 0 <= protocol < 2 ^ 8 -> 0 <= ident < 2 ^ 16 -> 0 <= len < 2 ^ 16 ->
  bytes_at (header_mem iph src dest protocol ident len m) iph Ih.sizeof
  = ip_header_with 0 src dest protocol ident len.
Proof.
  intros Hs Hd Hp Hi Hl.
  destruct (hton16_bytes ident Hi) as [I1 I2]. destruct (hton16_bytes len Hl) as [L1 L2].
  destruct (word_split src Hs) as [Es Hs1]. destruct (word_split dest Hd) as [Ed Hd1].
  pose proof (fun x => Z.mod_pos_bound x (2 ^ 8) eq_refl) as Hb.
  assert (Eh : hton32 src = src mod 2 ^ 8 * 2 ^ 24 + src / 2 ^ 8 mod 2 ^ 8 * 2 ^ 16 + src / 2 ^ 16 mod 2 ^ 8 * 2 ^ 8 + src / 2 ^ 24)
    by (rewrite Es at 1; by rewrite hton32_join by auto).
  destruct (word_bytes (src / 2 ^ 24) (src / 2 ^ 16 mod 2 ^ 8) (src / 2 ^ 8 mod 2 ^ 8) (src mod 2 ^ 8)) as (S0 & S1 & S2 & S3); [auto..|].
  rewrite <-Eh in S0, S1, S2, S3.
  destruct (word_bytes (dest mod 2 ^ 8) (dest / 2 ^ 8 mod 2 ^ 8) (dest / 2 ^ 16 mod 2 ^ 8) (dest / 2 ^ 24)) as (D0 & D1 & D2 & D3); [auto..|].
  rewrite <-Ed in D0, D1, D2, D3.
  unfold header_mem, Ih.total_len, Ih.header_csum, Ih.flags, Ih.ident, Ih.type_of_service, Ih.time_to_live,
    Ih.protocol, Ih.src_addr, Ih.dest_addr. cbv zeta. rewrite load8_store8.
  set (M0 := store16 _ (iph + 4) _). destruct (flags_cleared (load16 M0 (iph + 6)) (load16_range _ _)) as [Hf1 Hf2].
  rewrite load16_store16, Hf2 by done. set (w := load16 M0 (iph + 6) / 2 ^ 3 * 2 ^ 3) in *. clearbody w. subst M0.
  assert (E0 : u8 (u8 (load8 m iph mod 2 ^ 4 + 4 * 2 ^ 4) / 2 ^ 4 * 2 ^ 4 + Ih.sizeof / 4) = 0x45)
    by (unfold u8, Ih.sizeof; Z.div_mod_to_equations; lia).
  set (b0 := u8 (load8 m iph mod 2 ^ 4 + 4 * 2 ^ 4) / 2 ^ 4 * 2 ^ 4 + Ih.sizeof / 4) in *. clearbody b0.
  unfold bytes_at. change (seqZ 0 Ih.sizeof) with [0; 1; 2; 3; 4; 5; 6; 7; 8; 9; 10; 11; 12; 13; 14; 15; 16; 17; 18; 19].
  unfold ip_header_with, be16, le16, be32, le32. cbn [fmap list_fmap app].
  repeat apply f_equal2; try reflexivity; unfold store16, store32; mem_at; try done; unfold u8; try lia.
  by rewrite Z.mod_small.
Qed.

(** ** Running the steps *)

Section steps.
Context {X : Type} (p : pool) (i : ip_instance) (rest : X).

Lemma w_gets {A B} (g : pool -> A) (f : A -> W X B) :
  (mem_ (gets g) ≫= f) (World_ p i rest) = f (g p) (World_ p i rest).
Proof. reflexivity. Qed.

Lemma w_rd8 {B} a (f : Z -> W X B) : (mem_ (rd8 a) ≫= f) (World_ p i rest) = f (load8 (p_mem p) a) (World_ p i rest).
Proof. reflexivity. Qed.

Lemma w_rd16 {B} a (f : Z -> W X B) : (mem_ (rd16 a) ≫= f) (World_ p i rest) = f (load16 (p_mem p) a) (World_ p i rest).
Proof. reflexivity. Qed.

Lemma w_rd32 {B} a (f : Z -> W X B) : (mem_ (rd32 a) ≫= f) (World_ p i rest) = f (load32 (p_mem p) a) (World_ p i rest).
Proof. reflexivity. Qed.

Lemma w_wr8 {B} a v (f : unit -> W X B) :
  (mem_ (wr8 a v) ≫= f) (World_ p i rest) = f tt (World_ (with_mem (fun m => store8 m a v) p) i rest).
Proof. reflexivity. Qed.

Lemma w_wr16 {B} a v (f : unit -> W X B) :
  (mem_ (wr16 a v) ≫= f) (World_ p i rest) = f tt (World_ (with_mem (fun m => store16 m a v) p) i rest).
Proof. reflexivity. Qed.

Lemma w_wr32 {B} a v (f : unit -> W X B) :
  (mem_ (wr32 a v) ≫= f) (World_ p i rest) = f tt (World_ (with_mem (fun m => store32 m a v) p) i rest).
Proof. reflexivity. Qed.

Lemma w_csum {B} c a n (f : Z -> W X B) :
  (mem_ (csum c a n) ≫= f) (World_ p i rest) = f (ipcsum c (bytes_from (p_mem p) a) (u16 n)) (World_ p i rest).
Proof. reflexivity. Qed.

Lemma w_csum_partial {B} c a n (f : Z -> W X B) :
  (mem_ (csum_partial c a n) ≫= f) (World_ p i rest) = f (ipcsum_partial c (bytes_from (p_mem p) a) (u16 n)) (World_ p i rest).
Proof. reflexivity. Qed.

Lemma w_get {A B} (g : ip_instance -> A) (f : A -> W X B) : (get_ii g ≫= f) (World_ p i rest) = f (g i) (World_ p i rest).
Proof. reflexivity. Qed.

Lemma w_mod {B} g (f : unit -> W X B) : (mod_ii g ≫= f) (World_ p i rest) = f tt (World_ p (g i) rest).
Proof. reflexivity. Qed.

Lemma w_mem {A B} (m : P A) (f : A -> W X B) a p' :
  m p = Ok (a, p') -> (mem_ m ≫= f) (World_ p i rest) = f a (World_ p' i rest).
Proof. intros H. apply st_run. unfold mem_. cbn. by rewrite H. Qed.

Lemma w_mem_stop {A B} (m : P A) (f : A -> W X B) e :
  m p = Stop e -> (mem_ m ≫= f) (World_ p i rest) = Stop e.
Proof. intros H. apply st_stop. unfold mem_. cbn. by rewrite H. Qed.

Lemma w_lock {B} (f : unit -> W X B) :
  ii_lock i = false -> (lock_ii ≫= f) (World_ p i rest) = f tt (World_ p (i <| ii_lock := true |>) rest).
Proof. intros H. apply st_run. unfold lock_ii. rewrite w_get, H. reflexivity. Qed.
End steps.

(** Leaving the critical section. *)
Lemma w_unlock {X B} p i (rest : X) (f : unit -> W X B) :
  ii_lock i = false -> (unlock_ii ≫= f) (World_ p (i <| ii_lock := true |>) rest) = f tt (World_ p i rest).
Proof.
  intros H. apply st_run. unfold unlock_ii. rewrite w_get. destruct i; cbn in *. by rewrite H.
Qed.

(** ** Data in live buffers *)

Definition data_in (A : counts) (bs : list hole) (a n : Z) : Prop :=
  n = 0 \/ (0 < n /\ exists b k, is_Some (A !! b) /\ buffer_of bs b k /\ b <= a /\ a + n <= b + k).

Lemma keeps_data A bs bs' p p' a n :
  keeps A bs bs' p p' -> data_in A bs a n ->
  bytes_at (p_mem p') a n = bytes_at (p_mem p) a n /\ data_in A bs' a n.
Proof.
  intros [_ Hk] [->|(Hn & b & k & Hb & Hbuf & H1 & H2)]; [split; [done|by left]|].
  destruct (Hk b k Hb Hbuf) as [Hbuf' Hx]. split; [|right; split; [done|by exists b, k]].
  apply list_fmap_ext. intros j y Hj. apply list_elem_of_lookup_2, elem_of_seqZ in Hj. apply Hx. lia.
Qed.

Lemma bytes_at_length m a n : 0 <= n -> Z.of_nat (length (bytes_at m a n)) = n.
Proof. intros H. unfold bytes_at. rewrite length_fmap, length_seqZ. lia. Qed.

Lemma bytes_at_lookup m a n j : 0 <= j < n -> bytes_at m a n !! Z.to_nat j = Some (load8 m (a + j)).
Proof. intros H. unfold bytes_at. rewrite list_lookup_fmap, lookup_seqZ_lt by lia. cbn. do 3 f_equal. lia. Qed.

Lemma list_buf_at m a n j : 0 <= j < n -> list_buf (bytes_at m a n) j = load8 m (a + j).
Proof.
  intros H. unfold list_buf. apply nth_lookup_Some. by apply bytes_at_lookup.
Qed.

(** The checksum of the bytes at [a] is that of the list. *)
Lemma ipcsum_at c m a n : 0 <= n -> ipcsum c (bytes_from m a) n = ipcsum c (list_buf (bytes_at m a n)) n.
Proof. intros H. apply ipcsum_ext; [done|]. intros j Hj. by rewrite list_buf_at. Qed.

Lemma bytes_at_ext m m' a n : (forall y, a <= y < a + n -> load8 m' y = load8 m y) -> bytes_at m' a n = bytes_at m a n.
Proof.
  intros H. apply list_fmap_ext. intros j y Hj. apply list_elem_of_lookup_2, elem_of_seqZ in Hj. apply H. lia.
Qed.

(** Filling in the checksum field. *)
Lemma header_with_csum m iph c src dest protocol ident len :
  0 <= c < 2 ^ 16 -> bytes_at m iph Ih.sizeof = ip_header_with 0 src dest protocol ident len ->
  bytes_at (store16 m (iph + Ih.header_csum) c) iph Ih.sizeof = ip_header_with c src dest protocol ident len.
Proof.
  intros Hc H. unfold bytes_at in *.
  change (seqZ 0 Ih.sizeof) with [0; 1; 2; 3; 4; 5; 6; 7; 8; 9; 10; 11; 12; 13; 14; 15; 16; 17; 18; 19] in *.
  unfold ip_header_with, be16, le16, be32, le32, Ih.header_csum in *. cbn [fmap list_fmap app] in *.
  injection H as ? ? ? ? ? ? ? ? ? ? ? ? ? ? ? ? ? ? ? ?.
  repeat apply f_equal2; try reflexivity; unfold store16; mem_at; try done.
  unfold u8. rewrite Z.mod_small; [done|]. Z.div_mod_to_equations. lia.
Qed.

Lemma ipcsum_range p buf n : bytes_ok buf -> 0 <= p < 2 ^ 16 -> 0 <= n -> 0 <= ipcsum p buf n < 2 ^ 16.
Proof.
  intros Hb Hp Hn. rewrite ipcsum_ones by done. pose proof (byte_sum_nonneg buf n Hb).
  pose proof (ones_range (p + byte_sum buf n)). lia.
Qed.

Lemma bytes_from_ok m a : bytes_ok (bytes_from m a).
Proof. intros j. apply load8_range. Qed.

(** Side conditions on netbuf offsets. *)
Ltac nbo := unfold Nb.datalink_membuf, Nb.network_membuf, Nb.network, Nb.network_size, Nb.transport_membuf, Nb.transport,
  Nb.transport_size, Nb.application_membuf, Nb.application, Nb.application_size, Nb.next, Nb.hint_membuf, Nb.sizeof in *; lia.

(** ** [ip_issue_netbuf] *)

(** The three words of a netbuf for the layer whose fields start at [off]. *)
Definition set_layer (off nb v n : Z) (m : mem) : mem :=
  store32 (store32 (store32 m (nb + off) v) (nb + (off + 4)) v) (nb + (off + 8)) n.

Lemma set_layer_other off nb v n m y :
  ~ nb + off <= y < nb + off + 12 -> load8 (set_layer off nb v n m) y = load8 m y.
Proof. intros H. unfold set_layer. by rewrite !load8_store32_ne by lia. Qed.

Lemma set_layer_word off nb v n m o :
  o + 4 <= off \/ off + 12 <= o -> load32 (set_layer off nb v n m) (nb + o) = load32 m (nb + o).
Proof. intros H. apply load32_ext. intros y Hy. apply set_layer_other. lia. Qed.

Lemma set_layer_fields off nb v n m :
  0 <= v < 2 ^ 32 -> 0 <= n < 2 ^ 32 ->
  load32 (set_layer off nb v n m) (nb + off) = v
  /\ load32 (set_layer off nb v n m) (nb + (off + 4)) = v
  /\ load32 (set_layer off nb v n m) (nb + (off + 8)) = n.
Proof.
  intros Hi Hn. unfold set_layer. split_and!.
  - rewrite !load32_store32_ne by lia. by apply load32_store32.
  - rewrite load32_store32_ne by lia. by apply load32_store32.
  - by apply load32_store32.
Qed.

Lemma buffer_addr p bs A b n : tracks p bs A -> buffer_of bs b n -> 16 < b /\ b + n < 2 ^ 32.
Proof.
  intros Ht (s & Hin & ? & ?). destruct (tr_pool _ _ _ Ht) as [_ (ar & l & Hok)].
  pose proof (block_facts _ _ _ _ _ _ Hok Hin). lia.
Qed.

(** A new membuf of [n] bytes that is the layer at [off] of the netbuf. *)
Record layer_added (p : pool) (bs : list hole) (A : counts) (off n nb : Z) (h : Z) (p' : pool) (bs' : list hole) : Prop := {
  la_fresh : forall b, is_Some (A !! b) -> b <> h;
  la_buffer : buffer_of bs' h n;
  la_netbuf : buffer_of bs' nb Nb.sizeof;
  la_tracks : tracks p' bs' (<[h := (1, 0)]> A);
  la_keeps : keeps (delete nb A) bs bs' p p';
  la_fields : load32 (p_mem p') (nb + off) = h /\ load32 (p_mem p') (nb + (off + 4)) = h /\ load32 (p_mem p') (nb + (off + 8)) = n;
  la_words : forall o, 0 <= o -> o + 4 <= off \/ off + 12 <= o -> o + 4 <= Nb.sizeof ->
    load32 (p_mem p') (nb + o) = load32 (p_mem p) (nb + o) }.

(** The opening statements of [ip_issue_netbuf], [icmp_issue_netbuf] and
    [udp_send_netbuf]. *)
Definition add_layer {X B} (off n nb : Z) (k : Z -> W X B) : W X B :=
  m ← mem_ (membuf_alloc n 0);
  mem_ (wr32 (nb + off) m);;
  t ← mem_ (rd32 (nb + off));
  mem_ (wr32 (nb + (off + 4)) t);;
  mem_ (wr32 (nb + (off + 8)) n);;
  h ← mem_ (rd32 (nb + (off + 4)));
  k h.

(** Recognise them. *)
Ltac fold_layer off n :=
  match goal with
  | |- context [(mem_ (membuf_alloc n 0) ≫= ?f) ?w] =>
    let nb := lazymatch f with context [wr32 (?nb + off)] => nb end in
    let k := lazymatch f with context [mem_ (wr32 (nb + _) n) ≫= fun _ => mem_ (rd32 _) ≫= ?k] => k end in
    change ((mem_ (membuf_alloc n 0) ≫= f) w) with (add_layer off n nb k w)
  end.

Lemma add_layer_run {X} off n p i (rest : X) bs A nb :
  tracks p bs A -> is_Some (A !! nb) -> buffer_of bs nb Nb.sizeof -> 0 <= off -> off + 12 <= Nb.sizeof -> 0 <= n <= 0x7ff8 ->
  (forall B (k : Z -> W X B), add_layer off n nb k (World_ p i rest) = Stop "heap_alloc: NULL pointer")
  \/ exists h p' bs', (forall B (k : Z -> W X B), add_layer off n nb k (World_ p i rest) = k h (World_ p' i rest))
     /\ layer_added p bs A off n nb h p' bs'.
Proof.
  intros Ht Hnb Hb Hoff1 Hoff2 Hn. unfold add_layer.
  destruct (tracks_alloc p bs A n 0 Ht) as [He|(h & p1 & bs1 & He & Hfr & Hbi & Ht1 & Hk1)]; [done|by cbv|left|right].
  { intros B k. by apply w_mem_stop. }
  assert (Hfr' : forall b, is_Some (A !! b) -> b <> h) by (intros b [v Hv] ->; by rewrite Hv in Hfr).
  destruct (buffer_addr _ _ _ _ _ Ht1 Hbi) as [Hi1 Hi2]. destruct (proj2 Hk1 nb Nb.sizeof Hnb Hb) as [Hb1 _].
  assert (Hnb1 : is_Some (<[h := (1, 0)]> A !! nb)) by (rewrite lookup_insert_ne by (symmetry; by apply Hfr'); done).
  destruct (tracks_write p1 bs1 _ nb Nb.sizeof (set_layer off nb h n) Ht1 Hnb1 Hb1) as [Ht2 Hk2].
  { intros y Hy. apply set_layer_other. lia. }
  set (p2 := with_mem (set_layer off nb h n) p1) in *.
  destruct (set_layer_fields off nb h n (p_mem p1)) as (Hf1 & Hf2 & Hf3); [lia|lia|].
  exists h, p2, bs1. split; [|split; auto].
  - intros B k. rewrite (w_mem _ _ _ _ _ _ _ He). rewrite w_wr32, w_rd32, p_mem_with, load32_store32 by lia. rewrite w_wr32, w_wr32, w_rd32.
    change (with_mem _ (with_mem _ (with_mem _ p1))) with p2.
    change (p_mem p2) with (set_layer off nb h n (p_mem p1)). by rewrite Hf2.
  - eapply keeps_trans; [eapply keeps_sub; [|exact Hk1]|eapply keeps_sub; [|exact Hk2]];
      intros d [v [Hd1 Hd2]%lookup_delete_Some]; [eauto|].
    rewrite lookup_delete_ne by done. rewrite lookup_insert_ne by (symmetry; apply Hfr'; eauto). eauto.
  - intros o H0 H1 H2. unfold p2. rewrite p_mem_with, set_layer_word by lia. eapply keeps_field; eauto.
Qed.

(** What [ip_issue_netbuf] hands to the datalink: the memory it leaves. *)
Record ip_issued (p : pool) (bs : list hole) (A : counts) (i : ip_instance) (nb dest protocol : Z)
    (p' : pool) (bs' : list hole) (iph : Z) : Prop := {
  is_fresh : A !! iph = None;
  is_tracks : forall r f, A !! ii_server i = Some (r, f) ->
    tracks p' bs' (<[iph := (1, 0)]> (<[ii_server i := (r + 1, f)]> A));
  is_keeps : keeps (delete nb A) bs bs' p p';
  is_membuf : load32 (p_mem p') (nb + Nb.network_membuf) = iph;
  is_next : load32 (p_mem p') (nb + Nb.next) = load32 (p_mem p) (nb + Nb.next);
  is_view : nb_view (p_mem p') nb =
    let '(_, t, a) := nb_view (p_mem p) nb in
    (ip_header (ii_addr i) dest protocol (ii_pkt_ident i) (Ih.sizeof + Z.of_nat (length t) + Z.of_nat (length a)), t, a) }.

Section issue.
Context {X : Type} (ids_send : Z -> Z -> W X unit) (p : pool) (i : ip_instance) (rest : X) (bs : list hole) (A : counts)
  (nb dest protocol rn fn rs fs : Z).
Context (Ht : tracks p bs A) (Hlk : ii_lock i = false) (Hnb : A !! nb = Some (rn, fn)) (Hb : buffer_of bs nb Nb.sizeof)
  (Hs : A !! ii_server i = Some (rs, fs)) (Hrs : rs + 1 < 2 ^ 32)
  (Haddr : 0 <= ii_addr i < 2 ^ 32) (Hid : 0 <= ii_pkt_ident i < 2 ^ 16)
  (Hdest : 0 <= dest < 2 ^ 32) (Hproto : 0 <= protocol < 2 ^ 8).
Context (Htd : data_in (delete nb A) bs (load32 (p_mem p) (nb + Nb.transport)) (load32 (p_mem p) (nb + Nb.transport_size)))
  (Had : data_in (delete nb A) bs (load32 (p_mem p) (nb + Nb.application)) (load32 (p_mem p) (nb + Nb.application_size)))
  (Hlen : Ih.sizeof + load32 (p_mem p) (nb + Nb.transport_size) + load32 (p_mem p) (nb + Nb.application_size) < 2 ^ 16).

Lemma ip_issue_netbuf_run :
  ip_issue_netbuf ids_send dest protocol nb (World_ p i rest) = Stop "heap_alloc: NULL pointer"
  \/ exists p' bs' iph,
       ip_issue_netbuf ids_send dest protocol nb (World_ p i rest)
       = (ids_send (ii_server i) nb;; deref_ (ii_server i))
           (World_ p' (i <| ii_pkt_ident := u16 (ii_pkt_ident i + 1) |>) rest)
       /\ ip_issued p bs A i nb dest protocol p' bs' iph.
Proof.
  unfold ip_issue_netbuf.
  destruct (add_layer_run Nb.network_membuf Ih.sizeof p i rest bs A nb) as [He|(iph & p2 & bs1 & He & Hla)];
    [done|eauto|done|by cbv|by cbv|by cbv|left; apply He|right].
  fold_layer Nb.network_membuf Ih.sizeof. rewrite He. clear He.
  destruct Hla as [Hfr' Hbi Hb1 Ht2 Hk2 (Hf1 & Hf2 & Hf3) Hw].
  change (Nb.network_membuf + 4) with Nb.network in Hf2. change (Nb.network_membuf + 8) with Nb.network_size in Hf3.
  assert (Hfr : A !! iph = None) by (destruct (A !! iph) eqn:E; [exfalso; eapply Hfr'; eauto|done]).
  assert (Hne : nb <> iph) by (apply Hfr'; eauto).
  rewrite !w_get, w_mod, !w_rd32, Hf3, !Hw by nbo.
  set (tsz := load32 (p_mem p) (nb + Nb.transport_size)) in *. set (asz := load32 (p_mem p) (nb + Nb.application_size)) in *.
  pose proof (load32_range (p_mem p) (nb + Nb.transport_size)) as Rt. pose proof (load32_range (p_mem p) (nb + Nb.application_size)) as Ra.
  fold tsz in Rt. fold asz in Ra. rewrite u16_small by (unfold Ih.sizeof in *; lia).
  set (len := Ih.sizeof + tsz + asz) in *.
  (* the header *)
  assert (Hiph : is_Some (<[iph := (1, 0)]> A !! iph)) by (rewrite lookup_insert_eq; eauto).
  set (hm := header_mem iph (ii_addr i) dest protocol (ii_pkt_ident i) len).
  destruct (tracks_write p2 bs1 _ iph Ih.sizeof hm Ht2 Hiph Hbi) as [Ht3 Hk3].
  { intros y Hy. by apply header_mem_other. }
  erewrite w_mem by apply ip_header_fields_run. fold hm. set (p3 := with_mem hm p2) in *.
  rewrite delete_insert_id in Hk3 by done.
  assert (Hh3 : bytes_at (p_mem p3) iph Ih.sizeof = ip_header_with 0 (ii_addr i) dest protocol (ii_pkt_ident i) len)
    by (apply header_mem_bytes; unfold len, Ih.sizeof in *; lia || done).
  (* the reference to the server *)
  assert (Hsi : ii_server i <> iph) by (intros E; rewrite E in Hs; by rewrite Hs in Hfr).
  destruct (tracks_ref p3 bs1 _ (ii_server i) rs fs Ht3) as (p4 & He4 & Ht4 & Hk4); [by rewrite lookup_insert_ne|done|].
  rewrite w_lock by done. rewrite w_get. rewrite (w_mem _ _ _ _ _ _ _ He4). rewrite w_unlock by done. rewrite w_rd8, w_csum.
  destruct (proj2 Hk4 iph Ih.sizeof Hiph Hbi) as [_ Hd4].
  assert (Hh4 : bytes_at (p_mem p4) iph Ih.sizeof = ip_header_with 0 (ii_addr i) dest protocol (ii_pkt_ident i) len)
    by (rewrite <-Hh3; by apply bytes_at_ext).
  assert (Hb0 : load8 (p_mem p4) iph = 0x45).
  { pose proof (bytes_at_lookup (p_mem p4) iph Ih.sizeof 0 ltac:(by cbv)) as E. rewrite Hh4, Z.add_0_r in E. by injection E. }
  rewrite Hb0. change (u16 (69 mod 2 ^ 4 * 4)) with Ih.sizeof. rewrite ipcsum_at, Hh4 by (by cbv).
  set (c := ipcsum 0 _ Ih.sizeof). rewrite w_wr16.
  assert (Hc : 0 <= c < 2 ^ 16).
  { unfold c. rewrite <-Hh4, <-ipcsum_at by (by cbv). apply ipcsum_range; [apply bytes_from_ok|lia|by cbv]. }
  assert (Hiph4 : is_Some (<[ii_server i := (rs + 1, fs)]> (<[iph := (1, 0)]> A) !! iph)) by (rewrite lookup_insert_ne, lookup_insert_eq by done; eauto).
  destruct (tracks_write p4 bs1 _ iph Ih.sizeof (fun m => store16 m (iph + Ih.header_csum) c) Ht4 Hiph4 Hbi) as [Ht5 Hk5].
  { intros y Hy. apply load8_store16_ne. unfold Ih.header_csum, Ih.sizeof in *. lia. }
  set (p5 := with_mem _ p4) in *. exists p5, bs1, iph. split; [reflexivity|].
  (* what is kept from where *)
  assert (Hk25 : keeps A bs1 bs1 p2 p5).
  { eapply keeps_trans; [exact Hk3|]. eapply keeps_trans; [eapply keeps_sub; [|exact Hk4]|eapply keeps_sub; [|exact Hk5]];
      intros d [v Hd]; assert (d <> iph) by (intros ->; by rewrite Hd in Hfr).
    - rewrite lookup_insert_ne by done. eauto.
    - rewrite lookup_delete_ne by done. rewrite lookup_insert_is_Some. destruct (decide (ii_server i = d)); [by left|right].
      split; [done|]. rewrite lookup_insert_ne by done. eauto. }
  assert (Hk : keeps (delete nb A) bs bs1 p p5).
  { eapply keeps_trans; [exact Hk2|]. eapply keeps_sub; [|exact Hk25]. intros d [v [_ Hd]%lookup_delete_Some]. eauto. }
  assert (Hw5 : forall o, 0 <= o -> o + 4 <= Nb.sizeof -> load32 (p_mem p5) (nb + o) = load32 (p_mem p2) (nb + o)).
  { intros o H0 H1. eapply keeps_field; eauto. }
  split.
  - done.
  - intros r f Hr. rewrite Hs in Hr. simplify_eq. by rewrite insert_insert_ne.
  - done.
  - rewrite Hw5 by nbo. exact Hf1.
  - rewrite Hw5, Hw by nbo. done.
  - unfold nb_view. rewrite !Hw5 by nbo. rewrite Hf2, Hf3, !Hw by nbo.
    fold tsz asz. destruct (keeps_data _ _ _ _ _ _ _ Hk Htd) as [-> _]. destruct (keeps_data _ _ _ _ _ _ _ Hk Had) as [-> _].
    rewrite !bytes_at_length by lia. f_equal. f_equal.
    unfold p5. rewrite p_mem_with. by apply header_with_csum.
Qed.
End issue.

(** ** A header verifies *)

Lemma nth_bytes_ok l : Forall (fun b => 0 <= b < 2 ^ 8) l -> bytes_ok (list_buf l).
Proof.
  intros H j. unfold list_buf. destruct (nth_in_or_default (Z.to_nat j) l 0) as [Hin|Hd]; [|rewrite Hd; lia].
  apply list_elem_of_In in Hin. rewrite Forall_forall in H. by apply H.
Qed.

Lemma ip_header_with_ok c src dest protocol ident len :
  0 <= c < 2 ^ 16 -> 0 <= src < 2 ^ 32 -> 0 <= dest < 2 ^ 32 -> 0 <= protocol < 2 ^ 8 -> 0 <= ident < 2 ^ 16 ->
  0 <= len < 2 ^ 16 -> Forall (fun b => 0 <= b < 2 ^ 8) (ip_header_with c src dest protocol ident len).
Proof.
  intros Hc Hs Hd Hp Hi Hl. pose proof (fun y => Z.mod_pos_bound y (2 ^ 8) eq_refl) as Hb.
  assert (H16 : forall v, 0 <= v < 2 ^ 16 -> 0 <= v / 2 ^ 8 < 2 ^ 8) by (intros v ?; Z.div_mod_to_equations; lia).
  destruct (word_split src Hs) as [_ Hs1]. destruct (word_split dest Hd) as [_ Hd1].
  unfold ip_header_with, be16, le16, be32, le32. cbn [app]. repeat (apply Forall_cons; split; [auto; lia|]). done.
Qed.

Lemma header_put_csum c src dest protocol ident len j :
  0 <= c < 2 ^ 16 -> 0 <= j < Ih.sizeof ->
  list_buf (ip_header_with c src dest protocol ident len) j
  = put16 Ih.header_csum c (list_buf (ip_header_with 0 src dest protocol ident len)) j.
Proof.
  intros Hc Hj. unfold put16, Ih.header_csum, Ih.sizeof in *.
  destruct (Z.eqb_spec j 10) as [->|]; [reflexivity|]. destruct (Z.eqb_spec j (10 + 1)) as [->|].
  { transitivity (c / 2 ^ 8); [reflexivity|]. symmetry. apply u8_small. Z.div_mod_to_equations. lia. }
  assert (exists k, j = Z.of_nat k) as [k ->] by (exists (Z.to_nat j); lia). unfold list_buf. rewrite Nat2Z.id.
  do 20 (destruct k as [|k]; [reflexivity || lia|]). lia.
Qed.

Lemma ip_header_verifies src dest protocol ident len :
  0 <= src < 2 ^ 32 -> 0 <= dest < 2 ^ 32 -> 0 <= protocol < 2 ^ 8 -> 0 <= ident < 2 ^ 16 -> 0 <= len < 2 ^ 16 ->
  ipcsum 0 (list_buf (ip_header src dest protocol ident len)) Ih.sizeof = 0.
Proof.
  intros Hs Hd Hp Hi Hl. unfold ip_header. set (h0 := ip_header_with 0 src dest protocol ident len).
  assert (Hok : bytes_ok (list_buf h0)) by (apply nth_bytes_ok, ip_header_with_ok; lia || done).
  set (c := ipcsum 0 (list_buf h0) Ih.sizeof). assert (Hc : 0 <= c < 2 ^ 16) by (apply ipcsum_range; [done|lia|by cbv]).
  rewrite (ipcsum_ext 0 _ (put16 Ih.header_csum c (list_buf h0))); [|by cbv|intros j Hj; by apply header_put_csum].
  unfold c at 1. rewrite (ipcsum_ext 0 (list_buf h0) (put16 Ih.header_csum 0 (list_buf h0))); [|by cbv|].
  - by apply checksum_field_zero.
  - intros j Hj. by apply header_put_csum.
Qed.

Lemma bytes_at_app m a n1 n2 : 0 <= n1 -> 0 <= n2 -> bytes_at m a (n1 + n2) = bytes_at m a n1 ++ bytes_at m (a + n1) n2.
Proof.
  intros H1 H2. unfold bytes_at. rewrite seqZ_app, fmap_app by done. f_equal.
  rewrite Z.add_0_l, <-(Z.add_0_r n1) at 1. rewrite <-fmap_add_seqZ, <-list_fmap_compose.
  apply list_fmap_ext. intros j y _. cbn. f_equal. lia.
Qed.

Lemma bytes_at_app_inv m a n l1 l2 :
  bytes_at m a (Z.of_nat (length l1) + n) = l1 ++ l2 -> 0 <= n ->
  bytes_at m a (Z.of_nat (length l1)) = l1 /\ bytes_at m (a + Z.of_nat (length l1)) n = l2.
Proof.
  intros H Hn. rewrite bytes_at_app in H by lia. apply app_inj_1 in H; [done|].
  pose proof (bytes_at_length m a (Z.of_nat (length l1))). lia.
Qed.

(** The fields a receiver reads from a header. *)
Lemma header_reads m iph src dest protocol ident len :
  0 <= src < 2 ^ 32 -> 0 <= dest < 2 ^ 32 -> 0 <= protocol < 2 ^ 8 -> 0 <= ident < 2 ^ 16 -> 0 <= len < 2 ^ 16 ->
  bytes_at m iph Ih.sizeof = ip_header src dest protocol ident len ->
  load8 m iph = 0x45 /\ load8 m (iph + Ih.protocol) = protocol /\ load32 m (iph + Ih.dest_addr) = dest
  /\ load32 m (iph + Ih.src_addr) = hton32 src
  /\ hton16 (load16 m (iph + Ih.total_len)) = len /\ ipcsum 0 (bytes_from m iph) (u16 (0x45 mod 2 ^ 4 * 4)) = 0.
Proof.
  intros Hs Hd Hp Hi Hl H.
  assert (Hsum : ipcsum 0 (bytes_from m iph) Ih.sizeof = 0) by (rewrite ipcsum_at, H by (by cbv); by apply ip_header_verifies).
  unfold ip_header in H. set (c := ipcsum _ _ _) in H. clearbody c. unfold bytes_at in H.
  change (seqZ 0 Ih.sizeof) with [0; 1; 2; 3; 4; 5; 6; 7; 8; 9; 10; 11; 12; 13; 14; 15; 16; 17; 18; 19] in H.
  unfold ip_header_with, be16, le16, be32, le32 in H. cbn [fmap list_fmap app] in H.
  injection H as E0 E1 E2 E3 E4 E5 E6 E7 E8 E9 E10 E11 E12 E13 E14 E15 E16 E17 E18 E19.
  destruct (word_split src Hs) as [Es Hs1]. destruct (word_split dest Hd) as [Ed Hd1].
  pose proof (fun y => Z.mod_pos_bound y (2 ^ 8) eq_refl) as Hb.
  split_and!; [by rewrite Z.add_0_r in E0|exact E9| | | |exact Hsum].
  - unfold load32, Ih.dest_addr. rewrite <-!(Z.add_assoc iph).
    change (16 + 1) with 17. change (16 + 2) with 18. change (16 + 3) with 19. rewrite E16, E17, E18, E19. rewrite Ed at 5. lia.
  - unfold load32, Ih.src_addr. rewrite <-!(Z.add_assoc iph).
    change (12 + 1) with 13. change (12 + 2) with 14. change (12 + 3) with 15. rewrite E12, E13, E14, E15. rewrite Es at 5. rewrite hton32_join by auto. lia.
  - unfold load16, Ih.total_len. rewrite <-(Z.add_assoc iph). change (2 + 1) with 3. rewrite E2, E3.
    unfold hton16. replace (len / 2 ^ 8 + 2 ^ 8 * (len mod 2 ^ 8)) with (0 * 2 ^ 16 + len mod 2 ^ 8 * 2 ^ 8 + len / 2 ^ 8) by lia.
    rewrite xchgb_join; [Z.div_mod_to_equations; lia|auto|Z.div_mod_to_equations; lia].
Qed.

(** ** [ip_recv_netbuf] *)

(** The netbuf with the header of [n] bytes at [iph] split off. *)
Definition split_header (nb iph n tsz : Z) (m : mem) : mem :=
  store32 (store32 (store32 m (nb + Nb.network_size) n) (nb + Nb.transport) (iph + n)) (nb + Nb.transport_size) tsz.

Lemma split_header_other nb iph n tsz m y :
  ~ nb <= y < nb + Nb.sizeof -> load8 (split_header nb iph n tsz m) y = load8 m y.
Proof. intros H. unfold split_header. by rewrite !load8_store32_ne by nbo. Qed.

Lemma split_header_fields nb iph n tsz m :
  0 <= n < 2 ^ 32 -> 0 <= iph + n < 2 ^ 32 -> 0 <= tsz < 2 ^ 32 ->
  load32 (split_header nb iph n tsz m) (nb + Nb.network) = load32 m (nb + Nb.network)
  /\ load32 (split_header nb iph n tsz m) (nb + Nb.network_size) = n
  /\ load32 (split_header nb iph n tsz m) (nb + Nb.transport) = iph + n
  /\ load32 (split_header nb iph n tsz m) (nb + Nb.transport_size) = tsz.
Proof.
  intros. unfold split_header. split_and!.
  - by rewrite !load32_store32_ne by nbo.
  - rewrite !load32_store32_ne by nbo. by apply load32_store32.
  - rewrite load32_store32_ne by nbo. by apply load32_store32.
  - by apply load32_store32.
Qed.

Section receive.
Context {X : Type} (ids_send : Z -> Z -> W X unit) (ic_recv ic_recv_icmp : ip_client -> Z -> W X unit)
  (icmp_recv : icmp_client -> Z -> W X unit) (p : pool) (i : ip_instance) (rest : X) (bs : list hole) (A : counts) (nb iph : Z)
  (src dest protocol ident : Z) (payload : list Z).
Abbreviation len := (Ih.sizeof + Z.of_nat (length payload)).
Context (Hnet : load32 (p_mem p) (nb + Nb.network) = iph)
  (Hpkt : bytes_at (p_mem p) iph len = ip_header src dest protocol ident len ++ payload)
  (Hs : 0 <= src < 2 ^ 32) (Hd : 0 <= dest < 2 ^ 32) (Hp : 0 <= protocol < 2 ^ 8) (Hi : 0 <= ident < 2 ^ 16) (Hl : len < 2 ^ 16).

Lemma packet_split : bytes_at (p_mem p) iph Ih.sizeof = ip_header src dest protocol ident len
  /\ bytes_at (p_mem p) (iph + Ih.sizeof) (Z.of_nat (length payload)) = payload.
Proof.
  change Ih.sizeof with (Z.of_nat (length (ip_header src dest protocol ident len))) at 1 3.
  apply bytes_at_app_inv; [exact Hpkt|lia].
Qed.

Lemma len_range : 0 <= len < 2 ^ 16.
Proof. split; [unfold Ih.sizeof; lia|exact Hl]. Qed.

(** A packet for somebody else is dropped. *)
Lemma ip_recv_other_addr :
  ii_addr i <> hton32 dest ->
  ip_recv_netbuf ids_send ic_recv ic_recv_icmp icmp_recv nb (World_ p i rest) = Ok (tt, World_ p i rest).
Proof.
  intros Ha. destruct packet_split as [Hh _].
  destruct (header_reads _ _ _ _ _ _ _ Hs Hd Hp Hi len_range Hh) as (E0 & _ & E2 & _ & _ & E4).
  unfold ip_recv_netbuf. rewrite w_rd32, Hnet, w_rd8, E0. change (negb (69 / 2 ^ 4 =? 4)) with false. cbv match zeta.
  rewrite w_rd16, w_csum, E4. change (negb (0 =? 0)) with false. rewrite andb_false_r. rewrite w_rd32, E2, w_get.
  replace (hton32 dest =? ii_addr i) with false by lia. done.
Qed.

(** A packet for this host has its header split off before it is passed on. *)
Lemma ip_recv_accepted :
  ii_addr i = hton32 dest ->
  let p1 := with_mem (split_header nb iph Ih.sizeof (Z.of_nat (length payload))) p in
  (forall x, iph <= x < iph + Ih.sizeof -> ~ nb <= x < nb + Nb.sizeof) ->
  ip_recv_netbuf ids_send ic_recv ic_recv_icmp icmp_recv nb (World_ p i rest)
  = (if protocol =? 0x01 then icmp_recv_netbuf ids_send ic_recv_icmp icmp_recv nb
     else
       lock_ii;;
       l ← get_ii ii_client_list;
       match find_client protocol l with
       | Some ic => ip_client_ref ic;; unlock_ii;; ic_recv ic nb;; ip_client_deref ic
       | None => unlock_ii;; ip_unreachable ids_send nb
       end) (World_ p1 i rest).
Proof.
  intros Ha p1 Hout. destruct packet_split as [Hh _].
  destruct (header_reads _ _ _ _ _ _ _ Hs Hd Hp Hi len_range Hh) as (E0 & E1 & E2 & _ & E3 & E4).
  unfold ip_recv_netbuf. rewrite w_rd32, Hnet, w_rd8, E0. change (negb (69 / 2 ^ 4 =? 4)) with false. cbv match zeta.
  rewrite w_rd16, w_csum, E4. change (negb (0 =? 0)) with false. rewrite andb_false_r. rewrite w_rd32, E2, w_get.
  rewrite Ha, Z.eqb_refl. cbn [negb]. rewrite !w_wr32, w_rd16, w_wr32, w_rd8.
  change (4 * (69 mod 2 ^ 4)) with Ih.sizeof.
  assert (Hm : forall y, iph <= y < iph + Ih.sizeof ->
    load8 (store32 (store32 (p_mem p) (nb + Nb.network_size) Ih.sizeof) (nb + Nb.transport) (iph + Ih.sizeof)) y = load8 (p_mem p) y).
  { intros y Hy. specialize (Hout y Hy). rewrite !load8_store32_ne by nbo. done. }
  rewrite !p_mem_with.
  assert (E3' : load16 (store32 (store32 (p_mem p) (nb + Nb.network_size) Ih.sizeof) (nb + Nb.transport) (iph + Ih.sizeof)) (iph + Ih.total_len)
    = load16 (p_mem p) (iph + Ih.total_len)) by (unfold load16; rewrite !Hm by (unfold Ih.total_len, Ih.sizeof; lia); done).
  rewrite E3', E3. replace (u32 (len - Ih.sizeof)) with (Z.of_nat (length payload)) by (rewrite u32_small; unfold Ih.sizeof in *; lia).
  change (with_mem _ (with_mem _ (with_mem _ p))) with p1.
  replace (load8 (store32 _ _ _) (iph + Ih.protocol)) with protocol; [done|].
  rewrite load8_store32_ne, Hm, E1; [done|unfold Ih.protocol, Ih.sizeof; lia|].
  specialize (Hout (iph + Ih.protocol) ltac:(unfold Ih.protocol, Ih.sizeof; lia)). nbo.
Qed.
End receive.

(** ** Properties *)

(** The state in which an upper layer passes a netbuf down: the netbuf, the server
    and the data of the two upper layers are in live membufs, and the packet is
    not longer than a packet can be. *)
Record sendable (p : pool) (bs : list hole) (A : counts) (i : ip_instance) (nb : Z) : Prop := {
  se_tracks : tracks p bs A;
  se_lock : ii_lock i = false;
  se_netbuf : is_Some (A !! nb);
  se_sizeof : buffer_of bs nb Nb.sizeof;
  se_server : exists r f, A !! ii_server i = Some (r, f) /\ r + 1 < 2 ^ 32;
  se_addr : 0 <= ii_addr i < 2 ^ 32;
  se_ident : 0 <= ii_pkt_ident i < 2 ^ 16;
  se_transport : data_in (delete nb A) bs (load32 (p_mem p) (nb + Nb.transport)) (load32 (p_mem p) (nb + Nb.transport_size));
  se_application : data_in (delete nb A) bs (load32 (p_mem p) (nb + Nb.application)) (load32 (p_mem p) (nb + Nb.application_size));
  se_len : Ih.sizeof + load32 (p_mem p) (nb + Nb.transport_size) + load32 (p_mem p) (nb + Nb.application_size) < 2 ^ 16 }.

Lemma issue_sendable {X} (ids_send : Z -> Z -> W X unit) p bs A i (rest : X) nb dest protocol :
  sendable p bs A i nb -> 0 <= dest < 2 ^ 32 -> 0 <= protocol < 2 ^ 8 ->
  ip_issue_netbuf ids_send dest protocol nb (World_ p i rest) = Stop "heap_alloc: NULL pointer"
  \/ exists p' bs' iph,
       ip_issue_netbuf ids_send dest protocol nb (World_ p i rest)
       = (ids_send (ii_server i) nb;; deref_ (ii_server i))
           (World_ p' (i <| ii_pkt_ident := u16 (ii_pkt_ident i + 1) |>) rest)
       /\ ip_issued p bs A i nb dest protocol p' bs' iph.
Proof.
  intros [Ht Hlk [[rn fn] Hnb] Hb (rs & fs & Hs & Hrs) Ha Hi Htd Had Hlen] Hd Hp. by eapply ip_issue_netbuf_run.
Qed.

(** C32: sending.  [ip_issue_netbuf] either halts for lack of memory or calls the
    datalink exactly once, with the netbuf it was given; then its network layer is
    a well-formed header (RFC 791) in a new membuf, with the addresses, the
    protocol, the length of the three layers, the next identification and a
    checksum that verifies; the upper layers and all other live buffers are as
    they were, and the only count that changed is the one held on the server
    during the call. *)
Theorem ip_issue_builds_packet {X} (ids_send : Z -> Z -> W X unit) p bs A i (rest : X) nb dest protocol :
  sendable p bs A i nb -> 0 <= dest < 2 ^ 32 -> 0 <= protocol < 2 ^ 8 ->
  ip_issue_netbuf ids_send dest protocol nb (World_ p i rest) = Stop "heap_alloc: NULL pointer"
  \/ exists p' bs' iph,
       ip_issue_netbuf ids_send dest protocol nb (World_ p i rest)
       = (ids_send (ii_server i) nb;; deref_ (ii_server i))
           (World_ p' (i <| ii_pkt_ident := u16 (ii_pkt_ident i + 1) |>) rest)
       /\ ip_issued p bs A i nb dest protocol p' bs' iph
       /\ forall n t a, nb_view (p_mem p') nb = (n, t, a) -> ipcsum 0 (list_buf n) Ih.sizeof = 0.
Proof.
  intros Hs Hd Hp. destruct (issue_sendable ids_send p bs A i rest nb dest protocol Hs Hd Hp)
    as [?|(p' & bs' & iph & He & Hi)]; [by left|right]. exists p', bs', iph. split_and!; auto.
  intros n t a Hv. rewrite (is_view _ _ _ _ _ _ _ _ _ _ Hi) in Hv. unfold nb_view in Hv. injection Hv as <- _ _.
  apply ip_header_verifies; auto; [apply Hs..|]. rewrite !bytes_at_length by apply load32_range.
  pose proof (se_len _ _ _ _ _ Hs). pose proof (load32_range (p_mem p) (nb + Nb.transport_size)).
  pose proof (load32_range (p_mem p) (nb + Nb.application_size)). unfold Ih.sizeof in *. lia.
Qed.

(** A netbuf whose network layer holds a packet as [ip_issue_netbuf] makes it. *)
Record received (p : pool) (bs : list hole) (A : counts) (i : ip_instance) (nb iph : Z)
    (src dest protocol ident : Z) (payload : list Z) : Prop := {
  re_tracks : tracks p bs A;
  re_lock : ii_lock i = false;
  re_netbuf : is_Some (A !! nb);
  re_sizeof : buffer_of bs nb Nb.sizeof;
  re_network : load32 (p_mem p) (nb + Nb.network) = iph;
  re_data : data_in (delete nb A) bs iph (Ih.sizeof + Z.of_nat (length payload));
  re_packet : bytes_at (p_mem p) iph (Ih.sizeof + Z.of_nat (length payload))
    = ip_header src dest protocol ident (Ih.sizeof + Z.of_nat (length payload)) ++ payload;
  re_src : 0 <= src < 2 ^ 32;
  re_dest : 0 <= dest < 2 ^ 32;
  re_protocol : 0 <= protocol < 2 ^ 8;
  re_ident : 0 <= ident < 2 ^ 16;
  re_len : Ih.sizeof + Z.of_nat (length payload) < 2 ^ 16 }.

(** Data in other membufs does not overlap the netbuf. *)
Lemma data_outside p bs A nb a n y :
  tracks p bs A -> is_Some (A !! nb) -> buffer_of bs nb Nb.sizeof -> data_in (delete nb A) bs a n ->
  a <= y < a + n -> ~ nb <= y < nb + Nb.sizeof.
Proof.
  intros Ht Hnb Hb [->|(_ & b & k & [v [Hne _]%lookup_delete_Some] & Hbuf & H1 & H2)] Hy; [lia|].
  pose proof (buffers_apart _ _ _ _ _ _ (tr_pool _ _ _ Ht) Hb Hbuf Hne). lia.
Qed.

(** The state after the header was split off. *)
Lemma split_received p bs A i nb iph src dest protocol ident payload :
  received p bs A i nb iph src dest protocol ident payload ->
  let p1 := with_mem (split_header nb iph Ih.sizeof (Z.of_nat (length payload))) p in
  tracks p1 bs A /\ keeps (delete nb A) bs bs p p1
  /\ load32 (p_mem p1) (nb + Nb.network) = iph /\ load32 (p_mem p1) (nb + Nb.network_size) = Ih.sizeof
  /\ load32 (p_mem p1) (nb + Nb.transport) = iph + Ih.sizeof
  /\ load32 (p_mem p1) (nb + Nb.transport_size) = Z.of_nat (length payload)
  /\ bytes_at (p_mem p1) iph Ih.sizeof = ip_header src dest protocol ident (Ih.sizeof + Z.of_nat (length payload))
  /\ bytes_at (p_mem p1) (iph + Ih.sizeof) (Z.of_nat (length payload)) = payload.
Proof.
  intros [Ht Hlk Hnb Hb Hnet Hdata Hpkt Hs Hd Hp Hi Hl] p1.
  destruct (tracks_write p bs A nb Nb.sizeof (split_header nb iph Ih.sizeof (Z.of_nat (length payload))) Ht Hnb Hb) as [Ht1 Hk1].
  { intros y Hy. by apply split_header_other. }
  assert (Hr : 0 <= iph + Ih.sizeof < 2 ^ 32).
  { destruct Hdata as [?|(_ & b & k & _ & Hbuf & ? & ?)]; [unfold Ih.sizeof in *; lia|].
    pose proof (buffer_addr _ _ _ _ _ Ht Hbuf). unfold Ih.sizeof in *. lia. }
  destruct (split_header_fields nb iph Ih.sizeof (Z.of_nat (length payload)) (p_mem p)) as (F1 & F2 & F3 & F4);
    [by cbv|done|unfold Ih.sizeof in *; lia|].
  destruct (keeps_data _ _ _ _ _ _ _ Hk1 Hdata) as [Hsame _]. rewrite Hpkt in Hsame.
  apply (bytes_at_app_inv _ _ _ (ip_header _ _ _ _ _)) in Hsame as [H1 H2]; [|lia].
  split_and!; auto. by rewrite <-Hnet.
Qed.

(** The packet reaches the client of its protocol. *)
Lemma ip_recv_to_client {X} (ids_send : Z -> Z -> W X unit) ic_recv ic_recv_icmp icmp_recv
    p bs A i (rest : X) nb iph src dest protocol ident payload ic r f :
  received p bs A i nb iph src dest protocol ident payload -> ii_addr i = hton32 dest -> protocol <> 0x01 ->
  find_client protocol (ii_client_list i) = Some ic -> A !! ic_self ic = Some (r, f) -> r + 1 < 2 ^ 32 ->
  exists p', ip_recv_netbuf ids_send ic_recv ic_recv_icmp icmp_recv nb (World_ p i rest)
       = (ic_recv ic nb;; ip_client_deref ic) (World_ p' i rest)
    /\ tracks p' bs (<[ic_self ic := (r + 1, f)]> A) /\ keeps (delete nb A) bs bs p p'
    /\ load32 (p_mem p') (nb + Nb.network) = iph /\ load32 (p_mem p') (nb + Nb.network_size) = Ih.sizeof
    /\ load32 (p_mem p') (nb + Nb.transport) = iph + Ih.sizeof
    /\ load32 (p_mem p') (nb + Nb.transport_size) = Z.of_nat (length payload)
    /\ data_in (delete nb A) bs iph (Ih.sizeof + Z.of_nat (length payload))
    /\ bytes_at (p_mem p') iph Ih.sizeof = ip_header src dest protocol ident (Ih.sizeof + Z.of_nat (length payload))
    /\ bytes_at (p_mem p') (iph + Ih.sizeof) (Z.of_nat (length payload)) = payload.
Proof.
  intros Hr Ha Hpr Hf Hic Hrf. pose proof Hr as [Ht Hlk Hnb Hb Hnet Hdata Hpkt Hs Hd Hp Hi Hl].
  destruct (split_received _ _ _ _ _ _ _ _ _ _ _ Hr) as (Ht1 & Hk1 & F1 & F2 & F3 & F4 & B1 & B2).
  set (p1 := with_mem _ p) in *. destruct (tracks_ref p1 bs A _ r f Ht1 Hic Hrf) as (p2 & He2 & Ht2 & Hk2).
  assert (Hw : forall o, 0 <= o -> o + 4 <= Nb.sizeof -> load32 (p_mem p2) (nb + o) = load32 (p_mem p1) (nb + o)).
  { intros o H0 H1. eapply keeps_field; eauto. }
  assert (Hk2' : keeps (delete nb A) bs bs p1 p2).
  { eapply keeps_sub; [|exact Hk2]. intros d [v [_ Hv]%lookup_delete_Some]. eauto. }
  exists p2. rewrite !Hw by nbo. destruct (keeps_data _ _ _ _ _ _ _ Hk1 Hdata) as [_ Hdata1].
  destruct (keeps_data _ _ _ _ _ _ _ Hk2' Hdata1) as [Hsame _]. rewrite !bytes_at_app in Hsame by (unfold Ih.sizeof; lia).
  apply app_inj_1 in Hsame as [S1 S2]; [|unfold bytes_at; by rewrite !length_fmap].
  split_and!; auto; [|by eapply keeps_trans|by rewrite S1|by rewrite S2].
  assert (Hout : forall y, iph <= y < iph + Ih.sizeof -> ~ nb <= y < nb + Nb.sizeof).
  { intros y Hy. apply (data_outside p bs A nb _ _ y Ht Hnb Hb Hdata). lia. }
  erewrite ip_recv_accepted by eauto.
  fold p1. destruct (Z.eqb_spec protocol 1); [done|]. rewrite w_lock by done. rewrite w_get.
  change (ii_client_list (i <| ii_lock := true |>)) with (ii_client_list i). rewrite Hf. cbv match.
  unfold ip_client_ref. by rewrite (w_mem _ _ _ _ _ _ _ He2), w_unlock.
Qed.

(** C33: receiving.  A packet as [ip_issue_netbuf] makes it is dropped, with
    nothing changed, by a host with another address; a host with the destination
    address passes it to the client attached for its protocol, exactly once and
    with the lock free, and what the client finds as transport layer is the
    payload, neither shortened nor extended.  The client is referenced during the
    call and all other buffers are as they were. *)
Theorem ip_recv_delivers {X} (ids_send : Z -> Z -> W X unit) ic_recv ic_recv_icmp icmp_recv
    p bs A i (rest : X) nb iph src dest protocol ident payload :
  received p bs A i nb iph src dest protocol ident payload ->
  (ii_addr i <> hton32 dest ->
   ip_recv_netbuf ids_send ic_recv ic_recv_icmp icmp_recv nb (World_ p i rest) = Ok (tt, World_ p i rest))
  /\ (forall ic r f, ii_addr i = hton32 dest -> protocol <> 0x01 ->
      find_client protocol (ii_client_list i) = Some ic -> A !! ic_self ic = Some (r, f) -> r + 1 < 2 ^ 32 ->
      exists p', ip_recv_netbuf ids_send ic_recv ic_recv_icmp icmp_recv nb (World_ p i rest)
           = (ic_recv ic nb;; ip_client_deref ic) (World_ p' i rest)
        /\ tracks p' bs (<[ic_self ic := (r + 1, f)]> A) /\ keeps (delete nb A) bs bs p p'
        /\ (nb_view (p_mem p') nb).1 = (ip_header src dest protocol ident (Ih.sizeof + Z.of_nat (length payload)), payload)).
Proof.
  intros Hr. split; [intros Ha; destruct Hr; by eapply ip_recv_other_addr|]. intros ic r f Ha Hpr Hf Hic Hrf.
  destruct (ip_recv_to_client ids_send ic_recv ic_recv_icmp icmp_recv _ _ _ _ rest _ _ _ _ _ _ _ ic r f Hr Ha Hpr Hf Hic Hrf)
    as (p' & He & Ht & Hk & F1 & F2 & F3 & F4 & _ & B1 & B2).
  exists p'. split_and!; auto. unfold nb_view. by rewrite F1, F2, F3, F4, B1, B2.
Qed.

(** ** Witnesses *)

(** A heap of 600 bytes with a server structure at 0x1010, a netbuf and a buffer of
    40 bytes. *)
Definition net_pool0 : pool :=
  Eval vm_compute in
  match heap_add 1 0x1000 600 (Heap_ false 0 0 ∅) with Ok h => Pool_ h false false | _ => region_pool end.
Definition net_pool1 : pool :=
  Eval vm_compute in match membuf_alloc 8 0 net_pool0 with Ok (_, p) => p | _ => region_pool end.
Definition net_pool2 : pool :=
  Eval vm_compute in match netbuf_alloc net_pool1 with Ok (_, p) => p | _ => region_pool end.
Definition net_pool3 : pool :=
  Eval vm_compute in match membuf_alloc 40 0 net_pool2 with Ok (_, p) => p | _ => region_pool end.

Definition net_srv : Z := 0x1010.
Definition net_nb : Z := 0x1028.
Definition net_buf : Z := 0x1070.
Definition net_counts : counts := <[net_buf := (1, 0)]> (<[net_nb := (1, NETBUF_FREE)]> (<[net_srv := (1, 0)]> ∅)).

Lemma net_run1 : membuf_alloc 8 0 net_pool0 = Ok (net_srv, net_pool1).
Proof. by vm_compute. Qed.
Lemma net_run2 : netbuf_alloc net_pool1 = Ok (net_nb, net_pool2).
Proof. by vm_compute. Qed.
Lemma net_run3 : membuf_alloc 40 0 net_pool2 = Ok (net_buf, net_pool3).
Proof. by vm_compute. Qed.

Lemma net_pool3_tracks :
  exists bs, tracks net_pool3 bs net_counts /\ buffer_of bs net_nb Nb.sizeof /\ buffer_of bs net_buf 40.
Proof.
  assert (Ht0 : tracks net_pool0 [] ∅).
  { split; [|by intros b r f []%lookup_empty_Some]. split; [done|].
    assert (Hr : heap_reach (p_heap net_pool0) [(0x1000, 600)] []).
    { eapply (HR_add (Heap_ false 0 0 ∅) [] [] 1); [constructor|lia..|done|]. by vm_compute. }
    destruct (heap_reach_ok _ _ _ Hr) as [l Hl]. by exists [(0x1000, 600)], l. }
  destruct (tracks_alloc _ _ _ 8 0 Ht0) as [He|(b1 & p1 & bs1 & He & _ & _ & Ht1 & _)]; [lia|lia|rewrite net_run1 in He; done|].
  rewrite net_run1 in He. injection He as <- <-.
  destruct (netbuf_alloc_spec _ _ _ Ht1) as [He|(b2 & p2 & bs2 & He & _ & Hb2 & Ht2 & _)]; rewrite net_run2 in He; [done|].
  injection He as <- <-.
  destruct (tracks_alloc _ _ _ 40 0 Ht2) as [He|(b3 & p3 & bs3 & He & _ & Hb3 & Ht3 & Hk3)]; [lia|lia|rewrite net_run3 in He; done|].
  rewrite net_run3 in He. injection He as <- <-. exists bs3. split_and!; [done| |done].
  apply (proj2 Hk3); [|done]. rewrite lookup_insert_eq. eauto.
Qed.

(** To send: the application layer is the first five bytes of the buffer. *)
Definition net_send_mem (m : mem) : mem :=
  store32 (store32 m (net_nb + Nb.application) net_buf) (net_nb + Nb.application_size) 5.
Definition net_host : ip_instance :=
  Ip_instance_ 0x2000 false 0x0a000001 7 net_srv [Ip_client_ net_srv 0x11 0 false] [].

Lemma net_sendable : exists bs, sendable (with_mem net_send_mem net_pool3) bs net_counts net_host net_nb.
Proof.
  destruct net_pool3_tracks as (bs & Ht & Hnb & Hbuf). exists bs.
  destruct (tracks_write net_pool3 bs net_counts net_nb Nb.sizeof net_send_mem Ht) as [Ht1 _]; [by eexists|done|..].
  { intros y Hy. unfold net_send_mem. by rewrite !load8_store32_ne by nbo. }
  split; [done|done|by eexists|done|exists 1, 0; by vm_compute|by cbv|by cbv| | |by vm_compute].
  - left. by vm_compute.
  - right. replace (load32 _ (net_nb + Nb.application_size)) with 5 by by vm_compute.
    replace (load32 _ (net_nb + Nb.application)) with net_buf by by vm_compute.
    split; [lia|]. exists net_buf, 40. split_and!; [by eexists|done|lia|lia].
Qed.

Lemma ip_issue_builds_packet_witness :
  exists bs, ip_issue_netbuf (fun _ _ => mret tt) 0x0200000a 0x11 net_nb (World_ (with_mem net_send_mem net_pool3) net_host tt)
    = Stop "heap_alloc: NULL pointer"
  \/ exists p' bs' iph,
       ip_issue_netbuf (fun _ _ => mret tt) 0x0200000a 0x11 net_nb (World_ (with_mem net_send_mem net_pool3) net_host tt)
       = ((fun _ _ => mret tt) (ii_server net_host) net_nb;; deref_ (ii_server net_host))
           (World_ p' (net_host <| ii_pkt_ident := u16 (ii_pkt_ident net_host + 1) |>) tt)
       /\ ip_issued (with_mem net_send_mem net_pool3) bs net_counts net_host net_nb 0x0200000a 0x11 p' bs' iph
       /\ forall n t a, nb_view (p_mem p') net_nb = (n, t, a) -> ipcsum 0 (list_buf n) Ih.sizeof = 0.
Proof.
  destruct net_sendable as [bs Hs]. exists bs.
  apply (ip_issue_builds_packet (fun _ _ => mret tt) _ bs net_counts net_host tt net_nb 0x0200000a 0x11 Hs); lia.
Defined.

(** Received: the buffer holds a packet with five bytes for protocol 0x11. *)
Definition put_bytes (a : Z) (l : list Z) (m : mem) : mem := foldr (fun jb m => store8 m (a + jb.1) jb.2) m (zip (seqZ 0 (Z.of_nat (length l))) l).
Definition net_packet : list Z := Eval vm_compute in ip_header 0x0a000002 0x0100000a 0x11 3 25 ++ [1; 2; 3; 4; 5].
Definition net_recv_pool : pool :=
  with_mem (fun m => store32 m (net_nb + Nb.network) net_buf) (with_mem (put_bytes net_buf net_packet) net_pool3).

Lemma put_bytes_other a l m y :
  ~ a <= y < a + Z.of_nat (length l) -> load8 (put_bytes a l m) y = load8 m y.
Proof.
  intros H. unfold put_bytes.
  assert (Hz : Forall (fun jb : Z * Z => 0 <= jb.1 < Z.of_nat (length l)) (zip (seqZ 0 (Z.of_nat (length l))) l)).
  { apply Forall_forall. intros [j b] Hj. apply elem_of_zip_l in Hj. apply elem_of_seqZ in Hj. cbn. lia. }
  induction Hz as [|[j b] z Hj _ IH]; [done|]. cbn in *. rewrite load8_store8_ne by lia. exact IH.
Qed.

Lemma net_received : exists bs,
  received net_recv_pool bs net_counts net_host net_nb net_buf 0x0a000002 0x0100000a 0x11 3 [1; 2; 3; 4; 5].
Proof.
  destruct net_pool3_tracks as (bs & Ht & Hnb & Hbuf). exists bs.
  destruct (tracks_write net_pool3 bs net_counts net_buf 40 (put_bytes net_buf net_packet) Ht) as [Ht1 _]; [by eexists|done|..].
  { intros y Hy. apply put_bytes_other. change (Z.of_nat (length net_packet)) with 25. lia. }
  destruct (tracks_write _ bs net_counts net_nb Nb.sizeof (fun m => store32 m (net_nb + Nb.network) net_buf) Ht1) as [Ht2 _]; [by eexists|done|..].
  { intros y Hy. rewrite load8_store32_ne by nbo. done. }
  split; [done|done|by eexists|done|by vm_compute| |by vm_compute|by cbv..].
  right. split; [by cbv|]. exists net_buf, 40. split_and!; [by eexists|done|by cbv|by cbv].
Qed.

Lemma ip_recv_delivers_witness :
  exists bs p', ip_recv_netbuf (fun _ _ => mret tt) (fun _ _ => mret tt) (fun _ _ => mret tt) (fun _ _ => mret tt) net_nb
                 (World_ net_recv_pool net_host tt)
           = ((fun _ _ => mret tt) (Ip_client_ net_srv 0x11 0 false) net_nb;; ip_client_deref (Ip_client_ net_srv 0x11 0 false))
               (World_ p' net_host tt)
        /\ tracks p' bs (<[net_srv := (1 + 1, 0)]> net_counts) /\ keeps (delete net_nb net_counts) bs bs net_recv_pool p'
        /\ (nb_view (p_mem p') net_nb).1 = (ip_header 0x0a000002 0x0100000a 0x11 3 (Ih.sizeof + Z.of_nat 5), [1; 2; 3; 4; 5]).
Proof.
  destruct net_received as [bs Hr]. exists bs.
  apply (proj2 (ip_recv_delivers (fun _ _ => mret tt) (fun _ _ => mret tt) (fun _ _ => mret tt) (fun _ _ => mret tt)
    net_recv_pool bs net_counts net_host tt net_nb net_buf 0x0a000002 0x0100000a 0x11 3 [1; 2; 3; 4; 5] Hr)
    (Ip_client_ net_srv 0x11 0 false) 1 0); [by cbv|by cbv|by cbv|by cbv|lia].
Defined.
