(* ===== verification/Udp.v ===== *)
(** * The User Datagram Protocol (src/lib/udp/udp.c, include/udp.h)

    UDP is a client of the IP instance: [udp_recv_netbuf] is called by
    [ip_recv_netbuf], [udp_send_netbuf] calls [ip_send_netbuf].  As for IP, packets
    and counts are in memory and the fields of the instance and its clients are
    records. *)

From stdpp Require Import base list gmap fin_maps strings.
From Stdlib Require Import ZArith Lia.
From S2P Require Import Prelude Heap Membuf NetbufMem Ipcsum Ip.
Open Scope Z_scope.

(** Offsets in [struct udp_header]. *)
Module Uh.
Definition src_port : Z := 0.
Definition dest_port : Z := 2.
Definition len : Z := 4.
Definition csum : Z := 6.
Definition sizeof : Z := 8.
End Uh.

Record udp_server := Udp_server_ {
  us_self : Z;
  us_port : Z }.

Record udp_client := Udp_client_ {
  uc_self : Z;
  uc_server : Z;
  uc_port : Z }.
#[export] Instance eta_udp_client : Eta udp_client := fun c => Udp_client_ (uc_self c) (uc_server c) (uc_port c).

Record udp_instance := Udp_instance_ {
  ui_self : Z;
  ui_lock : bool;
  ui_client_list : list udp_client;
  ui_server : Z }.
#[export] Instance eta_udp_instance : Eta udp_instance := fun u =>
  Udp_instance_ (ui_self u) (ui_lock u) (ui_client_list u) (ui_server u).

(** The state of IP with the UDP instance beside it. *)
Record udp_net (Y : Type) := Udp_net_ {
  un_udp : udp_instance;
  un_more : Y }.
Arguments Udp_net_ {Y} _ _.
Arguments un_udp {Y} _.
Arguments un_more {Y} _.

Abbreviation UW Y := (W (udp_net Y)).

Definition get_ui {Y A} (f : udp_instance -> A) : UW Y A := gets (fun w => f (un_udp (w_more w))).
Definition mod_ui {Y} (f : udp_instance -> udp_instance) : UW Y unit :=
  modify (fun w => World_ (w_pool w) (w_ip w) (Udp_net_ (f (un_udp (w_more w))) (un_more (w_more w)))).

Definition lock_ui {Y} : UW Y unit := l ← get_ui ui_lock; l ← of_res (spin_lock l); mod_ui (fun u => u <| ui_lock := l |>).
Definition unlock_ui {Y} : UW Y unit := l ← get_ui ui_lock; l ← of_res (spin_unlock l); mod_ui (fun u => u <| ui_lock := l |>).

(** [while (uc && (uc->uc_port != port)) uc = uc->uc_next;] *)
Fixpoint find_port (port : Z) (l : list udp_client) : option udp_client :=
  match l with
  | [] => None
  | uc :: l => if negb (uc_port uc =? port) then find_port port l else Some uc
  end.

Section calls.
Context {Y : Type} (ids_send : Z -> Z -> UW Y unit) (uc_recv : udp_client -> Z -> UW Y unit).

(** The ICMP "port unreachable" answer of [udp_recv_netbuf]. *)
Definition udp_unreachable (srv nb iph : Z) : UW Y unit :=
  nbrep ← mem_ netbuf_alloc;
  nsz ← mem_ (rd32 (nb + Nb.network_size));
  m ← mem_ (membuf_alloc (u32 (nsz + 8)) 0);
  mem_ (wr32 (nbrep + Nb.application_membuf) m);;
  a ← mem_ (rd32 (nbrep + Nb.application_membuf));
  mem_ (wr32 (nbrep + Nb.application) a);;
  mem_ (wr32 (nbrep + Nb.application_size) (u32 (nsz + 8)));;
  iphc ← mem_ (rd32 (nbrep + Nb.application));
  mem_ (memcpy iphc iph nsz);;
  t ← mem_ (rd32 (nb + Nb.transport));
  mem_ (memcpy (iphc + Ih.sizeof) t 8);;
  src_addr ← mem_ (rd32 (iph + Ih.src_addr));
  icmp_send_netbuf ids_send src_addr 0x03 0x03 (mret 0) nbrep;;
  deref_ srv;;
  deref_ nbrep.

Definition udp_recv_netbuf (ic : ip_client) (nb : Z) : UW Y unit :=
  iph ← mem_ (rd32 (nb + Nb.network));
  udh ← mem_ (rd32 (nb + Nb.transport));
  mem_ (wr32 (nb + Nb.application) (udh + Uh.sizeof));;
  tsz ← mem_ (rd32 (nb + Nb.transport_size));
  mem_ (wr32 (nb + Nb.application_size) (u32 (tsz - Uh.sizeof)));;
  mem_ (wr32 (nb + Nb.transport_size) Uh.sizeof);;
  cs ← mem_ (rd16 (udh + Uh.csum));
  addr ← get_ii ii_addr;
  src_addr ← mem_ (rd32 (iph + Ih.src_addr));
  len ← mem_ (rd16 (udh + Uh.len));
  let c := ipcsum_pseudo_partial (hton32 addr) src_addr 0x11 len in
  t ← mem_ (rd32 (nb + Nb.transport));
  tsz ← mem_ (rd32 (nb + Nb.transport_size));
  c ← mem_ (csum_partial c t tsz);
  a ← mem_ (rd32 (nb + Nb.application));
  asz ← mem_ (rd32 (nb + Nb.application_size));
  c ← mem_ (Ip.csum c a asz);
  if negb (cs =? 0) && negb (c =? 0) then mret tt
  else
    lock_ui;;
    l ← get_ui ui_client_list;
    port ← mem_ (rd16 (udh + Uh.dest_port));
    match find_port (hton16 port) l with
    | Some uc =>
      mem_ (membuf_ref (uc_self uc));;
      unlock_ui;;
      uc_recv uc nb;;
      deref_ (uc_self uc)
    | None =>
      srv ← get_ui ui_server;
      mem_ (membuf_ref srv);;
      unlock_ui;;
      udp_unreachable srv nb iph
    end.

(** The header fields but for the checksum. *)
Definition udp_header_fields (udh dest_port src_port len : Z) : P unit :=
  wr16 (udh + Uh.dest_port) dest_port;;
  wr16 (udh + Uh.src_port) (hton16 src_port);;
  wr16 (udh + Uh.len) (hton16 len);;
  wr16 (udh + Uh.csum) 0.

Definition udp_send_netbuf (us : udp_server) (dest_addr dest_port nb : Z) : UW Y unit :=
  m ← mem_ (membuf_alloc Uh.sizeof 0);
  mem_ (wr32 (nb + Nb.transport_membuf) m);;
  t ← mem_ (rd32 (nb + Nb.transport_membuf));
  mem_ (wr32 (nb + Nb.transport) t);;
  mem_ (wr32 (nb + Nb.transport_size) Uh.sizeof);;
  udh ← mem_ (rd32 (nb + Nb.transport));
  tsz ← mem_ (rd32 (nb + Nb.transport_size));
  asz ← mem_ (rd32 (nb + Nb.application_size));
  mem_ (udp_header_fields udh dest_port (us_port us) (u16 (tsz + asz)));;
  lock_ui;;
  srv ← get_ui ui_server;
  mem_ (membuf_ref srv);;
  unlock_ui;;
  addr ← get_ii ii_addr;
  len ← mem_ (rd16 (udh + Uh.len));
  let c := ipcsum_pseudo_partial (hton32 addr) dest_addr 0x11 len in
  c ← mem_ (csum_partial c udh Uh.sizeof);
  a ← mem_ (rd32 (nb + Nb.application));
  asz ← mem_ (rd32 (nb + Nb.application_size));
  c ← mem_ (Ip.csum c a asz);
  mem_ (wr16 (udh + Uh.csum) c);;
  ip_send_netbuf ids_send dest_addr 0x11 nb;;
  deref_ srv.
End calls.

(** ** Clients *)

(** The copies of the clients from the list, at most [max]. *)
Definition udp_dump_stats {Y} (max : nat) : UW Y (list udp_client) :=
  lock_ui;;
  l ← get_ui ui_client_list;
  unlock_ui;;
  mret (take max l).

Definition sizeof_udp_server : Z := 12.
Definition sizeof_udp_client : Z := 20.
Definition sizeof_udp_instance : Z := 32.

Definition udp_server_alloc {Y} : UW Y Z := mem_ (membuf_alloc sizeof_udp_server 0).

(** The port is filled in by the caller. *)
Definition udp_client_alloc {Y} (port : Z) : UW Y udp_client :=
  uc ← mem_ (membuf_alloc sizeof_udp_client 0);
  mret (Udp_client_ uc 0 port).

Definition udp_instance_ref {Y} : UW Y unit := self ← get_ui ui_self; mem_ (membuf_ref self).
Definition udp_instance_deref {Y} : UW Y unit := self ← get_ui ui_self; deref_ self.

(** [None] for [NULL]. *)
Definition udp_client_attach {Y} (uc : udp_client) : UW Y (option udp_server) :=
  lock_ui;;
  l ← get_ui ui_client_list;
  match find_port (uc_port uc) l with
  | Some _ => unlock_ui;; mret None
  | None =>
    us ← udp_server_alloc;
    udp_instance_ref;;
    mod_ui (fun u => u <| ui_client_list := (uc <| uc_server := us |>) :: ui_client_list u |>);;
    mem_ (membuf_ref (uc_self uc));;
    unlock_ui;;
    mret (Some (Udp_server_ us (uc_port uc)))
  end.

Fixpoint unlink_udp_client (us : Z) (l : list udp_client) : option (udp_client * list udp_client) :=
  match l with
  | [] => None
  | uc :: l =>
    if uc_server uc =? us then Some (uc, l)
    else '(c, l) ← unlink_udp_client us l; Some (c, uc :: l)
  end.

Definition udp_client_detach {Y} (us : Z) : UW Y unit :=
  lock_ui;;
  l ← get_ui ui_client_list;
  match unlink_udp_client us l with
  | Some (uc, l) =>
    mod_ui (fun u => u <| ui_client_list := l |>);;
    deref_ (uc_self uc);;
    udp_instance_deref;;
    deref_ us
  | None => mret tt
  end;;
  unlock_ui.

Definition udp_instance_alloc {Y} : UW Y Z :=
  ui ← mem_ (membuf_alloc sizeof_udp_instance 0);
  mod_ui (fun _ => Udp_instance_ ui false [] 0);;
  ic ← ip_client_alloc 0x11 false;
  udp_instance_ref;;
  srv ← ip_client_attach ic;
  mod_ui (fun u => u <| ui_server := srv |>);;
  ip_client_deref ic;;
  mret ui.

(** ** The checksum *)

Definition udp_csum (s d len : Z) (h a : list Z) : Z :=
  ipcsum (ipcsum_partial (ipcsum_pseudo_partial s d 0x11 len) (list_buf h) Uh.sizeof) (list_buf a) (Z.of_nat (length a)).

(** Ports and length as they are in memory: [sport] and [len] in host order, [dport]
    in network order. *)
Definition udp_header_with (c sport dport len : Z) : list Z := be16 sport ++ le16 dport ++ be16 len ++ le16 c.

(** The header with its checksum, from host [s] to host [d] (network order). *)
Definition udp_header (s d sport dport : Z) (a : list Z) : list Z :=
  let len := Uh.sizeof + Z.of_nat (length a) in
  udp_header_with (udp_csum s d (hton16 len) (udp_header_with 0 sport dport len) a) sport dport len.

Lemma pseudo_hdr_ok s d pr len : bytes_ok (pseudo_hdr s d pr len).
Proof.
  apply (nth_bytes_ok [u8 s; u8 (s / 2 ^ 8); u8 (s / 2 ^ 16); u8 (s / 2 ^ 24);
    u8 d; u8 (d / 2 ^ 8); u8 (d / 2 ^ 16); u8 (d / 2 ^ 24); 0; u8 pr; u8 len; u8 (len / 2 ^ 8)]). repeat (apply Forall_cons; split; [apply u8_range || lia|]). done.
Qed.

(** The sum does not depend on the order of the addresses. *)
Lemma pseudo_sum_comm s d pr len : byte_sum (pseudo_hdr s d pr len) 12 = byte_sum (pseudo_hdr d s pr len) 12.
Proof.
  assert (H : forall a b c d e f g h i j k l : Z, byte_sum (fun n => nth (Z.to_nat n) [a; b; c; d; e; f; g; h; i; j; k; l] 0) 12
    = a + 2 ^ 8 * b + (c + 2 ^ 8 * d + (e + 2 ^ 8 * f + (g + 2 ^ 8 * h + (i + 2 ^ 8 * j + (k + 2 ^ 8 * l + 0))))) + 0) by reflexivity.
  unfold pseudo_hdr. rewrite !H. lia.
Qed.

Lemma pseudo_partial_ones s d pr len :
  ipcsum_pseudo_partial s d pr len = ones (byte_sum (pseudo_hdr s d pr len) 12)
  /\ 0 <= byte_sum (pseudo_hdr s d pr len) 12.
Proof.
  split; [|apply byte_sum_nonneg, pseudo_hdr_ok]. unfold ipcsum_pseudo_partial.
  rewrite ipcsum_partial_ones; [done|apply pseudo_hdr_ok|lia|lia].
Qed.

Lemma udp_csum_ones s d len h a :
  bytes_ok (list_buf h) -> bytes_ok (list_buf a) ->
  udp_csum s d len h a = 0xffff - ones (byte_sum (pseudo_hdr s d 0x11 len) 12 + byte_sum (list_buf h) Uh.sizeof
                                        + byte_sum (list_buf a) (Z.of_nat (length a))).
Proof.
  intros Hh Ha. unfold udp_csum. destruct (pseudo_partial_ones s d 0x11 len) as [-> Hp].
  pose proof (byte_sum_nonneg _ Uh.sizeof Hh). pose proof (byte_sum_nonneg _ (Z.of_nat (length a)) Ha).
  rewrite ipcsum_partial_ones by (try apply ones_range; auto; by cbv). rewrite ones_add by lia.
  rewrite ipcsum_ones by (try apply ones_range; auto; lia). by rewrite ones_add by lia.
Qed.

Lemma udp_header_with_ok c sport dport len :
  0 <= c < 2 ^ 16 -> 0 <= sport < 2 ^ 16 -> 0 <= dport < 2 ^ 16 -> 0 <= len < 2 ^ 16 ->
  Forall (fun b => 0 <= b < 2 ^ 8) (udp_header_with c sport dport len).
Proof.
  intros Hc Hs Hd Hl. pose proof (fun y => Z.mod_pos_bound y (2 ^ 8) eq_refl) as Hb.
  assert (H16 : forall v, 0 <= v < 2 ^ 16 -> 0 <= v / 2 ^ 8 < 2 ^ 8) by (intros v ?; Z.div_mod_to_equations; lia).
  unfold udp_header_with, be16, le16. cbn [app]. repeat (apply Forall_cons; split; [auto|]). done.
Qed.

Lemma udp_header_put c sport dport len j :
  0 <= c < 2 ^ 16 -> 0 <= j < Uh.sizeof ->
  list_buf (udp_header_with c sport dport len) j = put16 Uh.csum c (list_buf (udp_header_with 0 sport dport len)) j.
Proof.
  intros Hc Hj. unfold put16, Uh.csum, Uh.sizeof in *.
  destruct (Z.eqb_spec j 6) as [->|]; [reflexivity|]. destruct (Z.eqb_spec j (6 + 1)) as [->|].
  { transitivity (c / 2 ^ 8); [reflexivity|]. symmetry. apply u8_small. Z.div_mod_to_equations. lia. }
  assert (exists k, j = Z.of_nat k) as [k ->] by (exists (Z.to_nat j); lia). unfold list_buf. rewrite Nat2Z.id.
  do 8 (destruct k as [|k]; [reflexivity || lia|]). lia.
Qed.

Lemma byte_sum_ext b b' n : 0 <= n -> (forall j, 0 <= j < n -> b j = b' j) -> byte_sum b n = byte_sum b' n.
Proof.
  intros Hn H. unfold byte_sum. f_equal; [apply word_sum_ext; intros j Hj; apply H; Z.div_mod_to_equations; lia|].
  destruct (Z.odd n) eqn:Ho; [|done]. apply H. destruct (decide (n = 0)) as [->|]; [done|lia].
Qed.

(** A receiver that swaps the addresses accepts the checksum of the sender. *)
Lemma udp_csum_verifies s d sport dport a :
  let len := Uh.sizeof + Z.of_nat (length a) in
  0 <= sport < 2 ^ 16 -> 0 <= dport < 2 ^ 16 -> len < 2 ^ 16 -> bytes_ok (list_buf a) ->
  0 <= udp_csum s d (hton16 len) (udp_header_with 0 sport dport len) a < 2 ^ 16
  /\ udp_csum d s (hton16 len) (udp_header s d sport dport a) a = 0.
Proof.
  intros len Hs Hd Hl Ha. assert (Hlen0 : 0 <= len) by (unfold len, Uh.sizeof; lia).
  assert (H0 : bytes_ok (list_buf (udp_header_with 0 sport dport len))) by (apply nth_bytes_ok, udp_header_with_ok; lia).
  unfold udp_header. fold len. set (c := udp_csum s d _ _ a).
  pose proof (udp_csum_ones s d (hton16 len) _ a H0 Ha) as Ec. fold c in Ec.
  set (P := byte_sum (pseudo_hdr s d 0x11 (hton16 len)) 12) in *. set (HS := byte_sum (list_buf (udp_header_with 0 _ _ _)) _) in *.
  set (D := byte_sum (list_buf a) _) in *.
  assert (0 <= P) by (apply byte_sum_nonneg, pseudo_hdr_ok). assert (0 <= HS) by by apply byte_sum_nonneg.
  assert (0 <= D) by by apply byte_sum_nonneg. pose proof (ones_range (P + HS + D) ltac:(lia)).
  assert (Hc : 0 <= c < 2 ^ 16) by lia. split; [done|].
  rewrite udp_csum_ones; [|by apply nth_bytes_ok, udp_header_with_ok|done]. rewrite pseudo_sum_comm. fold P D.
  assert (E : byte_sum (list_buf (udp_header_with c sport dport len)) Uh.sizeof = HS + c).
  { rewrite (byte_sum_ext _ (put16 Uh.csum c (list_buf (udp_header_with 0 sport dport len))));
      [|by cbv|intros j Hj; by apply udp_header_put].
    by rewrite byte_sum_put by (done || by cbv). }
  rewrite E. replace (P + (HS + c) + D) with (P + HS + D + c) by lia. rewrite <-ones_add by lia. rewrite Ec.
  replace (ones (P + HS + D) + (0xffff - ones (P + HS + D))) with 0xffff by lia. reflexivity.
Qed.

(** ** The header in memory *)

Definition udp_header_mem (udh dport sport len : Z) (m : mem) : mem :=
  store16 (store16 (store16 (store16 m (udh + Uh.dest_port) dport) (udh + Uh.src_port) (hton16 sport))
    (udh + Uh.len) (hton16 len)) (udh + Uh.csum) 0.

Lemma udp_header_fields_run udh dport sport len p :
  udp_header_fields udh dport sport len p = Ok (tt, with_mem (udp_header_mem udh dport sport len) p).
Proof. reflexivity. Qed.

Ltac uho := unfold Uh.dest_port, Uh.src_port, Uh.len, Uh.csum, Uh.sizeof in *; lia.

Lemma udp_header_mem_other udh dport sport len m y :
  ~ udh <= y < udh + Uh.sizeof -> load8 (udp_header_mem udh dport sport len m) y = load8 m y.
Proof. intros H. unfold udp_header_mem. by rewrite !load8_store16_ne by uho. Qed.

Lemma udp_header_mem_bytes udh dport sport len m :
  0 <= dport < 2 ^ 16 -> 0 <= sport < 2 ^ 16 -> 0 <= len < 2 ^ 16 ->
  bytes_at (udp_header_mem udh dport sport len m) udh Uh.sizeof = udp_header_with 0 sport dport len.
Proof.
  intros Hd Hs Hl. destruct (hton16_bytes sport Hs) as [S1 S2]. destruct (hton16_bytes len Hl) as [L1 L2].
  unfold bytes_at. change (seqZ 0 Uh.sizeof) with [0; 1; 2; 3; 4; 5; 6; 7].
  unfold udp_header_mem, udp_header_with, be16, le16, Uh.dest_port, Uh.src_port, Uh.len, Uh.csum. cbn [fmap list_fmap app].
  repeat apply f_equal2; try reflexivity; unfold store16; mem_at; try done.
  apply u8_small. Z.div_mod_to_equations. lia.
Qed.

Lemma udp_header_csum m udh c sport dport len :
  0 <= c < 2 ^ 16 -> bytes_at m udh Uh.sizeof = udp_header_with 0 sport dport len ->
  bytes_at (store16 m (udh + Uh.csum) c) udh Uh.sizeof = udp_header_with c sport dport len.
Proof.
  intros Hc H. unfold bytes_at in *. change (seqZ 0 Uh.sizeof) with [0; 1; 2; 3; 4; 5; 6; 7] in *.
  unfold udp_header_with, be16, le16, Uh.csum in *. cbn [fmap list_fmap app] in *.
  injection H as ? ? ? ? ? ? ? ?. repeat apply f_equal2; try reflexivity; unfold store16; mem_at; try done.
  apply u8_small. Z.div_mod_to_equations. lia.
Qed.

(** The fields of a header in memory. *)
Lemma udp_header_reads m udh c sport dport len :
  0 <= c < 2 ^ 16 -> 0 <= sport < 2 ^ 16 -> 0 <= dport < 2 ^ 16 -> 0 <= len < 2 ^ 16 ->
  bytes_at m udh Uh.sizeof = udp_header_with c sport dport len ->
  load16 m (udh + Uh.len) = hton16 len /\ load16 m (udh + Uh.dest_port) = dport /\ load16 m (udh + Uh.csum) = c.
Proof.
  intros Hc Hs Hd Hl H. unfold bytes_at in H. change (seqZ 0 Uh.sizeof) with [0; 1; 2; 3; 4; 5; 6; 7] in H.
  unfold udp_header_with, be16, le16 in H. cbn [fmap list_fmap app] in H. injection H as E0 E1 E2 E3 E4 E5 E6 E7.
  unfold load16, Uh.len, Uh.dest_port, Uh.csum. rewrite <-!(Z.add_assoc udh).
  change (4 + 1) with 5. change (2 + 1) with 3. change (6 + 1) with 7. rewrite E2, E3, E4, E5, E6, E7.
  split_and!; [unfold hton16, xchgb|..]; Z.div_mod_to_equations; lia.
Qed.

(** ** Steps on the UDP instance *)

Lemma u_get {Y A B} p i u (y : Y) (g : udp_instance -> A) (f : A -> UW Y B) :
  (get_ui g ≫= f) (World_ p i (Udp_net_ u y)) = f (g u) (World_ p i (Udp_net_ u y)).
Proof. reflexivity. Qed.

Lemma u_lock {Y B} p i u (y : Y) (f : unit -> UW Y B) :
  ui_lock u = false -> (lock_ui ≫= f) (World_ p i (Udp_net_ u y)) = f tt (World_ p i (Udp_net_ (u <| ui_lock := true |>) y)).
Proof. intros H. apply st_run. unfold lock_ui. rewrite u_get, H. reflexivity. Qed.

Lemma u_unlock {Y B} p i u (y : Y) (f : unit -> UW Y B) :
  ui_lock u = false -> (unlock_ui ≫= f) (World_ p i (Udp_net_ (u <| ui_lock := true |>) y)) = f tt (World_ p i (Udp_net_ u y)).
Proof. intros H. apply st_run. unfold unlock_ui. rewrite u_get. destruct u; cbn in *. by rewrite H. Qed.

(** ** [udp_send_netbuf] *)

Record udp_sendable (p : pool) (bs : list hole) (A : counts) (i : ip_instance) (u : udp_instance) (nb : Z) : Prop := {
  us_tracks : tracks p bs A;
  us_ilock : ii_lock i = false;
  us_ulock : ui_lock u = false;
  us_netbuf : is_Some (A !! nb);
  us_sizeof : buffer_of bs nb Nb.sizeof;
  us_idl : exists r f, A !! ii_server i = Some (r, f) /\ r + 2 < 2 ^ 32;
  us_ips : exists r f, A !! ui_server u = Some (r, f) /\ r + 2 < 2 ^ 32;
  us_addr : 0 <= ii_addr i < 2 ^ 32;
  us_ident : 0 <= ii_pkt_ident i < 2 ^ 16;
  us_application : data_in (delete nb A) bs (load32 (p_mem p) (nb + Nb.application)) (load32 (p_mem p) (nb + Nb.application_size));
  us_len : Ih.sizeof + Uh.sizeof + load32 (p_mem p) (nb + Nb.application_size) < 2 ^ 16 }.

Lemma data_in_mono A A' bs a n :
  (forall b, is_Some (A !! b) -> is_Some (A' !! b)) -> data_in A bs a n -> data_in A' bs a n.
Proof. intros H [?|(? & b & k & Hb & ?)]; [by left|right]. split; [done|]. exists b, k. split; auto. Qed.

Lemma ipcsum_partial_at c m a n : 0 <= n -> ipcsum_partial c (bytes_from m a) n = ipcsum_partial c (list_buf (bytes_at m a n)) n.
Proof. intros H. apply ipcsum_partial_ext; [done|]. intros j Hj. by rewrite list_buf_at. Qed.

Section send.
Context {Y : Type} (ids_send : Z -> Z -> UW Y unit) (p : pool) (bs : list hole) (A : counts) (i : ip_instance)
  (u : udp_instance) (rest : Y) (us : udp_server) (nb dest dport : Z).
Context (Hok : udp_sendable p bs A i u nb) (Hport : 0 <= us_port us < 2 ^ 16) (Hdport : 0 <= dport < 2 ^ 16).
Abbreviation data := (bytes_at (p_mem p) (load32 (p_mem p) (nb + Nb.application)) (load32 (p_mem p) (nb + Nb.application_size))).

(** The netbuf has its UDP header and is ready for IP. *)
Record udp_built (p' : pool) (bs' : list hole) (A' : counts) : Prop := {
  ub_sendable : sendable p' bs' A' i nb;
  ub_keeps : keeps (delete nb A) bs bs' p p';
  ub_more : forall b, is_Some (A !! b) -> is_Some (A' !! b);
  ub_server : exists r f, A !! ui_server u = Some (r, f) /\ A' !! ui_server u = Some (r + 1, f);
  ub_view : (nb_view (p_mem p') nb).1.2 = udp_header (hton32 (ii_addr i)) dest (us_port us) dport data
    /\ (nb_view (p_mem p') nb).2 = data }.

Lemma udp_send_netbuf_run :
  udp_send_netbuf ids_send us dest dport nb (World_ p i (Udp_net_ u rest)) = Stop "heap_alloc: NULL pointer"
  \/ exists p' bs' A',
       udp_send_netbuf ids_send us dest dport nb (World_ p i (Udp_net_ u rest))
       = (ip_send_netbuf ids_send dest 0x11 nb;; deref_ (ui_server u)) (World_ p' i (Udp_net_ u rest))
       /\ udp_built p' bs' A'.
Proof.
  destruct Hok as [Ht Hil Hul Hnb Hb Hidl (ru & fu & Hu & Hru) Haddr Hid Had Hlen].
  unfold udp_send_netbuf.
  destruct (add_layer_run Nb.transport_membuf Uh.sizeof p i (Udp_net_ u rest) bs A nb) as [He|(udh & p2 & bs1 & He & Hla)];
    [done|eauto|done|by cbv|by cbv|by cbv|left; apply He|right].
  fold_layer Nb.transport_membuf Uh.sizeof. rewrite He. clear He.
  destruct Hla as [Hfr' Hbi Hb1 Ht2 Hk2 (Hf1 & Hf2 & Hf3) Hw].
  change (Nb.transport_membuf + 4) with Nb.transport in Hf2. change (Nb.transport_membuf + 8) with Nb.transport_size in Hf3.
  assert (Hfr : A !! udh = None) by (destruct (A !! udh) eqn:E; [by destruct (Hfr' udh); [rewrite E; eauto|]|done]).
  rewrite !w_rd32, Hf3, !Hw by nbo.
  set (asz := load32 (p_mem p) (nb + Nb.application_size)) in *. set (app := load32 (p_mem p) (nb + Nb.application)) in *.
  pose proof (load32_range (p_mem p) (nb + Nb.application_size)) as Ra. fold asz in Ra.
  rewrite u16_small by (unfold Ih.sizeof, Uh.sizeof in *; lia). set (len := Uh.sizeof + asz) in *.
  assert (Hlen' : 0 <= len < 2 ^ 16) by (unfold len, Ih.sizeof, Uh.sizeof in *; lia).
  (* the header *)
  assert (Hudh : is_Some (<[udh := (1, 0)]> A !! udh)) by (rewrite lookup_insert_eq; eauto).
  set (hm := udp_header_mem udh dport (us_port us) len).
  destruct (tracks_write p2 bs1 _ udh Uh.sizeof hm Ht2 Hudh Hbi) as [Ht3 Hk3].
  { intros y Hy. by apply udp_header_mem_other. }
  erewrite w_mem by apply udp_header_fields_run. fold hm. set (p3 := with_mem hm p2) in *.
  rewrite delete_insert_id in Hk3 by done.
  assert (Hh3 : bytes_at (p_mem p3) udh Uh.sizeof = udp_header_with 0 (us_port us) dport len) by by apply udp_header_mem_bytes.
  (* the reference to the server *)
  destruct (tracks_ref p3 bs1 _ (ui_server u) ru fu Ht3) as (p4 & He4 & Ht4 & Hk4);
    [rewrite lookup_insert_ne by (symmetry; apply Hfr'; eauto); done|lia|].
  rewrite u_lock by done. rewrite u_get. rewrite (w_mem _ _ _ _ _ _ _ He4). rewrite u_unlock by done. rewrite w_get, w_rd16.
  destruct (proj2 Hk4 udh Uh.sizeof Hudh Hbi) as [_ Hd4].
  assert (Hh4 : bytes_at (p_mem p4) udh Uh.sizeof = udp_header_with 0 (us_port us) dport len)
    by (rewrite <-Hh3; by apply bytes_at_ext).
  destruct (udp_header_reads _ _ 0 _ _ _ ltac:(lia) Hport Hdport Hlen' Hh4) as (El & _ & _). rewrite El.
  cbv zeta. rewrite w_csum_partial, !w_rd32, w_csum.
  (* what is kept from where *)
  assert (Hk14 : keeps A bs1 bs1 p2 p4).
  { eapply keeps_trans; [exact Hk3|]. eapply keeps_sub; [|exact Hk4]. intros d Hd.
    rewrite lookup_insert_ne by (symmetry; by apply Hfr'). done. }
  assert (Hw4 : forall o, 0 <= o -> o + 4 <= Nb.sizeof -> load32 (p_mem p4) (nb + o) = load32 (p_mem p2) (nb + o)).
  { intros o H0 H1. eapply keeps_field; eauto. }
  rewrite !Hw4, !Hw by nbo. fold app asz.
  assert (Hk04 : keeps (delete nb A) bs bs1 p p4).
  { eapply keeps_trans; [exact Hk2|]. eapply keeps_sub; [|exact Hk14]. intros d [v [_ Hd]%lookup_delete_Some]. eauto. }
  destruct (keeps_data _ _ _ _ _ _ _ Hk04 Had) as [Hdata4 _].
  rewrite (u16_small Uh.sizeof), (u16_small asz) by (unfold Uh.sizeof, Ih.sizeof in *; lia).
  rewrite ipcsum_at, ipcsum_partial_at, Hh4, Hdata4 by (lia || by cbv).
  set (a := bytes_at (p_mem p) app asz). assert (Ha : Z.of_nat (length a) = asz) by (apply bytes_at_length; lia).
  assert (El' : len = Uh.sizeof + Z.of_nat (length a)) by (unfold len; lia).
  set (c := udp_csum (hton32 (ii_addr i)) dest (hton16 len) (udp_header_with 0 (us_port us) dport len) a).
  replace (ipcsum _ (list_buf a) asz) with c by (unfold c, udp_csum; by rewrite Ha). rewrite w_wr16.
  assert (Hc : 0 <= c < 2 ^ 16).
  { unfold c. rewrite El'. eapply (udp_csum_verifies (hton32 (ii_addr i)) dest (us_port us) dport a); auto; [lia|].
    apply nth_bytes_ok. apply Forall_fmap, Forall_forall. intros y _. apply load8_range. }
  set (A' := <[ui_server u := (ru + 1, fu)]> (<[udh := (1, 0)]> A)) in *.
  assert (HA' : forall b, is_Some (A !! b) -> is_Some (A' !! b)).
  { intros b Hbs. unfold A'. rewrite lookup_insert_is_Some. destruct (decide (ui_server u = b)); [by left|right].
    split; [done|]. rewrite lookup_insert_ne by (symmetry; by apply Hfr'). done. }
  assert (Hudh' : is_Some (A' !! udh)).
  { unfold A'. rewrite lookup_insert_ne by (apply Hfr'; eauto). by rewrite lookup_insert_eq. }
  destruct (tracks_write p4 bs1 A' udh Uh.sizeof (fun m => store16 m (udh + Uh.csum) c) Ht4 Hudh' Hbi) as [Ht5 Hk5].
  { intros y Hy. apply load8_store16_ne. uho. }
  set (p5 := with_mem _ p4) in *. exists p5, bs1, A'. split; [reflexivity|].
  assert (Hk5' : keeps A bs1 bs1 p4 p5).
  { eapply keeps_sub; [|exact Hk5]. intros d Hd. rewrite lookup_delete_ne by (symmetry; by apply Hfr'). by apply HA'. }
  assert (Hk05 : keeps (delete nb A) bs bs1 p p5).
  { eapply keeps_trans; [exact Hk04|]. eapply keeps_sub; [|exact Hk5']. intros d [v [_ Hv]%lookup_delete_Some]. eauto. }
  assert (Hw5 : forall o, 0 <= o -> o + 4 <= Nb.sizeof -> load32 (p_mem p5) (nb + o) = load32 (p_mem p2) (nb + o)).
  { intros o H0 H1. rewrite <-Hw4 by done. eapply keeps_field; eauto. }
  destruct (keeps_data _ _ _ _ _ _ _ Hk05 Had) as [Hdata5 Had5].
  assert (Hsub : forall b, is_Some (delete nb A !! b) -> is_Some (delete nb A' !! b)).
  { intros b [v [Hne Hv]%lookup_delete_Some]. rewrite lookup_delete_ne by done. apply HA'. eauto. }
  assert (T5 : load32 (p_mem p5) (nb + Nb.transport) = udh) by (rewrite Hw5 by nbo; exact Hf2).
  assert (S5 : load32 (p_mem p5) (nb + Nb.transport_size) = Uh.sizeof) by (rewrite Hw5 by nbo; exact Hf3).
  assert (A5 : load32 (p_mem p5) (nb + Nb.application) = app) by (by rewrite Hw5, Hw by nbo).
  assert (Z5 : load32 (p_mem p5) (nb + Nb.application_size) = asz) by (by rewrite Hw5, Hw by nbo).
  split; [split| | | |]; auto.
  - destruct Hidl as (r & f & Hr & ?). destruct (decide (ui_server u = ii_server i)) as [E|E].
    + exists (ru + 1), fu. unfold A'. rewrite E, lookup_insert_eq. split; [done|lia].
    + exists r, f. unfold A'. rewrite lookup_insert_ne, lookup_insert_ne by (done || symmetry; apply Hfr'; eauto). split; [done|lia].
  - rewrite T5, S5. right. split; [by cbv|]. exists udh, Uh.sizeof. split_and!; [|done|lia|lia].
    rewrite lookup_delete_ne by by apply Hfr'. done.
  - rewrite A5, Z5. by eapply data_in_mono.
  - rewrite S5, Z5. unfold Ih.sizeof, Uh.sizeof in *. lia.
  - exists ru, fu. split; [done|]. unfold A'. by rewrite lookup_insert_eq.
  - unfold nb_view. cbn [fst snd]. rewrite T5, S5, A5, Z5. split; [|done].
    unfold p5. rewrite p_mem_with. unfold udp_header. fold app asz a. rewrite <-El'. fold c. by apply udp_header_csum.
Qed.
End send.

(** C34: sending a datagram.  [udp_send_netbuf] either halts for lack of memory or
    makes the datalink send exactly once, and what it sends is an IP packet of
    protocol 0x11 whose payload is a UDP header with both ports, the length and
    the checksum over pseudo header, header and data, followed by the data of the
    application, unchanged. *)
Theorem udp_send_builds_datagram {Y} (ids_send : Z -> Z -> UW Y unit) p bs A i u (rest : Y) us nb dest dport :
  udp_sendable p bs A i u nb -> 0 <= us_port us < 2 ^ 16 -> 0 <= dport < 2 ^ 16 -> 0 <= dest < 2 ^ 32 ->
  let a := (nb_view (p_mem p) nb).2 in
  let h := udp_header (hton32 (ii_addr i)) dest (us_port us) dport a in
  udp_send_netbuf ids_send us dest dport nb (World_ p i (Udp_net_ u rest)) = Stop "heap_alloc: NULL pointer"
  \/ exists p',
       udp_send_netbuf ids_send us dest dport nb (World_ p i (Udp_net_ u rest))
       = ((ids_send (ii_server i) nb;; deref_ (ii_server i));; deref_ (ui_server u))
           (World_ p' (i <| ii_pkt_ident := u16 (ii_pkt_ident i + 1) |>) (Udp_net_ u rest))
       /\ nb_view (p_mem p') nb
          = (ip_header (ii_addr i) dest 0x11 (ii_pkt_ident i) (Ih.sizeof + Z.of_nat (length h) + Z.of_nat (length a)), h, a).
Proof.
  intros Hok Hport Hdport Hdest a h.
  destruct (udp_send_netbuf_run ids_send p bs A i u rest us nb dest dport Hok Hport Hdport)
    as [?|(p1 & bs1 & A1 & He & [Hs _ _ _ [Hv1 Hv2]])]; [by left|]. rewrite He.
  change (bytes_at (p_mem p) _ _) with a in Hv1, Hv2. fold h in Hv1.
  destruct (issue_sendable ids_send p1 bs1 A1 i (Udp_net_ u rest) nb dest 0x11 Hs Hdest) as [Hstop|(p2 & bs2 & iph & He2 & Hi2)];
    [lia|left; by apply st_stop|right]. exists p2. split.
  - unfold ip_send_netbuf. unfold mbind at 1 3, ST_bind at 1 3. by rewrite He2.
  - rewrite (is_view _ _ _ _ _ _ _ _ _ _ Hi2). destruct (nb_view (p_mem p1) nb) as [[n t] a1]. cbn in Hv1, Hv2. by subst.
Qed.

(** ** [udp_recv_netbuf] *)

(** The netbuf with the UDP header at [udh] split off. *)
Definition split_udp (nb udh n : Z) (m : mem) : mem :=
  store32 (store32 (store32 m (nb + Nb.application) (udh + Uh.sizeof)) (nb + Nb.application_size) n) (nb + Nb.transport_size) Uh.sizeof.

Lemma split_udp_other nb udh n m y : ~ nb <= y < nb + Nb.sizeof -> load8 (split_udp nb udh n m) y = load8 m y.
Proof. intros H. unfold split_udp. by rewrite !load8_store32_ne by nbo. Qed.

Lemma split_udp_fields nb udh n m :
  0 <= udh + Uh.sizeof < 2 ^ 32 -> 0 <= n < 2 ^ 32 ->
  load32 (split_udp nb udh n m) (nb + Nb.transport) = load32 m (nb + Nb.transport)
  /\ load32 (split_udp nb udh n m) (nb + Nb.transport_size) = Uh.sizeof
  /\ load32 (split_udp nb udh n m) (nb + Nb.application) = udh + Uh.sizeof
  /\ load32 (split_udp nb udh n m) (nb + Nb.application_size) = n.
Proof.
  intros. unfold split_udp. split_and!.
  - by rewrite !load32_store32_ne by nbo.
  - by apply load32_store32.
  - rewrite !load32_store32_ne by nbo. by apply load32_store32.
  - rewrite load32_store32_ne by nbo. by apply load32_store32.
Qed.

Section receive.
Context {Y : Type} (ids_send : Z -> Z -> UW Y unit) (uc_recv : udp_client -> Z -> UW Y unit) (p : pool) (bs : list hole) (A : counts)
  (i : ip_instance) (u : udp_instance) (rest : Y) (ic : ip_client) (nb iph src ident len sport dport : Z) (a : list Z) (uc : udp_client) (r f : Z).
Abbreviation n := (Z.of_nat (length a)).
Abbreviation h := (udp_header (hton32 src) (hton32 (ii_addr i)) sport dport a).
Context (Ht : tracks p bs A) (Hlk : ui_lock u = false) (Hnb : is_Some (A !! nb)) (Hb : buffer_of bs nb Nb.sizeof)
  (Hnet : load32 (p_mem p) (nb + Nb.network) = iph) (Htr : load32 (p_mem p) (nb + Nb.transport) = iph + Ih.sizeof)
  (Hts : load32 (p_mem p) (nb + Nb.transport_size) = Uh.sizeof + n)
  (Hdata : data_in (delete nb A) bs iph (Ih.sizeof + (Uh.sizeof + n)))
  (Hiph : bytes_at (p_mem p) iph Ih.sizeof = ip_header src (hton32 (ii_addr i)) 0x11 ident len)
  (Hudh : bytes_at (p_mem p) (iph + Ih.sizeof) (Uh.sizeof + n) = h ++ a)
  (Hsrc : 0 <= src < 2 ^ 32) (Haddr : 0 <= hton32 (ii_addr i) < 2 ^ 32) (Hid : 0 <= ident < 2 ^ 16) (Hlen : 0 <= len < 2 ^ 16)
  (Hsp : 0 <= sport < 2 ^ 16) (Hdp : 0 <= dport < 2 ^ 16) (Hn : Uh.sizeof + n < 2 ^ 16)
  (Hport : find_port (hton16 dport) (ui_client_list u) = Some uc) (Huc : A !! uc_self uc = Some (r, f)) (Hr : r + 1 < 2 ^ 32).

Lemma udp_recv_netbuf_run :
  exists p', udp_recv_netbuf ids_send uc_recv ic nb (World_ p i (Udp_net_ u rest))
       = (uc_recv uc nb;; deref_ (uc_self uc)) (World_ p' i (Udp_net_ u rest))
    /\ tracks p' bs (<[uc_self uc := (r + 1, f)]> A) /\ keeps (delete nb A) bs bs p p' /\ (nb_view (p_mem p') nb).2 = a.
Proof.
  set (udh := iph + Ih.sizeof) in *.
  assert (Hr32 : 0 <= udh + Uh.sizeof < 2 ^ 32).
  { destruct Hdata as [?|(_ & b & k & _ & Hbuf & ? & ?)]; [unfold Ih.sizeof, Uh.sizeof in *; lia|].
    pose proof (buffer_addr _ _ _ _ _ Ht Hbuf). unfold udh, Ih.sizeof, Uh.sizeof in *. lia. }
  set (sp := split_udp nb udh n).
  destruct (tracks_write p bs A nb Nb.sizeof sp Ht Hnb Hb) as [Ht1 Hk1]; [intros y Hy; by apply split_udp_other|].
  destruct (split_udp_fields nb udh n (p_mem p)) as (F1 & F2 & F3 & F4); [done|unfold Uh.sizeof in *; lia|].
  set (p1 := with_mem sp p) in *. fold sp in F1, F2, F3, F4. change (sp (p_mem p)) with (p_mem p1) in *.
  destruct (keeps_data _ _ _ _ _ _ _ Hk1 Hdata) as [Hsame Hdata1].
  rewrite !bytes_at_app in Hsame by (unfold Ih.sizeof, Uh.sizeof; lia). rewrite Hiph in Hsame.
  apply app_inj_1 in Hsame as [Hi1 Hu1]; [|by rewrite <-Hiph; unfold bytes_at; rewrite !length_fmap].
  fold udh in Hu1. rewrite <-!bytes_at_app in Hu1 by (unfold Uh.sizeof; lia). rewrite Hudh in Hu1.
  apply (bytes_at_app_inv _ _ _ h a) in Hu1 as [Hh1 Ha1]; [|lia]. change (Z.of_nat (length h)) with Uh.sizeof in Hh1, Ha1.
  assert (H11 : 0 <= 0x11 < 2 ^ 8) by lia.
  destruct (header_reads _ _ _ _ _ _ _ Hsrc Haddr H11 Hid Hlen Hi1) as (_ & _ & _ & Esrc & _ & _).
  assert (Hbytes : bytes_ok (list_buf a)).
  { rewrite <-Ha1. apply nth_bytes_ok, Forall_fmap, Forall_forall. intros y _. apply load8_range. }
  destruct (udp_csum_verifies (hton32 src) (hton32 (ii_addr i)) sport dport a Hsp Hdp Hn Hbytes) as [Hc Hver].
  pose proof Hh1 as Hh1'. unfold udp_header in Hh1'. assert (Hn' : 0 <= Uh.sizeof + n < 2 ^ 16) by (unfold Uh.sizeof in *; lia).
  destruct (udp_header_reads _ _ _ _ _ _ Hc Hsp Hdp Hn' Hh1') as (El & Ed & _).
  destruct (tracks_ref p1 bs A _ r f Ht1 Huc Hr) as (p2 & He2 & Ht2 & Hk2).
  exists p2. split_and!; [|done|..].
  - unfold udp_recv_netbuf. rewrite !w_rd32, Hnet, Htr. fold udh. rewrite w_wr32, w_rd32, p_mem_with, load32_store32_ne, Hts by nbo.
    replace (u32 (Uh.sizeof + n - Uh.sizeof)) with n by (rewrite u32_small; unfold Uh.sizeof in *; lia).
    rewrite !w_wr32. change (with_mem _ (with_mem _ (with_mem _ p))) with p1.
    rewrite w_rd16, w_get, w_rd32, Esrc, w_rd16, El. cbv zeta. rewrite !w_rd32, w_csum_partial, !w_rd32, w_csum, F1, F2, F3, F4, Htr.
    fold udh. rewrite (u16_small Uh.sizeof), (u16_small n) by (unfold Uh.sizeof in *; lia).
    rewrite ipcsum_at, ipcsum_partial_at, Hh1, Ha1 by (lia || by cbv).
    fold (udp_csum (hton32 (ii_addr i)) (hton32 src) (hton16 (Uh.sizeof + n)) h a). rewrite Hver.
    change (negb (0 =? 0)) with false. rewrite andb_false_r. rewrite u_lock, u_get, w_rd16, Ed by done.
    change (ui_client_list (u <| ui_lock := true |>)) with (ui_client_list u). rewrite Hport. cbv match.
    by rewrite (w_mem _ _ _ _ _ _ _ He2), u_unlock.
  - eapply keeps_trans; [exact Hk1|]. eapply keeps_sub; [|exact Hk2]. intros d [v [_ Hv]%lookup_delete_Some]. eauto.
  - assert (Hw : forall o, 0 <= o -> o + 4 <= Nb.sizeof -> load32 (p_mem p2) (nb + o) = load32 (p_mem p1) (nb + o)).
    { intros o H0 H1. eapply keeps_field; eauto. }
    unfold nb_view. cbn [snd]. rewrite !Hw, F3, F4 by nbo. rewrite <-Ha1 at 2.
    assert (Hd2 : data_in A bs iph (Ih.sizeof + (Uh.sizeof + n))) by (eapply data_in_mono; [|exact Hdata1]; intros b [v [_ Hv]%lookup_delete_Some]; eauto).
    destruct (keeps_data _ _ _ _ _ _ _ Hk2 Hd2) as [Hs2 _].
    rewrite !bytes_at_app in Hs2 by (unfold Ih.sizeof, Uh.sizeof; lia).
    apply app_inj_1 in Hs2 as [_ Hs2]; [|unfold bytes_at; by rewrite !length_fmap].
    by apply app_inj_1 in Hs2 as [_ Hs2]; [|unfold bytes_at; by rewrite !length_fmap].
Qed.
End receive.

(** C35: receiving a datagram.  A packet as [udp_send_netbuf] makes it, arriving at
    the destination host with a client attached to its destination port, is passed
    through [ip_recv_netbuf] and [udp_recv_netbuf] to that client, exactly once,
    with the locks of both instances free, and the application layer the client
    finds is the data the sender sent; all other live buffers are as they were.
    The checksum test accepts it although sender and receiver sum the addresses
    in opposite order. *)
Theorem udp_recv_delivers {Y} (ids_send : Z -> Z -> UW Y unit) uc_recv ic_recv_icmp icmp_recv
    p bs A i u (rest : Y) nb iph src dest ident sport dport a ic ri fi uc ru fu :
  received p bs A i nb iph src dest 0x11 ident (udp_header (hton32 src) dest sport dport a ++ a) ->
  ui_lock u = false -> 0 <= sport < 2 ^ 16 -> 0 <= dport < 2 ^ 16 -> ii_addr i = hton32 dest ->
  find_client 0x11 (ii_client_list i) = Some ic -> A !! ic_self ic = Some (ri, fi) -> ri + 1 < 2 ^ 32 ->
  find_port (hton16 dport) (ui_client_list u) = Some uc -> A !! uc_self uc = Some (ru, fu) -> ru + 1 < 2 ^ 32 ->
  uc_self uc <> ic_self ic ->
  exists p', ip_recv_netbuf ids_send (udp_recv_netbuf ids_send uc_recv) ic_recv_icmp icmp_recv nb (World_ p i (Udp_net_ u rest))
       = ((uc_recv uc nb;; deref_ (uc_self uc));; ip_client_deref ic) (World_ p' i (Udp_net_ u rest))
    /\ tracks p' bs (<[uc_self uc := (ru + 1, fu)]> (<[ic_self ic := (ri + 1, fi)]> A))
    /\ keeps (delete nb A) bs bs p p' /\ (nb_view (p_mem p') nb).2 = a.
Proof.
  intros Hr Hul Hsp Hdp Ha Hfc Hic Hri Hfp Huc Hru Hne.
  assert (Hd : 0 <= dest < 2 ^ 32) by apply Hr. assert (Ed : hton32 (ii_addr i) = dest) by (rewrite Ha; by apply hton32_involutive).
  destruct (ip_recv_to_client ids_send (udp_recv_netbuf ids_send uc_recv) ic_recv_icmp icmp_recv _ _ _ _ (Udp_net_ u rest) _ _ _ _ _ _ _ ic ri fi
    Hr Ha ltac:(done) Hfc Hic Hri) as (p1 & He1 & Ht1 & Hk1 & F1 & _ & F3 & F4 & Hdata & B1 & B2).
  pose proof Hr as [_ _ Hnb Hb _ Hdata0 _ Hs _ _ Hi Hl]. rewrite length_app, Nat2Z.inj_add in *.
  change (Z.of_nat (length (udp_header (hton32 src) dest sport dport a))) with Uh.sizeof in *.
  rewrite <-Ed in B1, B2, Hd.
  assert (Hsub : forall b, is_Some (delete nb A !! b) -> is_Some (delete nb (<[ic_self ic := (ri + 1, fi)]> A) !! b)).
  { intros b [v [Hn Hv]%lookup_delete_Some]. rewrite lookup_delete_ne, lookup_insert_is_Some by done.
    destruct (decide (ic_self ic = b)); [by left|right; eauto]. }
  destruct (keeps_data _ _ _ _ _ _ _ Hk1 Hdata0) as [_ Hdata1].
  destruct (udp_recv_netbuf_run ids_send uc_recv p1 bs (<[ic_self ic := (ri + 1, fi)]> A) i u rest ic nb iph src ident
    (Ih.sizeof + (Uh.sizeof + Z.of_nat (length a))) sport dport a uc ru fu) as (p2 & He2 & Ht2 & Hk2 & Hv2); auto.
  - rewrite lookup_insert_is_Some. destruct (decide (ic_self ic = nb)); [by left|right; eauto].
  - by eapply data_in_mono.
  - unfold Ih.sizeof, Uh.sizeof in *. lia.
  - unfold Ih.sizeof, Uh.sizeof in *. lia.
  - by rewrite lookup_insert_ne.
  - exists p2. split_and!; auto.
    + rewrite He1. unfold mbind at 1 3, ST_bind at 1 3. by rewrite He2.
    + eapply keeps_trans; [exact Hk1|]. by eapply keeps_sub.
Qed.

(** ** Witnesses *)

Definition net_udp : udp_instance := Udp_instance_ 0x2100 false [Udp_client_ net_buf 0 0x1234] net_srv.

Lemma net_udp_sendable : exists bs, udp_sendable (with_mem net_send_mem net_pool3) bs net_counts net_host net_udp net_nb.
Proof.
  destruct net_sendable as [bs [H1 H2 H3 H4 H5 H6 H7 H8 H9 H10]]. exists bs. split; auto.
  - exists 1, 0. by vm_compute.
  - exists 1, 0. by vm_compute.
Qed.

Lemma udp_send_builds_datagram_witness :
  let p := with_mem net_send_mem net_pool3 in
  let a := (nb_view (p_mem p) net_nb).2 in
  let h := udp_header (hton32 (ii_addr net_host)) 0x0200000a 0x35 0x3412 a in
  udp_send_netbuf (fun _ _ => mret tt) (Udp_server_ 0 0x35) 0x0200000a 0x3412 net_nb (World_ p net_host (Udp_net_ net_udp tt))
    = Stop "heap_alloc: NULL pointer"
  \/ exists p',
       udp_send_netbuf (fun _ _ => mret tt) (Udp_server_ 0 0x35) 0x0200000a 0x3412 net_nb (World_ p net_host (Udp_net_ net_udp tt))
       = (((fun _ _ => mret tt) (ii_server net_host) net_nb;; deref_ (ii_server net_host));; deref_ (ui_server net_udp))
           (World_ p' (net_host <| ii_pkt_ident := u16 (ii_pkt_ident net_host + 1) |>) (Udp_net_ net_udp tt))
       /\ nb_view (p_mem p') net_nb
          = (ip_header (ii_addr net_host) 0x0200000a 0x11 (ii_pkt_ident net_host) (Ih.sizeof + Z.of_nat (length h) + Z.of_nat (length a)), h, a).
Proof.
  destruct net_udp_sendable as [bs Hs].
  apply (udp_send_builds_datagram (fun _ _ => mret tt) (with_mem net_send_mem net_pool3) bs net_counts net_host net_udp tt
    (Udp_server_ 0 0x35) net_nb 0x0200000a 0x3412 Hs); cbn; lia.
Defined.

(** Received: a datagram of three bytes for port 0x1234. *)
Definition net_datagram : list Z := Eval vm_compute in udp_header (hton32 0x0a000002) 0x0100000a 0x35 0x3412 [1; 2; 3] ++ [1; 2; 3].
Definition net_udp_packet : list Z := Eval vm_compute in ip_header 0x0a000002 0x0100000a 0x11 3 31 ++ net_datagram.
Definition net_udp_pool : pool :=
  with_mem (fun m => store32 m (net_nb + Nb.network) net_buf) (with_mem (put_bytes net_buf net_udp_packet) net_pool3).

Lemma net_udp_received : exists bs,
  received net_udp_pool bs net_counts net_host net_nb net_buf 0x0a000002 0x0100000a 0x11 3
    (udp_header (hton32 0x0a000002) 0x0100000a 0x35 0x3412 [1; 2; 3] ++ [1; 2; 3]).
Proof.
  destruct net_pool3_tracks as (bs & Ht & Hnb & Hbuf). exists bs.
  destruct (tracks_write net_pool3 bs net_counts net_buf 40 (put_bytes net_buf net_udp_packet) Ht) as [Ht1 _]; [by eexists|done|..].
  { intros y Hy. apply put_bytes_other. change (Z.of_nat (length net_udp_packet)) with 31. lia. }
  destruct (tracks_write _ bs net_counts net_nb Nb.sizeof (fun m => store32 m (net_nb + Nb.network) net_buf) Ht1) as [Ht2 _]; [by eexists|done|..].
  { intros y Hy. rewrite load8_store32_ne by nbo. done. }
  split; [done|done|by eexists|done|by vm_compute| |by vm_compute|by cbv..].
  right. split; [by cbv|]. exists net_buf, 40. split_and!; [by eexists|done|by cbv|by cbv].
Qed.

Lemma udp_recv_delivers_witness :
  exists bs p', ip_recv_netbuf (fun _ _ => mret tt) (udp_recv_netbuf (fun _ _ => mret tt) (fun _ _ => mret tt)) (fun _ _ => mret tt)
         (fun _ _ => mret tt) net_nb (World_ net_udp_pool net_host (Udp_net_ net_udp tt))
       = (((fun _ _ => mret tt) (Udp_client_ net_buf 0 0x1234) net_nb;; deref_ net_buf);; ip_client_deref (Ip_client_ net_srv 0x11 0 false))
           (World_ p' net_host (Udp_net_ net_udp tt))
    /\ tracks p' bs (<[net_buf := (1 + 1, 0)]> (<[net_srv := (1 + 1, 0)]> net_counts))
    /\ keeps (delete net_nb net_counts) bs bs net_udp_pool p' /\ (nb_view (p_mem p') net_nb).2 = [1; 2; 3].
Proof.
  destruct net_udp_received as [bs Hr]. exists bs.
  apply (udp_recv_delivers (fun _ _ => mret tt) (fun _ _ => mret tt) (fun _ _ => mret tt) (fun _ _ => mret tt)
    net_udp_pool bs net_counts net_host net_udp tt net_nb net_buf 0x0a000002 0x0100000a 3 0x35 0x3412 [1; 2; 3]
    (Ip_client_ net_srv 0x11 0 false) 1 0 (Udp_client_ net_buf 0 0x1234) 1 0 Hr); (by cbv) || lia.
Defined.
