(* ===== verification/Parts.v ===== *)
(** * The parts of a host (interfaces between the network components)

    The state of a host is the memory pool, the IP instance and one further value
    [X] with the instances of the other components.  A component does not fix [X]:
    it asks for a [Part], a way to read and replace its own instance, and for
    [Apart] where it has to know that two parts do not overlap.  The theorems of a
    component are proved against these two interfaces and hold for every host that
    has the parts.

    The file also has the weakest liberal preconditions that the proofs about long
    handlers use: [wlp m Q s] says that [m], started in [s], ends in a state with
    [Q] unless it stops at a debug check. *)

From stdpp Require Import base list gmap fin_maps strings.
From Stdlib Require Import ZArith Lia.
From S2P Require Import Prelude Heap Oneshot Membuf NetbufMem Ip.
Open Scope Z_scope.

(** ** Parts *)

Class Part (X A : Type) := {
  part_get : X -> A;
  part_put : A -> X -> X;
  part_get_put a x : part_get (part_put a x) = a;
  part_put_get x : part_put (part_get x) x = x;
  part_put_put a b x : part_put a (part_put b x) = part_put a x }.

#[export] Hint Mode Part ! ! : typeclass_instances.

Class Apart (X A B : Type) `{PA : Part X A} `{PB : Part X B} := {
  apart_get (b : B) (x : X) : part_get (A:=A) (part_put b x) = part_get x;
  apart_put (a : A) (b : B) (x : X) : part_put a (part_put b x) = part_put b (part_put a x) }.

(** A value is its own only part. *)
#[export] Instance part_self A : Part A A.
Proof. refine {| part_get a := a; part_put a _ := a |}; done. Defined.

(** The two halves of a pair. *)
#[export] Instance part_fst X Y A `{Part X A} : Part (X * Y) A | 10.
Proof.
  refine {| part_get p := part_get p.1; part_put a p := (part_put a p.1, p.2) |}.
  - intros a [? ?]. apply part_get_put.
  - intros [? ?]. cbn. by rewrite part_put_get.
  - intros a b [? ?]. cbn. by rewrite part_put_put.
Defined.

#[export] Instance part_snd X Y A `{Part Y A} : Part (X * Y) A | 20.
Proof.
  refine {| part_get p := part_get p.2; part_put a p := (p.1, part_put a p.2) |}.
  - intros a [? ?]. apply part_get_put.
  - intros [? ?]. cbn. by rewrite part_put_get.
  - intros a b [? ?]. cbn. by rewrite part_put_put.
Defined.

#[export] Instance apart_fst_snd X Y A B `{Part X A} `{Part Y B} :
  Apart (X * Y) A B (PA := part_fst X Y A) (PB := part_snd X Y B).
Proof. split; intros; reflexivity. Qed.

#[export] Instance apart_snd_fst X Y A B `{Part Y A} `{Part X B} :
  Apart (X * Y) A B (PA := part_snd X Y A) (PB := part_fst X Y B).
Proof. split; intros; reflexivity. Qed.

#[export] Instance apart_snd_snd X Y A B `{Part Y A} `{Part Y B} `{!Apart Y A B} :
  Apart (X * Y) A B (PA := part_snd X Y A) (PB := part_snd X Y B).
Proof. split; intros; cbn; [apply apart_get|]. by rewrite apart_put. Qed.

Definition get_part {X A B} `{Part X A} (f : A -> B) : W X B := gets (fun w => f (part_get (w_more w))).
Definition mod_part {X A} `{Part X A} (f : A -> A) : W X unit :=
  modify (fun w => World_ (w_pool w) (w_ip w) (part_put (f (part_get (w_more w))) (w_more w))).

(** A computation on one part. *)
Definition run_part {X A B} `{Part X A} (f : A -> res (B * A)) : W X B := fun w =>
  match f (part_get (w_more w)) with
  | Ok (b, a) => Ok (b, World_ (w_pool w) (w_ip w) (part_put a (w_more w)))
  | Stop e => Stop e
  | Fuel => Fuel
  end.

Section steps.
Context {X A : Type} `{Part X A}.
Context (p : pool) (i : ip_instance) (rest : X).

Lemma part_gets {B C} (g : A -> B) (f : B -> W X C) :
  (get_part g ≫= f) (World_ p i rest) = f (g (part_get rest)) (World_ p i rest).
Proof. reflexivity. Qed.

Lemma part_mod {C} (g : A -> A) (f : unit -> W X C) :
  (mod_part g ≫= f) (World_ p i rest) = f tt (World_ p i (part_put (g (part_get rest)) rest)).
Proof. reflexivity. Qed.

(** Taking and giving back a lock that is a field of the part. *)
Context (lock : A -> bool) (set_lock : bool -> A -> A).

Definition lock_part : W X unit := l ← get_part lock; l ← of_res (spin_lock l); mod_part (set_lock l).
Definition unlock_part : W X unit := l ← get_part lock; l ← of_res (spin_unlock l); mod_part (set_lock l).

Lemma part_lock {C} (f : unit -> W X C) :
  lock (part_get rest) = false ->
  (lock_part ≫= f) (World_ p i rest) = f tt (World_ p i (part_put (set_lock true (part_get rest)) rest)).
Proof. intros Hl. apply st_run. unfold lock_part. rewrite part_gets, Hl. reflexivity. Qed.

Lemma part_lock_held {C} (f : unit -> W X C) :
  lock (part_get rest) = true -> (lock_part ≫= f) (World_ p i rest) = Stop "spllk already held".
Proof. intros Hl. apply st_stop. unfold lock_part. rewrite part_gets, Hl. reflexivity. Qed.

Lemma part_unlock {C} (f : unit -> W X C) :
  lock (part_get rest) = true ->
  (unlock_part ≫= f) (World_ p i rest) = f tt (World_ p i (part_put (set_lock false (part_get rest)) rest)).
Proof. intros Hl. apply st_run. unfold unlock_part. rewrite part_gets, Hl. reflexivity. Qed.
End steps.

(** ** Timers of a host *)

Section timers.
Context {X : Type} `{Part X timers}.

Definition timer_detach (t : tid) : W X unit := run_part (fun s => s ← oneshot_detach t s; Ok (tt, s)).
Definition timer_attach (t : tid) : W X unit := run_part (fun s => s ← oneshot_attach t s; Ok (tt, s)).
Definition timer_set (t : tid) (ticks : Z) : W X unit :=
  mod_part (mod_timer t (fun o => o <| os_ticks_left := ticks |>)).

(** A new timer of the one-shot service. *)
Definition timer_alloc (callback : nat) (arg : Z) : W X tid :=
  run_part (fun s =>
    let t := fresh (dom (t_store s)) in
    Ok (t, mod_timer t (fun o => o <| os_callback := Some callback |> <| os_arg := arg |>) (oneshot_alloc t s))).

(** [oneshot_deref]; the count is not used. *)
Definition timer_deref (t : tid) : W X unit := run_part (fun s => Ok (tt, (oneshot_deref t s).2)).
Definition timer_callback (t : tid) (callback : nat) : W X unit :=
  mod_part (mod_timer t (fun o => o <| os_callback := Some callback |>)).
End timers.

(** ** Byte strings *)

(** Six bytes at [a], and their assignment: the copies of MAC addresses. *)
Definition rd_bytes (a n : Z) : P (list Z) := gets (fun p => bytes_at (p_mem p) a n).

Fixpoint store_list (m : mem) (a : Z) (l : list Z) : mem :=
  match l with [] => m | b :: l => store_list (store8 m a b) (a + 1) l end.
Definition wr_bytes (a : Z) (l : list Z) : P unit := modify (with_mem (fun m => store_list m a l)).

Lemma load8_store_list m a l y :
  load8 (store_list m a l) y =
    if decide (a <= y < a + Z.of_nat (length l)) then u8 (list_buf l (y - a)) else load8 m y.
Proof.
  revert m a; induction l as [|b l IH]; intros m a; cbn [store_list length].
  - case_decide; [lia|done].
  - rewrite IH. unfold list_buf. repeat case_decide; try lia.
    + replace (Z.to_nat (y - a)) with (S (Z.to_nat (y - (a + 1)))) by lia. done.
    + assert (y = a) as -> by lia. rewrite load8_store8. by rewrite Z.sub_diag.
    + apply load8_store8_ne. lia.
Qed.

Lemma bytes_at_store_list m a l :
  Forall (fun b => 0 <= b < 2 ^ 8) l -> bytes_at (store_list m a l) a (Z.of_nat (length l)) = l.
Proof.
  intros Hl. apply list_eq. intros k. destruct (decide (k < length l)%nat) as [Hk|Hk].
  - replace k with (Z.to_nat (Z.of_nat k)) at 1 by lia. rewrite bytes_at_lookup by lia.
    rewrite load8_store_list, decide_True by lia. replace (a + Z.of_nat k - a) with (Z.of_nat k) by lia.
    unfold list_buf. rewrite Nat2Z.id. destruct (lookup_lt_is_Some_2 l k Hk) as [b Hb]. rewrite Hb.
    rewrite (nth_lookup_Some _ _ _ _ Hb). f_equal. apply u8_small. rewrite Forall_forall in Hl.
    apply Hl. by eapply list_elem_of_lookup_2.
  - rewrite !lookup_ge_None_2; [done|lia|].
    pose proof (bytes_at_length (store_list m a l) a (Z.of_nat (length l))). lia.
Qed.

(** ** Weakest liberal preconditions *)

Definition wlp {S A} (m : ST S A) (Q : A -> S -> Prop) (s : S) : Prop :=
  match m s with Ok (a, s') => Q a s' | _ => True end.

Lemma wlp_ret {S A} (a : A) (Q : A -> S -> Prop) s : Q a s -> wlp (mret a) Q s.
Proof. done. Qed.

Lemma wlp_bind {S A B} (m : ST S A) (f : A -> ST S B) Q s :
  wlp m (fun a => wlp (f a) Q) s -> wlp (m ≫= f) Q s.
Proof. unfold wlp, mbind, ST_bind. by destruct (m s) as [[a s']| |]. Qed.

Lemma wlp_gets {S A} (f : S -> A) Q s : Q (f s) s -> wlp (gets f) Q s.
Proof. done. Qed.

Lemma wlp_modify {S} (f : S -> S) Q s : Q tt (f s) -> wlp (modify f) Q s.
Proof. done. Qed.

Lemma wlp_of_res {S A} (r : res A) Q (s : S) : (forall a, r = Ok a -> Q a s) -> wlp (of_res r) Q s.
Proof. unfold wlp, of_res. destruct r; auto. Qed.

Lemma wlp_mono {S A} (m : ST S A) (Q R : A -> S -> Prop) s :
  (forall a s', Q a s' -> R a s') -> wlp m Q s -> wlp m R s.
Proof. unfold wlp. destruct (m s) as [[a s']| |]; auto. Qed.

Lemma wlp_if {S A} (b : bool) (m n : ST S A) Q s :
  (b = true -> wlp m Q s) -> (b = false -> wlp n Q s) -> wlp (if b then m else n) Q s.
Proof. destruct b; auto. Qed.

Lemma wlp_stop {S A} w (Q : A -> S -> Prop) s : wlp (fun _ => Stop w) Q s.
Proof. done. Qed.

(** Memory operations leave the instances alone. *)
Lemma wlp_mem {X A} (m : P A) (Q : A -> world X -> Prop) p i rest :
  (forall a p', Q a (World_ p' i rest)) -> wlp (mem_ m) Q (World_ p i rest).
Proof. intros HQ. unfold wlp, mem_. cbn. destruct (m p) as [[a p']| |]; auto. Qed.

Lemma wlp_deref {X} b (Q : unit -> world X -> Prop) p i rest :
  (forall p', Q tt (World_ p' i rest)) -> wlp (deref_ b) Q (World_ p i rest).
Proof. intros HQ. apply wlp_bind, wlp_mem. intros a p'. apply wlp_ret, HQ. Qed.

Lemma wlp_get_ii {X A} (f : ip_instance -> A) (Q : A -> world X -> Prop) p i rest :
  Q (f i) (World_ p i rest) -> wlp (get_ii f) Q (World_ p i rest).
Proof. done. Qed.

Lemma wlp_mod_ii {X} f (Q : unit -> world X -> Prop) p i rest :
  Q tt (World_ p (f i) rest) -> wlp (mod_ii f) Q (World_ p i rest).
Proof. done. Qed.

Lemma wlp_get_part {X A B} `{Part X A} (f : A -> B) (Q : B -> world X -> Prop) p i rest :
  Q (f (part_get rest)) (World_ p i rest) -> wlp (get_part f) Q (World_ p i rest).
Proof. done. Qed.

Lemma wlp_mod_part {X A} `{Part X A} (f : A -> A) (Q : unit -> world X -> Prop) p i rest :
  Q tt (World_ p i (part_put (f (part_get rest)) rest)) -> wlp (mod_part f) Q (World_ p i rest).
Proof. done. Qed.

Lemma wlp_run_part {X A B} `{Part X A} (f : A -> res (B * A)) (Q : B -> world X -> Prop) p i rest :
  (forall b a, f (part_get rest) = Ok (b, a) -> Q b (World_ p i (part_put a rest))) ->
  wlp (run_part f) Q (World_ p i rest).
Proof. intros HQ. unfold wlp, run_part. cbn. destruct (f (part_get rest)) as [[b a]| |]; auto. Qed.

Lemma wlp_lock_part {X A} `{Part X A} (lock : A -> bool) set_lock (Q : unit -> world X -> Prop) p i rest :
  (lock (part_get rest) = false -> Q tt (World_ p i (part_put (set_lock true (part_get rest)) rest))) ->
  wlp (lock_part lock set_lock) Q (World_ p i rest).
Proof.
  intros HQ. apply wlp_bind, wlp_get_part, wlp_bind, wlp_of_res. intros l Hl.
  apply wlp_mod_part. unfold spin_lock in Hl. destruct (lock (part_get rest)); [done|]. simplify_eq. auto.
Qed.

Lemma wlp_unlock_part {X A} `{Part X A} (lock : A -> bool) set_lock (Q : unit -> world X -> Prop) p i rest :
  (lock (part_get rest) = true -> Q tt (World_ p i (part_put (set_lock false (part_get rest)) rest))) ->
  wlp (unlock_part lock set_lock) Q (World_ p i rest).
Proof.
  intros HQ. apply wlp_bind, wlp_get_part, wlp_bind, wlp_of_res. intros l Hl.
  apply wlp_mod_part. unfold spin_unlock in Hl. destruct (lock (part_get rest)); [|done]. simplify_eq. auto.
Qed.

(** One step of a handler. *)
Ltac wlp_step :=
  lazymatch goal with
  | |- wlp (mret _) _ _ => apply wlp_ret
  | |- wlp (_ ≫= _) _ _ => apply wlp_bind
  | |- wlp (mem_ _) _ _ => apply wlp_mem; intros ? ?
  | |- wlp (deref_ _) _ _ => apply wlp_deref; intros ?
  | |- wlp (get_ii _) _ _ => apply wlp_get_ii
  | |- wlp (mod_ii _) _ _ => apply wlp_mod_ii
  | |- wlp (get_part _) _ _ => apply wlp_get_part
  | |- wlp (mod_part _) _ _ => apply wlp_mod_part
  | |- wlp (lock_part _ _) _ _ => apply wlp_lock_part; intros ?
  | |- wlp (unlock_part _ _) _ _ => apply wlp_unlock_part; intros ?
  | |- wlp (fun _ => Stop _) _ _ => exact I
  | |- wlp (if ?b then _ else _) _ _ => apply wlp_if; intros ?
  end.
