(* ===== verification/Asm.v ===== *)
(** * Runs of assembly code

    A machine has states with an index of the next instruction, and instructions that
    change the state.  A piece of code is the list of its instructions and is run from
    the index of the state to its end.  The targets are instances: I386.v and
    AvrString.v. *)

From stdpp Require Import base list.
From S2P Require Import Prelude.

Class Machine (St I : Type) := {
  next_insn : St -> nat;
  exec_insn : I -> St -> St }.

Section machine.
Context {St I : Type} `{Machine St I}.

Fixpoint run (fuel : nat) (p : list I) (s : St) : res St :=
  match p !! next_insn s with
  | None => Ok s
  | Some i =>
    match fuel with
    | O => Fuel
    | S fuel => run fuel p (exec_insn i s)
    end
  end.

(** [p] started in [s] comes to its end in [t]. *)
Definition finishes (p : list I) (s t : St) : Prop := exists n, run n p s = Ok t.

(** The code gets from [s] to [s'], so it ends where it ends from [s']. *)
Definition leads (p : list I) (s s' : St) : Prop := forall t, finishes p s' t -> finishes p s t.

Lemma run_more n k p s t : run n p s = Ok t -> run (n + k) p s = Ok t.
Proof.
  revert s; induction n as [|n IH]; intros s; cbn; destruct (p !! next_insn s) as [i|] eqn:E; try done.
  - intros [= ->]. destruct k; cbn; by rewrite E.
  - apply IH.
Qed.

(** The end is unique. *)
Lemma finishes_unique p s t t' : finishes p s t -> finishes p s t' -> t = t'.
Proof.
  intros [n Hn] [k Hk]. apply (run_more n k) in Hn. apply (run_more k n) in Hk.
  rewrite Nat.add_comm in Hk. congruence.
Qed.

Lemma finishes_step p s i t : p !! next_insn s = Some i -> finishes p (exec_insn i s) t -> finishes p s t.
Proof. intros Hi [n Hn]. exists (S n). cbn. by rewrite Hi. Qed.

Lemma finishes_end p s : p !! next_insn s = None -> finishes p s s.
Proof. intros E. exists O. cbn. by rewrite E. Qed.

Lemma leads_refl p s : leads p s s.
Proof. by intros t. Qed.

Lemma leads_trans p s s' s'' : leads p s s' -> leads p s' s'' -> leads p s s''.
Proof. intros H1 H2 t Ht. by apply H1, H2. Qed.

Lemma leads_step p s i s' : p !! next_insn s = Some i -> leads p (exec_insn i s) s' -> leads p s s'.
Proof. intros Hi Hl t Ht. eapply finishes_step; [done|]. by apply Hl. Qed.

(** What every instruction of the code leaves alone is the same at the end. *)
Lemma finishes_keeps {A} (f : St -> A) (ok : I -> bool) p s t :
  (forall i s, ok i = true -> f (exec_insn i s) = f s) -> forallb ok p = true -> finishes p s t -> f t = f s.
Proof.
  intros Hf Hp [n Hn]. revert s Hn; induction n as [|n IH]; intros s; cbn; destruct (p !! next_insn s) as [i|] eqn:E;
    try (by intros [= ->]).
  intros Hr. rewrite (IH _ Hr). apply Hf. eapply forallb_forall; [exact Hp|]. apply list_elem_of_In. by eapply list_elem_of_lookup_2.
Qed.

End machine.
