(* ===== verification/I386.v ===== *)
(** * Assembly code of the i386 (include/i386, src/lib/context/i386)

    The string functions, [memcpy], the context switch and the trap entries are
    assembly code.  This file has the instructions they use: the state of the
    processor, what an instruction does to it, and runs of a piece of code.  A piece
    of code is the list of its instructions; a jump names the index it goes to.
    Operands that the compiler chooses in an [asm] statement are registers of the
    class its constraint names.

    Registers hold 32 bits, addresses wrap around.  The direction flag is clear, as
    the calling convention has it. *)

From stdpp Require Import base list gmap fin_maps strings.
From Stdlib Require Import ZArith Lia.
From S2P Require Import Prelude Membuf NetbufMem Ip Asm.
Open Scope Z_scope.

Inductive reg := EAX | ECX | EDX | EBX | ESP | EBP | ESI | EDI.

Record cpu := Cpu {
  pc : nat;          (* index of the next instruction *)
  eax : Z; ecx : Z; edx : Z; ebx : Z; esp : Z; ebp : Z; esi : Z; edi : Z;
  cf : bool; zf : bool; sf : bool;
  eip : Z;           (* where a [ret], [iret] or [call] went *)
  if_ : bool;        (* interrupts enabled *)
  ram : mem }.

#[export] Instance eta_cpu : Eta cpu := fun s =>
  Cpu (pc s) (eax s) (ecx s) (edx s) (ebx s) (esp s) (ebp s) (esi s) (edi s) (cf s) (zf s) (sf s) (eip s) (if_ s) (ram s).

Definition get (r : reg) (s : cpu) : Z :=
  match r with
  | EAX => eax s | ECX => ecx s | EDX => edx s | EBX => ebx s
  | ESP => esp s | EBP => ebp s | ESI => esi s | EDI => edi s
  end.

Definition set (r : reg) (v : Z) (s : cpu) : cpu :=
  match r with
  | EAX => s <| eax := v |> | ECX => s <| ecx := v |> | EDX => s <| edx := v |> | EBX => s <| ebx := v |>
  | ESP => s <| esp := v |> | EBP => s <| ebp := v |> | ESI => s <| esi := v |> | EDI => s <| edi := v |>
  end.

(** The bytes of [%eax]. *)
Definition al (s : cpu) : Z := u8 (eax s).
Definition ah (s : cpu) : Z := u8 (Z.shiftr (eax s) 8).
Definition set_al (v : Z) (s : cpu) : cpu := s <| eax := eax s - al s + u8 v |>.
Definition set_ah (v : Z) (s : cpu) : cpu := s <| eax := eax s - Z.shiftl (ah s) 8 + Z.shiftl (u8 v) 8 |>.

Inductive insn :=
  | lodsb | stosb | scasb | movsl | movsw
  | repne_scasb | rep_stosb | rep_movsl
  | movb_al_ah                         (* movb %al, %ah *)
  | movb_esi_al | movb_al_edi          (* movb (%esi), %al; movb %al, (%edi) *)
  | testb_al | cmpb_ah_al
  | orb_al (imm : Z)
  | movl (src dst : reg) | movi (imm : Z) (dst : reg)
  | notl (r : reg) | decl (r : reg) | xorl (r : reg) | sbbl (r : reg)
  | shrl (n : Z) (r : reg) | andl (imm : Z) (r : reg) | addl (imm : Z) (r : reg) | testl (imm : Z) (r : reg)
  | leal (d : Z) (src dst : reg)
  | je (l : nat) | jne (l : nat) | js (l : nat) | jmp (l : nat)
  | pushl (r : reg) | pushi (imm : Z) | popl (r : reg)
  | movl_esp_to (a : Z) | movl_to_esp (a : Z)   (* movl %esp, a; movl a, %esp *)
  | cld | cli | sti | leave | ret | iret.

Definition next (s : cpu) : cpu := s <| pc := S (pc s) |>.
Definition goto (b : bool) (l : nat) (s : cpu) : cpu := if b then s <| pc := l |> else next s.

(** The flags of a 32-bit result; [decl] leaves the carry alone. *)
Definition flags (v : Z) (s : cpu) : cpu := s <| zf := v =? 0 |> <| sf := 2 ^ 31 <=? v |>.

(** [cmpb b, a]: the flags of [a - b]. *)
Definition compare8 (a b : Z) (s : cpu) : cpu := s <| zf := a =? b |> <| cf := a <? b |> <| sf := 2 ^ 7 <=? u8 (a - b) |>.

Definition do_lodsb (s : cpu) : cpu := set_al (load8 (ram s) (esi s)) s <| esi := u32 (esi s + 1) |>.
Definition do_stosb (s : cpu) : cpu := s <| ram := store8 (ram s) (edi s) (al s) |> <| edi := u32 (edi s + 1) |>.
Definition do_scasb (s : cpu) : cpu := compare8 (al s) (load8 (ram s) (edi s)) s <| edi := u32 (edi s + 1) |>.
Definition do_movsl (s : cpu) : cpu :=
  s <| ram := store32 (ram s) (edi s) (load32 (ram s) (esi s)) |> <| esi := u32 (esi s + 4) |> <| edi := u32 (edi s + 4) |>.

(** A repeated instruction is left when [%ecx] is zero, [repne] also on equality. *)
Definition rep (f : cpu -> cpu) (stop : cpu -> bool) (s : cpu) : cpu :=
  if ecx s =? 0 then next s
  else let s := f (s <| ecx := u32 (ecx s - 1) |>) in if stop s then next s else s.

Definition push (v : Z) (s : cpu) : cpu :=
  let sp := u32 (esp s - 4) in s <| esp := sp |> <| ram := store32 (ram s) sp v |>.
Definition top (s : cpu) : Z := load32 (ram s) (esp s).
Definition drop4 (s : cpu) : cpu := s <| esp := u32 (esp s + 4) |>.
(** The register gets the word after [%esp] has moved: [popl %esp] loads [%esp]. *)
Definition pop (r : reg) (s : cpu) : cpu := set r (top s) (drop4 s).

(** Bit 9 of [%eflags], [F_IF]. *)
Definition F_IF : Z := 0x200.

Definition exec (i : insn) (s : cpu) : cpu :=
  match i with
  | lodsb => next (do_lodsb s)
  | stosb => next (do_stosb s)
  | scasb => next (do_scasb s)
  | movsl => next (do_movsl s)
  | movsw => next (s <| ram := store16 (ram s) (edi s) (load16 (ram s) (esi s)) |>
                     <| esi := u32 (esi s + 2) |> <| edi := u32 (edi s + 2) |>)
  | repne_scasb => rep do_scasb zf s
  | rep_stosb => rep do_stosb (fun _ => false) s
  | rep_movsl => rep do_movsl (fun _ => false) s
  | movb_al_ah => next (set_ah (al s) s)
  | movb_esi_al => next (set_al (load8 (ram s) (esi s)) s)
  | movb_al_edi => next (s <| ram := store8 (ram s) (edi s) (al s) |>)
  | testb_al => next (s <| zf := al s =? 0 |> <| sf := 2 ^ 7 <=? al s |> <| cf := false |>)
  | cmpb_ah_al => next (compare8 (al s) (ah s) s)
  | orb_al imm => let v := Z.lor (al s) imm in
                  next (set_al v s <| zf := v =? 0 |> <| sf := 2 ^ 7 <=? v |> <| cf := false |>)
  | movl src dst => next (set dst (get src s) s)
  | movi imm dst => next (set dst (u32 imm) s)
  | notl r => next (set r (2 ^ 32 - 1 - get r s) s)
  | decl r => let v := u32 (get r s - 1) in next (flags v (set r v s))
  | xorl r => next (flags 0 (set r 0 s) <| cf := false |>)
  | sbbl r => let v := if cf s then 2 ^ 32 - 1 else 0 in next (flags v (set r v s))
  | shrl n r => let v := Z.shiftr (get r s) n in next (flags v (set r v s) <| cf := Z.testbit (get r s) (n - 1) |>)
  | andl imm r => let v := Z.land (get r s) imm in next (flags v (set r v s) <| cf := false |>)
  | addl imm r => let v := get r s + imm in next (flags (u32 v) (set r (u32 v) s) <| cf := 2 ^ 32 <=? v |>)
  | testl imm r => next (flags (Z.land (get r s) imm) s <| cf := false |>)
  | leal d src dst => next (set dst (u32 (get src s + d)) s)
  | je l => goto (zf s) l s
  | jne l => goto (negb (zf s)) l s
  | js l => goto (sf s) l s
  | jmp l => s <| pc := l |>
  | pushl r => next (push (get r s) s)
  | pushi imm => next (push imm s)
  | popl r => next (pop r s)
  | movl_esp_to a => next (s <| ram := store32 (ram s) a (esp s) |>)
  | movl_to_esp a => next (s <| esp := load32 (ram s) a |>)
  | cld => next s
  | cli => next (s <| if_ := false |>)
  | sti => next (s <| if_ := true |>)
  | leave => next (pop EBP (s <| esp := ebp s |>))
  | ret => next (drop4 s <| eip := top s |>)
  | iret =>
    (* pops [%eip], [%cs] and [%eflags] *)
    let flags := load32 (ram s) (u32 (esp s + 8)) in
    next (s <| eip := top s |> <| if_ := negb (Z.land flags F_IF =? 0) |>
            <| cf := Z.testbit flags 0 |> <| zf := Z.testbit flags 6 |> <| sf := Z.testbit flags 7 |>
            <| esp := u32 (esp s + 12) |>)
  end.

(** Code without jumps. *)
Definition execs (code : list insn) (s : cpu) : cpu := foldl (fun s i => exec i s) s code.

#[export] Instance i386 : Machine cpu insn := {| next_insn := pc; exec_insn := exec |}.

(** The rules of Asm.v in terms of [pc] and [exec]. *)
Lemma asm_step (p : list insn) s i t : p !! pc s = Some i -> finishes p (exec i s) t -> finishes p s t.
Proof. exact (finishes_step p s i t). Qed.

Lemma asm_leads (p : list insn) s i s' : p !! pc s = Some i -> leads p (exec i s) s' -> leads p s s'.
Proof. exact (leads_step p s i s'). Qed.

Lemma asm_end (p : list insn) s : p !! pc s = None -> finishes p s s.
Proof. exact (finishes_end p s). Qed.

Lemma finishes_at (p : list insn) s n : pc s = n -> p !! n = None -> finishes p s s.
Proof. intros <- E. by apply finishes_end. Qed.

(** Bytes of [%eax]: what [set_al] and [set_ah] leave. *)
Lemma al_set e v : 0 <= v < 2 ^ 8 -> u8 (e - u8 e + u8 v) = v.
Proof.
  intros Hv. rewrite (u8_small v) by done. unfold u8. symmetry. apply (Z.mod_unique_pos _ _ (e / 2 ^ 8)); [done|].
  pose proof (Z.div_mod e (2 ^ 8) ltac:(lia)). lia.
Qed.

Lemma ah_set_al e v : 0 <= v < 2 ^ 8 -> u8 (Z.shiftr (e - u8 e + u8 v) 8) = u8 (Z.shiftr e 8).
Proof.
  intros Hv. rewrite (u8_small v) by done. f_equal. unfold u8. rewrite !Z.shiftr_div_pow2 by lia.
  symmetry. apply (Z.div_unique_pos _ _ _ v); [lia|]. Z.div_mod_to_equations. lia.
Qed.

Lemma ah_set_ah e v : 0 <= v < 2 ^ 8 ->
  u8 (Z.shiftr (e - Z.shiftl (u8 (Z.shiftr e 8)) 8 + Z.shiftl (u8 v) 8) 8) = v.
Proof.
  intros Hv. rewrite (u8_small v) by done. rewrite !Z.shiftl_mul_pow2, !Z.shiftr_div_pow2 by lia. unfold u8.
  replace (e - (e / 2 ^ 8) mod 2 ^ 8 * 2 ^ 8 + v * 2 ^ 8) with (e + (v - (e / 2 ^ 8) mod 2 ^ 8) * 2 ^ 8) by lia.
  rewrite Z.div_add by lia.
  pose proof (Z.div_mod (e / 2 ^ 8) (2 ^ 8) ltac:(lia)).
  symmetry. apply (Z.mod_unique_pos _ _ (e / 2 ^ 8 / 2 ^ 8)); lia.
Qed.

(** The fields of a known state. *)
Ltac fields := cbn [pc eax ecx edx ebx esp ebp esi edi cf zf sf eip if_ ram] in *.

(** The state after an instruction, evaluated. *)
Ltac x86 :=
  cbv [exec next goto rep do_lodsb do_stosb do_scasb do_movsl get set flags compare8 push pop top drop4 set_al set_ah al ah
       pc eax ecx edx ebx esp ebp esi edi cf zf sf eip if_ ram setter];
  fields.

(** ** What code leaves alone *)

(** The registers a function keeps, and the interrupt flag. *)
Definition kept (s : cpu) : Z * Z * Z * Z * bool := (ebx s, esp s, ebp s, eip s, if_ s).

(** Does the instruction leave these alone? *)
Definition tame (i : insn) : bool :=
  let ok r := match r with EBX | ESP | EBP => false | _ => true end in
  match i with
  | movl _ r | movi _ r | notl r | decl r | xorl r | sbbl r | shrl _ r | andl _ r | addl _ r | leal _ _ r => ok r
  | pushl _ | pushi _ | popl _ | movl_to_esp _ | cli | sti | leave | ret | iret => false
  | _ => true
  end.

Lemma tame_exec i s : tame i = true -> kept (exec i s) = kept s.
Proof.
  destruct i; try done; intros H; try (destruct dst; done); try (destruct r; done); cbn;
    unfold goto, rep; repeat case_match; done.
Qed.

Lemma tame_finishes p s t : forallb tame p = true -> finishes p s t -> kept t = kept s.
Proof. apply finishes_keeps. apply tame_exec. Qed.
