(* ===== verification/CString.v ===== *)
(** * The string functions of the i386 (include/i386/string.h, include/i386/memory.h)

    Each function is one [asm] statement: the list of its instructions, and the state
    it is entered in, with the operands in the registers of their constraints.  The
    reference is the string itself, a list of nonzero bytes that ends with a zero in
    memory: every function comes to its end for every string and computes what the
    reference says. *)

From stdpp Require Import base list gmap fin_maps strings.
From Stdlib Require Import ZArith Lia.
From S2P Require Import Prelude Membuf NetbufMem Ip Parts Asm I386.
Open Scope Z_scope.

Module I386String.

(** ** The code *)

Definition strlen_code : list insn := [repne_scasb; notl ECX; decl ECX].
Definition strlen_args (s : Z) (c : cpu) : cpu := c <| pc := 0%nat |> <| edi := s |> <| eax := 0 |> <| ecx := 0xffffffff |>.

Definition strcpy_code : list insn := [lodsb; stosb; testb_al; jne 0].
Definition strcpy_args (dest src : Z) (c : cpu) : cpu := c <| pc := 0%nat |> <| esi := src |> <| edi := dest |>.

Definition strncpy_code : list insn := [decl ECX; js 7; lodsb; stosb; testb_al; jne 0; rep_stosb].
Definition strncpy_args (dest src n : Z) (c : cpu) : cpu :=
  c <| pc := 0%nat |> <| esi := src |> <| edi := dest |> <| ecx := n |>.

Definition strcat_code : list insn := [repne_scasb; decl EDI; lodsb; stosb; testb_al; jne 2].
Definition strcat_args (dest src : Z) (c : cpu) : cpu :=
  c <| pc := 0%nat |> <| esi := src |> <| edi := dest |> <| eax := 0 |> <| ecx := 0xffffffff |>.

(** [n] is the operand [%8]. *)
Definition strncat_code (n : Z) : list insn :=
  [repne_scasb; decl EDI; movi n ECX;
   decl ECX; js 9; lodsb; stosb; testb_al; jne 3;
   xorl EAX; stosb].

Definition strcmp_code : list insn := [lodsb; scasb; jne 7; testb_al; jne 0; xorl EAX; jmp 9; sbbl EAX; orb_al 1].
Definition strcmp_args (s1 s2 : Z) (c : cpu) : cpu := c <| pc := 0%nat |> <| esi := s1 |> <| edi := s2 |>.

Definition strncmp_code : list insn :=
  [decl ECX; js 7; lodsb; scasb; jne 9; testb_al; jne 0; xorl EAX; jmp 11; sbbl EAX; orb_al 1].
Definition strncmp_args (s1 s2 n : Z) (c : cpu) : cpu := c <| pc := 0%nat |> <| esi := s1 |> <| edi := s2 |> <| ecx := n |>.

Definition strchr_code : list insn :=
  [movb_al_ah; lodsb; cmpb_ah_al; je 7; testb_al; jne 1; movi 1 ESI; movl ESI EAX; decl EAX].
Definition strchr_args (s ch : Z) (c : cpu) : cpu := c <| pc := 0%nat |> <| esi := s |> <| eax := ch |>.

(** [%edx] stands for the operand [%0]. *)
Definition strrchr_code : list insn :=
  [movb_al_ah; lodsb; cmpb_ah_al; jne 5; leal (-1) ESI EDX; testb_al; jne 1].
Definition strrchr_args (s ch : Z) (c : cpu) : cpu := c <| pc := 0%nat |> <| edx := 0 |> <| esi := s |> <| eax := ch |>.

(** The result of [strcmp] and [strncmp] is a [s8_t]. *)
Definition s8 (z : Z) : Z := (z + 2 ^ 7) mod 2 ^ 8 - 2 ^ 7.

(** [memcpy] for a size that is a multiple of four, and for the others. *)
Definition memcpy_quick : list insn := [rep_movsl].
Definition memcpy_slow : list insn :=
  [movl ECX EAX; shrl 2 ECX; rep_movsl; andl 3 EAX; je 12; testl 2 EAX; je 8; movsw; testl 1 EAX; je 12; movb_esi_al; movb_al_edi].
Definition memcpy_code (n : Z) : list insn := if Z.land n 3 =? 0 then memcpy_quick else memcpy_slow.
Definition memcpy_args (dest src n : Z) (c : cpu) : cpu :=
  c <| pc := 0%nat |> <| esi := src |> <| edi := dest |> <| ecx := if Z.land n 3 =? 0 then Z.shiftr n 2 else n |>.

End I386String.
Export I386String.

(** ** The reference *)

(** A string: nonzero bytes and a zero behind them. *)
Fixpoint cstring (m : mem) (a : Z) (l : list Z) : Prop :=
  match l with
  | [] => load8 m a = 0
  | b :: l => load8 m a = b /\ b <> 0 /\ cstring m (a + 1) l
  end.

(** The order of strings, as unsigned bytes. *)
Fixpoint order (l1 l2 : list Z) : Z :=
  match l1, l2 with
  | [], [] => 0
  | [], _ :: _ => -1
  | _ :: _, [] => 1
  | b1 :: l1, b2 :: l2 => if b1 =? b2 then order l1 l2 else if b1 <? b2 then -1 else 1
  end.

(** Addresses of the occurrences of [ch] in the string [l] with its zero, in order. *)
Fixpoint occurrences (ch a : Z) (l : list Z) : list Z :=
  match l with
  | [] => if ch =? 0 then [a] else []
  | b :: l => (if ch =? b then [a] else []) ++ occurrences ch (a + 1) l
  end.


(** ** Facts about strings *)

(** The next [k] instructions. *)
Tactic Notation "asm" integer(k) := do k (eapply asm_step; [reflexivity|]; x86).

(** [decl %ecx; js] with [S n] in [%ecx]. *)
Ltac count_down n :=
  asm 1; rewrite u32_small by lia; asm 1; rewrite (proj2 (Z.leb_gt (2 ^ 31) (Z.of_nat (S n) - 1))) by lia.

Lemma cstring_store m a l x v : cstring m a l -> x < a \/ a + Z.of_nat (length l) < x -> cstring (store8 m x v) a l.
Proof.
  revert a; induction l as [|b l IH]; intros a; cbn [cstring length].
  - intros H Hx. by rewrite load8_store8_ne by lia.
  - intros (H1 & H2 & H3) Hx. rewrite load8_store8_ne by lia. split_and!; [done|done|]. apply IH; [done|lia].
Qed.

Lemma cstring_bytes m a l : cstring m a l -> Forall (fun b => 0 < b < 2 ^ 8) l.
Proof.
  revert a; induction l as [|b l IH]; intros a; cbn; [by constructor|]. intros (H1 & H2 & H3).
  constructor; [|eauto]. pose proof (load8_range m a). lia.
Qed.

(** ** Loops *)

(** The copy of a string with its zero: [lodsb; stosb; testb; jne] at [k]. *)
Lemma copy_loop p k l :
  p !! k = Some lodsb -> p !! S k = Some stosb -> p !! S (S k) = Some testb_al -> p !! S (S (S k)) = Some (jne k) ->
  forall s, pc s = k -> cstring (ram s) (esi s) l -> 0 <= esi s -> 0 <= edi s ->
  let n := Z.of_nat (length l) + 1 in
  esi s + n < 2 ^ 32 -> edi s + n < 2 ^ 32 -> edi s + n <= esi s \/ esi s + n <= edi s ->
  exists s', leads p s s' /\ pc s' = S (S (S (S k))) /\ ram s' = store_list (ram s) (edi s) (l ++ [0]).
Proof.
  intros P0 P1 P2 P3. induction l as [|b l IH]; intros [pc0 a c d b0 sp bp si di f1 f2 f3 ip i m] Hpc Hs Hsi Hdi n H1 H2 Hd;
    fields; unfold al in *; fields; subst pc0; cbn [cstring length app store_list] in *.
  - eexists. split; [|split]; [eapply asm_leads; [exact P0|]; x86; eapply asm_leads; [exact P1|]; x86;
      eapply asm_leads; [exact P2|]; x86; eapply asm_leads; [exact P3|]; x86|..].
    + rewrite al_set by apply load8_range. rewrite Hs. cbn [Z.eqb negb]. apply leads_refl.
    + done.
    + done.
  - destruct Hs as (Hb & Hb0 & Hs). pose proof (load8_range m si) as Hr.
    edestruct IH as (s' & Hl & Hpc' & Hm); cycle -1.
    { exists s'. split; [|split; [exact Hpc'|]].
      - eapply asm_leads; [exact P0|]; x86; eapply asm_leads; [exact P1|]; x86;
          eapply asm_leads; [exact P2|]; x86; eapply asm_leads; [exact P3|]; x86.
        rewrite al_set by done. replace (load8 m si =? 0) with false by lia. cbn [negb]. exact Hl.
      - rewrite Hm. x86. by rewrite Hb, u32_small by lia. }
    all: x86; rewrite ?u32_small by lia; try lia; try done. apply cstring_store; [done|lia].
Qed.

(** [repne scasb] with a zero in [%al]. *)
Lemma scan_loop p k l :
  p !! k = Some repne_scasb ->
  forall s, pc s = k -> al s = 0 -> cstring (ram s) (edi s) l -> 0 <= edi s ->
  let n := Z.of_nat (length l) + 1 in
  edi s + n < 2 ^ 32 -> n <= ecx s < 2 ^ 32 ->
  exists s', leads p s s' /\ pc s' = S k /\ ram s' = ram s /\ edi s' = edi s + n /\ ecx s' = ecx s - n
    /\ esi s' = esi s /\ eax s' = eax s.
Proof.
  intros P0. induction l as [|b l IH]; intros [pc0 a c d b0 sp bp si di f1 f2 f3 ip i m] Hpc Ha Hs Hdi n H1 H2;
    fields; unfold al in *; fields; subst pc0; cbn [cstring length] in *.
  - eexists. split; [eapply asm_leads; [exact P0|]; x86; replace (c =? 0) with false by lia; rewrite Ha, Hs; apply leads_refl|].
    x86. unfold n in *. cbn in *. split_and!; try done; rewrite ?u32_small; lia.
  - destruct Hs as (Hb & Hb0 & Hs). pose proof (load8_range m di) as Hr.
    edestruct IH as (s' & Hl & Hpc' & Hm & Hd' & Hc' & Hi' & He'); cycle -1.
    { exists s'. split; [|split; [exact Hpc'|]].
      - eapply asm_leads; [exact P0|]; x86. replace (c =? 0) with false by lia. rewrite Ha.
        replace (0 =? load8 m di) with false by lia. exact Hl.
      - rewrite Hm, Hd', Hc', Hi', He'. x86. rewrite !u32_small by lia. split_and!; (done || lia). }
    all: x86; rewrite ?u32_small by lia; try lia; done.
Qed.

(** The length of a string. *)
Lemma strlen_spec c s l :
  cstring (ram c) s l -> 0 <= s -> s + Z.of_nat (length l) + 1 < 2 ^ 32 ->
  exists t, finishes strlen_code (strlen_args s c) t /\ ecx t = Z.of_nat (length l) /\ ram t = ram c.
Proof.
  intros Hs H0 H1. destruct (scan_loop strlen_code 0 l eq_refl (strlen_args s c)) as (s1 & Hl & Hpc & Hm & Hd & Hc & _);
    [done|done|done|done|cbn;lia|cbn;lia|].
  destruct s1. cbv [strlen_args] in *. x86. fields. subst. eexists. split.
  - apply Hl. asm 2. by apply asm_end.
  - x86. split; [rewrite u32_small; lia|done].
Qed.

Lemma strcpy_spec c dest src l :
  let n := Z.of_nat (length l) + 1 in
  cstring (ram c) src l -> 0 <= src -> 0 <= dest -> src + n < 2 ^ 32 -> dest + n < 2 ^ 32 -> dest + n <= src \/ src + n <= dest ->
  exists t, finishes strcpy_code (strcpy_args dest src c) t /\ ram t = store_list (ram c) dest (l ++ [0]).
Proof.
  intros n Hs H0 H1 H2 H3 Hd.
  destruct (copy_loop strcpy_code 0 l eq_refl eq_refl eq_refl eq_refl (strcpy_args dest src c)) as (t & Hl & Hpc & Hm);
    [done|done|done|done|cbn;lia|cbn;lia|cbn; lia|].
  exists t. split; [|done]. by apply Hl, (finishes_at _ _ _ Hpc).
Qed.

(** At most [%ecx] bytes of a string: [decl; js e; lodsb; stosb; testb; jne] at [k].
    The loop is left at [e] when the count is used up and behind its end when the
    zero has been copied. *)
Definition copied (n : nat) (l : list Z) : list Z := take n l ++ if (length l <? n)%nat then [0] else [].

Lemma copied_length n l : (length (copied n l) <= n)%nat /\ (length (copied n l) <= S (length l))%nat.
Proof. unfold copied. rewrite length_app, length_take. destruct (Nat.ltb_spec (length l) n); cbn; lia. Qed.

Lemma bounded_loop p k e l :
  p !! k = Some (decl ECX) -> p !! S k = Some (js e) -> p !! (2 + k)%nat = Some lodsb -> p !! (3 + k)%nat = Some stosb ->
  p !! (4 + k)%nat = Some testb_al -> p !! (5 + k)%nat = Some (jne k) ->
  forall s n, pc s = k -> cstring (ram s) (esi s) l -> 0 <= esi s -> 0 <= edi s -> ecx s = Z.of_nat n -> Z.of_nat n < 2 ^ 31 ->
  let w := copied n l in
  let z := Z.of_nat (length l) + 1 in
  esi s + z < 2 ^ 32 -> edi s + Z.of_nat (length w) < 2 ^ 32 ->
  edi s + Z.of_nat (length w) <= esi s \/ esi s + z <= edi s ->
  exists s', leads p s s' /\ edi s' = edi s + Z.of_nat (length w) /\ ram s' = store_list (ram s) (edi s) w
    /\ if (length l <? n)%nat then pc s' = (6 + k)%nat /\ ecx s' = Z.of_nat (n - length l - 1) /\ al s' = 0 else pc s' = e.
Proof.
  intros P0 P1 P2 P3 P4 P5. induction l as [|b l IH];
    intros [pc0 a c d b0 sp bp si di f1 f2 f3 ip i m] n Hpc Hs Hsi Hdi Hn Hn31 w z H1 H2 Hd; fields; unfold al in *; fields; subst pc0 c;
    (destruct n as [|n]; [unfold w in *; clear w; change (copied 0 _) with (@nil Z) in *; eexists; split;
      [do 2 (eapply asm_leads; [eassumption|]; x86); change (2 ^ 31 <=? u32 (Z.of_nat 0 - 1)) with true; apply leads_refl|];
      x86; cbn; split_and!; (done || lia)|]).
  - change w with [0] in *. clear w. cbn in Hs. eexists. split.
    { eapply asm_leads; [exact P0|]; x86. rewrite u32_small by lia. eapply asm_leads; [exact P1|]; x86.
      rewrite (proj2 (Z.leb_gt (2 ^ 31) (Z.of_nat (S n) - 1))) by lia.
      do 4 (eapply asm_leads; [eassumption|]; x86). rewrite al_set by apply load8_range. rewrite Hs. apply leads_refl. }
    x86. cbn. split_and!; try done; rewrite ?u32_small by (cbn in *; lia); try lia.
    pose proof (al_set a (load8 m si) (load8_range m si)) as E. rewrite Hs in E. exact E.
  - destruct Hs as (Hb & Hb0 & Hs). pose proof (load8_range m si) as Hr. fold cstring in Hs.
    assert (Ew : w = b :: copied n l) by (unfold w, copied; by cbn [take app length Nat.ltb Nat.leb]).
    clearbody w. subst w. unfold z in *. clear z. cbn [length] in *.
    edestruct (IH (Cpu k (a - u8 a + u8 (load8 m si)) (Z.of_nat n) d b0 sp bp (u32 (si + 1)) (u32 (di + 1)) false false (2 ^ 7 <=? load8 m si) ip i
      (store8 m di (load8 m si))) n) as (s' & Hl & Hd' & Hm & Hx); cycle -1.
    { exists s'. split; [|split; [|split]].
      - eapply asm_leads; [exact P0|]; x86. rewrite u32_small by lia. eapply asm_leads; [exact P1|]; x86.
        rewrite (proj2 (Z.leb_gt (2 ^ 31) (Z.of_nat (S n) - 1))) by lia.
        do 4 (eapply asm_leads; [eassumption|]; x86). rewrite al_set by done. replace (load8 m si =? 0) with false by lia.
        cbn [negb]. replace (Z.of_nat (S n) - 1) with (Z.of_nat n) by lia. exact Hl.
      - rewrite Hd'. x86. rewrite u32_small by lia. lia.
      - rewrite Hm. x86. rewrite u32_small, Hb by lia. done.
      - exact Hx. }
    all: x86; rewrite ?u32_small by lia; try lia; try done. apply cstring_store; [done|lia].
Qed.

(** [rep stosb]. *)
Lemma fill_loop p k n :
  p !! k = Some rep_stosb ->
  forall s, pc s = k -> ecx s = Z.of_nat n -> 0 <= edi s -> edi s + Z.of_nat n < 2 ^ 32 -> Z.of_nat n < 2 ^ 32 ->
  exists s', leads p s s' /\ pc s' = S k /\ ram s' = store_list (ram s) (edi s) (replicate n (al s)).
Proof.
  intros P0. induction n as [|n IH]; intros [pc0 a c d b0 sp bp si di f1 f2 f3 ip i m] Hpc Hc H0 H1 H2; fields; unfold al in *; fields; subst pc0 c.
  - eexists. split; [eapply asm_leads; [exact P0|]; x86; apply leads_refl|done].
  - edestruct (IH (Cpu k a (Z.of_nat n) d b0 sp bp si (u32 (di + 1)) f1 f2 f3 ip i (store8 m di (u8 a)))) as (s' & Hl & Hpc & Hm);
      [done|done|x86; rewrite u32_small; lia|x86; rewrite u32_small; lia|lia|].
    exists s'. split; [|split; [done|]].
    + eapply asm_leads; [exact P0|]; x86. rewrite (proj2 (Z.eqb_neq (Z.of_nat (S n)) 0)) by lia.
      rewrite (u32_small (Z.of_nat (S n) - 1)) by lia. replace (Z.of_nat (S n) - 1) with (Z.of_nat n) by lia. exact Hl.
    + rewrite Hm. x86. by rewrite u32_small by lia.
Qed.

(** ** Copies and concatenations *)

Lemma store_list_app m a l1 l2 : store_list m a (l1 ++ l2) = store_list (store_list m a l1) (a + Z.of_nat (length l1)) l2.
Proof.
  revert m a; induction l1 as [|b l1 IH]; intros m a; cbn [app store_list length].
  - by rewrite Z.add_0_r.
  - rewrite IH. f_equal. lia.
Qed.

(** The first [n] bytes of the string, filled up with zeros. *)
Definition padded (n : nat) (l : list Z) : list Z := take n l ++ replicate (n - length l) 0.

Lemma strncpy_spec c dest src n l :
  let z := Z.of_nat (length l) + 1 in
  cstring (ram c) src l -> 0 <= src -> 0 <= dest -> Z.of_nat n < 2 ^ 31 -> src + z < 2 ^ 32 -> dest + Z.of_nat n < 2 ^ 32 ->
  dest + Z.of_nat n <= src \/ src + z <= dest ->
  exists t, finishes strncpy_code (strncpy_args dest src (Z.of_nat n) c) t /\ ram t = store_list (ram c) dest (padded n l).
Proof.
  intros z Hs H0 H1 H2 H3 H4 Hd. pose proof (copied_length n l) as [Hw1 Hw2].
  destruct (bounded_loop strncpy_code 0 7 l eq_refl eq_refl eq_refl eq_refl eq_refl eq_refl
    (strncpy_args dest src (Z.of_nat n) c) n) as (s1 & Hl & Hd1 & Hm & Hx); [done|done|done|done|done|lia|cbn; lia..|].
  unfold copied in *. unfold padded. destruct (Nat.ltb_spec (length l) n) as [Hlt|Hge].
  - destruct Hx as (Hpc & Hc & Ha).
    destruct (fill_loop strncpy_code 6 (n - length l - 1) eq_refl s1) as (t & Ht & Hpct & Hmt);
      [done|done|rewrite Hd1; cbn; lia|rewrite Hd1, length_app, length_take in *; cbn in *; lia|lia|].
    exists t. split; [by apply Hl, Ht, (finishes_at _ _ _ Hpct)|]. rewrite Hmt, Hm, Hd1, Ha.
    cbn [edi ram strncpy_args setter]. rewrite <-store_list_app, <-app_assoc. do 2 f_equal.
    destruct (n - length l)%nat as [|k] eqn:E; [lia|]. cbn. by rewrite Nat.sub_0_r.
  - exists s1. split; [by apply Hl, (finishes_at _ _ _ Hx)|]. rewrite Hm.
    by replace (n - length l)%nat with 0%nat by lia.
Qed.

Lemma cstring_store_list m a l x w : cstring m a l -> x + Z.of_nat (length w) <= a \/ a + Z.of_nat (length l) < x ->
  cstring (store_list m x w) a l.
Proof.
  revert m x; induction w as [|b w IH]; intros m x Hs Hd; cbn [store_list length] in *; [done|].
  apply IH; [|lia]. apply cstring_store; [done|lia].
Qed.

(** The end of [dest] found, [%edi] on its zero. *)
Lemma strcat_end p dest src l1 (c : cpu) :
  p !! 0%nat = Some repne_scasb -> p !! 1%nat = Some (decl EDI) ->
  cstring (ram c) dest l1 -> 0 <= dest -> dest + Z.of_nat (length l1) + 1 < 2 ^ 32 ->
  exists s, leads p (strcat_args dest src c) s /\ pc s = 2%nat /\ ram s = ram c /\ edi s = dest + Z.of_nat (length l1)
    /\ esi s = src.
Proof.
  intros P0 P1 Hs H0 H1.
  destruct (scan_loop p 0 l1 P0 (strcat_args dest src c)) as (s1 & Hl & Hpc & Hm & Hd & Hc & Hi & Ha); [done|done|done|done|cbn; lia|cbn; lia|].
  destruct s1. fields. subst. eexists. split.
  - eapply leads_trans; [exact Hl|]. eapply asm_leads; [exact P1|]. x86. apply leads_refl.
  - fields. split_and!; try done. cbn. rewrite u32_small; lia.
Qed.

Lemma strcat_spec c dest src l1 l2 :
  let n := Z.of_nat (length l2) + 1 in
  cstring (ram c) dest l1 -> cstring (ram c) src l2 -> 0 <= src -> 0 <= dest -> src + n < 2 ^ 32 ->
  dest + Z.of_nat (length l1) + n < 2 ^ 32 -> dest + Z.of_nat (length l1) + n <= src \/ src + n <= dest ->
  exists t, finishes strcat_code (strcat_args dest src c) t
    /\ ram t = store_list (ram c) (dest + Z.of_nat (length l1)) (l2 ++ [0]).
Proof.
  intros n H1 H2 Hs Hd Hn Hn' Ha.
  destruct (strcat_end strcat_code dest src l1 c) as (s1 & Hl & Hpc & Hm & Hdi & Hsi); [done|done|done|done|lia|].
  destruct (copy_loop strcat_code 2 l2 eq_refl eq_refl eq_refl eq_refl s1) as (t & Ht & Hpct & Hmt); rewrite ?Hm, ?Hdi, ?Hsi; try done; try lia.
  exists t. split; [by apply Hl, Ht, (finishes_at _ _ _ Hpct)|]. by rewrite Hmt, Hm, Hdi.
Qed.

(** [strncat] ends the string with a zero, and with a second one when the zero of
    [src] has been copied. *)
Lemma strncat_spec c dest src n l1 l2 :
  let z := Z.of_nat (length l2) + 1 in
  let w := copied n l2 ++ [0] in
  cstring (ram c) dest l1 -> cstring (ram c) src l2 -> 0 <= src -> 0 <= dest -> Z.of_nat n < 2 ^ 31 -> src + z < 2 ^ 32 ->
  dest + Z.of_nat (length l1) + Z.of_nat (length w) < 2 ^ 32 -> dest + Z.of_nat (length l1) + Z.of_nat (length w) <= src \/ src + z <= dest ->
  exists t, finishes (strncat_code (Z.of_nat n)) (strcat_args dest src c) t
    /\ ram t = store_list (ram c) (dest + Z.of_nat (length l1)) w.
Proof.
  intros z w H1 H2 Hs Hd Hn31 Hz Hw Ha. unfold w in *. rewrite length_app in *. cbn [length] in *.
  destruct (strcat_end (strncat_code (Z.of_nat n)) dest src l1 c) as (s1 & Hl & Hpc & Hm & Hdi & Hsi); [done|done|done|done|lia|].
  destruct s1 as [pc1 a1 c1 d1 b1 sp1 bp1 si1 di1 f1 f2 f3 ip1 i1 m1]. fields. subst.
  destruct (bounded_loop (strncat_code (Z.of_nat n)) 3 9 l2 eq_refl eq_refl eq_refl eq_refl eq_refl eq_refl
    (exec (movi (Z.of_nat n) ECX) (Cpu 2 a1 c1 d1 b1 sp1 bp1 src (dest + Z.of_nat (length l1)) f1 f2 f3 ip1 i1 (ram c))) n)
    as (s2 & Hl2 & Hd2 & Hm2 & Hx); [done|done|done|cbn; lia|cbn; rewrite u32_small; lia|done|cbn; lia..|].
  assert (Hpc : pc s2 = 9%nat) by (destruct (length l2 <? n)%nat; [by destruct Hx|done]). clear Hx. cbn [exec set next ram edi setter] in *.
  destruct s2. fields. subst. eexists. split.
  - apply Hl. eapply asm_step; [reflexivity|]. apply Hl2. asm 2. by apply asm_end.
  - fields. by rewrite store_list_app.
Qed.

(** ** Comparisons *)

(** The result of a comparison that ends with different bytes. *)
Lemma differ_result (f : bool) : s8 ((if f then 2 ^ 32 - 1 else 0) - u8 (if f then 2 ^ 32 - 1 else 0)
    + u8 (Z.lor (u8 (if f then 2 ^ 32 - 1 else 0)) 1)) = if f then -1 else 1.
Proof. by destruct f. Qed.

(** The first bytes of two strings, and whether they are the last. *)
Lemma cstring_head m a l : cstring m a l ->
  load8 m a = default 0 (head l) /\ (load8 m a = 0 <-> l = []) /\ (l <> [] -> cstring m (a + 1) (tail l)).
Proof. destruct l as [|b l]; cbn; [done|]. intros (H1 & H2 & H3). rewrite H1. done. Qed.

Lemma order_heads l1 l2 : default 0 (head l1) <> default 0 (head l2) ->
  Forall (fun b => 0 < b < 2 ^ 8) l1 -> Forall (fun b => 0 < b < 2 ^ 8) l2 ->
  order l1 l2 = if default 0 (head l1) <? default 0 (head l2) then -1 else 1.
Proof.
  intros Hne H1 H2. destruct H1 as [|b1 l1 Hb1 H1], H2 as [|b2 l2 Hb2 H2]; cbn in *; [done|..].
  - by replace (0 <? b2) with true by lia.
  - by replace (b1 <? 0) with false by lia.
  - by replace (b1 =? b2) with false by lia.
Qed.

Lemma strcmp_spec c s1 s2 l1 l2 :
  cstring (ram c) s1 l1 -> cstring (ram c) s2 l2 -> 0 <= s1 -> 0 <= s2 ->
  s1 + Z.of_nat (length l1) + 1 < 2 ^ 32 -> s2 + Z.of_nat (length l2) + 1 < 2 ^ 32 ->
  exists t, finishes strcmp_code (strcmp_args s1 s2 c) t /\ s8 (eax t) = order l1 l2 /\ ram t = ram c.
Proof.
  revert c s1 s2 l2. induction l1 as [|b1 l1 IH]; intros [pc0 a c d b0 sp bp si di f1 f2 f3 ip i m] s1 s2 l2 H1 H2 P1 P2 B1 B2;
    unfold strcmp_args; cbn [setter]; fields;
    destruct (cstring_head _ _ _ H1) as (E1 & Z1 & T1), (cstring_head _ _ _ H2) as (E2 & Z2 & T2);
    pose proof (cstring_bytes _ _ _ H1) as F1; pose proof (cstring_bytes _ _ _ H2) as F2;
    pose proof (load8_range m s1) as R1; pose proof (load8_range m s2) as R2.
  all: destruct (Z.eq_dec (load8 m s1) (load8 m s2)) as [Eq|Ne]; [|rewrite E1, E2 in Ne;
    rewrite (order_heads _ _ Ne F1 F2), <-E1, <-E2; rewrite <-E1, <-E2 in Ne; eexists; split;
    [asm 3; rewrite al_set by done; rewrite (proj2 (Z.eqb_neq _ _) Ne); cbn [negb];
     asm 2; by apply asm_end|fields; split; [by apply differ_result|done]]].
  - assert (l2 = []) as -> by (apply Z2; cbn in *; lia). cbn in H2. eexists. split.
    + asm 3. rewrite al_set, Eq, !Z.eqb_refl by done. cbn [negb].
      asm 2. rewrite H2.
      rewrite al_set by done. cbn [Z.eqb negb]. asm 2. by apply asm_end.
    + by fields.
  - destruct l2 as [|b2 l2]; [cbn in *; lia|]. cbn in E1, E2. assert (b2 = b1) as -> by lia.
    cbn [order]. rewrite Z.eqb_refl. cbn [length tail] in *.
    edestruct (IH (Cpu 4 (a - u8 a + u8 (load8 m s1)) c d b0 sp bp s1 s2 false false (2 ^ 7 <=? load8 m s1) ip i m) (s1 + 1) (s2 + 1) l2)
      as (t & Ht & Ho & Hm); fields; try lia; try (by apply T1); try (by apply T2).
    exists t. split; [|by split]. asm 3.
    rewrite al_set, Eq, !Z.eqb_refl by done. cbn [negb]. asm 2. rewrite <-Eq, al_set by done.
    replace (load8 m s1 =? 0) with false by (cbn in H1; lia). cbn [negb]. rewrite !u32_small by lia. exact Ht.
Qed.

Lemma strncmp_spec c s1 s2 n l1 l2 :
  cstring (ram c) s1 l1 -> cstring (ram c) s2 l2 -> 0 <= s1 -> 0 <= s2 -> Z.of_nat n < 2 ^ 31 ->
  s1 + Z.of_nat (length l1) + 1 < 2 ^ 32 -> s2 + Z.of_nat (length l2) + 1 < 2 ^ 32 ->
  exists t, finishes strncmp_code (strncmp_args s1 s2 (Z.of_nat n) c) t /\ s8 (eax t) = order (take n l1) (take n l2) /\ ram t = ram c.
Proof.
  revert c s1 s2 l1 l2. induction n as [|n IH]; intros [pc0 a c d b0 sp bp si di f1 f2 f3 ip i m] s1 s2 l1 l2 H1 H2 P1 P2 Hn B1 B2;
    unfold strncmp_args; cbn [setter]; fields.
  { eexists. split; [asm 4; by apply asm_end|]. by fields. }
  destruct (cstring_head _ _ _ H1) as (E1 & Z1 & T1), (cstring_head _ _ _ H2) as (E2 & Z2 & T2).
  pose proof (cstring_bytes _ _ _ H1) as F1. pose proof (cstring_bytes _ _ _ H2) as F2.
  pose proof (load8_range m s1) as R1. pose proof (load8_range m s2) as R2.
  assert (D1 : default 0 (head (take (S n) l1)) = load8 m s1) by (rewrite E1; by destruct l1).
  assert (D2 : default 0 (head (take (S n) l2)) = load8 m s2) by (rewrite E2; by destruct l2).
  destruct (Z.eq_dec (load8 m s1) (load8 m s2)) as [Eq|Ne].
  2:{ rewrite order_heads; rewrite ?D1, ?D2; [|done|by apply Forall_take..]. eexists. split.
    { count_down n.
    asm 3. rewrite al_set, (proj2 (Z.eqb_neq _ _) Ne) by done. cbn [negb].
    asm 2. by apply asm_end. }
    fields. split; [by apply differ_result|done]. }
  destruct l1 as [|b1 l1], l2 as [|b2 l2]; cbn [head default from_option id] in E1, E2;
    try (apply cstring_bytes in H1; apply cstring_bytes in H2; apply Forall_cons in H1 || apply Forall_cons in H2; lia).
  - eexists. split.
    { count_down n.
    asm 3. rewrite al_set, Eq, !Z.eqb_refl by done. cbn [negb].
    asm 2. rewrite E2, al_set by done. cbn [Z.eqb negb].
    asm 2. by apply asm_end. }
    by fields.
  - assert (b2 = b1) as -> by lia. cbn [order take]. rewrite Z.eqb_refl. cbn [length tail] in *.
    edestruct (IH (Cpu 6 (a - u8 a + u8 (load8 m s1)) c d b0 sp bp s1 s2 false false (2 ^ 7 <=? load8 m s1) ip i m) (s1 + 1) (s2 + 1) l1 l2)
      as (t & Ht & Ho & Hm); fields; try lia; try (by apply T1); try (by apply T2).
    exists t. split; [|by split]. count_down n.
    asm 3.
    rewrite al_set, Eq, !Z.eqb_refl by done. cbn [negb]. asm 2. rewrite <-Eq, al_set by done.
    replace (load8 m s1 =? 0) with false by (cbn in H1; lia). cbn [negb]. rewrite !u32_small by lia.
    replace (Z.of_nat (S n) - 1) with (Z.of_nat n) by lia. exact Ht.
Qed.

(** ** Searches *)

(** The loop of [strchr], with the character in [%ah]. *)
Lemma strchr_loop l : forall s, pc s = 1%nat -> cstring (ram s) (esi s) l -> 0 <= esi s -> esi s + Z.of_nat (length l) + 1 < 2 ^ 32 ->
  exists t, finishes strchr_code s t /\ eax t = default 0 (head (occurrences (ah s) (esi s) l)) /\ ram t = ram s.
Proof.
  induction l as [|b l IH]; intros [pc0 a c d b0 sp bp si di f1 f2 f3 ip i m] Hpc Hs H0 H1; unfold ah; fields; subst pc0;
    pose proof (load8_range m si) as Hr; set (ch := u8 (Z.shiftr a 8)); cbn [cstring occurrences length] in *.
  - destruct (Z.eq_dec ch 0) as [E|E]; eexists; (split; [asm 3; rewrite al_set, ah_set_al, Hs by done; fold ch|]).
    + rewrite E. asm 2. by apply asm_end.
    + fields. rewrite E. cbn. split; [rewrite !u32_small; rewrite ?u32_small; lia|done].
    + rewrite (proj2 (Z.eqb_neq 0 ch)) by lia. asm 2. rewrite ?Hs, al_set by done. asm 3. by apply asm_end.
    + fields. by rewrite (proj2 (Z.eqb_neq ch 0)).
  - destruct Hs as (Hb & Hb0 & Hs). destruct (Z.eq_dec ch b) as [E|E].
    + eexists. split; [asm 3; rewrite al_set, ah_set_al, Hb by done; fold ch; rewrite E, !Z.eqb_refl; asm 2; by apply asm_end|].
      fields. rewrite E, Z.eqb_refl. cbn. split; [rewrite !u32_small; rewrite ?u32_small; lia|done].
    + edestruct (IH (Cpu 1 (a - u8 a + u8 b) c d b0 sp bp (u32 (si + 1)) di false (b =? 0) (2 ^ 7 <=? b) ip i m)) as (t & Ht & Ha & Hm);
        unfold ah in *; fields; rewrite ?u32_small by lia; try done; try lia.
      exists t. split; [|split; [|done]].
      * asm 3. rewrite al_set, ah_set_al, Hb by done. fold ch. rewrite (proj2 (Z.eqb_neq b ch)) by lia. asm 2.
        rewrite al_set by lia. rewrite (proj2 (Z.eqb_neq b 0)) by done. cbn [negb]. rewrite (proj2 (Z.eqb_neq b 0)) in Ht by done. exact Ht.
      * rewrite Ha, ah_set_al by lia. fold ch. by rewrite (proj2 (Z.eqb_neq ch b)), u32_small by lia.
Qed.

(** The first occurrence, or a null pointer. *)
Lemma strchr_spec c s ch l :
  cstring (ram c) s l -> 0 <= s -> s + Z.of_nat (length l) + 1 < 2 ^ 32 ->
  exists t, finishes strchr_code (strchr_args s ch c) t /\ eax t = default 0 (head (occurrences (u8 ch) s l)) /\ ram t = ram c.
Proof.
  intros Hs H0 H1. destruct (strchr_loop l (exec movb_al_ah (strchr_args s ch c))) as (t & Ht & Ha & Hm); [done..|].
  exists t. split; [by eapply asm_step|]. split; [|done]. rewrite Ha. unfold strchr_args. x86.
  rewrite ah_set_ah by apply u8_range. done.
Qed.

Lemma strrchr_loop l : forall s, pc s = 1%nat -> cstring (ram s) (esi s) l -> 0 <= esi s -> esi s + Z.of_nat (length l) + 1 < 2 ^ 32 ->
  exists t, finishes strrchr_code s t /\ edx t = default (edx s) (last (occurrences (ah s) (esi s) l)) /\ ram t = ram s.
Proof.
  induction l as [|b l IH]; intros [pc0 a c d b0 sp bp si di f1 f2 f3 ip i m] Hpc Hs H0 H1; unfold ah; fields; subst pc0;
    pose proof (load8_range m si) as Hr; set (ch := u8 (Z.shiftr a 8)); cbn [cstring occurrences length] in *.
  - destruct (Z.eq_dec ch 0) as [E|E]; eexists; (split; [asm 3; rewrite al_set, ah_set_al, Hs by done; fold ch|]).
    + rewrite E. cbn [Z.eqb negb]. asm 3. rewrite ?Hs, al_set by done. by apply asm_end.
    + fields. rewrite E. cbn. split; [rewrite !u32_small; rewrite ?u32_small; lia|done].
    + rewrite (proj2 (Z.eqb_neq 0 ch)) by lia. cbn [negb]. asm 2. rewrite ?Hs, al_set by done. by apply asm_end.
    + fields. by rewrite (proj2 (Z.eqb_neq ch 0)).
  - destruct Hs as (Hb & Hb0 & Hs).
    edestruct (IH (Cpu 1 (a - u8 a + u8 b) c (if ch =? b then si else d) b0 sp bp (u32 (si + 1)) di false (b =? 0) (2 ^ 7 <=? b) ip i m))
      as (t & Ht & Ha & Hm); unfold ah in *; fields; rewrite ?u32_small by lia; try done; try lia.
    exists t. rewrite (proj2 (Z.eqb_neq b 0)) in Ht by done. split; [|split; [|done]].
    + asm 3. rewrite al_set, ah_set_al, Hb by done. fold ch. rewrite (Z.eqb_sym b ch). destruct (Z.eqb_spec ch b) as [E|E]; cbn [negb].
      * asm 3. rewrite ?Hb, al_set by lia. rewrite (proj2 (Z.eqb_neq b 0)) by done. cbn [negb].
        rewrite (u32_small (u32 (si + 1) + -1)), (u32_small (si + 1)) by (rewrite ?u32_small; lia).
        rewrite (u32_small (si + 1)) in Ht by lia. replace (si + 1 + -1) with si by lia. exact Ht.
      * asm 2. rewrite ?Hb, al_set by lia. rewrite (proj2 (Z.eqb_neq b 0)) by done. exact Ht.
    + rewrite Ha, ah_set_al, u32_small by lia. fold ch. destruct (ch =? b); [|done]. cbn [app].
      rewrite last_cons. by destruct (last (occurrences ch (si + 1) l)).
Qed.

(** The last occurrence, or a null pointer. *)
Lemma strrchr_spec c s ch l :
  cstring (ram c) s l -> 0 <= s -> s + Z.of_nat (length l) + 1 < 2 ^ 32 ->
  exists t, finishes strrchr_code (strrchr_args s ch c) t /\ edx t = default 0 (last (occurrences (u8 ch) s l)) /\ ram t = ram c.
Proof.
  intros Hs H0 H1. destruct (strrchr_loop l (exec movb_al_ah (strrchr_args s ch c))) as (t & Ht & Ha & Hm); [done..|].
  exists t. split; [by eapply asm_step|]. split; [|done]. rewrite Ha. unfold strrchr_args. x86.
  rewrite ah_set_ah by apply u8_range. done.
Qed.

(** ** memcpy *)

Lemma copy_bytes_app a b dest src m :
  copy_bytes (a + b) dest src m = copy_bytes b (dest + Z.of_nat a) (src + Z.of_nat a) (copy_bytes a dest src m).
Proof.
  revert dest src m; induction a as [|a IH]; intros dest src m; cbn [copy_bytes Nat.add].
  - by rewrite !Z.add_0_r.
  - rewrite IH. f_equal; lia.
Qed.

(** The bytes of a word. *)
Lemma byte_of b0 r : 0 <= b0 < 2 ^ 8 -> u8 (b0 + 2 ^ 8 * r) = u8 b0 /\ (b0 + 2 ^ 8 * r) / 2 ^ 8 = r.
Proof.
  intros H. split; [unfold u8|]; rewrite (Z.mul_comm (2 ^ 8)); [by rewrite Z.mod_add|rewrite Z.div_add by lia; rewrite Z.div_small; lia].
Qed.

(** A word moved is its bytes moved. *)
Lemma movsw_copy m d s : d + 2 <= s \/ s + 2 <= d -> store16 m d (load16 m s) = copy_bytes 2 d s m.
Proof.
  intros Hd. cbn [copy_bytes]. rewrite load8_store8_ne by lia. unfold store16, load16, store8.
  destruct (byte_of (load8 m s) (load8 m (s + 1)) (load8_range m s)) as [-> ->]. done.
Qed.

Lemma movsl_copy m d s : d + 4 <= s \/ s + 4 <= d -> store32 m d (load32 m s) = copy_bytes 4 d s m.
Proof.
  intros Hd. cbn [copy_bytes]. rewrite !load8_store8_ne by lia. unfold store32, load32, store8.
  replace (d + 1 + 1) with (d + 2) by lia. replace (d + 2 + 1) with (d + 3) by lia.
  replace (s + 1 + 1) with (s + 2) by lia. replace (s + 2 + 1) with (s + 3) by lia.
  set (b0 := load8 m s). set (b1 := load8 m (s + 1)). set (b2 := load8 m (s + 2)). set (b3 := load8 m (s + 3)).
  replace (b0 + 2 ^ 8 * b1 + 2 ^ 16 * b2 + 2 ^ 24 * b3) with (b0 + 2 ^ 8 * (b1 + 2 ^ 8 * (b2 + 2 ^ 8 * b3))) by lia.
  change (2 ^ 24) with (2 ^ 8 * 2 ^ 8 * 2 ^ 8). change (2 ^ 16) with (2 ^ 8 * 2 ^ 8). rewrite <-!Z.div_div by lia.
  destruct (byte_of b0 (b1 + 2 ^ 8 * (b2 + 2 ^ 8 * b3)) (load8_range m s)) as [-> ->].
  destruct (byte_of b1 (b2 + 2 ^ 8 * b3) (load8_range m (s + 1))) as [-> ->].
  by destruct (byte_of b2 b3 (load8_range m (s + 2))) as [-> ->].
Qed.

(** [rep movsl]. *)
Lemma move_loop p k n :
  p !! k = Some rep_movsl ->
  forall s, pc s = k -> ecx s = Z.of_nat n -> 0 <= esi s -> 0 <= edi s ->
  let z := 4 * Z.of_nat n in
  esi s + z < 2 ^ 32 -> edi s + z < 2 ^ 32 -> edi s + z <= esi s \/ esi s + z <= edi s ->
  exists s', leads p s s' /\ pc s' = S k /\ ram s' = copy_bytes (4 * n) (edi s) (esi s) (ram s)
    /\ esi s' = esi s + z /\ edi s' = edi s + z /\ eax s' = eax s.
Proof.
  intros P0. induction n as [|n IH]; intros [pc0 a c d b0 sp bp si di f1 f2 f3 ip i m] Hpc Hc H0 H1 z H2 H3 Hd; fields; subst pc0 c.
  - eexists. split; [eapply asm_leads; [exact P0|]; x86; change (Z.of_nat 0 =? 0) with true; apply leads_refl|].
    fields. unfold z. split_and!; (done || lia).
  - edestruct (IH (Cpu k a (Z.of_nat n) d b0 sp bp (u32 (si + 4)) (u32 (di + 4)) f1 f2 f3 ip i (store32 m di (load32 m si))))
      as (s' & Hl & Hpc & Hm & Hs & Hd' & Ha); fields; rewrite ?u32_small in * by lia; try done; try lia.
    exists s'. split; [|split; [done|]].
    + eapply asm_leads; [exact P0|]; x86. rewrite (proj2 (Z.eqb_neq (Z.of_nat (S n)) 0)) by lia.
      rewrite (u32_small (Z.of_nat (S n) - 1)) by lia. replace (Z.of_nat (S n) - 1) with (Z.of_nat n) by lia.
      rewrite !u32_small by lia. exact Hl.
    + rewrite Hm, Hs, Hd', Ha. split_and!; try done; try lia.
      replace (4 * S n)%nat with (4 + 4 * n)%nat by lia. rewrite copy_bytes_app, movsl_copy by lia. done.
Qed.

(** Conditions on known numbers, decided. *)
Ltac known :=
  repeat match goal with
  | |- context [Z.eqb ?a ?b] =>
    let v := eval vm_compute in (Z.eqb a b) in
    match v with true => change (Z.eqb a b) with true | false => change (Z.eqb a b) with false end
  end; cbv iota.

(** The one to three bytes that are left after the words. *)
Lemma memcpy_tail s r : pc s = 3%nat -> 0 < r < 4 -> Z.land (eax s) 3 = r -> 0 <= esi s -> 0 <= edi s ->
  esi s + r < 2 ^ 32 -> edi s + r < 2 ^ 32 -> edi s + r <= esi s \/ esi s + r <= edi s ->
  exists t, finishes memcpy_slow s t /\ ram t = copy_bytes (Z.to_nat r) (edi s) (esi s) (ram s).
Proof.
  destruct s as [pc0 a c d b0 sp bp si di f1 f2 f3 ip i m]. intros Hpc Hr Ha H0 H1 H2 H3 Hd. fields. subst pc0.
  assert (r = 1 \/ r = 2 \/ r = 3) as [->|[->| ->]] by lia;
    (eexists; split; [asm 1; rewrite Ha; known; repeat (asm 1; known); by apply asm_end|]); fields.
  - rewrite al_set by apply load8_range. done.
  - by rewrite movsw_copy by lia.
  - rewrite al_set by apply load8_range. rewrite movsw_copy, !u32_small by lia.
    change (Z.to_nat 3) with (2 + 1)%nat. by rewrite copy_bytes_app.
Qed.

Lemma memcpy_spec c dest src n :
  0 <= n -> 0 <= src -> 0 <= dest -> src + n < 2 ^ 32 -> dest + n < 2 ^ 32 -> dest + n <= src \/ src + n <= dest ->
  exists t, finishes (memcpy_code n) (memcpy_args dest src n c) t /\ ram t = copy_bytes (Z.to_nat n) dest src (ram c).
Proof.
  intros H0 Hs Hd H1 H2 Ha. unfold memcpy_code, memcpy_args.
  assert (Hr : Z.land n 3 = n mod 4) by (change 3 with (Z.ones 2); by rewrite Z.land_ones by lia).
  assert (Hq : Z.shiftr n 2 = Z.of_nat (Z.to_nat (n / 4))) by (rewrite Z.shiftr_div_pow2, Z2Nat.id by (try apply Z.div_pos; lia); done).
  pose proof (Z.div_mod n 4 ltac:(lia)) as Hn. pose proof (Z.mod_pos_bound n 4 ltac:(lia)) as Hm. pose proof (Z.div_pos n 4 H0 ltac:(lia)) as Hp.
  destruct (Z.eqb_spec (Z.land n 3) 0) as [E|E]; rewrite Hr in E.
  - edestruct (move_loop memcpy_quick 0 (Z.to_nat (n / 4)) eq_refl) as (t & Hl & Hpc & Hm' & _); cycle -1.
    { exists t. split; [by apply Hl, (finishes_at _ _ _ Hpc)|]. rewrite Hm'. cbn [ram edi esi setter]. f_equal. lia. }
    all: cbn; rewrite ?Hq; (done || lia).
  - set (s0 := exec (shrl 2 ECX) (exec (movl ECX EAX) (c <| pc := 0%nat |> <| esi := src |> <| edi := dest |> <| ecx := n |>))).
    destruct (move_loop memcpy_slow 2 (Z.to_nat (n / 4)) eq_refl s0) as (s1 & Hl & Hpc & Hm' & Hs1 & Hd1 & Ha1);
      [done|exact Hq|done|done|cbn; lia..|]. change (esi s0) with src in *. change (edi s0) with dest in *. change (eax s0) with n in Ha1.
    destruct (memcpy_tail s1 (n mod 4)) as (t & Ht & Em); rewrite ?Ha1, ?Hs1, ?Hd1; try done; try lia.
    exists t. split; [do 2 (eapply asm_step; [reflexivity|]); by apply Hl|].
    rewrite Em, Hm', Hs1, Hd1. change (ram s0) with (ram c). replace (Z.to_nat n) with (4 * Z.to_nat (n / 4) + Z.to_nat (n mod 4))%nat by lia.
    rewrite copy_bytes_app. f_equal; lia.
Qed.

(** ** The functions together *)

(** The code comes to its end, with [P], and keeps the registers a function keeps. *)
Definition computes (p : list insn) (s : cpu) (P : cpu -> Prop) : Prop := exists t, finishes p s t /\ P t /\ kept t = kept s.

Lemma computes_intro p s (P : cpu -> Prop) : forallb tame p = true -> (exists t, finishes p s t /\ P t) -> computes p s P.
Proof. intros Hp (t & Ht & HP). exists t. split_and!; [done|done|]. by eapply tame_finishes. Qed.

(** C15: the string functions of the i386 target, for strings [l] at [a] and [k] at [b]
    with room and apart.  Each comes to its end, keeps the registers it must keep, and
    computes its reference: the length; the copy with its zero; the first [n] bytes
    filled up with zeros; the concatenation; the concatenation of at most [n] bytes,
    which gets a second zero when the zero of the source has been copied; the order as
    unsigned bytes, of the strings and of their first [n] bytes; the addresses of the
    first and the last occurrence of a character or null; and [memcpy] the copy byte by
    byte that the other components use. *)
Theorem i386_string_functions c a b n l k :
  let room := Z.of_nat (length l + length k + n) + 2 in
  cstring (ram c) a l -> cstring (ram c) b k -> 0 <= a -> 0 <= b -> a + room < 2 ^ 32 -> b + room < 2 ^ 32 ->
  a + room <= b \/ b + room <= a -> Z.of_nat n < 2 ^ 31 ->
  computes strlen_code (strlen_args a c) (fun t => ecx t = Z.of_nat (length l) /\ ram t = ram c)
  /\ computes strcpy_code (strcpy_args a b c) (fun t => ram t = store_list (ram c) a (k ++ [0]))
  /\ computes strncpy_code (strncpy_args a b (Z.of_nat n) c) (fun t => ram t = store_list (ram c) a (padded n k))
  /\ computes strcat_code (strcat_args a b c) (fun t => ram t = store_list (ram c) (a + Z.of_nat (length l)) (k ++ [0]))
  /\ computes (strncat_code (Z.of_nat n)) (strcat_args a b c)
       (fun t => ram t = store_list (ram c) (a + Z.of_nat (length l))
          (take n k ++ if (length k <? n)%nat then [0; 0] else [0]))
  /\ computes strcmp_code (strcmp_args a b c) (fun t => s8 (eax t) = order l k /\ ram t = ram c)
  /\ computes strncmp_code (strncmp_args a b (Z.of_nat n) c)
       (fun t => s8 (eax t) = order (take n l) (take n k) /\ ram t = ram c)
  /\ (forall ch, computes strchr_code (strchr_args a ch c)
       (fun t => eax t = default 0 (head (occurrences (u8 ch) a l)) /\ ram t = ram c))
  /\ (forall ch, computes strrchr_code (strrchr_args a ch c)
       (fun t => edx t = default 0 (last (occurrences (u8 ch) a l)) /\ ram t = ram c))
  /\ computes (memcpy_code (Z.of_nat n)) (memcpy_args a b (Z.of_nat n) c) (fun t => ram t = copy_bytes n a b (ram c)).
Proof.
  intros room Hl Hk Ha Hb Hra Hrb Hd Hn.
  split_and!; try intros ch; (apply computes_intro; [try done|]).
  - apply strlen_spec; [done|lia..].
  - apply strcpy_spec; [done|lia..].
  - apply strncpy_spec; [done|lia..].
  - by apply strcat_spec; try lia.
  - pose proof (copied_length n k).
    replace (take n k ++ if (length k <? n)%nat then [0; 0] else [0]) with (copied n k ++ [0])
      by (unfold copied; destruct (length k <? n)%nat; by rewrite <-app_assoc).
    apply strncat_spec; rewrite ?length_app; cbn [length]; try done; lia.
  - apply strcmp_spec; (done || lia).
  - apply strncmp_spec; (done || lia).
  - apply strchr_spec; (done || lia).
  - apply strrchr_spec; (done || lia).
  - unfold memcpy_code. by destruct (Z.land (Z.of_nat n) 3 =? 0).
  - destruct (memcpy_spec c a b (Z.of_nat n)) as (t & Ht & Hm); [lia..|]. exists t. by rewrite Nat2Z.id in Hm.
Qed.

(** "abc" at 0x100 and "abd" at 0x200. *)
Definition demo_cpu : cpu :=
  Cpu 0 7 8 9 10 0x8000 11 12 13 false false false 0 true
    (store_list (store_list ∅ 0x100 [97; 98; 99; 0]) 0x200 [97; 98; 100; 0]).

Lemma i386_string_functions_witness :
  computes strlen_code (strlen_args 0x100 demo_cpu) (fun t => ecx t = 3 /\ ram t = ram demo_cpu)
  /\ computes strcmp_code (strcmp_args 0x100 0x200 demo_cpu) (fun t => s8 (eax t) = -1 /\ ram t = ram demo_cpu)
  /\ computes (strncat_code 2) (strcat_args 0x100 0x200 demo_cpu)
       (fun t => ram t = store_list (ram demo_cpu) 0x103 [97; 98; 0]).
Proof.
  destruct (i386_string_functions demo_cpu 0x100 0x200 2 [97; 98; 99] [97; 98; 100])
    as (H1 & _ & _ & _ & H2 & H3 & _); try (cbn; lia); [by vm_compute..|].
  split_and!; [exact H1|exact H3|exact H2].
Defined.
