(* ===== verification/AvrString.v ===== *)
(** * The string functions of the AVR (include/avr/string.h, include/avr/memory.h)

    The same functions as in CString.v in the assembly code of the AVR: sixteen-bit
    pointers in register pairs, eight-bit data.  [P0], [P1] and [P2] are the pairs of
    the operands [%a0], [%a1] and [%a2], [count] the pair of the operand [n], [tmp] is
    [__tmp_reg__] and [res] the eight-bit result operand. *)

From stdpp Require Import base list gmap fin_maps strings.
From Stdlib Require Import ZArith Lia.
From S2P Require Import Prelude Membuf NetbufMem Ip Parts Asm I386 CString.
Open Scope Z_scope.

Module Avr.

Inductive pair := P0 | P1 | P2 | Count.

#[export] Instance pair_eq_dec : EqDecision pair.
Proof. solve_decision. Defined.

Record cpu := Avr_ {
  pc : nat;
  p0 : Z; p1 : Z; p2 : Z; count : Z;
  tmp : Z; res_ : Z;
  zf : bool; cf : bool;
  sram : mem }.

#[export] Instance eta_avr : Eta cpu := fun s =>
  Avr_ (pc s) (p0 s) (p1 s) (p2 s) (count s) (tmp s) (res_ s) (zf s) (cf s) (sram s).

Definition get (r : pair) (s : cpu) : Z := match r with P0 => p0 s | P1 => p1 s | P2 => p2 s | Count => count s end.
Definition set (r : pair) (v : Z) (s : cpu) : cpu :=
  match r with P0 => s <| p0 := v |> | P1 => s <| p1 := v |> | P2 => s <| p2 := v |> | Count => s <| count := v |> end.

Inductive insn :=
  | ld (r : pair)            (* ld __tmp_reg__, r+ *)
  | ldr (r : pair)           (* ld %0, r+ *)
  | st (r : pair)            (* st r+, __tmp_reg__ *)
  | tst                      (* tst __tmp_reg__ *)
  | sub                      (* sub %0, __tmp_reg__ *)
  | cp (c : Z)               (* cp __tmp_reg__, c *)
  | ldi (imm : Z)            (* ldi %0, imm *)
  | ldi_pair (imm : Z) (r : pair)   (* ldi %A, lo; ldi %B, hi *)
  | mov (dst src : pair)     (* mov %A, %A; mov %B, %B *)
  | sbiw (r : pair)          (* sbiw r, 1 *)
  | brne (l : nat) | breq (l : nat) | brcc (l : nat).

Definition next (s : cpu) : cpu := s <| pc := S (pc s) |>.
Definition goto (b : bool) (l : nat) (s : cpu) : cpu := if b then s <| pc := l |> else next s.
Definition bump (r : pair) (s : cpu) : cpu := set r (u16 (get r s + 1)) s.

Definition exec (i : insn) (s : cpu) : cpu :=
  match i with
  | ld r => next (bump r (s <| tmp := load8 (sram s) (get r s) |>))
  | ldr r => next (bump r (s <| res_ := load8 (sram s) (get r s) |>))
  | st r => next (bump r (s <| sram := store8 (sram s) (get r s) (tmp s) |>))
  | tst => next (s <| zf := tmp s =? 0 |>)
  | sub => next (s <| res_ := u8 (res_ s - tmp s) |> <| zf := res_ s =? tmp s |> <| cf := res_ s <? tmp s |>)
  | cp c => next (s <| zf := tmp s =? c |> <| cf := tmp s <? c |>)
  | ldi imm => next (s <| res_ := imm |>)
  | ldi_pair imm r => next (set r imm s)
  | mov dst src => next (set dst (get src s) s)
  | sbiw r => let v := u16 (get r s - 1) in next (set r v s <| zf := v =? 0 |> <| cf := get r s <? 1 |>)
  | brne l => goto (negb (zf s)) l s
  | breq l => goto (zf s) l s
  | brcc l => goto (negb (cf s)) l s
  end.

#[export] Instance avr : Machine cpu insn := {| next_insn := pc; exec_insn := exec |}.

(** ** The code *)

Definition strlen_code : list insn := [ld P0; tst; brne 0].
Definition strlen_args (s : Z) (c : cpu) : cpu := c <| pc := 0%nat |> <| p0 := s |>.
(** [return (--t) - s]. *)
Definition strlen_result (s : Z) (t : cpu) : Z := u16 (p0 t - 1 - s).

Definition strcpy_code : list insn := [ld P1; st P0; tst; brne 0].
Definition strcpy_args (dest src : Z) (c : cpu) : cpu := c <| pc := 0%nat |> <| p0 := dest |> <| p1 := src |>.

(** The code is inside [if (n)]. *)
Definition strncpy_code (n : Z) : list insn := if n =? 0 then [] else [ld P1; st P0; sbiw Count; breq 6; tst; brne 0].
Definition strncpy_args (dest src n : Z) (c : cpu) : cpu :=
  c <| pc := 0%nat |> <| p0 := dest |> <| p1 := src |> <| count := n |>.

Definition strcat_code : list insn := [ld P1; tst; brne 0; sbiw P1; ld P0; st P1; tst; brne 4].
Definition strcat_args (dest src : Z) (c : cpu) : cpu := c <| pc := 0%nat |> <| p1 := dest |> <| p0 := src |>.

Definition strncat_code (n : Z) : list insn :=
  if n =? 0 then []
  else [ld P1; tst; brne 0; sbiw P1; ld P0; st P1; sbiw Count; breq 10; tst; brne 4].
Definition strncat_args (dest src n : Z) (c : cpu) : cpu :=
  c <| pc := 0%nat |> <| p1 := dest |> <| p0 := src |> <| count := n |>.

Definition strcmp_code : list insn := [ld P2; ldr P1; sub; brne 6; tst; brne 0; brcc 8; ldi 0xff].
Definition strcmp_args (s1 s2 : Z) (c : cpu) : cpu := c <| pc := 0%nat |> <| p1 := s1 |> <| p2 := s2 |>.

(** With [n = 0] the result is not set. *)
Definition strncmp_code (n : Z) : list insn :=
  if n =? 0 then []
  else [ld P2; ldr P1; sub; brne 10; sbiw Count; breq 8; tst; brne 0; brcc 10; ldi 0xff].
Definition strncmp_args (s1 s2 n : Z) (c : cpu) : cpu :=
  c <| pc := 0%nat |> <| p1 := s1 |> <| p2 := s2 |> <| count := n |>.

Definition strchr_code (ch : Z) : list insn := [ld P0; cp ch; breq 6; tst; brne 0; ldi_pair 1 P0; sbiw P0].
Definition strchr_args (s : Z) (c : cpu) : cpu := c <| pc := 0%nat |> <| p0 := s |>.

Definition strrchr_code (ch : Z) : list insn := [ld P0; cp ch; brne 4; mov P1 P0; tst; brne 0].
Definition strrchr_args (s : Z) (c : cpu) : cpu := c <| pc := 0%nat |> <| p0 := s |> <| p1 := 1 |>.
(** [return --ret]. *)
Definition strrchr_result (t : cpu) : Z := u16 (p1 t - 1).

Definition memcpy_code (n : Z) : list insn := if n =? 0 then [] else [ld P0; st P1; sbiw Count; brne 0].
Definition memcpy_args (dest src n : Z) (c : cpu) : cpu :=
  c <| pc := 0%nat |> <| p0 := src |> <| p1 := dest |> <| count := n |>.

End Avr.

Module AvrFacts.
Import Avr.

Lemma avr_step (p : list insn) s i t : p !! pc s = Some i -> finishes p (exec i s) t -> finishes p s t.
Proof. exact (finishes_step p s i t). Qed.

Lemma avr_leads (p : list insn) s i s' : p !! pc s = Some i -> leads p (exec i s) s' -> leads p s s'.
Proof. exact (leads_step p s i s'). Qed.

Lemma avr_end (p : list insn) s n : pc s = n -> p !! n = None -> finishes p s s.
Proof. intros <-. exact (finishes_end p s). Qed.

Ltac fields := cbn [pc p0 p1 p2 count tmp res_ zf cf sram] in *.
Ltac avr := cbv [exec next goto bump get set pc p0 p1 p2 count tmp res_ zf cf sram setter]; fields.
Tactic Notation "asm" integer(k) := do k (eapply avr_step; [reflexivity|]; avr).
Tactic Notation "asml" integer(k) := do k (eapply avr_leads; [first [reflexivity|eassumption]|]; avr).
Ltac finish := cbn [negb]; by eapply avr_end; [reflexivity|].

(** The source and the destination of a copy. *)
Definition copy_pairs (rs rd : pair) : Prop := rs = P1 /\ rd = P0 \/ rs = P0 /\ rd = P1.

(** [ld; st; tst; brne] at [k]. *)
Lemma avr_copy_loop p k rs rd l :
  copy_pairs rs rd ->
  p !! k = Some (ld rs) -> p !! (1 + k)%nat = Some (st rd) -> p !! (2 + k)%nat = Some tst -> p !! (3 + k)%nat = Some (brne k) ->
  forall s, pc s = k -> cstring (sram s) (get rs s) l -> 0 <= get rs s -> 0 <= get rd s ->
  let n := Z.of_nat (length l) + 1 in
  get rs s + n < 2 ^ 16 -> get rd s + n < 2 ^ 16 -> get rd s + n <= get rs s \/ get rs s + n <= get rd s ->
  exists s', leads p s s' /\ pc s' = (4 + k)%nat /\ sram s' = store_list (sram s) (get rd s) (l ++ [0]).
Proof.
  intros [[-> ->]|[-> ->]] E0 E1 E2 E3; cbn [get]; induction l as [|b l IH];
    intros [pc0 a0 a1 a2 w tm r fz fc m] Hpc Hs H0 H1 H2 H3 Hd; fields; subst pc0; cbn [cstring length app store_list] in *.
  1,3: eexists; split; [asml 4; rewrite Hs; apply leads_refl|done].
  all: destruct Hs as (Hb & Hb0 & Hs); edestruct IH as (s' & Hl & Hpc' & Hm);
    lazymatch goal with _ : leads _ _ s' |- _ => idtac | _ => shelve end.
  all: exists s'; split; [asml 4; rewrite Hb, (proj2 (Z.eqb_neq b 0)) by done; exact Hl|split; [exact Hpc'|]];
    rewrite Hm; fields; by rewrite ?Hb, u16_small by lia.
  Unshelve. all: fields; rewrite ?u16_small by lia; try lia; try done; try (apply cstring_store; [done|lia]).
Qed.

(** [ld; tst; brne] at [0]: the pointer ends behind the zero. *)
Lemma avr_scan_loop p r l :
  (r = P0 \/ r = P1) -> p !! 0%nat = Some (ld r) -> p !! 1%nat = Some tst -> p !! 2%nat = Some (brne 0) ->
  forall s, pc s = 0%nat -> cstring (sram s) (get r s) l -> 0 <= get r s -> get r s + Z.of_nat (length l) + 1 < 2 ^ 16 ->
  exists s', leads p s s' /\ pc s' = 3%nat /\ sram s' = sram s /\ get r s' = get r s + Z.of_nat (length l) + 1
    /\ (if bool_decide (r = P0) then p1 s' = p1 s else p0 s' = p0 s) /\ count s' = count s.
Proof.
  intros [-> | ->] E0 E1 E2; cbn [get]; induction l as [|b l IH]; intros [pc0 a0 a1 a2 w tm r fz fc m] Hpc Hs H0 H1;
    fields; subst pc0; cbn [cstring length] in *.
  1,3: eexists; split; [asml 3; rewrite Hs; apply leads_refl|]; fields; cbn; rewrite u16_small by lia; split_and!; (done || lia).
  all: destruct Hs as (Hb & Hb0 & Hs); edestruct IH as (s' & Hl & Hpc' & Hm & Hp & Ho & Hc);
    lazymatch goal with _ : leads _ _ s' |- _ => idtac | _ => shelve end.
  all: exists s'; split; [asml 3; rewrite Hb, (proj2 (Z.eqb_neq b 0)) by done; exact Hl|split; [exact Hpc'|]];
    rewrite Hm, Hp, Hc; fields; cbn in Ho |- *; rewrite u16_small by lia; split_and!; (done || lia).
  Unshelve. all: fields; rewrite ?u16_small by lia; try lia; done.
Qed.

(** [ld; st; sbiw; breq; tst; brne] at [k], with a count of at least one. *)
Lemma avr_bounded_loop p k rs rd l :
  copy_pairs rs rd ->
  p !! k = Some (ld rs) -> p !! (1 + k)%nat = Some (st rd) -> p !! (2 + k)%nat = Some (sbiw Count) ->
  p !! (3 + k)%nat = Some (breq (6 + k)) -> p !! (4 + k)%nat = Some tst -> p !! (5 + k)%nat = Some (brne k) ->
  forall s n, pc s = k -> cstring (sram s) (get rs s) l -> 0 <= get rs s -> 0 <= get rd s ->
  count s = Z.of_nat (S n) -> Z.of_nat (S n) < 2 ^ 16 ->
  let w := copied (S n) l in
  let z := Z.of_nat (length l) + 1 in
  get rs s + z < 2 ^ 16 -> get rd s + Z.of_nat (length w) < 2 ^ 16 ->
  get rd s + Z.of_nat (length w) <= get rs s \/ get rs s + z <= get rd s ->
  exists s', leads p s s' /\ pc s' = (6 + k)%nat /\ sram s' = store_list (sram s) (get rd s) w.
Proof.
  intros [[-> ->]|[-> ->]] E0 E1 E2 E3 E4 E5; cbn [get]; induction l as [|b l IH];
    intros [pc0 a0 a1 a2 w0 tm r fz fc m] n Hpc Hs H0 H1 Hn Hn16 H2 H3 Hd; fields; subst pc0 w0;
    cbn [cstring] in Hs.
  1,3: change (copied (S n) []) with [0] in *; destruct n as [|n];
    [eexists; split; [asml 4; apply leads_refl|fields; by rewrite ?Hs]|
     eexists; split; [asml 3; rewrite (u16_small (Z.of_nat _ - 1)) by lia; asml 1; rewrite (proj2 (Z.eqb_neq (Z.of_nat (S (S n)) - 1) 0)) by lia;
       asml 2; rewrite Hs; apply leads_refl|fields; by rewrite ?Hs]].
  all: destruct Hs as (Hb & Hb0 & Hs); fold cstring in Hs; pose proof (copied_length n l) as [Hw1 Hw2];
    change (copied (S n) (b :: l)) with (b :: copied n l) in *; cbn [length] in *; destruct n as [|n].
  1,3: eexists; split; [asml 4; apply leads_refl|fields; by rewrite ?Hb].
  all: edestruct IH as (s' & Hl & Hpc' & Hm); lazymatch goal with _ : leads _ _ s' |- _ => idtac | _ => shelve end.
  all: exists s'; split; [asml 3; rewrite (u16_small (Z.of_nat _ - 1)) by lia; asml 1; rewrite (proj2 (Z.eqb_neq (Z.of_nat (S (S n)) - 1) 0)) by lia;
      asml 2; rewrite Hb, (proj2 (Z.eqb_neq b 0)) by done; replace (Z.of_nat (S (S n)) - 1) with (Z.of_nat (S n)) by lia; exact Hl|
      split; [exact Hpc'|]]; rewrite Hm; fields; by rewrite ?Hb, u16_small by lia.
  Unshelve. all: fields; rewrite ?u16_small by lia; try lia; try done; try (apply cstring_store; [done|lia]).
Qed.

(** ** Comparisons *)

(** The first bytes in which two strings differ; a string ends with a zero. *)
Fixpoint first_diff (l1 l2 : list Z) : option (Z * Z) :=
  match l1, l2 with
  | [], [] => None
  | [], b2 :: _ => Some (0, b2)
  | b1 :: _, [] => Some (b1, 0)
  | b1 :: l1, b2 :: l2 => if b1 =? b2 then first_diff l1 l2 else Some (b1, b2)
  end.

(** [strcmp]: -1 when the first string is less, else the difference as a [s8_t]. *)
Definition strcmp_ref (l1 l2 : list Z) : Z :=
  match first_diff l1 l2 with
  | None => 0
  | Some (b1, b2) => if b1 <? b2 then -1 else s8 (b1 - b2)
  end.

(** [strncmp]: the difference as a [s8_t], in both directions. *)
Definition strncmp_ref (l1 l2 : list Z) : Z :=
  match first_diff l1 l2 with None => 0 | Some (b1, b2) => s8 (b1 - b2) end.

Lemma s8_u8 z : s8 (u8 z) = s8 z.
Proof. unfold s8, u8. rewrite Zplus_mod_idemp_l. done. Qed.

Lemma avr_strcmp_loop l1 : forall l2 s, pc s = 0%nat -> cstring (sram s) (p1 s) l1 -> cstring (sram s) (p2 s) l2 -> 0 <= p1 s -> 0 <= p2 s ->
  p1 s + Z.of_nat (length l1) + 1 < 2 ^ 16 -> p2 s + Z.of_nat (length l2) + 1 < 2 ^ 16 ->
  exists t, finishes strcmp_code s t /\ s8 (res_ t) = strcmp_ref l1 l2 /\ sram t = sram s.
Proof.
  induction l1 as [|b1 l1 IH]; intros [|b2 l2] [pc0 a0 a1 a2 w tm r fz fc m] Hpc H1 H2 P1 P2 B1 B2; fields; subst pc0;
    cbn [cstring length] in *; unfold strcmp_ref; cbn [first_diff].
  - eexists. split; [asm 4; rewrite H1, H2; cbn [Z.eqb negb]; asm 3; finish|done].
  - destruct H2 as (E2 & N2 & _). pose proof (load8_range m a2) as R2. rewrite (proj2 (Z.ltb_lt 0 b2)) by lia.
    eexists. split; [asm 4; rewrite H1, E2, (proj2 (Z.eqb_neq 0 b2)), (proj2 (Z.ltb_lt 0 b2)) by lia; cbn [negb]; asm 2; finish|done].
  - destruct H1 as (E1 & N1 & _). pose proof (load8_range m a1) as R1. rewrite (proj2 (Z.ltb_ge b1 0)) by lia.
    eexists. split; [asm 4; rewrite E1, H2, (proj2 (Z.eqb_neq b1 0)), (proj2 (Z.ltb_ge b1 0)) by lia; cbn [negb]; asm 1; finish|].
    fields. split; [by rewrite s8_u8|done].
  - destruct H1 as (E1 & N1 & H1), H2 as (E2 & N2 & H2). destruct (Z.eqb_spec b1 b2) as [<-|Ne].
    + edestruct IH as (t & Ht & Hr & Hm); lazymatch goal with _ : finishes _ _ t |- _ => idtac | _ => shelve end.
      exists t. split; [asm 4; rewrite E1, E2, Z.eqb_refl; cbn [negb]; asm 2; rewrite ?E2, (proj2 (Z.eqb_neq b1 0)) by done; exact Ht|].
      split; [exact Hr|exact Hm].
    + destruct (Z.ltb_spec b1 b2) as [Hlt|Hge];
        (eexists; split; [asm 4; rewrite E1, E2, (proj2 (Z.eqb_neq b1 b2)) by done; cbn [negb]|]).
      * rewrite (proj2 (Z.ltb_lt b1 b2)) by done. asm 2. finish.
      * done.
      * rewrite (proj2 (Z.ltb_ge b1 b2)) by done. asm 1. finish.
      * fields. by rewrite s8_u8.
  Unshelve. all: fields; rewrite ?u16_small by lia; try lia; done.
Qed.

Lemma avr_strncmp_loop n l1 : forall l2 s, pc s = 0%nat -> cstring (sram s) (p1 s) l1 -> cstring (sram s) (p2 s) l2 -> 0 <= p1 s -> 0 <= p2 s ->
  count s = Z.of_nat (S n) -> Z.of_nat (S n) < 2 ^ 16 ->
  p1 s + Z.of_nat (length l1) + 1 < 2 ^ 16 -> p2 s + Z.of_nat (length l2) + 1 < 2 ^ 16 ->
  exists t, finishes (strncmp_code (Z.of_nat (S n))) s t /\ s8 (res_ t) = strncmp_ref (take (S n) l1) (take (S n) l2) /\ sram t = sram s.
Proof.
  assert (Ec : forall n, strncmp_code (Z.of_nat (S n)) = strncmp_code 1) by done. rewrite Ec. clear Ec.
  revert n; induction l1 as [|b1 l1 IH]; intros n [|b2 l2] [pc0 a0 a1 a2 w tm r fz fc m] Hpc H1 H2 P1 P2 Hw Hn B1 B2; fields; subst pc0 w;
    cbn [cstring length] in *; unfold strncmp_ref; cbn [first_diff take].
  - destruct n as [|n]; eexists; (split; [asm 4; rewrite H1, H2; cbn [Z.eqb negb]; asm 1; rewrite (u16_small (Z.of_nat _ - 1)) by lia; asm 1|]).
    + change (Z.of_nat 1 - 1 =? 0) with true. change (Z.of_nat 1 <? 1) with false. asm 1. finish.
    + done.
    + rewrite (proj2 (Z.eqb_neq (Z.of_nat (S (S n)) - 1) 0)), (proj2 (Z.ltb_ge (Z.of_nat (S (S n))) 1)) by lia. asm 3. finish.
    + done.
  - destruct H2 as (E2 & N2 & _). pose proof (load8_range m a2) as R2.
    eexists. split; [asm 4; rewrite H1, E2, (proj2 (Z.eqb_neq 0 b2)) by lia; finish|]. fields. by rewrite s8_u8.
  - destruct H1 as (E1 & N1 & _). pose proof (load8_range m a1) as R1.
    eexists. split; [asm 4; rewrite E1, H2, (proj2 (Z.eqb_neq b1 0)) by lia; finish|]. fields. by rewrite s8_u8.
  - destruct H1 as (E1 & N1 & H1), H2 as (E2 & N2 & H2). destruct (Z.eqb_spec b1 b2) as [<-|Ne].
    + destruct n as [|n].
      * eexists. split; [asm 4; rewrite E1, E2, Z.eqb_refl; cbn [negb]; asm 1; rewrite (u16_small (Z.of_nat _ - 1)) by lia; asm 1|].
        -- change (Z.of_nat 1 - 1 =? 0) with true. change (Z.of_nat 1 <? 1) with false. asm 1. finish.
        -- fields. cbn [take first_diff]. by rewrite Z.sub_diag.
      * edestruct (IH n) as (t & Ht & Hr & Hm); lazymatch goal with _ : finishes _ _ t |- _ => idtac | _ => shelve end.
        exists t. split.
        { asm 4. rewrite E1, E2, Z.eqb_refl. cbn [negb]. asm 1. rewrite (u16_small (Z.of_nat _ - 1)) by lia. asm 1.
        rewrite (proj2 (Z.eqb_neq (Z.of_nat (S (S n)) - 1) 0)) by lia. asm 2. rewrite (proj2 (Z.eqb_neq b1 0)) by done.
        replace (Z.of_nat (S (S n)) - 1) with (Z.of_nat (S n)) by lia. exact Ht. }
        split; [exact Hr|exact Hm].
    + eexists. split; [asm 4; rewrite E1, E2, (proj2 (Z.eqb_neq b1 b2)) by done; finish|]. fields. by rewrite s8_u8.
  Unshelve. all: fields; rewrite ?u16_small by lia; try lia; done.
Qed.

(** ** Searches and memcpy *)

Lemma avr_strchr_loop ch l : forall s, pc s = 0%nat -> cstring (sram s) (p0 s) l -> 0 <= p0 s -> p0 s + Z.of_nat (length l) + 1 < 2 ^ 16 ->
  exists t, finishes (strchr_code ch) s t /\ p0 t = default 0 (head (occurrences ch (p0 s) l)) /\ sram t = sram s.
Proof.
  induction l as [|b l IH]; intros [pc0 a0 a1 a2 w tm r fz fc m] Hpc Hs H0 H1; fields; subst pc0; cbn [cstring occurrences length] in *.
  - destruct (Z.eqb_spec ch 0) as [->|Ne]; eexists; (split; [asm 3; rewrite Hs|]).
    + asm 1. finish.
    + fields. cbn. split; [rewrite !u16_small; rewrite ?u16_small; lia|done].
    + rewrite (proj2 (Z.eqb_neq 0 ch)) by lia. asm 4. finish.
    + done.
  - destruct Hs as (Hb & Hb0 & Hs). destruct (Z.eqb_spec ch b) as [->|Ne].
    + eexists. split; [asm 3; rewrite Hb, Z.eqb_refl; asm 1; finish|]. fields. cbn. split; [rewrite !u16_small; rewrite ?u16_small; lia|done].
    + edestruct IH as (t & Ht & Hr & Hm); lazymatch goal with _ : finishes _ _ t |- _ => idtac | _ => shelve end.
      exists t. split; [asm 3; rewrite Hb, (proj2 (Z.eqb_neq b ch)) by lia; asm 2; rewrite ?Hb, (proj2 (Z.eqb_neq b 0)) by done; exact Ht|].
      rewrite Hr, Hm. fields. by rewrite u16_small by lia.
  Unshelve. all: fields; rewrite ?u16_small by lia; try lia; done.
Qed.

Lemma avr_strrchr_loop ch l : forall s, pc s = 0%nat -> cstring (sram s) (p0 s) l -> 0 <= p0 s -> p0 s + Z.of_nat (length l) + 1 < 2 ^ 16 ->
  exists t, finishes (strrchr_code ch) s t
    /\ p1 t = from_option (fun a => a + 1) (p1 s) (last (occurrences ch (p0 s) l)) /\ sram t = sram s.
Proof.
  induction l as [|b l IH]; intros [pc0 a0 a1 a2 w tm r fz fc m] Hpc Hs H0 H1; fields; subst pc0; cbn [cstring occurrences length] in *.
  - destruct (Z.eqb_spec ch 0) as [->|Ne]; eexists; (split; [asm 3; rewrite Hs|]).
    + cbn [Z.eqb negb]. asm 3. finish.
    + fields. cbn. split; [by rewrite u16_small by lia|done].
    + rewrite (proj2 (Z.eqb_neq 0 ch)) by lia. cbn [negb]. asm 2. finish.
    + done.
  - destruct Hs as (Hb & Hb0 & Hs). rewrite last_app.
    destruct (Z.eqb_spec ch b) as [->|Ne];
      (edestruct IH as (t & Ht & Hr & Hm); lazymatch goal with _ : finishes _ _ t |- _ => idtac | _ => shelve end);
      exists t; (split; [asm 3; rewrite Hb|rewrite Hr, Hm; fields]).
    + rewrite Z.eqb_refl. cbn [negb]. asm 3. rewrite ?Hb, (proj2 (Z.eqb_neq b 0)) by done. exact Ht.
    + rewrite !u16_small by lia. fields. split; [by destruct (last (occurrences b (a0 + 1) l))|done].
    + rewrite (proj2 (Z.eqb_neq b ch)) by lia. cbn [negb]. asm 2. rewrite ?Hb, (proj2 (Z.eqb_neq b 0)) by done. exact Ht.
    + rewrite !u16_small by lia. fields. split; [by destruct (last (occurrences ch (a0 + 1) l))|done].
  Unshelve. all: fields; rewrite ?u16_small by lia; try lia; done.
Qed.

Lemma avr_memcpy_loop n : forall s, pc s = 0%nat -> count s = Z.of_nat (S n) -> Z.of_nat (S n) < 2 ^ 16 -> 0 <= p0 s -> 0 <= p1 s ->
  p0 s + Z.of_nat (S n) < 2 ^ 16 -> p1 s + Z.of_nat (S n) < 2 ^ 16 ->
  exists t, finishes (memcpy_code 1) s t /\ sram t = copy_bytes (S n) (p1 s) (p0 s) (sram s).
Proof.
  induction n as [|n IH]; intros [pc0 a0 a1 a2 w tm r fz fc m] Hpc Hw Hn H0 H1 H2 H3; fields; subst pc0 w.
  - eexists. split; [asm 4; change (u16 (Z.of_nat 1 - 1) =? 0) with true; finish|]. done.
  - edestruct IH as (t & Ht & Hm); lazymatch goal with _ : finishes _ _ t |- _ => idtac | _ => shelve end.
    exists t. split; [asm 3; rewrite (u16_small (Z.of_nat _ - 1)) by lia; asm 1; rewrite (proj2 (Z.eqb_neq (Z.of_nat (S (S n)) - 1) 0)) by lia; exact Ht|].
    rewrite Hm. fields. rewrite !u16_small by lia. done.
  Unshelve. all: fields; rewrite ?u16_small by lia; try lia; done.
Qed.

(** ** The functions together *)

Definition computes (p : list insn) (s : cpu) (P : cpu -> Prop) : Prop := exists t, finishes p s t /\ P t.

(** The two concatenations, from the end of the first string on. *)
Lemma avr_strcat_end p dest src w (c : cpu) l :
  p !! 0%nat = Some (ld P1) -> p !! 1%nat = Some tst -> p !! 2%nat = Some (brne 0) -> p !! 3%nat = Some (sbiw P1) ->
  cstring (sram c) dest l -> 0 <= dest -> dest + Z.of_nat (length l) + 1 < 2 ^ 16 ->
  exists s, leads p (strncat_args dest src w c) s /\ pc s = 4%nat /\ sram s = sram c /\ p1 s = dest + Z.of_nat (length l)
    /\ p0 s = src /\ count s = w.
Proof.
  intros E0 E1 E2 E3 Hl H0 H1.
  destruct (avr_scan_loop p P1 l (or_intror eq_refl) E0 E1 E2 (strncat_args dest src w c)) as (s1 & Hl1 & Hpc & Hm & Hp & Ho & Hc); [done..|].
  destruct s1. cbn [get] in *. cbn in Ho. fields. subst. eexists. split; [eapply leads_trans; [exact Hl1|]; asml 1; apply leads_refl|].
  fields. cbn. rewrite u16_small by lia. split_and!; (done || lia).
Qed.

Lemma avr_strcat_spec c a b l k :
  let n := Z.of_nat (length k) + 1 in
  cstring (sram c) a l -> cstring (sram c) b k -> 0 <= a -> 0 <= b -> a + Z.of_nat (length l) + n < 2 ^ 16 -> b + n < 2 ^ 16 ->
  a + Z.of_nat (length l) + n <= b \/ b + n <= a ->
  computes strcat_code (strcat_args a b c) (fun t => sram t = store_list (sram c) (a + Z.of_nat (length l)) (k ++ [0])).
Proof.
  intros n Hl Hk Ha Hb Hra Hrb Hd.
  destruct (avr_strcat_end strcat_code a b (count c) c l) as (s1 & H1 & Hpc & Hm & Hp1 & Hp0 & _); [done|done|done|done|done|done|lia|].
  destruct (avr_copy_loop strcat_code 4 P0 P1 k (or_intror (conj eq_refl eq_refl)) eq_refl eq_refl eq_refl eq_refl s1) as (t & Ht & Hpt & Hmt);
    cbn [get]; rewrite ?Hm, ?Hp0, ?Hp1; try done; try lia.
  exists t. split; [|by rewrite Hmt; cbn [get]; rewrite Hm, Hp1].
  replace (strcat_args a b c) with (strncat_args a b (count c) c) by (by destruct c). by apply H1, Ht, (avr_end _ _ _ Hpt).
Qed.

Lemma avr_strncat_spec c a b n l k :
  let z := Z.of_nat (length k) + 1 in
  let w := copied n k in
  cstring (sram c) a l -> cstring (sram c) b k -> 0 <= a -> 0 <= b -> Z.of_nat n < 2 ^ 16 -> b + z < 2 ^ 16 ->
  a + Z.of_nat (length l) + Z.of_nat (length w) < 2 ^ 16 -> a + Z.of_nat (length l) + 1 < 2 ^ 16 ->
  a + Z.of_nat (length l) + Z.of_nat (length w) <= b \/ b + z <= a ->
  computes (strncat_code (Z.of_nat n)) (strncat_args a b (Z.of_nat n) c)
    (fun t => sram t = store_list (sram c) (a + Z.of_nat (length l)) w).
Proof.
  intros z w Hl Hk Ha Hb Hn Hrb Hra Hra1 Hd. unfold w in *. clear w.
  destruct n as [|n]; [exists (strncat_args a b 0 c); split; [by apply (avr_end _ _ 0)|done]|].
  destruct (avr_strcat_end (strncat_code 1) a b (Z.of_nat (S n)) c l) as (s1 & H1 & Hpc & Hm & Hp1 & Hp0 & Hw); [done|done|done|done|done|done|lia|].
  destruct (avr_bounded_loop (strncat_code 1) 4 P0 P1 k (or_intror (conj eq_refl eq_refl)) eq_refl eq_refl eq_refl eq_refl eq_refl eq_refl s1 n)
    as (t & Ht & Hpt & Hmt); cbn [get]; rewrite ?Hm, ?Hp0, ?Hp1; try done; try lia.
  exists t. split; [by apply H1, Ht, (avr_end _ _ _ Hpt)|]. rewrite Hmt. cbn [get]. by rewrite Hm, Hp1.
Qed.

Lemma occurrences_range ch a l x : x ∈ occurrences ch a l -> a <= x <= a + Z.of_nat (length l).
Proof.
  revert a; induction l as [|b l IH]; intros a; cbn [occurrences length].
  - destruct (ch =? 0); [|by intros ?%elem_of_nil]. intros ->%list_elem_of_singleton. lia.
  - intros [Hx|Hx]%elem_of_app; [|apply IH in Hx; lia]. destruct (ch =? b); [|by apply elem_of_nil in Hx].
    apply list_elem_of_singleton in Hx. lia.
Qed.

(** Without bytes above 127 the result of [strcmp] has the sign of the order. *)
Lemma strcmp_ref_sign l1 l2 : Forall (fun b => 0 < b < 2 ^ 7) l1 -> Forall (fun b => 0 < b < 2 ^ 7) l2 ->
  Z.sgn (strcmp_ref l1 l2) = order l1 l2 /\ Z.sgn (strncmp_ref l1 l2) = order l1 l2.
Proof.
  assert (Hs : forall z, - 2 ^ 7 <= z < 2 ^ 7 -> s8 z = z) by (intros z Hz; unfold s8; rewrite Z.mod_small; lia).
  intros H1. revert l2; induction H1 as [|b1 l1 Hb1 H1 IH]; intros l2 [|b2 l2' Hb2 H2]; unfold strcmp_ref, strncmp_ref; cbn [first_diff order].
  - done.
  - rewrite Hs by lia. rewrite (proj2 (Z.ltb_lt 0 b2)) by lia. lia.
  - rewrite Hs by lia. rewrite (proj2 (Z.ltb_ge b1 0)) by lia. lia.
  - destruct (Z.eqb_spec b1 b2); [by apply IH|]. rewrite Hs by lia. destruct (Z.ltb_spec b1 b2); lia.
Qed.

End AvrFacts.

Module AvrClaim.
Import Avr AvrFacts.

(** C18: the string functions of the AVR target, for strings [l] at [a] and [k] at [b]
    with room and apart.  The length, the copy, the concatenation, the searches and
    [memcpy] agree with the reference of the i386.  [strncpy] and [strncat] copy at most
    [n] bytes and end: they neither fill up with zeros nor end the string with one when
    the count is used up.  [strcmp] and [strncmp] give the difference of the first
    bytes that differ as a signed byte, and [strcmp] -1 for a smaller string: the
    sign is that of the order when all bytes are below 128. *)
Theorem avr_string_functions c a b n l k :
  let room := Z.of_nat (length l + length k + n) + 2 in
  cstring (sram c) a l -> cstring (sram c) b k -> 0 <= a -> 0 <= b -> a + room < 2 ^ 16 -> b + room < 2 ^ 16 ->
  a + room <= b \/ b + room <= a ->
  computes strlen_code (strlen_args a c) (fun t => strlen_result a t = Z.of_nat (length l) /\ sram t = sram c)
  /\ computes strcpy_code (strcpy_args a b c) (fun t => sram t = store_list (sram c) a (k ++ [0]))
  /\ computes (strncpy_code (Z.of_nat n)) (strncpy_args a b (Z.of_nat n) c)
       (fun t => sram t = store_list (sram c) a (take n k ++ if (length k <? n)%nat then [0] else []))
  /\ computes strcat_code (strcat_args a b c) (fun t => sram t = store_list (sram c) (a + Z.of_nat (length l)) (k ++ [0]))
  /\ computes (strncat_code (Z.of_nat n)) (strncat_args a b (Z.of_nat n) c)
       (fun t => sram t = store_list (sram c) (a + Z.of_nat (length l)) (take n k ++ if (length k <? n)%nat then [0] else []))
  /\ computes strcmp_code (strcmp_args a b c) (fun t => s8 (res_ t) = strcmp_ref l k /\ sram t = sram c)
  /\ ((0 < n)%nat -> computes (strncmp_code (Z.of_nat n)) (strncmp_args a b (Z.of_nat n) c)
       (fun t => s8 (res_ t) = strncmp_ref (take n l) (take n k) /\ sram t = sram c))
  /\ (forall ch, computes (strchr_code ch) (strchr_args a c)
       (fun t => p0 t = default 0 (head (occurrences ch a l)) /\ sram t = sram c))
  /\ (forall ch, computes (strrchr_code ch) (strrchr_args a c)
       (fun t => strrchr_result t = default 0 (last (occurrences ch a l)) /\ sram t = sram c))
  /\ computes (memcpy_code (Z.of_nat n)) (memcpy_args a b (Z.of_nat n) c) (fun t => sram t = copy_bytes n a b (sram c))
  /\ (Forall (fun x => x < 2 ^ 7) (l ++ k) -> Z.sgn (strcmp_ref l k) = order l k).
Proof.
  intros room Hl Hk Ha Hb Hra Hrb Hd. pose proof (copied_length n k) as Hc. split_and!.
  - destruct (avr_scan_loop strlen_code P0 l (or_introl eq_refl) eq_refl eq_refl eq_refl (strlen_args a c)) as (t & Ht & Hpc & Hm & Hp & _);
      [done|done|done|cbn; lia|].
    exists t. split; [by apply Ht, (avr_end _ _ _ Hpc)|]. split; [|done]. unfold strlen_result. cbn in Hp. rewrite Hp, u16_small; lia.
  - destruct (avr_copy_loop strcpy_code 0 P1 P0 k (or_introl (conj eq_refl eq_refl)) eq_refl eq_refl eq_refl eq_refl (strcpy_args a b c))
      as (t & Ht & Hpc & Hm); [done|done|done|done|cbn; lia..|]. exists t. split; [by apply Ht, (avr_end _ _ _ Hpc)|done].
  - destruct n as [|n]; [exists (strncpy_args a b 0 c); split; [by apply (avr_end _ _ 0)|by rewrite take_0]|].
    destruct (avr_bounded_loop (strncpy_code 1) 0 P1 P0 k (or_introl (conj eq_refl eq_refl)) eq_refl eq_refl eq_refl eq_refl eq_refl eq_refl
      (strncpy_args a b (Z.of_nat (S n)) c) n) as (t & Ht & Hpc & Hm); [done|done|done|done|done|cbn; lia..|].
    exists t. split; [by apply Ht, (avr_end _ _ _ Hpc)|done].
  - apply avr_strcat_spec; (done || lia).
  - apply avr_strncat_spec; (done || lia).
  - apply (avr_strcmp_loop l k (strcmp_args a b c)); try done; cbn; lia.
  - intros Hn. destruct n as [|n]; [lia|]. apply (avr_strncmp_loop n l k (strncmp_args a b (Z.of_nat (S n)) c)); try done; cbn; lia.
  - intros ch. apply (avr_strchr_loop ch l (strchr_args a c)); try done; cbn; lia.
  - intros ch. destruct (avr_strrchr_loop ch l (strrchr_args a c)) as (t & Ht & Hr & Hm); try done; [cbn; lia|].
    exists t. split; [done|]. split; [|done]. unfold strrchr_result. rewrite Hr. cbn [p0 p1 strrchr_args setter].
    destruct (last (occurrences ch a l)) as [x|] eqn:E; cbn; [|done].
    apply last_Some_elem_of, occurrences_range in E. rewrite u16_small; lia.
  - destruct n as [|n]; [exists (memcpy_args a b 0 c); split; [by apply (avr_end _ _ 0)|done]|].
    apply (avr_memcpy_loop n (memcpy_args a b (Z.of_nat (S n)) c)); try done; cbn; lia.
  - intros Hlk. apply Forall_app in Hlk as [Hl7 Hk7]. apply strcmp_ref_sign.
    + eapply Forall_impl; [apply Forall_and; split; [exact Hl7|exact (cstring_bytes _ _ _ Hl)]|]. cbn. lia.
    + eapply Forall_impl; [apply Forall_and; split; [exact Hk7|exact (cstring_bytes _ _ _ Hk)]|]. cbn. lia.
Qed.

(** "abc" at 0x100 and "ab" and a byte of 200 at 0x200. *)
Definition demo_avr : cpu :=
  Avr_ 0 0 0 0 0 0 0 false false (store_list (store_list ∅ 0x100 [97; 98; 99; 0]) 0x200 [97; 98; 250; 0]).

Lemma avr_string_functions_witness :
  computes strlen_code (strlen_args 0x100 demo_avr) (fun t => strlen_result 0x100 t = 3 /\ sram t = sram demo_avr)
  /\ computes (strncat_code 2) (strncat_args 0x100 0x200 2 demo_avr)
       (fun t => sram t = store_list (sram demo_avr) 0x103 [97; 98])
  /\ computes (strncmp_code 3) (strncmp_args 0x100 0x200 3 demo_avr)
       (fun t => s8 (res_ t) = 105 /\ sram t = sram demo_avr).
Proof.
  destruct (avr_string_functions demo_avr 0x100 0x200 2 [97; 98; 99] [97; 98; 250])
    as (H1 & _ & _ & _ & H2 & _); try (cbn; lia); [by vm_compute..|].
  destruct (avr_string_functions demo_avr 0x100 0x200 3 [97; 98; 99] [97; 98; 250])
    as (_ & _ & _ & _ & _ & _ & H3 & _); try (cbn; lia); [by vm_compute..|].
  split_and!; [exact H1|exact H2|exact (H3 (le_n_S _ _ (Nat.le_0_l 2)))].
Defined.
End AvrClaim.
