(* ===== verification/Switch.v ===== *)
(** * The context switch as an interface

    [isr_context_switch()] saves the registers of the running context on its stack and
    takes those of the next one from its stack; [context_init()] builds a stack a new
    context starts from.  What a processor must provide for that is a class with its
    laws; I386Switch.v and AvrSwitch.v have the two instances.

    Against the class: contexts that run in turn, each on a stack of its own, get their
    registers and their stack back whenever they are switched in, whatever ran in
    between, and a new context starts in its function with its argument. *)

From stdpp Require Import base list gmap.
From Stdlib Require Import ZArith Lia.
From S2P Require Import Prelude.
Open Scope Z_scope.

(** [R] is what a caller relies on to find again: the registers a function keeps, the
    stack pointer and the address it returns to. *)
Class Switcher (St R : Type) := {
  sw_mem : St -> mem;
  sw_regs : St -> R;
  (* the registers of a caller that is returned to at an address *)
  sw_called : Z -> St -> R;
  (* [isr_context_switch()] up to and from the change of [current_context] *)
  sw_save : Z -> Z -> St -> St;
  sw_restore : Z -> St -> St;
  (* the frames of [context_init()]: context, function, argument, [stack_addr] *)
  sw_init : Z -> Z -> Z -> Z -> St -> St;
  sw_fresh : St -> Z -> R;
  (* [context_enter], and what a function called with an argument finds *)
  sw_enter : St -> St;
  sw_begins : Z -> Z -> Z -> St -> Prop;
  (* the bytes of the [struct cpu_context], of the switch frame, of the stack in use *)
  sw_context : Z -> Z -> Prop;
  sw_frame : R -> Z -> Prop;
  sw_stack : R -> Z -> Z -> Prop;
  (* the frame of a context holds these registers *)
  sw_saved : mem -> Z -> R -> Prop;
  (* registers hold register values, the frame is inside the address space *)
  sw_fits : Z -> Z -> St -> Prop;
  sw_fits_init : Z -> Z -> Z -> Z -> Prop }.

Definition sw_area `{Switcher St R} (c : Z) (r : R) (a : Z) : Prop := sw_context c a \/ sw_frame r a.
Definition sw_own `{Switcher St R} (c : Z) (r : R) (top a : Z) : Prop := sw_area c r a \/ sw_stack r top a.

Class SwitcherLaws (St R : Type) `{Switcher St R} := {
  save_saved c r s : sw_fits c r s -> sw_saved (sw_mem (sw_save c r s)) c (sw_called r s);
  save_rest c r s a : sw_fits c r s -> ~ sw_area c (sw_called r s) a -> load8 (sw_mem (sw_save c r s)) a = load8 (sw_mem s) a;
  saved_ext c r m m' : (forall a, sw_area c r a -> load8 m' a = load8 m a) -> sw_saved m c r -> sw_saved m' c r;
  restore_regs c r s : sw_saved (sw_mem s) c r -> sw_regs (sw_restore c s) = r;
  restore_mem c s : sw_mem (sw_restore c s) = sw_mem s;
  init_saved c fn arg stack s : sw_fits_init c fn arg stack ->
    sw_saved (sw_mem (sw_init c fn arg stack s)) c (sw_fresh (sw_init c fn arg stack s) stack);
  init_rest c fn arg stack s a : sw_fits_init c fn arg stack ->
    ~ sw_own c (sw_fresh (sw_init c fn arg stack s) stack) stack a ->
    load8 (sw_mem (sw_init c fn arg stack s)) a = load8 (sw_mem s) a;
  enter_begins c fn arg stack s t : sw_fits_init c fn arg stack ->
    sw_regs t = sw_fresh (sw_init c fn arg stack s) stack ->
    (forall a, sw_stack (sw_regs t) stack a -> load8 (sw_mem t) a = load8 (sw_mem (sw_init c fn arg stack s)) a) ->
    sw_begins fn arg stack (sw_enter t) }.

Section contexts.
Context {St R : Type} `{SwitcherLaws St R}.

(** What a context that is switched out finds again: its registers, and the bytes of
    its stack up to [sv_top].  [sv_entry] is there until it has run. *)
Record saved := Saved {
  sv_regs : R;
  sv_top : Z;
  sv_mem : mem;
  sv_entry : option (Z * Z) }.

Record world := World {
  w_cur : Z;             (* [current_context] *)
  w_top : Z;             (* the top of its stack *)
  w_state : St;
  w_saved : gmap Z saved }.

Definition owns (c : Z) (v : saved) (a : Z) : Prop := sw_own c (sv_regs v) (sv_top v) a.

(** The running context can be switched out: its frame is on its own memory. *)
Definition can_switch (w : world) (r : Z) : Prop :=
  sw_fits (w_cur w) r (w_state w)
  /\ (forall a, sw_stack (sw_called r (w_state w)) (w_top w) a -> ~ sw_area (w_cur w) (sw_called r (w_state w)) a)
  /\ forall c v a, w_saved w !! c = Some v -> owns c v a -> ~ sw_area (w_cur w) (sw_called r (w_state w)) a.

(** [isr_context_switch()] called with return address [r], [n] at the head of the run
    queue. *)
Definition switched (w : world) (n r : Z) : St := sw_restore n (sw_save (w_cur w) r (w_state w)).

Inductive step : world -> world -> Prop :=
  | step_run w s :
      (* code of the running context leaves the memory of the others alone *)
      (forall c v a, w_saved w !! c = Some v -> owns c v a -> load8 (sw_mem s) a = load8 (sw_mem (w_state w)) a) ->
      step w (World (w_cur w) (w_top w) s (w_saved w))
  | step_switch w n r v :
      w_saved w !! n = Some v -> can_switch w r ->
      step w (World n (sv_top v) (switched w n r)
        (<[w_cur w := Saved (sw_called r (w_state w)) (w_top w) (sw_mem (w_state w)) None]> (delete n (w_saved w))))
  | step_init w c fn arg stack :
      let s := sw_init c fn arg stack (w_state w) in
      let v := Saved (sw_fresh s stack) stack (sw_mem s) (Some (fn, arg)) in
      sw_fits_init c fn arg stack ->
      (forall d u a, w_saved w !! d = Some u -> owns d u a -> ~ owns c v a) ->
      step w (World (w_cur w) (w_top w) s (<[c := v]> (w_saved w))).

(** From a start where nothing is switched out. *)
Inductive reach : world -> Prop :=
  | reach_start c top s : reach (World c top s ∅)
  | reach_step w w' : reach w -> step w w' -> reach w'.

Definition intact (m : mem) (c : Z) (v : saved) : Prop :=
  sw_saved m c (sv_regs v)
  /\ (forall a, sw_stack (sv_regs v) (sv_top v) a -> load8 m a = load8 (sv_mem v) a)
  /\ forall fn arg, sv_entry v = Some (fn, arg) ->
       sw_fits_init c fn arg (sv_top v)
       /\ exists s, let s := sw_init c fn arg (sv_top v) s in sv_regs v = sw_fresh s (sv_top v) /\ sv_mem v = sw_mem s.

Definition intact_all (w : world) : Prop := forall c v, w_saved w !! c = Some v -> intact (sw_mem (w_state w)) c v.

Lemma intact_ext c v m m' : (forall a, owns c v a -> load8 m' a = load8 m a) -> intact m c v -> intact m' c v.
Proof.
  intros E (Hs & Hb & He). split; [|split].
  - apply (saved_ext c _ m); [|done]. intros a Ha. apply E. by left.
  - intros a Ha. rewrite E by (by right). auto.
  - exact He.
Qed.

Lemma saved_after_save w r c v :
  can_switch w r -> intact_all w -> w_saved w !! c = Some v -> intact (sw_mem (sw_save (w_cur w) r (w_state w))) c v.
Proof.
  intros (Hf & _ & Ho) Hi Hc. apply (intact_ext _ _ (sw_mem (w_state w))); [|by apply Hi].
  intros a Ha. apply save_rest; [done|]. by eapply Ho.
Qed.

Lemma step_intact w w' : step w w' -> intact_all w -> intact_all w'.
Proof.
  intros [x s E|x n r u Hn Hc|x c fn arg stack s v Hf Ho] Hi d y; cbn [w_saved w_state].
  - intros Hd. apply (intact_ext _ _ (sw_mem (w_state x))); [|by apply Hi]. eauto.
  - unfold switched. rewrite restore_mem. intros [[<- <-]|[Hne Hd]]%lookup_insert_Some.
    + destruct Hc as (Hf & Hs & _). split; [by apply save_saved|]. split; [|done].
      intros a Ha. apply save_rest; auto.
    + apply lookup_delete_Some in Hd as [_ Hd]. by apply saved_after_save.
  - intros [[<- <-]|[Hne Hd]]%lookup_insert_Some.
    + split; [by apply init_saved|]. split; [done|]. intros fn' arg' [= <- <-]. split; [done|]. by exists (w_state x).
    + apply (intact_ext _ _ (sw_mem (w_state x))); [|by apply Hi]. intros a Ha.
      apply init_rest; [done|]. exact (Ho d y a Hd Ha).
Qed.

Lemma reach_intact w : reach w -> intact_all w.
Proof. induction 1 as [c top s|w w' _ IH Hs]; [by intros d v|by eapply step_intact]. Qed.

(** The context switched in finds its registers and its stack; one that has not run
    yet goes through [context_enter] into its function. *)
Definition resumed (n : Z) (v : saved) (t : St) : Prop :=
  sw_regs t = sv_regs v
  /\ (forall a, sw_stack (sv_regs v) (sv_top v) a -> load8 (sw_mem t) a = load8 (sv_mem v) a)
  /\ forall fn arg, sv_entry v = Some (fn, arg) -> sw_begins fn arg (sv_top v) (sw_enter t).

Lemma switch_resumes w n v r :
  reach w -> w_saved w !! n = Some v -> can_switch w r -> resumed n v (switched w n r).
Proof.
  intros Hr Hn Hc. destruct (saved_after_save w r n v Hc (reach_intact w Hr) Hn) as (Hs & Hb & He).
  unfold resumed, switched. rewrite restore_mem. split; [by apply restore_regs|]. split; [done|].
  intros fn arg E. destruct (He fn arg E) as (Hf & s & Eg & Em).
  pose proof (restore_regs _ _ _ Hs) as Er.
  eapply (enter_begins n fn arg _ s); [done|congruence|].
  rewrite restore_mem, Er, <- Em. exact Hb.
Qed.

End contexts.
Arguments saved : clear implicits.
Arguments world : clear implicits.
