(* ===== verification/I386Switch.v ===== *)
(** * Context switch of the i386
    (src/lib/context/i386/context_switch.h, context_enter.h, context_enter.S, trap.c)

    The switch of a context on the registers and the memory: the frame
    [isr_context_switch()] leaves on the stack, the frames [context_init()] builds, the
    entry of a new context, and the use of the floating point unit.  [isr_context_switch()]
    is compiled with a frame pointer, as [csf_ebp_saved] has it: it is entered with
    [pushl %ebp; movl %esp, %ebp] and left with [leave; ret]. *)

From stdpp Require Import base list gmap.
From Stdlib Require Import ZArith Lia.
From S2P Require Import Prelude Membuf NetbufMem Ip Asm I386 Switch.
Open Scope Z_scope.

Module I386Switch.

(** ** The processor with its control register and floating point unit *)

Definition CR0_EM : Z := 0x4.

(** [cc_flags]. *)
Definition CC_FPU_SAVED : Z := 1.
Definition CC_FPU_USED : Z := 2.

(** [struct cpu_context], the first field of [struct context]. *)
Definition cc_esp (c : Z) : Z := c.
Definition cc_fpu (c : Z) : Z := c + 4.
Definition cc_flags (c : Z) : Z := c + 112.

(** [struct i386_fpu] is 27 words. *)
Definition fpu_words : nat := 27.

Record board := Board { core : cpu; cr0 : Z; fpu : list Z }.

#[export] Instance eta_board : Eta board := fun b => Board (core b) (cr0 b) (fpu b).

Definition on_core (f : cpu -> cpu) (b : board) : board := b <| core := f (core b) |>.
Definition on_ram (f : mem -> mem) : board -> board := on_core (fun s => s <| ram := f (ram s) |>).

Fixpoint store_words (m : mem) (a : Z) (ws : list Z) : mem :=
  match ws with [] => m | w :: ws => store_words (store32 m a w) (a + 4) ws end.
Definition load_words (m : mem) (a : Z) (n : nat) : list Z := (fun i => load32 m (a + 4 * i)) <$> seqZ 0 (Z.of_nat n).

(** [finit]: control, status and tag word; the registers are marked empty. *)
Definition finit (b : board) : board := b <| fpu := [0x37f; 0; 0xffff; 0; 0; 0; 0] ++ drop 7 (fpu b) |>.
(** [fnsave] writes the state and initializes the unit. *)
Definition fnsave (a : Z) (b : board) : board := finit (on_ram (fun m => store_words m a (fpu b)) b).
Definition frstor (a : Z) (b : board) : board := b <| fpu := load_words (ram (core b)) a fpu_words |>.
(** [fnclex] clears the exception flags of the status word. *)
Definition fnclex (b : board) : board :=
  match fpu b with cw :: sw :: f => b <| fpu := cw :: Z.land sw 0x7f00 :: f |> | _ => b end.

Definition get_cr0 (b : board) : Z := cr0 b.
Definition set_cr0 (v : Z) (b : board) : board := b <| cr0 := v |>.

Definition flag_set (c f : Z) (b : board) : bool := negb (Z.land (load8 (ram (core b)) (cc_flags c)) f =? 0).

(** The first part of [context_switch_prologue()]. *)
Definition fpu_switch (c : Z) (b : board) : board :=
  if flag_set c CC_FPU_USED b then
    let b := fnsave (cc_fpu c) b in
    let b := on_ram (fun m => store8 m (cc_flags c) (Z.land (load8 m (cc_flags c)) (Z.lnot CC_FPU_USED))) b in
    set_cr0 (Z.lor (get_cr0 b) CR0_EM) b
  else b.

Definition context_switch_prologue (c : Z) (b : board) : board :=
  on_core (execs [pushl EDI; pushl ESI; pushl EBP; pushl EBX; movl_esp_to (cc_esp c)]) (fpu_switch c b).

Definition context_switch_epilogue (c : Z) : board -> board :=
  on_core (execs [movl_to_esp (cc_esp c); popl EBX; popl EBP; popl ESI; popl EDI]).

(** [isr_context_switch()] called with return address [r], up to the [startup] mark and
    from there. *)
Definition switch_out (c r : Z) (b : board) : board :=
  context_switch_prologue c (on_core (execs [pushi r; pushl EBP; movl ESP EBP]) b).
Definition switch_in (c : Z) (b : board) : board := on_core (execs [leave; ret]) (context_switch_epilogue c b).

(** ** A new context *)

(** [struct context_switch_frame] and [struct context_enter_frame]. *)
Definition csf_ebx : Z := 0.
Definition csf_ebp : Z := 4.
Definition csf_esi : Z := 8.
Definition csf_edi : Z := 12.
Definition csf_ebp_saved : Z := 16.
Definition csf_eip : Z := 20.
Definition csf_size : Z := 24.

Definition cef_eip : Z := 0.
Definition cef_cs : Z := 4.
Definition cef_eflags : Z := 8.
Definition cef_fn_ret_addr : Z := 12.
Definition cef_arg : Z := 16.
Definition cef_size : Z := 20.

Definition context_enter_frame_build (cef fn arg : Z) (m : mem) : mem :=
  let m := store16 m (cef + cef_cs) 0x10 in
  let m := store32 m (cef + cef_eip) fn in
  let m := store32 m (cef + cef_eflags) F_IF in
  store32 m (cef + cef_arg) arg.

Section enter.
(** The address of [context_enter]. *)
Variable context_enter : Z.

Definition context_switch_frame_build (csf c : Z) (m : mem) : mem :=
  let m := store32 m (csf + csf_ebp) (csf + csf_ebp_saved) in
  let m := store32 m (cc_esp c) csf in
  store32 m (csf + csf_eip) context_enter.

(** The frames of [context_init()]. *)
Definition context_init_stack (c fn arg stack_addr : Z) (m : mem) : mem :=
  let m := context_enter_frame_build (stack_addr - cef_size) fn arg m in
  context_switch_frame_build (stack_addr - cef_size - csf_size) c m.

End enter.

(** [context_enter]. *)
Definition context_enter_code : list insn := [iret].

(** [cpu_context_init()]. *)
Definition cpu_context_init (c : Z) (b : board) : board := on_ram (fun m => store8 m (cc_flags c) 0) b.

(** [trap_device_not_available()], with [c] the current context. *)
Definition trap_device_not_available (c : Z) (b : board) : board :=
  let b := set_cr0 (Z.land (get_cr0 b) (Z.lnot CR0_EM)) b in
  if flag_set c CC_FPU_SAVED b then frstor (cc_fpu c) b else finit (fnclex b).

(** ** What a switch keeps *)

Record regs := Regs { r_ebx : Z; r_ebp : Z; r_esi : Z; r_edi : Z; r_esp : Z; r_eip : Z }.

Definition regs_of (b : board) : regs :=
  let s := core b in Regs (ebx s) (ebp s) (esi s) (edi s) (esp s) (eip s).

Definition called (r : Z) (b : board) : regs :=
  let s := core b in Regs (ebx s) (ebp s) (esi s) (edi s) (esp s) r.

(** The frame of [c] holds the registers. *)
Definition frame_holds (m : mem) (c : Z) (r : regs) : Prop :=
  let f := r_esp r - csf_size in
  0 <= f /\ r_esp r < 2 ^ 32
  /\ load32 m (cc_esp c) = f
  /\ load32 m (f + csf_ebx) = r_ebx r /\ load32 m (f + csf_ebp) = f + csf_ebp_saved
  /\ load32 m (f + csf_esi) = r_esi r /\ load32 m (f + csf_edi) = r_edi r
  /\ load32 m (f + csf_ebp_saved) = r_ebp r /\ load32 m (f + csf_eip) = r_eip r.

(** The registers of a context that has not run: what its frame happens to hold, and
    [context_enter]. *)
Definition fresh (context_enter : Z) (b : board) (stack : Z) : regs :=
  let w o := load32 (ram (core b)) (stack - cef_size - csf_size + o) in
  Regs (w csf_ebx) (w csf_ebp_saved) (w csf_esi) (w csf_edi) (stack - cef_size) context_enter.

(** What a function called with one argument finds: interrupts enabled, and below the
    top of the stack the place of the return address and the argument. *)
Definition begins (fn arg stack : Z) (b : board) : Prop :=
  let s := core b in
  eip s = fn /\ if_ s = true /\ esp s = stack - 8 /\ load32 (ram s) (esp s + 4) = arg.

Definition word (v : Z) : Prop := 0 <= v < 2 ^ 32.

Definition fits (c r : Z) (b : board) : Prop :=
  let s := core b in
  word r /\ word (ebx s) /\ word (ebp s) /\ word (esi s) /\ word (edi s) /\ csf_size <= esp s < 2 ^ 32
  /\ (esp s <= c \/ c + 113 <= esp s - csf_size) /\ length (fpu b) = fpu_words.

Definition fits_init (context_enter c fn arg stack : Z) : Prop :=
  word context_enter /\ word fn /\ word arg /\ cef_size + csf_size <= stack <= 2 ^ 32
  /\ (stack <= c \/ c + 113 <= stack - cef_size - csf_size).

#[export] Instance switcher (context_enter : Z) : Switcher board regs := {|
  sw_mem b := ram (core b);
  sw_regs := regs_of;
  sw_called := called;
  sw_save := switch_out;
  sw_restore := switch_in;
  sw_init c fn arg stack := on_ram (context_init_stack context_enter c fn arg stack);
  sw_fresh := fresh context_enter;
  sw_enter := on_core (execs context_enter_code);
  sw_begins := begins;
  sw_context c a := c <= a < c + 113;
  sw_frame r a := r_esp r - csf_size <= a < r_esp r;
  sw_stack r top a := r_esp r <= a < top;
  sw_saved := frame_holds;
  sw_fits := fits;
  sw_fits_init := fits_init context_enter |}.

End I386Switch.

Module I386SwitchFacts.
Import I386Switch.

Create HintDb layout.
#[local] Hint Unfold csf_ebx csf_ebp csf_esi csf_edi csf_ebp_saved csf_eip csf_size cef_eip cef_cs cef_eflags cef_fn_ret_addr
  cef_arg cef_size cc_esp cc_fpu cc_flags word : layout.
Ltac layout := autounfold with layout in *.

Lemma load32_store32_at m a b v : b = a -> 0 <= v < 2 ^ 32 -> load32 (store32 m a v) b = v.
Proof. intros ->. apply load32_store32. Qed.

(** The word just written, or one that a write leaves alone. *)
Ltac words := repeat first [rewrite load32_store32_at by lia | rewrite load32_store32_ne by lia].
Ltac no_wrap := repeat match goal with |- context [u32 ?e] => rewrite (u32_small e) by lia end.

Lemma load8_store_words ws : forall m a b, b < a \/ a + 4 * Z.of_nat (length ws) <= b -> load8 (store_words m a ws) b = load8 m b.
Proof.
  induction ws as [|w ws IH]; intros m a b Hb; cbn; [done|]. cbn in Hb. rewrite IH by lia. apply load8_store32_ne. lia.
Qed.

(** Saving the floating point unit keeps the registers and writes [cc_fpu] and [cc_flags] only. *)
Lemma fpu_switch_core c b :
  exists m, core (fpu_switch c b) = (core b) <| ram := m |>
    /\ (length (fpu b) = fpu_words -> forall a, a < c + 4 \/ c + 113 <= a -> load8 m a = load8 (ram (core b)) a).
Proof.
  unfold fpu_switch. destruct (flag_set c CC_FPU_USED b); [|by exists (ram (core b)); split; [destruct (core b)|]].
  eexists. split; [by destruct b as [[]]|]. intros Hl a Ha. cbn. unfold cc_flags, cc_fpu.
  rewrite load8_store8_ne by lia. apply load8_store_words. rewrite Hl. unfold fpu_words. lia.
Qed.

(** The memory a switch leaves: two words of the call and the entry, four registers
    and [cc_esp]. *)
Lemma switch_out_core c r b : fits c r b ->
  let s := core b in
  exists m, (forall a, a < c + 4 \/ c + 113 <= a -> load8 m a = load8 (store32 (store32 (ram s) (esp s - 4) r) (esp s - 8) (ebp s)) a)
    /\ ram (core (switch_out c r b)) =
         store32 (store32 (store32 (store32 (store32 m (esp s - 12) (edi s)) (esp s - 16) (esi s))
           (esp s - 20) (esp s - 8)) (esp s - 24) (ebx s)) c (esp s - 24).
Proof.
  intros F s. unfold switch_out, context_switch_prologue.
  destruct (fpu_switch_core c (on_core (execs [pushi r; pushl EBP; movl ESP EBP]) b)) as (m & E & Hm).
  exists m. unfold fits in F. fold s in F. layout. destruct F as (? & ? & ? & ? & ? & ? & ? & Hl).
  split.
  - intros a Ha. rewrite Hm by (done || lia). unfold on_core. destruct b as [[] ? ?]; subst s. cbn in *. no_wrap. repeat (f_equal; try lia).
  - cbn [on_core]. unfold on_core at 1. cbn [core setter]. rewrite E. clear E Hm. destruct b as [[] ? ?]; subst s.
    unfold on_core, execs. cbn [core setter foldl] in *. x86. cbn [core setter] in *. no_wrap.
    by repeat (f_equal; try lia).
Qed.

Lemma switch_out_saved c r b : fits c r b -> frame_holds (ram (core (switch_out c r b))) c (called r b).
Proof.
  intros F. destruct (switch_out_core c r b F) as (m & Hm & ->). unfold fits in F. layout.
  destruct F as (? & ? & ? & ? & ? & ? & ? & _). unfold frame_holds, called. cbn [r_esp r_ebx r_ebp r_esi r_edi r_eip]. layout.
  assert (Hw : forall a, a + 4 <= c \/ c + 113 <= a -> load32 m a =
    load32 (store32 (store32 (ram (core b)) (esp (core b) - 4) r) (esp (core b) - 8) (ebp (core b))) a)
    by (intros a Ha; apply load32_ext; intros; apply Hm; lia).
  split_and!; try lia; words; try lia.
  all: rewrite Hw by lia; by words.
Qed.

Lemma switch_out_rest c r b a : fits c r b ->
  ~ (c <= a < c + 113 \/ esp (core b) - 24 <= a < esp (core b)) ->
  load8 (ram (core (switch_out c r b))) a = load8 (ram (core b)) a.
Proof.
  intros F Ha. destruct (switch_out_core c r b F) as (m & Hm & ->). unfold fits in F. layout.
  rewrite !load8_store32_ne by lia. rewrite Hm by lia. by rewrite !load8_store32_ne by lia.
Qed.

Lemma frame_holds_ext c r m m' :
  (forall a, c <= a < c + 113 \/ r_esp r - csf_size <= a < r_esp r -> load8 m' a = load8 m a) ->
  frame_holds m c r -> frame_holds m' c r.
Proof.
  intros E H. unfold frame_holds in *. layout. 
  assert (Ew : forall a, a = c \/ r_esp r - 24 <= a <= r_esp r - 4 -> load32 m' a = load32 m a)
    by (intros a Ha; apply load32_ext; intros; apply E; lia).
  by rewrite !Ew by lia.
Qed.

(** Switching in pops the frame. *)
Lemma switch_in_core c r b : frame_holds (ram (core b)) c r ->
  regs_of (switch_in c b) = r /\ ram (core (switch_in c b)) = ram (core b).
Proof.
  intros H. unfold frame_holds in H. layout. destruct H as (Hf & He & Hsp & Hb & Hp & Hsi & Hdi & Hs & Hi).
  destruct b as [[pc0 ax cx dx bx sp bp si di cf0 zf0 sf0 ip fl m] ? ?]. cbn [core ram] in *.
  unfold switch_in, context_switch_epilogue, regs_of, on_core, execs. cbn [core setter foldl]. x86. cbn [core setter]. layout.
  rewrite Hsp. no_wrap.
  replace (r_esp r - 24 + 0) with (r_esp r - 24) in * by lia.
  destruct r as [b' p' si' di' sp' ip']; cbn [r_ebx r_ebp r_esi r_edi r_esp r_eip] in *. no_wrap.
  split; [|done]. rewrite Hp, Hs, Hb.
  replace (sp' - 24 + 4 + 4) with (sp' - 24 + 8) by lia. replace (sp' - 24 + 8 + 4) with (sp' - 24 + 12) by lia.
  replace (sp' - 24 + 16 + 4) with (sp' - 24 + 20) by lia. rewrite Hsi, Hdi, Hi. f_equal. lia.
Qed.

(** The frames of a new context. *)
Lemma context_init_stack_holds ce c fn arg stack b : fits_init ce c fn arg stack ->
  let b' := on_ram (context_init_stack ce c fn arg stack) b in frame_holds (ram (core b')) c (fresh ce b' stack).
Proof.
  intros F b'. unfold fits_init in F. layout. destruct F as (? & ? & ? & ? & ?).
  unfold frame_holds, fresh. cbn [r_esp r_ebx r_ebp r_esi r_edi r_eip]. layout.
  replace (stack - 20 - 24) with (stack - 44) by lia.
  split_and!; try lia; try done; subst b'; unfold on_ram, on_core; cbn [core ram setter];
    unfold context_init_stack, context_switch_frame_build; layout; words; lia.
Qed.

Lemma context_init_stack_rest ce c fn arg stack m a : fits_init ce c fn arg stack ->
  ~ (c <= a < c + 113 \/ stack - 44 <= a < stack) -> load8 (context_init_stack ce c fn arg stack m) a = load8 m a.
Proof.
  intros F Ha. unfold fits_init in F. layout.
  unfold context_init_stack, context_switch_frame_build, context_enter_frame_build. layout.
  rewrite !load8_store32_ne by lia. apply load8_store16_ne. lia.
Qed.

(** What the entry frame holds once the switch frame is below it. *)
Lemma enter_frame_words ce c fn arg stack m : fits_init ce c fn arg stack ->
  let m' := context_init_stack ce c fn arg stack m in
  load32 m' (stack - 20) = fn /\ load32 m' (stack - 12) = F_IF /\ load32 m' (stack - 4) = arg.
Proof.
  intros F m'. unfold fits_init in F. layout. subst m'.
  unfold context_init_stack, context_switch_frame_build, context_enter_frame_build, F_IF. layout.
  split_and!; words; done.
Qed.

Lemma context_enter_begins ce c fn arg stack b t : fits_init ce c fn arg stack ->
  let b' := on_ram (context_init_stack ce c fn arg stack) b in
  regs_of t = fresh ce b' stack ->
  (forall a, stack - 20 <= a < stack -> load8 (ram (core t)) a = load8 (ram (core b')) a) ->
  begins fn arg stack (on_core (execs context_enter_code) t).
Proof.
  intros F b' Hr Hm. destruct (enter_frame_words ce c fn arg stack (ram (core b)) F) as (H1 & H2 & H3).
  unfold fits_init in F. layout. injection Hr as _ _ _ _ Hsp _. layout.
  assert (Hw : forall a, stack - 20 <= a <= stack - 4 -> load32 (ram (core t)) a = load32 (ram (core b')) a)
    by (intros a Ha; apply load32_ext; intros; apply Hm; lia).
  unfold begins, on_core, context_enter_code, execs. cbn [core setter foldl exec]. unfold top. cbn [next eip if_ esp ram setter].
  rewrite Hsp. no_wrap.
  replace (stack - 20 + 8) with (stack - 12) by lia. replace (stack - 20 + 12) with (stack - 8) by lia.
  replace (stack - 8 + 4) with (stack - 4) by lia. rewrite !Hw by lia.
  subst b'. cbn [on_ram on_core core ram setter]. rewrite H1, H2, H3. split_and!; done.
Qed.

#[export] Instance switcher_laws (context_enter : Z) : @SwitcherLaws board regs (switcher context_enter).
Proof.
  split; unfold sw_own, sw_area.
  - apply switch_out_saved.
  - intros c r b a F Ha. apply switch_out_rest; [done|]. exact Ha.
  - intros c r m m'. apply frame_holds_ext.
  - intros c r b H. by apply (switch_in_core c r b).
  - intros c b. destruct b as [[] ? ?]. done.
  - apply context_init_stack_holds.
  - intros c fn arg stack b a F Ha. apply context_init_stack_rest; [done|].
    cbn in Ha. layout. lia.
  - intros c fn arg stack b t F Hr Hm. apply (context_enter_begins context_enter c fn arg stack b); [done..|].
    rewrite Hr in Hm. exact Hm.
Qed.

(** No operation sets [CC_FPU_USED], and without it a switch leaves the unit as it is:
    the next context finds the registers of the last one, and the unit enabled, so that it
    is not trapped into [trap_device_not_available()].  [context_init()] does not clear the
    flags of a new context. *)
Theorem fpu_state_is_shared ce c d r fn arg stack b :
  fits c r b -> fits_init ce d fn arg stack -> flag_set c CC_FPU_USED b = false ->
  let b1 := trap_device_not_available c b in
  let b2 := switch_in d (switch_out c r b1) in
  flag_set c CC_FPU_USED b1 = false /\ Z.land (cr0 b1) CR0_EM = 0 /\ fpu b2 = fpu b1 /\ cr0 b2 = cr0 b1
  /\ forall m, load8 (context_init_stack ce d fn arg stack m) (cc_flags d) = load8 m (cc_flags d).
Proof.
  intros F Fi Hu b1 b2.
  assert (Ec : core b1 = core b)
    by (unfold b1, trap_device_not_available, fnclex; cbn; destruct (flag_set _ _ _); [done|]; by repeat case_match).
  assert (Hu1 : flag_set c CC_FPU_USED b1 = false) by (unfold flag_set in *; by rewrite Ec).
  assert (Hs : flag_set c CC_FPU_USED (on_core (execs [pushi r; pushl EBP; movl ESP EBP]) b1) = false).
  { rewrite <- Hu1. unfold flag_set. do 3 f_equal. unfold on_core, execs. cbn [core setter foldl]. rewrite Ec.
    unfold fits in F. layout. destruct b as [[] ? ?]. cbn in *. no_wrap. rewrite !load8_store32_ne by lia. done. }
  split_and!; [done| | | |].
  - unfold b1, trap_device_not_available, fnclex. cbn.
    assert (E : Z.land (Z.land (cr0 b) (Z.lnot CR0_EM)) CR0_EM = 0) by (rewrite <- Z.land_assoc; apply Z.land_0_r).
    by repeat case_match.
  - unfold b2, switch_in, context_switch_epilogue, switch_out, context_switch_prologue, fpu_switch. by rewrite Hs.
  - unfold b2, switch_in, context_switch_epilogue, switch_out, context_switch_prologue, fpu_switch. by rewrite Hs.
  - intros m. unfold fits_init in Fi. layout. unfold context_init_stack, context_switch_frame_build, context_enter_frame_build. layout.
    rewrite !load8_store32_ne by lia. apply load8_store16_ne. lia.
Qed.

End I386SwitchFacts.
