(* ===== verification/AvrSwitch.v ===== *)
(** * Context switch of the AVR
    (src/lib/context/avr/context_switch.h, and context_enter.h and context_enter.S of
    the at90s8515, the atmega103 and the atmega644p)

    The same as I386Switch.v for the AVR: thirty-two registers of a byte, a stack pointer
    that points at the first free byte, return addresses with the high byte below the low
    one.  [isr_context_switch()] has no frame of its own there. *)

From stdpp Require Import base list gmap.
From Stdlib Require Import ZArith Lia.
From S2P Require Import Prelude Membuf NetbufMem Ip Asm I386 Switch I386Switch.
Open Scope Z_scope.

Module AvrSwitch.

Record cpu := Avr_ {
  rf : nat -> Z;         (* r0 to r31 *)
  sp : Z;
  pc : Z;                (* a word address *)
  sreg : Z;
  rampz : Z;
  sram : mem }.

#[export] Instance eta_avr_cpu : Eta cpu := fun s => Avr_ (rf s) (sp s) (pc s) (sreg s) (rampz s) (sram s).

Definition set_reg (i : nat) (v : Z) (s : cpu) : cpu := s <| rf := fun j => if decide (j = i) then v else rf s j |>.

Inductive insn :=
  | push (r : nat) | pop (r : nat)
  | out_sreg (r : nat)      (* out 0x3f, r *)
  | out_rampz (r : nat)     (* out 0x3b, r *)
  | in_sreg (r : nat) | in_rampz (r : nat)
  | ret | reti.

Definition push_byte (v : Z) (s : cpu) : cpu := s <| sram := store8 (sram s) (sp s) v |> <| sp := u16 (sp s - 1) |>.
Definition pop_byte (s : cpu) : Z * cpu := let a := u16 (sp s + 1) in (load8 (sram s) a, s <| sp := a |>).

(** The high byte of the address is on top. *)
Definition call (r : Z) (s : cpu) : cpu := push_byte (r / 2 ^ 8) (push_byte r s).
Definition return_ (s : cpu) : cpu :=
  let '(hi, s) := pop_byte s in
  let '(lo, s) := pop_byte s in
  s <| pc := 2 ^ 8 * hi + lo |>.

(** The interrupt flag of the status register. *)
Definition SREG_I : Z := 0x80.

Definition exec (i : insn) (s : cpu) : cpu :=
  match i with
  | push r => push_byte (rf s r) s
  | pop r => let '(v, s) := pop_byte s in set_reg r v s
  | out_sreg r => s <| sreg := rf s r |>
  | out_rampz r => s <| rampz := rf s r |>
  | in_sreg r => set_reg r (sreg s) s
  | in_rampz r => set_reg r (rampz s) s
  | ret => return_ s
  | reti => let s := return_ s in s <| sreg := Z.lor (sreg s) SREG_I |>
  end.
Definition execs (code : list insn) (s : cpu) : cpu := foldl (fun s i => exec i s) s code.

(** The registers in the order they are pushed. *)
Definition switch_regs : list nat := [2; 3; 4; 5; 6; 7; 8; 9; 10; 11; 12; 13; 14; 15; 16; 17; 28; 29]%nat.

(** [struct cpu_context] is the stack pointer, the first field of [struct context]. *)
Definition cc_sp (c : Z) : Z := c.

Definition context_switch_prologue (c : Z) (s : cpu) : cpu :=
  let s := execs (push <$> switch_regs) s in s <| sram := store16 (sram s) (cc_sp c) (sp s) |>.
Definition context_switch_epilogue (c : Z) (s : cpu) : cpu :=
  execs (pop <$> reverse switch_regs) (s <| sp := load16 (sram s) (cc_sp c) |>).

(** [isr_context_switch()] up to the [startup] mark and from there. *)
Definition switch_out (c r : Z) (s : cpu) : cpu := context_switch_prologue c (call r s).
Definition switch_in (c : Z) (s : cpu) : cpu := exec ret (context_switch_epilogue c s).

(** ** A new context *)

Definition csf_pchi : Z := 18.
Definition csf_pclo : Z := 19.
Definition csf_size : Z := 20.

Section enter.
(** Which of the processors, and the address of [context_enter]. *)
Variables (atmega103 : bool) (context_enter : Z).

(** The atmega103 has a byte for RAMPZ between r24 and the status register. *)
Definition cef_size : Z := if atmega103 then 7 else 6.

Definition context_enter_frame_build (cef fn arg : Z) (m : mem) : mem :=
  if atmega103 then
    let m := store8 m (cef + 5) (Z.land (Z.shiftr fn 8) 0xff) in
    let m := store8 m (cef + 6) (Z.land fn 0xff) in
    let m := store8 m (cef + 3) 0x80 in
    let m := store8 m (cef + 2) 0 in
    let m := store8 m (cef + 4) 0 in
    let m := store8 m (cef + 1) (Z.land arg 0xff) in
    store8 m (cef + 0) (Z.shiftr arg 8)
  else
    let m := store8 m (cef + 4) (Z.land (Z.shiftr fn 8) 0xff) in
    let m := store8 m (cef + 5) (Z.land fn 0xff) in
    let m := store8 m (cef + 2) 0x80 in
    let m := store8 m (cef + 3) 0 in
    let m := store8 m (cef + 1) (Z.land arg 0xff) in
    store8 m (cef + 0) (Z.shiftr arg 8).

Definition context_switch_frame_build (csf c : Z) (m : mem) : mem :=
  let m := store16 m (cc_sp c) (csf - 1) in
  let m := store8 m (csf + csf_pchi) (Z.land (Z.shiftr context_enter 8) 0xff) in
  store8 m (csf + csf_pclo) (Z.land context_enter 0xff).

Definition context_init_stack (c fn arg stack_addr : Z) (m : mem) : mem :=
  let m := context_enter_frame_build (stack_addr - cef_size) fn arg m in
  context_switch_frame_build (stack_addr - cef_size - csf_size) c m.

Definition context_enter_code : list insn :=
  if atmega103 then [pop 25; pop 24; pop 0; out_rampz 0; pop 0; out_sreg 0; pop 1; reti]
  else [pop 25; pop 24; pop 0; out_sreg 0; pop 1; reti].

(** ** What a switch keeps *)

Record regs := Regs { r_kept : list Z; r_sp : Z; r_pc : Z }.

Definition regs_of (s : cpu) : regs := Regs (rf s <$> switch_regs) (sp s) (pc s).
Definition called (r : Z) (s : cpu) : regs := Regs (rf s <$> switch_regs) (sp s) r.

(** The bytes below [a], downwards. *)
Definition bytes_down (m : mem) (a : Z) (n : nat) : list Z := (fun i => load8 m (a - i)) <$> seqZ 0 (Z.of_nat n).

Definition frame_holds (m : mem) (c : Z) (r : regs) : Prop :=
  let s := r_sp r in
  csf_size <= s < 2 ^ 16 - 1 /\ load16 m (cc_sp c) = s - csf_size
  /\ bytes_down m (s - 2) (length switch_regs) = r_kept r
  /\ 2 ^ 8 * load8 m (s - 1) + load8 m s = r_pc r.

Definition fresh (s : cpu) (stack : Z) : regs :=
  let top := stack - cef_size - 1 in
  Regs (bytes_down (sram s) (top - 2) (length switch_regs)) top context_enter.

(** What a function called with one argument finds: r24 and r25 hold it, r1 is zero,
    interrupts are enabled and the stack is empty. *)
Definition begins (fn arg stack : Z) (s : cpu) : Prop :=
  pc s = fn /\ rf s 24 + 2 ^ 8 * rf s 25 = arg /\ rf s 1 = 0 /\ Z.land (sreg s) SREG_I = SREG_I /\ sp s = stack - 1
  /\ (atmega103 = true -> rampz s = 0).

Definition fits (c r : Z) (s : cpu) : Prop :=
  0 <= r < 2 ^ 16 /\ (forall i, 0 <= rf s i < 2 ^ 8) /\ csf_size <= sp s < 2 ^ 16 - 1
  /\ (sp s < c \/ c + 2 <= sp s - csf_size + 1).

Definition fits_init (c fn arg stack : Z) : Prop :=
  0 <= context_enter < 2 ^ 16 /\ 0 <= fn < 2 ^ 16 /\ 0 <= arg < 2 ^ 16
  /\ cef_size + csf_size + 1 <= stack < 2 ^ 16
  /\ (stack <= c \/ c + 2 <= stack - cef_size - csf_size).

#[export] Instance switcher : Switcher cpu regs := {|
  sw_mem := sram;
  sw_regs := regs_of;
  sw_called := called;
  sw_save := switch_out;
  sw_restore := switch_in;
  sw_init c fn arg stack s := s <| sram := context_init_stack c fn arg stack (sram s) |>;
  sw_fresh := fresh;
  sw_enter := execs context_enter_code;
  sw_begins := begins;
  sw_context c a := c <= a < c + 2;
  sw_frame r a := r_sp r - csf_size < a <= r_sp r;
  sw_stack r top a := r_sp r < a < top;
  sw_saved := frame_holds;
  sw_fits := fits;
  sw_fits_init := fits_init |}.

End enter.
End AvrSwitch.

Module AvrSwitchFacts.
Import AvrSwitch.

Lemma bytes_down_cons m a n : bytes_down m a (S n) = load8 m a :: bytes_down m (a - 1) n.
Proof.
  unfold bytes_down. rewrite Nat2Z.inj_succ, seqZ_cons by lia. cbn. f_equal; [f_equal; lia|].
  rewrite Z.pred_succ. replace (Z.succ 0) with (0 + 1) by lia. rewrite <- (fmap_add_seqZ 1 0), <- list_fmap_compose.
  apply list_fmap_ext. intros i x _. cbn. f_equal. lia.
Qed.

Lemma bytes_down_ext m m' a n : (forall b, a - Z.of_nat n < b <= a -> load8 m' b = load8 m b) -> bytes_down m' a n = bytes_down m a n.
Proof.
  intros E. apply list_fmap_ext. intros i x Hx%list_elem_of_lookup_2. apply elem_of_seqZ in Hx. apply E. lia.
Qed.

Lemma execs_app p q s : execs (p ++ q) s = execs q (execs p s).
Proof. apply foldl_app. Qed.

(** Bytes pushed one after the other. *)
Definition push_bytes (vs : list Z) (s : cpu) : cpu := foldl (fun s v => push_byte v s) s vs.

Lemma push_bytes_spec vs : forall s, Z.of_nat (length vs) <= sp s < 2 ^ 16 ->
  let t := push_bytes vs s in
  rf t = rf s /\ sp t = sp s - Z.of_nat (length vs)
  /\ bytes_down (sram t) (sp s) (length vs) = u8 <$> vs
  /\ forall a, a <= sp s - Z.of_nat (length vs) \/ sp s < a -> load8 (sram t) a = load8 (sram s) a.
Proof.
  induction vs as [|v vs IH]; intros s Hs; cbn [length fmap list_fmap]; [cbn; split_and!; (done || lia)|].
  cbn [length] in Hs. change (push_bytes (v :: vs) s) with (push_bytes vs (push_byte v s)). set (s1 := push_byte v s).
  assert (Hsp : sp s1 = sp s - 1) by (cbn; apply u16_small; lia).
  destruct (IH s1 ltac:(lia)) as (H1 & H2 & H3 & H4). rewrite Hsp in *.
  assert (Hm : forall a, a <> sp s -> load8 (sram s1) a = load8 (sram s) a) by (intros a Ha; apply load8_store8_ne; lia).
  split_and!; [done|lia| |].
  - rewrite bytes_down_cons, H3. cbn. f_equal. rewrite H4 by lia. cbn. apply load8_store8.
  - intros a Ha. rewrite H4 by lia. apply Hm. lia.
Qed.

(** Registers pushed one after the other. *)
Lemma push_regs rs : forall s, execs (push <$> rs) s = push_bytes (rf s <$> rs) s.
Proof. induction rs as [|r rs IH]; intros s; [done|]. exact (IH (push_byte (rf s r) s)). Qed.

Lemma pushes rs s :
  Z.of_nat (length rs) <= sp s < 2 ^ 16 -> (forall i, 0 <= rf s i < 2 ^ 8) ->
  let t := execs (push <$> rs) s in
  rf t = rf s /\ sp t = sp s - Z.of_nat (length rs)
  /\ bytes_down (sram t) (sp s) (length rs) = rf s <$> rs
  /\ forall a, a <= sp s - Z.of_nat (length rs) \/ sp s < a -> load8 (sram t) a = load8 (sram s) a.
Proof.
  intros Hs Hr t. unfold t. rewrite push_regs.
  destruct (push_bytes_spec (rf s <$> rs) s) as (H1 & H2 & H3 & H4); rewrite length_fmap in *; [done|].
  split_and!; [done|done| |done]. rewrite H3, <- list_fmap_compose. apply list_fmap_ext. intros i x _. by apply u8_small.
Qed.

Lemma pops_sram rs : forall s, sram (exec ret (execs (pop <$> rs) s)) = sram s.
Proof. induction rs as [|r rs IH]; intros s; [done|]. exact (IH (exec (pop r) s)). Qed.

(** And popped in the opposite order, up to [a]. *)
Lemma pops rs m : forall a s, NoDup rs -> sram s = m ->
  sp s = a - Z.of_nat (length rs) -> 0 <= sp s -> a < 2 ^ 16 ->
  let t := execs (pop <$> reverse rs) s in
  rf t <$> rs = bytes_down m a (length rs) /\ sp t = a /\ sram t = m /\ forall j, j ∉ rs -> rf t j = rf s j.
Proof.
  induction rs as [|r rs IH]; intros a s Hnd Hm Hsp H0 Ha; cbn [length] in *.
  - cbn. split_and!; (done || lia).
  - apply NoDup_cons in Hnd as [Hr Hnd].
    rewrite reverse_cons, fmap_app, execs_app. cbn [fmap list_fmap].
    destruct (IH (a - 1) s Hnd Hm ltac:(lia) H0 ltac:(lia)) as (E1 & E2 & E3 & E4). cbn zeta in *.
    set (t := execs (pop <$> reverse rs) s) in *. rewrite bytes_down_cons. cbn. rewrite E2, E3, u16_small by lia.
    replace (a - 1 + 1) with a by lia. rewrite decide_True by done. rewrite <- E1. split_and!; try done.
    + f_equal. apply list_fmap_ext. intros i x Hx%list_elem_of_lookup_2. rewrite decide_False; [done|]. by intros ->.
    + intros j [Hj1 Hj2]%not_elem_of_cons. rewrite decide_False by done. by apply E4.
Qed.

Create HintDb avr_layout.
#[local] Hint Unfold csf_pchi csf_pclo csf_size cc_sp cef_size : avr_layout.
Ltac layout := autounfold with avr_layout in *; change (length switch_regs) with 18%nat in *.
Ltac bytes := repeat first [rewrite load8_store8_at by lia | rewrite load8_store8_ne by lia | rewrite load8_store16_ne by lia].

Ltac no_wrap16 := repeat match goal with |- context [u16 ?e] => rewrite (u16_small e) by lia end.

Lemma byte_pair v : 0 <= v < 2 ^ 16 -> 2 ^ 8 * u8 (v / 2 ^ 8) + u8 v = v.
Proof. intros Hv. unfold u8. Z.div_mod_to_equations. lia. Qed.

Lemma u8_low v : u8 (Z.land v 0xff) = u8 v.
Proof. unfold u8. change 0xff with (Z.ones 8). rewrite Z.land_ones by lia. apply Z.mod_mod. lia. Qed.

Lemma load16_store8_ne m a v b : b + 2 <= a \/ a + 1 <= b -> load16 (store8 m a v) b = load16 m b.
Proof. intros H. unfold load16. by rewrite !load8_store8_ne by lia. Qed.

(** The call and the pushes of a switch. *)
Lemma switch_out_sram c r s : fits c r s ->
  let m := sram (switch_out c r s) in
  load16 m c = sp s - 20 /\ bytes_down m (sp s - 2) 18 = rf s <$> switch_regs
  /\ load8 m (sp s) = u8 r /\ load8 m (sp s - 1) = u8 (r / 2 ^ 8)
  /\ forall a, ~ (c <= a < c + 2 \/ sp s - 20 < a <= sp s) -> load8 m a = load8 (sram s) a.
Proof.
  intros F. unfold fits in F. layout. destruct F as (Hr & Hrf & Hsp & Hc).
  unfold switch_out, context_switch_prologue. set (s1 := call r s).
  assert (E1 : sp s1 = sp s - 2) by (cbn; rewrite (u16_small (sp s - 1)) by lia; rewrite u16_small; lia).
  assert (Em : forall a, load8 (sram s1) a = load8 (store8 (store8 (sram s) (sp s) r) (sp s - 1) (r / 2 ^ 8)) a)
    by (intros a; cbn; by rewrite (u16_small (sp s - 1)) by lia).
  destruct (pushes switch_regs s1) as (H1 & H2 & H3 & H4); [change (length switch_regs) with 18%nat; lia|done|].
  set (t := execs (push <$> switch_regs) s1) in *. layout. rewrite E1 in *. cbn zeta.
  cbn [sram setter]. assert (Esp : sp t = sp s - 20) by lia. rewrite Esp.
  split_and!.
  - apply load16_store16. lia.
  - etrans; [|exact H3]. apply bytes_down_ext. intros b Hb. bytes. done.
  - rewrite load8_store16_ne by lia. rewrite H4, Em by lia. by bytes.
  - rewrite load8_store16_ne by lia. rewrite H4, Em by lia. by bytes.
  - intros a Ha. rewrite load8_store16_ne by lia. rewrite H4, Em by lia. by bytes.
Qed.

Lemma avr_switch_out_saved c r s : fits c r s -> frame_holds (sram (switch_out c r s)) c (called r s).
Proof.
  intros F. destruct (switch_out_sram c r s F) as (H1 & H2 & H3 & H4 & _). unfold fits in F.
  unfold frame_holds, called. cbn [r_sp r_kept r_pc]. layout. rewrite H1, H2, H3, H4.
  split_and!; [lia..|done|]. apply byte_pair. lia.
Qed.

Lemma avr_frame_holds_ext c r m m' :
  (forall a, c <= a < c + 2 \/ r_sp r - 20 < a <= r_sp r -> load8 m' a = load8 m a) ->
  frame_holds m c r -> frame_holds m' c r.
Proof.
  intros E H. unfold frame_holds, load16 in *. layout. rewrite !E by lia. rewrite (bytes_down_ext m) by (intros; apply E; lia). done.
Qed.

Lemma switch_regs_nodup : NoDup switch_regs.
Proof. by apply (bool_decide_unpack _); vm_compute. Qed.

Lemma epilogue_pops c r s : frame_holds (sram s) c r ->
  let t := context_switch_epilogue c s in
  rf t <$> switch_regs = r_kept r /\ sp t = r_sp r - 2 /\ sram t = sram s.
Proof.
  intros (Hsp & Hc & <- & _). unfold context_switch_epilogue. unfold csf_size in *.
  set (s1 := s <| sp := load16 (sram s) (cc_sp c) |>).
  assert (E : sp s1 = r_sp r - 20) by exact Hc. assert (Em : sram s1 = sram s) by done. clearbody s1.
  destruct (pops switch_regs (sram s) (r_sp r - 2) s1 switch_regs_nodup Em) as (E1 & E2 & E3 & _); [|lia..|done].
  change (length switch_regs) with 18%nat. lia.
Qed.

Lemma return_pops t : 0 <= sp t < 2 ^ 16 - 2 ->
  regs_of (return_ t) = Regs (rf t <$> switch_regs) (sp t + 2) (2 ^ 8 * load8 (sram t) (sp t + 1) + load8 (sram t) (sp t + 2)).
Proof.
  intros H. unfold regs_of, return_, pop_byte. cbn [rf sp pc sram setter].
  rewrite (u16_small (sp t + 1)) by lia. replace (sp t + 1 + 1) with (sp t + 2) by lia. by rewrite u16_small by lia.
Qed.

Lemma switch_in_pops c r s : frame_holds (sram s) c r -> regs_of (switch_in c s) = r /\ sram (switch_in c s) = sram s.
Proof.
  intros H. destruct (epilogue_pops c r s H) as (E1 & E2 & E3). destruct H as (Hsp & _ & _ & Hpc). unfold csf_size in Hsp.
  unfold switch_in. cbn [exec]. split; [|by cbn].
  rewrite return_pops, E1, E2, E3 by lia.
  replace (r_sp r - 2 + 1) with (r_sp r - 1) by lia. replace (r_sp r - 2 + 2) with (r_sp r) by lia. rewrite Hpc. by destruct r.
Qed.

Lemma avr_context_init_stack_holds mega ce c fn arg stack s : fits_init mega ce c fn arg stack ->
  let s' := s <| sram := context_init_stack mega ce c fn arg stack (sram s) |> in frame_holds (sram s') c (fresh mega ce s' stack).
Proof.
  intros F s'. unfold fits_init in F. unfold frame_holds, fresh. cbn [r_sp r_kept r_pc].
  assert (Hc : cef_size mega = 6 \/ cef_size mega = 7) by (destruct mega; cbn; auto).
  set (k := cef_size mega) in *. layout. destruct F as (? & ? & ? & ? & ?).
  split_and!; [lia..| |done|]; subst s'; cbn [sram setter]; unfold context_init_stack, context_switch_frame_build; fold k; layout.
  - rewrite !load16_store8_ne by lia. rewrite load16_store16; lia.
  - bytes. rewrite !u8_low, Z.shiftr_div_pow2 by lia. by apply byte_pair.
Qed.

Lemma avr_context_init_stack_rest mega ce c fn arg stack m a : fits_init mega ce c fn arg stack ->
  ~ (c <= a < c + 2 \/ stack - cef_size mega - 20 <= a < stack) ->
  load8 (context_init_stack mega ce c fn arg stack m) a = load8 m a.
Proof.
  intros F Ha. unfold fits_init, context_init_stack, context_switch_frame_build, context_enter_frame_build in *.
  destruct mega; layout; by bytes.
Qed.

(** What the entry frame holds once the switch frame is below it: the argument, the
    processor's own registers and the function. *)
Definition entry_bytes (mega : bool) (fn arg : Z) : list Z :=
  [u8 (arg / 2 ^ 8); u8 arg] ++ (if mega then [0] else []) ++ [0x80; 0; u8 (fn / 2 ^ 8); u8 fn].

Lemma entry_frame_bytes mega ce c fn arg stack m i x : fits_init mega ce c fn arg stack ->
  entry_bytes mega fn arg !! i = Some x ->
  load8 (context_init_stack mega ce c fn arg stack m) (stack - cef_size mega + Z.of_nat i) = x.
Proof.
  intros F Hx. unfold fits_init, context_init_stack, context_switch_frame_build, context_enter_frame_build in *.
  destruct mega; layout; do 7 (destruct i as [|i]; [cbn in Hx; first [done|injection Hx as <-; bytes;
    rewrite ?u8_low, ?Z.shiftr_div_pow2 by lia; done]|]); done.
Qed.

Lemma avr_context_enter_begins mega ce c fn arg stack s t : fits_init mega ce c fn arg stack ->
  let s' := s <| sram := context_init_stack mega ce c fn arg stack (sram s) |> in
  regs_of t = fresh mega ce s' stack ->
  (forall a, stack - cef_size mega - 1 < a < stack -> load8 (sram t) a = load8 (sram s') a) ->
  begins mega fn arg stack (execs (context_enter_code mega) t).
Proof.
  intros F s' Hr Hm. assert (Hsp : sp t = stack - cef_size mega - 1) by (exact (f_equal r_sp Hr)). clear Hr.
  assert (Hb : forall i a x, entry_bytes mega fn arg !! i = Some x -> a = stack - cef_size mega + Z.of_nat i ->
    Z.of_nat i < cef_size mega -> load8 (sram t) a = x)
    by (intros i a x Hx -> Hi; rewrite Hm by lia; by eapply entry_frame_bytes).
  unfold fits_init in F. destruct F as (_ & Hfn & Harg & Hst & _). clear Hm s'.
  assert (Efn := byte_pair fn Hfn). assert (Earg := byte_pair arg Harg).
  unfold begins. destruct mega; layout; cbn; repeat first [rewrite decide_True by done | rewrite decide_False by done];
    rewrite Hsp; no_wrap16;
    repeat match goal with |- context [load8 (sram t) ?e] =>
      first [rewrite (Hb 0%nat e _ eq_refl) by lia | rewrite (Hb 1%nat e _ eq_refl) by lia
            |rewrite (Hb 2%nat e _ eq_refl) by lia | rewrite (Hb 3%nat e _ eq_refl) by lia
            |rewrite (Hb 4%nat e _ eq_refl) by lia | rewrite (Hb 5%nat e _ eq_refl) by lia
            |rewrite (Hb 6%nat e _ eq_refl) by lia] end;
    split_and!; first [done|lia].
Qed.

#[export] Instance switcher_laws (atmega103 : bool) (context_enter : Z) :
  @SwitcherLaws cpu regs (switcher atmega103 context_enter).
Proof.
  split; unfold sw_own, sw_area.
  - apply avr_switch_out_saved.
  - intros c r s a F Ha. by apply (switch_out_sram c r s F).
  - intros c r m m'. apply avr_frame_holds_ext.
  - intros c r s H. by apply (switch_in_pops c r s).
  - intros c s. cbn [sw_mem sw_restore switcher]. unfold switch_in, context_switch_epilogue.
    etrans; [apply pops_sram|done].
  - apply avr_context_init_stack_holds.
  - intros c fn arg stack s a F Ha. apply (avr_context_init_stack_rest atmega103 context_enter c fn arg stack (sram s) a F).
    cbn [sw_context sw_frame sw_stack sw_fresh switcher] in Ha. unfold fresh in Ha. cbn [r_sp] in Ha.
    change csf_size with 20 in Ha. lia.
  - intros c fn arg stack s t F Hr Hm. apply (avr_context_enter_begins atmega103 context_enter c fn arg stack s); [done..|].
    rewrite Hr in Hm. exact Hm.
Qed.
End AvrSwitchFacts.

Module SwitchClaim.

(** An i386 and an AVR that run one context and have built the stack of another. *)
Definition i386_start : I386Switch.board :=
  I386Switch.Board (Cpu 0 0 0 0 1 0x8000 3 4 5 false false false 0 false ∅) 0 (replicate 27 0).
Definition avr_start : AvrSwitch.cpu := AvrSwitch.Avr_ (fun i => Z.of_nat i mod 32) 0x300 0x40 0 0 ∅.

Definition i386_world : world I386Switch.board I386Switch.regs :=
  let _ := I386Switch.switcher 0x7000 in
  let s := sw_init 0x2000 0x5000 7 0x9000 i386_start in
  World 0x1000 0x8100 s {[0x2000 := Saved (sw_fresh s 0x9000) 0x9000 (sw_mem s) (Some (0x5000, 7))]}.
Definition avr_world : world AvrSwitch.cpu AvrSwitch.regs :=
  let _ := AvrSwitch.switcher true 0x70 in
  let s := sw_init 0x120 0x1234 0x207 0x400 avr_start in
  World 0x100 0x310 s {[0x120 := Saved (sw_fresh s 0x400) 0x400 (sw_mem s) (Some (0x1234, 0x207))]}.

(** C26: on the i386 and on the AVR, for every order of switches, of new contexts and of
    code that leaves the memory of the other contexts alone, a context that is switched
    in finds the registers a function keeps, its stack pointer, its return address and
    every byte of its stack as they were when it was switched out; one that has not run
    yet enters its function with interrupts enabled and its argument in place.  This
    holds for each of the AVR processors. *)
Theorem contexts_resume_exactly (context_enter : Z) (atmega103 : bool) :
  (let i386 := I386Switch.switcher context_enter in
   forall (w : world I386Switch.board I386Switch.regs) n v r,
     @reach _ _ i386 w -> w_saved w !! n = Some v -> @can_switch _ _ i386 w r ->
     @resumed _ _ i386 n v (@switched _ _ i386 w n r))
  /\ (let avr := AvrSwitch.switcher atmega103 context_enter in
     forall (w : world AvrSwitch.cpu AvrSwitch.regs) n v r,
       @reach _ _ avr w -> w_saved w !! n = Some v -> @can_switch _ _ avr w r ->
       @resumed _ _ avr n v (@switched _ _ avr w n r)).
Proof.
  split; intros m w n v r.
  - exact (@switch_resumes _ _ _ (I386SwitchFacts.switcher_laws context_enter) w n v r).
  - exact (@switch_resumes _ _ _ (AvrSwitchFacts.switcher_laws atmega103 context_enter) w n v r).
Qed.

Lemma contexts_resume_exactly_witness :
  (exists v, w_saved i386_world !! 0x2000 = Some v
    /\ @resumed _ _ (I386Switch.switcher 0x7000) 0x2000 v (@switched _ _ (I386Switch.switcher 0x7000) i386_world 0x2000 0x6000))
  /\ (exists v, w_saved avr_world !! 0x120 = Some v
    /\ @resumed _ _ (AvrSwitch.switcher true 0x70) 0x120 v (@switched _ _ (AvrSwitch.switcher true 0x70) avr_world 0x120 0x60)).
Proof.
  split; (eexists; split; [apply lookup_insert_eq|]).
  - eapply (proj1 (contexts_resume_exactly 0x7000 true)).
    + eapply reach_step; [apply (@reach_start _ _ (I386Switch.switcher 0x7000) 0x1000 0x8100 i386_start)|].
      apply (@step_init _ _ (I386Switch.switcher 0x7000) (World 0x1000 0x8100 i386_start ∅) 0x2000 0x5000 7 0x9000).
      * cbn. unfold I386Switch.fits_init, I386Switch.word, I386Switch.cef_size, I386Switch.csf_size. lia.
      * by intros d u a Hd.
    + apply lookup_insert_eq.
    + split_and!.
      * cbn. unfold I386Switch.fits, I386Switch.word, I386Switch.csf_size. cbn. split_and!; (done || lia).
      * intros a Ha [Hb|Hb]; cbn in *; unfold I386Switch.csf_size in *; lia.
      * intros c v a Hv. unfold i386_world in Hv. cbn [w_saved] in Hv. apply lookup_singleton_Some in Hv as [<- <-].
        intros [[Hb|Hb]|Hb] [Hc|Hc]; cbn in *; unfold I386Switch.csf_size, I386Switch.cef_size in *; lia.
  - eapply (proj2 (contexts_resume_exactly 0x70 true)).
    + eapply reach_step; [apply (@reach_start _ _ (AvrSwitch.switcher true 0x70) 0x100 0x310 avr_start)|].
      apply (@step_init _ _ (AvrSwitch.switcher true 0x70) (World 0x100 0x310 avr_start ∅) 0x120 0x1234 0x207 0x400).
      * cbn. unfold AvrSwitch.fits_init, AvrSwitch.cef_size, AvrSwitch.csf_size. lia.
      * by intros d u a Hd.
    + apply lookup_insert_eq.
    + split_and!.
      * cbn. unfold AvrSwitch.fits, AvrSwitch.csf_size. cbn. split_and!; try lia.
        intros i. pose proof (Z.mod_pos_bound (Z.of_nat i) 32). lia.
      * intros a Ha [Hb|Hb]; cbn in *; unfold AvrSwitch.csf_size in *; lia.
      * intros c v a Hv. unfold avr_world in Hv. cbn [w_saved] in Hv. apply lookup_singleton_Some in Hv as [<- <-].
        intros [[Hb|Hb]|Hb] [Hc|Hc]; cbn in *; unfold AvrSwitch.csf_size, AvrSwitch.cef_size in *; lia.
Defined.

End SwitchClaim.
