(* ===== verification/Trap.v ===== *)
(** * Traps of the i386 (src/lib/context/i386/trap.c, trap_entry.S) and interrupts of
    the AVR (src/lib/entry/avr, src/test/mega103/srv)

    The interrupt descriptor table [trap_init()] builds, the entry code that wraps every
    C handler, and what an interrupted program finds afterwards.  The handlers are C
    functions; they are a parameter that keeps the calling convention. *)

From stdpp Require Import base list gmap.
From Stdlib Require Import ZArith Lia.
From S2P Require Import Prelude Membuf NetbufMem Ip Asm I386 Switch I386Switch AvrSwitch.
Open Scope Z_scope.

Module Trap.

(** ** Entry points *)

Inductive handler :=
  | trap_unused | trap_divide_by_zero | trap_debug | trap_nmi | trap_breakpoint | trap_overflow | trap_bound
  | trap_invalid_opcode | trap_device_not_available | trap_double_fault | trap_coprocessor_overrun | trap_invalid_tss
  | trap_segment_not_present | trap_stack_fault | trap_general_protection | trap_page_fault | trap_floating_point_error
  | trap_alignment_check
  | trap_irq0 | trap_irq1 | trap_irq2 | trap_irq3 | trap_irq4 | trap_irq5 | trap_irq6 | trap_irq7
  | trap_irq8 | trap_irq9 | trap_irq10 | trap_irq11 | trap_irq12 | trap_irq13 | trap_irq14 | trap_irq15.

#[export] Instance handler_eq_dec : EqDecision handler.
Proof. solve_decision. Defined.

(** The macros of trap_entry.S. *)
Inductive entry := IDT_DUMMY (n : Z) | IDT_ERROR (n : Z) | IRQ_VECTOR (n : Z).

Definition entry_code (e : entry) : list insn :=
  match e with
  | IDT_DUMMY n | IRQ_VECTOR n => [cld; pushi 0; pushi n; pushl EAX; pushl ECX; pushl EDX]
  | IDT_ERROR n => [cld; pushi n; pushl EAX; pushl ECX; pushl EDX]
  end.
Definition exit_code : list insn := [popl EDX; popl ECX; popl EAX; addl 8 ESP; iret].

(** The entry of a handler. *)
Definition entry_of (h : handler) : entry :=
  match h with
  | trap_divide_by_zero => IDT_DUMMY 0x00
  | trap_debug => IDT_DUMMY 0x01
  | trap_nmi => IDT_DUMMY 0x02
  | trap_breakpoint => IDT_DUMMY 0x03
  | trap_overflow => IDT_DUMMY 0x04
  | trap_bound => IDT_DUMMY 0x05
  | trap_invalid_opcode => IDT_DUMMY 0x06
  | trap_device_not_available => IDT_DUMMY 0x07
  | trap_double_fault => IDT_ERROR 0x08
  | trap_coprocessor_overrun => IDT_ERROR 0x09
  | trap_invalid_tss => IDT_ERROR 0x0a
  | trap_segment_not_present => IDT_ERROR 0x0b
  | trap_stack_fault => IDT_ERROR 0x0c
  | trap_general_protection => IDT_ERROR 0x0d
  | trap_page_fault => IDT_ERROR 0x0e
  | trap_floating_point_error => IDT_ERROR 0x10
  | trap_alignment_check => IDT_ERROR 0x11
  | trap_unused => IDT_DUMMY 0xff
  | trap_irq0 => IRQ_VECTOR 0x20 | trap_irq1 => IRQ_VECTOR 0x21 | trap_irq2 => IRQ_VECTOR 0x22
  | trap_irq3 => IRQ_VECTOR 0x23 | trap_irq4 => IRQ_VECTOR 0x24 | trap_irq5 => IRQ_VECTOR 0x25
  | trap_irq6 => IRQ_VECTOR 0x26 | trap_irq7 => IRQ_VECTOR 0x27 | trap_irq8 => IRQ_VECTOR 0x28
  | trap_irq9 => IRQ_VECTOR 0x29 | trap_irq10 => IRQ_VECTOR 0x2a | trap_irq11 => IRQ_VECTOR 0x2b
  | trap_irq12 => IRQ_VECTOR 0x2c | trap_irq13 => IRQ_VECTOR 0x2d | trap_irq14 => IRQ_VECTOR 0x2e
  | trap_irq15 => IRQ_VECTOR 0x2f
  end.
Definition entry_number (e : entry) : Z := match e with IDT_DUMMY n | IDT_ERROR n | IRQ_VECTOR n => n end.

(** ** The descriptor table *)

Definition IDT_ENTRIES : Z := 256.
Definition TYPE_INTR : Z := 14.
Definition TRAP_DIVIDE_BY_ZERO : Z := 0x00.
Definition TRAP_DEBUG : Z := 0x01.
Definition TRAP_NMI : Z := 0x02.
Definition TRAP_BREAKPOINT : Z := 0x03.
Definition TRAP_OVERFLOW : Z := 0x04.
Definition TRAP_BOUND : Z := 0x05.
Definition TRAP_INVALID_OPCODE : Z := 0x06.
Definition TRAP_DEVICE_NOT_AVAILABLE : Z := 0x07.
Definition TRAP_DOUBLE_FAULT : Z := 0x08.
Definition TRAP_COPROCESSOR_OVERRUN : Z := 0x09.
Definition TRAP_INVALID_TSS : Z := 0x0a.
Definition TRAP_SEGMENT_NOT_PRESENT : Z := 0x0b.
Definition TRAP_STACK_FAULT : Z := 0x0c.
Definition TRAP_GENERAL_PROTECTION : Z := 0x0d.
Definition TRAP_PAGE_FAULT : Z := 0x0e.
Definition TRAP_FLOATING_POINT_ERROR : Z := 0x10.
Definition TRAP_ALIGNMENT_CHECK : Z := 0x11.
Definition IRQ_BASE : Z := 0x20.
Definition IRQ2TRAP (i : Z) : Z := i + IRQ_BASE.

(** A field of [n] bits from bit [lo] of a word. *)
Definition get_field (lo n w : Z) : Z := Z.land (Z.shiftr w lo) (Z.ones n).
Definition put_field (lo n v w : Z) : Z :=
  Z.lor (Z.land w (Z.lnot (Z.shiftl (Z.ones n) lo))) (Z.shiftl (Z.land v (Z.ones n)) lo).
Definition assign (a lo n v : Z) (m : mem) : mem := store32 m a (put_field lo n v (load32 m a)).

(** [struct gate]: two words of bit fields. *)
Definition gate_size : Z := 8.
Definition set_g_off0 (g v : Z) : mem -> mem := assign g 0 16 v.
Definition set_g_sel (g v : Z) : mem -> mem := assign g 16 16 v.
Definition set_g_stkwds (g v : Z) : mem -> mem := assign (g + 4) 0 5 v.
Definition set_g_type (g v : Z) : mem -> mem := assign (g + 4) 8 5 v.
Definition set_g_dpl (g v : Z) : mem -> mem := assign (g + 4) 13 2 v.
Definition set_g_present (g v : Z) : mem -> mem := assign (g + 4) 15 1 v.
Definition set_g_off1 (g v : Z) : mem -> mem := assign (g + 4) 16 16 v.

Definition idt_entry (g f gtype : Z) (m : mem) : mem :=
  let m := set_g_off0 g (Z.land f 0xffff) m in
  let m := set_g_off1 g (Z.land (Z.shiftr f 16) 0xffff) m in
  let m := set_g_sel g 0x10 m in
  let m := set_g_stkwds g 0 m in
  let m := set_g_type g gtype m in
  let m := set_g_dpl g 0 m in
  set_g_present g 1 m.

(** [struct idt_info]. *)
Record idt_info := Idt { idt_slot : Z; idt_type : Z; idt_fun : option handler }.

Definition idt_table : list idt_info := [
  Idt TRAP_DIVIDE_BY_ZERO TYPE_INTR (Some trap_divide_by_zero);
  Idt TRAP_DEBUG TYPE_INTR (Some trap_debug);
  Idt TRAP_NMI TYPE_INTR (Some trap_nmi);
  Idt TRAP_BREAKPOINT TYPE_INTR (Some trap_breakpoint);
  Idt TRAP_OVERFLOW TYPE_INTR (Some trap_overflow);
  Idt TRAP_BOUND TYPE_INTR (Some trap_bound);
  Idt TRAP_INVALID_OPCODE TYPE_INTR (Some trap_invalid_opcode);
  Idt TRAP_DEVICE_NOT_AVAILABLE TYPE_INTR (Some trap_device_not_available);
  Idt TRAP_DOUBLE_FAULT TYPE_INTR (Some trap_double_fault);
  Idt TRAP_COPROCESSOR_OVERRUN TYPE_INTR (Some trap_coprocessor_overrun);
  Idt TRAP_INVALID_TSS TYPE_INTR (Some trap_invalid_tss);
  Idt TRAP_SEGMENT_NOT_PRESENT TYPE_INTR (Some trap_segment_not_present);
  Idt TRAP_STACK_FAULT TYPE_INTR (Some trap_stack_fault);
  Idt TRAP_GENERAL_PROTECTION TYPE_INTR (Some trap_general_protection);
  Idt TRAP_PAGE_FAULT TYPE_INTR (Some trap_page_fault);
  Idt TRAP_FLOATING_POINT_ERROR TYPE_INTR (Some trap_floating_point_error);
  Idt TRAP_ALIGNMENT_CHECK TYPE_INTR (Some trap_alignment_check);
  Idt (IRQ2TRAP 0) TYPE_INTR (Some trap_irq0);
  Idt (IRQ2TRAP 1) TYPE_INTR (Some trap_irq1);
  Idt (IRQ2TRAP 2) TYPE_INTR (Some trap_irq2);
  Idt (IRQ2TRAP 3) TYPE_INTR (Some trap_irq3);
  Idt (IRQ2TRAP 4) TYPE_INTR (Some trap_irq4);
  Idt (IRQ2TRAP 5) TYPE_INTR (Some trap_irq5);
  Idt (IRQ2TRAP 6) TYPE_INTR (Some trap_irq6);
  Idt (IRQ2TRAP 7) TYPE_INTR (Some trap_irq7);
  Idt (IRQ2TRAP 8) TYPE_INTR (Some trap_irq8);
  Idt (IRQ2TRAP 9) TYPE_INTR (Some trap_irq9);
  Idt (IRQ2TRAP 10) TYPE_INTR (Some trap_irq10);
  Idt (IRQ2TRAP 11) TYPE_INTR (Some trap_irq11);
  Idt (IRQ2TRAP 12) TYPE_INTR (Some trap_irq12);
  Idt (IRQ2TRAP 13) TYPE_INTR (Some trap_irq13);
  Idt (IRQ2TRAP 14) TYPE_INTR (Some trap_irq14);
  Idt (IRQ2TRAP 15) TYPE_INTR (Some trap_irq15);
  Idt 0xff 0 None].

(** The addresses of the entries; a null pointer is zero. *)
Section table.
Variable addr : handler -> Z.
Definition fun_addr (f : option handler) : Z := match f with Some h => addr h | None => 0 end.

(** [do ... while (idf->idt_slot != 0xff)]. *)
Fixpoint idt_fill (idt : Z) (idf : list idt_info) (m : mem) : mem :=
  match idf with
  | [] => m
  | i :: idf =>
    let m := idt_entry (idt + gate_size * idt_slot i) (fun_addr (idt_fun i)) (idt_type i) m in
    match idf with
    | [] => m
    | j :: _ => if idt_slot j =? 0xff then m else idt_fill idt idf m
    end
  end.

(** The memory and the register [lidt] loads, as limit and address. *)
Definition trap_init (idt_addr : Z) (m : mem) : mem * (Z * Z) :=
  let m := foldl (fun m i => idt_entry (idt_addr + gate_size * i) (addr trap_unused) TYPE_INTR m) m (seqZ 0 IDT_ENTRIES) in
  let m := idt_fill idt_addr idt_table m in
  (m, (gate_size * IDT_ENTRIES - 1, idt_addr)).

Definition cpu_init (descriptors : Z) (m : mem) : mem * (Z * Z) := trap_init descriptors m.
End table.

(** ** A trap *)

Definition eflags (s : cpu) : Z :=
  Z.b2z (cf s) + 2 + 0x40 * Z.b2z (zf s) + 0x80 * Z.b2z (sf s) + F_IF * Z.b2z (if_ s).

(** The processor enters a trap through an interrupt gate. *)
Definition deliver (errorcode : option Z) (s : cpu) : cpu :=
  let fl := eflags s in
  let s := push (eip s) (push 0x10 (push fl s)) in
  let s := match errorcode with Some e => push e s | None => s end in
  s <| if_ := false |>.

(** The traps for which the processor pushes an error code. *)
Definition has_errorcode (n : Z) : bool := existsb (Z.eqb n) [8; 10; 11; 12; 13; 14; 17].

(** The code of an entry with the C function [f]; [r] is the return address of the
    call. *)
Definition enter (e : entry) (r : Z) (s : cpu) : cpu := push r (execs (entry_code e) s).
Definition run_trap (e : entry) (r : Z) (f : cpu -> cpu) (s : cpu) : cpu := execs exit_code (f (enter e r s)).

(** [struct trap_frame], as an argument at 4(%esp). *)
Definition tf_edx : Z := 0.
Definition tf_ecx : Z := 4.
Definition tf_eax : Z := 8.
Definition tf_trapnum : Z := 12.
Definition tf_errorcode : Z := 16.
Definition tf_eip : Z := 20.
Definition tf_cs : Z := 24.
Definition tf_eflags : Z := 28.
Definition tf (s : cpu) (field : Z) : Z := load32 (ram s) (esp s + 4 + field).

(** What [trap_stray()] prints before it loops for ever: the fault address, the address
    of the frame, the number of the trap and the address of the instruction. *)
Definition trap_stray (cr2 : Z) (s : cpu) : list Z := [cr2; esp s + 4; tf s tf_trapnum; tf s tf_eip].

End Trap.

(** ** Interrupts of the AVR *)

Module AvrTrap.
Import AvrSwitch.

Section entry.
Variable atmega103 : bool.

(** The registers a C function may change, in the order they are pushed. *)
Definition scratch_regs : list nat := [18; 19; 20; 21; 22; 23; 24; 25; 26; 27; 30; 31]%nat.

(** [_uart_recv_()], [_uart_data_()], [_timer0_overflow_()]: the code around the call. *)
Definition isr_entry : list insn :=
  [push 0; push 1; in_sreg 0; push 0] ++ (if atmega103 then [in_rampz 0; push 0] else []) ++ (push <$> scratch_regs).

Definition startup_continue : list insn :=
  (pop <$> reverse scratch_regs) ++ (if atmega103 then [pop 0; out_rampz 0] else []) ++ [pop 0; out_sreg 0; pop 1; pop 0; reti].

(** The processor pushes the address and disables interrupts. *)
Definition interrupt (s : cpu) : cpu := let s := call (pc s) s in s <| sreg := Z.land (sreg s) (Z.lnot SREG_I) |>.

Definition run_isr (f : cpu -> cpu) (s : cpu) : cpu := execs startup_continue (f (execs isr_entry (interrupt s))).

End entry.
End AvrTrap.

Module AvrTrapFacts.
Import AvrSwitch AvrSwitchFacts AvrTrap.

Section entry.
Variable atmega103 : bool.

(** A C function of the AVR. *)
Definition c_function (f : cpu -> cpu) : Prop := forall s,
  (forall i, i <> 0%nat -> i <> 1%nat -> i ∉ scratch_regs -> rf (f s) i = rf s i) /\ sp (f s) = sp s
  /\ forall a, sp s < a <= sp s + 18 -> load8 (sram (f s)) a = load8 (sram s) a.

Definition reg_values (s : cpu) : Prop :=
  (forall i, 0 <= rf s i < 2 ^ 8) /\ 0 <= sreg s < 2 ^ 8 /\ 0 <= rampz s < 2 ^ 8 /\ 0 <= pc s < 2 ^ 16 /\ 18 <= sp s < 2 ^ 16.

Lemma scratch_nodup : NoDup scratch_regs.
Proof. by apply (bool_decide_unpack _); vm_compute. Qed.

(** What is pushed up to the call. *)
Definition isr_bytes (s : cpu) : list Z :=
  [pc s; pc s / 2 ^ 8; rf s 0; rf s 1; Z.land (sreg s) (Z.lnot SREG_I)]
  ++ (if atmega103 then [rampz s] else []) ++ (rf s <$> scratch_regs).

Lemma isr_bytes_length s : Z.of_nat (length (isr_bytes s)) = if atmega103 then 18 else 17.
Proof. unfold isr_bytes. by destruct atmega103. Qed.

Definition stack_of (s : cpu) : Z * mem := (sp s, sram s).

Lemma push_bytes_stack vs : forall s s', stack_of s = stack_of s' -> stack_of (push_bytes vs s) = stack_of (push_bytes vs s').
Proof.
  induction vs as [|v vs IH]; intros s s' E; [done|]. apply (IH (push_byte v s) (push_byte v s')).
  injection E as E1 E2. unfold stack_of. cbn. by rewrite E1, E2.
Qed.

(** The code in front of the scratch registers. *)
Definition isr_head : list insn := [push 0; push 1; in_sreg 0; push 0] ++ (if atmega103 then [in_rampz 0; push 0] else []).

Lemma isr_head_pushes s : let t := execs isr_head (interrupt s) in
  stack_of t = stack_of (push_bytes ([pc s; pc s / 2 ^ 8; rf s 0; rf s 1; Z.land (sreg s) (Z.lnot SREG_I)]
    ++ (if atmega103 then [rampz s] else [])) s)
  /\ forall i, i <> 0%nat -> rf t i = rf s i.
Proof.
  unfold isr_head. destruct atmega103; (split; [reflexivity|]); intros i Hi; cbn; by repeat (rewrite decide_False by done).
Qed.

Lemma isr_entry_pushes s : let t := execs (isr_entry atmega103) (interrupt s) in
  stack_of t = stack_of (push_bytes (isr_bytes s) s) /\ forall i, i <> 0%nat -> rf t i = rf s i.
Proof.
  unfold isr_bytes, isr_entry. rewrite !app_assoc, execs_app. fold isr_head. destruct (isr_head_pushes s) as [E Hr].
  set (t := execs isr_head (interrupt s)) in *. clearbody t. rewrite push_regs. cbn zeta. split.
  - unfold push_bytes at 2. rewrite foldl_app. fold (push_bytes (rf s <$> scratch_regs)).
    assert (Er : rf t <$> scratch_regs = rf s <$> scratch_regs).
    { apply list_fmap_ext. intros i x Hx%list_elem_of_lookup_2. apply Hr. intros ->. unfold scratch_regs in Hx. set_solver. }
    rewrite Er. by apply push_bytes_stack.
  - intros i Hi. rewrite <- Hr by done. assert (H : forall vs u, rf (push_bytes vs u) = rf u) by
      (induction vs as [|v vs IH]; intros u; [done|exact (IH (push_byte v u))]). by rewrite H.
Qed.

Lemma bytes_down_lookup m a n i x : bytes_down m a n !! i = Some x -> load8 m (a - Z.of_nat i) = x.
Proof.
  unfold bytes_down. rewrite list_lookup_fmap. intros (z & Hz & ->)%fmap_Some. by apply lookup_seqZ in Hz as [-> _].
Qed.

(** The status register comes back without the interrupt flag, which [reti] sets. *)
Lemma sreg_again v : 0 <= v < 2 ^ 8 -> Z.land v SREG_I = SREG_I -> Z.lor (u8 (Z.land v (Z.lnot SREG_I))) SREG_I = v.
Proof.
  intros Hv HI.
  assert (E : forallb (fun v => negb (Z.land v SREG_I =? SREG_I) || (Z.lor (u8 (Z.land v (Z.lnot SREG_I))) SREG_I =? v)) (seqZ 0 256) = true)
    by (vm_compute; reflexivity).
  pose proof (proj1 (forallb_forall _ _) E v) as Hb. cbn beta in Hb.
  rewrite (proj2 (Z.eqb_eq _ _) HI) in Hb. apply Z.eqb_eq, Hb, list_elem_of_In, elem_of_seqZ. lia.
Qed.

(** The scratch registers on that stack. *)
Lemma isr_scratch_bytes s u : (forall i, 0 <= rf s i < 2 ^ 8) ->
  (forall i x, isr_bytes s !! i = Some x -> load8 (sram u) (sp s - Z.of_nat i) = u8 x) ->
  bytes_down (sram u) (sp s - (if atmega103 then 6 else 5)) (length scratch_regs) = rf s <$> scratch_regs.
Proof.
  intros Hrf Hb. apply list_eq_same_length with 12%nat; [done|unfold bytes_down; by rewrite length_fmap, length_seqZ|].
  intros i x y Hi Hx Hy. apply bytes_down_lookup in Hx. subst x.
  rewrite list_lookup_fmap in Hy. apply fmap_Some in Hy as (r & Hr & ->). rewrite <- (u8_small (rf s r)) by done.
  assert (Hl : isr_bytes s !! (i + if atmega103 then 6 else 5)%nat = Some (rf s r)).
  { unfold isr_bytes. destruct atmega103; rewrite (Nat.add_comm i); change ((rf s <$> scratch_regs) !! i = Some (rf s r));
      by rewrite list_lookup_fmap, Hr. }
  rewrite <- (Hb _ _ Hl). f_equal. destruct atmega103; lia.
Qed.

(** The interrupted program finds everything as it was. *)
Definition resumes (s t : cpu) : Prop :=
  (forall i, rf t i = rf s i) /\ sp t = sp s /\ pc t = pc s /\ sreg t = sreg s /\ (atmega103 = true -> rampz t = rampz s).

(** A stack as the entry code left it. *)
Definition isr_stack (s u : cpu) : Prop := forall i x, isr_bytes s !! i = Some x -> load8 (sram u) (sp s - Z.of_nat i) = u8 x.

(** The scratch registers are popped first. *)
Lemma scratch_pops s u : reg_values s -> isr_stack s u ->
  sp u = sp s - (if atmega103 then 18 else 17) ->
  (forall i, i <> 0%nat -> i <> 1%nat -> i ∉ scratch_regs -> rf u i = rf s i) ->
  let v := execs (pop <$> reverse scratch_regs) u in
  sp v = sp s - (if atmega103 then 6 else 5) /\ isr_stack s v /\ forall i, i <> 0%nat -> i <> 1%nat -> rf v i = rf s i.
Proof.
  intros (Hrf & _ & _ & _ & Hsp) Hb Eu Hk v.
  destruct (pops scratch_regs (sram u) (sp s - (if atmega103 then 6 else 5)) u scratch_nodup eq_refl) as (E1 & E2 & E3 & E4);
    [cbn [length scratch_regs]; destruct atmega103; lia..|].
  rewrite (isr_scratch_bytes s u Hrf Hb) in E1. fold v in E1, E2, E3, E4. clearbody v.
  split; [done|]. split; [intros i x Hx; rewrite E3; by apply Hb|].
  intros i H0 H1. destruct (decide (i ∈ scratch_regs)) as [Hi|Hi]; [|by rewrite E4, Hk].
  apply list_elem_of_lookup_1 in Hi as [j Hj]. pose proof (f_equal (fun l => l !! j) E1) as El. cbn beta in El.
  rewrite !list_lookup_fmap, Hj in El. by injection El.
Qed.

(** Then what the code in front of them pushed. *)
Definition isr_tail : list insn := (if atmega103 then [pop 0; out_rampz 0] else []) ++ [pop 0; out_sreg 0; pop 1; pop 0; reti].

Lemma isr_tail_pops s v : reg_values s -> Z.land (sreg s) SREG_I = SREG_I -> isr_stack s v ->
  sp v = sp s - (if atmega103 then 6 else 5) -> (forall i, i <> 0%nat -> i <> 1%nat -> rf v i = rf s i) ->
  resumes s (execs isr_tail v).
Proof.
  intros (Hrf & Hsr & Hrz & Hpc & Hsp) HI Hb E2 Hv. unfold resumes, isr_tail.
  assert (Hb' : forall i a x, isr_bytes s !! i = Some x -> a = sp s - Z.of_nat i -> load8 (sram v) a = u8 x) by (intros i a x Hx ->; auto).
  assert (Epc := byte_pair (pc s) Hpc). assert (Es := sreg_again (sreg s) Hsr HI).
  assert (B5 : if atmega103 then load8 (sram v) (sp s - 6 + 1) = rampz s else True).
  { pose proof (Hb' 5%nat (sp s - 6 + 1) (rampz s)) as B. unfold isr_bytes in B. destruct atmega103; [|done].
    rewrite B by (done || lia). by apply u8_small. }
  destruct atmega103; cbn [execs app foldl exec pop_byte return_ set_reg rf sp pc sreg rampz sram setter];
    rewrite E2; no_wrap16;
    repeat match goal with |- context [load8 (sram v) ?e] =>
      first [rewrite (Hb' 0%nat e _ eq_refl) by lia | rewrite (Hb' 1%nat e _ eq_refl) by lia
            |rewrite (Hb' 2%nat e _ eq_refl) by lia | rewrite (Hb' 3%nat e _ eq_refl) by lia
            |rewrite (Hb' 4%nat e _ eq_refl) by lia] end;
    (split_and!; [intros i|lia|exact Epc|by rewrite !decide_True by done
      |first [done|intros _; by rewrite !decide_True by done]]).
  all: destruct (decide (i = 0%nat)) as [->|H0]; [by apply u8_small|];
    destruct (decide (i = 1%nat)) as [->|H1]; [by apply u8_small|]; by apply Hv.
Qed.

Lemma run_isr_resumes f s : reg_values s -> Z.land (sreg s) SREG_I = SREG_I -> c_function f ->
  resumes s (run_isr atmega103 f s).
Proof.
  intros Hv HI Hf. unfold run_isr. destruct (isr_entry_pushes s) as [E Hr].
  set (u := execs (isr_entry atmega103) (interrupt s)) in *. clearbody u.
  pose proof (f_equal fst E) as Esp. pose proof (f_equal snd E) as Em. cbn [stack_of fst snd] in Esp, Em.
  pose proof (isr_bytes_length s) as Hl.
  destruct (push_bytes_spec (isr_bytes s) s) as (_ & P2 & P3 & _);
    [destruct Hv as (_ & _ & _ & _ & ?); destruct atmega103; lia|].
  destruct (Hf u) as (F1 & F2 & F3).
  assert (Eu : sp u = sp s - Z.of_nat (length (isr_bytes s))) by (rewrite <- P2; exact Esp).
  assert (Hlen : Z.of_nat (length (isr_bytes s)) <= 18) by (rewrite Hl; destruct atmega103; lia).
  unfold startup_continue. rewrite execs_app. fold isr_tail.
  destruct (scratch_pops s (f u)) as (V1 & V2 & V3); [done| |by rewrite <- Hl, F2| |by apply isr_tail_pops].
  - intros i x Hx. pose proof (lookup_lt_Some _ _ _ Hx) as Hi.
    rewrite F3, Em by lia. apply (bytes_down_lookup _ _ (length (isr_bytes s))).
    rewrite P3, list_lookup_fmap. by rewrite Hx.
  - intros i H0 H1 Hs. rewrite F1 by done. by apply Hr.
Qed.


End entry.

Definition some_handler (s : cpu) : cpu := set_reg 24 77 (set_reg 0 78 s) <| rampz := 1 |>.
Definition interrupted : cpu := Avr_ (fun i => Z.of_nat i mod 32) 0x300 0x1234 0x82 3 ∅.

End AvrTrapFacts.

Module TrapFacts.
Import I386SwitchFacts Trap.

(** ** Bit fields *)

Lemma get_put_same lo n v w : 0 <= lo -> 0 <= n -> get_field lo n (put_field lo n v w) = Z.land v (Z.ones n).
Proof.
  intros Hlo Hn. unfold get_field, put_field. apply Z.bits_inj'. intros i Hi.
  rewrite !Z.land_spec, Z.shiftr_spec, Z.lor_spec, Z.land_spec, Z.lnot_spec, !Z.shiftl_spec, Z.land_spec by lia.
  replace (i + lo - lo) with i by lia. destruct (Z.testbit (Z.ones n) i); cbn; [|by rewrite !andb_false_r].
  by rewrite andb_false_r, !andb_true_r.
Qed.

Lemma get_put_other lo n lo' n' v w : 0 <= lo -> 0 <= n -> 0 <= lo' -> 0 <= n' -> lo' + n' <= lo \/ lo + n <= lo' ->
  get_field lo' n' (put_field lo n v w) = get_field lo' n' w.
Proof.
  intros Hlo Hn Hlo' Hn' Hd. unfold get_field, put_field. apply Z.bits_inj'. intros i Hi.
  rewrite !Z.land_spec, !Z.shiftr_spec, Z.lor_spec, Z.land_spec, Z.lnot_spec, !Z.shiftl_spec, Z.land_spec by lia.
  destruct (decide (i < n')) as [Hin|Hin]; [|by rewrite (Z.ones_spec_high n') by lia; rewrite !andb_false_r].
  assert (E : Z.testbit (Z.ones n) (i + lo' - lo) = false).
  { destruct Hd; [by apply Z.testbit_neg_r; lia|apply Z.ones_spec_high; lia]. }
  by rewrite E, andb_false_r, orb_false_r, andb_true_r.
Qed.

Lemma bits_below n x : 0 <= n -> (forall i, n <= i -> Z.testbit x i = false) -> 0 <= x < 2 ^ n.
Proof.
  intros Hn Hb. assert (E : x mod 2 ^ n = x).
  { apply Z.bits_inj'. intros i Hi. destruct (decide (i < n)); [by apply Z.mod_pow2_bits_low|].
    rewrite Z.mod_pow2_bits_high by lia. symmetry. apply Hb. lia. }
  rewrite <- E. apply Z.mod_pos_bound. lia.
Qed.

Lemma put_field_range lo n v w : 0 <= lo -> 0 <= n -> lo + n <= 32 -> 0 <= w < 2 ^ 32 -> 0 <= put_field lo n v w < 2 ^ 32.
Proof.
  intros Hlo Hn Hs Hw. apply bits_below; [lia|]. intros i Hi. unfold put_field.
  rewrite Z.lor_spec, Z.land_spec, Z.shiftl_spec, Z.land_spec, (Z.ones_spec_high n (i - lo)), andb_false_r, orb_false_r by lia.
  replace w with (w mod 2 ^ 32) by (by apply Z.mod_small). by rewrite Z.mod_pow2_bits_high by lia.
Qed.

Lemma load32_assign_at a lo n v m : 0 <= lo -> 0 <= n -> lo + n <= 32 -> load32 (assign a lo n v m) a = put_field lo n v (load32 m a).
Proof. intros. apply load32_store32. apply put_field_range; [lia..|]. apply load32_range. Qed.

Lemma load32_assign_ne a lo n v m b : b + 4 <= a \/ a + 4 <= b -> load32 (assign a lo n v m) b = load32 m b.
Proof. apply load32_store32_ne. Qed.

(** ** Gates *)

(** What the processor reads from a gate: where it goes, the selector, the number of
    stack words, the type, the privilege level and the present bit. *)
Definition gate_is (m : mem) (g f gtype : Z) : Prop :=
  let w0 := load32 m g in
  let w1 := load32 m (g + 4) in
  get_field 0 16 w0 + 2 ^ 16 * get_field 16 16 w1 = f /\ get_field 16 16 w0 = 0x10 /\ get_field 0 5 w1 = 0
  /\ get_field 8 5 w1 = gtype /\ get_field 13 2 w1 = 0 /\ get_field 15 1 w1 = 1.

Lemma halves f : 0 <= f < 2 ^ 32 -> Z.land (Z.land f 65535) (Z.ones 16) + 2 ^ 16 * Z.land (Z.land (Z.shiftr f 16) 65535) (Z.ones 16) = f.
Proof.
  intros Hf. change 65535 with (Z.ones 16). rewrite <- !Z.land_assoc, !Z.land_diag, !Z.land_ones, Z.shiftr_div_pow2 by lia.
  rewrite (Z.mod_small (f / 2 ^ 16)); Z.div_mod_to_equations; lia.
Qed.

Lemma idt_entry_gate g f gtype m : 0 <= f < 2 ^ 32 -> 0 <= gtype < 32 -> gate_is (idt_entry g f gtype m) g f gtype.
Proof.
  intros Hf Ht. unfold gate_is, idt_entry, set_g_off0, set_g_off1, set_g_sel, set_g_stkwds, set_g_type, set_g_dpl, set_g_present.
  repeat first [rewrite load32_assign_at by lia | rewrite load32_assign_ne by lia].
  repeat first [rewrite get_put_same by lia | rewrite get_put_other by lia].
  split_and!; [by apply halves|done..| |done|done]. rewrite Z.land_ones by lia. by apply Z.mod_small.
Qed.

Lemma idt_entry_other g f gtype m a : a < g \/ g + 8 <= a -> load8 (idt_entry g f gtype m) a = load8 m a.
Proof.
  intros Ha. unfold idt_entry, set_g_off0, set_g_off1, set_g_sel, set_g_stkwds, set_g_type, set_g_dpl, set_g_present, assign.
  by rewrite !load8_store32_ne by lia.
Qed.

Lemma gate_is_ext m m' g f t : (forall a, g <= a < g + 8 -> load8 m' a = load8 m a) -> gate_is m g f t -> gate_is m' g f t.
Proof.
  intros E. unfold gate_is. rewrite !(load32_ext m' m) by (intros; apply E; lia). done.
Qed.

(** ** The table *)

(** Gates written one after the other: slot, handler and type. *)
Definition write_gate (addr : handler -> Z) (idt : Z) (m : mem) (e : Z * handler * Z) : mem :=
  idt_entry (idt + gate_size * e.1.1) (addr e.1.2) e.2 m.

(** The last one written to a slot. *)
Definition last_gate (n : Z) (es : list (Z * handler * Z)) : option (Z * handler * Z) :=
  foldl (fun acc e => if e.1.1 =? n then Some e else acc) None es.

Lemma gates_written addr idt n es m e :
  (forall h, 0 <= addr h < 2 ^ 32) -> Forall (fun e => 0 <= e.2 < 32) es -> last_gate n es = Some e ->
  gate_is (foldl (write_gate addr idt) m es) (idt + gate_size * n) (addr e.1.2) e.2.
Proof.
  intros Ha. induction es as [|e' es IH] using rev_ind; [done|].
  unfold last_gate. rewrite !foldl_app. cbn. fold (last_gate n es). intros [Ht [Ht' _]%Forall_cons]%Forall_app.
  unfold write_gate at 1. destruct (Z.eqb_spec e'.1.1 n) as [<-|Hne].
  - intros [= <-]. by apply idt_entry_gate.
  - intros Hl. apply (gate_is_ext (foldl (write_gate addr idt) m es)); [|by apply IH].
    intros a Hr. apply idt_entry_other. unfold gate_size in *. lia.
Qed.

(** All that [trap_init()] writes. *)
Definition info_gate (i : idt_info) : Z * handler * Z := (idt_slot i, default trap_unused (idt_fun i), idt_type i).
Definition gates : list (Z * handler * Z) :=
  ((fun i => (i, trap_unused, TYPE_INTR)) <$> seqZ 0 IDT_ENTRIES) ++ (info_gate <$> removelast idt_table).

Lemma foldl_fmap {A B C} (f : A -> B -> A) (g : C -> B) l : forall a, foldl f a (g <$> l) = foldl (fun a c => f a (g c)) a l.
Proof. induction l as [|x l IH]; intros a; [done|]. apply IH. Qed.

(** The loop over the table ends at the entry with slot 0xff. *)
Lemma idt_fill_gates addr idt z l : forall m, idt_slot z = 0xff -> l <> [] ->
  Forall (fun i => idt_slot i <> 0xff /\ idt_fun i <> None) l ->
  idt_fill addr idt (l ++ [z]) m = foldl (write_gate addr idt) m (info_gate <$> l).
Proof.
  induction l as [|i [|j l] IH]; intros m Hz Hl Hf; [done|..]; apply Forall_cons in Hf as [[Hi Hs] Hf]; cbn;
    destruct i as [si ti [fi|]]; try done; cbn in *.
  - by rewrite (proj2 (Z.eqb_eq _ _) Hz).
  - pose proof Hf as [[Hj _] _]%Forall_cons. rewrite (proj2 (Z.eqb_neq _ _) Hj). by apply IH.
Qed.

Lemma idt_table_gates addr idt m : idt_fill addr idt idt_table m = foldl (write_gate addr idt) m (info_gate <$> removelast idt_table).
Proof.
  apply (idt_fill_gates addr idt (Idt 0xff 0 None) (removelast idt_table)); [done..|].
  apply (bool_decide_unpack _). by vm_compute.
Qed.

Lemma trap_init_gates addr idt m : (trap_init addr idt m).1 = foldl (write_gate addr idt) m gates.
Proof.
  unfold trap_init, gates. rewrite foldl_app, (foldl_fmap _ (fun i => (i, trap_unused, TYPE_INTR))).
  cbn [fst]. rewrite <- idt_table_gates. done.
Qed.

(** The handler of a vector: the one whose entry pushes its number. *)
Definition handlers : list handler := [trap_unused; trap_divide_by_zero; trap_debug; trap_nmi; trap_breakpoint; trap_overflow; trap_bound;
  trap_invalid_opcode; trap_device_not_available; trap_double_fault; trap_coprocessor_overrun; trap_invalid_tss;
  trap_segment_not_present; trap_stack_fault; trap_general_protection; trap_page_fault; trap_floating_point_error;
  trap_alignment_check; trap_irq0; trap_irq1; trap_irq2; trap_irq3; trap_irq4; trap_irq5; trap_irq6; trap_irq7;
  trap_irq8; trap_irq9; trap_irq10; trap_irq11; trap_irq12; trap_irq13; trap_irq14; trap_irq15].
Definition vector (n : Z) : handler := default trap_unused (find (fun h => entry_number (entry_of h) =? n) handlers).

Lemma last_gate_vector n : 0 <= n < IDT_ENTRIES -> last_gate n gates = Some (n, vector n, TYPE_INTR).
Proof.
  assert (E : forallb (fun n => bool_decide (last_gate n gates = Some (n, vector n, TYPE_INTR))) (seqZ 0 IDT_ENTRIES) = true)
    by (vm_compute; reflexivity).
  intros Hn. eapply bool_decide_eq_true. apply (proj1 (forallb_forall _ _) E n).
  apply list_elem_of_In, elem_of_seqZ. unfold IDT_ENTRIES in *. lia.
Qed.

Lemma trap_init_gate addr idt m n : (forall h, 0 <= addr h < 2 ^ 32) -> 0 <= n < IDT_ENTRIES ->
  gate_is (trap_init addr idt m).1 (idt + gate_size * n) (addr (vector n)) TYPE_INTR.
Proof.
  intros Ha Hn. rewrite trap_init_gates.
  apply (gates_written addr idt n gates m (n, vector n, TYPE_INTR) Ha); [|by apply last_gate_vector].
  apply (bool_decide_unpack _). by vm_compute.
Qed.

(** ** The entry code *)

(** A C function called with its return address and the trap frame on the stack: it
    returns, keeps the registers a function keeps, and leaves the frame as it is. *)
Definition c_function (f : cpu -> cpu) : Prop := forall s,
  ebx (f s) = ebx s /\ ebp (f s) = ebp s /\ esi (f s) = esi s /\ edi (f s) = edi s
  /\ esp (f s) = esp s + 4 /\ forall a, esp s + 4 <= a < esp s + 36 -> load8 (ram (f s)) a = load8 (ram s) a.

(** All that the interrupted program sees of the processor. *)
Definition visible (s : cpu) :=
  (eax s, ecx s, edx s, ebx s, esp s, ebp s, esi s, edi s, (cf s, zf s, sf s, if_ s), eip s).

Definition reg_values (s : cpu) : Prop :=
  I386Switch.word (eax s) /\ I386Switch.word (ecx s) /\ I386Switch.word (edx s) /\ I386Switch.word (eip s) /\ 36 <= esp s < 2 ^ 32.

(** The frame the handler gets. *)
Definition frame_of (s : cpu) (n err : Z) (t : cpu) : Prop :=
  esp t = esp s - 36
  /\ tf t tf_edx = edx s /\ tf t tf_ecx = ecx s /\ tf t tf_eax = eax s /\ tf t tf_trapnum = n /\ tf t tf_errorcode = err
  /\ tf t tf_eip = eip s /\ tf t tf_cs = 0x10 /\ tf t tf_eflags = eflags s
  /\ ebx t = ebx s /\ ebp t = ebp s /\ esi t = esi s /\ edi t = edi s /\ if_ t = false.

(** Does the entry code go with what the processor pushes? *)
Definition entry_fits (e : entry) (err : option Z) : bool :=
  match e, err with IDT_ERROR _, Some _ => true | IDT_DUMMY _, None | IRQ_VECTOR _, None => true | _, _ => false end.

#[local] Hint Unfold tf_edx tf_ecx tf_eax tf_trapnum tf_errorcode tf_eip tf_cs tf_eflags I386Switch.word : layout.

Lemma eflags_range s : 0 <= eflags s < 2 ^ 32.
Proof. unfold eflags, F_IF. destruct (cf s), (zf s), (sf s), (if_ s); cbn; lia. Qed.

(** The words on the stack at the call, from the top down. *)
Lemma enter_ram e r err s : reg_values s -> entry_fits e err = true ->
  let t := enter e r (deliver err s) in
  let put m o v := store32 m (esp s - o) v in
  esp t = esp s - 36
  /\ ram t = put (put (put (put (put (put (put (put (put (ram s) 4 (eflags s)) 8 0x10) 12 (eip s)) 16 (default 0 err))
       20 (entry_number e)) 24 (eax s)) 28 (ecx s)) 32 (edx s)) 36 r
  /\ ebx t = ebx s /\ ebp t = ebp s /\ esi t = esi s /\ edi t = edi s /\ if_ t = false.
Proof.
  intros (_ & _ & _ & _ & Hsp) Hf. unfold deliver. generalize (eflags s) as fl. intros fl.
  destruct e, err; try done; destruct s as [pc0 ax cx dx bx sp bp si di cf0 zf0 sf0 ip i m]; unfold enter, execs; cbn [entry_code entry_number foldl default esp] in *; x86;
    no_wrap; split_and!; try done; try lia; repeat (f_equal; try lia).
Qed.

Lemma enter_frame e r err s :
  reg_values s -> 0 <= entry_number e < 2 ^ 32 -> 0 <= default 0 err < 2 ^ 32 -> entry_fits e err = true ->
  frame_of s (entry_number e) (default 0 err) (enter e r (deliver err s)).
Proof.
  intros Hv Hn He Hf. destruct (enter_ram e r err s Hv Hf) as (Esp & Em & Hrest). pose proof (eflags_range s).
  destruct Hv as (? & ? & ? & ? & ?). unfold frame_of, tf. layout. rewrite Esp, Em. split_and!; try apply Hrest; words; lia.
Qed.

Lemma eflags_bits s : let fl := eflags s in
  Z.testbit fl 0 = cf s /\ Z.testbit fl 6 = zf s /\ Z.testbit fl 7 = sf s /\ negb (Z.land fl F_IF =? 0) = if_ s.
Proof. unfold eflags. destruct (cf s), (zf s), (sf s), (if_ s); by vm_compute. Qed.

(** From a frame as the handler got it the exit code gives everything back. *)
Lemma exit_visible s t : reg_values s ->
  esp t = esp s - 32 -> ebx t = ebx s -> ebp t = ebp s -> esi t = esi s -> edi t = edi s ->
  load32 (ram t) (esp s - 32) = edx s -> load32 (ram t) (esp s - 28) = ecx s -> load32 (ram t) (esp s - 24) = eax s ->
  load32 (ram t) (esp s - 12) = eip s -> load32 (ram t) (esp s - 4) = eflags s ->
  visible (execs exit_code t) = visible s.
Proof.
  intros (_ & _ & _ & _ & Hsp) Esp Ebx Ebp Esi Edi Hdx Hcx Hax Hip Hfl. destruct (eflags_bits s) as (Hc & Hz & Hs & Hi).
  rewrite <- Hfl in *. clear Hfl.
  destruct t as [pc0 ax cx dx bx sp bp si di cf0 zf0 sf0 ip i m]; unfold visible, exit_code, execs; cbn [foldl] in *; fields.
  x86. rewrite Esp in *. no_wrap.
  replace (esp s - 32 + 4 + 4 + 4 + 8 + 8) with (esp s - 4) by lia.
  replace (esp s - 32 + 4 + 4) with (esp s - 24) by lia. replace (esp s - 32 + 4) with (esp s - 28) by lia.
  replace (esp s - 24 + 4 + 8 + 12) with (esp s) by lia. replace (esp s - 24 + 4 + 8) with (esp s - 12) by lia.
  rewrite Hdx, Hcx, Hax, Hip, Hc, Hz, Hs, Hi, Ebx, Ebp, Esi, Edi. done.
Qed.

Lemma run_trap_visible e r f err s :
  reg_values s -> 0 <= entry_number e < 2 ^ 32 -> 0 <= default 0 err < 2 ^ 32 -> entry_fits e err = true -> c_function f ->
  visible (run_trap e r f (deliver err s)) = visible s.
Proof.
  intros Hv Hn He Hf Hc. destruct (enter_frame e r err s Hv Hn He Hf) as
    (Esp & Hdx & Hcx & Hax & _ & _ & Hip & _ & Hfl & Ebx & Ebp & Esi & Edi & _).
  unfold run_trap. set (u := enter e r (deliver err s)) in *. clearbody u.
  destruct (Hc u) as (Kbx & Kbp & Ksi & Kdi & Ksp & Km).
  assert (Kw : forall o v, 0 <= o <= 28 -> tf u o = v -> load32 (ram (f u)) (esp s - 32 + o) = v).
  { intros o v Ho <-. unfold tf. rewrite Esp in *. replace (esp s - 36 + 4 + o) with (esp s - 32 + o) by lia.
    apply load32_ext. intros b Hb. apply Km. lia. }
  layout. pose proof (Kw 0 _ ltac:(lia) Hdx) as W0. pose proof (Kw 4 _ ltac:(lia) Hcx) as W4. pose proof (Kw 8 _ ltac:(lia) Hax) as W8.
  pose proof (Kw 20 _ ltac:(lia) Hip) as W20. pose proof (Kw 28 _ ltac:(lia) Hfl) as W28.
  apply exit_visible; [done|lia|congruence..| | | | |]; [rewrite <- W0|rewrite <- W4|rewrite <- W8|rewrite <- W20|rewrite <- W28];
    f_equal; lia.
Qed.

(** Does vector [n] have the entry code that goes with it? *)
Definition errorcode_of (n e : Z) : option Z := if has_errorcode n then Some e else None.

Lemma vector_fits n e : 0 <= n < IDT_ENTRIES -> n <> 0x09 -> n <> 0x10 -> entry_fits (entry_of (vector n)) (errorcode_of n e) = true.
Proof.
  assert (E : forallb (fun n => (n =? 9) || (n =? 16) || entry_fits (entry_of (vector n)) (errorcode_of n 0)) (seqZ 0 IDT_ENTRIES) = true)
    by (vm_compute; reflexivity).
  intros Hn H9 H16. assert (Hin : In n (seqZ 0 IDT_ENTRIES)) by (apply list_elem_of_In, elem_of_seqZ; unfold IDT_ENTRIES in *; lia).
  pose proof (proj1 (forallb_forall _ _) E n Hin) as Hb. cbn beta in Hb.
  rewrite (proj2 (Z.eqb_neq _ _) H9), (proj2 (Z.eqb_neq _ _) H16), !orb_false_l in Hb. unfold errorcode_of in *.
  revert Hb. by destruct (entry_of (vector n)), (has_errorcode n).
Qed.

Lemma entry_number_range h : 0 <= entry_number (entry_of h) < 2 ^ 32.
Proof. destruct h; cbn; lia. Qed.

(** The entries of vectors 9 and 16 expect an error code the processor does not push:
    the frame the handler gets has the code selector where the address of the
    instruction belongs, and the address as the error code; [trap_stray()] prints the
    selector. *)
Theorem missing_errorcode_shifts_frame n r s : n = 0x09 \/ n = 0x10 -> reg_values s ->
  let t := enter (entry_of (vector n)) r (deliver None s) in
  errorcode_of n 0 = None /\ tf t tf_trapnum = n /\ tf t tf_errorcode = eip s
  /\ forall cr2, trap_stray cr2 t = [cr2; esp t + 4; n; 0x10].
Proof.
  intros Hn (_ & _ & _ & Hip & Hsp). split; [by destruct Hn as [-> | ->]|].
  assert (E : entry_of (vector n) = IDT_ERROR n) by (by destruct Hn as [-> | ->]). rewrite E. clear E. unfold deliver.
  generalize (eflags s) as fl. intros fl. unfold enter, execs, tf. layout. cbn [entry_code foldl].
  destruct s as [pc0 ax cx dx bx sp bp si di cf0 zf0 sf0 ip i m]. fields.
  unfold trap_stray, tf. layout. x86. no_wrap. split_and!; [words; lia..|]. intros cr2. do 3 f_equal; [words; lia|]. f_equal. words; lia.
Qed.

(** C28: after [trap_init()] every one of the 256 vectors of the i386 has a present
    interrupt gate to its own entry, or to [trap_unused]; and for every vector but 9 and 16
    the entry code hands the C handler the trap frame (registers, number and error code,
    address, flags), and once the handler returns the interrupted program goes on where it
    was, with every register, the flags, the interrupt flag and the stack pointer as they
    were.  On the AVR the code around an interrupt handler does the same for its
    thirty-two registers, the status register and RAMPZ. *)
Theorem traps_are_transparent addr idt m n r f s e mega g u :
  (forall h, 0 <= addr h < 2 ^ 32) -> 0 <= n < IDT_ENTRIES -> reg_values s -> 0 <= e < 2 ^ 32 -> c_function f ->
  AvrTrapFacts.reg_values u -> Z.land (AvrSwitch.sreg u) AvrSwitch.SREG_I = AvrSwitch.SREG_I -> AvrTrapFacts.c_function g ->
  let h := vector n in
  let err := errorcode_of n e in
  gate_is (trap_init addr idt m).1 (idt + gate_size * n) (addr h) TYPE_INTR
  /\ (n <> 0x09 -> n <> 0x10 ->
     frame_of s (entry_number (entry_of h)) (default 0 err) (enter (entry_of h) r (deliver err s))
     /\ visible (run_trap (entry_of h) r f (deliver err s)) = visible s)
  /\ AvrTrapFacts.resumes mega u (AvrTrap.run_isr mega g u).
Proof.
  intros Ha Hn Hv He Hf Hu HI Hg h err. split_and!; [by apply trap_init_gate| |by apply AvrTrapFacts.run_isr_resumes].
  intros H9 H16.
  assert (Hd : 0 <= default 0 err < 2 ^ 32) by (unfold err, errorcode_of; destruct (has_errorcode n); cbn; lia).
  pose proof (vector_fits n e Hn H9 H16). pose proof (entry_number_range h). split; [by apply enter_frame|by apply run_trap_visible].
Qed.

(** A handler that clobbers what a C function may. *)
Definition some_handler (s : cpu) : cpu := s <| eax := 99 |> <| ecx := 98 |> <| edx := 97 |> <| zf := true |> <| esp := esp s + 4 |>.
Definition interrupted : cpu := Cpu 0 1 2 3 4 0x8000 6 7 8 true false true 0x1234 true ∅.

Lemma traps_are_transparent_witness :
  visible (run_trap (entry_of trap_page_fault) 0x7000 some_handler (deliver (Some 5) interrupted)) = visible interrupted
  /\ AvrTrapFacts.resumes true AvrTrapFacts.interrupted (AvrTrap.run_isr true AvrTrapFacts.some_handler AvrTrapFacts.interrupted).
Proof.
  destruct (traps_are_transparent (fun _ => 0x5000) 0x9a000 ∅ 0x0e 0x7000 some_handler interrupted 5 true AvrTrapFacts.some_handler AvrTrapFacts.interrupted)
    as (_ & H & Havr); unfold IDT_ENTRIES; try lia.
  - unfold reg_values, I386Switch.word. cbn. lia.
  - intros s. split_and!; done.
  - unfold AvrTrapFacts.reg_values. cbn. split_and!; try lia. intros i. pose proof (Z.mod_pos_bound (Z.of_nat i) 32). lia.
  - done.
  - intros s. split_and!; [|done|done]. intros i H0 H1 Hi. cbn. rewrite !decide_False; [done|done|]. intros ->. apply Hi. set_solver.
  - split; [apply H; lia|exact Havr].
Defined.

End TrapFacts.
