(* ===== verification/Ethernet.v ===== *)
(** * Ethernet (src/lib/ethdev/ethdev.c, src/lib/ethernet/ethernet.c, include/ethdev.h,
      include/ethernet.h)

    The Ethernet layer puts a frame header in front of outgoing packets and passes
    received frames to the client registered for their type field.  Frames are in
    memory; the fields of the instances, clients and servers are records with the
    addresses of their membufs.  The driver below ([eds_send], [edi_client_attach])
    and the receive functions of the clients are parameters. *)

From stdpp Require Import base list gmap fin_maps strings.
From Stdlib Require Import ZArith Lia.
From S2P Require Import Prelude Heap Membuf NetbufMem Ip Parts.
Open Scope Z_scope.

(** Offsets in [struct eth_phys_header]. *)
Module Eph.
Definition dest_mac : Z := 0.
Definition src_mac : Z := 6.
Definition type : Z := 12.
Definition sizeof : Z := 14.
End Eph.

(** ** The device (ethdev.c) *)

Record ethdev_client := Ethdev_client_ {
  edc_self : Z;
  edc_server : Z }.

Record ethdev_instance := Ethdev_instance_ {
  edi_self : Z;
  edi_lock : bool;
  edi_client : option ethdev_client;
  edi_mac : list Z }.
#[export] Instance eta_ethdev_instance : Eta ethdev_instance := fun i =>
  Ethdev_instance_ (edi_self i) (edi_lock i) (edi_client i) (edi_mac i).

Definition sizeof_ethdev_client : Z := 12.

Section ethdev.
Context {X : Type} `{Part X ethdev_instance}.

Definition lock_edi : W X unit := lock_part edi_lock (fun l i => i <| edi_lock := l |>).
Definition unlock_edi : W X unit := unlock_part edi_lock (fun l i => i <| edi_lock := l |>).

(** The function returns a pointer to the address; the callers copy it at once. *)
Definition ethdev_get_mac : W X (list Z) := get_part edi_mac.

Definition ethdev_client_alloc : W X ethdev_client :=
  edc ← mem_ (membuf_alloc sizeof_ethdev_client 0);
  mret (Ethdev_client_ edc 0).

Definition ethdev_client_detach (eds : Z) : W X unit :=
  lock_edi;;
  c ← get_part edi_client;
  match c with
  | None => fun _ => Stop "NULL edi_client"
  | Some edc =>
    if edc_server edc =? eds then
      deref_ eds;;
      self ← get_part edi_self;
      deref_ self;;
      deref_ (edc_self edc);;
      mod_part (fun i : ethdev_instance => i <| edi_client := None |>)
    else mret tt
  end;;
  unlock_edi.
End ethdev.

(** ** Frames (ethernet.c) *)

Record ethernet_server := Ethernet_server_ {
  es_self : Z;
  es_type : Z }.

Record ethernet_client := Ethernet_client_ {
  ec_self : Z;
  ec_server : Z;
  ec_type : Z }.
#[export] Instance eta_ethernet_client : Eta ethernet_client := fun c =>
  Ethernet_client_ (ec_self c) (ec_server c) (ec_type c).

Record ethernet_instance := Ethernet_instance_ {
  ei_self : Z;
  ei_lock : bool;
  ei_client_list : list ethernet_client;
  ei_server : Z }.
#[export] Instance eta_ethernet_instance : Eta ethernet_instance := fun i =>
  Ethernet_instance_ (ei_self i) (ei_lock i) (ei_client_list i) (ei_server i).

Definition sizeof_ethernet_server : Z := 16.
Definition sizeof_ethernet_client : Z := 20.
Definition sizeof_ethernet_instance : Z := 28.

(** [while (ec && (ec->ec_type != type)) ec = ec->ec_next;] *)
Fixpoint find_type (type : Z) (l : list ethernet_client) : option ethernet_client :=
  match l with
  | [] => None
  | ec :: l => if negb (ec_type ec =? type) then find_type type l else Some ec
  end.

(** The walk to the client of server [es], and the list without it. *)
Fixpoint unlink_ethernet_client (es : Z) (l : list ethernet_client) :
    option (ethernet_client * list ethernet_client) :=
  match l with
  | [] => None
  | ec :: l =>
    if ec_server ec =? es then Some (ec, l)
    else '(c, l) ← unlink_ethernet_client es l; Some (c, ec :: l)
  end.

Section ethernet.
Context {X : Type} `{Part X ethdev_instance} `{Part X ethernet_instance}.
Context (eds_send : Z -> W X unit).

Definition lock_ei : W X unit := lock_part ei_lock (fun l i => i <| ei_lock := l |>).
Definition unlock_ei : W X unit := unlock_part ei_lock (fun l i => i <| ei_lock := l |>).

Definition ethernet_recv_netbuf (ec_recv : ethernet_client -> Z -> W X unit) (nb : Z) : W X unit :=
  eph ← mem_ (rd32 (nb + Nb.datalink));
  lock_ei;;
  l ← get_part ei_client_list;
  type ← mem_ (rd16 (eph + Eph.type));
  match find_type (hton16 type) l with
  | Some ec =>
    mem_ (wr32 (nb + Nb.network) (eph + Eph.sizeof));;
    dsz ← mem_ (rd32 (nb + Nb.datalink_size));
    mem_ (wr32 (nb + Nb.network_size) (u32 (dsz - Eph.sizeof)));;
    mem_ (wr32 (nb + Nb.datalink_size) Eph.sizeof);;
    mem_ (membuf_ref (ec_self ec));;
    unlock_ei;;
    ec_recv ec nb;;
    deref_ (ec_self ec)
  | None => unlock_ei
  end.

(** [dest_mac] reads the six bytes the pointer of the source points to. *)
Definition ethernet_send_netbuf (es : ethernet_server) (dest_mac : P (list Z)) (nb : Z) : W X unit :=
  lock_ei;;
  eds ← get_part ei_server;
  mem_ (membuf_ref eds);;
  unlock_ei;;
  m ← mem_ (membuf_alloc Eph.sizeof 0);
  mem_ (wr32 (nb + Nb.datalink_membuf) m);;
  d ← mem_ (rd32 (nb + Nb.datalink_membuf));
  mem_ (wr32 (nb + Nb.datalink) d);;
  mem_ (wr32 (nb + Nb.datalink_size) Eph.sizeof);;
  eph ← mem_ (rd32 (nb + Nb.datalink));
  mac ← ethdev_get_mac;
  mem_ (wr_bytes (eph + Eph.src_mac) mac);;
  dest ← mem_ dest_mac;
  mem_ (wr_bytes (eph + Eph.dest_mac) dest);;
  mem_ (wr16 (eph + Eph.type) (hton16 (es_type es)));;
  eds_send nb;;
  deref_ eds.

Definition ethernet_get_mac : W X (list Z) := ethdev_get_mac.

Definition ethernet_server_alloc : W X Z := mem_ (membuf_alloc sizeof_ethernet_server 0).

(** The type and the callback are filled in by the caller. *)
Definition ethernet_client_alloc (type : Z) : W X ethernet_client :=
  ec ← mem_ (membuf_alloc sizeof_ethernet_client 0);
  mret (Ethernet_client_ ec 0 type).

Definition ethernet_instance_ref : W X unit := self ← get_part ei_self; mem_ (membuf_ref self).
Definition ethernet_instance_deref : W X unit := self ← get_part ei_self; deref_ self.

(** [None] for [NULL]. *)
Definition ethernet_client_attach (ec : ethernet_client) : W X (option ethernet_server) :=
  lock_ei;;
  l ← get_part ei_client_list;
  match find_type (ec_type ec) l with
  | Some _ => unlock_ei;; mret None
  | None =>
    es ← ethernet_server_alloc;
    ethernet_instance_ref;;
    mod_part (fun i => i <| ei_client_list := (ec <| ec_server := es |>) :: ei_client_list i |>);;
    mem_ (membuf_ref (ec_self ec));;
    unlock_ei;;
    mret (Some (Ethernet_server_ es (ec_type ec)))
  end.

Definition ethernet_client_detach (es : Z) : W X unit :=
  lock_ei;;
  l ← get_part ei_client_list;
  match unlink_ethernet_client es l with
  | Some (ec, l) =>
    mod_part (fun i => i <| ei_client_list := l |>);;
    deref_ es;;
    ethernet_instance_deref;;
    deref_ (ec_self ec)
  | None => mret tt
  end;;
  unlock_ei.

(** [attach] is the [edi_client_attach] of the driver. *)
Definition ethernet_instance_alloc (attach : ethdev_client -> W X Z) : W X Z :=
  ei ← mem_ (membuf_alloc sizeof_ethernet_instance 0);
  mod_part (fun _ => Ethernet_instance_ ei false [] 0);;
  edc ← ethdev_client_alloc;
  ethernet_instance_ref;;
  eds ← attach edc;
  mod_part (fun i => i <| ei_server := eds |>);;
  deref_ (edc_self edc);;
  mret ei.
End ethernet.
