(* ===== verification/EthernetIp.v ===== *)
(** * IP over Ethernet: ARP and routes (src/lib/ethernet_ip/ethernet_ip.c,
      src/lib/ip_datalink/ip_datalink.c, include/ethernet_ip.h, include/ip_datalink.h)

    An outgoing packet goes to the next hop of the most specific route for its
    destination; the MAC address of the hop comes from a cache of eight slots that
    is filled by received ARP packets.  A hop without a slot is asked for with an
    ARP request and the packet is dropped. *)

From stdpp Require Import base list gmap fin_maps strings.
From Stdlib Require Import ZArith Lia Sorted.
From S2P Require Import Prelude Heap Membuf NetbufMem Ip Parts Ethernet.
Open Scope Z_scope.

(** Offsets in [struct arp_header] and, behind it, [struct ip_arp_header]. *)
Module Ah.
Definition hardware : Z := 0.
Definition protocol : Z := 2.
Definition haddr_len : Z := 4.
Definition paddr_len : Z := 5.
Definition operation : Z := 6.
Definition sizeof : Z := 8.
End Ah.

Module Iah.
Definition src_mac : Z := 0.
Definition src_ip : Z := 6.
Definition dest_mac : Z := 10.
Definition dest_ip : Z := 16.
Definition sizeof : Z := 20.
End Iah.

Record ip_arp_cache_slot := Slot_ {
  iacs_ip : Z;
  iacs_mac : list Z;
  iacs_age : Z }.

Definition ARP_CACHE_SLOTS : nat := 8.

(** [ir_network] and the union [ir_addr]. *)
Inductive route_addr := Net (irn_addr irn_netmask : Z) | Host (irh_addr : Z).

Record ip_route := Route_ {
  ir_self : Z;
  ir_addr : route_addr;
  ir_gateway : Z }.

Record ip_datalink_client := Ip_datalink_client_ {
  idc_self : Z;
  idc_addr : Z;
  idc_server : Z }.
#[export] Instance eta_ip_datalink_client : Eta ip_datalink_client := fun c =>
  Ip_datalink_client_ (idc_self c) (idc_addr c) (idc_server c).

(** [struct ethernet_ip_instance] with the [struct ip_datalink_instance] it starts
    with; the routes are linked through [ir_next]. *)
Record ethernet_ip_instance := Ethernet_ip_instance_ {
  eii_self : Z;
  idi_lock : bool;
  idi_mru : Z;
  idi_mtu : Z;
  idi_client : option ip_datalink_client;
  eii_arp_cache : list ip_arp_cache_slot;
  eii_ip_arp_age : Z;
  eii_route_info : list ip_route;
  eii_ip_server : option ethernet_server;
  eii_arp_server : option ethernet_server }.
#[export] Instance eta_ethernet_ip_instance : Eta ethernet_ip_instance := fun i =>
  Ethernet_ip_instance_ (eii_self i) (idi_lock i) (idi_mru i) (idi_mtu i) (idi_client i) (eii_arp_cache i)
    (eii_ip_arp_age i) (eii_route_info i) (eii_ip_server i) (eii_arp_server i).

Definition sizeof_ip_route : Z := 20.
Definition sizeof_ip_datalink_server : Z := 8.
Definition sizeof_ethernet_ip_instance : Z := 176.

(** The address of [__ethernet_ip_instance_free], as [mb_free] has it. *)
Definition EII_FREE : Z := 0x100010.

(** A field the source reads through a pointer that may be [NULL]. *)
Definition not_null {S A} (what : string) (o : option A) : ST S A :=
  match o with Some a => mret a | None => fun _ => Stop what end.

(** ** The ARP cache *)

(** The loop of [ip_arp_cache_add]: slot [i] of the ones left, the oldest so far. *)
Fixpoint oldest_slot (ip : Z) (l : list ip_arp_cache_slot) (i oldest : nat) (old_age : Z) : nat :=
  match l with
  | [] => oldest
  | s :: l =>
    if iacs_ip s =? ip then i
    else if iacs_age s <? old_age then oldest_slot ip l (S i) i (iacs_age s)
    else oldest_slot ip l (S i) oldest old_age
  end.

Definition cache_add (mac : list Z) (ip : Z) (i : ethernet_ip_instance) : ethernet_ip_instance :=
  let k := oldest_slot ip (eii_arp_cache i) 0 0 0xffffffff in
  i <| eii_arp_cache := <[k := Slot_ ip mac (eii_ip_arp_age i)]> (eii_arp_cache i) |>
    <| eii_ip_arp_age := u32 (eii_ip_arp_age i + 1) |>.

(** The loop of [ip_arp_cache_find]. *)
Fixpoint slot_of (ip : Z) (l : list ip_arp_cache_slot) : option nat :=
  match l with
  | [] => None
  | s :: l => if iacs_ip s =? ip then Some O else S <$> slot_of ip l
  end.

Definition cache_find (ip : Z) (i : ethernet_ip_instance) : option (list Z) * ethernet_ip_instance :=
  match slot_of ip (eii_arp_cache i) with
  | None => (None, i)
  | Some k =>
    (iacs_mac <$> eii_arp_cache i !! k,
     i <| eii_arp_cache := alter (fun s => Slot_ (iacs_ip s) (iacs_mac s) (eii_ip_arp_age i)) k (eii_arp_cache i) |>
       <| eii_ip_arp_age := u32 (eii_ip_arp_age i + 1) |>)
  end.

(** ** Routes *)

Definition is_host (r : ip_route) : bool := match ir_addr r with Host _ => true | Net _ _ => false end.

(** The two loops of [ip_route_add]: the entries skipped and the rest. *)
Fixpoint skip_hosts (l : list ip_route) : list ip_route * list ip_route :=
  match l with
  | [] => ([], [])
  | r :: l' => if is_host r then (fun p => (r :: p.1, p.2)) (skip_hosts l') else ([], l)
  end.

(** [irn_netmask] read from the union.  A host route has no such word; in a list
    built by [ip_route_add] none follows a network ([routes_ordered]). *)
Definition irn_netmask_of (r : ip_route) : Z :=
  match ir_addr r with Net _ netmask => netmask | Host _ => 0 end.

Fixpoint skip_wider (netmask : Z) (l : list ip_route) : list ip_route * list ip_route :=
  match l with
  | [] => ([], [])
  | r :: l' =>
    if irn_netmask_of r >? netmask then (fun p => (r :: p.1, p.2)) (skip_wider netmask l') else ([], l)
  end.

Definition insert_route (radd : ip_route) (l : list ip_route) : list ip_route :=
  match ir_addr radd with
  | Host _ => radd :: l
  | Net _ netmask =>
    let '(hosts, nets) := skip_hosts l in
    let '(wider, rest) := skip_wider netmask nets in
    hosts ++ wider ++ radd :: rest
  end.

Definition route_matches (ip : Z) (r : ip_route) : bool :=
  match ir_addr r with
  | Net addr netmask => Z.land ip netmask =? addr
  | Host addr => ip =? addr
  end.

Fixpoint find_route (ip : Z) (l : list ip_route) : option ip_route :=
  match l with
  | [] => None
  | r :: l => if route_matches ip r then Some r else find_route ip l
  end.

Section ethernet_ip.
Context {X : Type} `{Part X ethdev_instance} `{Part X ethernet_ip_instance}.
(** [es_send] of an Ethernet server: the destination address and the netbuf. *)
Context (es_send : ethernet_server -> P (list Z) -> Z -> W X unit).

Definition lock_idi : W X unit := lock_part idi_lock (fun l i => i <| idi_lock := l |>).
Definition unlock_idi : W X unit := unlock_part idi_lock (fun l i => i <| idi_lock := l |>).

Definition ip_arp_cache_add (mac : list Z) (ip : Z) : W X unit :=
  lock_idi;;
  mod_part (cache_add mac ip);;
  unlock_idi.

Definition ip_arp_cache_find (ip : Z) : W X (option (list Z)) :=
  lock_idi;;
  mac ← run_part (fun i => Ok (cache_find ip i));
  unlock_idi;;
  mret mac.

Definition local_addr : W X Z :=
  c ← get_part idi_client;
  idc ← not_null "NULL idi_client" c;
  mret (idc_addr idc).

(** [es = server; ethernet_server_ref(es)] under the lock. *)
Definition take_server (server : ethernet_ip_instance -> option ethernet_server) : W X ethernet_server :=
  lock_idi;;
  s ← get_part server;
  es ← not_null "NULL ethernet_server" s;
  mem_ (membuf_ref (es_self es));;
  unlock_idi;;
  mret es.

Definition ip_arp_recv_request (nb : Z) : W X unit :=
  rah ← mem_ (rd32 (nb + Nb.network));
  let rp := rah + Ah.sizeof in
  sah ← mem_ (membuf_alloc (Ah.sizeof + Iah.sizeof) 0);
  let sp := sah + Ah.sizeof in
  mem_ (memcpy (sp + Iah.dest_mac) (rp + Iah.src_mac) 6);;
  es ← take_server eii_arp_server;
  mac ← ethernet_get_mac;
  mem_ (wr_bytes (sp + Iah.src_mac) mac);;
  v ← mem_ (rd16 (rah + Ah.hardware)); mem_ (wr16 (sah + Ah.hardware) v);;
  v ← mem_ (rd16 (rah + Ah.protocol)); mem_ (wr16 (sah + Ah.protocol) v);;
  v ← mem_ (rd8 (rah + Ah.haddr_len)); mem_ (wr8 (sah + Ah.haddr_len) v);;
  v ← mem_ (rd8 (rah + Ah.paddr_len)); mem_ (wr8 (sah + Ah.paddr_len) v);;
  mem_ (wr16 (sah + Ah.operation) (hton16 2));;
  addr ← local_addr;
  mem_ (wr32 (sp + Iah.src_ip) (hton32 addr));;
  v ← mem_ (rd32 (rp + Iah.src_ip)); mem_ (wr32 (sp + Iah.dest_ip) (hton32 v));;
  nbrep ← mem_ netbuf_alloc;
  mem_ (wr32 (nbrep + Nb.network_membuf) sah);;
  mem_ (wr32 (nbrep + Nb.network) sah);;
  mem_ (wr32 (nbrep + Nb.network_size) (Ah.sizeof + Iah.sizeof));;
  es_send es (rd_bytes (sp + Iah.dest_mac) 6) nbrep;;
  deref_ nbrep;;
  deref_ (es_self es).

Definition ip_arp_recv_netbuf (nb : Z) : W X unit :=
  eph ← mem_ (rd32 (nb + Nb.datalink));
  ah ← mem_ (rd32 (nb + Nb.network));
  let iah := ah + Ah.sizeof in
  haddr_len ← mem_ (rd8 (ah + Ah.haddr_len));
  if negb (haddr_len =? 6) then mret tt
  else
    paddr_len ← mem_ (rd8 (ah + Ah.paddr_len));
    if negb (paddr_len =? 4) then mret tt
    else
      dest_ip ← mem_ (rd32 (iah + Iah.dest_ip));
      addr ← local_addr;
      if negb (hton32 dest_ip =? addr) then mret tt
      else
        src_ip ← mem_ (rd32 (iah + Iah.src_ip));
        mac ← mem_ (rd_bytes (eph + Eph.src_mac) 6);
        ip_arp_cache_add mac (hton32 src_ip);;
        op ← mem_ (rd16 (ah + Ah.operation));
        if hton16 op =? 1 then ip_arp_recv_request nb else mret tt.

Definition broadcast_mac : list Z := [0xff; 0xff; 0xff; 0xff; 0xff; 0xff].

Definition ip_arp_request (ip : Z) : W X unit :=
  ah ← mem_ (membuf_alloc (Ah.sizeof + Iah.sizeof) 0);
  mem_ (wr16 (ah + Ah.hardware) (hton16 1));;
  mem_ (wr16 (ah + Ah.protocol) (hton16 0x0800));;
  mem_ (wr8 (ah + Ah.haddr_len) 6);;
  mem_ (wr8 (ah + Ah.paddr_len) 4);;
  mem_ (wr16 (ah + Ah.operation) (hton16 1));;
  let iah := ah + Ah.sizeof in
  addr ← local_addr;
  mem_ (wr32 (iah + Iah.src_ip) (hton32 addr));;
  mem_ (wr32 (iah + Iah.dest_ip) (hton32 ip));;
  es ← take_server eii_arp_server;
  mac ← ethernet_get_mac;
  mem_ (wr_bytes (iah + Iah.src_mac) mac);;
  mem_ (wr_bytes (iah + Iah.dest_mac) broadcast_mac);;
  nb ← mem_ netbuf_alloc;
  mem_ (wr32 (nb + Nb.network_membuf) ah);;
  mem_ (wr32 (nb + Nb.network) ah);;
  mem_ (wr32 (nb + Nb.network_size) (Ah.sizeof + Iah.sizeof));;
  es_send es (mret broadcast_mac) nb;;
  deref_ nb;;
  deref_ (es_self es).

Definition ip_route_add (radd : ip_route) : W X unit :=
  lock_idi;;
  mod_part (fun i => i <| eii_route_info := insert_route radd (eii_route_info i) |>);;
  unlock_idi.

Definition ip_route_find (ip : Z) : W X (option ip_route) :=
  lock_idi;;
  l ← get_part eii_route_info;
  unlock_idi;;
  mret (find_route ip l).

Definition ethernet_ip_recv_netbuf (idc_recv : ip_datalink_client -> Z -> W X unit) (nb : Z) : W X unit :=
  lock_idi;;
  c ← get_part idi_client;
  idc ← not_null "NULL idi_client" c;
  mem_ (membuf_ref (idc_self idc));;
  unlock_idi;;
  idc_recv idc nb;;
  deref_ (idc_self idc).

(** [if (rt->ir_gateway) addr = rt->ir_gateway; else addr = dest;] *)
Definition next_hop (rt : ip_route) (dest : Z) : Z :=
  if negb (ir_gateway rt =? 0) then ir_gateway rt else dest.

Definition ethernet_ip_send_netbuf (nb : Z) : W X unit :=
  iph ← mem_ (rd32 (nb + Nb.network));
  dest ← mem_ (rd32 (iph + Ih.dest_addr));
  rt ← ip_route_find (hton32 dest);
  match rt with
  | None => mret tt
  | Some rt =>
    let addr := next_hop rt (hton32 dest) in
    m ← ip_arp_cache_find addr;
    match m with
    | Some mac =>
      es ← take_server eii_ip_server;
      es_send es (mret mac) nb;;
      deref_ (es_self es)
    | None => ip_arp_request addr
    end
  end.

(** ** Clients *)

Definition ethernet_ip_server_alloc : W X Z := mem_ (membuf_alloc sizeof_ip_datalink_server 0).

(** [__ethernet_ip_instance_free]. *)
Fixpoint free_routes (l : list ip_route) : P unit :=
  match l with [] => mret tt | r :: l => heap_free_ (ir_self r);; free_routes l end.

Definition ip_datalink_instance_ref : W X unit := self ← get_part eii_self; mem_ (membuf_ref self).
Definition ip_datalink_instance_deref : W X unit :=
  self ← get_part eii_self;
  l ← get_part eii_route_info;
  _ ← mem_ (membuf_deref (fun f b => if f =? EII_FREE then free_routes l
                                     else fun _ => Stop "call of an unknown function") self);
  mret tt.

(** [None] for [NULL]. *)
Definition ethernet_ip_client_attach (idc : ip_datalink_client) : W X (option Z) :=
  lock_idi;;
  c ← get_part idi_client;
  match c with
  | Some _ => unlock_idi;; mret None
  | None =>
    ids ← ethernet_ip_server_alloc;
    ip_datalink_instance_ref;;
    mod_part (fun i => i <| idi_client := Some (idc <| idc_server := ids |>) |>);;
    mem_ (membuf_ref (idc_self idc));;
    unlock_idi;;
    mret (Some ids)
  end.

(** ip_datalink.c; the address and the callback are filled in by the caller. *)
Definition ip_datalink_client_alloc (addr : Z) : W X ip_datalink_client :=
  idc ← mem_ (membuf_alloc sizeof_ip_datalink_client 0);
  mret (Ip_datalink_client_ idc addr 0).

Definition ip_datalink_client_detach (ids : Z) : W X unit :=
  lock_idi;;
  c ← get_part idi_client;
  idc ← not_null "NULL idi_client" c;
  (if idc_server idc =? ids then
     deref_ ids;;
     ip_datalink_instance_deref;;
     deref_ (idc_self idc);;
     mod_part (fun i => i <| idi_client := None |>)
   else mret tt);;
  unlock_idi.

(** Allocation and insertion of one route of [ethernet_ip_instance_alloc]. *)
Definition add_default_route (addr netmask gateway : Z) : W X unit :=
  ir ← mem_ (heap_alloc_ sizeof_ip_route);
  ip_route_add (Route_ ir (Net addr netmask) gateway).

(** [attach] is the [ei_client_attach] of the Ethernet instance; [uninit] are the MAC
    addresses of the slots, which are not initialised. *)
Definition ethernet_ip_instance_alloc (attach : ethernet_client -> W X (option ethernet_server))
    (uninit : list (list Z)) : W X Z :=
  self ← mem_ (membuf_alloc sizeof_ethernet_ip_instance EII_FREE);
  mod_part (fun _ => Ethernet_ip_instance_ self false 1500 1500 None
                       ((fun mac => Slot_ 0 mac 0) <$> take ARP_CACHE_SLOTS uninit) 1 [] None None);;
  ipec ← ethernet_client_alloc 0x0800;
  ip_datalink_instance_ref;;
  s ← attach ipec;
  mod_part (fun i => i <| eii_ip_server := s |>);;
  deref_ (ec_self ipec);;
  arpec ← ethernet_client_alloc 0x0806;
  ip_datalink_instance_ref;;
  s ← attach arpec;
  mod_part (fun i => i <| eii_arp_server := s |>);;
  deref_ (ec_self arpec);;
  add_default_route 0xc0a80000 0xffffff00 0x00000000;;
  add_default_route 0x00000000 0x00000000 0xc0a80001;;
  mret self.
End ethernet_ip.

(** ** Routes: the first match is the most specific one *)

(** A host route is more specific than any network; among networks the one with the
    larger netmask is. *)
Definition specificity (r : ip_route) : Z :=
  match ir_addr r with Host _ => 2 ^ 32 | Net _ netmask => netmask end.

Definition netmask_ok (r : ip_route) : Prop := 0 <= irn_netmask_of r < 2 ^ 32.

Definition routes_ordered (l : list ip_route) : Prop := StronglySorted (fun a b => specificity b <= specificity a) l.

(** [r] is the route for [ip]: it matches, and no other match is more specific. *)
Definition most_specific (rs : list ip_route) (ip : Z) (r : ip_route) : Prop :=
  r ∈ rs /\ route_matches ip r = true /\
  forall r', r' ∈ rs -> route_matches ip r' = true -> specificity r' <= specificity r.

Lemma skip_hosts_spec l : forall hosts nets, skip_hosts l = (hosts, nets) ->
  l = hosts ++ nets /\ Forall (fun r => specificity r = 2 ^ 32) hosts
  /\ (forall r nets', nets = r :: nets' -> is_host r = false).
Proof.
  induction l as [|r l IH]; cbn; intros hosts nets E; simplify_eq; [by split_and!|].
  destruct (is_host r) eqn:Hr; simplify_eq; [|by split_and!; [|constructor|intros; simplify_eq]].
  destruct (skip_hosts l) as [hs ns] eqn:El. cbn. destruct (IH hs ns eq_refl) as (-> & Hh & Hn).
  split_and!; [done|constructor; [|done]|done]. unfold is_host in Hr. unfold specificity. by destruct (ir_addr r).
Qed.

Lemma skip_wider_spec netmask l : forall wider rest, skip_wider netmask l = (wider, rest) ->
  l = wider ++ rest /\ Forall (fun r => netmask < irn_netmask_of r) wider
  /\ (forall r rest', rest = r :: rest' -> irn_netmask_of r <= netmask).
Proof.
  induction l as [|r l IH]; cbn; intros wider rest E; simplify_eq; [by split_and!|].
  destruct (irn_netmask_of r >? netmask) eqn:Hr; simplify_eq.
  - destruct (skip_wider netmask l) as [ws rs] eqn:El. cbn. destruct (IH ws rs eq_refl) as (-> & Hw & Hn).
    split_and!; [done|constructor; [lia|done]|done].
  - split_and!; [done|constructor|intros; simplify_eq; lia].
Qed.

Lemma insert_route_perm r l : insert_route r l ≡ₚ r :: l.
Proof.
  unfold insert_route. destruct (ir_addr r); [|done].
  destruct (skip_hosts l) as [hs ns] eqn:Eh. destruct (skip_wider irn_netmask ns) as [ws rest] eqn:Ew.
  apply skip_hosts_spec in Eh as (-> & _). apply skip_wider_spec in Ew as (-> & _).
  rewrite !(assoc_L (++)). by rewrite Permutation_middle.
Qed.

Lemma sorted_app_inv {A} (R : A -> A -> Prop) l1 l2 :
  StronglySorted R (l1 ++ l2) -> StronglySorted R l2 /\ forall a b, a ∈ l1 -> b ∈ l2 -> R a b.
Proof.
  induction l1 as [|a l1 IH]; cbn; intros H; [split; [done|by intros ? ? ?%elem_of_nil]|].
  apply StronglySorted_inv in H as [H Ha]. destruct (IH H) as [H2 H12]. split; [done|].
  intros x y [->|Hx]%elem_of_cons Hy; [|by auto]. rewrite Forall_forall in Ha. apply Ha, elem_of_app. by right.
Qed.

Lemma routes_sorted_insert {A} (R : A -> A -> Prop) l1 x l2 :
  StronglySorted R (l1 ++ l2) -> (forall a, a ∈ l1 -> R a x) -> (forall b, b ∈ l2 -> R x b) ->
  StronglySorted R (l1 ++ x :: l2).
Proof.
  induction l1 as [|a l1 IH]; cbn; intros H H1 H2.
  - constructor; [done|]. by apply Forall_forall.
  - apply StronglySorted_inv in H as [H Ha]. constructor.
    + apply IH; [done|intros; apply H1; by right|done].
    + apply Forall_app in Ha as [Ha1 Ha2]. apply Forall_app. split; [done|]. constructor; [apply H1; by left|done].
Qed.

Lemma specificity_net r : is_host r = false -> specificity r = irn_netmask_of r.
Proof. unfold is_host, specificity, irn_netmask_of. by destruct (ir_addr r). Qed.

Lemma specificity_le r : netmask_ok r -> irn_netmask_of r <= specificity r <= 2 ^ 32.
Proof. unfold netmask_ok, specificity, irn_netmask_of. destruct (ir_addr r); lia. Qed.

Lemma insert_route_ordered r l :
  netmask_ok r -> Forall netmask_ok l -> routes_ordered l -> routes_ordered (insert_route r l).
Proof.
  intros Hr Hl Hs. unfold insert_route, routes_ordered in *. rewrite Forall_forall in Hl.
  destruct (ir_addr r) as [addr netmask|addr] eqn:Ea.
  - assert (Er : specificity r = netmask) by (unfold specificity; by rewrite Ea).
    destruct (skip_hosts l) as [hs ns] eqn:Eh. destruct (skip_wider netmask ns) as [ws rest] eqn:Ew.
    apply skip_hosts_spec in Eh as (-> & Hh & Hns). apply skip_wider_spec in Ew as (-> & Hw & Hrest).
    rewrite (assoc_L (++)). rewrite Forall_forall in Hh, Hw.
    assert (Hnr : netmask_ok r) by done. unfold netmask_ok, irn_netmask_of in Hnr. rewrite Ea in Hnr.
    apply routes_sorted_insert; [by rewrite <-(assoc_L (++))|..].
    + intros a [Ha|Ha]%elem_of_app; [rewrite (Hh a Ha); lia|]. apply Hw in Ha as Ha'.
      assert (Hle : netmask_ok a) by (apply Hl; set_solver). apply specificity_le in Hle. lia.
    + destruct rest as [|b0 rest]; [by intros b ?%elem_of_nil|].
      pose proof (Hrest b0 rest eq_refl) as Hb0.
      apply sorted_app_inv in Hs as [Hs _]. apply sorted_app_inv in Hs as [Hs Hwb].
      apply StronglySorted_inv in Hs as [Hs Hb]. rewrite Forall_forall in Hb.
      assert (Hsb : specificity b0 <= netmask).
      { destruct (is_host b0) eqn:Hb0h; [|by rewrite specificity_net]. exfalso.
        destruct ws as [|w ws]; [by rewrite (Hns b0 rest eq_refl) in Hb0h|].
        assert (Hwh : is_host w = false) by by apply (Hns w (ws ++ b0 :: rest)).
        assert (specificity w < 2 ^ 32).
        { rewrite specificity_net by done. apply Hl. set_solver. }
        specialize (Hwb w b0 ltac:(by left) ltac:(by left)). revert Hwb. unfold specificity at 1.
        unfold is_host in Hb0h. destruct (ir_addr b0); [done|]. lia. }
      intros b [->|Hin]%elem_of_cons; [lia|]. apply Hb in Hin. lia.
  - apply (routes_sorted_insert _ []); [done|by intros a ?%elem_of_nil|].
    intros b Hb. pose proof (specificity_le b (Hl b Hb)). unfold specificity at 2. rewrite Ea. lia.
Qed.

(** The list after [rs] have been added to an empty table, in this order. *)
Definition route_table (rs : list ip_route) : list ip_route := foldl (fun l r => insert_route r l) [] rs.

Lemma route_table_perm rs : route_table rs ≡ₚ rs.
Proof.
  induction rs as [|r rs IH] using rev_ind; [done|]. unfold route_table in *. rewrite foldl_app. cbn.
  rewrite insert_route_perm, IH. by rewrite (Permutation_app_comm rs).
Qed.

Lemma route_table_ordered rs : Forall netmask_ok rs -> routes_ordered (route_table rs).
Proof.
  induction rs as [|r rs IH] using rev_ind; intros Hrs; [constructor|].
  apply Forall_app in Hrs as [Hrs [Hr _]%Forall_cons]. unfold route_table. rewrite foldl_app. cbn.
  apply insert_route_ordered; [done| |by apply IH]. fold (route_table rs). by rewrite route_table_perm.
Qed.

Lemma find_route_first l ip :
  routes_ordered l ->
  match find_route ip l with
  | Some r => most_specific l ip r
  | None => forall r, r ∈ l -> route_matches ip r = false
  end.
Proof.
  induction l as [|r l IH]; intros Hs; cbn; [by intros r ?%elem_of_nil|].
  apply StronglySorted_inv in Hs as [Hs Hr]. rewrite Forall_forall in Hr.
  destruct (route_matches ip r) eqn:Hm.
  - split_and!; [by left|done|]. intros r' [->|Hin]%elem_of_cons _; [done|by apply Hr].
  - specialize (IH Hs). destruct (find_route ip l) as [r0|].
    + destruct IH as (Hin & Hm0 & Hmax). split_and!; [by right|done|].
      intros r' [->|Hr']%elem_of_cons Hm'; [congruence|by apply Hmax].
    + intros r' [->|Hr']%elem_of_cons; [done|by apply IH].
Qed.

Lemma find_route_table rs ip :
  Forall netmask_ok rs ->
  match find_route ip (route_table rs) with
  | Some r => most_specific rs ip r
  | None => forall r, r ∈ rs -> route_matches ip r = false
  end.
Proof.
  intros Hrs. pose proof (find_route_first (route_table rs) ip (route_table_ordered rs Hrs)) as Hf.
  destruct (find_route ip (route_table rs)) as [r|].
  - destruct Hf as (Hin & Hm & Hmax). rewrite route_table_perm in Hin. split_and!; [done..|].
    intros r' Hr'. apply Hmax. by rewrite route_table_perm.
  - intros r Hr. apply Hf. by rewrite route_table_perm.
Qed.

(** ** The cache *)

Lemma oldest_slot_found ip l k i old age :
  slot_of ip l = Some k -> oldest_slot ip l i old age = (i + k)%nat.
Proof.
  revert k i old age; induction l as [|s l IH]; cbn; intros k i old age Hs; [done|].
  destruct (iacs_ip s =? ip); [simplify_eq; lia|].
  destruct (slot_of ip l) as [k'|] eqn:E; [|done]. cbn in Hs. simplify_eq.
  destruct (iacs_age s <? age); rewrite (IH k' (S i)) by done; lia.
Qed.

Lemma oldest_slot_bound ip l i old age :
  (old < i + length l)%nat -> (oldest_slot ip l i old age < i + length l)%nat.
Proof.
  revert i old age; induction l as [|s l IH]; cbn; intros i old age Ho; [done|].
  destruct (iacs_ip s =? ip); [lia|]. rewrite <-Nat.add_succ_comm in *.
  destruct (iacs_age s <? age); apply IH; lia.
Qed.

Lemma slot_of_insert ip mac age l k :
  slot_of ip l = Some k \/ (slot_of ip l = None /\ (k < length l)%nat) ->
  slot_of ip (<[k := Slot_ ip mac age]> l) = Some k /\ <[k := Slot_ ip mac age]> l !! k = Some (Slot_ ip mac age).
Proof.
  revert k; induction l as [|s l IH]; intros k [Hk|[Hn Hk]]; cbn in *; try done; try lia.
  - destruct (iacs_ip s =? ip) eqn:E; simplify_eq; cbn; [by rewrite Z.eqb_refl|].
    destruct (slot_of ip l) as [k'|] eqn:El; [|done]. cbn in Hk. simplify_eq. cbn. rewrite E.
    destruct (IH k') as [H1 H2]; [by left|]. split; [exact (f_equal (fmap S) H1)|exact H2].
  - destruct (iacs_ip s =? ip) eqn:E; [done|]. destruct (slot_of ip l) eqn:El; [done|].
    destruct k as [|k]; cbn; [by rewrite Z.eqb_refl|]. rewrite E.
    destruct (IH k) as [H1 H2]; [right; split; [done|lia]|]. split; [exact (f_equal (fmap S) H1)|exact H2].
Qed.

(** The address just added is found, with its MAC address. *)
Lemma cache_add_find mac ip i :
  eii_arp_cache i <> [] ->
  exists k, slot_of ip (eii_arp_cache (cache_add mac ip i)) = Some k
    /\ iacs_mac <$> eii_arp_cache (cache_add mac ip i) !! k = Some mac.
Proof.
  intros Hne. unfold cache_add. cbn. set (k := oldest_slot _ _ _ _ _). exists k.
  destruct (slot_of_insert ip mac (eii_ip_arp_age i) (eii_arp_cache i) k) as [H1 H2].
  - destruct (slot_of ip (eii_arp_cache i)) as [k'|] eqn:E.
    + left. unfold k. by rewrite (oldest_slot_found _ _ _ 0 0 _ E).
    + right. split; [done|]. unfold k. apply (oldest_slot_bound _ _ 0).
      destruct (eii_arp_cache i); [done|cbn; lia].
  - rewrite H2. done.
Qed.

(** ** Runs of the operations on the instance *)

Section runs.
Context {X : Type} `{Part X ethdev_instance} `{Part X ethernet_ip_instance}.
Context (es_send : ethernet_server -> P (list Z) -> Z -> W X unit).

Abbreviation inst rest := (part_get (X:=X) (A:=ethernet_ip_instance) rest).

(** A critical section that ends with instance [i']. *)
Lemma put_unlocked (rest : X) :
  idi_lock (inst rest) = false -> part_put ((inst rest) <| idi_lock := true |> <| idi_lock := false |>) rest = rest.
Proof. intros Hl. transitivity (part_put (inst rest) rest); [|apply part_put_get]. f_equal. destruct (inst rest); cbn in *. by subst. Qed.

Lemma idi_critical {B C} p i (rest : X) (body : W X B) (k : B -> W X C) b p' (g : ethernet_ip_instance) :
  idi_lock (inst rest) = false ->
  body (World_ p i (part_put ((inst rest) <| idi_lock := true |>) rest))
    = Ok (b, World_ p' i (part_put (g <| idi_lock := true |>) rest)) ->
  idi_lock g = false ->
  (lock_idi;; b ← body; unlock_idi;; k b) (World_ p i rest) = k b (World_ p' i (part_put g rest)).
Proof.
  intros Hl Hb Hg. unfold lock_idi. rewrite part_lock by done. rewrite (st_run _ _ _ _ _ Hb).
  unfold unlock_idi. rewrite part_unlock by by rewrite part_get_put. rewrite part_get_put, part_put_put.
  do 2 f_equal. destruct g; cbn in *. by subst.
Qed.

Lemma ip_route_find_run {C} p i (rest : X) ip (k : option ip_route -> W X C) :
  idi_lock (inst rest) = false ->
  (ip_route_find ip ≫= k) (World_ p i rest) = k (find_route ip (eii_route_info (inst rest))) (World_ p i rest).
Proof.
  intros Hl. apply st_run. unfold ip_route_find.
  rewrite (idi_critical p i rest (get_part eii_route_info) (fun l => mret (find_route ip l))
             (eii_route_info (inst rest)) p (inst rest)); [by rewrite part_put_get|done| |done].
  unfold get_part, gets. cbn. by rewrite part_get_put.
Qed.

Lemma ip_arp_cache_find_run {C} p i (rest : X) ip (k : option (list Z) -> W X C) :
  idi_lock (inst rest) = false ->
  (ip_arp_cache_find ip ≫= k) (World_ p i rest)
  = k (cache_find ip (inst rest)).1 (World_ p i (part_put (cache_find ip (inst rest)).2 rest)).
Proof.
  intros Hl. apply st_run. unfold ip_arp_cache_find.
  rewrite (idi_critical p i rest (run_part (fun i => Ok (cache_find ip i))) mret
             (cache_find ip (inst rest)).1 p (cache_find ip (inst rest)).2); [done|done| |].
  - unfold run_part. cbn. rewrite part_get_put. unfold cache_find. cbn.
    destruct (slot_of ip (eii_arp_cache (inst rest))); cbn; by rewrite part_put_put.
  - unfold cache_find. by destruct (slot_of ip (eii_arp_cache (inst rest))).
Qed.

Lemma ip_arp_cache_add_run {C} p i (rest : X) mac ip (k : unit -> W X C) :
  idi_lock (inst rest) = false ->
  (ip_arp_cache_add mac ip ≫= k) (World_ p i rest) = k tt (World_ p i (part_put (cache_add mac ip (inst rest)) rest)).
Proof.
  intros Hl. apply st_run. unfold ip_arp_cache_add, lock_idi. rewrite part_lock by done. rewrite part_mod.
  rewrite part_get_put, part_put_put. unfold unlock_idi. rewrite <-(st_done (unlock_part _ _)).
  rewrite part_unlock by by rewrite part_get_put. rewrite part_get_put, part_put_put.
  unfold mret, ST_ret. do 4 f_equal. destruct (inst rest); cbn in *. by subst.
Qed.

Lemma take_server_run {C} p bs A i (rest : X) server es r f (k : ethernet_server -> W X C) :
  idi_lock (inst rest) = false -> (forall b, server ((inst rest) <| idi_lock := b |>) = Some es) ->
  tracks p bs A -> A !! es_self es = Some (r, f) -> r + 1 < 2 ^ 32 ->
  exists p', (take_server server ≫= k) (World_ p i rest) = k es (World_ p' i rest)
    /\ tracks p' bs (<[es_self es := (r + 1, f)]> A) /\ keeps A bs bs p p'.
Proof.
  intros Hl Hs Ht He Hr. destruct (tracks_ref p bs A (es_self es) r f Ht He Hr) as (p' & Hp & Ht' & Hk).
  exists p'. split_and!; [|done..]. apply st_run. unfold take_server, lock_idi. rewrite part_lock by done.
  rewrite part_gets, part_get_put, Hs. cbn [not_null]. rewrite (st_run _ _ _ es _ eq_refl).
  rewrite (w_mem _ _ _ _ _ _ _ Hp). unfold unlock_idi.
  rewrite part_unlock by by rewrite part_get_put. rewrite part_get_put, part_put_put.
  unfold mret, ST_ret. do 3 f_equal. by apply put_unlocked.
Qed.
End runs.

(** ** Sending *)

Record can_route (p : pool) (bs : list hole) (A : counts) (e : ethernet_ip_instance) (rs : list ip_route)
    (es : ethernet_server) (r f : Z) : Prop := {
  cr_lock : idi_lock e = false;
  cr_routes : eii_route_info e = route_table rs;
  cr_masks : Forall netmask_ok rs;
  cr_server : eii_ip_server e = Some es;
  cr_tracks : tracks p bs A;
  cr_refs : A !! es_self es = Some (r, f);
  cr_room : r + 1 < 2 ^ 32 }.

(** The destination address of a packet. *)
Definition packet_dest (m : mem) (nb : Z) : Z := hton32 (load32 m (load32 m (nb + Nb.network) + Ih.dest_addr)).

(** Netbuf [anb] is an ARP packet for [addr], other than a request, from [ip] in a
    frame from [mac]. *)
Record arp_packet (m : mem) (anb addr ip : Z) (mac : list Z) : Prop := {
  ap_haddr : load8 m (load32 m (anb + Nb.network) + Ah.haddr_len) = 6;
  ap_paddr : load8 m (load32 m (anb + Nb.network) + Ah.paddr_len) = 4;
  ap_dest : hton32 (load32 m (load32 m (anb + Nb.network) + Ah.sizeof + Iah.dest_ip)) = addr;
  ap_src : hton32 (load32 m (load32 m (anb + Nb.network) + Ah.sizeof + Iah.src_ip)) = ip;
  ap_op : hton16 (load16 m (load32 m (anb + Nb.network) + Ah.operation)) <> 1;
  ap_mac : bytes_at m (load32 m (anb + Nb.datalink) + Eph.src_mac) 6 = mac }.

Section send.
Context {X : Type} `{Part X ethdev_instance} `{Part X ethernet_ip_instance}.
Context (es_send : ethernet_server -> P (list Z) -> Z -> W X unit).

Abbreviation inst rest := (part_get (X:=X) (A:=ethernet_ip_instance) rest).

(** The netbuf goes out to [mac], once, with the lock free, the server referenced
    during the call and no other buffer changed. *)
Definition sent_to (es : ethernet_server) (mac : list Z) (nb : Z) (p : pool) bs A r f (i : ip_instance) (rest' : X)
    (run : res (unit * world X)) : Prop :=
  exists p', run = (es_send es (mret mac) nb;; deref_ (es_self es)) (World_ p' i rest')
    /\ tracks p' bs (<[es_self es := (r + 1, f)]> A) /\ keeps A bs bs p p'.

(** The packet up to its route. *)
Lemma send_route p i (rest : X) nb dest :
  idi_lock (inst rest) = false -> packet_dest (p_mem p) nb = dest ->
  ethernet_ip_send_netbuf es_send nb (World_ p i rest) =
    match find_route dest (eii_route_info (inst rest)) with
    | None => Ok (tt, World_ p i rest)
    | Some rt =>
      match (cache_find (next_hop rt dest) (inst rest)).1 with
      | Some mac => es ← take_server eii_ip_server; es_send es (mret mac) nb;; deref_ (es_self es)
      | None => ip_arp_request es_send (next_hop rt dest)
      end (World_ p i (part_put (cache_find (next_hop rt dest) (inst rest)).2 rest))
    end.
Proof.
  intros Hl <-. unfold packet_dest, ethernet_ip_send_netbuf. rewrite !w_rd32, ip_route_find_run by done. cbv zeta.
  destruct (find_route _ _) as [rt|]; [|reflexivity]. by rewrite ip_arp_cache_find_run by done.
Qed.

Lemma send_to_slot p bs A i (rest : X) rs es r f nb dest rt k s :
  can_route p bs A (inst rest) rs es r f -> packet_dest (p_mem p) nb = dest ->
  find_route dest (route_table rs) = Some rt ->
  slot_of (next_hop rt dest) (eii_arp_cache (inst rest)) = Some k -> eii_arp_cache (inst rest) !! k = Some s ->
  sent_to es (iacs_mac s) nb p bs A r f i (part_put (cache_find (next_hop rt dest) (inst rest)).2 rest)
    (ethernet_ip_send_netbuf es_send nb (World_ p i rest)).
Proof.
  intros [Hl Hr _ Hs Ht Hes Hrm] Hd Hrt Hk Hsl. rewrite (send_route p i rest nb dest) by done.
  rewrite Hr, Hrt. set (hop := next_hop rt dest) in *.
  assert (Hcf : (cache_find hop (inst rest)).1 = Some (iacs_mac s)) by (unfold cache_find; by rewrite Hk, Hsl).
  rewrite Hcf. set (rest' := part_put _ rest).
  assert (E : inst rest' = (cache_find hop (inst rest)).2) by apply part_get_put.
  assert (E2 : forall b, idi_lock (inst rest') = false /\ eii_ip_server ((inst rest') <| idi_lock := b |>) = Some es).
  { intros b. rewrite E. unfold cache_find. by rewrite Hk. }
  destruct (take_server_run p bs A i rest' eii_ip_server es r f
    (fun es => es_send es (mret (iacs_mac s)) nb;; deref_ (es_self es))) as (p' & He & Ht' & Hk'); eauto; try by apply (E2 false).
  { intros b. apply (E2 b). }
  exists p'. split_and!; [exact He|done..].
Qed.

Lemma ip_arp_recv_response {C} p i (rest : X) anb idc ip mac (k : unit -> W X C) :
  idi_lock (inst rest) = false -> idi_client (inst rest) = Some idc ->
  arp_packet (p_mem p) anb (idc_addr idc) ip mac ->
  (ip_arp_recv_netbuf es_send anb ≫= k) (World_ p i rest) = k tt (World_ p i (part_put (cache_add mac ip (inst rest)) rest)).
Proof.
  intros Hl Hc [Hh Hp Hd Hs Ho Hm]. apply st_run. unfold ip_arp_recv_netbuf.
  rewrite !w_rd32, w_rd8, Hh. cbn [negb Z.eqb Pos.eqb]. rewrite w_rd8, Hp. cbn [negb Z.eqb Pos.eqb].
  rewrite w_rd32. unfold local_addr at 1. rewrite st_assoc, part_gets, Hc. cbn [not_null].
  rewrite (st_run _ _ _ (idc_addr idc) (World_ p i rest)) by reflexivity.
  rewrite Hd, Z.eqb_refl. cbn [negb]. rewrite w_rd32, Hs. unfold rd_bytes. rewrite w_gets, Hm.
  rewrite ip_arp_cache_add_run by done. rewrite w_rd16. by destruct (Z.eqb_spec (hton16 (load16 (p_mem p) (load32 (p_mem p) (anb + Nb.network) + Ah.operation))) 1).
Qed.

Lemma send_after_arp p bs A i (rest : X) rs es r f nb dest rt anb idc mac :
  can_route p bs A (inst rest) rs es r f -> packet_dest (p_mem p) nb = dest ->
  find_route dest (route_table rs) = Some rt -> eii_arp_cache (inst rest) <> [] ->
  idi_client (inst rest) = Some idc -> arp_packet (p_mem p) anb (idc_addr idc) (next_hop rt dest) mac ->
  exists rest', sent_to es mac nb p bs A r f i rest'
    ((ip_arp_recv_netbuf es_send anb;; ethernet_ip_send_netbuf es_send nb) (World_ p i rest)).
Proof.
  intros Hc Hd Hrt Hne Hid Ha. set (hop := next_hop rt dest) in *.
  rewrite (ip_arp_recv_response _ _ _ _ idc hop mac) by (done || apply Hc).
  set (rest1 := part_put _ rest). assert (E : inst rest1 = cache_add mac hop (inst rest)) by apply part_get_put.
  destruct (cache_add_find mac hop (inst rest) Hne) as (k & Hk & Hm).
  destruct (eii_arp_cache (cache_add mac hop (inst rest)) !! k) as [s|] eqn:Hs; [|done]. cbn in Hm. simplify_eq.
  exists (part_put (cache_find hop (inst rest1)).2 rest1).
  eapply send_to_slot; [|done|exact Hrt|by rewrite E|by rewrite E]. rewrite E. destruct Hc. by constructor.
Qed.

End send.

(** ** Witness

    A host 10.0.0.9 with a default route over 10.0.0.254 and a route to network
    10/8; the ARP cache knows 10.0.0.1, the destination of the packet. *)

Definition demo_default : ip_route := Route_ 0x3000 (Net 0 0) 0x0a0000fe.
Definition demo_network : ip_route := Route_ 0x3020 (Net 0x0a000000 0xff000000) 0.
Definition demo_mac : list Z := [2; 0; 0; 0; 0; 1].
Definition demo_cache : list ip_arp_cache_slot := [Slot_ 0 demo_mac 0; Slot_ 0x0a000001 demo_mac 1].
Definition demo_server : ethernet_server := Ethernet_server_ net_srv 0x0800.
Definition demo_eii : ethernet_ip_instance :=
  Ethernet_ip_instance_ 0x2100 false 1500 1500 (Some (Ip_datalink_client_ 0x2200 0x0a000009 0)) demo_cache 2
    (route_table [demo_network; demo_default]) (Some demo_server) None.
Definition demo_rest : ethdev_instance * ethernet_ip_instance := (Ethdev_instance_ 0x2300 false None [2; 0; 0; 0; 0; 9], demo_eii).
Definition demo_send (es : ethernet_server) (mac : P (list Z)) (nb : Z) : W (ethdev_instance * ethernet_ip_instance) unit := mret tt.

Lemma demo_can_route : exists bs,
  can_route net_recv_pool bs net_counts (part_get demo_rest) [demo_network; demo_default] demo_server 1 0.
Proof.
  destruct net_received as [bs Hr]. exists bs. split; [done|done| |done|apply Hr|by cbv|lia].
  repeat (apply Forall_cons; split; [by cbv|]). done.
Qed.

