(* ===== verification/Uart.v ===== *)
(** * Serial port, interrupt controller and clock of the PC
    (src/test/pc386/srv/uart.c, pic.c, pic.h, timer.c; include/timer.h)

    The drivers the demonstrations run SLIP and PPP over.  A device is its registers:
    what a read returns and what a write does.  An interrupt handler and a pass of a
    driver thread run with the locks of the driver, so each is one step; where they
    signal or wait for a context the step records it. *)

From stdpp Require Import base list gmap fin_maps strings.
From Stdlib Require Import ZArith Lia.
From S2P Require Import Prelude Heap Membuf NetbufMem Ip Parts Ethernet EthernetIp.
Open Scope Z_scope.

Module Uart.

(** ** Registers *)

Definition DATA : Z := 0.
Definition IER : Z := 1.
Definition IIR : Z := 2.
Definition LSR : Z := 5.

Definition IER_ERXRDY : Z := 0x1.
Definition IER_ETXRDY : Z := 0x2.
Definition IIR_NOPEND : Z := 0x1.
Definition IIR_TXRDY : Z := 0x2.
Definition IIR_RXRDY : Z := 0x4.
Definition IIR_RXTOUT : Z := 0xc.
Definition IIR_IMASK : Z := 0xf.
Definition LSR_RXRDY : Z := 0x01.
Definition LSR_TXRDY : Z := 0x20.

(** The device: octets received and not read, whether the transmitter takes an octet,
    the enabled interrupts, octets sent. *)
Record device := Device { rx : list Z; tx_ready : bool; ier : Z; sent : list Z }.
#[export] Instance eta_device : Eta device := fun d => Device (rx d) (tx_ready d) (ier d) (sent d).

Definition enabled (d : device) (bit : Z) : bool := negb (Z.land (ier d) bit =? 0).

(** The receiver has the higher priority; with the FIFOs enabled bits 6 and 7 of the
    identification are set. *)
Definition uart_read8 (reg : Z) (d : device) : Z * device :=
  if reg =? DATA then match rx d with [] => (0, d) | b :: l => (b, d <| rx := l |>) end
  else if reg =? IER then (ier d, d)
  else if reg =? IIR then
    (Z.lor 0xc0 (if enabled d IER_ERXRDY && negb (bool_decide (rx d = [])) then IIR_RXRDY
                 else if enabled d IER_ETXRDY && tx_ready d then IIR_TXRDY else IIR_NOPEND), d)
  else if reg =? LSR then
    (Z.lor (if bool_decide (rx d = []) then 0 else LSR_RXRDY) (if tx_ready d then LSR_TXRDY else 0), d)
  else (0, d).

Definition uart_write8 (reg data : Z) (d : device) : device :=
  if reg =? DATA then d <| sent := sent d ++ [data] |> <| tx_ready := false |>
  else if reg =? IER then d <| ier := data |>
  else d.

(** ** The driver *)

Definition UART_RX_FIFO_DEPTH : Z := 16.

Inductive signal := recv_isr_ctx | data_isr_ctx.

Record uart := Uart_ {
  dev : device;
  recv_fifo : list Z;
  recv_head : Z;
  recv_tail : Z;
  signalled : list signal  (* [isr_context_signal()] *) }.
#[export] Instance eta_uart : Eta uart := fun u => Uart_ (dev u) (recv_fifo u) (recv_head u) (recv_tail u) (signalled u).

Definition read8 (reg : Z) (u : uart) : Z * uart := let '(v, d) := uart_read8 reg (dev u) in (v, u <| dev := d |>).
Definition write8 (reg data : Z) (u : uart) : uart := u <| dev := uart_write8 reg data (dev u) |>.
Definition isr_context_signal (c : signal) (u : uart) : uart := u <| signalled := signalled u ++ [c] |>.

(** [while (lsr & LSR_RXRDY)]. *)
Fixpoint recv_loop (fuel : nat) (lsr : Z) (u : uart) : res uart :=
  if Z.land lsr LSR_RXRDY =? 0 then Ok u
  else
    match fuel with
    | O => Fuel
    | S fuel =>
      let '(data, u) := read8 DATA u in
      let u := u <| recv_fifo := <[Z.to_nat (recv_head u) := data]> (recv_fifo u) |> in
      let next := Z.land (recv_head u + 1) (UART_RX_FIFO_DEPTH - 1) in
      let u := if negb (next =? recv_tail u) then u <| recv_head := next |> else u in
      let '(lsr, u) := read8 LSR u in
      recv_loop fuel lsr u
    end.

(** One round of the loop of [trap_irq4()]: the new [iir]. *)
Definition irq_round (fuel : nat) (u : uart) : res (Z * uart) :=
  let '(iir, u) := read8 IIR u in
  let iir := Z.land iir IIR_IMASK in
  if iir =? IIR_TXRDY then
    let '(v, u) := read8 IER u in
    let u := write8 IER (Z.land v (Z.lnot IER_ETXRDY)) u in
    Ok (iir, isr_context_signal data_isr_ctx u)
  else if (iir =? IIR_RXRDY) || (iir =? IIR_RXTOUT) then
    let '(lsr, u) := read8 LSR u in
    u ← recv_loop fuel lsr u;
    Ok (iir, isr_context_signal recv_isr_ctx u)
  else Ok (IIR_NOPEND, u).

(** [do ... while (iir != IIR_NOPEND)]. *)
Fixpoint trap_irq4 (fuel : nat) (u : uart) : res uart :=
  match fuel with
  | O => Fuel
  | S fuel =>
    '(iir, u) ← irq_round fuel u;
    if negb (iir =? IIR_NOPEND) then trap_irq4 fuel u else Ok u
  end.

(** A pass of the inner loop of [uart_recv_intr_thread()] up to the unlock: the octet for
    the client, or nothing when the thread waits. *)
Definition recv_take (u : uart) : option Z * uart :=
  if recv_tail u =? recv_head u then (None, u)
  else
    let ch := recv_fifo u !!! Z.to_nat (recv_tail u) in
    (Some ch, u <| recv_tail := Z.land (u8 (recv_tail u + 1)) (UART_RX_FIFO_DEPTH - 1) |>).

(** [uart_data_send_u8()]: sent, or waiting for [data_isr_ctx] to be signalled. *)
Definition uart_data_send_u8 (ch : Z) (u : uart) : bool * uart :=
  let '(lsr, u) := read8 LSR u in
  if Z.land lsr LSR_TXRDY =? 0 then
    let '(v, u) := read8 IER u in
    (false, write8 IER (Z.lor v IER_ETXRDY) u)
  else (true, write8 DATA ch u).

Definition uart_data_set_isr (u : uart) : uart :=
  let '(v, u) := read8 IER u in write8 IER (Z.lor v IER_ERXRDY) u.

(** ** The client *)

Record uart_client := Uart_client { uc_self : Z; uc_server : Z }.
#[export] Instance eta_uart_client : Eta uart_client := fun c => Uart_client (uc_self c) (uc_server c).
Record uart_binding := Uart_binding { uart_lock : bool; client : option uart_client }.
#[export] Instance eta_uart_binding : Eta uart_binding := fun b => Uart_binding (uart_lock b) (client b).

Section client.
Context {X : Type} `{Part X uart_binding}.
Context (uc_recv : uart_client -> Z -> W X unit).

Definition lock_uart : W X unit := lock_part uart_lock (fun l b => b <| uart_lock := l |>).
Definition unlock_uart : W X unit := unlock_part uart_lock (fun l b => b <| uart_lock := l |>).

(** The rest of the pass: [client] is read again after each unlock. *)
Definition recv_deliver (ch : Z) : W X unit :=
  lock_uart;;
  c ← get_part client;
  match c with
  | Some uc =>
    mem_ (membuf_ref (uc_self uc));;
    unlock_uart;;
    c ← get_part client;
    uc ← not_null "NULL client" c;
    uc_recv uc ch;;
    lock_uart;;
    c ← get_part client;
    uc ← not_null "NULL client" c;
    deref_ (uc_self uc)
  | None => mret tt
  end;;
  unlock_uart.

Definition uart_server_alloc : W X Z := mem_ (membuf_alloc 12 0).
Definition uart_client_alloc : W X Z := mem_ (membuf_alloc 12 0).

(** [None] for [NULL]; [ui] is the instance. *)
Definition uart_client_attach (ui : Z) (uc : uart_client) : W X (option Z) :=
  lock_uart;;
  c ← get_part client;
  us ← match c with
       | None =>
         us ← uart_server_alloc;
         mem_ (membuf_ref ui);;
         mod_part (fun b => b <| client := Some (uc <| uc_server := us |>) |>);;
         mem_ (membuf_ref (uc_self uc));;
         mret (Some us)
       | Some _ => mret None
       end;
  unlock_uart;;
  mret us.

Definition uart_client_detach (ui us : Z) : W X unit :=
  lock_uart;;
  c ← get_part client;
  uc ← not_null "NULL client" c;
  (if uc_server uc =? us then
     deref_ us;;
     deref_ ui;;
     deref_ (uc_self uc);;
     mod_part (fun b => b <| client := None |>)
   else mret tt);;
  unlock_uart.
End client.

End Uart.

Module UartFacts.
Import Uart.

(** ** What the port promises *)

(** Octets that arrived and were not read, octets queued for the client (fifteen at most),
    octets handed over; the transmitter, whether a sender waits for it, octets sent; the
    signals given. *)
Record port := Port {
  pending : list Z;
  queue : list Z;
  out : list Z;
  ready : bool;
  wanted : bool;
  sent_ : list Z;
  signals : list signal }.
#[export] Instance eta_port : Eta port := fun p =>
  Port (pending p) (queue p) (out p) (ready p) (wanted p) (sent_ p) (signals p).

Inductive op := Arrive (l : list Z) | TxDone | Irq | Take | Send (ch : Z).

Definition accept (q : list Z) (b : Z) : list Z := if (length q =? 15)%nat then q else q ++ [b].

Definition port_step (o : op) (p : port) : port :=
  match o with
  | Arrive l => p <| pending := pending p ++ l |>
  | TxDone => p <| ready := true |>
  | Irq => p <| queue := foldl accept (queue p) (pending p) |> <| pending := [] |>
             <| wanted := wanted p && negb (ready p) |>
             <| signals := signals p ++ (if bool_decide (pending p = []) then [] else [recv_isr_ctx])
                             ++ (if wanted p && ready p then [data_isr_ctx] else []) |>
  | Take => match queue p with [] => p | b :: q => p <| queue := q |> <| out := out p ++ [b] |> end
  | Send ch => if ready p then p <| sent_ := sent_ p ++ [ch] |> <| ready := false |> else p <| wanted := true |>
  end.

(** The driver; the octets handed over are collected beside it. *)
Definition uart_step (o : op) (s : uart * list Z) : res (uart * list Z) :=
  let '(u, got) := s in
  match o with
  | Arrive l => Ok (u <| dev := (dev u) <| rx := rx (dev u) ++ l |> |>, got)
  | TxDone => Ok (u <| dev := (dev u) <| tx_ready := true |> |>, got)
  | Irq => u ← trap_irq4 (3 + length (rx (dev u))) u; Ok (u, got)
  | Take => let '(ch, u) := recv_take u in Ok (u, got ++ from_option (fun c => [c]) [] ch)
  | Send ch => Ok ((uart_data_send_u8 ch u).2, got)
  end.

Fixpoint uart_run (ops : list op) (s : uart * list Z) : res (uart * list Z) :=
  match ops with [] => Ok s | o :: ops => s ← uart_step o s; uart_run ops s end.

(** ** The ring *)

Record ring_ok (u : uart) : Prop := {
  rk_len : length (recv_fifo u) = 16%nat;
  rk_head : 0 <= recv_head u < 16;
  rk_tail : 0 <= recv_tail u < 16 }.

Definition used (u : uart) : Z := (recv_head u - recv_tail u) mod 16.
Definition content (u : uart) : list Z :=
  (fun i => recv_fifo u !!! Z.to_nat ((recv_tail u + i) mod 16)) <$> seqZ 0 (used u).

Lemma used_range u : 0 <= used u < 16.
Proof. apply Z.mod_pos_bound. lia. Qed.

Lemma content_length u : Z.of_nat (length (content u)) = used u.
Proof. unfold content. rewrite length_fmap, length_seqZ. pose proof (used_range u). lia. Qed.

Lemma land15 x : 0 <= x -> Z.land x (UART_RX_FIFO_DEPTH - 1) = x mod 16.
Proof. intros. change (UART_RX_FIFO_DEPTH - 1) with (Z.ones 4). by rewrite Z.land_ones by lia. Qed.

(** Storing an octet at the head, and advancing the head unless the ring is full. *)
Definition ring_put (b : Z) (u : uart) : uart :=
  let u := u <| recv_fifo := <[Z.to_nat (recv_head u) := b]> (recv_fifo u) |> in
  let next := Z.land (recv_head u + 1) (UART_RX_FIFO_DEPTH - 1) in
  if negb (next =? recv_tail u) then u <| recv_head := next |> else u.

Lemma ring_put_ok b u : ring_ok u -> ring_ok (ring_put b u).
Proof.
  intros [H1 H2 H3]. unfold ring_put. cbn [recv_head setter]. rewrite land15 by lia.
  pose proof (Z.mod_pos_bound (recv_head u + 1) 16 ltac:(lia)).
  destruct (negb _); split; cbn; rewrite ?length_insert; done.
Qed.

(** The slots in use are not the head. *)
Lemma slot_ne u i : ring_ok u -> 0 <= i < used u -> Z.to_nat ((recv_tail u + i) mod 16) <> Z.to_nat (recv_head u).
Proof.
  intros [_ H2 H3] Hi. unfold used in Hi. pose proof (Z.mod_pos_bound (recv_tail u + i) 16 ltac:(lia)).
  Z.div_mod_to_equations. lia.
Qed.

Lemma ring_put_content b u : ring_ok u -> content (ring_put b u) = accept (content u) b.
Proof.
  intros Hk. pose proof Hk as [H1 H2 H3]. pose proof (used_range u) as Hu. unfold accept.
  pose proof (content_length u) as Hl.
  assert (Hold : forall n, n <= used u -> (fun i => <[Z.to_nat (recv_head u) := b]> (recv_fifo u) !!! Z.to_nat ((recv_tail u + i) mod 16)) <$> seqZ 0 n
    = (fun i => recv_fifo u !!! Z.to_nat ((recv_tail u + i) mod 16)) <$> seqZ 0 n).
  { intros n Hn. apply list_fmap_ext. intros j i Hi%list_elem_of_lookup_2%elem_of_seqZ.
    rewrite list_lookup_total_insert_ne; [done|]. symmetry. apply slot_ne; [done|lia]. }
  unfold ring_put. cbn [recv_head recv_tail setter]. rewrite land15 by lia.
  destruct (Z.eqb_spec ((recv_head u + 1) mod 16) (recv_tail u)) as [E|E]; cbn [negb].
  - assert (used u = 15) by (unfold used; Z.div_mod_to_equations; lia).
    replace (length (content u) =? 15)%nat with true by (symmetry; apply Nat.eqb_eq; lia).
    unfold content at 1, used at 1. cbn [recv_head recv_tail recv_fifo setter]. fold (used u). by apply Hold.
  - assert (Hn : ((recv_head u + 1) mod 16 - recv_tail u) mod 16 = used u + 1) by (unfold used in *; Z.div_mod_to_equations; lia).
    replace (length (content u) =? 15)%nat with false by (symmetry; apply Nat.eqb_neq; unfold used in *; Z.div_mod_to_equations; lia).
    unfold content at 1, used at 1. cbn [recv_head recv_tail recv_fifo setter]. rewrite Hn, seqZ_app by lia.
    rewrite fmap_app. rewrite Hold by lia. f_equal.
    rewrite Z.add_0_l, (seqZ_cons (used u) 1) by lia. cbn [fmap list_fmap]. f_equal.
    replace (Z.to_nat ((recv_tail u + used u) mod 16)) with (Z.to_nat (recv_head u))
      by (unfold used; f_equal; Z.div_mod_to_equations; lia).
    apply list_lookup_total_insert_eq. lia.
Qed.

Lemma recv_take_content u : ring_ok u ->
  match content u with
  | [] => recv_take u = (None, u)
  | b :: q => exists u', recv_take u = (Some b, u') /\ ring_ok u' /\ content u' = q /\ dev u' = dev u /\ signalled u' = signalled u
  end.
Proof.
  intros [H1 H2 H3]. unfold content, recv_take. pose proof (used_range u) as Hu.
  destruct (Z.eqb_spec (recv_tail u) (recv_head u)) as [E|E].
  - assert (used u = 0) as -> by (unfold used; rewrite E, Z.sub_diag; done). done.
  - assert (0 < used u) by (unfold used in *; Z.div_mod_to_equations; lia).
    rewrite seqZ_cons by lia. cbn [fmap list_fmap].
    rewrite Z.add_0_r, (Z.mod_small (recv_tail u)) by lia. rewrite u8_small, land15 by lia.
    eexists. split; [reflexivity|]. pose proof (Z.mod_pos_bound (recv_tail u + 1) 16 ltac:(lia)).
    split; [by split|]. split; [|done]. unfold used at 1. cbn [recv_head recv_tail recv_fifo setter].
    replace ((recv_head u - (recv_tail u + 1) mod 16) mod 16) with (Z.pred (used u))
      by (unfold used in *; Z.div_mod_to_equations; lia).
    rewrite <- (fmap_add_seqZ 1 0), <- list_fmap_compose.
    apply list_fmap_ext. intros j i _. cbn. do 2 f_equal. rewrite Zplus_mod_idemp_l. f_equal. lia.
Qed.

(** ** Interrupts *)

Lemma lsr_rxrdy d : Z.land (uart_read8 LSR d).1 LSR_RXRDY =? 0 = bool_decide (rx d = []).
Proof. destruct d as [[|b l] [] e o]; reflexivity. Qed.

Lemma ring_put_rest b u : dev (ring_put b u) = dev u /\ signalled (ring_put b u) = signalled u.
Proof. unfold ring_put. by destruct (negb _). Qed.

Definition with_dev (d : device) (u : uart) : uart := u <| dev := d |>.

Lemma recv_loop_empty fuel u : rx (dev u) = [] -> recv_loop fuel (uart_read8 LSR (dev u)).1 u = Ok u.
Proof. intros E. destruct fuel; cbn [recv_loop]; by rewrite lsr_rxrdy, E. Qed.

Lemma recv_loop_cons fuel b l u : rx (dev u) = b :: l ->
  let u1 := ring_put b (with_dev ((dev u) <| rx := l |>) u) in
  recv_loop (S fuel) (uart_read8 LSR (dev u)).1 u = recv_loop fuel (uart_read8 LSR (dev u1)).1 u1.
Proof.
  intros E u1. cbn [recv_loop]. rewrite lsr_rxrdy, E. cbn [bool_decide].
  assert (Ed : read8 DATA u = (b, with_dev ((dev u) <| rx := l |>) u)).
  { unfold read8, uart_read8. cbn. by rewrite E. }
  rewrite Ed. cbn zeta. fold (ring_put b (with_dev ((dev u) <| rx := l |>) u)). fold u1. unfold read8.
  assert (El : forall d, (uart_read8 LSR d).2 = d) by done. destruct (uart_read8 LSR (dev u1)) as [v d] eqn:Ev.
  assert (d = dev u1) as -> by (rewrite <- (El (dev u1)), Ev; done). by destruct u1.
Qed.

(** The receive loop empties the device into the ring. *)
Lemma recv_loop_drains l : forall fuel u, (length l <= fuel)%nat -> rx (dev u) = l -> ring_ok u ->
  exists u', recv_loop fuel (uart_read8 LSR (dev u)).1 u = Ok u' /\ ring_ok u' /\ content u' = foldl accept (content u) l
    /\ dev u' = (dev u) <| rx := [] |> /\ signalled u' = signalled u.
Proof.
  induction l as [|b l IH]; intros fuel u Hf Hl Hk.
  - exists u. rewrite recv_loop_empty by done. split_and!; try done. destruct u as [[] ? ? ? ?]. cbn in *. by subst.
  - destruct fuel as [|fuel]; cbn [length] in Hf; [lia|]. rewrite (recv_loop_cons fuel b l u Hl). cbn zeta.
    set (u0 := with_dev ((dev u) <| rx := l |>) u).
    assert (Hk0 : ring_ok u0) by (by destruct Hk; split).
    destruct (ring_put_rest b u0) as [Ed Es].
    destruct (IH fuel (ring_put b u0)) as (u' & -> & Hk' & Hc & Hd & Hs); [lia|by rewrite Ed|by apply ring_put_ok|].
    exists u'. rewrite ring_put_content in Hc by done. rewrite Ed in Hd. rewrite Es in Hs. by split_and!.
Qed.

Definition rx_on (d : device) : bool := enabled d IER_ERXRDY.
Definition tx_on (d : device) : bool := enabled d IER_ETXRDY.

(** Disabling and enabling the transmitter's interrupt leaves the receiver's alone. *)
Lemma tx_disable v : Z.land (Z.land v (Z.lnot IER_ETXRDY)) IER_ERXRDY = Z.land v IER_ERXRDY
  /\ Z.land (Z.land v (Z.lnot IER_ETXRDY)) IER_ETXRDY = 0.
Proof. rewrite <- !Z.land_assoc. split; [done|]. apply Z.land_0_r. Qed.

Lemma tx_enable v : Z.land (Z.lor v IER_ETXRDY) IER_ERXRDY = Z.land v IER_ERXRDY
  /\ Z.land (Z.lor v IER_ETXRDY) IER_ETXRDY <> 0.
Proof.
  rewrite !Z.land_lor_distr_l. split; [apply Z.lor_0_r|]. intros E%Z.lor_eq_0_iff. by destruct E.
Qed.

Lemma read8_reg reg u : reg <> DATA -> read8 reg u = ((uart_read8 reg (dev u)).1, u).
Proof.
  intros Hr. unfold read8, uart_read8. rewrite (proj2 (Z.eqb_neq _ _) Hr). repeat case_match; simplify_eq; by destruct u.
Qed.

Lemma iir_value d : Z.land (uart_read8 IIR d).1 IIR_IMASK =
  if rx_on d && negb (bool_decide (rx d = [])) then IIR_RXRDY else if tx_on d && tx_ready d then IIR_TXRDY else IIR_NOPEND.
Proof. unfold rx_on, tx_on, uart_read8. cbn. destruct (enabled d _ && _); [done|]. by destruct (enabled d _ && _). Qed.

Lemma irq_round_idle fuel u : rx (dev u) = [] -> tx_on (dev u) && tx_ready (dev u) = false -> irq_round fuel u = Ok (IIR_NOPEND, u).
Proof.
  intros E Ht. unfold irq_round. rewrite (read8_reg IIR) by done. unfold uart_read8. cbn.
  rewrite E, bool_decide_eq_true_2, andb_false_r by done. unfold tx_on in Ht. by rewrite Ht.
Qed.

Lemma irq_round_tx fuel u : rx (dev u) = [] -> tx_on (dev u) && tx_ready (dev u) = true ->
  irq_round fuel u = Ok (IIR_TXRDY, isr_context_signal data_isr_ctx
    (with_dev ((dev u) <| ier := Z.land (ier (dev u)) (Z.lnot IER_ETXRDY) |>) u)).
Proof.
  intros E Ht. unfold irq_round. rewrite (read8_reg IIR) by done. unfold uart_read8. cbn.
  rewrite E, bool_decide_eq_true_2, andb_false_r by done. unfold tx_on in Ht. by rewrite Ht.
Qed.

Lemma irq_round_rx fuel u : rx (dev u) <> [] -> rx_on (dev u) = true -> (length (rx (dev u)) <= fuel)%nat -> ring_ok u ->
  exists u', irq_round fuel u = Ok (IIR_RXRDY, isr_context_signal recv_isr_ctx u') /\ ring_ok u'
    /\ content u' = foldl accept (content u) (rx (dev u)) /\ dev u' = (dev u) <| rx := [] |> /\ signalled u' = signalled u.
Proof.
  intros E Hr Hf Hk. destruct (recv_loop_drains (rx (dev u)) fuel u Hf eq_refl Hk) as (u' & Hu & Hrest).
  exists u'. split; [|done]. unfold irq_round. rewrite (read8_reg IIR) by done. cbv beta iota zeta.
  rewrite iir_value, Hr, bool_decide_eq_false_2 by done. cbn [negb andb].
  change (IIR_RXRDY =? IIR_TXRDY) with false. change (IIR_RXRDY =? IIR_RXRDY) with true. cbn [orb].
  rewrite (read8_reg LSR) by done. cbv beta iota zeta. by rewrite Hu.
Qed.

(** What an interrupt leaves when [l] was there to read. *)
Record after_irq (l : list Z) (v u : uart) : Prop := {
  ai_ring : ring_ok u;
  ai_content : content u = foldl accept (content v) l;
  ai_rx : rx (dev u) = [];
  ai_rx_on : rx_on (dev u) = true;
  ai_tx_on : tx_on (dev u) = tx_on (dev v) && negb (tx_ready (dev v));
  ai_ready : tx_ready (dev u) = tx_ready (dev v);
  ai_sent : sent (dev u) = sent (dev v);
  ai_signals : signalled u = signalled v ++ (if bool_decide (l = []) then [] else [recv_isr_ctx])
                 ++ (if tx_on (dev v) && tx_ready (dev v) then [data_isr_ctx] else []) }.

Lemma trap_irq4_tx n v : ring_ok v -> rx (dev v) = [] -> rx_on (dev v) = true ->
  exists u, trap_irq4 (2 + n) v = Ok u /\ after_irq [] v u.
Proof.
  intros Hk Ev Hr. cbn [trap_irq4 Nat.add]. destruct (tx_on (dev v) && tx_ready (dev v)) eqn:Et.
  - rewrite irq_round_tx by done. cbn [mbind res_bind]. change (negb (IIR_TXRDY =? IIR_NOPEND)) with true. cbv iota.
    destruct (tx_disable (ier (dev v))) as [D1 D2].
    rewrite irq_round_idle; [|done|unfold tx_on, enabled; cbn; by rewrite D2].
    eexists. split; [reflexivity|]. apply andb_true_iff in Et as [E1 E2].
    split; try done; [by destruct Hk|unfold rx_on, enabled in *; cbn; by rewrite D1| |].
    + unfold tx_on, enabled. cbn. by rewrite D2, E2, andb_false_r.
    + cbn. by rewrite E1, E2.
  - rewrite irq_round_idle by done. exists v. split; [reflexivity|]. split; try done.
    + destruct (tx_on (dev v)), (tx_ready (dev v)); done.
    + rewrite Et. cbn. by rewrite app_nil_r.
Qed.

(** [trap_irq4()] reads all that arrived, then sees to the transmitter; three rounds are
    enough. *)
Lemma trap_irq4_spec u : ring_ok u -> rx_on (dev u) = true ->
  exists u', trap_irq4 (3 + length (rx (dev u))) u = Ok u' /\ after_irq (rx (dev u)) u u'.
Proof.
  intros Hk Hr. destruct (decide (rx (dev u) = [])) as [E|E].
  - rewrite E. by apply (trap_irq4_tx 1 u).
  - destruct (irq_round_rx (2 + length (rx (dev u))) u E Hr ltac:(lia) Hk) as (v & Ev & Hkv & Hc & Hd & Hs).
    change (3 + length (rx (dev u)))%nat with (S (2 + length (rx (dev u)))).
    destruct (trap_irq4_tx (length (rx (dev u))) (isr_context_signal recv_isr_ctx v)) as (u' & Eu & Ha);
      [by destruct Hkv; split|cbn; by rewrite Hd|cbn; by rewrite Hd|].
    exists u'. split; [cbn [trap_irq4]; rewrite Ev; exact Eu|].
    destruct Ha as [A1 A2 A3 A4 A5 A6 A7 A8]. cbn in *. rewrite Hd, Hs in *. cbn in *. split; try done.
    + by rewrite A2.
    + rewrite A8, bool_decide_eq_false_2 by done. by rewrite <- app_assoc.
Qed.

(** ** Refinement *)

Definition shows (s : uart * list Z) (p : port) : Prop :=
  let d := dev s.1 in
  ring_ok s.1 /\ rx_on d = true
  /\ p = Port (rx d) (content s.1) s.2 (tx_ready d) (tx_on d) (sent d) (signalled s.1).

Lemma uart_step_shows o s p : shows s p -> exists s', uart_step o s = Ok s' /\ shows s' (port_step o p).
Proof.
  destruct s as [u got]. intros (Hk & Hr & ->). cbn [fst snd] in *. destruct o as [l| | | |ch]; cbn [uart_step port_step].
  - eexists. split; [reflexivity|]. split; [by destruct Hk|]. done.
  - eexists. split; [reflexivity|]. split; [by destruct Hk|]. done.
  - destruct (trap_irq4_spec u Hk Hr) as (u' & -> & [A1 A2 A3 A4 A5 A6 A7 A8]). eexists. split; [reflexivity|].
    split; [done|]. split; [done|]. cbn. by rewrite A2, A3, A5, A6, A7, A8.
  - pose proof (recv_take_content u Hk) as Ht. cbn [queue fst snd]. destruct (content u) as [|b q] eqn:Ec.
    + rewrite Ht. eexists. split; [reflexivity|]. split; [done|]. split; [done|]. cbn. by rewrite Ec, app_nil_r.
    + destruct Ht as (u' & -> & Hk' & Hc & Hd & Hs). eexists. split; [reflexivity|].
      split; [done|]. cbn. rewrite Hd, Hc, Hs. done.
  - unfold uart_data_send_u8. rewrite (read8_reg LSR) by done. cbv beta iota zeta.
    assert (El : Z.land (uart_read8 LSR (dev u)).1 LSR_TXRDY =? 0 = negb (tx_ready (dev u))).
    { unfold uart_read8. cbn. destruct (tx_ready (dev u)); by case_bool_decide. }
    rewrite El. cbn [ready]. destruct (tx_ready (dev u)) eqn:Et; cbn [negb].
    + eexists. split; [reflexivity|]. split; [by destruct Hk|]. done.
    + rewrite (read8_reg IER) by done. destruct (tx_enable (ier (dev u))) as [E1 E2].
      eexists. split; [reflexivity|]. split; [by destruct Hk|]. unfold rx_on, tx_on, enabled in *. cbn. rewrite E1.
      split; [done|]. by rewrite Et, (proj2 (Z.eqb_neq _ _) E2).
Qed.

(** C14: the serial driver is a queue of fifteen octets.  For every order of octets that
    arrive, interrupts, passes of the receiving thread and octets to send, [trap_irq4()]
    ends, and what the client gets is what arrived, in order and once each, except for
    octets that arrive while fifteen are queued; an interrupt that reads something
    signals the receiving thread.  An octet is sent when the transmitter takes it;
    otherwise the sender waits, and is signalled by the first interrupt after the
    transmitter is ready. *)
Theorem uart_refines_port ops u got p :
  shows (u, got) p -> exists s', uart_run ops (u, got) = Ok s' /\ shows s' (foldl (fun p o => port_step o p) p ops).
Proof.
  generalize (u, got) as s. clear u got. revert p. induction ops as [|o ops IH]; intros p s Hs; [by exists s|].
  destruct (uart_step_shows o s p Hs) as (s' & E & Hs'). destruct (IH _ _ Hs') as (s'' & Er & Hr).
  exists s''. split; [|done]. cbn [uart_run]. rewrite E. exact Er.
Qed.

Definition quiet_uart : uart := Uart_ (Device [] true IER_ERXRDY []) (replicate 16 0) 3 3 [].

Lemma uart_refines_port_witness :
  exists s', uart_run [Arrive [1; 2]; Irq; Take; Send 65; Send 66; TxDone; Irq] (quiet_uart, []) = Ok s'
    /\ s'.2 = [1] /\ content s'.1 = [2] /\ signalled s'.1 = [recv_isr_ctx; data_isr_ctx].
Proof.
  destruct (uart_refines_port [Arrive [1; 2]; Irq; Take; Send 65; Send 66; TxDone; Irq] quiet_uart []
    (Port [] [] [] true false [] [])) as (s' & E & _ & _ & Hp); [by repeat split|].
  exists s'. split; [exact E|]. cbn [fst snd] in Hp.
  change (Port [] [2] [1] true false [65] [recv_isr_ctx; data_isr_ctx] = Port (rx (dev s'.1)) (content s'.1) s'.2 (tx_ready (dev s'.1))
    (tx_on (dev s'.1)) (sent (dev s'.1)) (signalled s'.1)) in Hp.
  split_and!; [exact (eq_sym (f_equal out Hp))|exact (eq_sym (f_equal queue Hp))|exact (eq_sym (f_equal signals Hp))].
Defined.

End UartFacts.

(** ** Interrupt controllers *)

Module Pic.

Definition IRQ_MASTER : Z := 8.
Definition IRQ_DAISY : Z := 2.
Definition FLAG_EOI : Z := 0x20.
Definition PIC0_OCW1 : Z := 0x21.
Definition PIC0_OCW2 : Z := 0x20.
Definition PIC1_OCW1 : Z := 0xa1.
Definition PIC1_OCW2 : Z := 0xa0.

(** [imask] and what was written to the ports, the last first. *)
Record pic := Pic_ { imask : Z; ports : list (Z * Z) }.
#[export] Instance eta_pic : Eta pic := fun p => Pic_ (imask p) (ports p).

Definition out8 (port v : Z) (p : pic) : pic := p <| ports := (port, v) :: ports p |>.

Definition write_masks (p : pic) : pic :=
  out8 PIC1_OCW1 (u8 (Z.land (Z.shiftr (imask p) 8) 0xff)) (out8 PIC0_OCW1 (u8 (Z.land (imask p) 0xff)) p).

Definition pic_enable (irq : Z) (p : pic) : pic :=
  let p := p <| imask := u16 (Z.land (imask p) (Z.lnot (Z.shiftl 1 irq))) |> in
  let p := if IRQ_MASTER <=? irq then p <| imask := u16 (Z.land (imask p) (Z.lnot (Z.shiftl 1 IRQ_DAISY))) |> else p in
  write_masks p.

Definition pic_disable (irq : Z) (p : pic) : pic :=
  let p := p <| imask := u16 (Z.lor (imask p) (Z.shiftl 1 irq)) |> in
  let p := if (IRQ_MASTER <=? irq) && (Z.land (imask p) 0xff00 =? 0xff00)
           then p <| imask := u16 (Z.lor (imask p) (Z.shiftl 1 IRQ_DAISY)) |> else p in
  write_masks p.

Definition pic_acknowledge (irq : Z) (p : pic) : pic :=
  let p := out8 PIC0_OCW2 FLAG_EOI p in
  if IRQ_MASTER <=? irq then out8 PIC1_OCW2 FLAG_EOI p else p.

End Pic.

Module PicFacts.
Import Pic.

Lemma bit_clear v i j : 0 <= i < 16 -> 0 <= j ->
  Z.testbit (u16 (Z.land v (Z.lnot (Z.shiftl 1 i)))) j = Z.testbit (u16 v) j && negb (j =? i).
Proof.
  intros Hi Hj. unfold u16. destruct (decide (j < 16)).
  - rewrite !Z.mod_pow2_bits_low by lia. rewrite Z.land_spec, Z.lnot_spec, Z.shiftl_1_l, Z.pow2_bits_eqb by lia.
    by rewrite (Z.eqb_sym i j).
  - by rewrite !Z.mod_pow2_bits_high by lia.
Qed.

Lemma bit_set v i j : 0 <= i < 16 -> 0 <= j ->
  Z.testbit (u16 (Z.lor v (Z.shiftl 1 i))) j = Z.testbit (u16 v) j || (j =? i).
Proof.
  intros Hi Hj. unfold u16. destruct (decide (j < 16)).
  - rewrite !Z.mod_pow2_bits_low by lia. rewrite Z.lor_spec, Z.shiftl_1_l, Z.pow2_bits_eqb by lia. by rewrite (Z.eqb_sym i j).
  - rewrite !Z.mod_pow2_bits_high by lia. symmetry. apply Z.eqb_neq. lia.
Qed.

(** No line of the second controller is enabled. *)
Definition slaves_off (S : gset Z) : bool := bool_decide (forall i, i ∈ S -> i < IRQ_MASTER).

(** The mask for a set of enabled lines: the line of the second controller is enabled with
    the first of its lines. *)
Record masks (S : gset Z) (p : pic) : Prop := {
  mk_range : imask p = u16 (imask p);
  mk_line : forall i, 0 <= i < 16 -> i <> IRQ_DAISY -> Z.testbit (imask p) i = bool_decide (i ∉ S);
  mk_daisy : Z.testbit (imask p) IRQ_DAISY = slaves_off S;
  mk_set : forall i, i ∈ S -> 0 <= i < 16 /\ i <> IRQ_DAISY }.

Lemma high_byte j : 0 <= j -> Z.testbit 0xff00 j = (8 <=? j) && (j <? 16).
Proof.
  intros Hj. change 0xff00 with (Z.shiftl (Z.ones 8) 8). rewrite Z.shiftl_spec by lia.
  destruct (Z.leb_spec 8 j); cbn; [|by apply Z.testbit_neg_r; lia].
  destruct (Z.ltb_spec j 16); [apply Z.ones_spec_low|apply Z.ones_spec_high]; lia.
Qed.

Lemma all_high v : (Z.land v 0xff00 =? 0xff00) = true <-> forall j, 8 <= j < 16 -> Z.testbit v j = true.
Proof.
  rewrite Z.eqb_eq. split.
  - intros E j Hj. apply (f_equal (fun x => Z.testbit x j)) in E. rewrite Z.land_spec, high_byte in E by lia.
    replace ((8 <=? j) && (j <? 16)) with true in E by lia. by rewrite andb_true_r in E.
  - intros H. apply Z.bits_inj'. intros j Hj. rewrite Z.land_spec, high_byte by lia.
    destruct (decide (8 <= j < 16)) as [Hr|Hr]; [by rewrite H|].
    replace ((8 <=? j) && (j <? 16)) with false by lia. apply andb_false_r.
Qed.

Lemma imask_write p : imask (write_masks p) = imask p.
Proof. done. Qed.

Lemma u16_idem v : u16 (u16 v) = u16 v.
Proof. apply Z.mod_mod. lia. Qed.

Lemma enable_masks S p irq : 0 <= irq < 16 -> irq <> IRQ_DAISY -> masks S p -> masks ({[irq]} ∪ S) (pic_enable irq p).
Proof.
  intros Hi Hd [M1 M2 M3 M4]. unfold pic_enable. split; rewrite ?imask_write.
  - by destruct (IRQ_MASTER <=? irq); cbn [imask setter]; rewrite u16_idem.
  - intros j Hj Hjd. assert (E : Z.testbit (imask p) j && negb (j =? irq) = bool_decide (j ∉ {[irq]} ∪ S)).
    { rewrite M2 by done. destruct (Z.eqb_spec j irq) as [->|Hne]; cbn.
      - rewrite andb_false_r. symmetry. apply bool_decide_eq_false. set_solver.
      - rewrite andb_true_r. apply bool_decide_ext. set_solver. }
    destruct (IRQ_MASTER <=? irq); cbn [imask setter]; rewrite ?bit_clear, ?u16_idem, ?bit_clear, <- M1 by (unfold IRQ_DAISY; lia); [|done].
    rewrite E, (proj2 (Z.eqb_neq j IRQ_DAISY)) by done. apply andb_true_r.
  - unfold slaves_off in *. destruct (Z.leb_spec IRQ_MASTER irq); cbn [imask setter].
    + rewrite bit_clear, Z.eqb_refl, andb_false_r by (unfold IRQ_DAISY; lia). symmetry. apply bool_decide_eq_false.
      intros Ha. specialize (Ha irq ltac:(set_solver)). lia.
    + rewrite bit_clear, <- M1, M3, (proj2 (Z.eqb_neq IRQ_DAISY irq)), andb_true_r by (unfold IRQ_DAISY in *; lia).
      apply bool_decide_ext. set_solver by lia.
  - set_solver.
Qed.

Lemma disable_masks S p irq : 0 <= irq < 16 -> irq <> IRQ_DAISY -> masks S p -> masks (S ∖ {[irq]}) (pic_disable irq p).
Proof.
  intros Hi Hd [M1 M2 M3 M4]. unfold pic_disable. set (v := u16 (Z.lor (imask p) (Z.shiftl 1 irq))).
  assert (Hv : forall j, 0 <= j -> Z.testbit v j = Z.testbit (imask p) j || (j =? irq)) by (intros j Hj; unfold v; by rewrite bit_set, <- M1 by lia).
  assert (Hline : forall j, 0 <= j < 16 -> j <> IRQ_DAISY -> Z.testbit v j = bool_decide (j ∉ S ∖ {[irq]})).
  { intros j Hj Hjd. rewrite Hv, M2 by (done || lia). destruct (Z.eqb_spec j irq) as [->|Hne]; cbn.
    - rewrite orb_true_r. symmetry. apply bool_decide_eq_true. set_solver.
    - rewrite orb_false_r. apply bool_decide_ext. set_solver. }
  assert (Hoff : (Z.land v 0xff00 =? 0xff00) = slaves_off (S ∖ {[irq]})).
  { apply eq_bool_prop_intro. rewrite !Is_true_true, all_high. unfold slaves_off. rewrite bool_decide_eq_true. split.
    - intros Ha i Hin. destruct (M4 i ltac:(set_solver)) as [Hr Hn]. destruct (Z.lt_ge_cases i IRQ_MASTER) as [|Hge]; [done|].
      specialize (Ha i ltac:(unfold IRQ_MASTER in *; lia)). rewrite Hline in Ha by done. apply bool_decide_eq_true in Ha. set_solver.
    - intros Ha j Hj. rewrite Hline by (unfold IRQ_DAISY; lia). apply bool_decide_eq_true. intros Hin. specialize (Ha j Hin).
      unfold IRQ_MASTER in Ha. lia. }
  cbn [imask setter]. fold v. rewrite Hoff. split; rewrite ?imask_write.
  - destruct ((IRQ_MASTER <=? irq) && _); cbn [imask setter]; symmetry; apply u16_idem.
  - intros j Hj Hjd. destruct ((IRQ_MASTER <=? irq) && _); cbn [imask setter]; fold v; [|by apply Hline].
    rewrite bit_set by (unfold IRQ_DAISY; lia). unfold v at 1. rewrite u16_idem. fold v.
    rewrite (proj2 (Z.eqb_neq j IRQ_DAISY)), orb_false_r by done. by apply Hline.
  - assert (Hkeep : Z.testbit v IRQ_DAISY = slaves_off S) by (rewrite Hv, (proj2 (Z.eqb_neq IRQ_DAISY irq)), orb_false_r by (unfold IRQ_DAISY in *; lia); done).
    assert (Hmono : slaves_off S = true -> slaves_off (S ∖ {[irq]}) = true).
    { unfold slaves_off. rewrite !bool_decide_eq_true. set_solver. }
    destruct (Z.leb_spec IRQ_MASTER irq) as [Hm|Hm]; cbn [andb].
    + destruct (slaves_off (S ∖ {[irq]})) eqn:Eo; cbn [imask setter]; fold v.
      * rewrite bit_set, Z.eqb_refl by (unfold IRQ_DAISY; lia). apply orb_true_r.
      * rewrite Hkeep. destruct (slaves_off S); [|done]. exact (eq_sym (Hmono eq_refl)).
    + cbn [imask setter]. fold v. rewrite Hkeep. unfold slaves_off. apply bool_decide_ext. split; [set_solver|].
      intros Ha i Hin. destruct (decide (i = irq)) as [->|]; [done|]. apply Ha. set_solver.
  - set_solver.
Qed.

(** The lines enabled by a sequence of calls are exactly those whose last call enabled
    them, and line 2, through which the second controller is connected, while it has an
    enabled line; both controllers have the mask. *)
Theorem pic_masks_lines (ops : list (bool * Z)) :
  Forall (fun o => 0 <= o.2 < 16 /\ o.2 <> IRQ_DAISY) ops ->
  let S := foldl (fun (S : gset Z) o => if (o : bool * Z).1 then {[o.2]} ∪ S else S ∖ {[o.2]}) ∅ ops in
  let p := foldl (fun p o => if (o : bool * Z).1 then pic_enable o.2 p else pic_disable o.2 p) (Pic_ 0xffff []) ops in
  masks S p /\ (ops <> [] -> exists l,
    ports p = (PIC1_OCW1, u8 (Z.land (Z.shiftr (imask p) 8) 0xff)) :: (PIC0_OCW1, u8 (Z.land (imask p) 0xff)) :: l).
Proof.
  intros Hf. cbn zeta. split.
  2: { destruct ops as [|[[] irq] ops _] using rev_ind; [done|..]; intros _; rewrite foldl_app; eexists; reflexivity. }
  assert (H0 : masks ∅ (Pic_ 0xffff [])).
  { split; [done| |by vm_compute|set_solver]. intros i Hi Hn. cbn. rewrite bool_decide_eq_true_2 by set_solver.
    change 0xffff with (Z.ones 16). apply Z.ones_spec_low. lia. }
  revert H0. generalize (Pic_ 0xffff []) (∅ : gset Z). induction Hf as [|[[] irq] ops [Hi Hn] _ IH]; intros p S Hm; [done|..]; cbn.
  - apply IH. by apply enable_masks.
  - apply IH. by apply disable_masks.
Qed.

End PicFacts.

(** ** The clock *)

Module Clock.

Definition LDAV_FSHIFT : Z := 11.
Definition LDAV_1 : Z := Z.shiftl 1 LDAV_FSHIFT.
Definition LDAV_TICKS : Z := TICK_RATE * 2.
Definition LDAV_EXP_1 : Z := 1981.
Definition LDAV_EXP_5 : Z := 2034.
Definition LDAV_EXP_15 : Z := 2043.

Record timer := Timer_ {
  jiffies : Z;
  isr_ticks : Z;
  ldavg_runnable : Z;
  avenrun : Z * Z * Z;
  ldavg_ticks : Z }.
#[export] Instance eta_timer : Eta timer := fun t =>
  Timer_ (jiffies t) (isr_ticks t) (ldavg_runnable t) (avenrun t) (ldavg_ticks t).

(** [trap_irq0()], with the length of the run queue. *)
Definition trap_irq0 (run_queue_len : Z) (t : timer) : timer :=
  t <| isr_ticks := u16 (isr_ticks t + 1) |> <| ldavg_runnable := run_queue_len |>.

(** [avenrun[i] *= e; avenrun[i] += run_fixp * (LDAV_1 - e); avenrun[i] >>= LDAV_FSHIFT]. *)
Definition average (e run_fixp a : Z) : Z :=
  let a := u32 (a * e) in
  let a := u32 (a + u32 (run_fixp * (LDAV_1 - e))) in
  Z.shiftr a LDAV_FSHIFT.

(** A pass of [timer_overflow_thread()] that found a tick: the ticks [oneshot_tick()] is
    called with. *)
Definition timer_pass (t : timer) : Z * timer :=
  let ticks := isr_ticks t in
  let t := t <| isr_ticks := 0 |> in
  let runnable := ldavg_runnable t in
  let t := t <| jiffies := u32 (jiffies t + ticks) |> in
  if ldavg_ticks t <=? ticks then
    let run_fixp := u32 ((runnable - 1) * LDAV_1) in
    let '(a1, a5, a15) := avenrun t in
    (ticks, t <| avenrun := (average LDAV_EXP_1 run_fixp a1, average LDAV_EXP_5 run_fixp a5, average LDAV_EXP_15 run_fixp a15) |>
              <| ldavg_ticks := LDAV_TICKS |>)
  else (ticks, t <| ldavg_ticks := u16 (ldavg_ticks t - ticks) |>).

Definition timer_get_jiffies (t : timer) : Z := jiffies t.

End Clock.

Module ClockFacts.
Import Clock.

(** With at most 255 contexts, one of which is the thread that counts, an average is a
    weighted mean and does not overflow. *)
Lemma average_mean e n a : 0 <= e <= LDAV_1 -> 1 <= n <= 255 -> 0 <= a <= 254 * LDAV_1 ->
  let f := (n - 1) * LDAV_1 in
  average e (u32 f) a = (a * e + f * (LDAV_1 - e)) / LDAV_1 /\ 0 <= average e (u32 f) a <= 254 * LDAV_1
  /\ Z.min a f <= average e (u32 f) a <= Z.max a f.
Proof.
  intros He Hn Ha f. unfold average, LDAV_FSHIFT. subst f. change LDAV_1 with 2048 in *. set (f := (n - 1) * 2048).
  assert (Hf : 0 <= f <= 254 * 2048) by lia.
  rewrite (u32_small f), (u32_small (a * e)), (u32_small (f * (2048 - e))) by nia.
  rewrite u32_small by nia. rewrite Z.shiftr_div_pow2 by lia. change (2 ^ 11) with 2048.
  assert (Hlo : Z.min a f * 2048 <= a * e + f * (2048 - e)) by nia.
  assert (Hhi : a * e + f * (2048 - e) <= Z.max a f * 2048) by nia.
  assert (Hd : Z.min a f <= (a * e + f * (2048 - e)) / 2048 <= Z.max a f).
  { split; [apply Z.div_le_lower_bound; lia|]. apply Z.div_le_upper_bound; lia. }
  split_and!; try lia.
Qed.

(** Interrupts and passes of the thread in any order: [Some n] is an interrupt with [n]
    contexts to run. *)
Definition clock_step (o : option Z) (t : timer) : timer :=
  match o with
  | Some n => trap_irq0 n t
  | None => if isr_ticks t =? 0 then t else (timer_pass t).2
  end.

Definition irqs (ops : list (option Z)) : Z := Z.of_nat (length (filter (fun o => is_Some o) ops)).

(** Between two passes there are fewer than 65536 interrupts. *)
Fixpoint prompt (left : Z) (ops : list (option Z)) : bool :=
  match ops with
  | [] => true
  | Some _ :: ops => (0 <? left) && prompt (left - 1) ops
  | None :: ops => prompt 65535 ops
  end.

Definition averages_ok (t : timer) : Prop :=
  let '(a1, a5, a15) := avenrun t in
  0 <= a1 <= 254 * LDAV_1 /\ 0 <= a5 <= 254 * LDAV_1 /\ 0 <= a15 <= 254 * LDAV_1.

Lemma clock_pass_averages t : 1 <= ldavg_runnable t <= 255 -> averages_ok t -> averages_ok (timer_pass t).2.
Proof.
  intros Hn Ha. unfold timer_pass, averages_ok in *. cbn [ldavg_ticks ldavg_runnable avenrun setter].
  destruct (ldavg_ticks t <=? isr_ticks t); cbn [snd avenrun setter]; [|by destruct (avenrun t) as [[? ?] ?]].
  destruct (avenrun t) as [[a1 a5] a15]. cbn [snd avenrun setter].
  split_and!; apply average_mean; unfold LDAV_EXP_1, LDAV_EXP_5, LDAV_EXP_15; (tauto || (change LDAV_1 with 2048; lia)).
Qed.

(** The clock counts every interrupt, and the averages stay weighted means of the number
    of other contexts that were ready. *)
Theorem clock_counts_interrupts ops t :
  Forall (fun o => forall n, o = Some n -> 1 <= n <= 255) ops -> prompt (65535 - isr_ticks t) ops = true ->
  0 <= isr_ticks t < 2 ^ 16 -> 1 <= ldavg_runnable t <= 255 -> averages_ok t -> 0 <= jiffies t < 2 ^ 32 ->
  let t' := foldl (fun t o => clock_step o t) t ops in
  averages_ok t' /\ u32 (jiffies t' + isr_ticks t') = u32 (jiffies t + isr_ticks t + irqs ops).
Proof.
  revert t. induction ops as [|[n|] ops IH]; intros t Hf Hp Ht Hr Ha Hj; cbn [foldl].
  - by rewrite Z.add_0_r.
  - apply Forall_cons in Hf as [Hn Hf]. cbn [prompt] in Hp. apply andb_true_iff in Hp as [H1 Hp]. apply Z.ltb_lt in H1.
    assert (Et : u16 (isr_ticks t + 1) = isr_ticks t + 1) by (apply u16_small; lia).
    destruct (IH (clock_step (Some n) t) Hf) as [I1 I2]; cbn [clock_step trap_irq0 isr_ticks ldavg_runnable jiffies setter];
      rewrite ?Et; [by replace (65535 - (isr_ticks t + 1)) with (65535 - isr_ticks t - 1) by lia|lia|by apply Hn|done|done|].
    split; [exact I1|]. etrans; [exact I2|]. cbn [clock_step trap_irq0 isr_ticks jiffies setter]. rewrite Et. f_equal.
    unfold irqs. rewrite filter_cons_True by (by eexists). cbn [length]. lia.
  - apply Forall_cons in Hf as [_ Hf]. cbn [prompt] in Hp. unfold irqs. rewrite filter_cons_False by (by intros []).
    fold (irqs ops). cbn [clock_step]. destruct (Z.eqb_spec (isr_ticks t) 0) as [E|E]; [apply IH; try done; by rewrite E|].
    assert (Hpass : isr_ticks (timer_pass t).2 = 0 /\ jiffies (timer_pass t).2 = u32 (jiffies t + isr_ticks t)
      /\ ldavg_runnable (timer_pass t).2 = ldavg_runnable t).
    { unfold timer_pass. cbn [ldavg_ticks avenrun setter]. destruct (_ <=? _); [|done]. by destruct (avenrun t) as [[? ?] ?]. }
    destruct Hpass as (P1 & P2 & P3).
    destruct (IH (timer_pass t).2 Hf) as [I1 I2]; [by rewrite P1|rewrite P1; lia|by rewrite P3|by apply clock_pass_averages
      |rewrite P2; apply Z.mod_pos_bound; lia|].
    split; [exact I1|]. etrans; [exact I2|]. rewrite P1, P2. unfold u32. rewrite Z.add_0_r. apply Zplus_mod_idemp_l.
Qed.

End ClockFacts.
