(* ===== verification/AvrUart.v ===== *)
(** * Serial port and clock of the AVR (src/test/mega103/srv/uart.c, timer0.c)

    The drivers of the ATmega103, on a model of its UART: one data register in each
    direction and a flag for each.  There is no FIFO, so every octet has an interrupt of
    its own.  The ring and the count of ticks are those of the PC, and [Uart.v] has the
    lemmas on them; the rest of timer0.c differs from timer.c in the load averages. *)

From stdpp Require Import base list gmap fin_maps strings.
From Stdlib Require Import ZArith Lia.
From S2P Require Import Prelude Uart.
Open Scope Z_scope.

Module AvrUart.

(** ** Registers *)

Definition UBRR : Z := 0x09.
Definition UCR : Z := 0x0a.
Definition USR : Z := 0x0b.
Definition UDR : Z := 0x0c.
Definition TXEN : Z := 3.
Definition RXEN : Z := 4.
Definition UDRIE : Z := 5.
Definition RXCIE : Z := 7.
Definition UDRE : Z := 5.
Definition RXC : Z := 7.
Definition BV (x : Z) : Z := Z.shiftl 1 x.

(** The octet that was received and not read, whether the transmitter takes an octet, the
    control register, the baud rate, the octets sent. *)
Record device := Device { rx : option Z; tx_ready : bool; ucr : Z; ubrr : Z; sent : list Z }.
#[export] Instance eta_device : Eta device := fun d => Device (rx d) (tx_ready d) (ucr d) (ubrr d) (sent d).

Definition in8 (reg : Z) (d : device) : Z * device :=
  if reg =? UDR then (default 0 (rx d), d <| rx := None |>)
  else if reg =? USR then
    (Z.lor (if bool_decide (is_Some (rx d)) then BV RXC else 0) (if tx_ready d then BV UDRE else 0), d)
  else if reg =? UCR then (ucr d, d)
  else if reg =? UBRR then (ubrr d, d)
  else (0, d).

Definition out8 (reg data : Z) (d : device) : device :=
  if reg =? UDR then d <| sent := sent d ++ [data] |> <| tx_ready := false |>
  else if reg =? UCR then d <| ucr := data |>
  else if reg =? UBRR then d <| ubrr := data |>
  else d.

(** An octet that arrives before the last one was read is lost. *)
Definition arrives (b : Z) (d : device) : device :=
  if Z.testbit (ucr d) RXEN then match rx d with Some _ => d | None => d <| rx := Some b |> end else d.

(** The two interrupts are raised as long as the flag and its enable bit are set. *)
Definition recv_raised (d : device) : bool := Z.testbit (ucr d) RXCIE && bool_decide (is_Some (rx d)).
Definition data_raised (d : device) : bool := Z.testbit (ucr d) UDRIE && tx_ready d.

(** ** The driver *)

Definition UART_RX_FIFO_DEPTH : Z := 16.

Record uart := Uart_ {
  dev : device;
  recv_fifo : list Z;
  recv_head : Z;
  recv_tail : Z;
  signalled : list Uart.signal  (* [isr_context_signal()] *) }.
#[export] Instance eta_uart : Eta uart := fun u => Uart_ (dev u) (recv_fifo u) (recv_head u) (recv_tail u) (signalled u).

Definition read8 (reg : Z) (u : uart) : Z * uart := let '(v, d) := in8 reg (dev u) in (v, u <| dev := d |>).
Definition write8 (reg data : Z) (u : uart) : uart := u <| dev := out8 reg data (dev u) |>.
Definition isr_context_signal (c : Uart.signal) (u : uart) : uart := u <| signalled := signalled u ++ [c] |>.

Definition uart_recv_isr (u : uart) : uart :=
  let '(data, u) := read8 UDR u in
  let u := u <| recv_fifo := <[Z.to_nat (recv_head u) := data]> (recv_fifo u) |> in
  let next := Z.land (recv_head u + 1) (UART_RX_FIFO_DEPTH - 1) in
  let u := if negb (next =? recv_tail u) then u <| recv_head := next |> else u in
  isr_context_signal Uart.recv_isr_ctx u.

(** The beginning of [uart_recv_intr_thread()]. *)
Definition recv_start (u : uart) : uart :=
  let '(v, u) := read8 UCR u in write8 UCR (Z.lor v (BV RXCIE)) u.

(** A pass of its inner loop up to the unlock: the octet for the client, or nothing when
    the thread waits. *)
Definition recv_take (u : uart) : option Z * uart :=
  if recv_tail u =? recv_head u then (None, u)
  else
    let ch := recv_fifo u !!! Z.to_nat (recv_tail u) in
    (Some ch, u <| recv_tail := Z.land (u8 (recv_tail u + 1)) (UART_RX_FIFO_DEPTH - 1) |>).

Definition uart_data_isr (u : uart) : uart :=
  let '(v, u) := read8 UCR u in
  let u := write8 UCR (u8 (Z.land v (Z.lnot (BV UDRIE)))) u in
  isr_context_signal Uart.data_isr_ctx u.

(** Sent, or waiting for [data_isr_ctx] to be signalled. *)
Definition uart_data_send_u8 (ch : Z) (u : uart) : bool * uart :=
  let '(v, u) := read8 USR u in
  if Z.land v (BV UDRE) =? 0 then
    let '(v, u) := read8 UCR u in
    (false, write8 UCR (Z.lor v (BV UDRIE)) u)
  else (true, write8 UDR ch u).

Definition uart_data_set_isr (u : uart) : uart :=
  let '(v, u) := read8 UCR u in write8 UCR (Z.lor v (BV UDRIE)) u.

(** The registers that [uart_instance_alloc()] sets; the Makefile chooses the baud rate. *)
Definition uart_instance_init (UART_BAUD_SELECT : Z) (u : uart) : uart :=
  write8 UBRR (u8 UART_BAUD_SELECT) (write8 UCR (Z.lor (BV RXEN) (BV TXEN)) u).

End AvrUart.

Module AvrUartFacts.
Import AvrUart.

(** ** The ring is that of the PC *)

Definition as_uart (u : uart) : Uart.uart :=
  Uart.Uart_ (Uart.Device [] false 0 []) (recv_fifo u) (recv_head u) (recv_tail u) [].

Definition avr_ring_ok (u : uart) : Prop := UartFacts.ring_ok (as_uart u).
Definition avr_content (u : uart) : list Z := UartFacts.content (as_uart u).

(** The handler reads the octet that was received and puts it in the ring. *)
Lemma recv_isr_ring b u : rx (dev u) = Some b -> avr_ring_ok u ->
  let u' := uart_recv_isr u in
  avr_ring_ok u' /\ avr_content u' = UartFacts.accept (avr_content u) b
  /\ dev u' = (dev u) <| rx := None |> /\ signalled u' = signalled u ++ [Uart.recv_isr_ctx].
Proof.
  intros Hb Hk u'. pose proof (UartFacts.ring_put_ok b _ Hk) as Hk'. pose proof (UartFacts.ring_put_content b _ Hk) as Hc.
  assert (E : as_uart u' = UartFacts.ring_put b (as_uart u)).
  { subst u'. unfold uart_recv_isr, read8, in8, UartFacts.ring_put. cbn. rewrite Hb. cbn. by destruct (_ =? _). }
  unfold avr_ring_ok, avr_content. rewrite E. split_and!; [done|done|..].
  all: subst u'; unfold uart_recv_isr, read8, in8; cbn; rewrite Hb; cbn; by destruct (_ =? _).
Qed.

Lemma avr_take_content u : avr_ring_ok u ->
  match avr_content u with
  | [] => recv_take u = (None, u)
  | b :: q => exists u', recv_take u = (Some b, u') /\ avr_ring_ok u' /\ avr_content u' = q /\ dev u' = dev u /\ signalled u' = signalled u
  end.
Proof.
  intros Hk. pose proof (UartFacts.recv_take_content _ Hk) as Ht. fold (avr_content u) in Ht.
  unfold Uart.recv_take in Ht. cbn [as_uart Uart.recv_tail Uart.recv_head Uart.recv_fifo] in Ht. unfold recv_take.
  destruct (avr_content u) as [|b q]; destruct (recv_tail u =? recv_head u); try done.
  - destruct Ht as (? & [=] & _).
  - destruct Ht as (v & [= Eb Ev] & Hk' & Hc & _). eexists. split; [by rewrite Eb|]. unfold avr_ring_ok, avr_content.
    subst v. split_and!; [exact Hk'|exact Hc|done|done].
Qed.

(** ** What the port promises *)

(** As for the PC, but at most one octet is pending. *)
Record port := Port {
  pending : option Z;
  queue : list Z;
  out : list Z;
  ready : bool;
  wanted : bool;
  sent_ : list Z;
  signals : list Uart.signal }.
#[export] Instance eta_avr_port : Eta port := fun p =>
  Port (pending p) (queue p) (out p) (ready p) (wanted p) (sent_ p) (signals p).

Inductive op := Arrive (b : Z) | TxDone | RecvIrq | DataIrq | Take | Send (ch : Z) | Set_isr.

Definition port_step (p : port) (o : op) : port :=
  match o with
  | Arrive b => p <| pending := Some (default b (pending p)) |>
  | TxDone => p <| ready := true |>
  | RecvIrq =>
    match pending p with
    | Some b => p <| pending := None |> <| queue := UartFacts.accept (queue p) b |> <| signals := signals p ++ [Uart.recv_isr_ctx] |>
    | None => p
    end
  | DataIrq => if wanted p && ready p then p <| wanted := false |> <| signals := signals p ++ [Uart.data_isr_ctx] |> else p
  | Take => match queue p with [] => p | b :: q => p <| queue := q |> <| out := out p ++ [b] |> end
  | Send ch => if ready p then p <| sent_ := sent_ p ++ [ch] |> <| ready := false |> else p <| wanted := true |>
  | Set_isr => p <| wanted := true |>
  end.

(** The driver; the octets handed over are collected beside it. *)
Definition uart_step (s : uart * list Z) (o : op) : uart * list Z :=
  let '(u, got) := s in
  match o with
  | Arrive b => (u <| dev := arrives b (dev u) |>, got)
  | TxDone => (u <| dev := (dev u) <| tx_ready := true |> |>, got)
  | RecvIrq => (if recv_raised (dev u) then uart_recv_isr u else u, got)
  | DataIrq => (if data_raised (dev u) then uart_data_isr u else u, got)
  | Take => let '(ch, u) := recv_take u in (u, got ++ from_option (fun c => [c]) [] ch)
  | Send ch => ((uart_data_send_u8 ch u).2, got)
  | Set_isr => (uart_data_set_isr u, got)
  end.

(** The receiver is on and its interrupt is enabled. *)
Definition receiver_on (v : Z) : Prop := 0 <= v < 256 /\ Z.testbit v RXEN = true /\ Z.testbit v RXCIE = true.

Definition shows (s : uart * list Z) (p : port) : Prop :=
  let d := dev s.1 in
  avr_ring_ok s.1 /\ receiver_on (ucr d)
  /\ p = Port (rx d) (avr_content s.1) s.2 (tx_ready d) (Z.testbit (ucr d) UDRIE) (sent d) (signalled s.1).

Lemma lor_byte a b : 0 <= a < 256 -> 0 <= b < 256 -> 0 <= Z.lor a b < 256.
Proof.
  intros Ha Hb. split; [apply Z.lor_nonneg; lia|]. destruct (decide (Z.lor a b = 0)) as [->|Hn]; [done|].
  apply (Z.log2_lt_pow2 _ 8); [assert (0 <= Z.lor a b) by (apply Z.lor_nonneg; lia); lia|]. rewrite Z.log2_lor by lia.
  assert (forall x, 0 <= x < 256 -> Z.log2 x < 8); [|by apply Z.max_lub_lt; auto].
  intros x Hx. destruct (decide (x = 0)) as [->|]; [done|]. by apply Z.log2_lt_pow2; lia.
Qed.

(** Asking for the transmitter's interrupt, and turning it off. *)
Lemma data_enable v : receiver_on v -> receiver_on (Z.lor v (BV UDRIE)) /\ Z.testbit (Z.lor v (BV UDRIE)) UDRIE = true.
Proof.
  intros (Hv & H1 & H2). split; [split; [|split]|].
  - apply lor_byte; [done|]. change (BV UDRIE) with 32. lia.
  - by rewrite Z.lor_spec, H1.
  - by rewrite Z.lor_spec, H2.
  - rewrite Z.lor_spec. apply orb_true_r.
Qed.

Lemma data_disable v : receiver_on v ->
  let w := u8 (Z.land v (Z.lnot (BV UDRIE))) in receiver_on w /\ Z.testbit w UDRIE = false.
Proof.
  intros (Hv & H1 & H2) w. assert (Hw : forall i, 0 <= i < 8 -> Z.testbit w i = Z.testbit v i && negb (Z.testbit (BV UDRIE) i)).
  { intros i Hi. subst w. unfold u8. rewrite Z.mod_pow2_bits_low by lia. by rewrite Z.land_spec, Z.lnot_spec by lia. }
  split; [split; [|split]|].
  - apply Z.mod_pos_bound. lia.
  - rewrite Hw by done. by rewrite H1.
  - rewrite Hw by done. by rewrite H2.
  - rewrite Hw by done. apply andb_false_r.
Qed.

Lemma avr_step_shows o s p : shows s p -> shows (uart_step s o) (port_step p o).
Proof.
  destruct s as [u got]. intros (Hk & Hl & ->). cbn [fst snd] in *. pose proof Hl as (Hv & H1 & H2).
  destruct o as [b| | | | |ch|]; cbn [uart_step port_step].
  - unfold arrives. rewrite H1. destruct (rx (dev u)) as [c|] eqn:E; (split; [done|split; [done|]]); cbn; by rewrite ?E.
  - by split.
  - unfold recv_raised. rewrite H2. cbn [pending]. destruct (rx (dev u)) as [c|] eqn:E; cbn [andb].
    + rewrite bool_decide_eq_true_2 by by eexists. destruct (recv_isr_ring c u E Hk) as (K & C & D & S).
      split; [done|]. cbn [fst snd]. rewrite C, D, S. done.
    + rewrite bool_decide_eq_false_2 by by intros []. split; [done|]. split; [done|]. cbn. by rewrite E.
  - unfold data_raised. cbn [wanted ready]. destruct (_ && _) eqn:Eb; [|done].
    destruct (data_disable _ Hl) as [D1 D2]. split; [done|]. split; [done|]. 
    exact (f_equal (fun w => Port (rx (dev u)) (avr_content u) got (tx_ready (dev u)) w (sent (dev u)) (signalled u ++ [Uart.data_isr_ctx])) (eq_sym D2)).
  - pose proof (avr_take_content u Hk) as Ht. cbn [queue]. destruct (avr_content u) as [|b q] eqn:Ec.
    + rewrite Ht. split; [done|]. split; [done|]. cbn. by rewrite Ec, app_nil_r.
    + destruct Ht as (u' & -> & Hk' & Hc & Hd & Hs). split; [done|]. cbn. rewrite Hd, Hc, Hs. done.
  - unfold uart_data_send_u8, read8, in8. cbn. assert (E : (Z.land (Z.lor (if bool_decide (is_Some (rx (dev u))) then BV RXC else 0) (if tx_ready (dev u) then BV UDRE else 0)) (BV UDRE) =? 0)
      = negb (tx_ready (dev u))) by (case_bool_decide; by destruct (tx_ready (dev u))).
    rewrite E. destruct (tx_ready (dev u)) eqn:Et; cbn [negb]; [done|]. destruct (data_enable _ Hl) as [D1 D2].
    split; [done|]. split; [done|]. 
    exact (f_equal2 (fun r w => Port (rx (dev u)) (avr_content u) got r w (sent (dev u)) (signalled u)) (eq_sym Et) (eq_sym D2)).
  - destruct (data_enable _ Hl) as [D1 D2]. split; [done|]. split; [done|].
    exact (f_equal (fun w => Port (rx (dev u)) (avr_content u) got (tx_ready (dev u)) w (sent (dev u)) (signalled u)) (eq_sym D2)).
Qed.

(** The driver of the AVR keeps the promise of the PC's, an interrupt for each octet: for
    every order of octets that arrive, interrupts, passes of the receiving thread and octets
    to send, the client gets the octets of the data register in order and once each,
    except for those that find fifteen in the ring; the sender that waits is signalled by
    the first interrupt after the transmitter is ready, which is then turned off. *)
Theorem avr_uart_refines_port ops s p : shows s p -> shows (foldl uart_step s ops) (foldl port_step p ops).
Proof. revert s p. induction ops as [|o ops IH]; intros s p Hs; [done|]. by apply IH, avr_step_shows. Qed.

(** The initialisation turns the receiver on, the thread asks for its interrupt. *)
Lemma avr_uart_starts baud u : avr_ring_ok u -> recv_head u = recv_tail u ->
  shows (recv_start (uart_instance_init baud u), [])
    (Port (rx (dev u)) [] [] (tx_ready (dev u)) false (sent (dev u)) (signalled u)).
Proof.
  intros Hk He. split; [done|]. split; [by vm_compute|]. cbn. unfold avr_content, UartFacts.content, UartFacts.used. cbn.
  by rewrite He, Z.sub_diag.
Qed.

(** If every octet is read before the next one arrives and is taken while the ring has
    room, none is lost. *)
Fixpoint prompt (ops : list op) (p : port) : Prop :=
  match ops with
  | [] => True
  | o :: ops =>
    match o with Arrive _ => pending p = None | RecvIrq => (length (queue p) < 15)%nat | _ => True end
    /\ prompt ops (port_step p o)
  end.

Definition arrivals (ops : list op) : list Z := omap (fun o => match o with Arrive b => Some b | _ => None end) ops.

Definition received (p : port) : list Z := out p ++ queue p ++ option_list (pending p).

Lemma prompt_octets_arrive ops p : prompt ops p -> received (foldl port_step p ops) = received p ++ arrivals ops.
Proof.
  revert p. induction ops as [|o ops IH]; intros p Hp; cbn [foldl].
  { unfold arrivals. cbn. by rewrite app_nil_r. }
  destruct Hp as [Ho Hp]. rewrite IH by done. unfold received, arrivals. destruct o as [b| | | | |ch|]; cbn [port_step omap list_omap].
  - cbn. rewrite Ho. cbn. by rewrite !app_nil_r, <-!app_assoc.
  - done.
  - destruct (pending p) as [b|] eqn:E; [|by rewrite ?E]. cbn. unfold UartFacts.accept.
    replace (length (queue p) =? 15)%nat with false by (symmetry; apply Nat.eqb_neq; lia). by rewrite app_nil_r.
  - by destruct (wanted p && ready p).
  - destruct (queue p) as [|b q] eqn:E; [by rewrite E|]. cbn. rewrite <-!app_assoc. cbn. by rewrite <-!app_assoc.
  - by destruct (ready p).
  - done.
Qed.

(** From the start, then, the client and the ring have exactly what arrived. *)
Theorem avr_uart_loses_nothing ops baud u :
  avr_ring_ok u -> recv_head u = recv_tail u -> rx (dev u) = None ->
  prompt ops (Port None [] [] (tx_ready (dev u)) false (sent (dev u)) (signalled u)) ->
  let s := foldl uart_step (recv_start (uart_instance_init baud u), []) ops in
  s.2 ++ avr_content s.1 ++ option_list (rx (dev s.1)) = arrivals ops.
Proof.
  intros Hk He Hr Hp s. pose proof (avr_uart_starts baud u Hk He) as H0. rewrite Hr in H0.
  destruct (avr_uart_refines_port ops _ _ H0) as (_ & _ & E). apply (f_equal received) in E.
  rewrite prompt_octets_arrive in E by done. exact (eq_sym E).
Qed.

End AvrUartFacts.

(** ** The clock *)

Module AvrClock.
Import Clock.

Definition TCNT0 : Z := 0x32.
Definition TCCR0 : Z := 0x33.
Definition TIMSK : Z := 0x37.
Definition TOIE0 : Z := 0.

(** The counts of the driver, and the registers it has written. *)
Record timer0 := Timer0 { clock : timer; regs : gmap Z Z }.
#[export] Instance eta_timer0 : Eta timer0 := fun t => Timer0 (clock t) (regs t).

Definition out8 (reg v : Z) (t : timer0) : timer0 := t <| regs := <[reg := v]> (regs t) |>.

Definition timer_init (t : timer0) : timer0 := out8 TCNT0 100 (out8 TCCR0 6 t).

(** [timer0_overflow_isr()], with the length of the run queue. *)
Definition timer0_overflow_isr (run_queue_len : Z) (t : timer0) : timer0 :=
  let t := out8 TCNT0 100 t in
  t <| clock := (clock t) <| isr_ticks := u16 (isr_ticks (clock t) + 1) |> <| ldavg_runnable := run_queue_len |> |>.

(** The beginning of [timer0_overflow_thread()]. *)
Definition timer0_start (t : timer0) : timer0 := out8 TIMSK (AvrUart.BV TOIE0) t.

(** A pass that found a tick: the ticks [oneshot_tick()] is called with. *)
Definition timer0_pass (t : timer0) : Z * timer0 :=
  let c := clock t in
  let ticks := isr_ticks c in
  let c := c <| isr_ticks := 0 |> in
  let runnable := ldavg_runnable c in
  let c := c <| jiffies := u32 (jiffies c + ticks) |> in
  if ldavg_ticks c <=? ticks then
    let run_fixp := u32 ((runnable - 1) * LDAV_1) in
    let '(a1, a5, a15) := avenrun c in
    (ticks, t <| clock := c <| avenrun := (average LDAV_EXP_1 run_fixp a1, a5, a15) |>
                            <| ldavg_ticks := LDAV_TICKS |> |>)
  else (ticks, t <| clock := c <| ldavg_ticks := u16 (ldavg_ticks c - ticks) |> |>).

Definition timer_get_jiffies (t : timer0) : Z := jiffies (clock t).

End AvrClock.

Module AvrClockFacts.
Import Clock AvrClock.

Definition avr_clock_step (t : timer0) (o : option Z) : timer0 :=
  match o with
  | Some n => timer0_overflow_isr n t
  | None => if isr_ticks (clock t) =? 0 then t else (timer0_pass t).2
  end.

(** The clock of the PC, except that the averages over five and fifteen minutes are those
    of the beginning. *)
Definition same_clock (a5 a15 : Z) (t : timer0) (c : timer) : Prop :=
  clock t = c <| avenrun := ((avenrun c).1.1, a5, a15) |>.

Lemma avr_step_same a5 a15 o t c : same_clock a5 a15 t c -> same_clock a5 a15 (avr_clock_step t o) (ClockFacts.clock_step o c).
Proof.
  intros E. destruct o as [n|]; cbn [avr_clock_step ClockFacts.clock_step]; unfold same_clock in *.
  - unfold timer0_overflow_isr. cbn. by rewrite E.
  - rewrite E. cbn. destruct (isr_ticks c =? 0); [done|]. unfold timer0_pass, timer_pass. rewrite E. cbn.
    destruct (avenrun c) as [[b1 b5] b15] eqn:Ea. cbn. destruct (_ <=? _); cbn; [done|]. by rewrite Ea.
Qed.

(** For every order of interrupts and passes of the thread the AVR counts the ticks and
    computes the one-minute average as the PC does, so [clock_counts_interrupts] holds of it
    too.  The other two averages never change: [timer_dump_stats()] reports zero. *)
Theorem avr_clock_is_clock ops t : let '(_, a5, a15) := avenrun (clock t) in
  same_clock a5 a15 (foldl avr_clock_step t ops) (foldl (fun c o => ClockFacts.clock_step o c) (clock t) ops).
Proof.
  destruct (avenrun (clock t)) as [[a1 a5] a15] eqn:Ea.
  assert (H0 : same_clock a5 a15 t (clock t)) by (unfold same_clock; destruct t as [[]]; cbn in *; by rewrite Ea).
  clear Ea. revert H0. generalize (clock t) as c. revert t. induction ops as [|o ops IH]; intros t c Hs; [done|].
  by apply IH, avr_step_same.
Qed.

End AvrClockFacts.
