(* ===== verification/BbI2c.v ===== *)
(** * The bit-banged I2C bus

    bbi2c.c and avr/bbi2c.h of the ATmega103: transfers to and from a device on a bus of
    two wires that the driver moves one level at a time.  A wire that nobody pulls low is
    high; the driver pulls a wire by making its pin an output.

    The other end of the wires is [slave], the part of the I2C protocol that every device
    has: it recognises start and stop, collects and sends bits, and acknowledges.  What a
    device does with the bytes is a parameter, [I2cDevice].  The theorem says that the
    driver's transfers are transfers of bytes to the device, whatever the device. *)

From stdpp Require Import base list gmap fin_maps.
From Stdlib Require Import ZArith Lia.
From S2P Require Import Prelude.
Open Scope Z_scope.
#[local] Arguments Z.testbit : simpl never.
#[local] Arguments Z.pow : simpl never.

(** ** Devices *)

(** [d_call v]: the byte [v] after a start, an address and in bit 0 the direction; does
    the device answer?  [d_put v]: it is given [v]; does it take it?  [d_get]: the next
    byte it sends.  [d_stop]: the end of the transfer. *)
Class I2cDevice (D : Type) := {
  d_call : Z -> D -> bool * D;
  d_put : Z -> D -> bool * D;
  d_get : D -> Z * D;
  d_stop : D -> D
}.

Section bus.
Context {D : Type} `{I2cDevice D}.

(** [Receive a n v]: [n] bits of a byte have come, [v] so far; [a] if it is the address.
    [Acking ack rd]: the byte is acknowledged, or not; then the device sends if [rd].
    [Send v n]: it sends bit [7 - n] of [v].  [Acked b]: it has sent a byte and looks for
    the answer, [b] is the level it saw. *)
Inductive phase := Idle | Receive (a : bool) (n : nat) (v : Z) | Acking (ack rd : bool) | Send (v : Z) (n : nat) | Acked (b : bool).

Record slave := Slave { s_phase : phase; s_dev : D }.

(** Whether the device lets SDA go. *)
Definition releases (s : slave) : bool :=
  match s_phase s with
  | Acking ack _ => negb ack
  | Send v n => Z.testbit v (7 - Z.of_nat n)
  | _ => true
  end.

Definition byte_done (a : bool) (v : Z) (d : D) : slave :=
  if a then let '(ack, d) := d_call v d in Slave (Acking ack (Z.odd v)) d
  else let '(ack, d) := d_put v d in Slave (Acking ack false) d.

(** The clock has fallen after [n] bits. *)
Definition received (a : bool) (n : nat) (v : Z) (d : D) : slave :=
  if (n =? 8)%nat then byte_done a v d else Slave (Receive a n v) d.

Definition send_next_byte (d : D) : slave := let '(v, d) := d_get d in Slave (Send v 0) d.

Definition clock_rises (sda : bool) (s : slave) : slave :=
  match s_phase s with
  | Receive a n v => Slave (Receive a (S n) (2 * v + Z.b2z sda)) (s_dev s)
  | Acked _ => Slave (Acked sda) (s_dev s)
  | _ => s
  end.

Definition clock_falls (s : slave) : slave :=
  match s_phase s with
  | Idle => s
  | Receive a n v => received a n v (s_dev s)
  | Acking ack rd => if negb ack then Slave Idle (s_dev s) else if rd then send_next_byte (s_dev s) else Slave (Receive false 0 0) (s_dev s)
  | Send v n => if (n =? 7)%nat then Slave (Acked true) (s_dev s) else Slave (Send v (S n)) (s_dev s)
  | Acked b => if b then Slave Idle (s_dev s) else send_next_byte (s_dev s)
  end.

(** The wires change from [sda], [scl] to [sda'], [scl'].  SDA changes while the clock is
    high only for a start and a stop. *)
Definition sees (sda scl sda' scl' : bool) (s : slave) : slave :=
  match scl, scl' with
  | false, true => clock_rises sda' s
  | true, false => clock_falls s
  | true, true =>
    if sda && negb sda' then Slave (Receive true 0 0) (s_dev s)
    else if negb sda && sda' then Slave Idle (d_stop (s_dev s))
    else s
  | false, false => s
  end.

(** ** The driver *)

(** The memory of the processor, the registers of port D, the device, and the time spent
    waiting, in instructions. *)
Record machine := Machine { ram : mem; ddrd : Z; portd : Z; wire : slave; waited : Z }.
#[export] Instance eta_machine : Eta machine := fun x => Machine (ram x) (ddrd x) (portd x) (wire x) (waited x).

Definition B (A : Type) : Type := machine -> A * machine.
#[export] Instance B_ret : MRet B := fun A a b => (a, b).
#[export] Instance B_bind : MBind B := fun A C f m b => let '(a, b) := m b in f a b.

(** The levels of the pins. *)
Definition sda (b : machine) : bool := if Z.testbit (ddrd b) 7 then Z.testbit (portd b) 7 else releases (wire b).
Definition scl (b : machine) : bool := if Z.testbit (ddrd b) 6 then Z.testbit (portd b) 6 else true.

(** A change of the registers shows on the wires. *)
Definition change (f : machine -> machine) : B unit := fun b =>
  let b' := f b in (tt, b' <| wire := sees (sda b) (scl b) (sda b') (scl b') (wire b) |>).

Definition bbi2c_short_delay : B unit := fun b => (tt, b <| waited := waited b + 2 |>).
Definition bbi2c_long_delay : B unit := bbi2c_short_delay;; bbi2c_short_delay.

Definition bbi2c_init : B unit :=
  change (fun b => b <| portd := Z.land (portd b) 0x3f |>);;
  change (fun b => b <| ddrd := Z.land (ddrd b) 0x3f |>).

Definition bbi2c_write_sda (v : Z) : B unit :=
  if negb (v =? 0) then change (fun b => b <| ddrd := Z.clearbit (ddrd b) 7 |>)
  else change (fun b => b <| ddrd := Z.setbit (ddrd b) 7 |>).

Definition bbi2c_read_sda : B Z := fun b => (if sda b then Z.shiftl 1 7 else 0, b).

Definition bbi2c_write_scl (v : Z) : B unit :=
  if negb (v =? 0) then change (fun b => b <| ddrd := Z.clearbit (ddrd b) 6 |>)
  else change (fun b => b <| ddrd := Z.setbit (ddrd b) 6 |>).

Definition I2C_DIR_READ : Z := 1.
Definition I2C_DIR_WRITE : Z := 0.
Definition I2C_ACK_MORE : Z := 0.
Definition I2C_ACK_DONE : Z := 1.

(** The loop of [bbi2c_write_byte]; [mask] has a bit for eight passes. *)
Fixpoint write_bits (passes : nat) (val mask : Z) : B unit :=
  match passes with
  | O => mret tt
  | S passes =>
    bbi2c_write_sda (Z.land val mask);;
    bbi2c_short_delay;;
    bbi2c_write_scl 1;;
    bbi2c_long_delay;;
    bbi2c_write_scl 0;;
    bbi2c_long_delay;;
    write_bits passes val (Z.shiftr mask 1)
  end.

Definition bbi2c_write_byte (val : Z) : B Z :=
  write_bits 8 val 0x80;;
  bbi2c_write_sda 1;;
  bbi2c_short_delay;;
  bbi2c_write_scl 1;;
  bbi2c_long_delay;;
  r ← bbi2c_read_sda;
  bbi2c_write_scl 0;;
  bbi2c_short_delay;;
  mret (if r =? 0 then 1 else 0).

Fixpoint read_bits (passes : nat) (val mask : Z) : B Z :=
  match passes with
  | O => mret val
  | S passes =>
    bbi2c_write_scl 1;;
    bbi2c_long_delay;;
    r ← bbi2c_read_sda;
    let val := Z.lor val (if negb (r =? 0) then mask else 0) in
    bbi2c_write_scl 0;;
    bbi2c_long_delay;;
    read_bits passes val (Z.shiftr mask 1)
  end.

Definition bbi2c_read_byte (ack_bit : Z) : B Z :=
  bbi2c_write_sda 1;;
  bbi2c_short_delay;;
  val ← read_bits 8 0 0x80;
  bbi2c_write_sda ack_bit;;
  bbi2c_short_delay;;
  bbi2c_write_scl 1;;
  bbi2c_long_delay;;
  bbi2c_write_scl 0;;
  bbi2c_short_delay;;
  mret val.

Definition bbi2c_start (slave : Z) : B Z :=
  bbi2c_write_sda 1;;
  bbi2c_short_delay;;
  bbi2c_write_scl 1;;
  bbi2c_long_delay;;
  bbi2c_write_sda 0;;
  bbi2c_long_delay;;
  bbi2c_write_scl 0;;
  bbi2c_long_delay;;
  bbi2c_write_byte slave.

Definition bbi2c_stop : B unit :=
  bbi2c_write_sda 0;;
  bbi2c_short_delay;;
  bbi2c_write_scl 1;;
  bbi2c_long_delay;;
  bbi2c_write_sda 1;;
  bbi2c_long_delay.

Definition peek (p : Z) : B Z := fun b => (load8 (ram b) p, b).
Definition poke (p v : Z) : B unit := fun b => (tt, b <| ram := store8 (ram b) p v |>).

(** [n] more bytes, each acknowledged. *)
Fixpoint read_more (n : nat) (buf : Z) : B Z :=
  match n with
  | O => mret buf
  | S n =>
    v ← bbi2c_read_byte I2C_ACK_MORE;
    poke buf v;;
    read_more n (buf + 1)
  end.

(** [retries] attempts are left. *)
Fixpoint read_try (retries : nat) (addr offs buf count : Z) : B Z :=
  match retries with
  | O => mret (-1)
  | S retries =>
    let again := bbi2c_stop;; read_try retries addr offs buf count in
    ok ← bbi2c_start (Z.lor addr I2C_DIR_WRITE);
    if negb (ok =? 0) then
      ok ← bbi2c_write_byte offs;
      if negb (ok =? 0) then
        ok ← bbi2c_start (Z.lor addr I2C_DIR_READ);
        if negb (ok =? 0) then
          buf ← read_more (Z.to_nat (count - 1)) buf;
          v ← bbi2c_read_byte I2C_ACK_DONE;
          poke buf v;;
          bbi2c_stop;;
          mret 0
        else again
      else again
    else again
  end.

Definition bbi2c_read (addr offs buf count : Z) : B Z := read_try 4 addr offs buf count.

(** The byte at [p], then [n] more as long as they are acknowledged. *)
Fixpoint write_block (n : nat) (p : Z) : B Z :=
  v ← peek p;
  ack ← bbi2c_write_byte v;
  match n with
  | S n => if negb (ack =? 0) then write_block n (p + 1) else mret ack
  | O => mret ack
  end.

Fixpoint write_try (retries : nat) (addr offs buf count : Z) : B Z :=
  match retries with
  | O => mret (-1)
  | S retries =>
    let again := bbi2c_stop;; write_try retries addr offs buf count in
    ok ← bbi2c_start (Z.lor addr I2C_DIR_WRITE);
    if negb (ok =? 0) then
      ok ← bbi2c_write_byte offs;
      if negb (ok =? 0) then
        ack ← write_block (Z.to_nat (count - 1)) buf;
        if negb (ack =? 0) then
          bbi2c_stop;;
          mret 0
        else again
      else again
    else again
  end.

Definition bbi2c_write (addr offs buf count : Z) : B Z := write_try 4 addr offs buf count.

(** ** Transfers of bytes *)

(** [bytes] are given until one is refused. *)
Fixpoint put_all (bytes : list Z) (d : D) : bool * D :=
  match bytes with
  | [] => (true, d)
  | v :: bytes => let '(ack, d) := d_put v d in if ack then put_all bytes d else (false, d)
  end.

Fixpoint get_all (n : nat) (d : D) : list Z * D :=
  match n with
  | O => ([], d)
  | S n => let '(v, d) := d_get d in let '(l, d) := get_all n d in (u8 v :: l, d)
  end.

(** The device at [addr] is told the offset, then given [bytes]. *)
Definition put_attempt (addr offs : Z) (bytes : list Z) (d : D) : option unit * D :=
  let '(ack, d) := d_call addr d in
  if negb ack then (None, d) else
  let '(ack, d) := put_all (offs :: bytes) d in
  (if ack then Some tt else None, d).

(** The device is told the offset, called again, and asked for [n] bytes. *)
Definition get_attempt (addr offs : Z) (n : nat) (d : D) : option (list Z) * D :=
  let '(ack, d) := d_call addr d in
  if negb ack then (None, d) else
  let '(ack, d) := d_put offs d in
  if negb ack then (None, d) else
  let '(ack, d) := d_call (addr + 1) d in
  if negb ack then (None, d) else
  let '(l, d) := get_all n d in (Some l, d).

(** At most [n] attempts, a stop after each. *)
Fixpoint attempts {A} (n : nat) (f : D -> option A * D) (d : D) : option A * D :=
  match n with
  | O => (None, d)
  | S n => let '(r, d) := f d in match r with Some a => (Some a, d_stop d) | None => attempts n f (d_stop d) end
  end.

(** ** What the wires do *)

(** Whether the driver lets SDA and SCL go, and the device. *)
Record lines := Lines { l_sda : bool; l_scl : bool; l_slave : slave }.

Definition set_sda (v : bool) (l : lines) : lines :=
  Lines v (l_scl l) (sees (l_sda l && releases (l_slave l)) (l_scl l) (v && releases (l_slave l)) (l_scl l) (l_slave l)).
Definition set_scl (v : bool) (l : lines) : lines :=
  let a := l_sda l && releases (l_slave l) in Lines (l_sda l) v (sees a (l_scl l) a v (l_slave l)).

(** A machine with memory [m] whose pins, which never drive a wire high, show [l]. *)
Record shows (m : mem) (l : lines) (b : machine) : Prop := {
  sh_ram : ram b = m;
  sh_high : Z.testbit (portd b) 7 = false;
  sh_high' : Z.testbit (portd b) 6 = false;
  sh_lines : l = Lines (negb (Z.testbit (ddrd b) 7)) (negb (Z.testbit (ddrd b) 6)) (wire b)
}.

(** [op] returns [a] and takes [m], [l] to [m'], [l']. *)
Definition does {A} (op : B A) (m : mem) (l : lines) (a : A) (m' : mem) (l' : lines) : Prop :=
  forall b, shows m l b -> exists b', op b = (a, b') /\ shows m' l' b'.

Lemma does_bind {A C} (op : B A) (k : A -> B C) m l a m1 l1 c m2 l2 :
  does op m l a m1 l1 -> does (k a) m1 l1 c m2 l2 -> does (op ≫= k) m l c m2 l2.
Proof.
  intros H1 H2 b Hb. destruct (H1 b Hb) as (b1 & E1 & Hb1). destruct (H2 b1 Hb1) as (b2 & E2 & Hb2).
  exists b2. split; [|done]. unfold mbind, B_bind. by rewrite E1.
Qed.

Lemma does_ret {A} (a : A) m l : does (mret a) m l a m l.
Proof. intros b Hb. by exists b. Qed.

Lemma does_short m l : does bbi2c_short_delay m l tt m l.
Proof. intros b []. eexists. split; [reflexivity|]. by constructor. Qed.

Lemma does_long m l : does bbi2c_long_delay m l tt m l.
Proof. eapply does_bind; apply does_short. Qed.

(** The level of a wire: somebody pulls, or nobody does. *)
Lemma level_sda m l b : shows m l b -> sda b = l_sda l && releases (l_slave l).
Proof. intros [_ Hh _ ->]. unfold sda. cbn. destruct (Z.testbit (ddrd b) 7); cbn; congruence. Qed.
Lemma level_scl m l b : shows m l b -> scl b = l_scl l.
Proof. intros [_ _ Hh ->]. unfold scl. cbn. destruct (Z.testbit (ddrd b) 6); cbn; congruence. Qed.

Lemma does_ddrd (f : Z -> Z) m l s' c' : (forall z, Z.testbit (f z) 7 = negb (s' (negb (Z.testbit z 7))) /\ Z.testbit (f z) 6 = negb (c' (negb (Z.testbit z 6)))) ->
  does (change (fun b => b <| ddrd := f (ddrd b) |>)) m l tt m
    (Lines (s' (l_sda l)) (c' (l_scl l)) (sees (l_sda l && releases (l_slave l)) (l_scl l) (s' (l_sda l) && releases (l_slave l)) (c' (l_scl l)) (l_slave l))).
Proof.
  intros Hf b Hb. pose proof (level_sda _ _ _ Hb) as Es. pose proof (level_scl _ _ _ Hb) as Ec. destruct Hb as [Hm Hh Hh' ->].
  destruct (Hf (ddrd b)) as [F7 F6]. eexists. split; [reflexivity|]. constructor; [done..|]. unfold change. rewrite Es, Ec. cbn.
  unfold sda, scl. cbn. rewrite F7, F6, Hh, Hh', !negb_involutive.
  destruct (s' _), (c' _); reflexivity.
Qed.

Lemma does_sda v m l : does (bbi2c_write_sda v) m l tt m (set_sda (negb (v =? 0)) l).
Proof.
  unfold bbi2c_write_sda. destruct (negb (v =? 0)).
  - apply (does_ddrd (fun z => Z.clearbit z 7) m l (fun _ => true) id). intros z. unfold id. by rewrite Z.clearbit_eq, Z.clearbit_neq, negb_involutive.
  - apply (does_ddrd (fun z => Z.setbit z 7) m l (fun _ => false) id). intros z. unfold id. by rewrite Z.setbit_eq, Z.setbit_neq, negb_involutive.
Qed.

Lemma does_scl v m l : does (bbi2c_write_scl v) m l tt m (set_scl (negb (v =? 0)) l).
Proof.
  unfold bbi2c_write_scl. destruct (negb (v =? 0)).
  - apply (does_ddrd (fun z => Z.clearbit z 6) m l id (fun _ => true)). intros z. unfold id. by rewrite Z.clearbit_eq, Z.clearbit_neq, negb_involutive.
  - apply (does_ddrd (fun z => Z.setbit z 6) m l id (fun _ => false)). intros z. unfold id. by rewrite Z.setbit_eq, Z.setbit_neq, negb_involutive.
Qed.

Lemma does_read_sda m l : does bbi2c_read_sda m l (if l_sda l && releases (l_slave l) then 128 else 0) m l.
Proof. intros b Hb. exists b. split; [|done]. unfold bbi2c_read_sda. by rewrite (level_sda _ _ _ Hb). Qed.

Lemma does_peek p m l : does (peek p) m l (load8 m p) m l.
Proof. intros b Hb. exists b. split; [|done]. unfold peek. by rewrite (sh_ram _ _ _ Hb). Qed.

Lemma does_poke p v m l : does (poke p v) m l tt (store8 m p v) l.
Proof. intros b [<- ? ? ?]. eexists. split; [reflexivity|]. by constructor. Qed.

(** One wire operation after the other. *)
Ltac wires := repeat first
  [eapply does_bind; [first [apply does_sda|apply does_short|apply does_scl|apply does_long|apply does_read_sda]|]].
Ltac settle :=
  unfold set_sda, set_scl; cbn [l_sda l_scl l_slave Z.eqb negb sees clock_rises clock_falls s_phase s_dev releases andb].

(** ** Bytes *)

(** The clock is low and the driver's side of SDA is unknown. *)
Definition between (op : B Z) (m : mem) (s : slave) (a : Z) (m' : mem) (s' : slave) : Prop :=
  forall c, exists c', does op m (Lines c false s) a m' (Lines c' false s').

Lemma mask_bit val k : negb (Z.land val (2 ^ Z.of_nat k) =? 0) = Z.testbit val (Z.of_nat k).
Proof.
  destruct (Z.eqb_spec (Z.land val (2 ^ Z.of_nat k)) 0) as [E|E]; cbn [negb].
  - symmetry. assert (Hb : Z.testbit (Z.land val (2 ^ Z.of_nat k)) (Z.of_nat k) = false) by by rewrite E, Z.testbit_0_l.
    rewrite Z.land_spec, Z.pow2_bits_true, andb_true_r in Hb by lia. done.
  - destruct (Z.testbit val (Z.of_nat k)) eqn:Hb; [done|]. destruct E. apply Z.bits_inj_0. intros j. rewrite Z.land_spec.
    destruct (decide (j = Z.of_nat k)) as [->|]; [by rewrite Hb|]. rewrite Z.pow2_bits_false by done. apply andb_false_r.
Qed.

Lemma half_mask k : Z.shiftr (2 ^ Z.of_nat (S k)) 1 = 2 ^ Z.of_nat k.
Proof. rewrite Z.shiftr_div_pow2 by lia. replace (Z.of_nat (S k)) with (Z.of_nat k + 1) by lia. rewrite Z.pow_add_r by lia. apply Z.div_mul. lia. Qed.

(** The bits from [k - 1] down, one more each. *)
Lemma low_bits val k : val mod 2 ^ Z.of_nat (S k) = Z.b2z (Z.testbit val (Z.of_nat k)) * 2 ^ Z.of_nat k + val mod 2 ^ Z.of_nat k.
Proof.
  replace (Z.of_nat (S k)) with (Z.of_nat k + 1) by lia. rewrite Z.pow_add_r by lia. change (2 ^ 1) with 2.
  rewrite Z.rem_mul_r by lia. rewrite Z.testbit_spec' by lia. lia.
Qed.

(** [k] bits reach a device that has collected [n]. *)
Lemma bits_received k n a v d val m c : (n + k = 8)%nat ->
  exists c', does (write_bits k val (Z.shiftr (2 ^ Z.of_nat k) 1)) m (Lines c false (received a n v d)) tt m
    (Lines c' false (received a 8 (v * 2 ^ Z.of_nat k + val mod 2 ^ Z.of_nat k) d)).
Proof.
  revert n v c. induction k as [|k IH]; intros n v c Hn.
  - exists c. replace n with 8%nat by lia. rewrite Z.mod_1_r, Z.mul_1_r, Z.add_0_r. apply does_ret.
  - destruct (IH (S n) (2 * v + Z.b2z (Z.testbit val (Z.of_nat k))) (Z.testbit val (Z.of_nat k)) ltac:(lia)) as [c' Hc].
    exists c'. cbn [write_bits]. rewrite half_mask. assert (Er : received a n v d = Slave (Receive a n v) d) by (unfold received; destruct (Nat.eqb_spec n 8); [lia|done]).
    rewrite Er, low_bits. wires. settle. rewrite mask_bit, andb_true_r.
    replace (v * 2 ^ Z.of_nat (S k) + (Z.b2z (Z.testbit val (Z.of_nat k)) * 2 ^ Z.of_nat k + val mod 2 ^ Z.of_nat k))
      with ((2 * v + Z.b2z (Z.testbit val (Z.of_nat k))) * 2 ^ Z.of_nat k + val mod 2 ^ Z.of_nat k) by (rewrite Nat2Z.inj_succ, Z.pow_succ_r by lia; lia).
    exact Hc.
Qed.

Lemma bits_ignored k d val mask m c : exists c', does (write_bits k val mask) m (Lines c false (Slave Idle d)) tt m (Lines c' false (Slave Idle d)).
Proof.
  revert c mask. induction k as [|k IH]; intros c mask; [exists c; apply does_ret|].
  destruct (IH (negb (Z.land val mask =? 0)) (Z.shiftr mask 1)) as [c' Hc]. exists c'. cbn [write_bits]. wires. settle. exact Hc.
Qed.

(** A byte reaches the device, which answers. *)
Lemma byte_taken a val m d c ack rd d' : 0 <= val < 256 -> byte_done a val d = Slave (Acking ack rd) d' ->
  does (bbi2c_write_byte val) m (Lines c false (Slave (Receive a 0 0) d)) (Z.b2z ack) m (Lines true false (clock_falls (Slave (Acking ack rd) d'))).
Proof.
  intros Hv E. destruct (bits_received 8 0 a 0 d val m c eq_refl) as [c' Hc]. unfold bbi2c_write_byte.
  eapply does_bind; [exact Hc|]. unfold received at 1. rewrite Z.mod_small by (cbn; lia). cbn [Nat.eqb]. rewrite Z.mul_0_l, Z.add_0_l, E.
  wires. settle. destruct ack; apply does_ret.
Qed.

Lemma byte_ignored val m d c : does (bbi2c_write_byte val) m (Lines c false (Slave Idle d)) 0 m (Lines true false (Slave Idle d)).
Proof.
  destruct (bits_ignored 8 d val 0x80 m c) as [c' Hc]. unfold bbi2c_write_byte. eapply does_bind; [exact Hc|].
  wires. settle. apply does_ret.
Qed.

Lemma lor_bit val k (b : bool) : val mod 2 ^ Z.of_nat (S k) = 0 ->
  Z.lor val (if b then 2 ^ Z.of_nat k else 0) = val + Z.b2z b * 2 ^ Z.of_nat k.
Proof.
  intros Hv. destruct b; cbn [Z.b2z]; [|by rewrite Z.lor_0_r, Z.mul_0_l, Z.add_0_r]. rewrite Z.mul_1_l.
  assert (Hl : Z.land val (2 ^ Z.of_nat k) = 0).
  { apply Z.eqb_eq, negb_false_iff. rewrite mask_bit, <-(Z.mod_pow2_bits_low val (Z.of_nat (S k))), Hv by lia. apply Z.testbit_0_l. }
  by rewrite Z.add_nocarry_lxor, Z.lxor_lor.
Qed.

Definition sending (v : Z) (n : nat) (d : D) : slave := if (n =? 8)%nat then Slave (Acked true) d else Slave (Send v n) d.

Lemma bits_sent k n v d val m : (n + k = 8)%nat -> val mod 2 ^ Z.of_nat k = 0 ->
  does (read_bits k val (Z.shiftr (2 ^ Z.of_nat k) 1)) m (Lines true false (sending v n d)) (val + v mod 2 ^ Z.of_nat k) m (Lines true false (Slave (Acked true) d)).
Proof.
  revert n val. induction k as [|k IH]; intros n val Hn Hv.
  - replace n with 8%nat by lia. rewrite Z.mod_1_r, Z.add_0_r. apply does_ret.
  - assert (Er : sending v n d = Slave (Send v n) d) by (unfold sending; destruct (Nat.eqb_spec n 8); [lia|done]).
    rewrite Er, low_bits. cbn [read_bits]. rewrite half_mask. wires. settle. replace (7 - Z.of_nat n) with (Z.of_nat k) by lia.
    set (b := Z.testbit v (Z.of_nat k)). replace (negb ((if b then 128 else 0) =? 0)) with b by by destruct b.
    rewrite lor_bit by done. rewrite Z.add_assoc.
    replace (if (n =? 7)%nat then Slave (Acked true) d else Slave (Send v (S n)) d) with (sending v (S n) d) by (unfold sending; by destruct n as [|[|[|[|[|[|[|[]]]]]]]]).
    apply (IH (S n)); [lia|]. rewrite Z.mod_add by lia. apply Z.mod_divide in Hv; [|lia].
    apply Z.mod_divide; [lia|]. etransitivity; [|exact Hv]. exists 2. rewrite Nat2Z.inj_succ, Z.pow_succ_r by lia. lia.
Qed.

(** A byte comes from the device, which is told whether to go on. *)
Lemma byte_sent v d m c ack : does (bbi2c_read_byte ack) m (Lines c false (Slave (Send v 0) d)) (u8 v) m
  (Lines (negb (ack =? 0)) false (clock_falls (Slave (Acked (negb (ack =? 0))) d))).
Proof.
  unfold bbi2c_read_byte. wires. settle. eapply does_bind; [apply (bits_sent 8 0 v d 0 m eq_refl); apply Z.mod_0_l; lia|].
  wires. settle. rewrite andb_true_r. apply does_ret.
Qed.

(** ** Start and stop *)

(** The device lets SDA go, now and with the next clock. *)
Definition listens (s : slave) : Prop := s_phase s = Idle \/ exists a n v, s_phase s = Receive a n v.

Lemma listens_up s a : listens s -> listens (clock_rises a s).
Proof. destruct s as [ph d]. intros [E|(b & n & v & E)]; cbn in E; subst; [by left|right; cbn; eauto]. Qed.
Lemma listens_releases s : listens s -> releases s = true.
Proof. unfold releases. by intros [->|(b & n & v & ->)]. Qed.
Lemma clock_rises_dev s a : s_dev (clock_rises a s) = s_dev s.
Proof. by destruct s as [[] d]. Qed.

Lemma does_stop m c s : listens s -> does bbi2c_stop m (Lines c false s) tt m (Lines true true (Slave Idle (d_stop (s_dev s)))).
Proof.
  intros Hs. unfold bbi2c_stop. wires. settle.
  rewrite (listens_releases _ (listens_up _ false Hs)), clock_rises_dev. apply does_short.
Qed.

(** A start, on an idle bus or within a transfer: the device is called. *)
Lemma does_start slv m c k s ack d' : 0 <= slv < 256 -> listens s -> (k = true -> c = true) -> d_call slv (s_dev s) = (ack, d') ->
  does (bbi2c_start slv) m (Lines c k s) (Z.b2z ack) m (Lines true false (clock_falls (Slave (Acking ack (Z.odd slv)) d'))).
Proof.
  intros Hv Hs Hk E. unfold bbi2c_start. wires. cbn [negb Z.eqb].
  assert (Hup : exists s', set_scl true (set_sda true (Lines c k s)) = Lines true true s' /\ listens s' /\ s_dev s' = s_dev s).
  { settle. rewrite (listens_releases _ Hs), andb_true_r. destruct k; [rewrite (Hk eq_refl)|]; settle.
    - rewrite (listens_releases _ Hs). eauto.
    - eexists. split; [reflexivity|]. split; [by apply listens_up|apply clock_rises_dev]. }
  destruct Hup as (s' & -> & Hs' & Ed). settle. rewrite (listens_releases _ Hs'). settle. apply byte_taken; [done|]. cbn. by rewrite Ed, E.
Qed.

(** ** Transfers *)

Fixpoint bytes_from (m : mem) (p : Z) (n : nat) : list Z :=
  match n with O => [] | S n => load8 m p :: bytes_from m (p + 1) n end.

Fixpoint store_from (m : mem) (p : Z) (l : list Z) : mem :=
  match l with [] => m | v :: l => store_from (store8 m p v) (p + 1) l end.

Definition idle (d : D) : lines := Lines true true (Slave Idle d).
(** Within a transfer: the device takes bytes, or has refused one. *)
Definition taking (ack : bool) (d : D) : lines := Lines true false (Slave (if ack then Receive false 0 0 else Idle) d).

Lemma put_byte val m d ack d' : 0 <= val < 256 -> d_put val d = (ack, d') ->
  does (bbi2c_write_byte val) m (taking true d) (Z.b2z ack) m (taking ack d').
Proof.
  intros Hv E. replace (taking ack d') with (Lines true false (clock_falls (Slave (Acking ack false) d'))) by by destruct ack.
  apply byte_taken; [done|]. cbn. by rewrite E.
Qed.

Lemma call_taking addr m l s d ack d' : l = Lines true (l_scl l) s -> listens s -> s_dev s = d ->
  0 <= addr < 256 -> Z.even addr = true -> d_call addr d = (ack, d') ->
  does (bbi2c_start (Z.lor addr I2C_DIR_WRITE)) m l (Z.b2z ack) m (taking ack d').
Proof.
  intros -> Hs <- Ha He E. cbn. unfold I2C_DIR_WRITE. rewrite Z.lor_0_r.
  replace (taking ack d') with (Lines true false (clock_falls (Slave (Acking ack (Z.odd addr)) d'))).
  - by apply does_start.
  - rewrite <-Z.negb_even, He. by destruct ack.
Qed.

Lemma call_sending addr m d ack d' : 0 <= addr < 256 -> Z.even addr = true -> d_call (addr + 1) d = (ack, d') ->
  does (bbi2c_start (Z.lor addr I2C_DIR_READ)) m (taking true d) (Z.b2z ack) m
    (Lines true false (if ack then send_next_byte d' else Slave Idle d')).
Proof.
  intros Ha He E. assert (Er : Z.lor addr I2C_DIR_READ = addr + 1).
  { unfold I2C_DIR_READ. apply Zeven_bool_iff in He. pose proof (Zeven_div2 _ He) as E2. 
    apply (lor_bit addr 0 true). change (2 ^ Z.of_nat 1) with 2. rewrite E2, Z.mul_comm. apply Z.mod_mul. lia. }
  rewrite Er. replace (if ack then send_next_byte d' else Slave Idle d') with (clock_falls (Slave (Acking ack (Z.odd (addr + 1))) d')).
  - assert (addr <> 255) by by intros ->. apply does_start; [lia|right; cbn; eauto|done|done].
  - rewrite Z.odd_add, <-Z.negb_even, He. by destruct ack.
Qed.

Lemma block_put n p m d ack d' : put_all (bytes_from m p (S n)) d = (ack, d') ->
  does (write_block n p) m (taking true d) (Z.b2z ack) m (taking ack d').
Proof.
  revert p d. induction n as [|n IH]; intros p d; cbn [bytes_from put_all write_block]; destruct (d_put (load8 m p) d) as [a d1] eqn:E.
  all: intros E2; eapply does_bind; [apply does_peek|]; eapply does_bind; [apply put_byte; [apply u8_range|exact E]|].
  - destruct a; simplify_eq/=; apply does_ret.
  - destruct a; cbn [Z.b2z Z.eqb negb]; [by apply IH|]. simplify_eq. apply does_ret.
Qed.

Lemma get_all_snoc n d l d1 v d2 : get_all n d = (l, d1) -> d_get d1 = (v, d2) -> get_all (S n) d = (l ++ [u8 v], d2).
Proof.
  revert d l. induction n as [|n IH]; intros d l E E2; cbn in *; [simplify_eq; by rewrite E2|].
  destruct (d_get d) as [v1 d3]. destruct (get_all n d3) as [l3 d4] eqn:E3. simplify_eq. rewrite (IH d3 l3 E3 E2). done.
Qed.

Lemma more_got n buf m d l d' c : get_all n d = (l, d') -> exists c', does (read_more n buf) m (Lines c false (send_next_byte d)) (buf + Z.of_nat n)
  (store_from m buf l) (Lines c' false (send_next_byte d')).
Proof.
  revert buf m d l c. induction n as [|n IH]; intros buf m d l c E; cbn [get_all read_more] in *.
  - simplify_eq. exists c. rewrite Z.add_0_r. apply does_ret.
  - unfold send_next_byte at 1. destruct (d_get d) as [v d1]. destruct (get_all n d1) as [l1 d2] eqn:E1. simplify_eq.
    destruct (IH (buf + 1) (store8 m buf (u8 v)) d1 l1 false E1) as [c' Hc]. exists c'.
    eapply does_bind; [apply byte_sent|]. eapply does_bind; [apply does_poke|].
    replace (buf + Z.of_nat (S n)) with (buf + 1 + Z.of_nat n) by lia. exact Hc.
Qed.

Lemma store_from_app m p l1 l2 : store_from m p (l1 ++ l2) = store_from (store_from m p l1) (p + Z.of_nat (length l1)) l2.
Proof. revert m p. induction l1 as [|v l1 IH]; intros m p; cbn [app store_from length]; [by rewrite Z.add_0_r|]. rewrite IH. f_equal. lia. Qed.

Lemma get_all_length n d : length (get_all n d).1 = n.
Proof. revert d. induction n as [|n IH]; intros d; [done|]. cbn. destruct (d_get d) as [v d1]. specialize (IH d1). destruct (get_all n d1). cbn in *. by rewrite IH. Qed.

(** After an attempt that failed. *)
Lemma retry_step (op : B Z) m ack d r m' l' : does op m (idle (d_stop d)) r m' l' -> does (bbi2c_stop;; op) m (taking ack d) r m' l'.
Proof. intros Hop. eapply does_bind; [|exact Hop]. apply (does_stop m true (Slave _ d)). destruct ack; [right; cbn; eauto|by left]. Qed.

(** What the functions return. *)
Definition status {A} (r : option A) : Z := match r with Some _ => 0 | None => -1 end.

Context (addr offs : Z) (addr_range : 0 <= addr < 256) (addr_even : Z.even addr = true) (offs_range : 0 <= offs < 256).

Lemma does_write retries buf count m d r d' :
  attempts retries (put_attempt addr offs (bytes_from m buf (S (Z.to_nat (count - 1))))) d = (r, d') ->
  does (write_try retries addr offs buf count) m (idle d) (status r) m (idle d').
Proof.
  revert d. induction retries as [|n IH]; intros d E; cbn [attempts write_try] in *; [simplify_eq; apply does_ret|].
  unfold put_attempt at 1 in E. destruct (d_call addr d) as [a1 d1] eqn:E1.
  eapply does_bind; [by apply (call_taking addr m (idle d) (Slave Idle d) d a1 d1); [|left|..]|].
  destruct a1; cbn [negb Z.b2z Z.eqb] in *; [|by apply retry_step, IH].
  cbn [put_all] in E. destruct (d_put offs d1) as [a2 d2] eqn:E2. eapply does_bind; [by apply put_byte|].
  destruct a2; cbn [negb Z.b2z Z.eqb] in *; [|by apply retry_step, IH].
  destruct (put_all _ d2) as [a3 d3] eqn:E3. eapply does_bind; [by apply block_put|].
  destruct a3; cbn [negb Z.b2z Z.eqb] in *; [|by apply retry_step, IH]. simplify_eq. apply retry_step, does_ret.
Qed.

Lemma does_read retries buf count m d r d' :
  attempts retries (get_attempt addr offs (S (Z.to_nat (count - 1)))) d = (r, d') ->
  does (read_try retries addr offs buf count) m (idle d) (status r) (store_from m buf (default [] r)) (idle d').
Proof.
  revert d. induction retries as [|n IH]; intros d E; cbn [attempts read_try] in *; [simplify_eq; apply does_ret|].
  unfold get_attempt at 1 in E. destruct (d_call addr d) as [a1 d1] eqn:E1.
  eapply does_bind; [by apply (call_taking addr m (idle d) (Slave Idle d) d a1 d1); [|left|..]|].
  destruct a1; cbn [negb Z.b2z Z.eqb] in *; [|by apply retry_step, IH].
  destruct (d_put offs d1) as [a2 d2] eqn:E2. eapply does_bind; [by apply put_byte|].
  destruct a2; cbn [negb Z.b2z Z.eqb] in *; [|by apply retry_step, IH].
  destruct (d_call (addr + 1) d2) as [a3 d3] eqn:E3. eapply does_bind; [by apply call_sending|].
  destruct a3; cbn [negb Z.b2z Z.eqb] in *; [|by apply (retry_step _ _ false), IH].
  set (k := Z.to_nat (count - 1)) in *. destruct (get_all k d3) as [l d4] eqn:E4. destruct (d_get d4) as [v d5] eqn:E5.
  rewrite (get_all_snoc k d3 l d4 v d5 E4 E5) in E. simplify_eq. cbn [default from_option]. unfold id. rewrite store_from_app.
  pose proof (get_all_length k d3) as Hl. rewrite E4 in Hl. cbn in Hl. rewrite Hl.
  destruct (more_got k buf m d3 l d4 true E4) as [c Hc]. eapply does_bind; [exact Hc|].
  unfold send_next_byte. rewrite E5. eapply does_bind; [apply byte_sent|]. eapply does_bind; [apply does_poke|].
  apply (retry_step _ _ false), does_ret.
Qed.

Lemma count_passes count : S (Z.to_nat (count - 1)) = Z.to_nat (Z.max 1 count).
Proof. lia. Qed.

(** C23: the driver moves whole bytes.  From an idle bus and for every device, at the
    level of its bytes, [bbi2c_write()] is: call the device, give it the offset and the
    bytes of the buffer, stop, and begin again if it refused anything, four times at
    most; [bbi2c_read()] is: call it, give it the offset, call it to send, take the
    bytes, refuse to take more, stop.  They return 0 for the attempt that succeeds and
    -1 if none does, leave the bus idle, and [bbi2c_read()] changes memory only when it
    succeeds, by exactly the bytes the device sent.  A count of zero counts as one. *)
Theorem bbi2c_transfers buf count m d b :
  0 <= count < 256 -> shows m (idle d) b ->
  (let '(r, d') := attempts 4 (put_attempt addr offs (bytes_from m buf (Z.to_nat (Z.max 1 count)))) d in
   exists b', bbi2c_write addr offs buf count b = (status r, b') /\ shows m (idle d') b')
  /\ (let '(r, d') := attempts 4 (get_attempt addr offs (Z.to_nat (Z.max 1 count))) d in
      exists b', bbi2c_read addr offs buf count b = (status r, b') /\ shows (store_from m buf (default [] r)) (idle d') b').
Proof.
  intros _ Hb. rewrite <-count_passes. split.
  - destruct (attempts _ _ d) as [r d'] eqn:E. exact (does_write 4 buf count m d r d' E b Hb).
  - destruct (attempts _ _ d) as [r d'] eqn:E. exact (does_read 4 buf count m d r d' E b Hb).
Qed.

(** At reset the pins are inputs; [bbi2c_init] leaves an idle bus idle. *)
Lemma bbi2c_init_idle b : Z.testbit (ddrd b) 7 = false -> Z.testbit (ddrd b) 6 = false -> s_phase (wire b) = Idle ->
  shows (ram b) (idle (s_dev (wire b))) (bbi2c_init b).2.
Proof.
  intros H7 H6 Hp. destruct b as [m dd pd [ph d] t]. cbn in *. subst ph. unfold bbi2c_init, change, mbind, B_bind. cbn.
  unfold sda, scl. cbn. rewrite !Z.land_spec, H7, H6. cbn. constructor; cbn; rewrite ?Z.land_spec, ?H7, ?H6, ?andb_false_r; done.
Qed.
End bus.

(** ** A memory on the bus *)

(** A memory of 256 bytes: the first byte it is given is the place of the next one, which
    counts on. *)
Record chip := Chip { c_addr : Z; cells : mem; c_pos : Z; c_fresh : bool }.

#[export] Instance chip_device : I2cDevice chip := {
  d_call v c := if Z.land v 0xfe =? c_addr c then (true, Chip (c_addr c) (cells c) (c_pos c) (Z.even v)) else (false, c);
  d_put v c := (true, if c_fresh c then Chip (c_addr c) (cells c) v false
                      else Chip (c_addr c) (store8 (cells c) (c_pos c) v) (u8 (c_pos c + 1)) false);
  d_get c := (load8 (cells c) (c_pos c), Chip (c_addr c) (cells c) (u8 (c_pos c + 1)) false);
  d_stop c := c
}.

Lemma chip_puts a m p l : 0 <= p -> p + Z.of_nat (length l) <= 256 ->
  put_all l (Chip a m p false) = (true, Chip a (store_from m p l) (if decide (l = []) then p else u8 (p + Z.of_nat (length l))) false).
Proof.
  revert m p. induction l as [|v l IH]; intros m p Hp Hl; [done|]. cbn [put_all d_put chip_device c_fresh cells c_pos c_addr length] in *.
  destruct l as [|v' l]; [done|]. rewrite u8_small by (cbn [length] in Hl; lia). rewrite IH by lia. cbn [store_from]. do 2 f_equal.
  rewrite !decide_False by done. f_equal. cbn [length]. lia.
Qed.

Lemma chip_gets a m p n f : 0 <= p -> p + Z.of_nat n <= 256 -> (get_all n (Chip a m p f)).1 = bytes_from m p n.
Proof.
  revert p f. induction n as [|n IH]; intros p f Hp Hn; [done|]. cbn [get_all d_get chip_device cells c_pos c_addr bytes_from].
  destruct n as [|n]; [cbn; by rewrite u8_small by apply u8_range|]. rewrite u8_small by lia.
  specialize (IH (p + 1) false ltac:(lia) ltac:(lia)). destruct (get_all (S n) _) as [l d]. cbn [fst] in *. rewrite IH.
  by rewrite u8_small by apply u8_range.
Qed.

Lemma load_store_from m p l q : q < p -> load8 (store_from m p l) q = load8 m q.
Proof. revert m p. induction l as [|v l IH]; intros m p Hq; [done|]. cbn [store_from]. rewrite IH by lia. apply load8_store8_ne. lia. Qed.

Lemma stored_bytes m p l : Forall (fun v => 0 <= v < 256) l -> bytes_from (store_from m p l) p (length l) = l.
Proof.
  intros Hl. revert m p. induction Hl as [|v l Hv Hl IH]; intros m p; [done|]. cbn [store_from length bytes_from]. rewrite IH.
  rewrite load_store_from, load8_store8, u8_small by lia. done.
Qed.

Lemma bytes_from_length m p n : length (bytes_from m p n) = n.
Proof. revert p. induction n as [|n IH]; intros p; cbn; [done|]. by rewrite IH. Qed.

Lemma bytes_from_range m p n : Forall (fun v => 0 <= v < 256) (bytes_from m p n).
Proof. revert p. induction n as [|n IH]; intros p; constructor; [apply u8_range|apply IH]. Qed.

Lemma address_bits addr : 0 <= addr < 256 -> Z.even addr = true -> Z.land addr 0xfe = addr /\ Z.land (addr + 1) 0xfe = addr.
Proof.
  intros Ha He. pose proof (all_below 256 (fun a => negb (Z.even a) || (Z.land a 0xfe =? a) && (Z.land (a + 1) 0xfe =? a)) addr) as H.
  specialize (H ltac:(by vm_compute) Ha). cbv beta in H. rewrite He in H. apply andb_true_iff in H as [?%Z.eqb_eq ?%Z.eqb_eq]. done.
Qed.

Section memory.
Context (addr offs : Z) (addr_range : 0 <= addr < 256) (addr_even : Z.even addr = true) (offs_range : 0 <= offs < 256).

Lemma chip_written l c : c_addr c = addr -> offs + Z.of_nat (length l) <= 256 -> l <> [] ->
  attempts 4 (put_attempt addr offs l) c = (Some tt, Chip addr (store_from (cells c) offs l) (u8 (offs + Z.of_nat (length l))) false).
Proof.
  intros Ec Hl Hne. destruct (address_bits addr addr_range addr_even) as [E1 _]. cbn [attempts]. unfold put_attempt at 1.
  cbn [d_call chip_device put_all d_put]. rewrite Ec, E1, Z.eqb_refl, addr_even. cbn [negb c_fresh c_addr cells].
  rewrite chip_puts by lia. by rewrite decide_False.
Qed.

Lemma chip_read n c : c_addr c = addr -> offs + Z.of_nat n <= 256 ->
  exists c', attempts 4 (get_attempt addr offs n) c = (Some (bytes_from (cells c) offs n), c').
Proof.
  intros Ec Hn. destruct (address_bits addr addr_range addr_even) as [E1 E2]. cbn [attempts]. unfold get_attempt at 1.
  cbn [d_call chip_device d_put]. rewrite Ec, E1, E2, Z.eqb_refl, addr_even. cbn [negb c_fresh c_addr cells c_pos]. rewrite Z.eqb_refl.
  cbn [negb]. pose proof (chip_gets addr (cells c) offs n (Z.even (addr + 1)) ltac:(lia) Hn) as Hg. destruct (get_all _ _) as [l c2].
  cbn in Hg. subst l. by eexists.
Qed.

(** What is written to the memory is read back. *)
Theorem bbi2c_memory_roundtrip buf buf' count m c b :
  c_addr c = addr -> 1 <= count -> offs + count <= 256 -> shows m (idle c) b ->
  exists b1 b2, bbi2c_write addr offs buf count b = (0, b1) /\ bbi2c_read addr offs buf' count b1 = (0, b2)
    /\ bytes_from (ram b2) buf' (Z.to_nat count) = bytes_from m buf (Z.to_nat count).
Proof.
  intros Ec Hc Hoc Hb. set (l := bytes_from m buf (Z.to_nat count)).
  assert (Hl : length l = Z.to_nat count) by apply bytes_from_length. assert (Hn : S (Z.to_nat (count - 1)) = Z.to_nat count) by lia.
  assert (Hne : l <> []) by (intros El; rewrite El in Hl; cbn in Hl; lia).
  pose proof (chip_written l c Ec ltac:(lia) Hne) as Ew. set (c1 := Chip addr _ _ false) in Ew.
  destruct (chip_read (Z.to_nat count) c1 eq_refl ltac:(lia)) as [c2 Er]. unfold l in Ew. rewrite <-Hn in Ew, Er.
  destruct (does_write addr offs addr_range addr_even offs_range 4 buf count m c _ _ Ew b Hb) as (b1 & Hw & Hb1).
  destruct (does_read addr offs addr_range addr_even offs_range 4 buf' count m c1 _ _ Er b1 Hb1) as (b2 & Hr & Hb2).
  exists b1, b2. split_and!; [done|done|]. rewrite (sh_ram _ _ _ Hb2), Hn. cbn [default from_option]. unfold id, c1. cbn [cells].
  rewrite <-Hl, !stored_bytes; [done|apply bytes_from_range..].
Qed.
End memory.

(** ** Witness *)

(** Three bytes at address 100 go to place 16 of a memory with address 0xa0. *)
Definition i2c_machine : machine := Machine (store_from ∅ 100 [7; 8; 9]) 0 0 (Slave Idle (Chip 0xa0 ∅ 0 false)) 0.

Lemma bbi2c_transfers_witness :
  exists b', bbi2c_write 0xa0 16 100 3 i2c_machine = (0, b') /\ bytes_from (cells (s_dev (wire b'))) 16 3 = [7; 8; 9].
Proof.
  destruct (bbi2c_transfers 0xa0 16 ltac:(lia) eq_refl ltac:(lia) 100 3 (ram i2c_machine) (Chip 0xa0 ∅ 0 false) i2c_machine
    ltac:(lia) ltac:(by constructor)) as [(b' & Hw & Hb) _].
  exists b'. split; [exact Hw|]. pose proof (sh_lines _ _ _ Hb) as E. injection E as _ _ E. rewrite <-E. by vm_compute.
Defined.
