(* ===== verification/Cards.v ===== *)
(** * What the drivers of the network cards share

    Weakest preconditions for a driver as a state machine that can stop, and the layers of
    a netbuf as a driver writes them, a word at a time. *)

From stdpp Require Import base list gmap fin_maps strings.
From Stdlib Require Import ZArith Lia.
From S2P Require Import Prelude Sched Netbuf Membuf.
Open Scope Z_scope.

(** A bit of a register is set. *)
Definition has (f bit : Z) : bool := negb (Z.land f bit =? 0).

Lemma odd_bit n : has n 1 = Z.odd n.
Proof. unfold has. change 1 with (Z.ones 1) at 1. rewrite Z.land_ones, Zmod_odd by lia. by destruct (Z.odd n). Qed.

Section wp.
Context {S : Type}.

(** [m] returns, with [Q]. *)
Definition wp {A} (m : ST S A) (Q : A -> S -> Prop) (s : S) : Prop :=
  match m s with Ok (a, s') => Q a s' | _ => False end.

Lemma wp_bind {A B} (m : ST S A) (k : A -> ST S B) Q s : wp m (fun a => wp (k a) Q) s -> wp (m ≫= k) Q s.
Proof. unfold wp, mbind, ST_bind. by destruct (m s) as [[a s']| |]. Qed.

Lemma wp_mono {A} (m : ST S A) (Q Q' : A -> S -> Prop) s : wp m Q s -> (forall a s', Q a s' -> Q' a s') -> wp m Q' s.
Proof. unfold wp. destruct (m s) as [[a s']| |]; auto. Qed.

Lemma wp_run {A} (m : ST S A) Q s : wp m Q s -> exists a s', m s = Ok (a, s') /\ Q a s'.
Proof. unfold wp. destruct (m s) as [[a s']| |]; [eauto|done..]. Qed.

Lemma wp_gets {A} (f : S -> A) (Q : A -> S -> Prop) s : Q (f s) s -> wp (gets f) Q s.
Proof. done. Qed.
Lemma wp_ret {A} (a : A) (Q : A -> S -> Prop) s : Q a s -> wp (mret a) Q s.
Proof. done. Qed.
End wp.

(** ** Layers *)

Lemma pair_ind {A} (P : list A -> Prop) : P [] -> (forall a, P [a]) -> (forall a b l, P l -> P (a :: b :: l)) -> forall l, P l.
Proof. intros H0 H1 H2. fix IH 1. intros [|a [|b l]]; [done|done|]. apply H2, IH. Qed.

(** The words of a layer leave an odd last byte. *)
Fixpoint even_part (l : list Z) : list Z := match l with a :: b :: l => a :: b :: even_part l | _ => [] end.

Lemma even_part_even l : Z.even (size_of l) = true -> even_part l = l.
Proof.
  unfold size_of. induction l as [|a|a b l IH] using pair_ind; intros He; [done|done|]. cbn [even_part]. rewrite IH; [done|].
  cbn [length] in He. rewrite !Nat2Z.inj_succ, !Z.even_succ, Z.odd_succ in He. exact He.
Qed.

Lemma even_part_odd l : Z.odd (size_of l) = true -> even_part l ++ [default 0 (last l)] = l.
Proof.
  unfold size_of. induction l as [|a|a b l IH] using pair_ind; intros He; [done|done|]. cbn [even_part app].
  assert (Ho : Z.odd (Z.of_nat (length l)) = true) by (cbn [length] in He; rewrite !Nat2Z.inj_succ, !Z.odd_succ, Z.even_succ in He; exact He).
  destruct l as [|c l]; [done|]. rewrite !last_cons_cons. f_equal. f_equal. exact (IH Ho).
Qed.

Lemma even_part_bytes l : Forall is_byte l -> Forall is_byte (even_part l).
Proof.
  induction l as [|a|a b l IH] using pair_ind; intros Hl; [constructor|constructor|]. inversion_clear Hl as [|? ? Ha Hl']. inversion_clear Hl' as [|? ? Hb Hl].
  constructor; [done|]. constructor; [done|]. by apply IH.
Qed.

Lemma size_app l l' : size_of (l ++ l') = size_of l + size_of l'.
Proof. unfold size_of. rewrite length_app. lia. Qed.

(** The bytes of a netbuf. *)
Definition layers (nb : netbuf) : list Z := nb_datalink nb ++ nb_network nb ++ nb_transport nb ++ nb_application nb.

(** Only the application layer may be odd. *)
Record even_layers (nb : netbuf) : Prop := {
  el_bytes : Forall is_byte (layers nb);
  el_datalink : Z.even (size_of (nb_datalink nb)) = true;
  el_network : Z.even (size_of (nb_network nb)) = true;
  el_transport : Z.even (size_of (nb_transport nb)) = true }.
