(* ===== verification/Ne2000.v ===== *)
(** * The NE2000 network card

    ne2000.c of the PC: the driver of a card with an NS8390 controller.  The controller
    has a memory of its own, in pages of 256 bytes, which the driver reads and writes
    through a port, one byte or word after the other ("remote DMA").  Frames that arrive
    are put in a ring of pages, each behind a header of four bytes; the driver writes a
    frame to send into other pages and has it sent.

    [nic] models the registers and the memory of the controller as far as the driver uses
    them, [arrives] the arrival of a frame.  The theorem says that the card with this
    driver is a queue of frames in one direction and a wire in the other. *)

From stdpp Require Import base list gmap fin_maps strings.
From Stdlib Require Import ZArith Lia.
From S2P Require Import Prelude Sched Netbuf Membuf Cards.
Open Scope Z_scope.

Module Ne2000.

(** ** Registers *)

Definition NS8390_CR : Z := 0x00.
Definition NS8390_IOPORT : Z := 0x10.
Definition NS8390_RESET : Z := 0x1f.

Definition PG0_PSTART : Z := 0x01.
Definition PG0_PSTOP : Z := 0x02.
Definition PG0_BNRY : Z := 0x03.
Definition PG0_TPSR : Z := 0x04.
Definition PG0_TBCR0 : Z := 0x05.
Definition PG0_TBCR1 : Z := 0x06.
Definition PG0_ISR : Z := 0x07.
Definition PG0_RSAR0 : Z := 0x08.
Definition PG0_RSAR1 : Z := 0x09.
Definition PG0_RBCR0 : Z := 0x0a.
Definition PG0_RBCR1 : Z := 0x0b.
Definition PG0_RCR : Z := 0x0c.
Definition PG0_TCR : Z := 0x0d.
Definition PG0_DCR : Z := 0x0e.
Definition PG0_IMR : Z := 0x0f.
Definition PG1_PAR0 : Z := 0x01.
Definition PG1_CURR : Z := 0x07.
Definition PG1_MAR0 : Z := 0x08.

Definition CR_STP : Z := 0x01.
Definition CR_STA : Z := 0x02.
Definition CR_TXP : Z := 0x04.
Definition CR_RD0 : Z := 0x08.
Definition CR_RD1 : Z := 0x10.
Definition CR_RD2 : Z := 0x20.
Definition CR_PS0 : Z := 0x40.
Definition ISR_PRX : Z := 0x01.
Definition ISR_PTX : Z := 0x02.
Definition ISR_TXE : Z := 0x08.
Definition ISR_OVW : Z := 0x10.
Definition ISR_RDC : Z := 0x40.
Definition ISR_RST : Z := 0x80.
Definition IMR_PRXE : Z := 0x01.
Definition IMR_PTXE : Z := 0x02.
Definition IMR_OVWE : Z := 0x10.
Definition DCR_WTS : Z := 0x01.
Definition DCR_LS : Z := 0x08.
Definition DCR_FT1 : Z := 0x40.
Definition TCR_LB0 : Z := 0x02.
Definition RCR_AB : Z := 0x04.
Definition RCR_MON : Z := 0x20.

Definition TX_PAGES : Z := 12.

Definition sizeof_pkt_header : Z := 4.

(** ** The controller *)

(** [wire] has the frames that were sent; [config] the registers that the controller only
    keeps, by page and number. *)
Record nic := Nic {
  cr : Z; pstart : Z; pstop : Z; bnry : Z; curr : Z; tpsr : Z; tbcr : Z; isr : Z; rsar : Z; rbcr : Z;
  config : gmap (Z * Z) Z; ram : mem; wire : list (list Z) }.
#[export] Instance eta_nic : Eta nic := fun d =>
  Nic (cr d) (pstart d) (pstop d) (bnry d) (curr d) (tpsr d) (tbcr d) (isr d) (rsar d) (rbcr d) (config d) (ram d) (wire d).

Definition page (d : nic) : Z := Z.land (Z.shiftr (cr d) 6) 3.
Definition low (old v : Z) : Z := 256 * (old / 256) + v.
Definition high (old v : Z) : Z := old mod 256 + 256 * v.

(** Remote DMA goes on behind the ring at its beginning; the last byte is signalled. *)
Definition dma_next (d : nic) : nic :=
  let d := d <| rsar := if rsar d + 1 =? 256 * pstop d then 256 * pstart d else rsar d + 1 |> <| rbcr := rbcr d - 1 |> in
  if rbcr d =? 0 then d <| isr := Z.lor (isr d) ISR_RDC |> else d.

Definition dma_read (d : nic) : Z * nic := (load8 (ram d) (rsar d), dma_next d).
Definition dma_write (v : Z) (d : nic) : nic := dma_next (d <| ram := store8 (ram d) (rsar d) v |>).

Fixpoint card_bytes (m : mem) (a : Z) (n : nat) : list Z :=
  match n with O => [] | S n => load8 m a :: card_bytes m (a + 1) n end.

Definition read8 (reg : Z) (d : nic) : Z * nic :=
  if reg =? NS8390_CR then (cr d, d)
  else if reg =? NS8390_IOPORT then dma_read d
  else if page d =? 0 then
    if reg =? PG0_BNRY then (bnry d, d)
    else if reg =? PG0_ISR then (isr d, d)
    else (default 0 (config d !! (0, reg)), d)
  else if reg =? PG1_CURR then (curr d, d)
  else (default 0 (config d !! (page d, reg)), d).

Definition write8 (reg v : Z) (d : nic) : nic :=
  if reg =? NS8390_CR then
    let d := d <| cr := v |> in
    if has v CR_TXP then d <| wire := wire d ++ [card_bytes (ram d) (256 * tpsr d) (Z.to_nat (tbcr d))] |> else d
  else if reg =? NS8390_IOPORT then dma_write v d
  else if reg =? NS8390_RESET then d <| isr := Z.lor (isr d) ISR_RST |>
  else if page d =? 0 then
    if reg =? PG0_PSTART then d <| pstart := v |>
    else if reg =? PG0_PSTOP then d <| pstop := v |>
    else if reg =? PG0_BNRY then d <| bnry := v |>
    else if reg =? PG0_TPSR then d <| tpsr := v |>
    else if reg =? PG0_TBCR0 then d <| tbcr := low (tbcr d) v |>
    else if reg =? PG0_TBCR1 then d <| tbcr := high (tbcr d) v |>
    else if reg =? PG0_ISR then d <| isr := Z.ldiff (isr d) v |>
    else if reg =? PG0_RSAR0 then d <| rsar := low (rsar d) v |>
    else if reg =? PG0_RSAR1 then d <| rsar := high (rsar d) v |>
    else if reg =? PG0_RBCR0 then d <| rbcr := low (rbcr d) v |>
    else if reg =? PG0_RBCR1 then d <| rbcr := high (rbcr d) v |>
    else d <| config := <[(0, reg) := v]> (config d) |>
  else if reg =? PG1_CURR then d <| curr := v |>
  else d <| config := <[(page d, reg) := v]> (config d) |>.

(** A word of the data port, the low byte first. *)
Definition read16 (d : nic) : Z * nic :=
  let '(l, d) := dma_read d in let '(h, d) := dma_read d in (l + 256 * h, d).
Definition write16 (v : Z) (d : nic) : nic := dma_write (v / 256) (dma_write (v mod 256) d).

(** The address of place [x] of a ring of the pages from [start] to [stop]. *)
Definition ring_at (start stop x : Z) : Z := 256 * start + x mod (256 * (stop - start)).

Fixpoint ring_put (start stop x : Z) (l : list Z) (m : mem) : mem :=
  match l with [] => m | v :: l => ring_put start stop (x + 1) l (store8 m (ring_at start stop x) v) end.

(** A frame takes whole pages, with its header and the frame check sequence. *)
Definition pages (f : list Z) : Z := (size_of f + 8 + 255) / 256.

Definition wrap_page (d : nic) (p : Z) : Z := if p >=? pstop d then p - (pstop d - pstart d) else p.

Definition header (next : Z) (f : list Z) : list Z :=
  [0x21; next; (size_of f + 4) mod 256; (size_of f + 4) / 256].

(** The controller puts a frame with check sequence [fcs] behind those in the ring, unless
    it would reach the page before the first one the driver has not read. *)
Definition free_pages (d : nic) : Z := (bnry d - curr d) mod (pstop d - pstart d).

Definition arrives (f fcs : list Z) (d : nic) : nic :=
  if pages f <=? free_pages d then
    let next := wrap_page d (curr d + pages f) in
    let x := 256 * (curr d - pstart d) in
    d <| ram := ring_put (pstart d) (pstop d) x (header next f ++ f ++ fcs) (ram d) |> <| curr := next |> <| isr := Z.lor (isr d) ISR_PRX |>
  else d <| isr := Z.lor (isr d) ISR_OVW |>.

(** ** The driver *)

(** [received] has the frames the clients were called with. *)
Record ne2000 := Ne2000_ {
  dev : nic; send_queue : option nbid; netbufs : nbstore;
  send_start_pg : Z; ring_start_pg : Z; ring_stop_pg : Z; tx_available : Z;
  dev_lock : bool; edi_client : option Z; structs : refs; edi_mac : list Z; received : list (Z * list Z);
  edi_lock : bool; edc_server : gmap Z Z }.
#[export] Instance eta_ne2000 : Eta ne2000 := fun s =>
  Ne2000_ (dev s) (send_queue s) (netbufs s) (send_start_pg s) (ring_start_pg s) (ring_stop_pg s) (tx_available s)
    (dev_lock s) (edi_client s) (structs s) (edi_mac s) (received s) (edi_lock s) (edc_server s).

Abbreviation N := (ST ne2000).

Definition ns8390_read8 (reg : Z) : N Z := fun s => let '(v, d) := read8 reg (dev s) in Ok (v, s <| dev := d |>).
Definition ns8390_write8 (reg v : Z) : N unit := modify (fun s => s <| dev := write8 reg v (dev s) |>).
Definition ns8390_read16 : N Z := fun s => let '(v, d) := read16 (dev s) in Ok (v, s <| dev := d |>).
Definition ns8390_write16 (v : Z) : N unit := modify (fun s => s <| dev := write16 v (dev s) |>).

Definition lock_dev : N unit := fun s => l ← spin_lock (dev_lock s); Ok (tt, s <| dev_lock := l |>).
Definition unlock_dev : N unit := fun s => l ← spin_unlock (dev_lock s); Ok (tt, s <| dev_lock := l |>).

(** [words] words of the data port. *)
Fixpoint read_words (words : nat) : N (list Z) :=
  match words with
  | O => mret []
  | S words =>
    v ← ns8390_read16;
    l ← read_words words;
    mret (v mod 256 :: v / 256 :: l)
  end.

(** [membuf_alloc] and [netbuf_alloc]: a netbuf whose datalink layer is [pkt]. *)
Definition new_netbuf (pkt : list Z) : N nbid := fun s =>
  let n := fresh (dom (netbufs s)) in
  Ok (n, s <| netbufs := <[n := Netbuf_ pkt [] [] [] None 1 None]> (netbufs s) |>).

(** Give up what is in the ring. *)
Definition purge_ring (curr : Z) : N (option nbid) :=
  s ← gets id;
  let bnry := u8 (curr - 1) in
  let bnry := if bnry <? ring_start_pg s then u8 (ring_stop_pg s - 1) else bnry in
  ns8390_write8 PG0_BNRY bnry;;
  mret None.

Definition read_packet (bnry count nextpg : Z) : N (option nbid) :=
  s ← gets id;
  ns8390_write8 PG0_RBCR0 (Z.land count 0xff);;
  ns8390_write8 PG0_RBCR1 (Z.land (Z.shiftr count 8) 0xff);;
  ns8390_write8 PG0_RSAR0 sizeof_pkt_header;;
  ns8390_write8 PG0_RSAR1 bnry;;
  ns8390_write8 NS8390_CR (Z.lor CR_STA CR_RD0);;
  pkt ← read_words (Z.to_nat (Z.shiftr count 1));
  pkt ← (if has count 1 then v ← ns8390_read8 NS8390_IOPORT; mret (pkt ++ [v]) else mret pkt);
  ns8390_write8 NS8390_CR (Z.lor CR_STA CR_RD2);;
  ns8390_write8 PG0_ISR ISR_RDC;;
  let nextpg := u8 (nextpg - 1) in
  let nextpg := if nextpg <? ring_start_pg s then u8 (ring_stop_pg s - 1) else nextpg in
  ns8390_write8 PG0_BNRY nextpg;;
  nb ← new_netbuf pkt;
  mret (Some nb).

Definition ns8390_recv_get_packet : N (option nbid) :=
  s ← gets id;
  ns8390_write8 NS8390_CR (Z.lor CR_RD2 CR_PS0);;
  curr ← ns8390_read8 PG1_CURR;
  ns8390_write8 NS8390_CR CR_RD2;;
  b ← ns8390_read8 PG0_BNRY;
  let bnry := u8 (b + 1) in
  let bnry := if bnry >=? ring_stop_pg s then ring_start_pg s else bnry in
  if bnry =? curr then mret None else
  ns8390_write8 PG0_RBCR0 sizeof_pkt_header;;
  ns8390_write8 PG0_RBCR1 0;;
  ns8390_write8 PG0_RSAR0 0;;
  ns8390_write8 PG0_RSAR1 bnry;;
  ns8390_write8 NS8390_CR (Z.lor CR_STA CR_RD0);;
  hdr ← read_words (Z.to_nat (sizeof_pkt_header / 2));
  ns8390_write8 NS8390_CR (Z.lor CR_STA CR_RD2);;
  ns8390_write8 PG0_ISR ISR_RDC;;
  let ph_nextpg := nth 1 hdr 0 in
  let ph_size := nth 2 hdr 0 + 256 * nth 3 hdr 0 in
  let count := u16 (ph_size - sizeof_pkt_header) in
  let nextpg := u8 (bnry + Z.shiftr (ph_size + 4 + 255) 8) in
  let nextpg := if nextpg >=? ring_stop_pg s then u8 (nextpg - (ring_stop_pg s - ring_start_pg s)) else nextpg in
  if negb (ph_nextpg =? nextpg) || (count <? 60) || (count >? 1518) then purge_ring curr
  else read_packet bnry count ph_nextpg.

(** The words of a layer. *)
Fixpoint write_words (l : list Z) : N unit :=
  match l with
  | a :: b :: l => ns8390_write16 (a + 256 * b);; write_words l
  | _ => mret tt
  end.

(** The application layer may have an odd byte. *)
Definition write_application (l : list Z) : N unit :=
  write_words l;;
  if has (size_of l) 1 then ns8390_write8 NS8390_IOPORT (default 0 (last l)) else mret tt.

Definition write_pad (padding : Z) : N unit :=
  write_words (replicate (2 * Z.to_nat (Z.shiftr padding 1)) 0);;
  if has padding 1 then ns8390_write8 NS8390_IOPORT 0 else mret tt.

(** [for (i = 0; i <= 2000; i++)] until the DMA is complete. *)
Fixpoint wait_dma (polls : nat) (i : Z) : N Z :=
  match polls with
  | O => mret i
  | S polls =>
    r ← ns8390_read8 PG0_ISR;
    if has r ISR_RDC then mret i else wait_dma polls (i + 1)
  end.

Definition ns8390_send_set_packet (n : nbid) : N unit :=
  s ← gets id;
  match netbufs s !! n with
  | None => of_res (Stop "bad netbuf pointer")
  | Some nb =>
    let sz := u16 (size_of (nb_datalink nb) + size_of (nb_network nb) + size_of (nb_transport nb) + size_of (nb_application nb)) in
    if sz >=? 0x0600 then mret tt
    else
      let padding := if sz <? 60 then u8 (60 - sz) else 0 in
      let sz := if sz <? 60 then 60 else sz in
      ns8390_write8 PG0_RBCR0 (Z.land sz 0xff);;
      ns8390_write8 PG0_RBCR1 (Z.land (Z.shiftr sz 8) 0xff);;
      ns8390_write8 PG0_RSAR0 0;;
      ns8390_write8 PG0_RSAR1 (send_start_pg s);;
      ns8390_write8 NS8390_CR (Z.lor CR_STA CR_RD1);;
      write_words (nb_datalink nb);;
      write_words (nb_network nb);;
      write_words (nb_transport nb);;
      write_application (nb_application nb);;
      write_pad padding;;
      ns8390_write8 NS8390_CR (Z.lor CR_STA CR_RD2);;
      i ← wait_dma 2001 0;
      if i >=? 2000 then of_res (Stop "pkt snd DMA nc")
      else
        ns8390_write8 PG0_ISR ISR_RDC;;
        ns8390_write8 PG0_TBCR0 (Z.land sz 0xff);;
        ns8390_write8 PG0_TBCR1 (Z.land (Z.shiftr sz 8) 0xff);;
        ns8390_write8 PG0_TPSR (send_start_pg s);;
        ns8390_write8 NS8390_CR (Z.lor (Z.lor CR_STA CR_TXP) CR_RD2);;
        modify (fun s => s <| tx_available := 0 |>)
  end.

Definition on_structs (f : refs -> res refs) : N unit := fun s => r ← f (structs s); Ok (tt, s <| structs := r |>).
Definition netbuf_ref_ (n : nbid) : N unit := fun s => st ← nb_ref n (netbufs s); Ok (tt, s <| netbufs := st |>).
Definition netbuf_deref_ (n : nbid) : N unit := fun s => st ← nb_deref n (netbufs s); Ok (tt, s <| netbufs := st |>).

Definition ne2000_send_netbuf (n : nbid) : N unit :=
  lock_dev;;
  s ← gets id;
  (if negb (tx_available s =? 0) then ns8390_send_set_packet n
   else
     netbuf_ref_ n;;
     s ← gets id;
     '(q, st) ← of_res (queue_append (send_queue s) n (netbufs s));
     modify (fun s => s <| send_queue := q |> <| netbufs := st |>));;
  unlock_dev.

(** The call of the client's [edc_recv]. *)
Definition edc_recv (c : Z) (n : nbid) : N unit := fun s =>
  match netbufs s !! n with
  | None => Stop "bad netbuf pointer"
  | Some nb => Ok (tt, s <| received := received s ++ [(c, nb_datalink nb)] |>)
  end.

(** [while ((nb = ns8390_recv_get_packet()) != NULL)]: at most [fuel] packets. *)
Fixpoint drain_ring (fuel : nat) (edc : option Z) : N unit :=
  match fuel with
  | O => of_res Fuel
  | S fuel =>
    p ← ns8390_recv_get_packet;
    match p with
    | None => mret tt
    | Some nb =>
      unlock_dev;;
      (match edc with Some c => edc_recv c nb | None => mret tt end);;
      lock_dev;;
      netbuf_deref_ nb;;
      drain_ring fuel edc
    end
  end.

Definition ns8390_ring_overflow (fuel : nat) : N unit :=
  c ← ns8390_read8 NS8390_CR;
  let tx_in_progress := Z.land c CR_TXP in
  ns8390_write8 NS8390_CR (Z.lor CR_STP CR_RD2);;
  ns8390_write8 PG0_RBCR0 0;;
  ns8390_write8 PG0_RBCR1 0;;
  r ← ns8390_read8 PG0_ISR;
  let resend := negb (has r (Z.lor ISR_PTX ISR_TXE)) in
  ns8390_write8 PG0_TCR TCR_LB0;;
  ns8390_write8 NS8390_CR (Z.lor CR_STA CR_RD2);;
  s ← gets id;
  let edc := edi_client s in
  (match edc with Some c => on_structs (struct_ref c) | None => mret tt end);;
  modify (fun s => s <| tx_available := 0 |>);;
  drain_ring fuel edc;;
  modify (fun t => t <| tx_available := tx_available s |>);;
  (match edc with Some c => on_structs (struct_deref c) | None => mret tt end);;
  ns8390_write8 PG0_ISR ISR_OVW;;
  ns8390_write8 PG0_TCR 0;;
  if resend then ns8390_write8 NS8390_CR (Z.lor (Z.lor CR_STA CR_TXP) CR_RD2) else mret tt.

(** The client is called without the lock. *)
Definition deliver (c : Z) (n : nbid) : N unit :=
  on_structs (struct_ref c);;
  unlock_dev;;
  edc_recv c n;;
  lock_dev;;
  on_structs (struct_deref c).

(** A frame for the client; the flag is reset when there are no more. *)
Definition intr_recv : N unit :=
  s ← gets id;
  p ← ns8390_recv_get_packet;
  match p with
  | Some nb =>
    (match edi_client s with Some c => deliver c nb | None => mret tt end);;
    netbuf_deref_ nb
  | None => ns8390_write8 PG0_ISR ISR_PRX
  end.

(** A frame was sent: the next one. *)
Definition intr_sent : N unit :=
  ns8390_write8 PG0_ISR ISR_PTX;;
  modify (fun s => s <| tx_available := 1 |>);;
  s ← gets id;
  match send_queue s with
  | Some n =>
    match netbufs s !! n with
    | None => of_res (Stop "bad netbuf pointer")
    | Some nb =>
      modify (fun s => s <| send_queue := nb_next nb |>);;
      ns8390_send_set_packet n;;
      netbuf_deref_ n
    end
  | None => mret tt
  end.

(** The body of the thread's loop: false if it goes on waiting. *)
Definition ne2000_intr_pass (fuel : nat) : N bool :=
  isr ← ns8390_read8 PG0_ISR;
  if negb (has isr (Z.lor (Z.lor ISR_PRX ISR_PTX) ISR_OVW)) then mret false
  else
    lock_dev;;
    (if has isr ISR_OVW then ns8390_ring_overflow fuel else mret tt);;
    (if has isr ISR_PRX then intr_recv else mret tt);;
    (if has isr ISR_PTX then intr_sent else mret tt);;
    unlock_dev;;
    mret true.

(** Values for a range of registers. *)
Fixpoint write_regs (reg : Z) (l : list Z) : N unit :=
  match l with [] => mret tt | v :: l => ns8390_write8 reg v;; write_regs (reg + 1) l end.

Definition ns8390_init (begin_pg end_pg : Z) (mac_addr : list Z) : N unit :=
  modify (fun s => s <| send_start_pg := u8 (begin_pg + 8) |> <| ring_start_pg := u8 (begin_pg + TX_PAGES) |> <| ring_stop_pg := end_pg |>);;
  ns8390_write8 NS8390_CR (Z.lor CR_STP CR_RD2);;
  ns8390_write8 PG0_DCR (Z.lor (Z.lor DCR_WTS DCR_LS) DCR_FT1);;
  ns8390_write8 PG0_RBCR0 0;;
  ns8390_write8 PG0_RBCR1 0;;
  ns8390_write8 PG0_RCR 0;;
  ns8390_write8 PG0_TCR TCR_LB0;;
  ns8390_write8 PG0_TPSR begin_pg;;
  ns8390_write8 PG0_PSTART (u8 (begin_pg + TX_PAGES));;
  ns8390_write8 PG0_BNRY (u8 (end_pg - 1));;
  ns8390_write8 PG0_PSTOP end_pg;;
  ns8390_write8 NS8390_CR (Z.lor (Z.lor CR_STP CR_RD2) CR_PS0);;
  write_regs PG1_PAR0 (take 6 mac_addr);;
  write_regs PG1_MAR0 (replicate 8 0xff);;
  ns8390_write8 PG1_CURR (u8 (begin_pg + TX_PAGES));;
  ns8390_write8 NS8390_CR (Z.lor CR_STP CR_RD2);;
  ns8390_write8 PG0_RCR RCR_AB;;
  ns8390_write8 NS8390_CR (Z.lor CR_STA CR_RD2);;
  ns8390_write8 PG0_ISR 0xff;;
  ns8390_write8 PG0_IMR (Z.lor (Z.lor IMR_PRXE IMR_PTXE) IMR_OVWE);;
  ns8390_write8 PG0_TCR 0;;
  modify (fun s => s <| dev_lock := false |>).

(** [while ((ns8390_read8(NS8390_PG0_ISR) & NS8390_ISR_RST) == 0);] *)
Fixpoint wait_reset (polls : nat) : N unit :=
  match polls with
  | O => of_res Fuel
  | S polls => r ← ns8390_read8 PG0_ISR; if has r ISR_RST then mret tt else wait_reset polls
  end.

(** Every byte of the PROM comes twice. *)
Fixpoint read_prom (n : nat) : N (list Z) :=
  match n with
  | O => mret []
  | S n =>
    v ← ns8390_read8 NS8390_IOPORT;
    ns8390_read8 NS8390_IOPORT;;
    l ← read_prom n;
    mret (v :: l)
  end.

Definition ne2000_init (polls : nat) : N unit :=
  r ← ns8390_read8 NS8390_RESET;
  ns8390_write8 NS8390_RESET r;;
  wait_reset polls;;
  ns8390_write8 PG0_ISR 0xff;;
  ns8390_write8 NS8390_CR (Z.lor CR_STP CR_RD2);;
  ns8390_write8 PG0_DCR (Z.lor DCR_LS DCR_FT1);;
  ns8390_write8 PG0_RBCR0 0;;
  ns8390_write8 PG0_RBCR1 0;;
  ns8390_write8 PG0_IMR 0;;
  ns8390_write8 PG0_ISR 0xff;;
  ns8390_write8 PG0_RCR RCR_MON;;
  ns8390_write8 PG0_TCR TCR_LB0;;
  ns8390_write8 PG0_RBCR0 0x20;;
  ns8390_write8 PG0_RBCR1 0;;
  ns8390_write8 PG0_RSAR0 0;;
  ns8390_write8 PG0_RSAR1 0;;
  ns8390_write8 NS8390_CR (Z.lor CR_STA CR_RD0);;
  prom ← read_prom 16;
  modify (fun s => s <| edi_mac := take 6 prom |>);;
  ns8390_init 0x40 0x80 prom.

(** ** Clients *)

Definition lock_edi : N unit := fun s => l ← spin_lock (edi_lock s); Ok (tt, s <| edi_lock := l |>).
Definition unlock_edi : N unit := fun s => l ← spin_unlock (edi_lock s); Ok (tt, s <| edi_lock := l |>).

(** [eds] is the address [membuf_alloc] gives to the server. *)
Definition ne2000_server_alloc (eds : Z) : N unit := on_structs (struct_alloc eds).

Definition ne2000_client_attach (edi edc eds : Z) : N (option Z) :=
  lock_edi;;
  s ← gets id;
  r ← match edi_client s with
    | Some _ => mret None
    | None =>
      ne2000_server_alloc eds;;
      on_structs (struct_ref edi);;
      modify (fun s => s <| edc_server := <[edc := eds]> (edc_server s) |> <| edi_client := Some edc |>);;
      on_structs (struct_ref edc);;
      mret (Some eds)
    end;
  unlock_edi;;
  mret r.

(** [edi] is the address of the instance. *)
Definition ne2000_instance_alloc (edi : Z) (polls : nat) : N unit :=
  on_structs (struct_alloc edi);;
  modify (fun s => s <| edi_client := None |> <| edi_lock := false |>);;
  ne2000_init polls.

End Ne2000.

Module Ne2000Facts.
Import Ne2000.

(** ** The ring *)

Section ring.
Context (start stop : Z) (ring_order : 0 < start < stop) (ring_bound : stop <= 249).
Abbreviation n_pages := (stop - start).
Abbreviation at_ := (ring_at start stop).

(** The page [k] pages behind the first. *)
Definition pg (k : Z) : Z := start + k mod n_pages.

Lemma pg_range k : start <= pg k < stop.
Proof. unfold pg. pose proof (Z.mod_pos_bound k n_pages). lia. Qed.

Lemma mod_window a b n : 0 <= b - a < n -> a mod n = b mod n -> a = b.
Proof.
  intros H E. assert (E0 : (b - a) mod n = 0) by (rewrite Zminus_mod, E, Z.sub_diag; apply Z.mod_0_l; lia).
  rewrite Z.mod_small in E0 by lia. lia.
Qed.

Lemma mod_step a b n : 0 < n -> 0 <= b <= n -> (a + b) mod n = if a mod n + b >=? n then a mod n + b - n else a mod n + b.
Proof.
  intros Hn Hb. pose proof (Z.mod_pos_bound a n Hn). pose proof (Z.div_mod a n ltac:(lia)) as Ea.
  destruct (a mod n + b >=? n) eqn:E.
  - symmetry. apply (Z.mod_unique _ _ (a / n + 1)); lia.
  - symmetry. apply (Z.mod_unique _ _ (a / n)); lia.
Qed.

(** [bnry + 1], wrapped; [nextpg - 1], wrapped; the page behind a frame. *)
Lemma pg_add k n : 0 <= n < n_pages ->
  (if pg k + n >=? stop then pg k + n - n_pages else pg k + n) = pg (k + n).
Proof.
  intros Hn. unfold pg. rewrite (mod_step k n n_pages) by lia.
  pose proof (Z.mod_pos_bound k n_pages ltac:(lia)).
  destruct (k mod n_pages + n >=? n_pages) eqn:E1, (start + k mod n_pages + n >=? stop) eqn:E2; lia.
Qed.

Lemma pg_pred k : (if u8 (pg k - 1) <? start then u8 (stop - 1) else u8 (pg k - 1)) = pg (k - 1).
Proof.
  pose proof (pg_range k). rewrite !u8_small by lia. unfold pg in *.
  assert (E : k mod n_pages = if (k - 1) mod n_pages + 1 >=? n_pages then (k - 1) mod n_pages + 1 - n_pages else (k - 1) mod n_pages + 1).
  { replace k with (k - 1 + 1) at 1 by lia. apply mod_step; lia. }
  pose proof (Z.mod_pos_bound (k - 1) n_pages ltac:(lia)).
  destruct ((k - 1) mod n_pages + 1 >=? n_pages) eqn:E1, (start + k mod n_pages - 1 <? start) eqn:E2; lia.
Qed.

Lemma pg_succ k : (if u8 (pg k + 1) >=? stop then start else u8 (pg k + 1)) = pg (k + 1).
Proof.
  pose proof (pg_range k). rewrite !u8_small by lia. unfold pg in *. rewrite (mod_step k 1 n_pages) by lia.
  pose proof (Z.mod_pos_bound k n_pages ltac:(lia)).
  destruct (k mod n_pages + 1 >=? n_pages) eqn:E1, (start + k mod n_pages + 1 >=? stop) eqn:E2; lia.
Qed.

(** Bytes of the ring, from place [x] on. *)
Fixpoint ring_bytes (m : mem) (x : Z) (n : nat) : list Z :=
  match n with O => [] | S n => load8 m (at_ x) :: ring_bytes m (x + 1) n end.

Lemma ring_bytes_app m x a b : ring_bytes m x (a + b) = ring_bytes m x a ++ ring_bytes m (x + Z.of_nat a) b.
Proof.
  revert x. induction a as [|a IH]; intros x; cbn [ring_bytes plus app]; [by rewrite Z.add_0_r|]. f_equal. rewrite IH. do 2 f_equal. lia.
Qed.

Lemma ring_bytes_length m x n : length (ring_bytes m x n) = n.
Proof. revert x. induction n as [|n IH]; intros x; cbn; [done|]. by rewrite IH. Qed.

(** A place of the ring by its page. *)
Lemma at_page k i : 0 <= i < 256 -> at_ (256 * k + i) = 256 * pg k + i.
Proof.
  intros Hi. unfold ring_at, pg. rewrite Z.mul_add_distr_l, <-Z.add_assoc. f_equal.
  symmetry. apply (Z.mod_unique _ _ (k / n_pages)); pose proof (Z.mod_pos_bound k n_pages ltac:(lia)); [left; lia|].
  pose proof (Z.div_mod k n_pages ltac:(lia)). nia.
Qed.

Lemma at_next x : (if at_ x + 1 =? 256 * stop then 256 * start else at_ x + 1) = at_ (x + 1).
Proof.
  unfold ring_at. rewrite (mod_step x 1) by lia. pose proof (Z.mod_pos_bound x (256 * n_pages) ltac:(lia)).
  destruct (_ >=? _) eqn:E1, (_ =? _) eqn:E2; lia.
Qed.

Lemma at_congr x y : x mod (256 * n_pages) = y mod (256 * n_pages) -> at_ x = at_ y.
Proof. unfold ring_at. by intros ->. Qed.

Lemma ring_put_congr x y l m : x mod (256 * n_pages) = y mod (256 * n_pages) -> ring_put start stop x l m = ring_put start stop y l m.
Proof.
  revert x y m. induction l as [|v l IH]; intros x y m E; cbn [ring_put]; [done|]. rewrite (at_congr x y E). apply IH.
  rewrite (Z.add_mod x), (Z.add_mod y), E by lia. done.
Qed.

(** What is put in the ring does not touch the places before, as long as it does not come
    round to them. *)
Lemma ring_put_before x l m z : z < x -> x + size_of l <= z + 256 * n_pages -> load8 (ring_put start stop x l m) (at_ z) = load8 m (at_ z).
Proof.
  revert x m. induction l as [|v l IH]; intros x m Hz Hl; cbn [ring_put]; [done|]. unfold size_of in *. cbn [length] in Hl.
  rewrite IH by lia. apply load8_store8_ne. intros E. unfold ring_at in E.
  assert (z = x); [|lia]. apply (mod_window z x (256 * n_pages)); lia.
Qed.

Lemma ring_bytes_before x l m y n : y + Z.of_nat n <= x -> x + size_of l <= y + 256 * n_pages ->
  ring_bytes (ring_put start stop x l m) y n = ring_bytes m y n.
Proof.
  revert y. induction n as [|n IH]; intros y Hy Hl; cbn [ring_bytes]; [done|]. rewrite IH by lia. by rewrite ring_put_before by lia.
Qed.

Lemma ring_bytes_put x l m : Forall is_byte l -> size_of l <= 256 * n_pages -> ring_bytes (ring_put start stop x l m) x (length l) = l.
Proof.
  intros Hl. revert x m. induction Hl as [|v l Hv Hl IH]; intros x m Hs; cbn [length ring_bytes ring_put]; [done|].
  unfold size_of in *. cbn [length] in Hs. rewrite IH by lia. rewrite ring_put_before by (unfold size_of; lia).
  rewrite load8_store8, u8_small by exact Hv. done.
Qed.
End ring.

(** ** The registers *)

Section registers.
Context (v : Z) (d : nic).

Lemma write_cr : has v CR_TXP = false -> write8 NS8390_CR v d = d <| cr := v |>.
Proof. intros H. unfold write8. cbn. by rewrite H. Qed.
Lemma write_txp : has v CR_TXP = true -> write8 NS8390_CR v d
  = d <| cr := v |> <| wire := wire d ++ [card_bytes (ram d) (256 * tpsr d) (Z.to_nat (tbcr d))] |>.
Proof. intros H. unfold write8. cbn. by rewrite H. Qed.

Context (page0 : page d = 0).
Lemma write_bnry : write8 PG0_BNRY v d = d <| bnry := v |>.
Proof. unfold write8. by rewrite page0. Qed.
Lemma write_tpsr : write8 PG0_TPSR v d = d <| tpsr := v |>.
Proof. unfold write8. by rewrite page0. Qed.
Lemma write_tbcr0 : write8 PG0_TBCR0 v d = d <| tbcr := low (tbcr d) v |>.
Proof. unfold write8. by rewrite page0. Qed.
Lemma write_tbcr1 : write8 PG0_TBCR1 v d = d <| tbcr := high (tbcr d) v |>.
Proof. unfold write8. by rewrite page0. Qed.
Lemma write_isr : write8 PG0_ISR v d = d <| isr := Z.ldiff (isr d) v |>.
Proof. unfold write8. by rewrite page0. Qed.
Lemma write_rsar0 : write8 PG0_RSAR0 v d = d <| rsar := low (rsar d) v |>.
Proof. unfold write8. by rewrite page0. Qed.
Lemma write_rsar1 : write8 PG0_RSAR1 v d = d <| rsar := high (rsar d) v |>.
Proof. unfold write8. by rewrite page0. Qed.
Lemma write_rbcr0 : write8 PG0_RBCR0 v d = d <| rbcr := low (rbcr d) v |>.
Proof. unfold write8. by rewrite page0. Qed.
Lemma write_rbcr1 : write8 PG0_RBCR1 v d = d <| rbcr := high (rbcr d) v |>.
Proof. unfold write8. by rewrite page0. Qed.
Lemma read_bnry : read8 PG0_BNRY d = (bnry d, d).
Proof. unfold read8. by rewrite page0. Qed.
Lemma read_isr : read8 PG0_ISR d = (isr d, d).
Proof. unfold read8. by rewrite page0. Qed.
End registers.

Lemma read_curr d : page d = 1 -> read8 PG1_CURR d = (curr d, d).
Proof. intros H. unfold read8. by rewrite H. Qed.

Lemma wp_write reg v Q s d' : write8 reg v (dev s) = d' -> Q tt (s <| dev := d' |>) -> wp (ns8390_write8 reg v) Q s.
Proof. by intros <-. Qed.

Lemma wp_read reg Q s v d' : read8 reg (dev s) = (v, d') -> Q v (s <| dev := d' |>) -> wp (ns8390_read8 reg) Q s.
Proof. intros E HQ. unfold wp, ns8390_read8. by rewrite E. Qed.

(** Steps through register accesses; the selected page follows from the last command. *)
Ltac reg_by lem := apply lem; (reflexivity || assumption).
Ltac reg_write := first
  [reg_by write_bnry|reg_by write_tpsr|reg_by write_tbcr0|reg_by write_tbcr1|reg_by write_isr|reg_by write_rsar0|reg_by write_rsar1
  |reg_by write_rbcr0|reg_by write_rbcr1|reg_by write_cr|reg_by write_txp].
Ltac reg_read := first [reg_by read_bnry|reg_by read_isr|reg_by read_curr].
Ltac io1 := apply wp_bind; first
  [eapply wp_write; [reg_write|]|eapply wp_read; [reg_read|]].

(** Two register_halves of a 16-bit register. *)
Lemma register_halves old l h : 0 <= l < 256 -> high (low old l) h = l + 256 * h.
Proof. intros Hl. unfold high, low. Z.div_mod_to_equations. lia. Qed.

Lemma half_words n : 0 <= n < 2 ^ 16 -> 0 <= Z.land n 0xff < 256 /\ Z.land n 0xff + 256 * Z.land (Z.shiftr n 8) 0xff = n.
Proof.
  intros Hn. change 0xff with (Z.ones 8). rewrite !Z.land_ones, Z.shiftr_div_pow2 by lia. Z.div_mod_to_equations. lia.
Qed.

(** ** Remote DMA *)

(** The flags the thread looks at: packet received, packet transmitted, overflow. *)
Definition alerts (i : Z) : Z := Z.land i (Z.lor (Z.lor ISR_PRX ISR_PTX) ISR_OVW).

Lemma alerts_complete i : alerts (Z.lor i ISR_RDC) = alerts i.
Proof. unfold alerts. rewrite Z.land_lor_distr_l. apply Z.lor_0_r. Qed.

Lemma alerts_clear i v : Z.land v (Z.lor (Z.lor ISR_PRX ISR_PTX) ISR_OVW) = 0 -> alerts (Z.ldiff i v) = alerts i.
Proof.
  intros Hv. unfold alerts. apply Z.bits_inj. intros k. rewrite !Z.land_spec, Z.ldiff_spec.
  assert (Hk : Z.testbit v k && Z.testbit (Z.lor (Z.lor ISR_PRX ISR_PTX) ISR_OVW) k = false) by (rewrite <-Z.land_spec, Hv; apply Z.testbit_0_l).
  by destruct (Z.testbit i k), (Z.testbit v k), (Z.testbit (Z.lor (Z.lor ISR_PRX ISR_PTX) ISR_OVW) k).
Qed.

(** Only the counters of the DMA, and the flag that says it is complete, have changed. *)
Definition dma_moved (s s' : ne2000) : Prop := exists r c i, alerts i = alerts (isr (dev s))
  /\ s' = s <| dev := (dev s) <| rsar := r |> <| rbcr := c |> <| isr := i |> |>.

Lemma dma_moved_refl s : dma_moved s s.
Proof. exists (rsar (dev s)), (rbcr (dev s)), (isr (dev s)). split; [done|]. by destruct s as [[]]. Qed.

Lemma dma_moved_trans s s1 s2 : dma_moved s s1 -> dma_moved s1 s2 -> dma_moved s s2.
Proof. intros (r & c & i & A1 & ->) (r' & c' & i' & A2 & ->). exists r', c', i'. split; [|done]. etransitivity; [exact A2|exact A1]. Qed.

Lemma dma_next_moved s : dma_moved s (s <| dev := dma_next (dev s) |>).
Proof.
  unfold dma_next. destruct (_ =? 0).
  - eexists _, _, (Z.lor (isr (dev s)) ISR_RDC). split; [apply alerts_complete|]. done.
  - exists (if rsar (dev s) + 1 =? 256 * pstop (dev s) then 256 * pstart (dev s) else rsar (dev s) + 1), (rbcr (dev s) - 1), (isr (dev s)). done.
Qed.

Lemma dma_next_rsar d : rsar (dma_next d) = if rsar d + 1 =? 256 * pstop d then 256 * pstart d else rsar d + 1.
Proof. unfold dma_next. by destruct (_ =? 0). Qed.

(** What a driver and a card agree on: the ring is between the same pages, and page 0 is
    selected. *)
Record card_ok (start stop : Z) (s : ne2000) : Prop := {
  co_start : pstart (dev s) = start; co_stop : pstop (dev s) = stop;
  co_start' : ring_start_pg s = start; co_stop' : ring_stop_pg s = stop;
  co_page : page (dev s) = 0 }.

Section dma.
Context (start stop : Z) (ring_order : 0 < start < stop).
Abbreviation at_ := (ring_at start stop).

Lemma wp_read16 s x Q : pstart (dev s) = start -> pstop (dev s) = stop -> rsar (dev s) = at_ x ->
  (forall s', dma_moved s s' -> rsar (dev s') = at_ (x + 2) -> Q (load8 (ram (dev s)) (at_ x) + 256 * load8 (ram (dev s)) (at_ (x + 1))) s') ->
  wp ns8390_read16 Q s.
Proof.
  intros Hp Hq Hr HQ. unfold wp, ns8390_read16, read16, dma_read. cbn [fst snd].
  assert (E1 : rsar (dma_next (dev s)) = at_ (x + 1)) by (rewrite dma_next_rsar, Hp, Hq, Hr; by apply at_next).
  assert (Em : forall d, ram (dma_next d) = ram d /\ pstart (dma_next d) = pstart d /\ pstop (dma_next d) = pstop d).
  { intros d. unfold dma_next. by destruct (_ =? 0). }
  rewrite E1, (proj1 (Em _)), Hr. apply HQ.
  - eapply dma_moved_trans; [apply dma_next_moved|]. exact (dma_next_moved (s <| dev := dma_next (dev s) |>)).
  - cbn. rewrite dma_next_rsar, E1. destruct (Em (dev s)) as (_ & -> & ->). rewrite Hp, Hq, at_next by done. f_equal. lia.
Qed.

Lemma wp_read_port s x Q : pstart (dev s) = start -> pstop (dev s) = stop -> rsar (dev s) = at_ x ->
  (forall s', dma_moved s s' -> Q (load8 (ram (dev s)) (at_ x)) s') -> wp (ns8390_read8 NS8390_IOPORT) Q s.
Proof.
  intros Hp Hq Hr HQ. unfold wp, ns8390_read8. change (read8 NS8390_IOPORT (dev s)) with (dma_read (dev s)). unfold dma_read. rewrite Hr.
  apply HQ, dma_next_moved.
Qed.

Lemma wp_read_words n s x Q : pstart (dev s) = start -> pstop (dev s) = stop -> rsar (dev s) = at_ x ->
  (forall s', dma_moved s s' -> rsar (dev s') = at_ (x + 2 * Z.of_nat n) -> Q (ring_bytes start stop (ram (dev s)) x (2 * n)) s') ->
  wp (read_words n) Q s.
Proof.
  revert s x Q. induction n as [|n IH]; intros s x Q Hp Hq Hr HQ; cbn [read_words].
  - apply (HQ s (dma_moved_refl s)). by rewrite Z.add_0_r.
  - apply wp_bind. eapply (wp_read16 s x); [done..|]. intros s1 M1 R1. apply wp_bind. pose proof M1 as (r & c & i & _ & E1).
    eapply (IH s1 (x + 2)); [by rewrite E1|by rewrite E1|exact R1|]. intros s2 M2 R2.
    rewrite Z.mul_comm, Z.mod_add, Z.mod_small, Z.div_add, Z.div_small by (pose proof (u8_range (default 0 (ram (dev s) !! at_ x))); unfold load8; lia).
    replace (2 * S n)%nat with (S (S (2 * n))) in HQ by lia. cbn [ring_bytes] in HQ. rewrite E1.
    replace (ram (dev (s <| dev := _ |>))) with (ram (dev s)) by done. replace (x + 2) with (x + 1 + 1) by lia.
    apply HQ; [by eapply dma_moved_trans|]. rewrite R2. f_equal. lia.
Qed.
End dma.

(** ** Frames in the ring *)

Definition frame_ok (f : list Z) : Prop := Forall is_byte f /\ 60 <= size_of f <= 1518.

Fixpoint total (fs : list (list Z)) : Z := match fs with [] => 0 | f :: fs => pages f + total fs end.

Lemma total_pages_app fs gs : total (fs ++ gs) = total fs + total gs.
Proof. induction fs as [|f fs IH]; cbn; [done|]. rewrite IH. lia. Qed.

Lemma pages_ok f : frame_ok f -> 1 <= pages f <= 6 /\ size_of f + 8 <= 256 * pages f.
Proof. intros [_ Hs]. unfold pages. Z.div_mod_to_equations. lia. Qed.

Section queue.
Context (start stop : Z) (ring_order : 0 < start < stop) (ring_bound : stop <= 249).
Abbreviation n_pages := (stop - start).
Abbreviation pg := (pg start stop).
Abbreviation bytes := (ring_bytes start stop).

(** The frames [fs] follow each other from page [h] on. *)
Fixpoint holds (m : mem) (h : Z) (fs : list (list Z)) : Prop :=
  match fs with
  | [] => True
  | f :: fs => bytes m (256 * h) (4 + length f) = header (pg (h + pages f)) f ++ f /\ holds m (h + pages f) fs
  end.

(** The controller has the frames [fs] for the driver. *)
Record queued (fs : list (list Z)) (d : nic) : Prop := Queued {
  q_frames : Forall frame_ok fs;
  q_room : total fs < n_pages;
  q_at : exists h, bnry d = pg (h - 1) /\ curr d = pg (h + total fs) /\ holds (ram d) h fs }.

Lemma total_nonneg fs : Forall frame_ok fs -> 0 <= total fs.
Proof. induction 1 as [|f fs Hf _ IH]; cbn; [lia|]. pose proof (pages_ok f Hf). lia. Qed.

Lemma pg_inj a b : 0 <= b - a < n_pages -> pg a = pg b -> a = b.
Proof. unfold Ne2000Facts.pg. intros H E. apply (mod_window a b n_pages); lia. Qed.

(** What taking a frame leaves alone. *)
Record same_card (d d' : nic) : Prop := {
  sc_start : pstart d' = pstart d; sc_stop : pstop d' = pstop d; sc_curr : curr d' = curr d; sc_ram : ram d' = ram d;
  sc_wire : wire d' = wire d; sc_page : page d' = 0; sc_alerts : alerts (isr d') = alerts (isr d) }.

(** The driver with a new netbuf [n] for [f], and with [d] for the controller. *)
Definition with_frame (n : nbid) (f : list Z) (d : nic) (s : ne2000) : ne2000 :=
  s <| dev := d |> <| netbufs := <[n := Netbuf_ f [] [] [] None 1 None]> (netbufs s) |>.

Lemma read_packet_wp s b k x f : pstart (dev s) = start -> pstop (dev s) = stop -> page (dev s) = 0 ->
  ring_start_pg s = start -> ring_stop_pg s = stop ->
  256 * b + 4 = ring_at start stop x -> size_of f < 2 ^ 16 -> bytes (ram (dev s)) x (length f) = f ->
  wp (read_packet b (size_of f) (pg k)) (fun r s' => exists d', r = Some (fresh (dom (netbufs s)))
    /\ s' = with_frame (fresh (dom (netbufs s))) f d' s /\ same_card (dev s) d' /\ bnry d' = pg (k - 1)) s.
Proof.
  intros Hp Hq Hpg Hp' Hq' Hx Hf Hm. unfold read_packet. apply wp_bind, wp_gets. unfold id. do 5 io1. apply wp_bind.
  set (w := Z.to_nat (Z.shiftr (size_of f) 1)).
  assert (Hw : size_of f = 2 * Z.of_nat w + (if Z.odd (size_of f) then 1 else 0)).
  { unfold w. rewrite Z.shiftr_div_pow2 by lia. pose proof (Zmod_odd (size_of f)) as Ho. unfold size_of in *.
    destruct (Z.odd _); Z.div_mod_to_equations; lia. }
  eapply (wp_read_words start stop ring_order w _ x); [done|done|cbn; rewrite register_halves by (unfold sizeof_pkt_header; lia); unfold sizeof_pkt_header; lia|].
  intros s1 (r & c & i & A1 & ->) R1. apply wp_bind. rewrite odd_bit. cbn [ram dev setter isr] in *.
  assert (Hdone : forall s2, (exists r c i, alerts i = alerts (isr (dev s)) /\ s2 = s <| dev := (dev s) <| cr := Z.lor CR_STA CR_RD0 |> <| rsar := r |> <| rbcr := c |> <| isr := i |> |>) ->
    wp (ns8390_write8 NS8390_CR (Z.lor CR_STA CR_RD2);; ns8390_write8 PG0_ISR ISR_RDC;;
        ns8390_write8 PG0_BNRY (if u8 (pg k - 1) <? ring_start_pg s then u8 (ring_stop_pg s - 1) else u8 (pg k - 1));;
        (nb ← new_netbuf f; mret (Some nb)))
     (fun r s' => exists d', r = Some (fresh (dom (netbufs s)))
        /\ s' = with_frame (fresh (dom (netbufs s))) f d' s /\ same_card (dev s) d' /\ bnry d' = pg (k - 1)) s2).
  { intros s2 (r2 & c2 & i2 & A2 & ->). do 3 io1. apply wp_bind. eexists. split; [reflexivity|]. split; [reflexivity|].
    split; [constructor; try done; cbn; by rewrite alerts_clear|]. cbn. rewrite Hp', Hq'. by apply pg_pred. }
  destruct (Z.odd (size_of f)) eqn:Ho.
  - apply wp_bind. eapply (wp_read_port start stop _ (x + 2 * Z.of_nat w)); [done|done|exact R1|]. intros s2 (r2 & c2 & i2 & A2 & ->). apply wp_ret.
    cbn [ram dev setter]. replace (bytes _ _ _ ++ _) with f; [apply Hdone; eexists _, _, _; split; [|reflexivity]; etransitivity; [exact A2|exact A1]|].
    rewrite <-Hm at 1. replace (length f) with (2 * w + 1)%nat by (unfold size_of in Hw; lia). rewrite ring_bytes_app. cbn [ring_bytes].
    do 4 f_equal. lia.
  - apply wp_ret. replace (bytes _ _ _) with f; [by apply Hdone; eexists _, _, _|].
    rewrite <-Hm at 1. f_equal. unfold size_of in Hw. lia.
Qed.

Lemma get_empty s : card_ok start stop s -> queued [] (dev s) ->
  wp ns8390_recv_get_packet (fun r s' => r = None /\ s' = s <| dev := (dev s) <| cr := CR_RD2 |> |>) s.
Proof.
  intros [Hp Hq Hp' Hq' _] [_ _ (h & Hb & Hc & _)]. unfold ns8390_recv_get_packet. apply wp_bind, wp_gets. unfold id.
  do 4 io1. cbn [dev bnry curr setter]. rewrite Hp', Hq', Hb, Hc, pg_succ by lia. cbn [total]. replace (h - 1 + 1) with (h + 0) by lia.
  rewrite Z.eqb_refl. by apply wp_ret.
Qed.

Lemma header_bytes m h f fs : holds m h (f :: fs) ->
  bytes m (256 * h) 4 = header (pg (h + pages f)) f /\ bytes m (256 * h + 4) (length f) = f.
Proof.
  intros [E _]. rewrite ring_bytes_app in E. apply app_inj_1 in E; [|by rewrite ring_bytes_length].
  replace (256 * h + 4) with (256 * h + Z.of_nat 4) by lia. done.
Qed.

Lemma get_frame f fs s : card_ok start stop s -> queued (f :: fs) (dev s) ->
  wp ns8390_recv_get_packet (fun r s' => exists d', r = Some (fresh (dom (netbufs s)))
    /\ s' = with_frame (fresh (dom (netbufs s))) f d' s /\ same_card (dev s) d' /\ queued fs d') s.
Proof.
  intros [Hp Hq Hp' Hq' _] [Hfr Hroom (h & Hb & Hc & Hh)]. inversion_clear Hfr as [|? ? Hf Hfs].
  pose proof (pages_ok f Hf) as [Hpf Hsz]. destruct Hf as [Hby Hsize]. pose proof (total_nonneg fs Hfs) as Ht. cbn [total] in *.
  destruct (header_bytes _ _ _ _ Hh) as [Hhd Hbody].
  unfold ns8390_recv_get_packet. apply wp_bind, wp_gets. unfold id. do 4 io1. cbn [dev bnry curr setter]. rewrite Hp', Hq', Hb, Hc.
  rewrite pg_succ by lia. replace (h - 1 + 1) with h by lia.
  destruct (Z.eqb_spec (pg h) (pg (h + (pages f + total fs)))) as [E|_]; [apply pg_inj in E; lia|].
  do 5 io1. apply wp_bind.
  eapply (wp_read_words start stop ring_order 2 _ (256 * h)).
  { done. } { done. }
  { cbn. rewrite register_halves by lia. pose proof (at_page start stop ring_order h 0 ltac:(lia)) as Ha. rewrite Z.add_0_r in Ha. lia. }
  intros s1 (r & c & i & A1 & ->) _. cbn [ram dev setter isr Nat.mul Nat.add] in *. rewrite Hhd. do 2 io1. cbn [header nth].
  assert (Esz : (size_of f + 4) mod 256 + 256 * ((size_of f + 4) / 256) = size_of f + 4) by (Z.div_mod_to_equations; lia).
  rewrite Esz. unfold sizeof_pkt_header. replace (size_of f + 4 - 4) with (size_of f) by lia. rewrite (u16_small (size_of f)) by lia.
  replace (Z.shiftr (size_of f + 4 + 4 + 255) 8) with (pages f).
  2:{ rewrite Z.shiftr_div_pow2 by lia. unfold pages. f_equal. lia. }
  pose proof (pg_range start stop ring_order h) as Hpg. rewrite (u8_small (pg h + pages f)) by lia.
  assert (Enext : (if pg h + pages f >=? stop then u8 (pg h + pages f - n_pages) else pg h + pages f) = pg (h + pages f)).
  { rewrite <-(pg_add start stop ring_order h (pages f)) by lia. destruct (_ >=? _) eqn:E; [|done]. apply u8_small. lia. }
  rewrite Enext, Z.eqb_refl. replace (size_of f <? 60) with false by lia. replace (size_of f >? 1518) with false by lia. cbn [negb orb].
  eapply wp_mono; [apply (read_packet_wp _ (pg h) (h + pages f) (256 * h + 4) f); try done|].
  - symmetry. apply (at_page start stop ring_order); lia.
  - lia.
  - intros r' s' (d' & -> & -> & [S1 S2 S3 S4 S5 S6 S7] & Hb'). exists d'. split; [done|]. split; [done|].
    split; [constructor; try done; rewrite S7; cbn; by rewrite alerts_clear|].
    split; [done|lia|]. exists (h + pages f). split_and!; [done| |].
    + rewrite S3. cbn. rewrite Hc. f_equal. lia.
    + rewrite S4. apply Hh.
Qed.

(** A frame arrives. *)
Lemma holds_app m h fs gs : holds m h (fs ++ gs) <-> holds m h fs /\ holds m (h + total fs) gs.
Proof.
  revert h. induction fs as [|f fs IH]; intros h; cbn [app holds total]; [rewrite Z.add_0_r; tauto|]. rewrite IH.
  replace (h + (pages f + total fs)) with (h + pages f + total fs) by lia. tauto.
Qed.

Lemma holds_put m x l h fs : Forall frame_ok fs -> 256 * (h + total fs) <= x -> x + size_of l <= 256 * (h + n_pages) ->
  holds m h fs -> holds (ring_put start stop x l m) h fs.
Proof.
  intros Hfs. revert h. induction Hfs as [|f fs Hf Hfs IH]; intros h Hx Hl; cbn [holds total] in *; [done|].
  pose proof (pages_ok f Hf) as [Hpf Hsz]. pose proof (total_nonneg fs Hfs). intros [E Hh]. split; [|apply IH; [lia|lia|done]].
  rewrite (ring_bytes_before start stop) by (unfold size_of in *; lia). done.
Qed.

Lemma header_is_bytes k f : frame_ok f -> Forall is_byte (header (pg k) f).
Proof.
  intros [_ Hs]. pose proof (pg_range start stop ring_order k). repeat constructor; unfold is_byte; try lia; Z.div_mod_to_equations; lia.
Qed.

Lemma arrive_queued f fcs fs d : pstart d = start -> pstop d = stop -> queued fs d -> frame_ok f -> length fcs = 4%nat -> Forall is_byte fcs ->
  queued (if total fs + pages f <? n_pages then fs ++ [f] else fs) (arrives f fcs d).
Proof.
  intros Hp Hq [Hfs Hroom (h & Hb & Hc & Hh)] Hf Hl Hby. pose proof (total_nonneg fs Hfs) as Ht. pose proof (pages_ok f Hf) as [Hpf Hsz].
  assert (Efree : free_pages d = n_pages - 1 - total fs).
  { unfold free_pages. rewrite Hp, Hq, Hb, Hc. unfold Ne2000Facts.pg. replace (start + (h - 1) mod n_pages - (start + (h + total fs) mod n_pages))
      with ((h - 1) mod n_pages - (h + total fs) mod n_pages) by lia. rewrite <-Zminus_mod.
    symmetry. apply (Z.mod_unique _ _ (-1)); lia. }
  unfold arrives. rewrite Efree. destruct (Z.ltb_spec (total fs + pages f) n_pages) as [Hlt|Hge].
  2:{ replace (pages f <=? n_pages - 1 - total fs) with false by lia. split; [done|done|]. by exists h. }
  replace (pages f <=? n_pages - 1 - total fs) with true by lia.
  assert (Enext : wrap_page d (curr d + pages f) = pg (h + total fs + pages f)).
  { unfold wrap_page. rewrite Hp, Hq, Hc. apply (pg_add start stop ring_order). lia. }
  rewrite Enext. set (l := header _ f ++ f ++ fcs).
  assert (Hlen : size_of l = size_of f + 8) by (unfold size_of, l; rewrite !length_app, Hl; cbn; lia).
  assert (Hlb : Forall is_byte l) by (unfold l; rewrite !Forall_app; split_and!; [by apply header_is_bytes|apply Hf|done]).
  split; [by apply Forall_app; split; [|constructor]|rewrite total_pages_app; cbn; lia|]. exists h. cbn [bnry curr ram setter]. rewrite Hp, Hq, total_pages_app. cbn [total].
  split_and!; [done|f_equal; lia|]. rewrite Hc.
  rewrite (ring_put_congr start stop ring_order _ (256 * (h + total fs))).
  2:{ unfold Ne2000Facts.pg. replace (256 * (start + (h + total fs) mod n_pages - start)) with (256 * ((h + total fs) mod n_pages)) by lia.
      rewrite <-Z.mul_mod_distr_l by lia. apply Z.mod_mod. lia. }
  apply holds_app. split; [apply holds_put; [done|lia|lia|done]|]. cbn [holds]. split; [|done].
  pose proof (ring_bytes_put start stop (256 * (h + total fs)) l (ram d) Hlb ltac:(lia)) as Hr.
  replace (length l) with (4 + length f + 4)%nat in Hr by (unfold l; rewrite !length_app, Hl; cbn; lia).
  rewrite ring_bytes_app in Hr. refine (proj1 (app_inj_1 _ _ _ _ _ (eq_trans Hr (app_assoc _ _ _)))).
  by rewrite ring_bytes_length, length_app.
Qed.
End queue.

(** ** Sending *)

Fixpoint put_bytes (a : Z) (l : list Z) (m : mem) : mem :=
  match l with [] => m | v :: l => put_bytes (a + 1) l (store8 m a v) end.

Lemma put_bytes_app a l1 l2 m : put_bytes a (l1 ++ l2) m = put_bytes (a + size_of l1) l2 (put_bytes a l1 m).
Proof.
  unfold size_of. revert a m. induction l1 as [|v l1 IH]; intros a m; cbn [app put_bytes length]; [by rewrite Z.add_0_r|]. rewrite IH. f_equal. lia.
Qed.

Lemma put_bytes_out a l m z : z < a \/ a + size_of l <= z -> load8 (put_bytes a l m) z = load8 m z.
Proof.
  unfold size_of. revert a m. induction l as [|v l IH]; intros a m Hz; cbn [put_bytes length] in *; [done|]. rewrite IH by lia. apply load8_store8_ne. lia.
Qed.

Lemma card_bytes_put a l m : Forall is_byte l -> card_bytes (put_bytes a l m) a (length l) = l.
Proof.
  intros Hl. revert a m. induction Hl as [|v l Hv Hl IH]; intros a m; cbn [put_bytes length card_bytes]; [done|].
  rewrite IH, put_bytes_out, load8_store8, u8_small by (exact Hv || lia). done.
Qed.

(** The bytes [l] have gone to the controller; a transfer that is complete is flagged. *)
Definition flagged (d : nic) : Prop := rbcr d = 0 -> has (isr d) ISR_RDC = true.
Definition wrote (l : list Z) (s s' : ne2000) : Prop := exists i, alerts i = alerts (isr (dev s)) /\
  s' = s <| dev := (dev s) <| ram := put_bytes (rsar (dev s)) l (ram (dev s)) |> <| rsar := rsar (dev s) + size_of l |>
                           <| rbcr := rbcr (dev s) - size_of l |> <| isr := i |> |>
  /\ (flagged (dev s) -> flagged (dev s')).

Lemma wrote_nil s : wrote [] s s.
Proof. exists (isr (dev s)). split; [done|]. split; [|done]. cbn. rewrite Z.add_0_r, Z.sub_0_r. by destruct s as [[]]. Qed.

Lemma wrote_app l1 l2 s s1 s2 : wrote l1 s s1 -> wrote l2 s1 s2 -> wrote (l1 ++ l2) s s2.
Proof.
  intros (i1 & A1 & E1 & F1) (i2 & A2 & E2 & F2). exists i2. split; [by rewrite A2, E1|]. split; [|auto]. subst. cbn. rewrite put_bytes_app. unfold size_of. rewrite length_app, Nat2Z.inj_add.
  rewrite Z.add_assoc, Z.sub_add_distr. done.
Qed.

Section transmit.
Context (start stop : Z) (ring_order : 0 < start < stop).

Lemma wrote_byte v s : pstop (dev s) = stop -> rsar (dev s) < 256 * start -> wrote [v] s (s <| dev := dma_write v (dev s) |>).
Proof.
  intros Hq Hr. unfold dma_write, dma_next. cbn [rsar rbcr pstop pstart setter dev]. rewrite Hq. replace (rsar (dev s) + 1 =? 256 * stop) with false by lia.
  destruct (_ =? 0) eqn:Ez.
  - exists (Z.lor (isr (dev s)) ISR_RDC). split; [apply alerts_complete|]. split; [done|]. intros _ _. unfold has, ISR_RDC. cbn [isr setter dev]. change 0x40 with (2 ^ 6).
    apply negb_true_iff, Z.eqb_neq. intros E. assert (Hb : Z.testbit (Z.land (Z.lor (isr (dev s)) (2 ^ 6)) (2 ^ 6)) 6 = true)
      by (rewrite Z.land_spec, Z.lor_spec; apply andb_true_iff; split; [by rewrite orb_true_r|done]). by rewrite E in Hb.
  - exists (isr (dev s)). split; [done|]. split; [done|]. intros _ E. exfalso. cbn in E. lia.
Qed.

Lemma wrote_word a b s : is_byte a -> is_byte b -> pstop (dev s) = stop -> rsar (dev s) + 2 <= 256 * start ->
  wrote [a; b] s (s <| dev := write16 (a + 256 * b) (dev s) |>).
Proof.
  intros Ha Hb Hq Hr. unfold is_byte in *. unfold write16. rewrite Z.mul_comm, Z.mod_add, Z.mod_small, Z.div_add, Z.div_small by lia.
  pose proof (wrote_byte a s Hq ltac:(lia)) as H1. eapply (wrote_app [a] [b]); [exact H1|]. destruct H1 as (i & _ & E & _).
  rewrite Z.add_0_l. refine (wrote_byte b (s <| dev := dma_write a (dev s) |>) _ _); rewrite E; [done|cbn; unfold size_of; cbn; lia].
Qed.

Lemma wp_write_words l s : Forall is_byte l -> pstop (dev s) = stop -> rsar (dev s) + size_of l <= 256 * start ->
  wp (write_words l) (fun _ s' => wrote (even_part l) s s') s.
Proof.
  revert s. induction l as [|a|a b l IH] using pair_ind; intros s Hl Hq Hr; cbn [write_words even_part]; [by apply wrote_nil|by apply wrote_nil|].
  inversion_clear Hl as [|? ? Ha Hl']. inversion_clear Hl' as [|? ? Hb Hl]. unfold size_of in *. cbn [length] in Hr.
  apply wp_bind. pose proof (wrote_word a b s Ha Hb Hq ltac:(lia)) as H1. unfold ns8390_write16, wp at 1, modify. pose proof H1 as (i & _ & E & _).
  eapply wp_mono; [apply IH; [done|by rewrite E|rewrite E; cbn; unfold size_of; cbn; lia]|]. intros [] s' H2. eapply (wrote_app [a; b]); [|exact H2]. exact H1.
Qed.

(** One more piece of a frame. *)
Lemma words_more l l' s0 s : wrote l s0 s -> Forall is_byte l' -> pstop (dev s0) = stop -> rsar (dev s0) + size_of l + size_of l' <= 256 * start ->
  wp (write_words l') (fun _ s' => wrote (l ++ even_part l') s0 s') s.
Proof.
  intros W Hl Hq Hr. pose proof W as (i & _ & E & _). eapply wp_mono; [apply wp_write_words; [done|by rewrite E|rewrite E; cbn; lia]|].
  intros [] s' W'. by eapply wrote_app.
Qed.

Lemma byte_more l v s0 s : wrote l s0 s -> pstop (dev s0) = stop -> rsar (dev s0) + size_of l < 256 * start ->
  wp (ns8390_write8 NS8390_IOPORT v) (fun _ s' => wrote (l ++ [v]) s0 s') s.
Proof.
  intros W Hq Hr. pose proof W as (i & _ & E & _). unfold wp, ns8390_write8, modify. change (write8 NS8390_IOPORT v (dev s)) with (dma_write v (dev s)).
  eapply wrote_app; [exact W|]. apply wrote_byte; rewrite E; [done|cbn; lia].
Qed.

(** The application layer, and the padding. *)
Lemma layer_more l l' s0 s : wrote l s0 s -> Forall is_byte l' -> pstop (dev s0) = stop -> rsar (dev s0) + size_of l + size_of l' <= 256 * start ->
  wp (write_application l') (fun _ s' => wrote (l ++ l') s0 s') s.
Proof.
  intros W Hl Hq Hr. unfold write_application. apply wp_bind. eapply wp_mono; [by apply (words_more l l' s0)|]. intros [] s1 W1. rewrite odd_bit.
  destruct (Z.odd (size_of l')) eqn:Ho.
  - pose proof (even_part_odd l' Ho) as El.
    replace (l ++ l') with ((l ++ even_part l') ++ [default 0 (last l')]) by (by rewrite <-app_assoc, El).
    assert (Hs : size_of l' = size_of (even_part l') + 1) by (rewrite <-El at 1; unfold size_of; rewrite length_app; cbn; lia).
    apply byte_more; [done|done|]. unfold size_of in *. rewrite length_app. lia.
  - apply wp_ret. rewrite even_part_even in W1 by (by rewrite <-Z.negb_odd, Ho). done.
Qed.

Lemma zeros_even k : even_part (replicate (2 * k) 0) = replicate (2 * k) 0.
Proof. apply even_part_even. unfold size_of. rewrite length_replicate, Nat2Z.inj_mul. by rewrite Z.even_mul. Qed.

Lemma zero_bytes k : Forall is_byte (replicate k 0).
Proof. apply Forall_replicate. unfold is_byte. lia. Qed.

Lemma pad_more l p s0 s : wrote l s0 s -> 0 <= p -> pstop (dev s0) = stop -> rsar (dev s0) + size_of l + p <= 256 * start ->
  wp (write_pad p) (fun _ s' => wrote (l ++ replicate (Z.to_nat p) 0) s0 s') s.
Proof.
  intros W Hp Hq Hr. unfold write_pad. set (k := Z.to_nat (Z.shiftr p 1)).
  assert (Hk : p = 2 * Z.of_nat k + (if Z.odd p then 1 else 0)).
  { unfold k. rewrite Z.shiftr_div_pow2 by lia. pose proof (Zmod_odd p). destruct (Z.odd p); Z.div_mod_to_equations; lia. }
  apply wp_bind. eapply wp_mono; [apply (words_more l _ s0); [done|apply zero_bytes|done|]|].
  { assert (2 * Z.of_nat k <= p) by (destruct (Z.odd p); lia). unfold size_of in *. rewrite length_replicate. lia. }
  intros [] s1 W1. rewrite zeros_even in W1. rewrite odd_bit. destruct (Z.odd p) eqn:Ho; rewrite ?Ho in Hk.
  - replace (Z.to_nat p) with (2 * k + 1)%nat by lia. rewrite replicate_add, app_assoc. apply byte_more; [done|done|].
    unfold size_of in *. rewrite length_app, length_replicate. lia.
  - apply wp_ret. by replace (Z.to_nat p) with (2 * k)%nat by lia.
Qed.

Lemma wp_wait_dma polls i (Q : Z -> ne2000 -> Prop) s : page (dev s) = 0 -> has (isr (dev s)) ISR_RDC = true -> Q i s -> wp (wait_dma (S polls) i) Q s.
Proof.
  intros Hp Hi HQ. cbn [wait_dma]. apply wp_bind. eapply wp_read; [by apply read_isr|]. rewrite Hi. apply wp_ret. by destruct s.
Qed.

(** A frame as it goes on the wire. *)
Definition padded (f : list Z) : list Z := f ++ replicate (60 - length f) 0.

(** Only the application layer may be odd, and the frame fits in front of the ring. *)
Record sendable (room : Z) (nb : netbuf) : Prop := {
  sd_bytes : Forall is_byte (layers nb);
  sd_datalink : Z.even (size_of (nb_datalink nb)) = true;
  sd_network : Z.even (size_of (nb_network nb)) = true;
  sd_transport : Z.even (size_of (nb_transport nb)) = true;
  sd_room : size_of (layers nb) <= room }.

(** What sending leaves alone: everything from page [start] on, where the ring is. *)
Record same_ring (d d' : nic) : Prop := {
  sr_start : pstart d' = pstart d; sr_stop : pstop d' = pstop d; sr_curr : curr d' = curr d; sr_bnry : bnry d' = bnry d;
  sr_page : page d' = 0; sr_alerts : alerts (isr d') = alerts (isr d); sr_ram : forall a, 256 * start <= a -> load8 (ram d') a = load8 (ram d) a }.

Lemma padded_size f : size_of f < 2 ^ 16 -> size_of (padded f) = if size_of f <? 60 then 60 else size_of f.
Proof. unfold size_of, padded. rewrite length_app, length_replicate. intros _. destruct (_ <? _) eqn:E; lia. Qed.

Lemma padded_bytes f : Forall is_byte f -> Forall is_byte (padded f).
Proof. intros Hf. unfold padded. apply Forall_app. split; [done|apply zero_bytes]. Qed.

(** The frame is written into the send pages. *)
Lemma frame_written nb s0 (Q : unit -> ne2000 -> Prop) :
  let sz := size_of (layers nb) in
  sendable (256 * start - rsar (dev s0)) nb -> 60 <= 256 * start - rsar (dev s0) -> pstop (dev s0) = stop ->
  forall k, (forall s, wrote (padded (layers nb)) s0 s -> wp k Q s) ->
  wp (write_words (nb_datalink nb);; write_words (nb_network nb);; write_words (nb_transport nb);;
      write_application (nb_application nb);; write_pad (if sz <? 60 then u8 (60 - sz) else 0);; k) Q s0.
Proof.
  intros sz [Hb He1 He2 He3 Hroom] Hmin Hq k Hk. pose proof Hb as Hb'. unfold layers in Hb'. rewrite !Forall_app in Hb'.
  destruct Hb' as (B1 & B2 & B3 & B4). assert (Esz : sz = size_of (nb_datalink nb) + size_of (nb_network nb) + size_of (nb_transport nb) + size_of (nb_application nb))
    by (unfold sz, layers; rewrite !size_app; lia).
  fold sz in Hroom.
  assert (P1 : 0 <= size_of (nb_datalink nb)) by (unfold size_of; lia). assert (P2 : 0 <= size_of (nb_network nb)) by (unfold size_of; lia).
  assert (P3 : 0 <= size_of (nb_transport nb)) by (unfold size_of; lia). assert (P4 : 0 <= size_of (nb_application nb)) by (unfold size_of; lia).
  apply wp_bind. eapply wp_mono; [apply (words_more [] _ s0 s0 (wrote_nil s0)); [done|done|change (size_of []) with 0; lia]|].
  intros [] s1 W1. rewrite even_part_even in W1 by done. apply wp_bind.
  eapply wp_mono; [apply (words_more _ _ s0 s1 W1); [done|done|rewrite ?size_app; change (size_of []) with 0; lia]|].
  intros [] s2 W2. rewrite even_part_even in W2 by done. apply wp_bind.
  eapply wp_mono; [apply (words_more _ _ s0 s2 W2); [done|done|rewrite ?size_app; change (size_of []) with 0; lia]|].
  intros [] s3 W3. rewrite even_part_even in W3 by done. apply wp_bind.
  eapply wp_mono; [apply (layer_more _ _ s0 s3 W3); [done|done|rewrite ?size_app; change (size_of []) with 0; lia]|].
  intros [] s4 W4. rewrite app_nil_l, <-!app_assoc in W4. fold (layers nb) in W4. apply wp_bind.
  assert (Ep : Z.to_nat (if sz <? 60 then u8 (60 - sz) else 0) = (60 - length (layers nb))%nat).
  { fold sz in Hroom. unfold sz, size_of in *. destruct (_ <? _) eqn:E; [rewrite u8_small by lia|]; lia. }
  eapply wp_mono; [apply (pad_more _ _ s0 s4 W4); [|done|]|].
  - destruct (_ <? _) eqn:E; [apply u8_range|lia].
  - fold sz. destruct (sz <? 60) eqn:E; [rewrite u8_small by lia|]; lia.
  - intros [] s5 W5. rewrite Ep in W5. by apply Hk.
Qed.

Lemma send_frame sp s n nb : card_ok start stop s -> start <= 255 -> netbufs s !! n = Some nb -> send_start_pg s = sp -> 0 <= sp < start ->
  sendable (Z.min (256 * (start - sp)) 0x5ff) nb ->
  wp (ns8390_send_set_packet n) (fun _ s' => exists d', s' = s <| dev := d' |> <| tx_available := 0 |>
    /\ same_ring (dev s) d' /\ wire d' = wire (dev s) ++ [padded (layers nb)]) s.
Proof.
  intros [Hp Hq Hp' Hq' Hpg] Hst Hn <- Hsp' Hsd. set (sp := send_start_pg s) in *. unfold ns8390_send_set_packet. apply wp_bind, wp_gets. unfold id. rewrite Hn.
  pose proof (sd_room _ _ Hsd) as Hroom. assert (Pos : 0 <= size_of (layers nb)) by (unfold size_of; lia).
  assert (Esz : u16 (size_of (nb_datalink nb) + size_of (nb_network nb) + size_of (nb_transport nb) + size_of (nb_application nb)) = size_of (layers nb)).
  { rewrite u16_small; unfold layers in *; rewrite !size_app in *; [lia|]. lia. }
  rewrite Esz. set (sz := size_of (layers nb)) in *. replace (sz >=? 0x0600) with false by lia.
  set (sz' := if sz <? 60 then 60 else sz). assert (Hsz' : 60 <= sz' < 2 ^ 16) by (unfold sz'; destruct (sz <? 60) eqn:E; lia).
  assert (Hfit : sz' <= 256 * (start - sp)) by (unfold sz'; destruct (sz <? 60) eqn:E; lia).
  destruct (half_words sz') as [Hlo Hall]; [lia|]. do 5 io1.
  pose proof (padded_size (layers nb) ltac:(lia)) as Hps. fold sz sz' in Hps.
  lazymatch goal with |- wp _ _ ?t => set (s0 := t) end. assert (Er : rsar (dev s0) = 256 * sp) by (cbn; rewrite register_halves by lia; lia).
  assert (Ec : rbcr (dev s0) = sz') by (cbn; rewrite register_halves by lia; exact Hall).
  apply (frame_written nb s0); [rewrite Er|rewrite Er; lia|done|].
  { destruct Hsd as [? ? ? ? ?]. split; try done. lia. }
  intros s1 (i & A1 & -> & F). apply wp_bind. eapply wp_write; [by apply write_cr|]. apply wp_bind. apply wp_wait_dma; [done| |].
  { apply F; [intros E; rewrite Ec in E; lia|]. cbn [rbcr dev setter]. rewrite Hps, Ec. lia. }
  cbn [Z.geb Z.compare]. do 5 io1. unfold wp, modify. eexists. split; [reflexivity|]. split.
  - constructor; try done; [cbn; by rewrite alerts_clear|]. intros a Ha. cbn [ram setter dev]. rewrite Er. rewrite put_bytes_out; [done|]. right. rewrite Hps. lia.
  - cbn [wire setter dev ram tpsr tbcr]. rewrite register_halves by lia. rewrite Hall, Er. do 3 f_equal.
    rewrite <-Hps. unfold size_of at 1. rewrite Nat2Z.id. apply card_bytes_put, padded_bytes, Hsd.
Qed.

End transmit.

(** ** The driver and its card *)

Lemma has_bit i k : 0 <= k -> has i (2 ^ k) = Z.testbit i k.
Proof.
  intros Hk. unfold has. destruct (Z.testbit i k) eqn:E.
  - destruct (Z.eqb_spec (Z.land i (2 ^ k)) 0) as [E0|]; [|done].
    assert (Hb : Z.testbit (Z.land i (2 ^ k)) k = true) by (by rewrite Z.land_spec, E, Z.pow2_bits_true). by rewrite E0, Z.testbit_0_l in Hb.
  - replace (Z.land i (2 ^ k)) with 0; [done|]. symmetry. apply Z.bits_inj_0. intros j. rewrite Z.land_spec.
    destruct (decide (j = k)) as [->|]; [by rewrite E|]. rewrite Z.pow2_bits_false by done. apply andb_false_r.
Qed.

Lemma has_lor i a b : has i (Z.lor a b) = has i a || has i b.
Proof.
  unfold has. rewrite Z.land_lor_distr_r, <-negb_andb. f_equal.
  destruct (Z.eqb_spec (Z.lor (Z.land i a) (Z.land i b)) 0) as [E|E].
  - apply Z.lor_eq_0_iff in E as [-> ->]. done.
  - symmetry. apply andb_false_iff. rewrite !Z.eqb_neq. destruct (decide (Z.land i a = 0)) as [Ea|]; [|by left].
    right. intros Eb. by rewrite Ea, Eb in E.
Qed.

(** The three flags. *)
Definition flag_bits (i : Z) : bool * bool * bool := (has i ISR_PRX, has i ISR_PTX, has i ISR_OVW).

Lemma flag_bits_test i : flag_bits i = (Z.testbit i 0, Z.testbit i 1, Z.testbit i 4).
Proof. unfold flag_bits. change ISR_PRX with (2 ^ 0). change ISR_PTX with (2 ^ 1). change ISR_OVW with (2 ^ 4). by rewrite !has_bit by lia. Qed.

Lemma flag_bits_alerts i j : alerts i = alerts j -> flag_bits i = flag_bits j.
Proof.
  intros E. rewrite !flag_bits_test.
  assert (H : forall k, Z.testbit (Z.lor (Z.lor ISR_PRX ISR_PTX) ISR_OVW) k = true -> Z.testbit i k = Z.testbit j k).
  { intros k Hk. pose proof (f_equal (fun z => Z.testbit z k) E) as Et. unfold alerts in Et. cbv beta in Et.
    by rewrite !Z.land_spec, Hk, !andb_true_r in Et. }
  by rewrite (H 0), (H 1), (H 4).
Qed.

(** What the driver promises: the frames in the card, those it has handed to the client,
    the netbufs that wait, the frames on the wire. *)
Record link := Link {
  l_rx : list (list Z); l_got : list (Z * list Z); l_out : list nbid; l_wire : list (list Z);
  l_busy : bool; l_prx : bool; l_ptx : bool }.
#[local] Instance eta_link : Eta link := fun l => Link (l_rx l) (l_got l) (l_out l) (l_wire l) (l_busy l) (l_prx l) (l_ptx l).

(** [Arrive f fcs]: a frame comes from the network.  [Done]: the controller has sent what
    it was told to.  [Intr]: the thread wakes up.  [Send n]: the stack sends [n]. *)
Inductive op := Arrive (f fcs : list Z) | Done | Intr | Send (n : nbid).

Section driver.
Context (start stop sp : Z) (ring_order : 0 < start < stop) (ring_bound : stop <= 249) (send_pages : 0 <= sp < start).
Context (client : option Z) (counts : refs) (client_live : forall c, client = Some c -> live counts c).
Abbreviation n_pages := (stop - start).
Abbreviation room := (Z.min (256 * (start - sp)) 0x5ff).

(** The netbufs of the stack, which it has references to. *)
Context (st0 : nbstore) (st0_ok : forall n nb, st0 !! n = Some nb -> sendable room nb /\ 0 < nb_refs nb < 2 ^ 32 - 1).

Definition frame_of (n : nbid) : list Z := match st0 !! n with Some nb => padded (layers nb) | None => [] end.

Definition recv_step (l : link) : link :=
  match l_rx l with
  | [] => l <| l_prx := false |>
  | f :: fs => l <| l_rx := fs |> <| l_got := l_got l ++ match client with Some c => [(c, f)] | None => [] end |>
  end.

Definition sent_step (l : link) : link :=
  match l_out l with
  | [] => l <| l_ptx := false |> <| l_busy := false |>
  | n :: ns => l <| l_ptx := false |> <| l_busy := true |> <| l_out := ns |> <| l_wire := l_wire l ++ [frame_of n] |>
  end.

Definition link_step (o : op) (l : link) : link :=
  match o with
  | Arrive f _ => l <| l_rx := l_rx l ++ [f] |> <| l_prx := true |>
  | Done => l <| l_ptx := true |>
  | Intr => let l' := if l_prx l then recv_step l else l in if l_ptx l then sent_step l' else l'
  | Send n => if l_busy l then l <| l_out := l_out l ++ [n] |>
              else l <| l_wire := l_wire l ++ [frame_of n] |> <| l_busy := true |>
  end.

(** The store: the netbufs of the stack, those that wait with one more reference. *)
Definition stored (out : list nbid) (st : nbstore) : Prop :=
  forall n nb0, st0 !! n = Some nb0 -> exists nb, st !! n = Some nb /\ layers nb = layers nb0
    /\ sendable room nb /\ nb_refs nb = nb_refs nb0 + (if decide (n ∈ out) then 1 else 0).

Record shows (lock : bool) (l : link) (s : ne2000) : Prop := Shows {
  sh_card : card_ok start stop s;
  sh_queue : queued start stop (l_rx l) (dev s);
  sh_pages : send_start_pg s = sp;
  sh_lock : dev_lock s = lock;
  sh_client : edi_client s = client /\ structs s = counts;
  sh_flags : flag_bits (isr (dev s)) = (l_prx l, l_ptx l, false);
  sh_busy : tx_available s = if l_busy l then 0 else 1;
  sh_wire : wire (dev s) = l_wire l;
  sh_got : received s = l_got l;
  sh_out : nb_queue (netbufs s) (send_queue s) (l_out l);
  sh_store : stored (l_out l) (netbufs s) }.

(** Writing the frame of a netbuf. *)
Lemma queued_ring fs d d' : same_ring start d d' -> queued start stop fs d -> queued start stop fs d'.
Proof.
  intros [S1 S2 S3 S4 _ _ S6] [Hf Hr (h & Hb & Hc & Hh)]. split; [done|done|]. exists h. split_and!; [congruence|congruence|].
  clear Hb Hc Hr. revert h Hh. induction Hf as [|f fs Hf Hfs IH]; intros h Hh; cbn [holds] in *; [done|]. destruct Hh as [E Hh]. split; [|by apply IH].
  rewrite <-E. generalize (4 + length f)%nat (256 * h). intros n. induction n as [|n IHn]; intros x; cbn [ring_bytes]; [done|].
  rewrite IHn, S6; [done|]. unfold ring_at. pose proof (Z.mod_pos_bound x (256 * n_pages) ltac:(lia)). lia.
Qed.

Lemma sendable_ext nb nb' : nb_datalink nb' = nb_datalink nb -> nb_network nb' = nb_network nb -> nb_transport nb' = nb_transport nb ->
  nb_application nb' = nb_application nb -> sendable room nb -> sendable room nb' /\ layers nb' = layers nb.
Proof. intros E1 E2 E3 E4 [? ? ? ? ?]. unfold layers in *. rewrite E1, E2, E3, E4. split; [constructor; unfold layers; by rewrite ?E1, ?E2, ?E3, ?E4|done]. Qed.

Lemma shows_wire lock l s d x : shows lock l s -> same_ring start (dev s) d -> wire d = wire (dev s) ++ [x] ->
  shows lock (l <| l_wire := l_wire l ++ [x] |> <| l_busy := true |>) (s <| dev := d |> <| tx_available := 0 |>).
Proof.
  intros [Hcard Hqu Hpg Hlk Hcl Hfl Hbu Hwi Hgo Hout Hst] Hring Hw.
  pose proof Hcard as [C1 C2 C3 C4 C5]. pose proof Hring as [S1 S2 S3 S4 S5 S6 S7]. constructor; try done.
  - constructor; cbn; congruence.
  - by eapply queued_ring.
  - cbn. rewrite <-Hfl. by apply flag_bits_alerts.
  - cbn. by rewrite Hw, Hwi.
Qed.

Lemma send_now lock l s n nb0 : shows lock l s -> st0 !! n = Some nb0 ->
  wp (ns8390_send_set_packet n) (fun _ s' => shows lock (l <| l_wire := l_wire l ++ [frame_of n] |> <| l_busy := true |>) s') s.
Proof.
  intros Hsh Hn. destruct (sh_store _ _ _ Hsh n nb0 Hn) as (nb & Hnb & El & Hsd & _).
  eapply wp_mono; [apply (send_frame start stop ring_order sp s n nb); try done; [apply Hsh|lia|apply Hsh]|].
  intros [] s' (d' & -> & Hring & Hw). apply shows_wire; [done|done|]. rewrite Hw, El. unfold frame_of. by rewrite Hn.
Qed.

(** References to a netbuf of the stack. *)
Lemma insert_refs_link st n nb k : st !! n = Some nb -> forall m, nb_link (<[n := nb <| nb_refs := k |>]> st) m = nb_link st m.
Proof.
  intros Hn m. unfold nb_link. destruct (decide (m = n)) as [->|]; [by rewrite lookup_insert_eq, Hn|by rewrite lookup_insert_ne].
Qed.

Lemma stored_insert out out' st n nb k : stored out st -> st !! n = Some nb ->
  (forall nb0, st0 !! n = Some nb0 -> k = nb_refs nb0 + (if decide (n ∈ out') then 1 else 0)) ->
  (forall m, m <> n -> m ∈ out' <-> m ∈ out) -> stored out' (<[n := nb <| nb_refs := k |>]> st).
Proof.
  intros Hst Hn Hk Hm m nb0 E0. destruct (Hst m nb0 E0) as (b & Eb & El & Es & Er). destruct (decide (m = n)) as [->|Hne].
  - rewrite lookup_insert_eq. eexists. split; [reflexivity|]. simplify_eq. destruct (sendable_ext nb (nb <| nb_refs := k |>)) as [Hs El']; [done..|].
    split; [congruence|]. split; [done|]. cbn. by apply Hk.
  - rewrite lookup_insert_ne by done. exists b. split_and!; [done|done|done|]. rewrite Er. specialize (Hm m Hne).
    f_equal. by apply decide_ext.
Qed.

Lemma shows_lock k k' l s : shows k l s -> shows k' l (s <| dev_lock := k' |>).
Proof. intros [[C1 C2 C3 C4 C5] D2 D3 D4 D5 D6 D7 D8 D9 D10 D11]. by constructor. Qed.

Lemma wp_unlock l (Q : unit -> ne2000 -> Prop) s : shows true l s -> (forall s', shows false l s' -> Q tt s') -> wp unlock_dev Q s.
Proof. intros H HQ. unfold wp, unlock_dev. rewrite (sh_lock _ _ _ H). cbn. by eapply HQ, shows_lock. Qed.

Lemma wp_lock l (Q : unit -> ne2000 -> Prop) s : shows false l s -> Q tt (s <| dev_lock := true |>) -> wp lock_dev Q s.
Proof. intros H HQ. unfold wp, lock_dev. by rewrite (sh_lock _ _ _ H). Qed.

(** The stack sends. *)
Lemma send_shows l s n nb0 : shows false l s -> st0 !! n = Some nb0 -> n ∉ l_out l ->
  wp (ne2000_send_netbuf n) (fun _ s' => shows false (link_step (Send n) l) s') s.
Proof.
  intros Hsh Hn Hno. pose proof Hsh as [Hcard Hqu Hpg Hlk Hcl Hfl Hbu Hwi Hgo Hout Hst]. unfold ne2000_send_netbuf.
  apply wp_bind. unfold wp at 1, lock_dev. rewrite Hlk. cbn [spin_lock mbind res_bind]. apply wp_bind, wp_gets. unfold id.
  cbn [tx_available setter]. rewrite Hbu. cbn [link_step]. destruct (l_busy l) eqn:Hb; cbn [negb Z.eqb].
  - destruct (Hst n nb0 Hn) as (nb & Hnb & El & Hsd & Hr). destruct (st0_ok n nb0 Hn) as [_ Hr0]. rewrite decide_False in Hr by done.
    apply wp_bind. apply wp_bind. unfold wp at 1, netbuf_ref_, nb_ref. cbn [netbufs setter]. rewrite Hnb. cbn [mbind res_bind].
    rewrite u32_small by lia. set (st1 := <[n := nb <| nb_refs := nb_refs nb + 1 |>]> (netbufs s)). apply wp_bind, wp_gets. unfold id. cbn [send_queue netbufs setter].
    assert (Hq1 : nb_queue st1 (send_queue s) (l_out l)) by (eapply chain_frame; [|exact Hout]; intros; by apply insert_refs_link).
    destruct (queue_append_spec st1 (send_queue s) (l_out l) n Hq1 Hno) as (h' & st2 & Ea & Hq2 & Hk2); [unfold st1; rewrite lookup_insert_eq; eauto|].
    apply wp_bind. rewrite Ea. unfold wp at 1, of_res. unfold wp at 1, modify. unfold wp, unlock_dev. cbn [dev_lock setter spin_unlock mbind res_bind].
    constructor; try done; [by destruct Hcard; constructor|cbn; by rewrite Hbu, ?Hb|].
    assert (Hs1 : stored (l_out l ++ [n]) st1).
    { apply (stored_insert (l_out l)); [done|done| |].
      - intros nb1 E1. simplify_eq. rewrite decide_True by set_solver. lia.
      - intros m Hm. rewrite elem_of_app, list_elem_of_singleton. tauto. }
    intros m b0 E0. destruct (Hs1 m b0 E0) as (b1 & Eb1 & El1 & Es1 & Er1). destruct (Hk2 m b1 Eb1) as (b2 & Eb2 & F1 & F2 & F3 & F4 & F5 & _).
    destruct (sendable_ext b1 b2) as [Hs2 El2]; [done..|]. exists b2. split_and!; [done|congruence|done|rewrite F5; exact Er1].
  - apply wp_bind. eapply wp_mono; [by eapply (send_now true l _ n nb0), Hn; apply (shows_lock false)|].
    intros [] s' Hsh'. by eapply wp_unlock.
Qed.

(** A frame is taken from the card, given to the client and freed. *)
Lemma shows_taken l s f fs d : shows true l s -> l_rx l = f :: fs -> same_card (dev s) d -> queued start stop fs d ->
  shows true (l <| l_rx := fs |>) (s <| dev := d |>).
Proof.
  intros [[C1 C2 C3 C4 C5] D2 D3 D4 D5 D6 D7 D8 D9 D10 D11] Er [S1 S2 S3 S4 S5 S6 S7] Hq. constructor; try done; cbn.
  - constructor; cbn; congruence.
  - rewrite <-D6. by apply flag_bits_alerts.
  - by rewrite S5.
Qed.

Lemma shows_got l s c f : shows true l s -> shows true (l <| l_got := l_got l ++ [(c, f)] |>) (s <| received := received s ++ [(c, f)] |>).
Proof. intros [[C1 C2 C3 C4 C5] D2 D3 D4 D5 D6 D7 D8 D9 D10 D11]. constructor; try done. cbn. by rewrite D9. Qed.

Lemma flags_clear i v k : 0 <= k -> v = 2 ^ k -> forall j, 0 <= j -> Z.testbit (Z.ldiff i v) j = if decide (j = k) then false else Z.testbit i j.
Proof.
  intros Hk -> j Hj. rewrite Z.ldiff_spec, Z.pow2_bits_eqb by done. destruct (Z.eqb_spec k j) as [->|Hne]; case_decide; try done; [apply andb_false_r|apply andb_true_r].
Qed.

Lemma ne_deliver_run c n nb s (Q : unit -> ne2000 -> Prop) : live (structs s) c -> dev_lock s = true -> netbufs s !! n = Some nb ->
  Q tt (s <| received := received s ++ [(c, nb_datalink nb)] |>) -> wp (deliver c n) Q s.
Proof.
  intros Hl Hlk Hn HQ. pose proof (struct_ref_deref c _ Hl) as Hr. apply bind_Ok in Hr as (r & Hr & Hd). destruct s. cbn in *. subst.
  unfold wp, deliver, on_structs, unlock_dev, lock_dev, edc_recv, mbind, ST_bind, res_bind. cbn. rewrite Hr. cbn. rewrite Hn. cbn.
  unfold mbind, res_bind in Hd. by rewrite Hd.
Qed.

Lemma intr_recv_shows l s : shows true l s -> wp intr_recv (fun _ s' => shows true (recv_step l) s') s.
Proof.
  intros Hsh. pose proof Hsh as [Hcard Hqu Hpg Hlk [Hcl Hco] Hfl Hbu Hwi Hgo Hout Hst]. unfold intr_recv. apply wp_bind, wp_gets. unfold id. apply wp_bind.
  unfold recv_step. destruct (l_rx l) as [|f fs] eqn:Er.
  - eapply wp_mono; [by apply (get_empty start stop ring_order)|]. intros r s' [-> ->]. eapply wp_write; [by apply write_isr|].
    destruct Hcard as [C1 C2 C3 C4 C5]. constructor; try done.
    { cbn. rewrite Er. by destruct Hqu. }
    cbn. rewrite flag_bits_test, !(flags_clear _ ISR_PRX 0) by (done || lia). cbn. rewrite flag_bits_test in Hfl. by injection Hfl as _ -> ->.
  - eapply wp_mono; [by apply (get_frame start stop ring_order ring_bound f fs)|]. intros r s' (d & -> & -> & Hsc & Hq).
    pose proof (shows_taken l s f fs d Hsh Er Hsc Hq) as Hsh1. set (n := fresh (dom (netbufs s))) in *.
    assert (Hfresh : netbufs s !! n = None) by (apply not_elem_of_dom, is_fresh).
    rewrite Hcl. unfold with_frame. set (nb := Netbuf_ f [] [] [] None 1 None). set (s1 := s <| dev := d |>) in *.
    assert (Hfree : forall got got', shows true (l <| l_rx := fs |> <| l_got := got |>) (s1 <| received := got' |>) ->
      wp (netbuf_deref_ n) (fun _ s' => shows true (l <| l_rx := fs |> <| l_got := got |>) s')
        (s1 <| netbufs := <[n := nb]> (netbufs s) |> <| received := got' |>)).
    { intros got got' Hg. unfold wp, netbuf_deref_, nb_deref. cbn [netbufs setter]. rewrite lookup_insert_eq. cbn [mbind res_bind nb nb_refs].
      change (u32 (1 - 1) =? 0) with true. cbn iota. rewrite delete_insert_id by done. exact Hg. }
    apply wp_bind. destruct client as [c|] eqn:Ecl.
    + eapply (ne_deliver_run c n nb); [cbn; rewrite Hco; by apply client_live|done|cbn; by rewrite lookup_insert_eq|].
      exact (Hfree _ _ (shows_got _ _ c f Hsh1)).
    + apply wp_ret. rewrite app_nil_r. exact (Hfree (l_got l) (received s) Hsh1).
Qed.

(** The transmitter is free. *)
Lemma shows_free l s : shows true l s ->
  shows true (l <| l_ptx := false |> <| l_busy := false |>)
    (s <| dev := (dev s) <| isr := Z.ldiff (isr (dev s)) ISR_PTX |> |> <| tx_available := 1 |>).
Proof.
  intros [[C1 C2 C3 C4 C5] [D2 D2' D2''] D3 D4 D5 D6 D7 D8 D9 D10 D11]. constructor; try done. cbn.
  rewrite flag_bits_test, !(flags_clear _ ISR_PTX 1) by (done || lia). cbn. rewrite flag_bits_test in D6. by injection D6 as -> _ ->.
Qed.

(** The first netbuf that waits leaves the queue, and its reference is given back. *)
Lemma nb_deref_kept n nb st : st !! n = Some nb -> 1 < nb_refs nb < 2 ^ 32 -> nb_deref n st = Ok (<[n := nb <| nb_refs := nb_refs nb - 1 |>]> st).
Proof. intros Hn Hr. unfold nb_deref. rewrite Hn, u32_small by lia. by replace (nb_refs nb - 1 =? 0) with false by lia. Qed.

Lemma stored_first n ns st nb : stored (n :: ns) st -> st !! n = Some nb -> n ∉ ns ->
  stored ns (<[n := nb <| nb_refs := nb_refs nb - 1 |>]> st).
Proof.
  intros Hst Hn Hno. apply (stored_insert (n :: ns)); [done|done| |].
  - intros nb0 E0. destruct (Hst n nb0 E0) as (b & Eb & _ & _ & Er). simplify_eq. rewrite decide_True in Er by set_solver.
    rewrite decide_False by done. lia.
  - intros m Hm. set_solver.
Qed.

Lemma intr_sent_shows l s : shows true l s -> Forall (fun n => is_Some (st0 !! n)) (l_out l) ->
  wp intr_sent (fun _ s' => shows true (sent_step l) s') s.
Proof.
  intros Hsh Hin. unfold intr_sent. apply wp_bind. eapply wp_write; [apply write_isr, (sh_card _ _ _ Hsh)|]. apply wp_bind.
  unfold wp at 1, modify. apply wp_bind, wp_gets. unfold id. pose proof (shows_free l s Hsh) as Hfr.
  set (s1 := s <| dev := _ |> <| tx_available := 1 |>) in *. change (send_queue (s <| dev := _ |> <| tx_available := 1 |>)) with (send_queue s1).
  clearbody s1. unfold sent_step. pose proof (sh_out _ _ _ Hfr) as Hq. cbn [l_out setter] in Hq.
  destruct (l_out l) as [|n ns] eqn:El.
  - cbn in Hq. rewrite Hq. by apply wp_ret.
  - destruct Hq as (-> & nx & Hl & Hns). apply Forall_cons in Hin as [[nb0 E0] _].
    pose proof (chain_NoDup _ _ _ (sh_out _ _ _ Hfr)) as Hnd. cbn [l_out setter] in Hnd. rewrite El in Hnd. apply NoDup_cons in Hnd as [Hno _].
    pose proof (sh_store _ _ _ Hfr) as Hst. cbn [l_out setter] in Hst. rewrite El in Hst.
    destruct (Hst n nb0 E0) as (nb & Hnb & _ & _ & Hr). destruct (st0_ok n nb0 E0) as [_ Hr0]. rewrite decide_True in Hr by set_solver.
    unfold nb_link in Hl. rewrite Hnb in *. injection Hl as ->.
    apply wp_bind. unfold wp at 1, modify. apply wp_bind. destruct (Hst n nb0 E0) as (nb' & Enb & Elay & Hsd & _).
    assert (nb' = nb) as -> by congruence. pose proof Hfr as [[C1 C2 C3 C4 C5] F2 F3 F4 F5 F6 F7 F8 F9 F10 F11].
    eapply wp_mono; [apply (send_frame start stop ring_order sp _ n nb); [by constructor|lia|done|done|done|done]|].
    intros [] s2 (d' & -> & Hring & Hw). unfold wp, netbuf_deref_. cbn [netbufs setter]. rewrite (nb_deref_kept n nb) by (done || lia). cbn [mbind res_bind].
    set (st1 := <[n := nb <| nb_refs := nb_refs nb - 1 |>]> (netbufs s1)).
    assert (Hpop : shows true (l <| l_ptx := false |> <| l_busy := false |> <| l_out := ns |>) (s1 <| send_queue := nx |> <| netbufs := st1 |>)).
    { constructor; try done; [|by apply stored_first].
      eapply chain_frame; [|exact Hns]. intros m _. by apply insert_refs_link. }
    assert (Ew : wire d' = wire (dev s1) ++ [frame_of n]) by (rewrite Hw, Elay; unfold frame_of; by rewrite E0).
    exact (shows_wire true _ _ d' (frame_of n) Hpop Hring Ew).
Qed.

(** One pass of the thread. *)
Lemma pass_shows fuel l s : shows false l s -> Forall (fun n => is_Some (st0 !! n)) (l_out l) ->
  wp (ne2000_intr_pass fuel) (fun _ s' => shows false (link_step Intr l) s') s.
Proof.
  intros Hsh Hin. unfold ne2000_intr_pass. apply wp_bind. eapply wp_read; [apply read_isr, (sh_card _ _ _ Hsh)|].
  replace (s <| dev := dev s |>) with s by by destruct s. pose proof (sh_flags _ _ _ Hsh) as Hf. unfold flag_bits in Hf. injection Hf as F1 F2 F3.
  rewrite !has_lor, F1, F2, F3, orb_false_r. cbn [link_step]. destruct (l_prx l || l_ptx l) eqn:E; cbn [negb].
  2:{ apply orb_false_iff in E as [-> ->]. by apply wp_ret. }
  apply wp_bind. eapply wp_lock; [exact Hsh|]. pose proof (shows_lock false true l s Hsh) as H1. apply wp_bind. apply wp_ret. apply wp_bind.
  eapply (wp_mono _ (fun _ s' => shows true (if l_prx l then recv_step l else l) s')).
  { destruct (l_prx l); [by apply intr_recv_shows|by apply wp_ret]. }
  intros [] s1 H2. apply wp_bind.
  eapply (wp_mono _ (fun _ s' => shows true (if l_ptx l then sent_step (if l_prx l then recv_step l else l) else if l_prx l then recv_step l else l) s')).
  { destruct (l_ptx l); [|by apply wp_ret]. apply intr_sent_shows; [done|]. destruct (l_prx l); [|done]. unfold recv_step. by destruct (l_rx l). }
  intros [] s2 H3. apply wp_bind. eapply wp_unlock; [exact H3|]. intros s' H4. apply wp_ret. exact H4.
Qed.

(** Something arrives. *)
Lemma arrive_shows l s f fcs : shows false l s -> frame_ok f -> length fcs = 4%nat -> Forall is_byte fcs -> total (l_rx l) + pages f < n_pages ->
  shows false (link_step (Arrive f fcs) l) (s <| dev := arrives f fcs (dev s) |>).
Proof.
  intros [[C1 C2 C3 C4 C5] D2 D3 D4 D5 D6 D7 D8 D9 D10 D11] Hf Hl Hb Hroom.
  pose proof (arrive_queued start stop ring_order ring_bound f fcs (l_rx l) (dev s) C1 C2 D2 Hf Hl Hb) as Hq.
  replace (total (l_rx l) + pages f <? n_pages) with true in Hq by lia.
  assert (Efree : (pages f <=? free_pages (dev s)) = true).
  { destruct D2 as [Hfs Hr (h & Hbn & Hcu & _)]. pose proof (total_nonneg (l_rx l) Hfs). unfold free_pages. rewrite C1, C2, Hbn, Hcu. unfold pg.
    replace (start + (h - 1) mod n_pages - (start + (h + total (l_rx l)) mod n_pages)) with ((h - 1) mod n_pages - (h + total (l_rx l)) mod n_pages) by lia.
    rewrite <-Zminus_mod. replace (h - 1 - (h + total (l_rx l))) with (n_pages - 1 - total (l_rx l) + -1 * n_pages) by lia.
    rewrite Z.mod_add, Z.mod_small by lia. lia. }
  constructor; try done; unfold arrives in *; rewrite Efree in *; try done.
  cbn. rewrite flag_bits_test, !Z.lor_spec. rewrite flag_bits_test in D6. apply pair_eq in D6 as [[E1 E2]%pair_eq E3]. rewrite E1, E2, E3.
  change (Z.testbit ISR_PRX 0) with true. change (Z.testbit ISR_PRX 1) with false. change (Z.testbit ISR_PRX 4) with false.
  by rewrite orb_true_r, !orb_false_r.
Qed.

(** ** Any order of events *)

Definition step (fuel : nat) (o : op) (s : ne2000) : res ne2000 :=
  match o with
  | Arrive f fcs => Ok (s <| dev := arrives f fcs (dev s) |>)
  | Done => Ok (s <| dev := (dev s) <| isr := Z.lor (isr (dev s)) ISR_PTX |> |>)
  | Intr => '(_, s) ← ne2000_intr_pass fuel s; Ok s
  | Send n => '(_, s) ← ne2000_send_netbuf n s; Ok s
  end.

Fixpoint run (fuel : nat) (ops : list op) (s : ne2000) : res ne2000 :=
  match ops with [] => Ok s | o :: ops => s ← step fuel o s; run fuel ops s end.

Fixpoint link_run (ops : list op) (l : link) : link :=
  match ops with [] => l | o :: ops => link_run ops (link_step o l) end.

Definition op_ok (o : op) : Prop :=
  match o with
  | Arrive f fcs => frame_ok f /\ length fcs = 4%nat /\ Forall is_byte fcs
  | Send n => is_Some (st0 !! n)
  | _ => True
  end.

(** The ring has room for every frame that arrives. *)
Fixpoint no_overflow (ops : list op) (l : link) : Prop :=
  match ops with
  | [] => True
  | o :: ops => match o with Arrive f _ => total (l_rx l) + pages f < n_pages | _ => True end /\ no_overflow ops (link_step o l)
  end.

Definition sends (ops : list op) : list nbid := omap (fun o => match o with Send n => Some n | _ => None end) ops.
Definition arrivals (ops : list op) : list (list Z) := omap (fun o => match o with Arrive f _ => Some f | _ => None end) ops.

(** Nothing waits while the transmitter is free. *)
Definition waits_busy (l : link) : Prop := l_busy l = false -> l_out l = [].

Lemma step_shows fuel o l s : shows false l s -> op_ok o -> no_overflow [o] l -> (forall n, o = Send n -> n ∉ l_out l) ->
  Forall (fun n => is_Some (st0 !! n)) (l_out l) -> exists s', step fuel o s = Ok s' /\ shows false (link_step o l) s'.
Proof.
  intros Hsh Hop [Hroom _] Hno Hin. destruct o as [f fcs| | |n]; cbn [step].
  - destruct Hop as (? & ? & ?). eexists. split; [reflexivity|]. by apply arrive_shows.
  - eexists. split; [reflexivity|]. destruct Hsh as [[C1 C2 C3 C4 C5] [D2 D2' D2''] D3 D4 D5 D6 D7 D8 D9 D10 D11]. constructor; try done.
    cbn. rewrite flag_bits_test, !Z.lor_spec. rewrite flag_bits_test in D6. apply pair_eq in D6 as [[E1 E2]%pair_eq E3]. rewrite E1, E2, E3.
    change (Z.testbit ISR_PTX 0) with false. change (Z.testbit ISR_PTX 1) with true. change (Z.testbit ISR_PTX 4) with false.
    by rewrite orb_true_r, !orb_false_r.
  - destruct (wp_run _ _ _ (pass_shows fuel l s Hsh Hin)) as (b & s' & E & H'). exists s'. by rewrite E.
  - destruct Hop as [nb0 E0]. destruct (wp_run _ _ _ (send_shows l s n nb0 Hsh E0 (Hno n eq_refl))) as (b & s' & E & H'). exists s'. by rewrite E.
Qed.

(** What the client is called with for the frames [fs]. *)
Definition calls (fs : list (list Z)) : list (Z * list Z) := match client with Some c => pair c <$> fs | None => [] end.

Lemma calls_app fs gs : calls (fs ++ gs) = calls fs ++ calls gs.
Proof. unfold calls. destruct client; [apply fmap_app|done]. Qed.

(** First in, first out, in both directions: [taken] of the frames that arrived reach the
    client, [sent] of the netbufs that were given the wire. *)
Definition fifo (ops : list op) (l l' : link) (taken : list (list Z)) (sent : list nbid) : Prop :=
  l_got l' = l_got l ++ calls taken /\ l_rx l ++ arrivals ops = taken ++ l_rx l'
  /\ l_wire l' = l_wire l ++ (frame_of <$> sent) /\ l_out l ++ sends ops = sent ++ l_out l'.

Lemma calls_nil : calls [] = [].
Proof. unfold calls. by destruct client. Qed.

Lemma recv_step_fifo l : waits_busy l -> exists taken, waits_busy (recv_step l) /\ fifo [] l (recv_step l) taken [].
Proof.
  intros Hw. unfold recv_step, fifo. cbn. destruct (l_rx l) as [|f fs] eqn:Er.
  - exists []. rewrite calls_nil. cbn. by rewrite !app_nil_r, Er.
  - exists [f]. unfold calls. cbn. rewrite !app_nil_r. by destruct client.
Qed.

Lemma sent_step_fifo l : waits_busy l -> exists sent, waits_busy (sent_step l) /\ fifo [] l (sent_step l) [] sent.
Proof.
  intros Hw. unfold sent_step, fifo. rewrite calls_nil. cbn. destruct (l_out l) as [|n ns] eqn:Eo.
  - exists []. cbn. rewrite !app_nil_r, Eo. split; [by intros _|done].
  - exists [n]. cbn. by rewrite !app_nil_r.
Qed.

Lemma fifo_refl l : fifo [] l l [] [].
Proof. unfold fifo. rewrite calls_nil. cbn. by rewrite !app_nil_r. Qed.

Lemma fifo_trans ops1 ops2 l l1 l2 t1 t2 s1 s2 : fifo ops1 l l1 t1 s1 -> fifo ops2 l1 l2 t2 s2 -> fifo (ops1 ++ ops2) l l2 (t1 ++ t2) (s1 ++ s2).
Proof.
  intros (A1 & B1 & C1 & D1) (A2 & B2 & C2 & D2). unfold fifo, arrivals, sends in *. rewrite !omap_app, calls_app, fmap_app.
  rewrite A2, A1, C2, C1, !app_assoc, B1, D1, <-!app_assoc, B2, D2. done.
Qed.

Lemma link_step_fifo o l : waits_busy l -> exists taken sent, waits_busy (link_step o l) /\ fifo [o] l (link_step o l) taken sent.
Proof.
  intros Hw. destruct o as [f fcs| | |n]; cbn [link_step].
  - exists [], []. split; [done|]. unfold fifo. rewrite calls_nil. cbn. by rewrite !app_nil_r.
  - exists [], []. split; [done|]. unfold fifo. rewrite calls_nil. cbn. by rewrite !app_nil_r.
  - assert (H1 : exists taken, waits_busy (if l_prx l then recv_step l else l) /\ fifo [] l (if l_prx l then recv_step l else l) taken []).
    { destruct (l_prx l); [by apply recv_step_fifo|]. exists []. split; [done|apply fifo_refl]. }
    destruct H1 as (taken & W1 & F1). set (l1 := if l_prx l then recv_step l else l) in *.
    assert (H2 : exists sent, waits_busy (if l_ptx l then sent_step l1 else l1) /\ fifo [] l1 (if l_ptx l then sent_step l1 else l1) [] sent).
    { destruct (l_ptx l); [by apply sent_step_fifo|]. exists []. split; [done|apply fifo_refl]. }
    destruct H2 as (sent & W2 & F2). exists taken, sent. split; [done|]. pose proof (fifo_trans _ _ _ _ _ _ _ _ _ F1 F2) as F.
    rewrite !app_nil_r in F. exact F.
  - destruct (l_busy l) eqn:Eb; cbn.
    + exists [], []. split; [by unfold waits_busy; cbn; rewrite Eb|]. unfold fifo. rewrite calls_nil. cbn. by rewrite !app_nil_r.
    + exists [], [n]. split; [done|]. unfold fifo. rewrite calls_nil. cbn. by rewrite !app_nil_r, (Hw Eb).
Qed.

Lemma link_step_out o l m : m ∈ l_out (link_step o l) -> m ∈ l_out l \/ o = Send m.
Proof.
  destruct o as [f fcs| | |n]; cbn [link_step]; [by left..| |].
  - assert (E1 : l_out (if l_prx l then recv_step l else l) = l_out l) by (destruct (l_prx l); [unfold recv_step; by destruct (l_rx l)|done]).
    destruct (l_ptx l); [|rewrite E1; by left]. unfold sent_step. rewrite E1. destruct (l_out l) as [|k ks] eqn:Eo; cbn; [rewrite E1; by left|set_solver].
  - destruct (l_busy l); cbn; set_solver.
Qed.

(** C24: the card with its driver is a queue in each direction.  For every order of
    arrivals, completed transmissions, wake-ups of the thread and calls of
    [ne2000_send_netbuf()], as long as the ring has room, nothing stops; the frames
    that arrive reach the client complete, once each and in order, wherever in the ring
    they lie, those still in the card are the rest; the netbufs go on the wire once each
    in the order they were given, with the bytes of their layers and padded to 60 bytes,
    one at a time, those not sent yet are the queue of the driver; all reference counts
    come out even.  The netbufs must fit between the send pages and the ring, which for
    the pages that [ne2000_init()] chooses is 1024 bytes. *)
Theorem ne2000_is_a_link fuel ops l s :
  shows false l s -> waits_busy l -> Forall (fun n => is_Some (st0 !! n)) (l_out l) ->
  Forall op_ok ops -> no_overflow ops l -> NoDup (l_out l ++ sends ops) ->
  exists s' taken sent, run fuel ops s = Ok s' /\ shows false (link_run ops l) s' /\ fifo ops l (link_run ops l) taken sent.
Proof.
  intros Hsh Hw Hin Hok. revert l s Hsh Hw Hin. induction Hok as [|o ops Ho Hok IH]; intros l s Hsh Hw Hin Hov Hnd; cbn [run link_run].
  { exists s, [], []. split_and!; [done|done|]. apply fifo_refl. }
  destruct Hov as [Ho1 Hov]. destruct (link_step_fifo o l Hw) as (t1 & s1 & W1 & F1). pose proof F1 as (_ & _ & _ & Eout).
  destruct (step_shows fuel o l s Hsh Ho (conj Ho1 I)) as (s' & E & Hsh').
  { intros n ->. cbn in Hnd. apply NoDup_app in Hnd as (_ & Hd & _). intros Hn. apply (Hd n Hn). set_solver. }
  { done. }
  destruct (IH (link_step o l) s' Hsh' W1) as (s2 & t2 & n2 & E2 & Hsh2 & F2).
  - apply Forall_forall. intros m Hm. apply link_step_out in Hm as [Hm|Hm]; [|by subst o]. by apply (proj1 (Forall_forall _ _) Hin).
  - done.
  - assert (Es : l_out l ++ sends (o :: ops) = s1 ++ (l_out (link_step o l) ++ sends ops)).
    { change (o :: ops) with ([o] ++ ops). unfold sends in *. by rewrite omap_app, !app_assoc, Eout. }
    rewrite Es in Hnd. by apply NoDup_app in Hnd as (_ & _ & Hnd).
  - rewrite E. cbn [mbind res_bind]. exists s2, (t1 ++ t2), (s1 ++ n2). split_and!; [done|done|]. exact (fifo_trans [o] ops _ _ _ _ _ _ _ F1 F2).
Qed.
End driver.

(** ** Witness *)

(** A card at reset; the stack has two netbufs, of 26 and 43 bytes. *)
Definition demo_store : nbstore :=
  {[0%nat := Netbuf_ (replicate 14 1) [2; 3] (replicate 10 4) [] None 1 None; 1%nat := Netbuf_ (replicate 14 5) [6; 7] [] (replicate 27 8) None 1 None]}.
Definition demo_reset : ne2000 :=
  Ne2000_ (Nic 0x21 0 0 0 0 0 0 0 0 0 ∅ ∅ []) None demo_store 0 0 0 1 false (Some 300) {[300 := 2]} [] [] false ∅.

(** The driver after [ne2000_init]. *)
Definition demo_ready : ne2000 := Eval vm_compute in match ne2000_init 10 demo_reset with Ok (_, s) => s | _ => demo_reset end.
Definition demo_link : link := Link [] [] [] [] false false false.
Definition demo_frame : list Z := map Z.of_nat (seq 0 75).
Definition demo_ops : list op := [Arrive demo_frame [0; 0; 0; 0]; Send 0; Send 1; Intr; Done; Intr].

Lemma demo_shows : shows 0x4c 0x80 0x48 (Some 300) {[300 := 2]} demo_store false demo_link demo_ready.
Proof.
  constructor; try (by vm_compute); try (by constructor).
  - constructor; [constructor|by vm_compute|]. exists 0. by vm_compute.
  - intros n nb0 E0. exists nb0. split_and!; [exact E0|done| |cbn; rewrite decide_False by apply not_elem_of_nil; lia].
    unfold demo_store in E0. apply lookup_insert_Some in E0 as [[_ <-]|[_ [_ <-]%lookup_singleton_Some]].
    all: constructor; [repeat constructor; unfold is_byte; lia|done|done|done|by vm_compute].
Qed.

Lemma ne2000_is_a_link_witness : exists s', run 300 demo_ops demo_ready = Ok s'
  /\ received s' = [(300, demo_frame)]
  /\ wire (dev s') = [replicate 14 1 ++ [2; 3] ++ replicate 10 4 ++ replicate 34 0; replicate 14 5 ++ [6; 7] ++ replicate 27 8 ++ replicate 17 0].
Proof.
  destruct (ne2000_is_a_link 0x4c 0x80 0x48 ltac:(lia) ltac:(lia) ltac:(lia) (Some 300) {[300 := 2]}
    ltac:(intros c [= <-]; exists 2; split; [done|lia]) demo_store) with (fuel := 300%nat) (ops := demo_ops) (l := demo_link) (s := demo_ready)
    as (s' & taken & sent & Hrun & Hsh & _).
  - intros n nb0 E0. destruct (sh_store _ _ _ _ _ _ _ _ _ demo_shows n nb0 E0) as (nb & Eb & _ & Hs & _).
    assert (nb = nb0) as -> by (assert (Some nb = Some nb0) by (by rewrite <-Eb, <-E0); congruence). split; [done|].
    unfold demo_store in E0. apply lookup_insert_Some in E0 as [[_ <-]|[_ [_ <-]%lookup_singleton_Some]]; cbn; lia.
  - apply demo_shows.
  - done.
  - constructor.
  - repeat constructor; try (by vm_compute); try (unfold is_byte; lia). all: by eexists.
  - by vm_compute.
  - repeat constructor; set_solver.
  - exists s'. split; [exact Hrun|]. split; [rewrite (sh_got _ _ _ _ _ _ _ _ _ Hsh)|rewrite (sh_wire _ _ _ _ _ _ _ _ _ Hsh)]; by vm_compute.
Defined.

(** ** Where the driver is not a link *)

(** The frames a run handed to the client and put on the wire. *)
Definition traffic (r : res ne2000) : option (list (list Z) * list (list Z)) :=
  match r with Ok s => Some (snd <$> received s, wire (dev s)) | _ => None end.

(** There are four pages between the send pages and the ring.  A netbuf of more than 1024
    bytes, which the check against 0x0600 lets through, is written over the first frame of
    the ring: the sanity check then fails, and what has arrived is thrown away. *)
Definition long_netbuf : netbuf := Netbuf_ (replicate 1100 9) [] [] [] None 1 None.
Definition long_ready : ne2000 := demo_ready <| netbufs := {[0%nat := long_netbuf]} |>.

Lemma long_frame_overwrites_ring :
  traffic (run 300 [Arrive demo_frame [0; 0; 0; 0]; Intr] long_ready) = Some ([demo_frame], [])
  /\ traffic (run 300 [Arrive demo_frame [0; 0; 0; 0]; Send 0; Intr] long_ready) = Some ([], [replicate 1100 9]).
Proof. split; by vm_compute. Qed.

(** When the ring overflows and nothing is being sent, the last frame is sent again: the
    value of TXP is read, but not looked at. *)
Definition overflow (s : ne2000) : ne2000 := s <| dev := (dev s) <| isr := Z.lor (isr (dev s)) ISR_OVW |> |>.

Lemma overflow_sends_again :
  let sent := replicate 14 1 ++ [2; 3] ++ replicate 10 4 ++ replicate 34 0 in
  traffic (run 300 [Send 0; Done; Intr] demo_ready) = Some ([], [sent])
  /\ traffic (s ← run 300 [Send 0; Done; Intr] demo_ready; run 300 [Intr] (overflow s)) = Some ([], [sent; sent]).
Proof. split; by vm_compute. Qed.

(** A netbuf of 0x0600 bytes is dropped.  Taken from the queue, it leaves the transmitter
    free and the rest of the queue where it is: nothing sends it until a later netbuf has
    overtaken it. *)
Definition queue_store : nbstore :=
  {[0%nat := Netbuf_ (replicate 60 1) [] [] [] None 1 None; 1%nat := Netbuf_ (replicate 1536 2) [] [] [] None 1 None;
    2%nat := Netbuf_ (replicate 60 3) [] [] [] None 1 None; 3%nat := Netbuf_ (replicate 60 4) [] [] [] None 1 None]}.

Lemma oversize_netbuf_stalls_queue :
  let ops := [Send 0; Send 1; Send 2; Done; Intr] in
  traffic (run 300 ops (demo_ready <| netbufs := queue_store |>)) = Some ([], [replicate 60 1])
  /\ traffic (run 300 (ops ++ [Intr; Intr; Send 3; Done; Intr]) (demo_ready <| netbufs := queue_store |>))
    = Some ([], [replicate 60 1; replicate 60 4; replicate 60 3]).
Proof. split; by vm_compute. Qed.
End Ne2000Facts.
