(* ===== verification/C509.v ===== *)
(** * The 3C509 network card (src/test/pc386/srv/3c509.c)

    The driver of a card with a FIFO in each direction, which the driver reads and writes
    a word at a time through a port.  The registers of the card are in windows, one of
    which is selected.  A packet to send has a header of four bytes in front, with its
    size, and is filled up to a multiple of four bytes; the card sends it as soon as it is
    complete, and adds what is missing to the least size of a frame itself.

    [card] models the FIFOs and the windows as far as the driver uses them. *)

From stdpp Require Import base list gmap fin_maps strings.
From Stdlib Require Import ZArith Lia.
From S2P Require Import Prelude Sched Netbuf Membuf Cards.
Open Scope Z_scope.

Module C509.

(** ** Registers *)

Definition C509_CMD : Z := 0x0e.
Definition C509_STATUS : Z := 0x0e.
Definition C509_W0_EEPROM_DATA : Z := 0x0c.
Definition C509_W0_EEPROM_CMD : Z := 0x0a.
Definition C509_W0_RESOURCE_CFG : Z := 0x08.
Definition C509_W0_CONFIG_CTRL : Z := 0x04.
Definition C509_W1_TX_STATUS : Z := 0x0b.
Definition C509_W1_RX_STATUS : Z := 0x08.
Definition C509_W1_TX_DATA : Z := 0x00.
Definition C509_W1_RX_DATA : Z := 0x00.
Definition C509_W2_ADDR0 : Z := 0x00.
Definition C509_W4_MEDIA_TYPE : Z := 0x0a.

Definition CMD_SELECT_WINDOW : Z := Z.shiftl 1 11.
Definition CMD_RX_ENABLE : Z := Z.shiftl 4 11.
Definition CMD_RX_RESET : Z := Z.shiftl 5 11.
Definition CMD_RX_DISCARD : Z := Z.shiftl 8 11.
Definition CMD_TX_ENABLE : Z := Z.shiftl 9 11.
Definition CMD_TX_RESET : Z := Z.shiftl 11 11.
Definition CMD_ACK_INT : Z := Z.shiftl 13 11.
Definition CMD_SET_INT_MASK : Z := Z.shiftl 14 11.
Definition CMD_SET_READ_ZERO_MASK : Z := Z.shiftl 15 11.
Definition CMD_SET_RX_FILTER : Z := Z.shiftl 16 11.
Definition CMD_STATS_ENABLE : Z := Z.shiftl 21 11.
Definition CMD_STATS_DISABLE : Z := Z.shiftl 22 11.

Definition STAT_INT_LATCH : Z := 0x0001.
Definition STAT_ADAPTER_FAILURE : Z := 0x0002.
Definition STAT_TX_COMPLETE : Z := 0x0004.
Definition STAT_TX_AVAILABLE : Z := 0x0008.
Definition STAT_RX_COMPLETE : Z := 0x0010.
Definition STAT_RX_EARLY : Z := 0x0020.
Definition STAT_INT_REQUESTED : Z := 0x0040.
Definition STAT_UPDATE_STATS : Z := 0x0080.

(** ** The card *)

(** [rx] has the frames received, each the word of its status and the bytes in the FIFO;
    [tx] the bytes of the packet that is not complete; [tx_status] a byte for each packet
    sent that was not looked at; [flags] the other bits of the status.  [commands] has the
    commands that only change how the card works, the last first; [ids] what was written
    to the identification port. *)
Record card := Card {
  window : Z; rx : list (Z * list Z); tx : list Z; wire : list (list Z); tx_status : list Z; flags : Z;
  commands : list Z; config : gmap (Z * Z) Z; eeprom : list Z; eeprom_data : Z; ids : list Z }.
#[export] Instance eta_card : Eta card := fun d =>
  Card (window d) (rx d) (tx d) (wire d) (tx_status d) (flags d) (commands d) (config d) (eeprom d) (eeprom_data d) (ids d).

Definition status (d : card) : Z :=
  Z.lor (flags d) (Z.lor (if bool_decide (rx d = []) then 0 else STAT_RX_COMPLETE) (if bool_decide (tx_status d = []) then 0 else STAT_TX_COMPLETE)).

(** The size in the header of a packet, and that of the packet in the FIFO. *)
Definition tx_size (t : list Z) : Z := Z.land (nth 0 t 0 + 256 * nth 1 t 0) 0x07ff.
Definition tx_total (n : Z) : Z := 4 + 4 * ((n + 3) / 4).

Definition tx_push (l : list Z) (d : card) : card :=
  let t := tx d ++ l in
  if (4 <=? size_of t) && (tx_total (tx_size t) <=? size_of t) then
    d <| wire := wire d ++ [take (Z.to_nat (tx_size t)) (drop 4 t)] |> <| tx := drop (Z.to_nat (tx_total (tx_size t))) t |>
  else d <| tx := t |>.

(** The next bytes of the first frame. *)
Definition rx_pop (n : nat) (d : card) : list Z * card :=
  match rx d with
  | (st, l) :: fs => (take n l, d <| rx := (st, drop n l) :: fs |>)
  | [] => ([], d)
  end.

Definition read8 (reg : Z) (d : card) : Z * card :=
  if (window d =? 1) && (reg =? C509_W1_TX_STATUS) then (default 0 (head (tx_status d)), d)
  else if window d =? 6 then (default 0 (config d !! (6, reg)), d <| flags := Z.ldiff (flags d) STAT_UPDATE_STATS |>)
  else (default 0 (config d !! (window d, reg)), d).

Definition read16 (reg : Z) (d : card) : Z * card :=
  if reg =? C509_STATUS then (status d, d)
  else if (window d =? 1) && (reg =? C509_W1_RX_STATUS) then (match rx d with (st, _) :: _ => st | [] => 0 end, d)
  else if (window d =? 1) && (reg =? C509_W1_RX_DATA) then
    let '(l, d) := rx_pop 2 d in (nth 0 l 0 + 256 * nth 1 l 0, d)
  else if (window d =? 0) && (reg =? C509_W0_EEPROM_DATA) then (eeprom_data d, d)
  else (default 0 (config d !! (window d, reg)), d).

Definition write8 (reg v : Z) (d : card) : card :=
  if (window d =? 1) && (reg =? C509_W1_TX_STATUS) then d <| tx_status := tail (tx_status d) |>
  else if (window d =? 1) && (reg =? C509_W1_TX_DATA) then tx_push [v] d
  else d <| config := <[(window d, reg) := v]> (config d) |>.

(** A command is in the upper five bits, its argument in the others. *)
Definition command (v : Z) (d : card) : card :=
  let c := Z.shiftl (Z.shiftr v 11) 11 in
  let arg := Z.land v 0x07ff in
  if c =? CMD_SELECT_WINDOW then d <| window := arg |>
  else if c =? CMD_RX_DISCARD then d <| rx := tail (rx d) |>
  else if c =? CMD_TX_RESET then d <| tx := [] |>
  else if c =? CMD_RX_RESET then d <| rx := [] |>
  else if c =? CMD_ACK_INT then d <| flags := Z.ldiff (flags d) arg |>
  else d <| commands := v :: commands d |>.

Definition write16 (reg v : Z) (d : card) : card :=
  if reg =? C509_CMD then command v d
  else if (window d =? 1) && (reg =? C509_W1_TX_DATA) then tx_push [v mod 256; v / 256] d
  else if (window d =? 0) && (reg =? C509_W0_EEPROM_CMD) then d <| eeprom_data := nth (Z.to_nat (v - 0x80)) (eeprom d) 0 |>
  else d <| config := <[(window d, reg) := v]> (config d) |>.

(** ** The driver *)

(** [received] has the frames the client was called with. *)
Record c509 := C509_ {
  dev : card; send_queue : option nbid; netbufs : nbstore; tx_available : Z; dev_lock : bool;
  edi_client : option Z; structs : refs; edi_mac : list Z; received : list (Z * list Z);
  edi_lock : bool; edc_server : gmap Z Z }.
#[export] Instance eta_c509 : Eta c509 := fun s =>
  C509_ (dev s) (send_queue s) (netbufs s) (tx_available s) (dev_lock s) (edi_client s) (structs s) (edi_mac s) (received s)
    (edi_lock s) (edc_server s).

Abbreviation N := (ST c509).

Definition c509_read8 (reg : Z) : N Z := fun s => let '(v, d) := read8 reg (dev s) in Ok (v, s <| dev := d |>).
Definition c509_read16 (reg : Z) : N Z := fun s => let '(v, d) := read16 reg (dev s) in Ok (v, s <| dev := d |>).
Definition c509_write8 (reg v : Z) : N unit := modify (fun s => s <| dev := write8 reg v (dev s) |>).
Definition c509_write16 (reg v : Z) : N unit := modify (fun s => s <| dev := write16 reg v (dev s) |>).
Definition c509_write8id (v : Z) : N unit := modify (fun s => s <| dev := (dev s) <| ids := ids (dev s) ++ [v] |> |>).

Definition lock_dev : N unit := fun s => l ← spin_lock (dev_lock s); Ok (tt, s <| dev_lock := l |>).
Definition unlock_dev : N unit := fun s => l ← spin_unlock (dev_lock s); Ok (tt, s <| dev_lock := l |>).

(** [words] words of the receive FIFO. *)
Fixpoint read_words (words : nat) : N (list Z) :=
  match words with
  | O => mret []
  | S words =>
    v ← c509_read16 C509_W1_RX_DATA;
    l ← read_words words;
    mret (v mod 256 :: v / 256 :: l)
  end.

(** [membuf_alloc] and [netbuf_alloc]: a netbuf whose datalink layer is [pkt]. *)
Definition new_netbuf (pkt : list Z) : N nbid := fun s =>
  let n := fresh (dom (netbufs s)) in
  Ok (n, s <| netbufs := <[n := Netbuf_ pkt [] [] [] None 1 None]> (netbufs s) |>).

(** [while (c509_read16(C509_STATUS) & 0x1000);] *)
Fixpoint wait_discard (polls : nat) : N unit :=
  match polls with
  | O => of_res Fuel
  | S polls => r ← c509_read16 C509_STATUS; if has r 0x1000 then wait_discard polls else mret tt
  end.

Definition c509_recv_get_packet (polls : nat) : N (option nbid) :=
  stat ← c509_read16 C509_W1_RX_STATUS;
  if stat =? 0 then mret None else
  nb ← (if negb (has stat 0x4000) then
          let pktsz := Z.land (Z.land stat 0x07ff + 1) 0xfffe in
          pkt ← read_words (Z.to_nat (Z.shiftr pktsz 1));
          nb ← new_netbuf pkt;
          mret (Some nb)
        else mret None);
  c509_write16 C509_CMD CMD_RX_DISCARD;;
  wait_discard polls;;
  mret nb.

(** The words of a layer. *)
Fixpoint write_words (l : list Z) : N unit :=
  match l with
  | a :: b :: l => c509_write16 C509_W1_TX_DATA (a + 256 * b);; write_words l
  | _ => mret tt
  end.

(** The application layer may have an odd byte. *)
Definition write_application (l : list Z) : N unit :=
  write_words l;;
  if has (size_of l) 1 then
    c509_write8 C509_W1_TX_DATA (default 0 (last l));;
    c509_write8 C509_W1_TX_DATA 0
  else mret tt.

Definition c509_send_set_packet (n : nbid) : N unit :=
  s ← gets id;
  match netbufs s !! n with
  | None => of_res (Stop "bad netbuf pointer")
  | Some nb =>
    let sz := u16 (size_of (nb_datalink nb) + size_of (nb_network nb) + size_of (nb_transport nb) + size_of (nb_application nb)) in
    if sz >=? 0x0600 then mret tt
    else
      c509_write16 C509_W1_TX_DATA (Z.lor 0x8000 sz);;
      c509_write16 C509_W1_TX_DATA 0;;
      write_words (nb_datalink nb);;
      write_words (nb_network nb);;
      write_words (nb_transport nb);;
      write_application (nb_application nb);;
      (if has (Z.shiftr (sz + 1) 1) 1 then c509_write16 C509_W1_TX_DATA 0 else mret tt);;
      modify (fun s => s <| tx_available := 0 |>)
  end.

Definition on_structs (f : refs -> res refs) : N unit := fun s => r ← f (structs s); Ok (tt, s <| structs := r |>).
Definition netbuf_ref_ (n : nbid) : N unit := fun s => st ← nb_ref n (netbufs s); Ok (tt, s <| netbufs := st |>).
Definition netbuf_deref_ (n : nbid) : N unit := fun s => st ← nb_deref n (netbufs s); Ok (tt, s <| netbufs := st |>).

Definition c509_send_netbuf (n : nbid) : N unit :=
  lock_dev;;
  s ← gets id;
  (if negb (tx_available s =? 0) then c509_send_set_packet n
   else
     netbuf_ref_ n;;
     s ← gets id;
     '(q, st) ← of_res (queue_append (send_queue s) n (netbufs s));
     modify (fun s => s <| send_queue := q |> <| netbufs := st |>));;
  unlock_dev.

(** The call of the client's [edc_recv]. *)
Definition edc_recv (c : Z) (n : nbid) : N unit := fun s =>
  match netbufs s !! n with
  | None => Stop "bad netbuf pointer"
  | Some nb => Ok (tt, s <| received := received s ++ [(c, nb_datalink nb)] |>)
  end.

(** The client is called without the lock. *)
Definition deliver (c : Z) (n : nbid) : N unit :=
  on_structs (struct_ref c);;
  unlock_dev;;
  edc_recv c n;;
  lock_dev;;
  on_structs (struct_deref c).

Definition intr_recv (polls : nat) : N unit :=
  s ← gets id;
  p ← c509_recv_get_packet polls;
  match p with
  | Some nb =>
    (match edi_client s with Some c => deliver c nb | None => mret tt end);;
    netbuf_deref_ nb
  | None => mret tt
  end.

Definition intr_sent : N unit :=
  st ← c509_read8 C509_W1_TX_STATUS;
  (if has st 0x30 then c509_write16 C509_CMD CMD_TX_RESET else mret tt);;
  (if has st 0x3c then c509_write16 C509_CMD CMD_TX_ENABLE else mret tt);;
  (if has st 0x80 then
     modify (fun s => s <| tx_available := 1 |>);;
     s ← gets id;
     match send_queue s with
     | Some n =>
       match netbufs s !! n with
       | None => of_res (Stop "bad netbuf pointer")
       | Some nb =>
         modify (fun s => s <| send_queue := nb_next nb |>);;
         c509_send_set_packet n;;
         netbuf_deref_ n
       end
     | None => mret tt
     end
   else mret tt);;
  c509_write8 C509_W1_TX_STATUS 0.

(** The fourteen statistics registers. *)
Fixpoint read_stats (reg : Z) (n : nat) : N unit :=
  match n with O => mret tt | S n => c509_read8 reg;; read_stats (reg + 1) n end.

Definition intr_stats : N unit :=
  c509_write16 C509_CMD CMD_STATS_DISABLE;;
  c509_write16 C509_CMD (Z.lor CMD_SELECT_WINDOW 6);;
  read_stats 0 14;;
  c509_write16 C509_CMD CMD_STATS_ENABLE;;
  c509_write16 C509_CMD (Z.lor CMD_SELECT_WINDOW 1).

Definition intr_failure : N unit :=
  c509_write16 C509_CMD CMD_RX_RESET;;
  c509_write16 C509_CMD (Z.lor CMD_SET_RX_FILTER 0x0005);;
  c509_write16 C509_CMD CMD_RX_ENABLE;;
  c509_write16 C509_CMD (Z.lor CMD_ACK_INT STAT_ADAPTER_FAILURE).

(** The body of the thread's loop: false if it goes on waiting. *)
Definition c509_intr_pass (polls : nat) : N bool :=
  stat ← c509_read16 C509_STATUS;
  if negb (has stat (Z.lor (Z.lor (Z.lor STAT_RX_COMPLETE STAT_TX_AVAILABLE) STAT_TX_COMPLETE) STAT_UPDATE_STATS)) then mret false
  else
    lock_dev;;
    (if has stat STAT_RX_COMPLETE then intr_recv polls else mret tt);;
    (if has stat STAT_TX_COMPLETE then intr_sent else mret tt);;
    (if has stat STAT_UPDATE_STATS then intr_stats else mret tt);;
    (if has stat STAT_ADAPTER_FAILURE then intr_failure else mret tt);;
    c509_write16 C509_CMD (Z.lor (Z.lor CMD_ACK_INT STAT_INT_REQUESTED) STAT_INT_LATCH);;
    unlock_dev;;
    mret true.

(** ** Initialisation *)

Definition eeprom_read (addr : Z) : N Z :=
  c509_write16 C509_W0_EEPROM_CMD (addr + 0x80);;
  c509_read16 C509_W0_EEPROM_DATA.

(** The sequence of bytes that the card looks for. *)
Fixpoint id_sequence (n : nat) (id : Z) : N unit :=
  match n with
  | O => mret tt
  | S n =>
    c509_write8id (u8 id);;
    let id := u16 (Z.shiftl id 1) in
    let id := if has id 0x0100 then Z.lxor id 0x00cf else id in
    id_sequence n id
  end.

(** The words of the EEPROM have the most significant byte first. *)
Fixpoint read_mac (i : Z) (n : nat) : N (list Z) :=
  match n with
  | O => mret []
  | S n =>
    v ← eeprom_read i;
    l ← read_mac (i + 1) n;
    mret (v / 256 :: v mod 256 :: l)
  end.

(** Values for a range of registers. *)
Fixpoint write_regs (reg : Z) (l : list Z) : N unit :=
  match l with [] => mret tt | v :: l => c509_write8 reg v;; write_regs (reg + 1) l end.

Definition c509_init : N unit :=
  c509_write8id 0x00;;
  c509_write8id 0x00;;
  id_sequence 256 0x00ff;;
  c509_write8id 0xd1;;
  c509_write8id (Z.lor 0xe0 (Z.shiftr 0x100 4));;
  c509_write16 C509_CMD (Z.lor CMD_SELECT_WINDOW 0);;
  mac ← read_mac 0 3;
  modify (fun s => s <| edi_mac := mac |>);;
  c509_write16 C509_W0_CONFIG_CTRL 0x0001;;
  c509_write16 C509_CMD CMD_TX_RESET;;
  c509_write16 C509_CMD CMD_RX_RESET;;
  c509_write16 C509_CMD (Z.lor CMD_SET_READ_ZERO_MASK 0x0000);;
  c509_write16 C509_W0_RESOURCE_CFG 0x5f00;;
  c509_write16 C509_CMD (Z.lor CMD_SELECT_WINDOW 2);;
  write_regs C509_W2_ADDR0 mac;;
  c509_write16 C509_CMD (Z.lor CMD_SELECT_WINDOW 4);;
  v ← c509_read16 C509_W4_MEDIA_TYPE;
  c509_write16 C509_W4_MEDIA_TYPE (Z.lor v 0x00c0);;
  c509_write16 C509_CMD CMD_STATS_DISABLE;;
  c509_write16 C509_CMD (Z.lor CMD_SELECT_WINDOW 6);;
  read_stats 0 14;;
  c509_write16 C509_CMD CMD_STATS_ENABLE;;
  c509_write16 C509_CMD (Z.lor CMD_SELECT_WINDOW 1);;
  c509_write16 C509_CMD (Z.lor CMD_SET_RX_FILTER 0x0005);;
  c509_write16 C509_CMD CMD_RX_ENABLE;;
  c509_write16 C509_CMD CMD_TX_ENABLE;;
  c509_write16 C509_CMD (Z.lor CMD_SET_READ_ZERO_MASK 0x00ff);;
  c509_write16 C509_CMD (Z.lor (Z.lor (Z.lor (Z.lor CMD_ACK_INT STAT_INT_LATCH) STAT_TX_AVAILABLE) STAT_RX_EARLY) STAT_INT_REQUESTED);;
  c509_write16 C509_CMD (Z.lor (Z.lor (Z.lor (Z.lor (Z.lor CMD_SET_INT_MASK STAT_INT_LATCH) STAT_ADAPTER_FAILURE) STAT_TX_COMPLETE) STAT_RX_COMPLETE) STAT_UPDATE_STATS);;
  modify (fun s => s <| dev_lock := false |>).

(** ** Clients *)

Definition lock_edi : N unit := fun s => l ← spin_lock (edi_lock s); Ok (tt, s <| edi_lock := l |>).
Definition unlock_edi : N unit := fun s => l ← spin_unlock (edi_lock s); Ok (tt, s <| edi_lock := l |>).

(** [eds] is the address [membuf_alloc] gives to the server. *)
Definition c509_server_alloc (eds : Z) : N unit := on_structs (struct_alloc eds).

Definition c509_client_attach (edi edc eds : Z) : N (option Z) :=
  lock_edi;;
  s ← gets id;
  r ← match edi_client s with
    | Some _ => mret None
    | None =>
      c509_server_alloc eds;;
      on_structs (struct_ref edi);;
      modify (fun s => s <| edc_server := <[edc := eds]> (edc_server s) |> <| edi_client := Some edc |>);;
      on_structs (struct_ref edc);;
      mret (Some eds)
    end;
  unlock_edi;;
  mret r.

(** [edi] is the address of the instance. *)
Definition c509_instance_alloc (edi : Z) : N unit :=
  on_structs (struct_alloc edi);;
  modify (fun s => s <| edi_client := None |> <| edi_lock := false |>);;
  c509_init.

End C509.

Module C509Facts.
Import C509.

(** ** Sending *)

(** The packet in the FIFO for the bytes [f]. *)
Definition fifo_header (f : list Z) : list Z := [size_of f mod 256; Z.lor 0x80 (size_of f / 256); 0; 0].
Definition filled (f : list Z) : list Z := fifo_header f ++ f ++ replicate (Z.to_nat (- size_of f mod 4)) 0.

(** Bits above the others. *)
Lemma lor_high b k n : 0 <= k -> 0 <= n < 2 ^ k -> Z.lor (b * 2 ^ k) n = b * 2 ^ k + n.
Proof.
  intros Hk Hn. rewrite <-Z.add_lor_land. replace (Z.land (b * 2 ^ k) n) with 0; [by rewrite Z.add_0_r|]. symmetry.
  apply Z.bits_inj'. intros i Hi. rewrite Z.land_spec, Z.bits_0. destruct (Z.lt_ge_cases i k).
  - by rewrite Z.mul_pow2_bits_low by lia.
  - rewrite <-(Z.mod_small n (2 ^ k)), Z.mod_pow2_bits_high by lia. apply andb_false_r.
Qed.

Section packet.
Context (fr : list Z) (fr_size : size_of fr < 0x600).

Lemma filled_total : size_of (filled fr) = tx_total (size_of fr).
Proof.
  unfold filled, tx_total, size_of in *. rewrite !length_app, length_replicate. cbn [length fifo_header].
  Z.div_mod_to_equations; lia.
Qed.

Lemma filled_size t q : filled fr = t ++ q -> 4 <= size_of t -> tx_size t = size_of fr.
Proof.
  intros E Ht. assert (Hn : nth 0 t 0 = size_of fr mod 256 /\ nth 1 t 0 = Z.lor 0x80 (size_of fr / 256)).
  { unfold size_of in Ht. unfold filled, fifo_header in E. destruct t as [|a [|b t]]; [cbn in Ht; lia..|]. by injection E as <- <- _. }
  unfold tx_size. destruct Hn as [-> ->]. assert (Hh : 0 <= size_of fr / 256 < 8) by (unfold size_of in *; Z.div_mod_to_equations; lia).
  change 0x80 with (1 * 2 ^ 7). rewrite lor_high by lia. change 0x07ff with (Z.ones 11). rewrite Z.land_ones by lia.
  unfold size_of in *. change (2 ^ 11) with 2048. change (1 * 2 ^ 7) with 128. Z.div_mod_to_equations; lia.
Qed.

Lemma filled_body : take (Z.to_nat (size_of fr)) (drop 4 (filled fr)) = fr.
Proof.
  change (drop 4 (filled fr)) with (fr ++ replicate (Z.to_nat (- size_of fr mod 4)) 0). unfold size_of at 1. rewrite Nat2Z.id. by rewrite take_app_length.
Qed.

(** The card after the bytes [t] of the packet. *)
Definition card_at (d : card) (t : list Z) : card :=
  if size_of t =? size_of (filled fr) then d <| wire := wire d ++ [fr] |> <| tx := [] |> else d <| tx := t |>.

Lemma push_more d t p q : p <> [] -> filled fr = t ++ p ++ q -> tx_push p (card_at d t) = card_at d (t ++ p).
Proof.
  intros Hp E. assert (Hs : size_of (filled fr) = size_of t + size_of p + size_of q) by (rewrite E, !size_app; lia).
  assert (0 < size_of p) by (unfold size_of; destruct p; [done|cbn; lia]). assert (0 <= size_of q) by (unfold size_of; lia).
  unfold card_at at 1. replace (size_of t =? size_of (filled fr)) with false by lia. unfold tx_push. cbn [tx wire setter].
  rewrite app_assoc in E. destruct (Z.leb_spec 4 (size_of (t ++ p))) as [H4|H4]; cbn [andb].
  - rewrite (filled_size _ _ E H4), <-filled_total. unfold card_at. rewrite size_app in *.
    destruct (Z.eqb_spec (size_of t + size_of p) (size_of (filled fr))) as [Ed|Ed].
    + replace (size_of (filled fr) <=? size_of t + size_of p) with true by lia.
      assert (q = []) as -> by (destruct q; [done|unfold size_of in *; cbn [length] in *; lia]). rewrite app_nil_r in E. rewrite <-E.
      rewrite filled_body, drop_ge by (unfold size_of; lia). done.
    + replace (size_of (filled fr) <=? size_of t + size_of p) with false by lia. done.
  - unfold card_at. replace (size_of (t ++ p) =? size_of (filled fr)) with false; [done|].
    symmetry. apply Z.eqb_neq. rewrite filled_total. unfold tx_total. unfold size_of in *. Z.div_mod_to_equations; lia.
Qed.

(** The driver after them. *)
Definition at_ (s : c509) (t : list Z) : c509 := s <| dev := card_at (dev s) t |>.

Context (s : c509) (s_window : window (dev s) = 1).

Lemma at_window t : window (card_at (dev s) t) = 1.
Proof. unfold card_at. by destruct (_ =? _). Qed.

Lemma byte_at t v q Q : filled fr = t ++ [v] ++ q -> Q tt (at_ s (t ++ [v])) -> wp (c509_write8 C509_W1_TX_DATA v) Q (at_ s t).
Proof.
  intros E HQ. unfold wp, c509_write8, modify, write8. cbn [at_ dev setter]. rewrite at_window. cbn.
  rewrite (push_more _ _ _ q) by done. exact HQ.
Qed.

Lemma word_at t a b q Q : is_byte a -> is_byte b -> filled fr = t ++ [a; b] ++ q -> Q tt (at_ s (t ++ [a; b])) ->
  wp (c509_write16 C509_W1_TX_DATA (a + 256 * b)) Q (at_ s t).
Proof.
  intros Ha Hb E HQ. unfold is_byte in *. unfold wp, c509_write16, modify, write16. cbn [at_ dev setter]. rewrite at_window. cbn.
  rewrite (Z.mul_comm 256), Z.mod_add, Z.mod_small, Z.div_add, Z.div_small, Z.add_0_l by lia.
  rewrite (push_more _ _ _ q) by done. exact HQ.
Qed.

Lemma words_at l t q Q : Forall is_byte l -> filled fr = t ++ even_part l ++ q -> Q tt (at_ s (t ++ even_part l)) ->
  wp (write_words l) Q (at_ s t).
Proof.
  revert t. induction l as [|a|a b l IH] using pair_ind; intros t Hl E HQ; cbn [write_words even_part app] in *; [by rewrite app_nil_r in HQ..|].
  apply Forall_cons in Hl as [Ha Hl]. apply Forall_cons in Hl as [Hb Hl]. apply wp_bind.
  apply (word_at _ _ _ (even_part l ++ q)); [done|done|done|]. apply IH; rewrite <-?app_assoc; done.
Qed.

Lemma layer_at l t q Q : Forall is_byte l -> Z.even (size_of l) = true -> filled fr = t ++ l ++ q -> Q tt (at_ s (t ++ l)) ->
  wp (write_words l) Q (at_ s t).
Proof. intros Hl He E HQ. apply (words_at l t q); rewrite ?(even_part_even l He); done. Qed.

Lemma application_at l t q Q : Forall is_byte l -> filled fr = t ++ l ++ (if Z.odd (size_of l) then [0] else []) ++ q ->
  Q tt (at_ s (t ++ l ++ (if Z.odd (size_of l) then [0] else []))) -> wp (write_application l) Q (at_ s t).
Proof.
  intros Hl E HQ. unfold write_application. rewrite odd_bit. apply wp_bind. destruct (Z.odd (size_of l)) eqn:Ho.
  - rewrite <-(even_part_odd l Ho), <-!app_assoc in E, HQ. apply (words_at l t _ _ Hl E). apply wp_bind.
    apply (byte_at _ _ ([0] ++ q)); [by rewrite <-!app_assoc|]. apply (byte_at _ _ q); [by rewrite <-!app_assoc|]. by rewrite <-!app_assoc.
  - rewrite app_nil_r in HQ. cbn [app] in E. apply (layer_at l t q); [done|by rewrite <-Z.negb_odd, Ho|done|]. by apply wp_ret.
Qed.
End packet.

Lemma layers_size nb : size_of (layers nb) = size_of (nb_datalink nb) + size_of (nb_network nb) + size_of (nb_transport nb) + size_of (nb_application nb).
Proof. unfold layers. rewrite !size_app. lia. Qed.

(** The zero bytes behind a packet: one for an odd application layer, two more for an odd
    number of words. *)
Lemma filled_tail nb : even_layers nb ->
  replicate (Z.to_nat (- size_of (layers nb) mod 4)) 0
  = (if Z.odd (size_of (nb_application nb)) then [0] else []) ++ (if Z.odd (Z.shiftr (size_of (layers nb) + 1) 1) then [0; 0] else []).
Proof.
  intros [_ E1 E2 E3]. assert (Eo : Z.odd (size_of (nb_application nb)) = Z.odd (size_of (layers nb))).
  { rewrite layers_size, !Z.odd_add, <-!Z.negb_even, E1, E2, E3. by destruct (Z.even _). }
  rewrite Eo. assert (0 <= size_of (layers nb)) by (unfold size_of; lia). generalize dependent (size_of (layers nb)). intros n _ Hn.
  rewrite Z.shiftr_div_pow2 by lia. pose proof (Zmod_odd n) as H1. pose proof (Zmod_odd ((n + 1) / 2 ^ 1)) as H2.
  destruct (Z.odd n), (Z.odd ((n + 1) / 2 ^ 1)); cbn [app].
  - replace (Z.to_nat (- n mod 4)) with 3%nat by (Z.div_mod_to_equations; lia). done.
  - replace (Z.to_nat (- n mod 4)) with 1%nat by (Z.div_mod_to_equations; lia). done.
  - replace (Z.to_nat (- n mod 4)) with 2%nat by (Z.div_mod_to_equations; lia). done.
  - replace (Z.to_nat (- n mod 4)) with 0%nat by (Z.div_mod_to_equations; lia). done.
Qed.

(** A netbuf goes on the wire as its layers are, whatever its size; the FIFO is left empty
    for the next one. *)
Lemma c509_send_frame s n nb : window (dev s) = 1 -> tx (dev s) = [] -> netbufs s !! n = Some nb -> even_layers nb ->
  size_of (layers nb) < 0x600 ->
  wp (c509_send_set_packet n) (fun _ s' =>
    s' = s <| dev := (dev s) <| wire := wire (dev s) ++ [layers nb] |> |> <| tx_available := 0 |>) s.
Proof.
  intros Hw Ht Hn He Hs. set (fr := layers nb). pose proof He as [Hb E1 E2 E3]. unfold c509_send_set_packet. apply wp_bind, wp_gets. unfold id.
  rewrite Hn, <-layers_size. fold fr. assert (H0 : 0 <= size_of fr) by (unfold size_of; lia).
  rewrite u16_small by (fold fr in Hs; lia). replace (size_of fr >=? 0x600) with false by (fold fr in Hs; lia).
  assert (Es : s = at_ fr s []).
  { unfold at_, card_at. replace (size_of [] =? size_of (filled fr)) with false; [rewrite <-Ht; by destruct s as [[]]|].
    symmetry. apply Z.eqb_neq. rewrite filled_total. unfold tx_total. unfold size_of at 1. cbn. Z.div_mod_to_equations; lia. }
  rewrite Es at 1.
  assert (Eh : Z.lor 0x8000 (size_of fr) = size_of fr mod 256 + 256 * Z.lor 0x80 (size_of fr / 256)).
  { change 0x8000 with (1 * 2 ^ 15). change 0x80 with (1 * 2 ^ 7). fold fr in Hs. rewrite !lor_high by (Z.div_mod_to_equations; lia).
    change (1 * 2 ^ 15) with 32768. change (1 * 2 ^ 7) with 128. Z.div_mod_to_equations; lia. }
  rewrite Eh. assert (Hh : is_byte (size_of fr mod 256) /\ is_byte (Z.lor 0x80 (size_of fr / 256))).
  { unfold is_byte. change 0x80 with (1 * 2 ^ 7). fold fr in Hs. rewrite lor_high by (Z.div_mod_to_equations; lia).
    change (1 * 2 ^ 7) with 128. Z.div_mod_to_equations; lia. }
  destruct Hh as [Hh1 Hh2]. pose proof (filled_tail nb He) as Et. fold fr in Et.
  set (odd := if Z.odd (size_of (nb_application nb)) then [0] else []) in *.
  set (more := if Z.odd (Z.shiftr (size_of fr + 1) 1) then [0; 0] else []) in *.
  assert (Ef : filled fr = [size_of fr mod 256; Z.lor 0x80 (size_of fr / 256)] ++ [0; 0] ++ nb_datalink nb ++ nb_network nb ++ nb_transport nb
    ++ nb_application nb ++ odd ++ more) by (transitivity (fifo_header fr ++ layers nb ++ odd ++ more); [unfold filled; by rewrite Et|unfold layers; by rewrite <-!app_assoc]).
  unfold layers in Hb. rewrite !Forall_app in Hb. destruct Hb as (B1 & B2 & B3 & B4).
  apply wp_bind. eapply (word_at fr Hs s Hw []); [done|done|exact Ef|]. apply wp_bind.
  eapply (word_at fr Hs s Hw _ 0 0); [by unfold is_byte; lia..|rewrite <-app_assoc; exact Ef|].
  apply wp_bind. eapply (layer_at fr Hs s Hw); [done|done|rewrite <-!app_assoc; exact Ef|].
  apply wp_bind. eapply (layer_at fr Hs s Hw); [done|done|rewrite <-!app_assoc; exact Ef|].
  apply wp_bind. eapply (layer_at fr Hs s Hw); [done|done|rewrite <-!app_assoc; exact Ef|].
  apply wp_bind. eapply (application_at fr Hs s Hw); [done|rewrite <-!app_assoc; exact Ef|]. fold odd.
  assert (Hend : forall t, t = filled fr -> wp (modify (fun s => s <| tx_available := 0 |>)) (fun _ s' =>
    s' = s <| dev := (dev s) <| wire := wire (dev s) ++ [fr] |> |> <| tx_available := 0 |>) (at_ fr s t)).
  { intros t ->. unfold wp, modify, at_, card_at. rewrite Z.eqb_refl. destruct s as [[]]. cbn in *. by subst. }
  apply wp_bind. rewrite odd_bit. destruct (Z.odd (Z.shiftr (size_of fr + 1) 1)).
  - eapply (word_at fr Hs s Hw _ 0 0 []); [by unfold is_byte; lia..|rewrite <-!app_assoc; exact Ef|]. apply Hend. rewrite <-!app_assoc. by rewrite Ef.
  - apply wp_ret, Hend. rewrite Ef. unfold more. by rewrite <-!app_assoc, ?app_nil_r.
Qed.

(** ** Receiving *)

Lemma read_words_take words s st l fs : window (dev s) = 1 -> rx (dev s) = (st, l) :: fs -> Forall is_byte l -> (2 * words <= length l)%nat ->
  wp (read_words words) (fun r s' => r = take (2 * words) l /\ s' = s <| dev := (dev s) <| rx := (st, drop (2 * words) l) :: fs |> |>) s.
Proof.
  revert s l. induction words as [|words IH]; intros s l Hw Hr Hb Hl; cbn [read_words].
  { apply wp_ret. split; [done|]. destruct s as [[]]. cbn in *. by subst. }
  destruct l as [|a [|b l]]; cbn [length] in Hl; [lia..|]. apply Forall_cons in Hb as [Ha Hb]. apply Forall_cons in Hb as [Hb Hbl]. unfold is_byte in *.
  apply wp_bind. unfold wp at 1, c509_read16, read16, rx_pop. rewrite Hw, Hr. cbn [Z.eqb andb nth take drop].
  apply wp_bind. eapply wp_mono; [apply (IH _ l); [exact Hw|done|done|lia]|]. intros r s' [-> ->]. apply wp_ret.
  replace (2 * S words)%nat with (S (S (2 * words))) by lia. cbn [take drop]. split; [|done].
  rewrite (Z.mul_comm 256), Z.mod_add, Z.mod_small, Z.div_add, Z.div_small by lia. done.
Qed.

(** What is read of a frame whose status is [st]: its size, rounded up. *)
Definition even_size (st : Z) : Z := 2 * ((st mod 2048 + 1) / 2).

Lemma pktsz_even st : Z.land (Z.land st 0x07ff + 1) 0xfffe = even_size st /\ Z.shiftr (even_size st) 1 = (st mod 2048 + 1) / 2.
Proof.
  unfold even_size. change 0x07ff with (Z.ones 11). rewrite Z.land_ones by lia. change (2 ^ 11) with 2048.
  rewrite Z.shiftr_div_pow2 by lia. split; [|Z.div_mod_to_equations; lia]. pose proof (Z.mod_pos_bound st 2048 ltac:(lia)) as Hs.
  assert (Hx : 0 <= st mod 2048 + 1 <= 2048) by lia. revert Hx. generalize (st mod 2048 + 1). clear st Hs. intros x Hx.
  assert (E : Z.land x 0xfffe = Z.shiftl (Z.shiftr x 1) 1); [|by rewrite E, Z.shiftl_mul_pow2, Z.shiftr_div_pow2, Z.mul_comm by lia].
  apply Z.bits_inj'. intros k Hk. rewrite Z.land_spec, Z.shiftl_spec by lia. destruct (decide (k = 0)) as [->|Hk0]; [by rewrite andb_false_r, Z.testbit_neg_r by lia|].
  rewrite Z.shiftr_spec by lia. replace (k - 1 + 1) with k by lia. change 0xfffe with (Z.shiftl (Z.ones 15) 1). rewrite Z.shiftl_spec by lia.
  destruct (Z.lt_ge_cases k 16).
  - rewrite Z.ones_spec_low by lia. apply andb_true_r.
  - rewrite Z.ones_spec_high by lia. rewrite andb_false_r. symmetry. rewrite <-(Z.mod_small x (2 ^ 16)), Z.mod_pow2_bits_high by lia. done.
Qed.

Lemma wait_discarded polls s (Q : unit -> c509 -> Prop) : has (flags (dev s)) 0x1000 = false -> Q tt s -> wp (wait_discard (S polls)) Q s.
Proof.
  intros Hf HQ. cbn [wait_discard]. apply wp_bind. unfold wp at 1, c509_read16. change (read16 C509_STATUS (dev s)) with (status (dev s), dev s).
  assert (E : has (status (dev s)) 0x1000 = false).
  { unfold has, status in *. rewrite !Z.land_lor_distr_l. apply negb_false_iff, Z.eqb_eq in Hf. rewrite Hf. do 2 case_bool_decide; done. }
  cbv beta iota zeta. rewrite E. apply wp_ret. by destruct s.
Qed.

(** The frame that the card has for longest is taken from it: a netbuf with its bytes, or
    none if it was damaged. *)
Lemma c509_takes_frame polls s st l fs : window (dev s) = 1 -> rx (dev s) = (st, l) :: fs -> st <> 0 -> Forall is_byte l ->
  even_size st <= size_of l -> has (flags (dev s)) 0x1000 = false ->
  wp (c509_recv_get_packet (S polls)) (fun r s' =>
    let n := fresh (dom (netbufs s)) in
    if has st 0x4000 then r = None /\ s' = s <| dev := (dev s) <| rx := fs |> |>
    else r = Some n /\ s' = s <| dev := (dev s) <| rx := fs |> |>
      <| netbufs := <[n := Netbuf_ (take (Z.to_nat (even_size st)) l) [] [] [] None 1 None]> (netbufs s) |>) s.
Proof.
  intros Hw Hr Hst Hb Hl Hf. unfold c509_recv_get_packet. assert (Er : read16 C509_W1_RX_STATUS (dev s) = (st, dev s)) by (unfold read16; by rewrite Hw, Hr).
  apply wp_bind. unfold wp at 1, c509_read16. rewrite Er.
  replace (s <| dev := dev s |>) with s by by destruct s. rewrite (proj2 (Z.eqb_neq _ _) Hst). apply wp_bind.
  destruct (pktsz_even st) as [-> ->]. destruct (has st 0x4000); cbn [negb].
  - apply wp_ret, wp_bind. unfold wp at 1, c509_write16, modify. apply wp_bind, wait_discarded; [exact Hf|]. apply wp_ret.
    split; [done|]. unfold write16, command. cbn. by rewrite Hr.
  - apply wp_bind. eapply wp_mono; [apply (read_words_take _ s st l fs); [done|done|done|]|].
    { pose proof (Z.mod_pos_bound st 2048 ltac:(lia)). unfold even_size, size_of in Hl. assert (0 <= (st mod 2048 + 1) / 2) by (apply Z.div_pos; lia). lia. }
    intros r s' [-> ->]. apply wp_bind. unfold wp at 1, new_netbuf. apply wp_ret, wp_bind. unfold wp at 1, c509_write16, modify.
    apply wp_bind, wait_discarded; [exact Hf|]. apply wp_ret. split; [done|]. unfold write16, command. cbn.
    replace (Z.to_nat (even_size st)) with (2 * Z.to_nat ((st mod 2048 + 1) / 2))%nat; [done|].
    unfold even_size. assert (0 <= (st mod 2048 + 1) / 2) by (apply Z.div_pos; [pose proof (Z.mod_pos_bound st 2048 ltac:(lia)); lia|lia]). lia.
Qed.

(** What the FIFOs do to a frame.  In [c509_send_set_packet()] every netbuf whose lower
    layers are even and that is not too large goes on the wire unchanged.  A frame [f]
    that is received without damage, with [pad] behind it in the FIFO, becomes a netbuf
    with its bytes; one of odd size has a byte too many. *)
Theorem c509_moves_frames polls s :
  window (dev s) = 1 -> tx (dev s) = [] -> has (flags (dev s)) 0x1000 = false ->
  (forall n nb, netbufs s !! n = Some nb -> even_layers nb -> size_of (layers nb) < 0x600 ->
    c509_send_set_packet n s = Ok (tt, s <| dev := (dev s) <| wire := wire (dev s) ++ [layers nb] |> |> <| tx_available := 0 |>))
  /\ (forall f b pad fs, rx (dev s) = (size_of f, f ++ b :: pad) :: fs -> 0 < size_of f < 2048 -> Forall is_byte (f ++ b :: pad) ->
    let n := fresh (dom (netbufs s)) in
    c509_recv_get_packet (S polls) s = Ok (Some n, s <| dev := (dev s) <| rx := fs |> |>
      <| netbufs := <[n := Netbuf_ (if Z.odd (size_of f) then f ++ [b] else f) [] [] [] None 1 None]> (netbufs s) |>)).
Proof.
  intros Hw Ht Hf. split.
  - intros n nb Hn He Hs. destruct (wp_run _ _ _ (c509_send_frame s n nb Hw Ht Hn He Hs)) as ([] & s' & E & ->). exact E.
  - intros f0 b pad fs Hr Hs Hb n.
    assert (Ee : even_size (size_of f0) = size_of f0 + (if Z.odd (size_of f0) then 1 else 0)).
    { unfold even_size. rewrite Z.mod_small by lia. pose proof (Zmod_odd (size_of f0)). destruct (Z.odd _); Z.div_mod_to_equations; lia. }
    pose proof (c509_takes_frame polls s (size_of f0) (f0 ++ b :: pad) fs Hw Hr ltac:(lia) Hb) as W.
    destruct (wp_run _ _ _ (W ltac:(rewrite Ee, size_app; unfold size_of; cbn; destruct (Z.odd _); lia) Hf)) as (r & s' & E & Q).
    assert (Hd : has (size_of f0) 0x4000 = false).
    { unfold has. apply negb_false_iff, Z.eqb_eq. apply Z.bits_inj'. intros k Hk. rewrite Z.land_spec, Z.bits_0. change 0x4000 with (2 ^ 14).
      rewrite Z.pow2_bits_eqb by lia. destruct (Z.eqb_spec 14 k) as [<-|]; [|apply andb_false_r].
      rewrite <-(Z.mod_small (size_of f0) (2 ^ 11)), Z.mod_pow2_bits_high by lia. done. }
    rewrite Hd in Q. destruct Q as [-> ->]. rewrite E. fold n. do 4 f_equal. rewrite Ee. unfold size_of.
    destruct (Z.odd _).
    + replace (Z.to_nat (Z.of_nat (length f0) + 1)) with (length (f0 ++ [b])) by (rewrite length_app; cbn; lia).
      change (b :: pad) with ([b] ++ pad). by rewrite app_assoc, take_app_length.
    + by rewrite Z.add_0_r, Nat2Z.id, take_app_length.
Qed.

(** A failure of the adapter is among the interrupts that are enabled, but the thread goes
    on waiting when there is nothing else: it is neither handled nor acknowledged. *)
Lemma c509_failure_waits polls s : flags (dev s) = Z.lor STAT_ADAPTER_FAILURE STAT_INT_LATCH -> rx (dev s) = [] -> tx_status (dev s) = [] ->
  c509_intr_pass polls s = Ok (false, s).
Proof.
  intros Hf Hr Ht. unfold c509_intr_pass, c509_read16, read16, status, mbind, ST_bind, res_bind. cbn. rewrite Hf, Hr, Ht. cbn. by destruct s.
Qed.

(** A card at reset with the address 02:60:8c:01:02:03, and what [c509_init()] makes of it. *)
Definition demo_card : card := Card 0 [] [] [] [] 0 [] ∅ [0x0260; 0x8c01; 0x0203] 0 [].
Definition demo_reset : c509 := C509_ demo_card None ∅ 1 false (Some 300) {[300 := 2]} [] [] false ∅.

Example c509_init_ready : match c509_init demo_reset with
  | Ok (_, s) => window (dev s) = 1 /\ edi_mac s = [0x02; 0x60; 0x8c; 0x01; 0x02; 0x03]
      /\ take 5 (ids (dev s)) = [0; 0; 0xff; 0x31; 0x62] /\ length (ids (dev s)) = 260%nat
  | _ => False end.
Proof. vm_compute. done. Qed.

End C509Facts.
