(* ===== verification/PppTable.v ===== *)
(** * The option negotiation automaton (src/lib/ppp/ppp.c, lines 37-388)

    The transition table of RFC 1661 as ppp.c has it: one row for each event, one
    entry for each state, each with the action to take and the next state.  Numbers
    are kept: the code indexes the table with them. *)

From stdpp Require Import base list gmap fin_maps strings.
From Stdlib Require Import ZArith Lia.
From S2P Require Import Prelude.
Open Scope Z_scope.

(** Link operation phases. *)
Definition PHASE_DEAD : Z := 0.
Definition PHASE_ESTABLISH : Z := 1.
Definition PHASE_AUTHENTICATE : Z := 2.
Definition PHASE_NETWORK : Z := 3.
Definition PHASE_TERMINATE : Z := 4.

(** States. *)
Definition STATE_INITIAL : Z := 0.
Definition STATE_STARTING : Z := 1.
Definition STATE_CLOSED : Z := 2.
Definition STATE_STOPPED : Z := 3.
Definition STATE_CLOSING : Z := 4.
Definition STATE_STOPPING : Z := 5.
Definition STATE_REQ_SENT : Z := 6.
Definition STATE_ACK_RCVD : Z := 7.
Definition STATE_ACK_SENT : Z := 8.
Definition STATE_OPENED : Z := 9.

(** Events. *)
Definition EVENT_UP : Z := 0.
Definition EVENT_DOWN : Z := 1.
Definition EVENT_OPEN : Z := 2.
Definition EVENT_CLOSE : Z := 3.
Definition EVENT_TO_P : Z := 4.
Definition EVENT_TO_M : Z := 5.
Definition EVENT_RCR_P : Z := 6.
Definition EVENT_RCR_M : Z := 7.
Definition EVENT_RCA : Z := 8.
Definition EVENT_RCN : Z := 9.
Definition EVENT_RTR : Z := 10.
Definition EVENT_RTA : Z := 11.
Definition EVENT_RUC : Z := 12.
Definition EVENT_RXJ_P : Z := 13.
Definition EVENT_RXJ_M : Z := 14.
Definition EVENT_RXR : Z := 15.

(** Actions, the compound ones at the end. *)
Definition ACTION_NONE : Z := 0.
Definition ACTION_TLU : Z := 1.
Definition ACTION_TLD : Z := 2.
Definition ACTION_TLS : Z := 3.
Definition ACTION_TLF : Z := 4.
Definition ACTION_IRC : Z := 5.
Definition ACTION_ZRC : Z := 6.
Definition ACTION_SCR : Z := 7.
Definition ACTION_SCA : Z := 8.
Definition ACTION_SCN : Z := 9.
Definition ACTION_STR : Z := 10.
Definition ACTION_STA : Z := 11.
Definition ACTION_SCJ : Z := 12.
Definition ACTION_SER : Z := 13.
Definition ACTION_TLD_SCR : Z := 14.
Definition ACTION_IRC_TLU : Z := 15.
Definition ACTION_IRC_SCR : Z := 16.
Definition ACTION_IRC_STR : Z := 17.
Definition ACTION_SCA_TLU : Z := 18.
Definition ACTION_TLD_IRC_STR : Z := 19.
Definition ACTION_TLD_SCR_SCA : Z := 20.
Definition ACTION_TLD_SCR_SCN : Z := 21.
Definition ACTION_TLD_ZRC_STA : Z := 22.
Definition ACTION_IRC_SCR_SCA : Z := 23.
Definition ACTION_IRC_SCR_SCN : Z := 24.

(** Codes of the packets. *)
Definition CODE_CONF_REQ : Z := 1.
Definition CODE_CONF_ACK : Z := 2.
Definition CODE_CONF_NAK : Z := 3.
Definition CODE_CONF_REJ : Z := 4.
Definition CODE_TERM_REQ : Z := 5.
Definition CODE_TERM_ACK : Z := 6.
Definition CODE_CODE_REJ : Z := 7.
Definition CODE_PROTOCOL_REJ : Z := 8.
Definition CODE_ECHO_REQ : Z := 9.
Definition CODE_ECHO_REP : Z := 10.
Definition CODE_DISCARD_REQ : Z := 11.

(** Retransmission limits. *)
Definition RESTART_MAX_CONFIGURE : Z := 10.
Definition RESTART_MAX_TERMINATE : Z := 2.
Definition RESTART_MAX_FAILURE : Z := 5.

(** [TIMEOUT_TICKS], with the [TICK_RATE] of 100 of timer.h. *)
Definition TIMEOUT_TICKS : Z := 3 * 100.

Record transition := T_ {
  t_action : Z;
  t_next_state : Z }.

Definition trans_up : list transition :=
  [T_ ACTION_NONE STATE_CLOSED;
   T_ ACTION_IRC_SCR STATE_REQ_SENT;
   T_ ACTION_NONE STATE_CLOSED;
   T_ ACTION_NONE STATE_STOPPED;
   T_ ACTION_NONE STATE_CLOSING;
   T_ ACTION_NONE STATE_STOPPING;
   T_ ACTION_NONE STATE_REQ_SENT;
   T_ ACTION_NONE STATE_ACK_RCVD;
   T_ ACTION_NONE STATE_ACK_SENT;
   T_ ACTION_NONE STATE_OPENED].

Definition trans_down : list transition :=
  [T_ ACTION_NONE STATE_INITIAL;
   T_ ACTION_NONE STATE_STARTING;
   T_ ACTION_NONE STATE_INITIAL;
   T_ ACTION_TLS STATE_STARTING;
   T_ ACTION_NONE STATE_INITIAL;
   T_ ACTION_NONE STATE_STARTING;
   T_ ACTION_NONE STATE_STARTING;
   T_ ACTION_NONE STATE_STARTING;
   T_ ACTION_NONE STATE_STARTING;
   T_ ACTION_TLD STATE_STARTING].

Definition trans_open : list transition :=
  [T_ ACTION_TLS STATE_STARTING;
   T_ ACTION_NONE STATE_STARTING;
   T_ ACTION_IRC_SCR STATE_REQ_SENT;
   T_ ACTION_NONE STATE_STOPPED;
   T_ ACTION_NONE STATE_STOPPING;
   T_ ACTION_NONE STATE_STOPPING;
   T_ ACTION_NONE STATE_REQ_SENT;
   T_ ACTION_NONE STATE_ACK_RCVD;
   T_ ACTION_NONE STATE_ACK_SENT;
   T_ ACTION_NONE STATE_OPENED].

Definition trans_close : list transition :=
  [T_ ACTION_NONE STATE_INITIAL;
   T_ ACTION_TLF STATE_INITIAL;
   T_ ACTION_NONE STATE_CLOSED;
   T_ ACTION_NONE STATE_CLOSED;
   T_ ACTION_NONE STATE_CLOSING;
   T_ ACTION_NONE STATE_CLOSING;
   T_ ACTION_IRC_STR STATE_CLOSING;
   T_ ACTION_IRC_STR STATE_CLOSING;
   T_ ACTION_IRC_STR STATE_CLOSING;
   T_ ACTION_TLD_IRC_STR STATE_CLOSING].

Definition trans_to_p : list transition :=
  [T_ ACTION_NONE STATE_INITIAL;
   T_ ACTION_NONE STATE_STARTING;
   T_ ACTION_NONE STATE_CLOSED;
   T_ ACTION_NONE STATE_STOPPED;
   T_ ACTION_STR STATE_CLOSING;
   T_ ACTION_STR STATE_STOPPING;
   T_ ACTION_SCR STATE_REQ_SENT;
   T_ ACTION_SCR STATE_REQ_SENT;
   T_ ACTION_SCR STATE_ACK_SENT;
   T_ ACTION_NONE STATE_OPENED].

Definition trans_to_m : list transition :=
  [T_ ACTION_NONE STATE_INITIAL;
   T_ ACTION_NONE STATE_STARTING;
   T_ ACTION_NONE STATE_CLOSED;
   T_ ACTION_NONE STATE_STOPPED;
   T_ ACTION_TLF STATE_CLOSED;
   T_ ACTION_TLF STATE_STOPPED;
   T_ ACTION_TLF STATE_STOPPED;
   T_ ACTION_TLF STATE_STOPPED;
   T_ ACTION_TLF STATE_STOPPED;
   T_ ACTION_NONE STATE_OPENED].

Definition trans_rcr_p : list transition :=
  [T_ ACTION_NONE STATE_INITIAL;
   T_ ACTION_NONE STATE_STARTING;
   T_ ACTION_STA STATE_CLOSED;
   T_ ACTION_IRC_SCR_SCA STATE_ACK_SENT;
   T_ ACTION_NONE STATE_CLOSING;
   T_ ACTION_NONE STATE_STOPPING;
   T_ ACTION_SCA STATE_ACK_SENT;
   T_ ACTION_SCA_TLU STATE_OPENED;
   T_ ACTION_SCA STATE_ACK_SENT;
   T_ ACTION_TLD_SCR_SCA STATE_ACK_SENT].

Definition trans_rcr_m : list transition :=
  [T_ ACTION_NONE STATE_INITIAL;
   T_ ACTION_NONE STATE_STARTING;
   T_ ACTION_STA STATE_CLOSED;
   T_ ACTION_IRC_SCR_SCN STATE_REQ_SENT;
   T_ ACTION_NONE STATE_CLOSING;
   T_ ACTION_NONE STATE_STOPPING;
   T_ ACTION_SCN STATE_REQ_SENT;
   T_ ACTION_SCN STATE_ACK_RCVD;
   T_ ACTION_SCN STATE_REQ_SENT;
   T_ ACTION_TLD_SCR_SCN STATE_REQ_SENT].

Definition trans_rca : list transition :=
  [T_ ACTION_NONE STATE_INITIAL;
   T_ ACTION_NONE STATE_STARTING;
   T_ ACTION_STA STATE_CLOSED;
   T_ ACTION_STA STATE_STOPPED;
   T_ ACTION_NONE STATE_CLOSING;
   T_ ACTION_NONE STATE_STOPPING;
   T_ ACTION_IRC STATE_ACK_RCVD;
   T_ ACTION_SCR STATE_REQ_SENT;
   T_ ACTION_IRC_TLU STATE_OPENED;
   T_ ACTION_TLD_SCR STATE_REQ_SENT].

Definition trans_rcn : list transition :=
  [T_ ACTION_NONE STATE_INITIAL;
   T_ ACTION_NONE STATE_STARTING;
   T_ ACTION_STA STATE_CLOSED;
   T_ ACTION_STA STATE_STOPPED;
   T_ ACTION_NONE STATE_CLOSING;
   T_ ACTION_NONE STATE_STOPPING;
   T_ ACTION_IRC_SCR STATE_REQ_SENT;
   T_ ACTION_SCR STATE_REQ_SENT;
   T_ ACTION_IRC_SCR STATE_ACK_SENT;
   T_ ACTION_TLD_SCR STATE_REQ_SENT].

Definition trans_rtr : list transition :=
  [T_ ACTION_NONE STATE_INITIAL;
   T_ ACTION_NONE STATE_STARTING;
   T_ ACTION_STA STATE_CLOSED;
   T_ ACTION_STA STATE_STOPPED;
   T_ ACTION_STA STATE_CLOSING;
   T_ ACTION_STA STATE_STOPPING;
   T_ ACTION_STA STATE_REQ_SENT;
   T_ ACTION_STA STATE_REQ_SENT;
   T_ ACTION_STA STATE_REQ_SENT;
   T_ ACTION_TLD_ZRC_STA STATE_STOPPING].

Definition trans_rta : list transition :=
  [T_ ACTION_NONE STATE_INITIAL;
   T_ ACTION_NONE STATE_STARTING;
   T_ ACTION_NONE STATE_CLOSED;
   T_ ACTION_NONE STATE_STOPPED;
   T_ ACTION_TLF STATE_CLOSED;
   T_ ACTION_TLF STATE_STOPPED;
   T_ ACTION_NONE STATE_REQ_SENT;
   T_ ACTION_NONE STATE_REQ_SENT;
   T_ ACTION_NONE STATE_ACK_SENT;
   T_ ACTION_TLD_SCR STATE_REQ_SENT].

Definition trans_ruc : list transition :=
  [T_ ACTION_NONE STATE_INITIAL;
   T_ ACTION_NONE STATE_STARTING;
   T_ ACTION_SCJ STATE_CLOSED;
   T_ ACTION_SCJ STATE_STOPPED;
   T_ ACTION_SCJ STATE_CLOSING;
   T_ ACTION_SCJ STATE_STOPPING;
   T_ ACTION_SCJ STATE_REQ_SENT;
   T_ ACTION_SCJ STATE_ACK_RCVD;
   T_ ACTION_SCJ STATE_ACK_SENT;
   T_ ACTION_SCJ STATE_OPENED].

Definition trans_rxj_p : list transition :=
  [T_ ACTION_NONE STATE_INITIAL;
   T_ ACTION_NONE STATE_STARTING;
   T_ ACTION_NONE STATE_CLOSED;
   T_ ACTION_NONE STATE_STOPPED;
   T_ ACTION_NONE STATE_CLOSING;
   T_ ACTION_NONE STATE_STOPPING;
   T_ ACTION_NONE STATE_REQ_SENT;
   T_ ACTION_NONE STATE_REQ_SENT;
   T_ ACTION_NONE STATE_ACK_SENT;
   T_ ACTION_NONE STATE_OPENED].

Definition trans_rxj_m : list transition :=
  [T_ ACTION_NONE STATE_INITIAL;
   T_ ACTION_NONE STATE_STARTING;
   T_ ACTION_TLF STATE_CLOSED;
   T_ ACTION_TLF STATE_STOPPED;
   T_ ACTION_TLF STATE_CLOSED;
   T_ ACTION_TLF STATE_STOPPED;
   T_ ACTION_TLF STATE_STOPPED;
   T_ ACTION_TLF STATE_STOPPED;
   T_ ACTION_TLF STATE_STOPPED;
   T_ ACTION_TLD_IRC_STR STATE_STOPPING].

Definition trans_rxr : list transition :=
  [T_ ACTION_NONE STATE_INITIAL;
   T_ ACTION_NONE STATE_STARTING;
   T_ ACTION_NONE STATE_CLOSED;
   T_ ACTION_NONE STATE_STOPPED;
   T_ ACTION_NONE STATE_CLOSING;
   T_ ACTION_NONE STATE_STOPPING;
   T_ ACTION_NONE STATE_REQ_SENT;
   T_ ACTION_NONE STATE_ACK_RCVD;
   T_ ACTION_NONE STATE_ACK_SENT;
   T_ ACTION_SER STATE_OPENED].

(** [ppp_trans], the rows in the order of the events. *)
Definition ppp_trans : list (list transition) :=
  [trans_up; trans_down; trans_open; trans_close; trans_to_p; trans_to_m; trans_rcr_p; trans_rcr_m; trans_rca; trans_rcn; trans_rtr; trans_rta; trans_ruc; trans_rxj_p; trans_rxj_m; trans_rxr].

(** [&ppp_trans[event][state]]; outside the table the code would read other memory. *)
Definition trans (event state : Z) : option transition :=
  row ← ppp_trans !! Z.to_nat event; row !! Z.to_nat state.
