(* ===== verification/Ppp.v ===== *)
(** * The Point-to-Point Protocol (src/lib/ppp/ppp.c, include/ppp.h)

    A PPP instance negotiates the link with LCP: [handle_event] looks the event up
    in the transition table, [handle_action] does what the entry says (send a
    packet, start the restart timer, change the phase), [lcp_recv_netbuf] turns a
    received packet into an event.  Packets of other protocols go to the clients.

    Packets are in memory; the fields of the instance are a record; the restart
    timer is a timer of the one-shot service.  The framing service below
    ([pas_send], [pas_set_accm]) and the functions of the clients are parameters. *)

From stdpp Require Import base list gmap fin_maps strings.
From Stdlib Require Import ZArith Lia.
From S2P Require Import Prelude Heap Membuf NetbufMem Ip Parts Oneshot PppTable.
Open Scope Z_scope.

Definition PPP_USAGE_ACK : Z := 0.
Definition PPP_USAGE_NAK : Z := 1.
Definition PPP_USAGE_REJ : Z := 2.

Record ppp_server := Ppp_server_ {
  ps_self : Z;
  ps_protocol : Z }.

Record ppp_client := Ppp_client_ {
  pc_self : Z;
  pc_server : Z;
  pc_protocol : Z;
  pc_link_up_set : bool (* [pc_link_up] is not [NULL] *) }.
#[export] Instance eta_ppp_client : Eta ppp_client := fun c =>
  Ppp_client_ (pc_self c) (pc_server c) (pc_protocol c) (pc_link_up_set c).

Record ppp_instance := Ppp_instance_ {
  pi_self : Z;
  pi_lock : bool;
  pi_phase : Z;
  pi_state : Z;
  pi_ident : Z;
  pi_timeout_timer : tid;
  pi_restart_counter : Z;
  pi_send : Z;
  pi_parse_state : Z;
  pi_mru : Z;
  pi_mru_usage : Z;
  pi_accm : Z;
  pi_accm_usage : Z;
  pi_local_magic_number : Z;
  pi_local_magic_number_usage : Z;
  pi_remote_magic_number : Z;
  pi_pfc : Z;
  pi_pfc_usage : Z;
  pi_acfc : Z;
  pi_acfc_usage : Z;
  pi_client_list : list ppp_client;
  pi_server : Z }.
#[export] Instance eta_ppp_instance : Eta ppp_instance := fun i =>
  Ppp_instance_ (pi_self i) (pi_lock i) (pi_phase i) (pi_state i) (pi_ident i) (pi_timeout_timer i)
    (pi_restart_counter i) (pi_send i) (pi_parse_state i) (pi_mru i) (pi_mru_usage i) (pi_accm i) (pi_accm_usage i)
    (pi_local_magic_number i) (pi_local_magic_number_usage i) (pi_remote_magic_number i) (pi_pfc i) (pi_pfc_usage i)
    (pi_acfc i) (pi_acfc_usage i) (pi_client_list i) (pi_server i).

Definition sizeof_ppp_server : Z := 12.
Definition sizeof_ppp_client : Z := 28.
Definition sizeof_ppp_instance : Z := 76.
Definition sizeof_ppp_ahdlc_client : Z := 20.

(** [while (pc && (pc->pc_protocol != protocol)) pc = pc->pc_next;] *)
Fixpoint find_protocol (protocol : Z) (l : list ppp_client) : option ppp_client :=
  match l with
  | [] => None
  | pc :: l => if negb (pc_protocol pc =? protocol) then find_protocol protocol l else Some pc
  end.

(** Where [frame_rej] and its like copy an option from: the received packet, or a
    local variable with the given bytes. *)
Inductive optbuf := In_packet (a : Z) | Local (l : list Z).

Section ppp.
Context {X : Type} `{Part X ppp_instance} `{Part X timers}.
Context (pas_send : Z -> Z -> W X unit)          (* server, netbuf *)
        (pas_set_accm : Z -> Z -> W X unit)      (* server, map *)
        (pc_link_up : ppp_client -> W X unit)
        (pc_recv : ppp_client -> Z -> W X unit).
(** What is on the stack above the local variables of [lcp_check_request]. *)
Context (stack : list Z).

Definition lock_pi : W X unit := lock_part pi_lock (fun l i => i <| pi_lock := l |>).
Definition unlock_pi : W X unit := unlock_part pi_lock (fun l i => i <| pi_lock := l |>).

(** ** Sending *)

(** The two-byte datalink header with the protocol number. *)
Definition ppp_header (nb protocol : Z) : P unit :=
  m ← membuf_alloc 2 0;
  wr32 (nb + Nb.datalink_membuf) m;;
  d ← rd32 (nb + Nb.datalink_membuf);
  wr32 (nb + Nb.datalink) d;;
  wr32 (nb + Nb.datalink_size) 2;;
  p ← rd32 (nb + Nb.datalink);
  wr16 p (hton16 protocol).

(** Called with the lock held; the lock is released while the packet is sent. *)
Definition lcp_send_netbuf (nb : Z) : W X unit :=
  pas ← get_part pi_server;
  mem_ (membuf_ref pas);;
  unlock_pi;;
  mem_ (ppp_header nb 0xc021);;
  pas_send pas nb;;
  deref_ pas;;
  lock_pi.

(** [pi->pi_mru] as an option of a request, if it is to be used; the result is the
    advanced pointer. *)
Definition put_mru (p : Z) : W X Z :=
  u ← get_part pi_mru_usage;
  if u =? PPP_USAGE_ACK then
    mru ← get_part pi_mru;
    mem_ (wr8 p 0x01);;
    mem_ (wr8 (p + 1) 4);;
    mem_ (wr16 (p + 2) (hton16 mru));;
    mret (p + 4)
  else mret p.

Definition put_accm (p : Z) : W X Z :=
  u ← get_part pi_accm_usage;
  if u =? PPP_USAGE_ACK then
    accm ← get_part pi_accm;
    mem_ (wr8 p 0x02);;
    mem_ (wr8 (p + 1) 6);;
    mem_ (wr32 (p + 2) (hton32 accm));;
    mret (p + 6)
  else mret p.

Definition lcp_build_req (nb : Z) : W X unit :=
  mod_part (fun i => i <| pi_ident := u8 (pi_ident i + 1) |>);;
  p ← mem_ (rd32 (nb + Nb.network));
  ident ← get_part pi_ident;
  mem_ (wr8 p CODE_CONF_REQ);;
  mem_ (wr8 (p + 1) ident);;
  mem_ (wr8 (p + 2) 0);;
  mem_ (wr8 (p + 3) 4);;
  let reply_start := p + 4 in
  p ← put_mru reply_start;
  p ← put_accm p;
  mem_ (wr32 (nb + Nb.network_size) (4 + u16 (p - reply_start)));;
  sz ← mem_ (rd32 (nb + Nb.network_size));
  mem_ (wr16 (reply_start - 2) (hton16 (u16 sz))).

(** A netbuf with a network layer of [size] bytes, of which [used] are in use. *)
Definition new_packet (size used : Z) : P Z :=
  nb ← netbuf_alloc;
  m ← membuf_alloc size 0;
  wr32 (nb + Nb.network_membuf) m;;
  n ← rd32 (nb + Nb.network_membuf);
  wr32 (nb + Nb.network) n;;
  wr32 (nb + Nb.network_size) used;;
  mret nb.

(** [pi->pi_send = netbuf_alloc(); ...] *)
Definition new_reply (size used : Z) : W X unit :=
  nb ← mem_ (new_packet size used);
  mod_part (fun i => i <| pi_send := nb |>).

(** ** Options *)

Definition lcp_implement_options : W X unit :=
  u ← get_part pi_accm_usage;
  if u =? PPP_USAGE_ACK then
    s ← get_part pi_server;
    accm ← get_part pi_accm;
    pas_set_accm s accm
  else mret tt.

Definition default_fields (i : ppp_instance) : ppp_instance :=
  i <| pi_mru := 1500 |> <| pi_mru_usage := PPP_USAGE_ACK |>
    <| pi_accm := 0xffffffff |> <| pi_accm_usage := PPP_USAGE_ACK |>
    <| pi_local_magic_number := 0 |> <| pi_local_magic_number_usage := PPP_USAGE_REJ |>
    <| pi_remote_magic_number := 0 |>
    <| pi_pfc := 0 |> <| pi_pfc_usage := PPP_USAGE_REJ |>
    <| pi_acfc := 0 |> <| pi_acfc_usage := PPP_USAGE_REJ |>.

Definition lcp_default_options : W X unit :=
  mod_part default_fields;;
  lcp_implement_options.

(** ** Actions *)

(** [ACTION_TLU]: the clients of the network control protocols are told.  The walk is
    over the list as it is when it starts. *)
Fixpoint tell_clients (l : list ppp_client) : W X unit :=
  match l with
  | [] => mret tt
  | pc :: l =>
    (if (Z.land (pc_protocol pc) 0xff00 =? 0x8000) && pc_link_up_set pc then
       mem_ (membuf_ref (pc_self pc));;
       unlock_pi;;
       pc_link_up pc;;
       lock_pi;;
       deref_ (pc_self pc)
     else mret tt);;
    tell_clients l
  end.

Definition action_tlu : W X unit :=
  lcp_implement_options;;
  mod_part (fun i => i <| pi_phase := PHASE_NETWORK |>);;
  l ← get_part pi_client_list;
  tell_clients l.

Definition action_tld : W X unit :=
  lcp_default_options;;
  mod_part (fun i => i <| pi_phase := PHASE_TERMINATE |>).

Definition set_phase (phase : Z) : W X unit := mod_part (fun i => i <| pi_phase := phase |>).

Definition action_irc : W X unit :=
  mod_part (fun i => i <| pi_restart_counter :=
    if pi_phase i =? PHASE_TERMINATE then RESTART_MAX_TERMINATE else RESTART_MAX_CONFIGURE |>).

Definition restart_timer : W X unit :=
  t ← get_part pi_timeout_timer;
  timer_detach t;;
  timer_attach t.

Definition action_zrc : W X unit :=
  mod_part (fun i => i <| pi_restart_counter := 0 |>);;
  restart_timer.

(** Restart the timer for the packet just built, send it and drop it. *)
Definition send_and_wait (nb : Z) : W X unit :=
  t ← get_part pi_timeout_timer;
  timer_set t TIMEOUT_TICKS;;
  restart_timer;;
  lcp_send_netbuf nb;;
  deref_ nb.

Definition action_scr : W X unit :=
  c ← get_part pi_restart_counter;
  if 0 <? c then
    mod_part (fun i => i <| pi_restart_counter := u8 (pi_restart_counter i - 1) |>);;
    nb ← mem_ (new_packet 1500 0);
    lcp_build_req nb;;
    send_and_wait nb
  else mret tt.

Definition action_str : W X unit :=
  c ← get_part pi_restart_counter;
  if 0 <? c then
    mod_part (fun i => i <| pi_restart_counter := u8 (pi_restart_counter i - 1) |>);;
    nb ← mem_ (new_packet 4 4);
    p ← mem_ (rd32 (nb + Nb.network));
    ident ← get_part pi_ident;
    mod_part (fun i => i <| pi_ident := u8 (pi_ident i + 1) |>);;
    mem_ (wr8 p CODE_TERM_REQ);;
    mem_ (wr8 (p + 1) ident);;
    mem_ (wr8 (p + 2) 0);;
    mem_ (wr8 (p + 3) 4);;
    send_and_wait nb
  else mret tt.

(** [ACTION_SCA], [ACTION_SCN], [ACTION_STA] and [ACTION_SER]. *)
Definition send_reply : W X unit :=
  nb ← get_part pi_send;
  lcp_send_netbuf nb;;
  nb ← get_part pi_send;
  deref_ nb.

(** The [switch]; [do] is the recursive call of the compound actions. *)
Definition action_step (do : Z -> W X unit) (action : Z) : W X unit :=
  if action =? ACTION_TLU then action_tlu
  else if action =? ACTION_TLD then action_tld
  else if action =? ACTION_TLS then set_phase PHASE_ESTABLISH
  else if action =? ACTION_TLF then set_phase PHASE_DEAD
  else if action =? ACTION_IRC then action_irc
  else if action =? ACTION_ZRC then action_zrc
  else if action =? ACTION_SCR then action_scr
  else if action =? ACTION_SCA then send_reply
  else if action =? ACTION_SCN then send_reply
  else if action =? ACTION_STR then action_str
  else if action =? ACTION_STA then send_reply
  else if action =? ACTION_SCJ then mret tt
  else if action =? ACTION_SER then send_reply
  else if action =? ACTION_TLD_SCR then do ACTION_TLD;; do ACTION_SCR
  else if action =? ACTION_IRC_TLU then do ACTION_IRC;; do ACTION_TLU
  else if action =? ACTION_IRC_SCR then do ACTION_IRC;; do ACTION_SCR
  else if action =? ACTION_IRC_STR then do ACTION_IRC;; do ACTION_STR
  else if action =? ACTION_SCA_TLU then do ACTION_SCA;; do ACTION_TLU
  else if action =? ACTION_TLD_IRC_STR then do ACTION_TLD;; do ACTION_IRC_STR
  else if action =? ACTION_TLD_SCR_SCA then do ACTION_TLD_SCR;; do ACTION_SCA
  else if action =? ACTION_TLD_SCR_SCN then do ACTION_TLD_SCR;; do ACTION_SCN
  else if action =? ACTION_TLD_ZRC_STA then do ACTION_TLD;; do ACTION_ZRC;; do ACTION_STA
  else if action =? ACTION_IRC_SCR_SCA then do ACTION_IRC_SCR;; do ACTION_SCA
  else if action =? ACTION_IRC_SCR_SCN then do ACTION_IRC_SCR;; do ACTION_SCN
  else mret tt.

(** A compound action is at most two calls deep ([handle_action_depth]). *)
Fixpoint handle_action (depth : nat) (action : Z) : W X unit :=
  match depth with
  | O => fun _ => Fuel
  | S depth => action_step (handle_action depth) action
  end.

(** How deep the calls of an action go. *)
Definition action_level (action : Z) : nat :=
  if action <=? ACTION_SER then 0 else if action <=? ACTION_SCA_TLU then 1 else 2.

Lemma action_step_ext do do' action :
  (forall a, (action_level a < action_level action)%nat -> do a = do' a) -> action_step do action = action_step do' action.
Proof.
  intros Hd. unfold action_step.
  repeat (match goal with |- (if action =? ?c then _ else _) = _ => destruct (Z.eqb_spec action c) as [->|] end;
    [first [reflexivity|rewrite !Hd by (apply Nat.ltb_lt; reflexivity); reflexivity]|]).
  reflexivity.
Qed.

(** Three levels are enough for every action: more make no difference. *)
Lemma handle_action_depth n action : handle_action (3 + n) action = handle_action 3 action.
Proof.
  assert (Hd : forall d d' a, (action_level a < d)%nat -> (action_level a < d')%nat -> handle_action d a = handle_action d' a).
  { intros d. induction d as [|d IH]; intros [|d'] a H1 H2; [lia..|]. cbn [handle_action]. apply action_step_ext.
    intros b Hb. apply IH; lia. }
  apply Hd; unfold action_level; repeat case_match; lia.
Qed.

Definition handle_event (event : Z) : W X unit :=
  state ← get_part pi_state;
  match trans event state with
  | None => fun _ => Stop "outside the transition table"
  | Some t =>
    handle_action 3 (t_action t);;
    (if (t_next_state t <=? STATE_STOPPED) || (t_next_state t =? STATE_OPENED) then
       tm ← get_part pi_timeout_timer; timer_detach tm
     else mret tt);;
    mod_part (fun i => i <| pi_state := t_next_state t |>)
  end.

Definition lcp_tick_timeout : W X unit :=
  lock_pi;;
  mod_part (fun i => i <| pi_ident := u8 (pi_ident i - 1) |>);;
  c ← get_part pi_restart_counter;
  handle_event (if negb (c =? 0) then EVENT_TO_P else EVENT_TO_M);;
  unlock_pi.

(** ** Received options *)

(** [*p++ = opt; *p++ = optsz; memcpy(p, optbuf, optsz - 2); p += optsz - 2;] *)
Definition put_option (p opt optsz : Z) (buf : optbuf) : P Z :=
  wr8 p opt;;
  wr8 (p + 1) optsz;;
  match buf with
  | In_packet a => memcpy (p + 2) a (optsz - 2)
  | Local l => wr_bytes (p + 2) (take (Z.to_nat (optsz - 2)) (l ++ stack))
  end;;
  mret (p + 2 + (optsz - 2)).

Definition frame_rej (p reply_start opt optsz : Z) (buf : optbuf) : W X Z :=
  s ← get_part pi_parse_state;
  p ← (if s <? PPP_USAGE_REJ then
         mem_ (wr8 (reply_start - 4) CODE_CONF_REJ);;
         mod_part (fun i => i <| pi_parse_state := PPP_USAGE_REJ |>);;
         mret reply_start
       else mret p);
  mem_ (put_option p opt optsz buf).

Definition frame_nak (p reply_start opt optsz : Z) (buf : optbuf) : W X Z :=
  s ← get_part pi_parse_state;
  p ← (if s <? PPP_USAGE_NAK then
         mem_ (wr8 (reply_start - 4) CODE_CONF_NAK);;
         mod_part (fun i => i <| pi_parse_state := PPP_USAGE_NAK |>);;
         mret reply_start
       else mret p);
  s ← get_part pi_parse_state;
  if s <=? PPP_USAGE_NAK then mem_ (put_option p opt optsz buf) else mret p.

Definition frame_ack (p opt optsz : Z) (buf : optbuf) : W X Z :=
  s ← get_part pi_parse_state;
  if s <=? PPP_USAGE_ACK then mem_ (put_option p opt optsz buf) else mret p.

(** [(mru >= 64) || (mru <= 1500)] *)
Definition mru_acceptable (mru : Z) : bool := (64 <=? mru) || (mru <=? 1500).
(** [(accm & 0xff0f0f0f) == 0xff0f0f0f] *)
Definition accm_acceptable (accm : Z) : bool := Z.land accm 0xff0f0f0f =? 0xff0f0f0f.

Definition check_mru (p reply_start optsz buf : Z) : W X Z :=
  nak_mru ← get_part pi_mru;
  mru ← mem_ (rd16 buf);
  if (optsz =? 4) && mru_acceptable (hton16 mru) then
    p ← frame_ack p 0x01 optsz (In_packet buf);
    mod_part (fun i => i <| pi_mru := hton16 mru |>);;
    mret p
  else frame_nak p reply_start 0x01 optsz (Local (le16 (hton16 nak_mru))).

Definition check_accm (p reply_start optsz buf : Z) : W X Z :=
  accm ← mem_ (rd32 buf);
  if (optsz =? 6) && accm_acceptable (hton32 accm) then
    p ← frame_ack p 0x02 optsz (In_packet buf);
    mod_part (fun i => i <| pi_accm := hton32 accm |>);;
    mret p
  else frame_nak p reply_start 0x02 optsz (Local (le32 (hton32 0xff0f0f0f))).

(** The [switch] on the option. *)
Definition check_option (p reply_start opt optsz buf : Z) : W X Z :=
  if opt =? 0x01 then check_mru p reply_start optsz buf
  else if opt =? 0x02 then check_accm p reply_start optsz buf
  else frame_rej p reply_start opt optsz (In_packet buf).

(** The [while] loop; the result is the end of the reply.  Each pass takes two bytes
    or more off [sz]. *)
Fixpoint check_options (fuel : nat) (p reply_start buf sz : Z) : W X Z :=
  match fuel with
  | O => fun _ => Fuel
  | S fuel =>
    if 2 <=? sz then
      opt ← mem_ (rd8 buf);
      optsz ← mem_ (rd8 (buf + 1));
      if (sz <? optsz) || (optsz <? 2) then frame_rej p reply_start opt 2 (In_packet (buf + 2))
      else
        p ← check_option p reply_start opt optsz (buf + 2);
        check_options fuel p reply_start (buf + 2 + (optsz - 2)) (u16 (sz - optsz))
    else mret p
  end.

Definition lcp_check_request (buf sz id : Z) : W X unit :=
  mod_part (fun i => i <| pi_parse_state := PPP_USAGE_ACK |>);;
  nb ← get_part pi_send;
  p ← mem_ (rd32 (nb + Nb.network));
  mem_ (wr8 p CODE_CONF_ACK);;
  mem_ (wr8 (p + 1) id);;
  mem_ (wr8 (p + 2) 0);;
  mem_ (wr8 (p + 3) 4);;
  let reply_start := p + 4 in
  p ← check_options (S (Z.to_nat sz)) reply_start reply_start buf sz;
  mem_ (wr32 (nb + Nb.network_size) (4 + u16 (p - reply_start)));;
  n ← mem_ (rd32 (nb + Nb.network_size));
  mem_ (wr16 (reply_start - 2) (hton16 (u16 n))).

(** The loops over the options of an acknowledgement and of a rejection. *)
Fixpoint walk_options (fuel : nat) (body : Z -> Z -> Z -> W X unit) (buf sz : Z) : W X unit :=
  match fuel with
  | O => fun _ => Fuel
  | S fuel =>
    if 2 <=? sz then
      opt ← mem_ (rd8 buf);
      optsz ← mem_ (rd8 (buf + 1));
      if (sz <? optsz) || (optsz <? 2) then mret tt
      else
        body opt optsz (buf + 2);;
        walk_options fuel body (buf + 2 + (optsz - 2)) (u16 (sz - optsz))
    else mret tt
  end.

Definition ack_option (opt optsz buf : Z) : W X unit :=
  if opt =? 0x01 then
    mru ← mem_ (rd16 buf);
    if optsz =? 4 then
      if mru_acceptable (hton16 mru) then
        mod_part (fun i => i <| pi_mru := hton16 mru |> <| pi_mru_usage := PPP_USAGE_ACK |>)
      else mod_part (fun i => i <| pi_mru_usage := PPP_USAGE_NAK |>)
    else mret tt
  else if opt =? 0x02 then
    accm ← mem_ (rd32 buf);
    if optsz =? 6 then
      if accm_acceptable (hton32 accm) then
        mod_part (fun i => i <| pi_accm := hton32 accm |> <| pi_accm_usage := PPP_USAGE_ACK |>)
      else mod_part (fun i => i <| pi_accm_usage := PPP_USAGE_NAK |>)
    else mret tt
  else mret tt.

Definition lcp_check_ack (buf sz : Z) : W X unit := walk_options (S (Z.to_nat sz)) ack_option buf sz.

Definition reject_option (opt optsz buf : Z) : W X unit :=
  if opt =? 0x01 then mod_part (fun i => i <| pi_mru_usage := PPP_USAGE_REJ |>)
  else if opt =? 0x02 then mod_part (fun i => i <| pi_accm_usage := PPP_USAGE_REJ |>)
  else mret tt.

Definition lcp_check_reject (buf sz : Z) : W X unit := walk_options (S (Z.to_nat sz)) reject_option buf sz.

(** ** Receiving *)

Definition recv_conf_req (p rlen rid : Z) : W X unit :=
  new_reply 1500 0;;
  lcp_check_request p (u16 (rlen - 4)) rid;;
  s ← get_part pi_parse_state;
  handle_event (if s =? PPP_USAGE_ACK then EVENT_RCR_P else EVENT_RCR_M).

(** A reply to request [pi_ident]; others are discarded. *)
Definition if_ident (rid : Z) (m : W X unit) : W X unit :=
  ident ← get_part pi_ident;
  if rid =? ident then m else mret tt.

Definition recv_term_req (nb : Z) : W X unit :=
  new_reply 4 4;;
  s ← get_part pi_send;
  p ← mem_ (rd32 (s + Nb.network));
  mem_ (wr8 p CODE_TERM_ACK);;
  n ← mem_ (rd32 (nb + Nb.network));
  id ← mem_ (rd8 (n + 1));
  mem_ (wr8 (p + 1) id);;
  mem_ (wr8 (p + 2) 0);;
  mem_ (wr8 (p + 3) 4);;
  handle_event EVENT_RTR.

Definition recv_echo_req : W X unit :=
  new_reply 8 8;;
  s ← get_part pi_send;
  p ← mem_ (rd32 (s + Nb.network));
  mem_ (wr8 p CODE_ECHO_REP);;
  ident ← get_part pi_ident;
  mod_part (fun i => i <| pi_ident := u8 (pi_ident i + 1) |>);;
  mem_ (wr8 (p + 1) ident);;
  mem_ (wr8 (p + 2) 0);;
  mem_ (wr8 (p + 3) 8);;
  magic ← get_part pi_local_magic_number;
  mem_ (wr32 (p + 4) (hton32 magic));;
  handle_event EVENT_RXR.

(** The [switch] on the code; [p] points behind the header. *)
Definition lcp_dispatch (rcode rid rlen p nb : Z) : W X unit :=
  if rcode =? CODE_CONF_REQ then recv_conf_req p rlen rid
  else if rcode =? CODE_CONF_ACK then
    if_ident rid (lcp_check_ack p (u16 (rlen - 4));; handle_event EVENT_RCA)
  else if (rcode =? CODE_CONF_NAK) || (rcode =? CODE_CONF_REJ) then
    if_ident rid (new_reply 1500 0;; lcp_check_reject p (u16 (rlen - 4));; handle_event EVENT_RCN)
  else if rcode =? CODE_TERM_REQ then recv_term_req nb
  else if rcode =? CODE_TERM_ACK then if_ident rid (handle_event EVENT_RTA)
  else if rcode =? CODE_CODE_REJ then
    badcode ← mem_ (rd8 p);
    handle_event (if badcode <=? CODE_PROTOCOL_REJ then EVENT_RXJ_M else EVENT_RXJ_P)
  else if rcode =? CODE_PROTOCOL_REJ then
    badprot ← mem_ (rd16 p);
    handle_event (if hton16 badprot =? 0xc021 then EVENT_RXJ_M else EVENT_RXJ_P)
  else if rcode =? CODE_ECHO_REQ then recv_echo_req
  else if (rcode =? CODE_DISCARD_REQ) || (rcode =? CODE_ECHO_REP) then mret tt
  else handle_event EVENT_RUC.

Definition lcp_recv_netbuf (nb : Z) : W X unit :=
  p ← mem_ (rd32 (nb + Nb.network));
  rcode ← mem_ (rd8 p);
  rid ← mem_ (rd8 (p + 1));
  hi ← mem_ (rd8 (p + 2));
  lo ← mem_ (rd8 (p + 3));
  let rlen := Z.lor (u16 (Z.shiftl hi 8)) lo in
  sz ← mem_ (rd32 (nb + Nb.network_size));
  if sz <? rlen then mret tt
  else
    lock_pi;;
    lcp_dispatch rcode rid rlen (p + 4) nb;;
    unlock_pi.

(** The protocol reject of [ppp_recv_netbuf]. *)
Definition protocol_reject (protocol nb : Z) : W X unit :=
  nsz ← mem_ (rd32 (nb + Nb.network_size));
  mru ← get_part pi_mru;
  let len := u16 nsz in
  let len := if mru <? len + 16 then u16 (mru - 16) else len in
  new_reply 1500 0;;
  s ← get_part pi_send;
  p ← mem_ (rd32 (s + Nb.network));
  n ← mem_ (rd32 (nb + Nb.network));
  id ← mem_ (rd8 (n + 1));
  mem_ (wr8 p CODE_PROTOCOL_REJ);;
  mem_ (wr8 (p + 1) id);;
  mem_ (wr8 (p + 2) (Z.land (Z.shiftr (len + 6) 8) 0xff));;
  mem_ (wr8 (p + 3) (Z.land (len + 6) 0xff));;
  b ← mem_ (rd8 protocol); mem_ (wr8 (p + 4) b);;
  b ← mem_ (rd8 (protocol + 1)); mem_ (wr8 (p + 5) b);;
  mem_ (memcpy (p + 6) n len);;
  mem_ (wr32 (s + Nb.network_size) (len + 6));;
  send_reply.

Definition ppp_recv_netbuf (nb : Z) : W X unit :=
  protocol ← mem_ (rd32 (nb + Nb.datalink));
  mem_ (wr32 (nb + Nb.network) (protocol + 2));;
  dsz ← mem_ (rd32 (nb + Nb.datalink_size));
  mem_ (wr32 (nb + Nb.network_size) (u32 (dsz - 2)));;
  mem_ (wr32 (nb + Nb.datalink_size) 2);;
  pr ← mem_ (rd16 protocol);
  if hton16 pr =? 0xc021 then lcp_recv_netbuf nb
  else
    lock_pi;;
    l ← get_part pi_client_list;
    match find_protocol (hton16 pr) l with
    | Some pc =>
      mem_ (membuf_ref (pc_self pc));;
      unlock_pi;;
      pc_recv pc nb;;
      deref_ (pc_self pc)
    | None =>
      protocol_reject protocol nb;;
      unlock_pi
    end.

(** ** Clients *)

Definition ppp_send_netbuf (ps : ppp_server) (nb : Z) : W X unit :=
  lock_pi;;
  pas ← get_part pi_server;
  mem_ (membuf_ref pas);;
  unlock_pi;;
  mem_ (ppp_header nb (ps_protocol ps));;
  pas_send pas nb;;
  deref_ pas.

Definition ppp_server_alloc : W X Z := mem_ (membuf_alloc sizeof_ppp_server 0).

(** The protocol and the callbacks are filled in by the caller. *)
Definition ppp_client_alloc (protocol : Z) (link_up : bool) : W X ppp_client :=
  pc ← mem_ (membuf_alloc sizeof_ppp_client 0);
  mret (Ppp_client_ pc 0 protocol link_up).

Definition ppp_instance_ref : W X unit := self ← get_part pi_self; mem_ (membuf_ref self).
Definition ppp_instance_deref : W X unit := self ← get_part pi_self; deref_ self.

(** [None] for [NULL]. *)
Definition ppp_client_attach (pc : ppp_client) : W X (option ppp_server) :=
  lock_pi;;
  l ← get_part pi_client_list;
  match find_protocol (pc_protocol pc) l with
  | Some _ => unlock_pi;; mret None
  | None =>
    ps ← ppp_server_alloc;
    ppp_instance_ref;;
    mod_part (fun i => i <| pi_client_list := (pc <| pc_server := ps |>) :: pi_client_list i |>);;
    mem_ (membuf_ref (pc_self pc));;
    unlock_pi;;
    mret (Some (Ppp_server_ ps (pc_protocol pc)))
  end.

Fixpoint unlink_ppp_client (ps : Z) (l : list ppp_client) : option (ppp_client * list ppp_client) :=
  match l with
  | [] => None
  | pc :: l =>
    if pc_server pc =? ps then Some (pc, l)
    else '(c, l) ← unlink_ppp_client ps l; Some (c, pc :: l)
  end.

Definition ppp_client_detach (ps : Z) : W X unit :=
  lock_pi;;
  l ← get_part pi_client_list;
  match unlink_ppp_client ps l with
  | Some (pc, l) =>
    mod_part (fun i => i <| pi_client_list := l |>);;
    deref_ ps;;
    ppp_instance_deref;;
    deref_ (pc_self pc)
  | None => mret tt
  end;;
  unlock_pi.

(** The callback number of [lcp_tick_timeout] in the timers. *)
Definition LCP_TICK_TIMEOUT : nat := 1.

(** [attach] is the [pai_client_attach] of the framing service for the new
    [struct ppp_ahdlc_client], given by its address.  [old] has the fields the
    function does not initialise. *)
Definition ppp_instance_alloc (attach : Z -> W X Z) (old : ppp_instance) : W X Z :=
  pi ← mem_ (membuf_alloc sizeof_ppp_instance 0);
  t ← timer_alloc LCP_TICK_TIMEOUT pi;
  mod_part (fun _ => old <| pi_self := pi |> <| pi_state := STATE_INITIAL |> <| pi_phase := PHASE_DEAD |>
    <| pi_ident := 0 |> <| pi_timeout_timer := t |> <| pi_send := 0 |> <| pi_client_list := [] |>
    <| pi_server := 0 |> <| pi_lock := false |>);;
  pac ← mem_ (membuf_alloc sizeof_ppp_ahdlc_client 0);
  ppp_instance_ref;;
  pas ← attach pac;
  mod_part (fun i => i <| pi_server := pas |>);;
  deref_ pac;;
  lock_pi;;
  lcp_default_options;;
  handle_event EVENT_UP;;
  handle_event EVENT_OPEN;;
  unlock_pi;;
  mret pi.
End ppp.
