(* ===== verification/Lcp.v ===== *)
(** * The LCP automaton: simulation, invariant, termination

    The control part of a PPP instance is its state, its phase, the restart counter
    and whether the restart timer runs.  [lcp_event] says what an event does to it;
    [handle_event] and the receive and timeout handlers of [Ppp.v] simulate it, for
    every packet and whatever the memory holds.  On the abstract side the invariant
    and the decrease of the counter are decided by evaluation. *)

From stdpp Require Import base list gmap fin_maps strings.
From Stdlib Require Import ZArith Lia.
From S2P Require Import Prelude Heap Membuf NetbufMem Ip Parts Oneshot PppTable Ppp.
Open Scope Z_scope.

(** ** The abstract automaton *)

Record lcp := Lcp_ {
  l_state : Z;
  l_phase : Z;
  l_counter : Z;
  l_timer : bool }.
#[export] Instance eta_lcp : Eta lcp := fun c => Lcp_ (l_state c) (l_phase c) (l_counter c) (l_timer c).

(** A request is sent and the timer restarted, while the counter lasts. *)
Definition lcp_request (c : lcp) : lcp :=
  if 0 <? l_counter c then c <| l_counter := l_counter c - 1 |> <| l_timer := true |> else c.

Definition lcp_irc (c : lcp) : lcp :=
  c <| l_counter := if l_phase c =? PHASE_TERMINATE then RESTART_MAX_TERMINATE else RESTART_MAX_CONFIGURE |>.

Definition lcp_basic (action : Z) (c : lcp) : lcp :=
  if action =? ACTION_TLU then c <| l_phase := PHASE_NETWORK |>
  else if action =? ACTION_TLD then c <| l_phase := PHASE_TERMINATE |>
  else if action =? ACTION_TLS then c <| l_phase := PHASE_ESTABLISH |>
  else if action =? ACTION_TLF then c <| l_phase := PHASE_DEAD |>
  else if action =? ACTION_IRC then lcp_irc c
  else if action =? ACTION_ZRC then c <| l_counter := 0 |> <| l_timer := true |>
  else if (action =? ACTION_SCR) || (action =? ACTION_STR) then lcp_request c
  else c.

(** The simple actions of an action, in their order. *)
Definition lcp_parts (action : Z) : list Z :=
  if action =? ACTION_TLD_SCR then [ACTION_TLD; ACTION_SCR]
  else if action =? ACTION_IRC_TLU then [ACTION_IRC; ACTION_TLU]
  else if action =? ACTION_IRC_SCR then [ACTION_IRC; ACTION_SCR]
  else if action =? ACTION_IRC_STR then [ACTION_IRC; ACTION_STR]
  else if action =? ACTION_SCA_TLU then [ACTION_SCA; ACTION_TLU]
  else if action =? ACTION_TLD_IRC_STR then [ACTION_TLD; ACTION_IRC; ACTION_STR]
  else if action =? ACTION_TLD_SCR_SCA then [ACTION_TLD; ACTION_SCR; ACTION_SCA]
  else if action =? ACTION_TLD_SCR_SCN then [ACTION_TLD; ACTION_SCR; ACTION_SCN]
  else if action =? ACTION_TLD_ZRC_STA then [ACTION_TLD; ACTION_ZRC; ACTION_STA]
  else if action =? ACTION_IRC_SCR_SCA then [ACTION_IRC; ACTION_SCR; ACTION_SCA]
  else if action =? ACTION_IRC_SCR_SCN then [ACTION_IRC; ACTION_SCR; ACTION_SCN]
  else [action].

Definition lcp_action (action : Z) (c : lcp) : lcp := foldl (fun c a => lcp_basic a c) c (lcp_parts action).

(** States in which the restart timer does not run. *)
Definition quiescent (state : Z) : bool := (state <=? STATE_STOPPED) || (state =? STATE_OPENED).

Definition lcp_move (t : transition) (c : lcp) : lcp :=
  let c := lcp_action (t_action t) c in
  Lcp_ (t_next_state t) (l_phase c) (l_counter c) (if quiescent (t_next_state t) then false else l_timer c).

Definition lcp_event (event : Z) (c : lcp) : option lcp := t ← trans event (l_state c); Some (lcp_move t c).

(** The event of a timeout. *)
Definition timeout_event (c : lcp) : Z := if negb (l_counter c =? 0) then EVENT_TO_P else EVENT_TO_M.

(** ** The invariant, decided over the whole table *)

Definition lcp_okb (c : lcp) : bool :=
  (0 <=? l_state c) && (l_state c <=? STATE_OPENED) && (0 <=? l_phase c) && (l_phase c <=? PHASE_TERMINATE)
  && (0 <=? l_counter c) && (l_counter c <=? RESTART_MAX_CONFIGURE)
  && Bool.eqb (l_timer c) (negb (quiescent (l_state c)))
  && implb (l_state c =? STATE_OPENED) ((l_phase c =? PHASE_NETWORK) && (0 <? l_counter c))
  && implb (l_state c =? STATE_ACK_RCVD) (0 <? l_counter c).

Definition lcp_ok (c : lcp) : Prop := lcp_okb c = true.

Definition event_okb (P : lcp -> lcp -> bool) (event : Z) (c : lcp) : bool :=
  match lcp_event event c with Some c' => P c c' | None => false end.

(** Every control state with the timer as the invariant has it. *)
Definition all_ok (f : lcp -> bool) : bool :=
  all_from 10 0 (fun s => all_from 5 0 (fun ph => all_from 11 0 (fun n =>
    let c := Lcp_ s ph n (negb (quiescent s)) in implb (lcp_okb c) (f c)))).

Lemma all_ok_spec f c : all_ok f = true -> lcp_ok c -> f c = true.
Proof.
  intros H Hc. pose proof Hc as Hok. unfold lcp_ok, lcp_okb in Hc. rewrite !andb_true_iff in Hc.
  destruct Hc as ((((((((Hs1 & Hs2) & Hp1) & Hp2) & Hn1) & Hn2) & Ht) & _) & _). apply Z.leb_le in Hs1, Hs2, Hp1, Hp2, Hn1, Hn2.
  apply Bool.eqb_prop in Ht.
  unfold STATE_OPENED, PHASE_TERMINATE, RESTART_MAX_CONFIGURE in *.
  unfold all_ok in H. eapply all_from_spec in H; [|instantiate (1 := l_state c); lia].
  eapply all_from_spec in H; [|instantiate (1 := l_phase c); lia].
  eapply all_from_spec in H; [|instantiate (1 := l_counter c); lia].
  cbv beta zeta in H. rewrite <-Ht in H.
  replace (Lcp_ (l_state c) (l_phase c) (l_counter c) (l_timer c)) with c in H by by destruct c.
  unfold lcp_ok in Hok. by rewrite Hok in H.
Qed.

Lemma event_ok_run P event c : event_okb P event c = true -> exists c', lcp_event event c = Some c' /\ P c c' = true.
Proof. unfold event_okb. destruct (lcp_event event c); [eauto|done]. Qed.

(** Every event but a timeout keeps the invariant. *)
Definition is_timeout (event : Z) : bool := (event =? EVENT_TO_P) || (event =? EVENT_TO_M).

Lemma lcp_event_ok event c :
  0 <= event < 16 -> is_timeout event = false -> lcp_ok c -> exists c', lcp_event event c = Some c' /\ lcp_ok c'.
Proof.
  intros He Hto Hc.
  assert (H : (implb (negb (is_timeout event)) (all_ok (event_okb (fun _ => lcp_okb) event))) = true).
  { apply (all_below 16 (fun e => implb (negb (is_timeout e)) (all_ok (event_okb (fun _ => lcp_okb) e)))); [by vm_compute|done]. }
  rewrite Hto in H. cbn in H. by apply (all_ok_spec _ c) in H as H%event_ok_run.
Qed.

(** What is left of the negotiation: the timeouts until it gives up. *)
Definition lcp_left (c : lcp) : Z := if l_timer c then l_counter c + 1 else 0.

(** The timer has run off ([l_timer] is cleared) and its callback is called. *)
Definition lcp_timeout (c : lcp) : option lcp := lcp_event (timeout_event c) (c <| l_timer := false |>).

Definition gave_up (c : lcp) : bool :=
  ((l_state c =? STATE_CLOSED) || (l_state c =? STATE_STOPPED)) && (l_phase c =? PHASE_DEAD) && negb (l_timer c).

Definition timeout_okb (c : lcp) : bool :=
  implb (l_timer c) match lcp_timeout c with
  | Some c' => lcp_okb c' && (lcp_left c' =? lcp_left c - 1) && implb (lcp_left c' =? 0) (gave_up c')
  | None => false
  end.

Lemma lcp_timeout_ok c :
  lcp_ok c -> l_timer c = true ->
  exists c', lcp_timeout c = Some c' /\ lcp_ok c' /\ lcp_left c' = lcp_left c - 1
    /\ (lcp_left c' = 0 -> gave_up c' = true).
Proof.
  intros Hc Ht.
  assert (H : timeout_okb c = true) by (apply all_ok_spec; [by vm_compute|done]). unfold timeout_okb in H.
  rewrite Ht in H. cbn [implb] in H. destruct (lcp_timeout c) as [c'|]; [|done]. exists c'.
  rewrite !andb_true_iff in H. destruct H as ((H1 & H2) & H3). apply Z.eqb_eq in H2. split_and!; [done..|].
  intros E. rewrite E in H3. exact H3.
Qed.

(** ** Simulation *)

Section sim.
Context {X : Type} `{PI : Part X ppp_instance} `{PT : Part X timers}
  `{!Apart X ppp_instance timers} `{!Apart X timers ppp_instance}.

Record lcp_fields (locked : bool) (i : ppp_instance) (c : lcp) : Prop := {
  lf_lock : pi_lock i = locked;
  lf_state : pi_state i = l_state c;
  lf_phase : pi_phase i = l_phase c;
  lf_counter : pi_restart_counter i = l_counter c;
  lf_byte : 0 <= l_counter c < 2 ^ 8 }.

(** The instance and its timer are in control state [c]. *)
Definition lcp_at (locked : bool) (x : X) (c : lcp) : Prop :=
  lcp_fields locked (part_get x) c /\ timer_state (part_get x) (pi_timeout_timer (part_get x)) (l_timer c).

(** [m] changes the control state by [R], and the lock from [b] to [b']. *)
Definition sim (b b' : bool) (R : lcp -> lcp -> Prop) {A} (m : W X A) : Prop := forall p i x c,
  lcp_at b x c -> wlp m (fun _ w => exists c', R c c' /\ lcp_at b' (w_more w) c') (World_ p i x).

Lemma sim_weaken b b' (R S : lcp -> lcp -> Prop) {A} (m : W X A) :
  (forall c c', R c c' -> S c c') -> sim b b' R m -> sim b b' S m.
Proof. intros H Hm p i x c Hc. eapply wlp_mono; [|by apply Hm]. intros _ w (c' & ? & ?). eauto. Qed.

Lemma sim_bind b b1 b2 (R S T : lcp -> lcp -> Prop) {A B} (m : W X A) (k : A -> W X B) :
  sim b b1 R m -> (forall a, sim b1 b2 S (k a)) -> (forall c c1 c2, R c c1 -> S c1 c2 -> T c c2) ->
  sim b b2 T (m ≫= k).
Proof.
  intros Hm Hk HT p i x c Hc. apply wlp_bind. eapply wlp_mono; [|by apply Hm].
  intros a [p' i' x'] (c1 & HR & Hc1). eapply wlp_mono; [|by apply Hk]. intros _ w (c2 & HS & Hc2). eauto.
Qed.

Lemma sim_skip b b1 b2 (S : lcp -> lcp -> Prop) {A B} (m : W X A) (k : A -> W X B) :
  sim b b1 eq m -> (forall a, sim b1 b2 S (k a)) -> sim b b2 S (m ≫= k).
Proof. intros Hm Hk. eapply sim_bind; eauto. by intros c c1 c2 ->. Qed.

Lemma sim_ret b {A} (a : A) : sim b b eq (mret a).
Proof. intros p i x c Hc. apply wlp_ret. eauto. Qed.

Lemma sim_mem b {A} (m : P A) : sim b b eq (mem_ m).
Proof. intros p i x c Hc. apply wlp_mem. eauto. Qed.

Lemma sim_deref b a : sim b b eq (deref_ a).
Proof. intros p i x c Hc. apply wlp_deref. eauto. Qed.

Lemma sim_get b {A} (f : ppp_instance -> A) : sim b b eq (get_part f).
Proof. intros p i x c Hc. apply wlp_get_part. eauto. Qed.

Lemma sim_if b b' R {A} (t : bool) (m n : W X A) : sim b b' R m -> sim b b' R n -> sim b b' R (if t then m else n).
Proof. by destruct t. Qed.

Lemma sim_stop b b' R {A} w : sim b b' R ((fun _ => Stop w) : W X A).
Proof. intros p i x c Hc. exact I. Qed.

Lemma sim_fuel b b' R {A} : sim b b' R ((fun _ => Fuel) : W X A).
Proof. intros p i x c Hc. exact I. Qed.

Lemma lcp_at_put b b' x c c' (i' : ppp_instance) :
  lcp_at b x c -> lcp_fields b' i' c' -> l_timer c' = l_timer c ->
  pi_timeout_timer i' = pi_timeout_timer (part_get x) -> lcp_at b' (part_put i' x) c'.
Proof.
  intros [_ Ht] Hf Hl Hti. unfold lcp_at. rewrite part_get_put, apart_get, Hti, Hl. done.
Qed.

Lemma sim_mod b b' (R : lcp -> lcp -> Prop) (g : ppp_instance -> ppp_instance) :
  (forall i c, lcp_fields b i c -> exists c', R c c' /\ lcp_fields b' (g i) c' /\ l_timer c' = l_timer c) ->
  (forall i, pi_timeout_timer (g i) = pi_timeout_timer i) ->
  sim b b' R (mod_part g).
Proof.
  intros Hg Ht p i x c Hc. apply wlp_mod_part. destruct (Hg _ c (proj1 Hc)) as (c' & HR & Hf & Hl). exists c'. split; [done|].
  by eapply lcp_at_put.
Qed.

(** Assignments to fields that are not part of the control state. *)
Lemma sim_mod_other b (g : ppp_instance -> ppp_instance) :
  (forall i, pi_lock (g i) = pi_lock i /\ pi_state (g i) = pi_state i /\ pi_phase (g i) = pi_phase i
    /\ pi_restart_counter (g i) = pi_restart_counter i /\ pi_timeout_timer (g i) = pi_timeout_timer i) ->
  sim b b eq (mod_part g).
Proof.
  intros Hg. apply sim_mod; [|intros i; apply Hg]. intros i c [? ? ? ? ?]. exists c.
  destruct (Hg i) as (? & ? & ? & ? & ?). split_and!; [done|split; congruence|done].
Qed.

Lemma sim_lock : sim false true eq lock_pi.
Proof.
  intros p i x c Hc. apply wlp_lock_part. intros Hl. exists c. split; [done|]. eapply lcp_at_put; [done| |done|done].
  destruct Hc as [[? ? ? ? ?] _]. by split.
Qed.

Lemma sim_unlock : sim true false eq unlock_pi.
Proof.
  intros p i x c Hc. apply wlp_unlock_part. intros Hl. exists c. split; [done|]. eapply lcp_at_put; [done| |done|done].
  destruct Hc as [[? ? ? ? ?] _]. by split.
Qed.

Definition set_timer (on : bool) (c c' : lcp) : Prop := c' = c <| l_timer := on |>.

(** An operation on the timer of the instance. *)
Lemma sim_timer b (f : tid -> timers -> res timers) on :
  (forall s t on', timer_state s t on' -> forall s', f t s = Ok s' -> timer_state s' t (default on' on)) ->
  forall p i x c, lcp_at b x c ->
  wlp (run_part (fun s => s ← f (pi_timeout_timer (part_get x)) s; Ok (tt, s)))
    (fun _ w => exists c', c' = c <| l_timer := default (l_timer c) on |> /\ lcp_at b (w_more w) c') (World_ p i x).
Proof.
  intros Hf p i x c [Hc Ht]. apply wlp_run_part. intros [] s' Hs. bind_inv Hs. simplify_eq.
  eexists. split; [done|]. unfold lcp_at. cbn. rewrite apart_get, part_get_put.
  split; [destruct Hc; by split|]. by eapply Hf.
Qed.

Lemma sim_detach b : sim b b (set_timer false) (t ← get_part pi_timeout_timer; timer_detach t).
Proof.
  intros p i x c Hc. apply wlp_bind, wlp_get_part. unfold set_timer, timer_detach.
  refine (sim_timer b oneshot_detach (Some false) _ p i x c Hc).
  intros s t on' Ht s' Hs. destruct (timer_detach_state s t on' Ht) as (s1 & E & H1 & _). cbn. congruence.
Qed.

(** Two operations on a part in a row. *)
Lemma run_part_seq (f g : timers -> res timers) (w : world X) :
  (run_part (fun s => s ← f s; Ok (tt, s));; run_part (fun s => s ← g s; Ok (tt, s))) w
  = run_part (fun s => s ← (s ← f s; g s); Ok (tt, s)) w.
Proof.
  unfold run_part, mbind, ST_bind, res_bind. destruct (f (part_get (w_more w))) as [s| |]; [|done..]. cbn.
  rewrite part_get_put. destruct (g s); [|done..]. by rewrite part_put_put.
Qed.

Lemma sim_restart b : sim b b (set_timer true) restart_timer.
Proof.
  intros p i x c Hc. apply wlp_bind, wlp_get_part. unfold set_timer, timer_detach, timer_attach, wlp. rewrite run_part_seq.
  refine (sim_timer b (fun t s => s ← oneshot_detach t s; oneshot_attach t s) (Some true) _ p i x c Hc).
  intros s t on' Ht s' Hs. bind_inv Hs. destruct (timer_detach_state s t on' Ht) as (s1 & E & H1 & _). simplify_eq.
  destruct (timer_attach_state s1 t H1) as (s2 & E2 & H2 & _). cbn. congruence.
Qed.

Lemma sim_timer_set b t ticks : sim b b eq (timer_set t ticks).
Proof.
  intros p i x c [Hc Ht]. apply wlp_mod_part. exists c. split; [done|]. unfold lcp_at. cbn.
  rewrite apart_get, part_get_put. split; [done|]. by apply timer_mod_state.
Qed.

(** The functions called with the lock free, and the one called with it held, leave
    the control state alone. *)
Context (pas_send : Z -> Z -> W X unit) (pas_set_accm : Z -> Z -> W X unit)
  (pc_link_up : ppp_client -> W X unit) (pc_recv : ppp_client -> Z -> W X unit) (stack : list Z).
Context (send_quiet : forall s nb, sim false false eq (pas_send s nb))
  (accm_quiet : forall s a, sim true true eq (pas_set_accm s a))
  (link_up_quiet : forall pc, sim false false eq (pc_link_up pc))
  (recv_quiet : forall pc nb, sim false false eq (pc_recv pc nb)).

Ltac sim_step :=
  lazymatch goal with
  | |- sim _ _ eq (mret _) => apply sim_ret
  | |- sim _ _ _ (mem_ _ ≫= _) => eapply sim_skip; [apply sim_mem|intros ?]
  | |- sim _ _ _ (get_part _ ≫= _) => eapply sim_skip; [apply sim_get|intros ?]
  | |- sim _ _ _ (deref_ _ ≫= _) => eapply sim_skip; [apply sim_deref|intros ?]
  | |- sim _ _ _ (lock_pi ≫= _) => eapply sim_skip; [apply sim_lock|intros ?]
  | |- sim _ _ _ (unlock_pi ≫= _) => eapply sim_skip; [apply sim_unlock|intros ?]
  | |- sim _ _ _ (timer_set _ _ ≫= _) => eapply sim_skip; [apply sim_timer_set|intros ?]
  | |- sim _ _ eq (mem_ _) => apply sim_mem
  | |- sim _ _ eq (get_part _) => apply sim_get
  | |- sim _ _ eq (deref_ _) => apply sim_deref
  | |- sim _ _ eq lock_pi => apply sim_lock
  | |- sim _ _ eq unlock_pi => apply sim_unlock
  | |- sim _ _ _ (mod_part _ ≫= _) => eapply sim_skip; [by apply sim_mod_other|intros ?]
  | |- sim _ _ eq (mod_part _) => by apply sim_mod_other
  | |- sim _ _ _ (fun _ => Stop _) => apply sim_stop
  | |- sim _ _ _ (fun _ => Fuel) => apply sim_fuel
  | |- sim _ _ _ (if _ then _ else _) => apply sim_if
  end.
Ltac sims := repeat sim_step.

Lemma sim_lcp_send nb : sim true true eq (lcp_send_netbuf pas_send nb).
Proof. unfold lcp_send_netbuf. sims. eapply sim_skip; [apply send_quiet|intros ?]. sims. Qed.

Lemma sim_implement : sim true true eq (lcp_implement_options pas_set_accm).
Proof. unfold lcp_implement_options. sims. apply accm_quiet. Qed.

Lemma sim_default : sim true true eq (lcp_default_options pas_set_accm).
Proof. unfold lcp_default_options. sims. apply sim_implement. Qed.

Lemma sim_tell l : sim true true eq (tell_clients pc_link_up l).
Proof.
  induction l as [|pc l IH]; cbn [tell_clients]; [sims|]. eapply sim_skip; [|intros _; exact IH]. sims.
  eapply sim_skip; [apply link_up_quiet|intros ?]. sims.
Qed.

(** The simple actions. *)
Definition does (a : Z) (c c' : lcp) : Prop := c' = lcp_basic a c.

Lemma sim_phase b phase : sim b b (fun c c' => c' = c <| l_phase := phase |>) (set_phase phase).
Proof.
  unfold set_phase. apply sim_mod; [|done]. intros i c [? ? ? ? ?]. eexists. split_and!; [done|by split|done].
Qed.

Lemma sim_tlu : sim true true (does ACTION_TLU) (action_tlu pas_set_accm pc_link_up).
Proof.
  unfold action_tlu. eapply sim_skip; [apply sim_implement|intros _].
  eapply sim_bind; [apply (sim_phase true PHASE_NETWORK)| |].
  - intros _. sims. apply sim_tell.
  - by intros c c1 c2 -> <-.
Qed.

Lemma sim_tld : sim true true (does ACTION_TLD) (action_tld pas_set_accm).
Proof.
  unfold action_tld. eapply sim_skip; [apply sim_default|intros _]. apply (sim_phase true PHASE_TERMINATE).
Qed.

Lemma sim_irc : sim true true (does ACTION_IRC) action_irc.
Proof.
  unfold action_irc. apply sim_mod; [|done]. intros i c [? ? Hp ? ?]. exists (lcp_irc c). split_and!; [done| |done].
  split; try done; cbn; [by rewrite Hp|]. unfold RESTART_MAX_TERMINATE, RESTART_MAX_CONFIGURE. destruct (_ =? _); lia.
Qed.

Lemma sim_zrc : sim true true (does ACTION_ZRC) action_zrc.
Proof.
  unfold action_zrc. eapply (sim_bind _ _ _ (fun c c' => c' = c <| l_counter := 0 |>)); [|intros _; apply sim_restart|].
  - apply sim_mod; [|done]. intros i c [? ? ? ? ?]. eexists. split_and!; [done|by split|done].
  - by intros c c1 c2 -> ->.
Qed.

Lemma sim_send_and_wait nb : sim true true (set_timer true) (send_and_wait pas_send nb).
Proof.
  unfold send_and_wait. sims. eapply (sim_bind _ _ _ _ eq); [apply sim_restart| |].
  - intros _. eapply sim_skip; [apply sim_lcp_send|intros _]. sims.
  - by intros c c1 c2 H <-.
Qed.

Lemma sim_put_mru b p : sim b b eq (put_mru p).
Proof. unfold put_mru. sims. Qed.
Lemma sim_put_accm b p : sim b b eq (put_accm p).
Proof. unfold put_accm. sims. Qed.

Lemma sim_build_req b nb : sim b b eq (lcp_build_req nb).
Proof.
  unfold lcp_build_req. sims. eapply sim_skip; [apply sim_put_mru|intros ?].
  eapply sim_skip; [apply sim_put_accm|intros ?]. sims.
Qed.

(** The body of [ACTION_SCR] and [ACTION_STR] behind the test of the counter. *)
Lemma sim_request (k : W X unit) :
  sim true true (set_timer true) k ->
  sim true true (fun c c' => c' = lcp_request c)
    (c ← get_part pi_restart_counter;
     if 0 <? c then
       mod_part (fun i => i <| pi_restart_counter := u8 (pi_restart_counter i - 1) |>);; k
     else mret tt).
Proof.
  intros Hk p i x c Hc. apply wlp_bind, wlp_get_part. pose proof (proj1 Hc) as Hf. rewrite (lf_counter _ _ _ Hf).
  unfold lcp_request. destruct (Z.ltb_spec 0 (l_counter c)) as [Hpos|Hz]; [|apply wlp_ret; exists c; by split].
  apply wlp_bind, wlp_mod_part. eapply wlp_mono; [|apply (Hk p i _ (c <| l_counter := l_counter c - 1 |>))].
  - intros _ w (c' & -> & Hc'). by eexists.
  - eapply lcp_at_put; [done| |done|done]. destruct Hf as [? ? ? Hct ?]. split; cbn; try done; [|lia].
    rewrite Hct. apply u8_small. lia.
Qed.

Lemma sim_scr : sim true true (does ACTION_SCR) (action_scr pas_send).
Proof.
  apply sim_request. sims. eapply sim_skip; [apply sim_build_req|intros _]. apply sim_send_and_wait.
Qed.

Lemma sim_str : sim true true (does ACTION_STR) (action_str pas_send).
Proof. apply sim_request. sims. apply sim_send_and_wait. Qed.

Lemma sim_reply : sim true true eq (send_reply pas_send).
Proof. unfold send_reply. sims. eapply sim_skip; [apply sim_lcp_send|intros _]. sims. Qed.

Lemma sim_does a (m : W X unit) : sim true true eq m -> (forall c, lcp_basic a c = c) -> sim true true (does a) m.
Proof. intros Hm Ha. eapply sim_weaken; [|exact Hm]. intros c c' <-. by unfold does. Qed.

(** A sequence of simple actions. *)
Definition does_all (l : list Z) (c c' : lcp) : Prop := c' = foldl (fun c a => lcp_basic a c) c l.

Lemma does_app l1 l2 b (m n : W X unit) :
  sim b b (does_all l1) m -> sim b b (does_all l2) n -> sim b b (does_all (l1 ++ l2)) (m;; n).
Proof.
  intros Hm Hn. eapply sim_bind; [exact Hm|intros _; exact Hn|]. intros c c1 c2 -> ->. unfold does_all. by rewrite foldl_app.
Qed.

Abbreviation handle d a := (handle_action pas_send pas_set_accm pc_link_up d a).

Lemma simple_tlu d : sim true true (does_all [ACTION_TLU]) (handle (S d) ACTION_TLU).
Proof. exact sim_tlu. Qed.
Lemma simple_tld d : sim true true (does_all [ACTION_TLD]) (handle (S d) ACTION_TLD).
Proof. exact sim_tld. Qed.
Lemma simple_irc d : sim true true (does_all [ACTION_IRC]) (handle (S d) ACTION_IRC).
Proof. exact sim_irc. Qed.
Lemma simple_zrc d : sim true true (does_all [ACTION_ZRC]) (handle (S d) ACTION_ZRC).
Proof. exact sim_zrc. Qed.
Lemma simple_scr d : sim true true (does_all [ACTION_SCR]) (handle (S d) ACTION_SCR).
Proof. exact sim_scr. Qed.
Lemma simple_str d : sim true true (does_all [ACTION_STR]) (handle (S d) ACTION_STR).
Proof. exact sim_str. Qed.
Lemma simple_sca d : sim true true (does_all [ACTION_SCA]) (handle (S d) ACTION_SCA).
Proof. apply (sim_does ACTION_SCA); [apply sim_reply|done]. Qed.
Lemma simple_scn d : sim true true (does_all [ACTION_SCN]) (handle (S d) ACTION_SCN).
Proof. apply (sim_does ACTION_SCN); [apply sim_reply|done]. Qed.
Lemma simple_sta d : sim true true (does_all [ACTION_STA]) (handle (S d) ACTION_STA).
Proof. apply (sim_does ACTION_STA); [apply sim_reply|done]. Qed.

Lemma pair_irc_scr d : sim true true (does_all [ACTION_IRC; ACTION_SCR]) (handle (S (S d)) ACTION_IRC_SCR).
Proof. exact (does_app [ACTION_IRC] [ACTION_SCR] true _ _ (simple_irc d) (simple_scr d)). Qed.
Lemma pair_irc_str d : sim true true (does_all [ACTION_IRC; ACTION_STR]) (handle (S (S d)) ACTION_IRC_STR).
Proof. exact (does_app [ACTION_IRC] [ACTION_STR] true _ _ (simple_irc d) (simple_str d)). Qed.
Lemma pair_tld_scr d : sim true true (does_all [ACTION_TLD; ACTION_SCR]) (handle (S (S d)) ACTION_TLD_SCR).
Proof. exact (does_app [ACTION_TLD] [ACTION_SCR] true _ _ (simple_tld d) (simple_scr d)). Qed.

(** [handle_action] does the simple actions of its action, in order. *)
Lemma handle_action_runs action : 0 <= action <= ACTION_IRC_SCR_SCN -> sim true true (does_all (lcp_parts action)) (handle 3 action).
Proof.
  intros Ha. unfold ACTION_IRC_SCR_SCN in Ha. assert (Hin : action ∈ seqZ 0 25) by (apply elem_of_seqZ; lia). clear Ha.
  change (seqZ 0 25) with [0;1;2;3;4;5;6;7;8;9;10;11;12;13;14;15;16;17;18;19;20;21;22;23;24] in Hin.
  repeat (apply elem_of_cons in Hin as [->|Hin]); [..|by apply elem_of_nil in Hin].
  - apply (sim_does ACTION_NONE); [apply sim_ret|done].
  - exact (simple_tlu 2).
  - exact (simple_tld 2).
  - exact (sim_phase true PHASE_ESTABLISH).
  - exact (sim_phase true PHASE_DEAD).
  - exact (simple_irc 2).
  - exact (simple_zrc 2).
  - exact (simple_scr 2).
  - exact (simple_sca 2).
  - exact (simple_scn 2).
  - exact (simple_str 2).
  - exact (simple_sta 2).
  - apply (sim_does ACTION_SCJ); [apply sim_ret|done].
  - apply (sim_does ACTION_SER); [apply sim_reply|done].
  - exact (pair_tld_scr 1).
  - exact (does_app [ACTION_IRC] [ACTION_TLU] true _ _ (simple_irc 1) (simple_tlu 1)).
  - exact (pair_irc_scr 1).
  - exact (pair_irc_str 1).
  - exact (does_app [ACTION_SCA] [ACTION_TLU] true _ _ (simple_sca 1) (simple_tlu 1)).
  - exact (does_app [ACTION_TLD] [ACTION_IRC; ACTION_STR] true _ _ (simple_tld 1) (pair_irc_str 0)).
  - exact (does_app [ACTION_TLD; ACTION_SCR] [ACTION_SCA] true _ _ (pair_tld_scr 0) (simple_sca 1)).
  - exact (does_app [ACTION_TLD; ACTION_SCR] [ACTION_SCN] true _ _ (pair_tld_scr 0) (simple_scn 1)).
  - refine (does_app [ACTION_TLD] [ACTION_ZRC; ACTION_STA] true _ _ (simple_tld 1) _).
    exact (does_app [ACTION_ZRC] [ACTION_STA] true _ _ (simple_zrc 1) (simple_sta 1)).
  - exact (does_app [ACTION_IRC; ACTION_SCR] [ACTION_SCA] true _ _ (pair_irc_scr 0) (simple_sca 1)).
  - exact (does_app [ACTION_IRC; ACTION_SCR] [ACTION_SCN] true _ _ (pair_irc_scr 0) (simple_scn 1)).
Qed.

(** The actions of the table are the ones [handle_action] knows. *)
Lemma trans_actions event state t : trans event state = Some t -> 0 <= t_action t <= ACTION_IRC_SCR_SCN.
Proof.
  unfold trans. intros H. apply bind_Some in H as (row & Hrow & Ht).
  assert (Hall : Forall (Forall (fun t => 0 <= t_action t <= ACTION_IRC_SCR_SCN)) ppp_trans).
  { apply (bool_decide_unpack _). by vm_compute. }
  rewrite Forall_forall in Hall. apply list_elem_of_lookup_2 in Hrow. apply Hall in Hrow. rewrite Forall_forall in Hrow.
  apply Hrow. by eapply list_elem_of_lookup_2.
Qed.

(** [handle_event] takes the transition of the table. *)
Definition on_event (event : Z) (c c' : lcp) : Prop := lcp_event event c = Some c'.

Lemma sim_event event : sim true true (on_event event) (handle_event pas_send pas_set_accm pc_link_up event).
Proof.
  intros p i x c Hc. apply wlp_bind, wlp_get_part. rewrite (lf_state _ _ _ (proj1 Hc)).
  destruct (trans event (l_state c)) as [t|] eqn:Et; [|exact I]. pose proof (trans_actions _ _ _ Et) as Ha.
  apply wlp_bind. eapply wlp_mono; [|by apply (handle_action_runs (t_action t) Ha)].
  intros _ [p1 i1 x1] (c1 & -> & Hc1). fold (lcp_action (t_action t) c) in Hc1. set (c1 := lcp_action _ _) in *. cbn [w_more] in Hc1.
  assert (Hend : forall p2 i2 x2 c2, lcp_at true x2 c2 -> l_timer c2 = (if quiescent (t_next_state t) then false else l_timer c1) ->
    l_phase c2 = l_phase c1 -> l_counter c2 = l_counter c1 ->
    wlp (mod_part (fun i => i <| pi_state := t_next_state t |>))
      (fun _ w => exists c', on_event event c c' /\ lcp_at true (w_more w) c') (World_ p2 i2 x2)).
  { intros p2 i2 x2 c2 Hc2 E1 E2 E3. apply wlp_mod_part. exists (lcp_move t c). split.
    - unfold on_event, lcp_event. by rewrite Et.
    - eapply lcp_at_put; [done| |by rewrite E1|done]. destruct Hc2 as [[? ? ? ? ?] _]. unfold lcp_move. fold c1. split; cbn; congruence. }
  apply wlp_bind. unfold quiescent in Hend. destruct ((t_next_state t <=? STATE_STOPPED) || (t_next_state t =? STATE_OPENED)).
  - eapply wlp_mono; [|apply (sim_detach true p1 i1 x1 c1 Hc1)]. intros _ [p2 i2 x2] (c2 & -> & Hc2). by eapply Hend.
  - apply wlp_ret. by eapply Hend.
Qed.

Lemma sim_tick_timeout :
  sim false false (fun c c' => lcp_event (timeout_event c) c = Some c') (lcp_tick_timeout pas_send pas_set_accm pc_link_up).
Proof.
  unfold lcp_tick_timeout. do 2 sim_step. intros p i x c Hc. apply wlp_bind, wlp_get_part. rewrite (lf_counter _ _ _ (proj1 Hc)).
  fold (timeout_event c). apply wlp_bind. eapply wlp_mono; [|by apply sim_event].
  intros _ [p1 i1 x1] (c1 & He & Hc1). eapply wlp_mono; [|by apply sim_unlock].
  intros _ w (c2 & <- & Hc2). by exists c1.
Qed.

(** Options: only fields outside the control state are assigned. *)
Lemma sim_frame_rej b p rs opt optsz buf : sim b b eq (frame_rej stack p rs opt optsz buf).
Proof. unfold frame_rej. sims. eapply (sim_skip _ b); [sims|intros ?]. sims. Qed.
Lemma sim_frame_nak b p rs opt optsz buf : sim b b eq (frame_nak stack p rs opt optsz buf).
Proof. unfold frame_nak. sims. eapply (sim_skip _ b); [sims|intros ?]. sims. Qed.
Lemma sim_frame_ack b p opt optsz buf : sim b b eq (frame_ack stack p opt optsz buf).
Proof. unfold frame_ack. sims. Qed.

Lemma sim_check_option b p rs opt optsz buf : sim b b eq (check_option stack p rs opt optsz buf).
Proof.
  unfold check_option, check_mru, check_accm. sims;
    try apply sim_frame_rej; try apply sim_frame_nak; (eapply sim_skip; [apply sim_frame_ack|intros ?]; sims).
Qed.

Lemma sim_check_options b fuel p rs buf sz : sim b b eq (check_options stack fuel p rs buf sz).
Proof.
  revert p buf sz; induction fuel as [|fuel IH]; intros p buf sz; cbn [check_options]; sims; [apply sim_frame_rej|].
  eapply sim_skip; [apply sim_check_option|intros ?]. apply IH.
Qed.

Lemma sim_check_request b buf sz id : sim b b eq (lcp_check_request stack buf sz id).
Proof. unfold lcp_check_request. sims. eapply sim_skip; [apply sim_check_options|intros ?]. sims. Qed.

Lemma sim_walk b fuel body buf sz :
  (forall opt optsz buf, sim b b eq (body opt optsz buf)) -> sim b b eq (walk_options fuel body buf sz).
Proof.
  intros Hb. revert buf sz; induction fuel as [|fuel IH]; intros buf sz; cbn [walk_options]; sims.
  eapply sim_skip; [apply Hb|intros ?]. apply IH.
Qed.

Lemma sim_check_ack b buf sz : sim b b eq (lcp_check_ack buf sz).
Proof. apply sim_walk. intros opt optsz a. unfold ack_option. sims. Qed.

Lemma sim_check_reject b buf sz : sim b b eq (lcp_check_reject buf sz).
Proof. apply sim_walk. intros opt optsz a. unfold reject_option. sims. Qed.

Lemma sim_new_reply b size used : sim b b eq (new_reply size used).
Proof. unfold new_reply. sims. Qed.

(** A packet does nothing or is one of the receive events. *)
Definition on_packet (c c' : lcp) : Prop := c' = c \/ exists e, EVENT_RCR_P <= e <= EVENT_RXR /\ on_event e c c'.

Lemma packet_event event :
  EVENT_RCR_P <= event <= EVENT_RXR -> sim true true on_packet (handle_event pas_send pas_set_accm pc_link_up event).
Proof. intros He. eapply sim_weaken; [|apply sim_event]. intros c c' H. right. eauto. Qed.

Lemma sim_same b b' {A} (m : W X A) : sim b b' eq m -> sim b b' on_packet m.
Proof. apply sim_weaken. intros c c' ->. by left. Qed.

Lemma packet_event_if (t : bool) e1 e2 :
  EVENT_RCR_P <= e1 <= EVENT_RXR -> EVENT_RCR_P <= e2 <= EVENT_RXR ->
  sim true true on_packet (handle_event pas_send pas_set_accm pc_link_up (if t then e1 else e2)).
Proof. intros H1 H2. apply packet_event. by destruct t. Qed.

Lemma sim_if_ident rid (m : W X unit) : sim true true on_packet m -> sim true true on_packet (if_ident rid m).
Proof. intros Hm. unfold if_ident. sims; [done|]. apply sim_same, sim_ret. Qed.

Lemma sim_conf_req p rlen rid :
  sim true true on_packet (recv_conf_req pas_send pas_set_accm pc_link_up stack p rlen rid).
Proof.
  unfold recv_conf_req. eapply sim_skip; [apply sim_new_reply|intros _]. eapply sim_skip; [apply sim_check_request|intros _].
  sim_step. apply packet_event_if; by cbv.
Qed.

Lemma sim_term_req nb : sim true true on_packet (recv_term_req pas_send pas_set_accm pc_link_up nb).
Proof. unfold recv_term_req. eapply sim_skip; [apply sim_new_reply|intros _]. sims. apply packet_event; by cbv. Qed.

Lemma sim_echo_req : sim true true on_packet (recv_echo_req pas_send pas_set_accm pc_link_up).
Proof. unfold recv_echo_req. eapply sim_skip; [apply sim_new_reply|intros _]. sims. apply packet_event; by cbv. Qed.

Lemma sim_dispatch rcode rid rlen p nb :
  sim true true on_packet (lcp_dispatch pas_send pas_set_accm pc_link_up stack rcode rid rlen p nb).
Proof.
  unfold lcp_dispatch. repeat apply sim_if.
  - apply sim_conf_req.
  - apply sim_if_ident. eapply sim_skip; [apply sim_check_ack|intros _]. apply packet_event; by cbv.
  - apply sim_if_ident. eapply sim_skip; [apply sim_new_reply|intros _]. eapply sim_skip; [apply sim_check_reject|intros _].
    apply packet_event; by cbv.
  - apply sim_term_req.
  - apply sim_if_ident, packet_event; by cbv.
  - sim_step. apply packet_event_if; by cbv.
  - sim_step. apply packet_event_if; by cbv.
  - apply sim_echo_req.
  - apply sim_same, sim_ret.
  - apply packet_event; by cbv.
Qed.

Lemma sim_lcp_recv nb : sim false false on_packet (lcp_recv_netbuf pas_send pas_set_accm pc_link_up stack nb).
Proof.
  unfold lcp_recv_netbuf. sims; [apply sim_same, sim_ret|].
  eapply (sim_bind _ _ _ on_packet eq); [apply sim_dispatch|intros _; sims|]. by intros c c1 c2 H <-.
Qed.

Lemma sim_ppp_recv nb : sim false false on_packet (ppp_recv_netbuf pas_send pas_set_accm pc_link_up pc_recv stack nb).
Proof.
  unfold ppp_recv_netbuf. sims; [apply sim_lcp_recv|]. destruct (find_protocol _ _) as [pc|].
  - apply sim_same. sims. eapply sim_skip; [apply recv_quiet|intros ?]. sims.
  - apply sim_same. eapply (sim_skip _ true); [|intros _; sims]. unfold protocol_reject. sims.
    eapply sim_skip; [apply sim_new_reply|intros ?]. sims. apply sim_reply.
Qed.

(** A new instance has sent its first request and waits. *)
Definition lcp_start : lcp := Lcp_ STATE_REQ_SENT PHASE_DEAD (RESTART_MAX_CONFIGURE - 1) true.

Context (attach : Z -> W X Z) (attach_quiet : forall pac, sim false false eq (attach pac)).

Lemma timer_alloc_wlp f a (Q : tid -> world X -> Prop) p i x :
  oneshot_lock (part_get x) = false -> (exists l, attached (part_get x) l) ->
  (forall t s, timer_state s t false -> Q t (World_ p i (part_put s x))) -> wlp (timer_alloc f a) Q (World_ p i x).
Proof.
  intros Hl Ha HQ. apply wlp_run_part. intros t s E. cbv zeta in E. injection E as <- <-. apply HQ. apply timer_mod_state; [done|].
  apply (proj1 (timer_alloc_state _ _ Hl Ha (proj1 (not_elem_of_dom _ _) (fin_sets.is_fresh _)))).
Qed.

Lemma alloc_wlp old p i x :
  oneshot_lock (part_get x) = false -> (exists l, attached (part_get x) l) -> 0 <= pi_restart_counter old < 2 ^ 8 ->
  wlp (ppp_instance_alloc pas_send pas_set_accm pc_link_up attach old)
    (fun _ w => lcp_at false (w_more w) lcp_start) (World_ p i x).
Proof.
  intros Hl Ha Hn. apply wlp_bind, wlp_mem. intros self p1. apply wlp_bind, timer_alloc_wlp; [done..|].
  intros t s Hs. apply wlp_bind, wlp_mod_part.
  set (c0 := Lcp_ STATE_INITIAL PHASE_DEAD (pi_restart_counter old) false).
  assert (H0 : forall x', lcp_at false (part_put (old <| pi_self := self |> <| pi_state := STATE_INITIAL |> <| pi_phase := PHASE_DEAD |>
    <| pi_ident := 0 |> <| pi_timeout_timer := t |> <| pi_send := 0 |> <| pi_client_list := [] |>
    <| pi_server := 0 |> <| pi_lock := false |>) (part_put s x')) c0).
  { intros x'. unfold lcp_at. rewrite part_get_put, apart_get, part_get_put. done. }
  match goal with |- wlp ?m _ _ => assert (Hsim : sim false false (fun c c' => c = c0 -> c' = lcp_start) m) end.
  { sim_step. unfold ppp_instance_ref. eapply sim_skip; [sims|intros _]. eapply sim_skip; [apply attach_quiet|intros ?]. sims.
    eapply sim_skip; [apply sim_default|intros _]. eapply (sim_bind _ _ _ _ (on_event EVENT_OPEN)); [apply (sim_event EVENT_UP)| |].
    { intros _. eapply (sim_bind _ _ _ _ eq); [apply (sim_event EVENT_OPEN)|intros _; sims|]. by intros c c1 c2 H <-. }
    intros c c1 c2 H1 H2 ->. unfold on_event in *.
    assert (E1 : lcp_event EVENT_UP c0 = Some (c0 <| l_state := STATE_CLOSED |>)) by reflexivity.
    rewrite E1 in H1. injection H1 as <-.
    assert (E2 : lcp_event EVENT_OPEN (c0 <| l_state := STATE_CLOSED |>) = Some lcp_start) by reflexivity. congruence. }
  eapply wlp_mono; [|by apply Hsim]. intros _ w (c' & Hc' & Hw). by rewrite <-(Hc' eq_refl).
Qed.

(** ** Runs of an instance *)

(** [ppp_step]: a packet arrives; the user of the automaton signals an event (as
    [ppp_instance_alloc] does with Up and Open); the timer service takes the restart
    timer off its list and calls its callback; or some other part of the system
    runs, which may change anything but the instance and its timer. *)
Inductive ppp_timeout : world X -> world X -> Prop :=
  | PT_fire p i x ticks s evs w :
      timer_state (part_get x) (pi_timeout_timer (part_get x)) true ->
      oneshot_tick ticks (part_get x) = Ok (s, evs) ->
      timer_state s (pi_timeout_timer (part_get x)) false ->
      lcp_tick_timeout pas_send pas_set_accm pc_link_up (World_ p i (part_put s x)) = Ok (tt, w) ->
      ppp_timeout (World_ p i x) w.

Inductive ppp_other : world X -> world X -> Prop :=
  | PO_run w w' :
      part_get (w_more w') = (part_get (w_more w) : ppp_instance) ->
      (forall on, timer_state (part_get (w_more w)) (pi_timeout_timer (part_get (w_more w))) on ->
                  timer_state (part_get (w_more w')) (pi_timeout_timer (part_get (w_more w))) on) ->
      ppp_other w w'.

Inductive ppp_step : world X -> world X -> Prop :=
  | PS_recv nb w w' :
      ppp_recv_netbuf pas_send pas_set_accm pc_link_up pc_recv stack nb w = Ok (tt, w') -> ppp_step w w'
  | PS_admin e w w' :
      e ∈ [EVENT_UP; EVENT_DOWN; EVENT_OPEN; EVENT_CLOSE] ->
      (lock_pi;; handle_event pas_send pas_set_accm pc_link_up e;; unlock_pi) w = Ok (tt, w') -> ppp_step w w'
  | PS_timeout w w' : ppp_timeout w w' -> ppp_step w w'
  | PS_other w w' : ppp_other w w' -> ppp_step w w'.

Inductive ppp_reach : world X -> Prop :=
  | PR_start old p i x self w :
      oneshot_lock (part_get x) = false -> (exists l, attached (part_get x) l) -> 0 <= pi_restart_counter old < 2 ^ 8 ->
      ppp_instance_alloc pas_send pas_set_accm pc_link_up attach old (World_ p i x) = Ok (self, w) -> ppp_reach w
  | PR_step w w' : ppp_reach w -> ppp_step w w' -> ppp_reach w'.

Definition in_control (w : world X) (c : lcp) : Prop := lcp_at false (w_more w) c /\ lcp_ok c.

Lemma sim_run b b' R {A} (m : W X A) w c a w' :
  sim b b' R m -> lcp_at b (w_more w) c -> m w = Ok (a, w') -> exists c', R c c' /\ lcp_at b' (w_more w') c'.
Proof. intros Hm Hc E. destruct w as [p i x]. specialize (Hm p i x c Hc). unfold wlp in Hm. by rewrite E in Hm. Qed.

Lemma timeout_control w w' c :
  in_control w c -> ppp_timeout w w' ->
  exists c', in_control w' c' /\ lcp_left c' = lcp_left c - 1 /\ 0 < lcp_left c /\ (lcp_left c' = 0 -> gave_up c' = true).
Proof.
  intros Hc Hs. destruct Hs as [p i x ticks s evs w1 Hon _ Hoff Hrun]. destruct Hc as [[Hf Ht] Hok]. cbn in Hf, Ht.
  assert (Ht1 : l_timer c = true).
  { destruct (l_timer c); [done|]. destruct Ht as [_ (l & Ha & Hin) _], Hon as [_ (l' & Ha' & Hin') _].
    rewrite (Sched.chain_fun _ _ _ _ Ha' Ha) in Hin'. assert (pi_timeout_timer (part_get x) ∈ l) as Hx by by apply Hin'. by apply Hin in Hx. }
  destruct (lcp_timeout_ok c Hok Ht1) as (c' & He & Hok' & Hleft & Hg). unfold lcp_timeout in He.
  edestruct (fun H => sim_run _ _ _ _ _ (c <| l_timer := false |>) _ _ sim_tick_timeout H Hrun) as (c1 & E1 & Hc1).
  { cbn [w_more]. unfold lcp_at. rewrite apart_get, part_get_put. destruct Hf. done. }
  assert (c1 = c') as -> by (change (timeout_event (c <| l_timer := false |>)) with (timeout_event c) in E1; congruence).
  exists c'. split_and!; [by split|done| |done]. unfold lcp_left. rewrite Ht1. pose proof (lf_byte _ _ _ Hf). lia.
Qed.

Lemma other_control w w' c : in_control w c -> ppp_other w w' -> in_control w' c.
Proof. intros Hc Hs. destruct Hs as [w1 w2 Hi Hti]. destruct Hc as [[Hf Ht] Hok]. split; [|done]. unfold lcp_at. rewrite Hi. eauto. Qed.

Lemma step_control w w' c : in_control w c -> ppp_step w w' -> exists c', in_control w' c'.
Proof.
  intros Hc Hs. destruct Hs as [nb w w' E|e w w' He E|w w' Hs|w w' Hs].
  - destruct Hc as [Hc Hok]. destruct (sim_run _ _ _ _ _ c _ _ (sim_ppp_recv nb) Hc E) as (c' & [->|(e & He & Hev)] & Hc'); [by exists c|].
    exists c'. split; [done|]. unfold EVENT_RCR_P, EVENT_RXR in He.
    destruct (lcp_event_ok e c) as (c1 & E1 & H1); [lia| |done|unfold on_event in Hev; congruence].
    unfold is_timeout, EVENT_TO_P, EVENT_TO_M. destruct (Z.eqb_spec e 4), (Z.eqb_spec e 5); (done || lia).
  - destruct Hc as [Hc Hok]. edestruct (fun H => sim_run false false (on_event e) _ _ c _ _ H Hc E) as (c' & Hev & Hc').
    { sims. eapply (sim_bind _ _ _ _ eq); [apply sim_event|intros _; sims|]. by intros c1 c2 c3 H <-. }
    exists c'. split; [done|]. assert (Hr : 0 <= e < 16 /\ is_timeout e = false).
    { repeat (apply elem_of_cons in He as [->|He]); [by cbv..|by apply elem_of_nil in He]. }
    destruct (lcp_event_ok e c) as (c1 & E1 & H1); [apply Hr..|done|]. unfold on_event in Hev. congruence.
  - destruct (timeout_control _ _ _ Hc Hs) as (c' & Hc' & _). eauto.
  - exists c. by eapply other_control.
Qed.

Lemma reach_control w : ppp_reach w -> exists c, in_control w c.
Proof.
  induction 1 as [old p i x self w Hl Ha Hn E|w w' _ [c IH] Hs]; [|by eapply step_control].
  exists lcp_start. split; [|by vm_compute]. pose proof (alloc_wlp old p i x Hl Ha Hn) as Hw. unfold wlp in Hw. by rewrite E in Hw.
Qed.

Lemma lcp_ok_facts c : lcp_ok c ->
  0 <= l_state c <= STATE_OPENED /\ 0 <= l_phase c <= PHASE_TERMINATE /\ 0 <= l_counter c <= RESTART_MAX_CONFIGURE
  /\ l_timer c = negb (quiescent (l_state c))
  /\ (l_state c = STATE_OPENED -> l_phase c = PHASE_NETWORK /\ 0 < l_counter c).
Proof.
  unfold lcp_ok, lcp_okb. rewrite !andb_true_iff, !Z.leb_le. intros ((((((((? & ?) & ?) & ?) & ?) & ?) & Ht) & Ho) & _).
  apply Bool.eqb_prop in Ht. do 4 (split; [done|]). intros E. rewrite E in Ho. cbn in Ho.
  apply andb_true_iff in Ho as [Ho1 Ho2]. lia.
Qed.

Lemma trans_total event state : 0 <= event < 16 -> 0 <= state <= STATE_OPENED -> is_Some (trans event state).
Proof.
  intros He Hs. unfold STATE_OPENED in Hs.
  assert (H : all_from 16 0 (fun e => all_from 10 0 (fun s => bool_decide (is_Some (trans e s)))) = true) by by vm_compute.
  eapply all_from_spec in H; [|instantiate (1 := event); lia]. eapply all_from_spec in H; [|instantiate (1 := state); lia].
  by apply bool_decide_eq_true in H.
Qed.

(** C37: the control state of a PPP instance, for every packet, event and timeout in
    any order.  Between handlers the lock is free, the state and the phase are among
    the defined ones, so that every event has its entry in the transition table, and
    the restart counter is at most [RESTART_MAX_CONFIGURE].  The restart timer is on
    the timer list exactly in the states Closing, Stopping, Req-Sent, Ack-Rcvd and
    Ack-Sent: a negotiation that waits for an answer always has its timeout running,
    and no timer is left behind by one that does not.  An opened link is in the
    network phase and has requests left for a renegotiation. *)
Theorem lcp_timer_runs_iff_waiting w :
  ppp_reach w ->
  let i : ppp_instance := part_get (w_more w) in
  pi_lock i = false /\ 0 <= pi_state i <= STATE_OPENED /\ 0 <= pi_phase i <= PHASE_TERMINATE
  /\ 0 <= pi_restart_counter i <= RESTART_MAX_CONFIGURE
  /\ (forall event, 0 <= event < 16 -> is_Some (trans event (pi_state i)))
  /\ timer_state (part_get (w_more w)) (pi_timeout_timer i) (negb (quiescent (pi_state i)))
  /\ (pi_state i = STATE_OPENED -> pi_phase i = PHASE_NETWORK /\ 0 < pi_restart_counter i).
Proof.
  intros Hr i. destruct (reach_control w Hr) as (c & [Hf Ht] & Hok). destruct (lcp_ok_facts c Hok) as (Hs & Hp & Hn & Htm & Ho).
  rewrite Htm in Ht. destruct Hf as [H1 H2 H3 H4 _]. fold i in H1, H2, H3, H4, Ht. rewrite <-H2, <-H3, <-H4 in *.
  split_and!; try done; try lia. intros event He. by apply trans_total.
Qed.

(** [n] timeouts and no packet. *)
Inductive ppp_silence : nat -> world X -> world X -> Prop :=
  | SL_start w : ppp_silence 0 w w
  | SL_timeout n w w1 w2 : ppp_silence n w w1 -> ppp_timeout w1 w2 -> ppp_silence (S n) w w2
  | SL_other n w w1 w2 : ppp_silence n w w1 -> ppp_other w1 w2 -> ppp_silence n w w2.

Lemma silence_control n w w' c :
  in_control w c -> ppp_silence n w w' ->
  exists c', in_control w' c' /\ lcp_left c' = lcp_left c - Z.of_nat n
    /\ (lcp_left c' = 0 -> (0 < n)%nat -> gave_up c' = true).
Proof.
  intros Hc Hs. induction Hs as [w|n w w1 w2 _ IH Ht|n w w1 w2 _ IH Ho].
  - exists c. split_and!; [done|lia|lia].
  - destruct (IH Hc) as (c1 & Hc1 & Hl1 & _). destruct (timeout_control _ _ _ Hc1 Ht) as (c2 & Hc2 & Hl2 & _ & Hg).
    exists c2. split_and!; [done|lia|auto].
  - destruct (IH Hc) as (c1 & Hc1 & Hl1 & Hg). exists c1. split_and!; [by eapply other_control|done..].
Qed.

(** C38: a negotiation nobody answers ends.  Let [k] be one more than the restart
    counter in a state that waits and 0 in the others, at most 11.  However long the
    peer is silent, at most [k] timeouts occur; before the last one the timer runs
    and the counter has gone down by one with each; with the last one the automaton
    is in Closed or Stopped, in the dead phase, and the timer is off. *)
Theorem lcp_gives_up w n w' :
  ppp_reach w -> ppp_silence n w w' ->
  let i : ppp_instance := part_get (w_more w) in
  let i' : ppp_instance := part_get (w_more w') in
  let k := if quiescent (pi_state i) then 0 else pi_restart_counter i + 1 in
  Z.of_nat n <= k <= RESTART_MAX_CONFIGURE + 1
  /\ (Z.of_nat n < k ->
      timer_state (part_get (w_more w')) (pi_timeout_timer i') true /\ pi_restart_counter i' = k - Z.of_nat n - 1)
  /\ (Z.of_nat n = k -> (0 < n)%nat ->
      (pi_state i' = STATE_CLOSED \/ pi_state i' = STATE_STOPPED) /\ pi_phase i' = PHASE_DEAD
      /\ timer_state (part_get (w_more w')) (pi_timeout_timer i') false).
Proof.
  intros Hr Hs i i' k. destruct (reach_control w Hr) as (c & Hc). destruct (silence_control n w w' c Hc Hs) as (c' & Hc' & Hl & Hg).
  destruct Hc as [[[_ H2 _ H4 _] _] Hok], Hc' as [[[_ H2' H3' H4' Hb] Ht'] Hok'].
  destruct (lcp_ok_facts c Hok) as (_ & _ & Hn & Htm & _). destruct (lcp_ok_facts c' Hok') as (_ & _ & Hn' & _ & _).
  fold i in H2, H4. fold i' in H2', H3', H4', Ht'.
  assert (Ek : k = lcp_left c) by (unfold k, lcp_left; rewrite Htm, H2, H4; destruct (quiescent (l_state c)); cbn; lia).
  assert (Hk : lcp_left c <= RESTART_MAX_CONFIGURE + 1) by (unfold lcp_left, RESTART_MAX_CONFIGURE in *; destruct (l_timer c); lia).
  assert (Hp : 0 <= lcp_left c') by (unfold lcp_left; destruct (l_timer c'); lia). rewrite Ek. split; [lia|split].
  - intros Hlt. unfold lcp_left in Hl at 1. destruct (l_timer c'); [|lia]. split; [done|]. rewrite H4'. lia.
  - intros E Hpos. assert (Hz : gave_up c' = true) by (apply Hg; lia). unfold gave_up in Hz.
    rewrite !andb_true_iff, orb_true_iff in Hz. destruct Hz as ((Hst & Hph) & Hti). apply negb_true_iff in Hti. rewrite Hti in Ht'.
    split_and!; [|lia|done]. destruct Hst; [left|right]; lia.
Qed.
End sim.

(** ** Witnesses *)

(** A host with one PPP instance and one timer; the framing service and the clients
    do nothing. *)
Definition lcp_host : Type := ppp_instance * timers.
Definition quiet_send (s nb : Z) : W lcp_host unit := mret tt.
Definition quiet_link_up (pc : ppp_client) : W lcp_host unit := mret tt.
Definition quiet_recv (pc : ppp_client) (nb : Z) : W lcp_host unit := mret tt.
Definition quiet_attach (pac : Z) : W lcp_host Z := mem_ (membuf_alloc 8 0).
Definition demo_old : ppp_instance :=
  Ppp_instance_ 0 false 0 0 0 0%nat 0 0 0 0 0 0 0 0 0 0 0 0 0 0 [] 0.
Definition demo_ip : ip_instance := Ip_instance_ 0 false 0 0 0 [] [].
Definition demo_pool : pool :=
  Eval vm_compute in
  match heap_add 1 0x1000 4000 (Heap_ false 0 0 ∅) with Ok h => Pool_ h false false | _ => region_pool end.
Definition host_before : lcp_host := (demo_old, Timers_ None false ∅).
Definition demo_first : world lcp_host :=
  Eval vm_compute in
  match ppp_instance_alloc quiet_send quiet_send quiet_link_up quiet_attach demo_old (World_ demo_pool demo_ip host_before) with
  | Ok (_, w) => w
  | _ => World_ demo_pool demo_ip host_before
  end.

(** The only timer of the service is [t]. *)
Definition lone_timer (s : timers) (t : tid) (on : bool) : bool :=
  negb (oneshot_lock s) && bool_decide (oneshot_list s = if on then Some t else None)
  && match t_store s !! t with
     | Some o => (os_refs o =? if on then 2 else 1) && bool_decide (os_next o = None)
     | None => false
     end.

Lemma lone_timer_state s t on : lone_timer s t on = true -> timer_state s t on.
Proof.
  unfold lone_timer. rewrite !andb_true_iff, negb_true_iff. intros [[Hl Hh] Ho]. apply bool_decide_eq_true in Hh.
  destruct (t_store s !! t) as [o|] eqn:Eo; [|done]. apply andb_true_iff in Ho as [Hr Hn]. apply Z.eqb_eq in Hr.
  apply bool_decide_eq_true in Hn. split; [done| |eauto]. exists (if on then [t] else []). unfold attached. rewrite Hh. destruct on.
  - split; [|set_solver]. split; [done|]. exists None. split; [|done]. unfold t_link. rewrite Eo. cbn. by rewrite Hn.
  - split; [done|set_solver].
Qed.

(** [n] timeouts of that timer, [TIMEOUT_TICKS] after each other. *)
Fixpoint demo_silence (n : nat) (w : world lcp_host) : option (world lcp_host) :=
  match n with
  | O => Some w
  | S n =>
    w ← demo_silence n w;
    let t := pi_timeout_timer (part_get (w_more w)) in
    match oneshot_tick TIMEOUT_TICKS (part_get (w_more w)) with
    | Ok (s, _) =>
      if lone_timer (part_get (w_more w)) t true && lone_timer s t false then
        match lcp_tick_timeout quiet_send quiet_send quiet_link_up (World_ (w_pool w) (w_ip w) (part_put s (w_more w))) with
        | Ok (_, w) => Some w
        | _ => None
        end
      else None
    | _ => None
    end
  end.

Lemma demo_silence_ok n w w' :
  demo_silence n w = Some w' -> ppp_silence quiet_send quiet_send quiet_link_up n w w'.
Proof.
  revert w'. induction n as [|n IH]; intros w'; cbn [demo_silence]; [intros [= ->]; constructor|].
  destruct (demo_silence n w) as [w1|]; [|done]. specialize (IH w1 eq_refl). cbn [mbind option_bind].
  destruct (oneshot_tick _ _) as [[s evs]| |] eqn:Et; [|done..]. destruct (_ && _) eqn:El; [|done].
  apply andb_true_iff in El as [E1%lone_timer_state E2%lone_timer_state].
  destruct (lcp_tick_timeout _ _ _ _) as [[[] w2]| |] eqn:Eo; [|done..]. intros [= <-].
  eapply SL_timeout; [exact IH|]. destruct w1 as [p i x]. by eapply PT_fire.
Qed.

Lemma demo_quiet : (forall s nb, sim false false eq (quiet_send s nb)) /\ (forall s a, sim true true eq (quiet_send s a))
  /\ (forall pc, sim false false eq (quiet_link_up pc)) /\ (forall pc nb, sim false false eq (quiet_recv pc nb))
  /\ (forall pac, sim false false eq (quiet_attach pac)).
Proof. split_and!; intros; apply sim_ret || apply sim_mem. Qed.

Lemma lcp_demo_reach : ppp_reach quiet_send quiet_send quiet_link_up quiet_recv [] quiet_attach demo_first.
Proof.
  eapply (PR_start _ _ _ _ _ _ demo_old demo_pool demo_ip host_before); [done|by exists []|done|].
  by vm_compute.
Qed.

Definition demo_last : world lcp_host :=
  Eval vm_compute in default demo_first (demo_silence 10 demo_first).

Lemma lcp_timer_runs_iff_waiting_witness :
  timer_state (part_get (w_more demo_first)) (pi_timeout_timer (part_get (w_more demo_first))) true.
Proof.
  destruct demo_quiet as (H1 & H2 & H3 & H4 & H5).
  pose proof (lcp_timer_runs_iff_waiting quiet_send quiet_send quiet_link_up quiet_recv [] H1 H2 H3 H4 quiet_attach H5 demo_first lcp_demo_reach) as H.
  apply H.
Defined.

Lemma lcp_gives_up_witness :
  pi_state (part_get (w_more demo_last)) = STATE_STOPPED /\ pi_phase (part_get (w_more demo_last)) = PHASE_DEAD.
Proof.
  destruct demo_quiet as (H1 & H2 & H3 & H4 & H5).
  assert (Hs : demo_silence 10 demo_first = Some demo_last) by by vm_compute.
  pose proof (lcp_gives_up quiet_send quiet_send quiet_link_up quiet_recv [] H1 H2 H3 H4 quiet_attach H5 demo_first 10 demo_last
    lcp_demo_reach (demo_silence_ok 10 demo_first demo_last Hs)) as (_ & _ & H).
  destruct H as ([Hc|Hc] & Hp & _); [by vm_compute|lia|exfalso; revert Hc; by vm_compute|by split].
Defined.
