(* ===== verification/ConfReq.v ===== *)
(** * Configure-Requests of the PPP control protocols

    LCP and IPCP answer a Configure-Request with the same routine, written twice in the
    source: it reads the options of the request and writes the answer as it goes.  It
    starts an acknowledgement, begins again with a Nak at the first option it wants
    changed and again with a Reject at the first one it does not know.

    This file has what the two share: the class [Negotiator] of the instances with a
    parse state and a netbuf for the answer, the reference [review], which says what
    becomes of each option (the answer consists of the options with the worst
    verdict), and the theorem [request_answered], proved for any judgement of the
    single options.  [LcpReq.v] and [IpcpReq.v] instantiate it. *)

From stdpp Require Import base list gmap fin_maps strings.
From Stdlib Require Import ZArith Lia.
From S2P Require Import Prelude Heap Membuf NetbufMem Ip Parts Oneshot PppTable Ppp.
Open Scope Z_scope.

(** ** The reference *)

(** The severity ([PPP_USAGE_ACK], [PPP_USAGE_NAK] or [PPP_USAGE_REJ]) and the option
    the answer has for it. *)
Abbreviation verdict := (Z * list Z)%type.

Definition be_value (l : list Z) : Z := foldl (fun v b => v * 2 ^ 8 + b) 0 l.

(** What becomes of the options [l] of a request: the verdicts and the settings [A]
    taken over from them.  An option that does not fit the rest of the request ends it
    and is rejected with an empty body; a single last byte is ignored. *)
Section review.
Context {A : Type} (judge : A -> Z -> Z -> list Z -> list verdict) (taken : A -> Z -> Z -> list Z -> A).

Fixpoint review (n : nat) (a : A) (l : list Z) : list verdict * A :=
  match n, l with
  | S n, opt :: optsz :: l =>
    if (Z.of_nat (length l) + 2 <? optsz) || (optsz <? 2) then ([(PPP_USAGE_REJ, [opt; 2])], a)
    else
      let body := take (Z.to_nat (optsz - 2)) l in
      let r := review n (taken a opt optsz body) (drop (Z.to_nat (optsz - 2)) l) in
      (judge a opt optsz body ++ r.1, r.2)
  | _, _ => ([], a)
  end.

Lemma review_short n a l : (length l < 2)%nat -> review n a l = ([], a).
Proof. destruct n, l as [|? [|? ?]]; cbn; try done. lia. Qed.
End review.

Definition worst (vs : list verdict) : Z := foldr (fun v => Z.max v.1) PPP_USAGE_ACK vs.
Definition answer (vs : list verdict) : list Z := concat (snd <$> filter (fun v => v.1 = worst vs) vs).

(** The packet: code, identifier, length and options. *)
Definition answer_packet (id : Z) (vs : list verdict) : list Z :=
  [CODE_CONF_ACK + worst vs; id] ++ be16 (4 + Z.of_nat (length (answer vs))) ++ answer vs.

Lemma worst_range vs : Forall (fun v => v.1 <= PPP_USAGE_REJ) vs -> 0 <= worst vs <= PPP_USAGE_REJ.
Proof. unfold PPP_USAGE_REJ. induction 1 as [|v vs Hv _ IH]; cbn; [by cbv|]. unfold worst in IH. lia. Qed.

Lemma worst_app vs v : 0 <= v.1 -> worst (vs ++ [v]) = Z.max (worst vs) v.1.
Proof.
  intros Hv. induction vs as [|w vs IH]; cbn; [unfold PPP_USAGE_ACK; lia|]. unfold worst in *. rewrite IH. lia.
Qed.

Lemma worst_bound vs : Forall (fun v => v.1 <= worst vs) vs.
Proof.
  induction vs as [|w vs IH]; constructor; cbn; [lia|]. eapply Forall_impl; [exact IH|]. cbn. unfold worst. intros v ?. lia.
Qed.

Lemma filter_worse vs n : worst vs < n -> filter (fun v => v.1 = n) vs = [].
Proof.
  intros Hn. pose proof (worst_bound vs) as H. revert H. generalize (worst vs) Hn. clear. intros k Hk. induction 1 as [|v vs Hv _ IH]; [done|].
  rewrite filter_cons_False; [done|]. lia.
Qed.

(** What one more verdict does to the answer: start again, go on, or nothing. *)
Lemma answer_app vs v : 0 <= v.1 ->
  answer (vs ++ [v]) =
    if worst vs <? v.1 then v.2 else if worst vs =? v.1 then answer vs ++ v.2 else answer vs.
Proof.
  intros Hv. unfold answer. rewrite worst_app, filter_app, fmap_app, concat_app by done.
  destruct (Z.ltb_spec (worst vs) v.1); [|destruct (Z.eqb_spec (worst vs) v.1) as [E|E]].
  - rewrite Z.max_r, filter_worse by lia. rewrite filter_cons_True by done. cbn. by rewrite app_nil_r.
  - rewrite E, Z.max_id, filter_cons_True by done. cbn. by rewrite app_nil_r.
  - rewrite Z.max_l, (filter_cons_False _ v) by lia. cbn. by rewrite app_nil_r.
Qed.

(** ** Instances that negotiate *)

(** The instance of a control protocol: its parse state, the netbuf of its answer and
    the settings a request may change. *)
Class Negotiator (I A : Type) := {
  parse_state : I -> Z;
  set_parse_state : Z -> I -> I;
  reply : I -> Z;
  settings : I -> A;
  settle : A -> I -> I;
  parse_state_set s i : parse_state (set_parse_state s i) = s;
  set_parse_state_same i : set_parse_state (parse_state i) i = i;
  set_parse_state_twice s t i : set_parse_state s (set_parse_state t i) = set_parse_state s i;
  reply_set s i : reply (set_parse_state s i) = reply i;
  settings_set s i : settings (set_parse_state s i) = settings i;
  settings_settle a i : settings (settle a i) = a;
  settle_settings i : settle (settings i) i = i;
  settle_twice a b i : settle a (settle b i) = settle a i;
  settle_parse a s i : settle a (set_parse_state s i) = set_parse_state s (settle a i) }.

#[export] Hint Mode Negotiator ! - : typeclass_instances.

(** ** Options in memory *)

Lemma be_value32 m a : hton32 (load32 m a) = be_value (bytes_at m a 4).
Proof.
  unfold bytes_at. change (seqZ 0 4) with [0; 1; 2; 3]. cbn [fmap list_fmap be_value foldl]. rewrite Z.add_0_r.
  pose proof (load8_range m a). pose proof (load8_range m (a + 1)). pose proof (load8_range m (a + 2)). pose proof (load8_range m (a + 3)).
  unfold load32.
  match goal with |- hton32 ?t = _ =>
    replace t with (load8 m (a + 3) * 2 ^ 24 + load8 m (a + 2) * 2 ^ 16 + load8 m (a + 1) * 2 ^ 8 + load8 m a) by lia end.
  rewrite hton32_join by done. unfold be_value. cbn. lia.
Qed.

Lemma bytes_at_two m a n : 2 <= n ->
  bytes_at m a n = load8 m a :: load8 m (a + 1) :: bytes_at m (a + 2) (n - 2).
Proof.
  intros H. replace n with (2 + (n - 2)) at 1 by lia. rewrite bytes_at_app by lia. unfold bytes_at at 1.
  change (seqZ 0 2) with [0; 1]. cbn [fmap list_fmap app]. by rewrite Z.add_0_r.
Qed.

Lemma bytes_at_split m a n k : 0 <= k <= n ->
  take (Z.to_nat k) (bytes_at m a n) = bytes_at m a k /\ drop (Z.to_nat k) (bytes_at m a n) = bytes_at m (a + k) (n - k).
Proof.
  intros Hk. replace n with (k + (n - k)) at 1 2 by lia. rewrite bytes_at_app by lia.
  assert (E : Z.to_nat k = length (bytes_at m a k)) by (pose proof (bytes_at_length m a k); lia).
  split; [by apply take_app_length'|by apply drop_app_length'].
Qed.

(** The header the routine starts with. *)
Definition start_mem (code start id : Z) (m : mem) : mem :=
  store8 (store8 (store8 (store8 m start code) (start + 1) id) (start + 2) 0) (start + 3) 4.

(** The size field and the length in the header are written last. *)
Definition finish_mem (start size n : Z) (m : mem) : mem :=
  store16 (store32 m size n) (start + 2) (hton16 n).

Lemma finish_bytes start size n m id code l k :
  n = 4 + Z.of_nat (length l) -> 0 <= n < 2 ^ 16 -> n <= 4 + k -> size + 4 <= start \/ start + 4 + k <= size ->
  load8 m start = code -> load8 m (start + 1) = id -> bytes_at m (start + 4) (Z.of_nat (length l)) = l ->
  bytes_at (finish_mem start size n m) start n = [code; id] ++ be16 n ++ l /\ load32 (finish_mem start size n m) size = n.
Proof.
  intros En Hn Hk Hsz Hc Hi Hb. destruct (hton16_bytes n Hn) as [H1 H2]. unfold finish_mem. split.
  - rewrite En at 3. rewrite bytes_at_app by lia. rewrite app_assoc. f_equal.
    + unfold bytes_at. change (seqZ 0 4) with [0; 1; 2; 3]. cbn [fmap list_fmap]. rewrite Z.add_0_r.
      rewrite (load8_store16_ne _ _ _ start), (load8_store16_ne _ _ _ (start + 1)) by lia. rewrite !load8_store32_ne by lia.
      unfold store16. rewrite (load8_store8_ne _ _ (start + 2)), load8_store8 by lia.
      rewrite (load8_store8_at _ (start + 2 + 1) (start + 3)) by lia. rewrite Hc, Hi, H1, H2. done.
    + rewrite <-Hb at 2. apply bytes_at_ext. intros y Hy. rewrite load8_store16_ne, load8_store32_ne by lia. done.
  - transitivity (load32 (store32 m size n) size); [|apply load32_store32; lia]. apply load32_ext. intros y Hy. apply load8_store16_ne. lia.
Qed.

(** ** The answer so far *)

Section so_far.
Context {I A : Type} `{NI : Negotiator I A}.

(** [answering q0 start i0 vs a k p q i]: the options taken so far, [k] bytes of the
    request, had the verdicts [vs] and brought the settings to [a]; [q0] and [i0] are
    from before. *)
Record answering (q0 : pool) (start : Z) (i0 : I) (vs : list verdict) (a : A) (k p : Z) (q : pool) (i : I) : Prop := {
  an_pool : q = with_mem (fun _ => p_mem q) q0;
  an_verdicts : Forall (fun v => 0 <= v.1 <= PPP_USAGE_REJ) vs;
  an_end : p = start + Z.of_nat (length (answer vs));
  an_fits : Z.of_nat (length (answer vs)) <= k;
  an_code : load8 (p_mem q) (start - 4) = CODE_CONF_ACK + worst vs;
  an_bytes : bytes_at (p_mem q) start (Z.of_nat (length (answer vs))) = answer vs;
  an_frame : forall y, y <> start - 4 -> ~ start <= y < start + k -> load8 (p_mem q) y = load8 (p_mem q0) y;
  an_inst : i = set_parse_state (worst vs) (settle a i0) }.

Lemma answering_state q0 start i0 vs a k p q i :
  answering q0 start i0 vs a k p q i -> parse_state i = worst vs /\ settings i = a /\ 0 <= worst vs <= PPP_USAGE_REJ.
Proof.
  intros [_ Hv _ _ _ _ _ ->]. rewrite parse_state_set, settings_set, settings_settle. split_and!; [done..| |].
  all: apply worst_range; eapply Forall_impl; [exact Hv|]; cbn; lia.
Qed.

Lemma answering_settle q0 start i0 vs a b k p q i :
  answering q0 start i0 vs a k p q i -> answering q0 start i0 vs b k p q (settle b i).
Proof. intros [????? ?? ->]. split; auto. by rewrite settle_parse, settle_twice. Qed.

Lemma answering_le q0 start i0 vs a k k' p q i :
  k <= k' -> answering q0 start i0 vs a k p q i -> answering q0 start i0 vs a k' p q i.
Proof. intros Hk [????? ? Hfr ?]. split; auto; [lia|]. intros y ? ?. apply Hfr; [done|lia]. Qed.

End so_far.

Section options.
Context (stack : list Z) (stack_long : (253 <= length stack)%nat) (stack_bytes : Forall (fun b => 0 <= b < 2 ^ 8) stack).

(** The bytes [put_option] copies. *)
Definition source_bytes (m : mem) (optsz : Z) (buf : optbuf) : list Z :=
  match buf with
  | In_packet a => bytes_at m a (optsz - 2)
  | Local l => take (Z.to_nat (optsz - 2)) (l ++ stack)
  end.

Definition source_apart (p optsz : Z) (buf : optbuf) : Prop :=
  match buf with
  | In_packet a => a + (optsz - 2) <= p \/ p + optsz <= a
  | Local l => Forall (fun b => 0 <= b < 2 ^ 8) l
  end.

Definition put_mem (m : mem) (p opt optsz : Z) (buf : optbuf) : mem :=
  let m := store8 (store8 m p opt) (p + 1) optsz in
  match buf with
  | In_packet a => copy_bytes (Z.to_nat (optsz - 2)) (p + 2) a m
  | Local l => store_list m (p + 2) (take (Z.to_nat (optsz - 2)) (l ++ stack))
  end.

Lemma put_option_run q p opt optsz buf :
  put_option stack p opt optsz buf q = Ok (p + optsz, with_mem (fun m => put_mem m p opt optsz buf) q).
Proof.
  unfold put_option. replace (p + optsz) with (p + 2 + (optsz - 2)) by lia. destruct buf; reflexivity.
Qed.

Lemma source_length m optsz buf : 2 <= optsz < 2 ^ 8 -> Z.of_nat (length (source_bytes m optsz buf)) = optsz - 2.
Proof.
  intros H. destruct buf as [a|l]; cbn; [rewrite bytes_at_length; lia|]. rewrite length_take, length_app. lia.
Qed.

Lemma put_mem_load m p opt optsz buf y :
  0 <= opt < 2 ^ 8 -> 2 <= optsz < 2 ^ 8 -> source_apart p optsz buf ->
  load8 (put_mem m p opt optsz buf) y =
    if decide (p <= y < p + optsz) then list_buf (opt :: optsz :: source_bytes m optsz buf) (y - p) else load8 m y.
Proof.
  intros Ho Hs Ha. set (m2 := store8 (store8 m p opt) (p + 1) optsz).
  assert (H2 : forall z, z <> p -> z <> p + 1 -> load8 m2 z = load8 m z) by (intros z ? ?; unfold m2; by rewrite !load8_store8_ne by lia).
  assert (Hh : load8 m2 p = opt /\ load8 m2 (p + 1) = optsz).
  { unfold m2. rewrite load8_store8_ne, !load8_store8 by lia. split; apply u8_small; lia. }
  assert (Hb : forall z, p + 2 <= z < p + optsz ->
    load8 (put_mem m p opt optsz buf) z = list_buf (source_bytes m optsz buf) (z - (p + 2))).
  { intros z Hz. unfold put_mem. fold m2. destruct buf as [a|l]; cbn [source_bytes source_apart] in *.
    - rewrite copy_bytes_spec, decide_True by lia. rewrite list_buf_at by lia. rewrite H2 by lia. f_equal.
    - rewrite load8_store_list. rewrite length_take, length_app, decide_True by lia. apply u8_small.
      unfold list_buf. destruct (lookup_lt_is_Some_2 (take (Z.to_nat (optsz - 2)) (l ++ stack)) (Z.to_nat (z - (p + 2)))) as [b Eb].
      { rewrite length_take, length_app. lia. }
      rewrite (nth_lookup_Some _ _ _ _ Eb).
      assert (HF : Forall (fun b => 0 <= b < 2 ^ 8) (take (Z.to_nat (optsz - 2)) (l ++ stack))) by by apply Forall_take, Forall_app.
      rewrite Forall_forall in HF. by eapply HF, list_elem_of_lookup_2. }
  assert (Hn : forall z, ~ p + 2 <= z < p + optsz -> load8 (put_mem m p opt optsz buf) z = load8 m2 z).
  { intros z Hz. unfold put_mem. fold m2. destruct buf as [a|l]; cbn [source_apart] in *.
    - by rewrite copy_bytes_spec, decide_False by lia.
    - rewrite load8_store_list, decide_False; [done|]. rewrite length_take, length_app. lia. }
  case_decide as Hy.
  - destruct (decide (y = p)) as [->|]; [rewrite Hn, Z.sub_diag by lia; apply Hh|].
    destruct (decide (y = p + 1)) as [->|]; [rewrite Hn by lia; replace (p + 1 - p) with 1 by lia; apply Hh|].
    rewrite Hb by lia. unfold list_buf. replace (Z.to_nat (y - p)) with (S (S (Z.to_nat (y - (p + 2))))) by lia. done.
  - rewrite Hn, H2 by lia. done.
Qed.

(** An option of the request, or the local variable, is apart from the answer. *)
Definition source_clear (start k optsz : Z) (buf : optbuf) : Prop :=
  match buf with
  | In_packet a => a + (optsz - 2) <= start - 4 \/ start + k + optsz <= a
  | Local l => Forall (fun b => 0 <= b < 2 ^ 8) l
  end.

Lemma source_clear_apart start k p optsz buf :
  source_clear start k optsz buf -> start <= p <= start + k -> 2 <= optsz -> source_apart p optsz buf.
Proof. destruct buf; cbn; [lia|done]. Qed.

(** One option more behind [pre]. *)
Lemma put_extends m start pre opt optsz buf :
  bytes_at m start (Z.of_nat (length pre)) = pre -> 0 <= opt < 2 ^ 8 -> 2 <= optsz < 2 ^ 8 ->
  source_apart (start + Z.of_nat (length pre)) optsz buf ->
  let l := pre ++ opt :: optsz :: source_bytes m optsz buf in
  let m' := put_mem m (start + Z.of_nat (length pre)) opt optsz buf in
  Z.of_nat (length l) = Z.of_nat (length pre) + optsz /\ bytes_at m' start (Z.of_nat (length l)) = l
  /\ forall y, ~ start + Z.of_nat (length pre) <= y < start + Z.of_nat (length l) -> load8 m' y = load8 m y.
Proof.
  intros Hpre Ho Hs Ha l m'. set (o := opt :: optsz :: source_bytes m optsz buf) in *.
  assert (Hlo : Z.of_nat (length o) = optsz) by (unfold o; cbn [length]; pose proof (source_length m optsz buf Hs); lia).
  assert (Hl : Z.of_nat (length l) = Z.of_nat (length pre) + optsz) by (unfold l; rewrite length_app; lia).
  split; [done|]. rewrite Hl.
  assert (Hld : forall y, load8 m' y = if decide (start + Z.of_nat (length pre) <= y < start + Z.of_nat (length pre) + optsz)
    then list_buf o (y - (start + Z.of_nat (length pre))) else load8 m y) by (intros y; by apply put_mem_load).
  split; [|intros y Hy; rewrite Hld, decide_False by lia; done].
  rewrite bytes_at_app by lia. f_equal.
  - transitivity (bytes_at m start (Z.of_nat (length pre))); [|done]. apply bytes_at_ext. intros y Hy. rewrite Hld, decide_False by lia. done.
  - apply list_eq. intros j. destruct (decide (j < length o)%nat) as [Hj|Hj].
    + replace j with (Z.to_nat (Z.of_nat j)) at 1 by lia. rewrite bytes_at_lookup by lia. rewrite Hld, decide_True by lia.
      replace (_ - _) with (Z.of_nat j) by lia. unfold list_buf. rewrite Nat2Z.id.
      destruct (lookup_lt_is_Some_2 o j Hj) as [b Eb]. by rewrite Eb, (nth_lookup_Some _ _ _ _ Eb).
    + rewrite !lookup_ge_None_2; [done|lia|]. pose proof (bytes_at_length m' (start + Z.of_nat (length pre)) optsz). lia.
Qed.

Lemma source_ext m m' start k optsz buf :
  source_clear start k optsz buf -> 0 <= k -> 2 <= optsz ->
  (forall y, y <> start - 4 -> ~ start <= y < start + k -> load8 m' y = load8 m y) ->
  source_bytes m' optsz buf = source_bytes m optsz buf.
Proof. destruct buf as [a|l]; cbn; [|done]. intros Ha Hk Hs Hy. apply bytes_at_ext. intros y ?. apply Hy; lia. Qed.

(** ** Writing the answer *)

Section answer.
Context {X I A : Type} `{PI : Part X I} `{NI : Negotiator I A}.

(** The option is written at [start + |pre|] where [pre] is the part of the answer
    that stays. *)
Lemma answering_put q0 start (i0 : I) vs a k p q i q1 pre e sev opt optsz buf :
  answering q0 start i0 vs a k p q i -> 0 <= sev <= PPP_USAGE_REJ -> 0 <= opt < 2 ^ 8 -> 2 <= optsz < 2 ^ 8 ->
  source_clear start k optsz buf ->
  q1 = with_mem (fun _ => p_mem q1) q -> (forall y, y <> start - 4 -> load8 (p_mem q1) y = load8 (p_mem q) y) ->
  load8 (p_mem q1) (start - 4) = CODE_CONF_ACK + sev -> worst vs <= sev ->
  pre = (if worst vs <? sev then [] else answer vs) -> e = start + Z.of_nat (length pre) ->
  answering q0 start i0 (vs ++ [(sev, opt :: optsz :: source_bytes (p_mem q) optsz buf)]) a (k + optsz)
    (e + optsz) (with_mem (fun m => put_mem m e opt optsz buf) q1) (set_parse_state sev i).
Proof.
  intros Ha Hsev Ho Hs Hc Eq1 Hm1 Hcode Hw Epre ->. pose proof Ha as [Hp Hv He Hf _ Hb Hfr Hi].
  assert (Hpre : Z.of_nat (length pre) <= k /\ bytes_at (p_mem q1) start (Z.of_nat (length pre)) = pre).
  { rewrite Epre. destruct (_ <? _); [split; [cbn; lia|done]|]. split; [done|]. rewrite <-Hb at 2. apply bytes_at_ext. intros y ?. apply Hm1. lia. }
  destruct Hpre as [Hk Hpre].
  assert (Hsrc : source_bytes (p_mem q1) optsz buf = source_bytes (p_mem q) optsz buf).
  { eapply (source_ext _ _ start k); [done|lia|lia|auto]. }
  destruct (put_extends (p_mem q1) start pre opt optsz buf Hpre Ho Hs) as (Hlen & Hbytes & Hother).
  { eapply source_clear_apart; [done|lia..]. }
  rewrite Hsrc in *. set (v := (sev, _)).
  assert (Ew : worst (vs ++ [v]) = sev) by (rewrite worst_app by (cbn; lia); cbn; lia).
  assert (Ea : answer (vs ++ [v]) = pre ++ opt :: optsz :: source_bytes (p_mem q) optsz buf).
  { rewrite answer_app by (cbn; lia). rewrite Epre. cbn [fst snd v]. destruct (Z.ltb_spec (worst vs) sev); [done|].
    by replace (worst vs =? sev) with true by lia. }
  split.
  - rewrite Hp in Eq1. rewrite Eq1. done.
  - apply Forall_app. split; [done|]. by constructor.
  - rewrite Ea. lia.
  - rewrite Ea. lia.
  - rewrite Ew, p_mem_with. rewrite Hother by lia. done.
  - rewrite Ea, p_mem_with. done.
  - intros y H1 H2. rewrite p_mem_with, Hother, Hm1 by lia. apply Hfr; [done|lia].
  - by rewrite Ew, Hi, set_parse_state_twice.
Qed.

(** The three [frame_] functions are one function of the severity. *)
Definition frame (sev p start opt optsz : Z) (buf : optbuf) : W X Z :=
  s ← get_part (A:=I) parse_state;
  p ← (if s <? sev then
         mem_ (wr8 (start - 4) (CODE_CONF_ACK + sev));;
         mod_part (A:=I) (set_parse_state sev);;
         mret start
       else mret p);
  s ← get_part (A:=I) parse_state;
  if s <=? sev then mem_ (put_option stack p opt optsz buf) else mret p.

Lemma w_ret {B C} (a : B) (f : B -> W X C) w : (mret a ≫= f) w = f a w.
Proof. reflexivity. Qed.

(** Starting the answer again. *)
Lemma frame_reset {B} q ii x start code sev (f : Z -> W X B) :
  ((mem_ (wr8 (start - 4) code);; mod_part (A:=I) (set_parse_state sev);; mret start) ≫= f) (World_ q ii x)
  = f start (World_ (with_mem (fun m => store8 m (start - 4) code) q) ii (part_put (set_parse_state sev (part_get (A:=I) x)) x)).
Proof. reflexivity. Qed.

(** The run of a handler of one option with verdicts [vs']. *)
Definition option_run q0 start (i0 : I) vs a k p q i ii (x : X) optsz (m : W X Z) (vs' : list verdict) (a' : A) : Prop :=
  answering q0 start i0 vs a k p q i -> 2 <= optsz < 2 ^ 8 -> exists p' q' i',
  m (World_ q ii (part_put i x)) = Ok (p', World_ q' ii (part_put i' x))
  /\ answering q0 start i0 (vs ++ vs') a' (k + optsz) p' q' i'.

Lemma frame_run q0 start (i0 : I) vs a k p q i ii x sev opt optsz buf :
  0 <= sev <= PPP_USAGE_REJ -> 0 <= opt < 2 ^ 8 -> source_clear start k optsz buf ->
  option_run q0 start i0 vs a k p q i ii x optsz (frame sev p start opt optsz buf)
    [(sev, opt :: optsz :: source_bytes (p_mem q) optsz buf)] a.
Proof.
  intros Hsev Ho Hc Ha Hs. destruct (answering_state _ _ _ _ _ _ _ _ _ Ha) as (Est & _ & Hw). unfold frame.
  rewrite part_gets, part_get_put, Est. destruct (Z.ltb_spec (worst vs) sev) as [Hlt|Hge].
  - rewrite frame_reset, part_gets, !part_get_put, part_put_put, parse_state_set, Z.leb_refl.
    unfold mem_. cbn [w_pool]. rewrite put_option_run. do 3 eexists. split; [reflexivity|].
    set (q1 := with_mem (fun m => store8 m (start - 4) (CODE_CONF_ACK + sev)) q).
    eapply (answering_put _ _ _ _ _ _ _ _ _ q1 []); try done.
    + intros y Hy. apply load8_store8_ne. lia.
    + unfold q1. rewrite p_mem_with, load8_store8. apply u8_small. unfold CODE_CONF_ACK, PPP_USAGE_REJ in *. lia.
    + lia.
    + by replace (worst vs <? sev) with true by lia.
    + cbn. lia.
  - rewrite w_ret, part_gets, part_get_put, Est. destruct (Z.leb_spec (worst vs) sev) as [Hle|Hgt].
    + unfold mem_. cbn [w_pool]. rewrite put_option_run. do 3 eexists. split; [reflexivity|].
      replace i with (set_parse_state sev i) by (replace sev with (parse_state i) by lia; apply set_parse_state_same).
      eapply (answering_put _ _ _ _ _ _ _ _ _ q (answer vs)); try done.
      * by destruct q as [[] ? ?].
      * rewrite (an_code _ _ _ _ _ _ _ _ _ Ha). lia.
      * by replace (worst vs <? sev) with false by lia.
      * apply Ha.
    + exists p, q, i. split; [done|]. destruct Ha as [Hp Hv He Hf Hcd Hb Hfr Hi]. set (v := (sev, _)).
      assert (Ew : worst (vs ++ [v]) = worst vs) by (rewrite worst_app by (cbn; lia); cbn; lia).
      assert (Ea : answer (vs ++ [v]) = answer vs).
      { rewrite answer_app by (cbn; lia). cbn [fst v].
        replace (worst vs <? sev) with false by lia. by replace (worst vs =? sev) with false by lia. }
      split; rewrite ?Ew, ?Ea; auto; [|lia|]; [apply Forall_app; by split; [|constructor]|]. intros y ? ?. apply Hfr; [done|lia].
Qed.

(** An acknowledgement does not start again, and a Reject is not skipped: the guards
    that the source leaves out. *)
Definition frame_ack_of (p opt optsz : Z) (buf : optbuf) : W X Z :=
  s ← get_part (A:=I) parse_state;
  if s <=? PPP_USAGE_ACK then mem_ (put_option stack p opt optsz buf) else mret p.

Definition frame_rej_of (p start opt optsz : Z) (buf : optbuf) : W X Z :=
  s ← get_part (A:=I) parse_state;
  p ← (if s <? PPP_USAGE_REJ then
         mem_ (wr8 (start - 4) CODE_CONF_REJ);;
         mod_part (A:=I) (set_parse_state PPP_USAGE_REJ);;
         mret start
       else mret p);
  mem_ (put_option stack p opt optsz buf).

Lemma frame_ack_eq q ii x p start opt optsz buf :
  0 <= parse_state (part_get (A:=I) x) ->
  frame_ack_of p opt optsz buf (World_ q ii x) = frame PPP_USAGE_ACK p start opt optsz buf (World_ q ii x).
Proof.
  intros H. unfold frame_ack_of, frame. rewrite !part_gets. unfold PPP_USAGE_ACK. replace (parse_state _ <? 0) with false by lia. done.
Qed.

Lemma frame_rej_eq q ii x p start opt optsz buf :
  parse_state (part_get (A:=I) x) <= PPP_USAGE_REJ ->
  frame_rej_of p start opt optsz buf (World_ q ii x) = frame PPP_USAGE_REJ p start opt optsz buf (World_ q ii x).
Proof.
  intros H. unfold frame_rej_of, frame. rewrite !part_gets. destruct (Z.ltb_spec (parse_state (part_get (A:=I) x)) PPP_USAGE_REJ).
  - rewrite !frame_reset, part_gets, part_get_put, parse_state_set. reflexivity.
  - cbn [mbind]. rewrite !w_ret, part_gets. by replace (_ <=? _) with true by lia.
Qed.

Lemma ack_run q0 start (i0 : I) vs a k p q i ii x opt optsz buf f a' :
  0 <= opt < 2 ^ 8 -> source_clear start k optsz (In_packet buf) ->
  (forall i : I, settings i = a -> f i = settle a' i) ->
  option_run q0 start i0 vs a k p q i ii x optsz (p ← frame_ack_of p opt optsz (In_packet buf); mod_part f;; mret p)
    [(PPP_USAGE_ACK, opt :: optsz :: bytes_at (p_mem q) buf (optsz - 2))] a'.
Proof.
  intros Ho Hc Hf Ha Hs. destruct (answering_state _ _ _ _ _ _ _ _ _ Ha) as (Est & _ & Hw).
  destruct (frame_run q0 start i0 vs a k p q i ii x PPP_USAGE_ACK opt optsz (In_packet buf)) as (p' & q' & i' & E & H); [by cbv|done..|].
  exists p', q', (settle a' i'). split; [|by eapply answering_settle]. erewrite st_run.
  2:{ rewrite (frame_ack_eq _ _ _ _ start) by (rewrite part_get_put, Est; apply Hw). exact E. }
  rewrite part_mod, part_get_put, part_put_put, Hf; [done|]. apply (answering_state _ _ _ _ _ _ _ _ _ H).
Qed.

Lemma rej_run q0 start (i0 : I) vs a k p q i ii x opt optsz buf :
  0 <= opt < 2 ^ 8 -> source_clear start k optsz (In_packet buf) ->
  option_run q0 start i0 vs a k p q i ii x optsz (frame_rej_of p start opt optsz (In_packet buf))
    [(PPP_USAGE_REJ, opt :: optsz :: bytes_at (p_mem q) buf (optsz - 2))] a.
Proof.
  intros Ho Hc Ha Hs. destruct (answering_state _ _ _ _ _ _ _ _ _ Ha) as (Est & _ & Hw).
  destruct (frame_run q0 start i0 vs a k p q i ii x PPP_USAGE_REJ opt optsz (In_packet buf)) as (p' & q' & i' & E & H); [by cbv|done..|].
  exists p', q', i'. split; [|done]. rewrite frame_rej_eq; [exact E|]. rewrite part_get_put, Est. apply Hw.
Qed.

(** ** The loop *)

(** The [while] loop with the [switch] on the option as an argument. *)
Definition option_loop (check : Z -> Z -> Z -> Z -> Z -> W X Z) : nat -> Z -> Z -> Z -> Z -> W X Z :=
  fix loop (fuel : nat) (p start buf sz : Z) :=
  match fuel with
  | O => fun _ => Fuel
  | S fuel =>
    if 2 <=? sz then
      opt ← mem_ (rd8 buf);
      optsz ← mem_ (rd8 (buf + 1));
      if (sz <? optsz) || (optsz <? 2) then frame_rej_of p start opt 2 (In_packet (buf + 2))
      else
        p ← check p start opt optsz (buf + 2);
        loop fuel p start (buf + 2 + (optsz - 2)) (u16 (sz - optsz))
    else mret p
  end.

(** The routine around the loop. *)
Definition answer_request (check : Z -> Z -> Z -> Z -> Z -> W X Z) (buf sz id : Z) : W X unit :=
  mod_part (A:=I) (set_parse_state PPP_USAGE_ACK);;
  nb ← get_part (A:=I) reply;
  p ← mem_ (rd32 (nb + Nb.network));
  mem_ (wr8 p CODE_CONF_ACK);;
  mem_ (wr8 (p + 1) id);;
  mem_ (wr8 (p + 2) 0);;
  mem_ (wr8 (p + 3) 4);;
  let start := p + 4 in
  p ← option_loop check (S (Z.to_nat sz)) start start buf sz;
  mem_ (wr32 (nb + Nb.network_size) (4 + u16 (p - start)));;
  n ← mem_ (rd32 (nb + Nb.network_size));
  mem_ (wr16 (start - 2) (hton16 (u16 n))).

(** A [switch] that gives each option the verdicts and the effect of the reference;
    [good] is what is known of the settings. *)
Context (judge : A -> Z -> Z -> list Z -> list verdict) (taken : A -> Z -> Z -> list Z -> A) (good : A -> Prop).
Context (check : Z -> Z -> Z -> Z -> Z -> W X Z).
Context (check_run : forall q0 start (i0 : I) vs a k p q i ii x opt optsz buf,
  good a -> 0 <= opt < 2 ^ 8 -> source_clear start k optsz (In_packet buf) ->
  let body := bytes_at (p_mem q) buf (optsz - 2) in
  option_run q0 start i0 vs a k p q i ii x optsz (check p start opt optsz buf) (judge a opt optsz body) (taken a opt optsz body)).
Context (taken_good : forall m a opt optsz buf, good a -> good (taken a opt optsz (bytes_at m buf (optsz - 2)))).

Lemma option_loop_run n q0 start (i0 : I) ii x vs a k p q i buf sz :
  answering q0 start i0 vs a k p q i -> good a -> 0 <= sz < 2 ^ 16 -> (Z.to_nat sz < n)%nat ->
  buf + sz <= start - 4 \/ start + k + sz <= buf ->
  let r := review judge taken n a (bytes_at (p_mem q0) buf sz) in
  exists p' q' i',
    option_loop check n p start buf sz (World_ q ii (part_put i x)) = Ok (p', World_ q' ii (part_put i' x))
    /\ answering q0 start i0 (vs ++ r.1) r.2 (k + sz) p' q' i'.
Proof.
  revert vs a k p q i buf sz. induction n as [|n IH]; intros vs a k p q i buf sz Ha Hm Hsz Hn Hap; [lia|].
  assert (Hk : 0 <= k) by (pose proof (an_fits _ _ _ _ _ _ _ _ _ Ha); lia).
  assert (Hreq : bytes_at (p_mem q) buf sz = bytes_at (p_mem q0) buf sz).
  { apply bytes_at_ext. intros y Hy. apply (an_frame _ _ _ _ _ _ _ _ _ Ha); lia. }
  rewrite <-Hreq. cbn [option_loop]; fold (option_loop check). destruct (Z.leb_spec 2 sz) as [H2|H2].
  2:{ exists p, q, i. split; [done|]. rewrite review_short by (pose proof (bytes_at_length (p_mem q) buf sz); lia). cbn. rewrite app_nil_r.
      eapply answering_le; [|exact Ha]. lia. }
  rewrite !w_rd8, bytes_at_two by lia. cbn [review]. rewrite bytes_at_length by lia.
  replace (sz - 2 + 2) with sz by lia.
  pose proof (load8_range (p_mem q) buf) as Ho. pose proof (load8_range (p_mem q) (buf + 1)) as Hz.
  set (opt := load8 (p_mem q) buf) in *. set (optsz := load8 (p_mem q) (buf + 1)) in *.
  destruct (Z.ltb_spec sz optsz) as [Hbig|Hfit]; [|destruct (Z.ltb_spec optsz 2) as [Hsmall|Hok]]; cbn [orb].
  1,2: destruct (rej_run q0 start i0 vs a k p q i ii x opt 2 (buf + 2) ltac:(lia) ltac:(cbn; lia) Ha ltac:(lia)) as (p' & q' & i' & E & H);
    exists p', q', i'; split; [exact E|]; eapply answering_le; [|exact H]; lia.
  destruct (bytes_at_split (p_mem q) (buf + 2) (sz - 2) (optsz - 2)) as [Et Ed]; [lia|]. rewrite Et, Ed.
  destruct (check_run q0 start i0 vs a k p q i ii x opt optsz (buf + 2) Hm ltac:(lia) ltac:(cbn; lia) Ha ltac:(lia)) as (p' & q' & i' & E & H).
  rewrite (st_run _ _ _ _ _ E). unfold u16. rewrite Z.mod_small by lia.
  destruct (IH _ _ _ _ _ _ (buf + 2 + (optsz - 2)) (sz - optsz) H) as (p2 & q2 & i2 & E2 & H3); try lia.
  { by apply taken_good. }
  exists p2, q2, i2. split; [exact E2|]. rewrite <-app_assoc in H3. cbn [fst snd].
  replace (k + optsz + (sz - optsz)) with (k + sz) in H3 by lia. replace (sz - 2 - (optsz - 2)) with (sz - optsz) by lia.
  replace (bytes_at (p_mem q) (buf + 2 + (optsz - 2)) (sz - optsz)) with (bytes_at (p_mem q0) (buf + 2 + (optsz - 2)) (sz - optsz)); [done|].
  symmetry. apply bytes_at_ext. intros y Hy. apply (an_frame _ _ _ _ _ _ _ _ _ Ha); lia.
Qed.

(** ** The whole routine *)

Lemma answering_start q start id (i : I) :
  answering (with_mem (start_mem CODE_CONF_ACK start id) q) (start + 4) i [] (settings i) 0 (start + 4) (with_mem (start_mem CODE_CONF_ACK start id) q)
    (set_parse_state PPP_USAGE_ACK i).
Proof.
  split; try done.
  - cbn. lia.
  - rewrite p_mem_with. replace (start + 4 - 4) with start by lia. unfold start_mem.
    rewrite !load8_store8_ne, load8_store8 by lia. done.
  - by rewrite settle_settings.
Qed.

(** What [answer_request] does to the request of [sz] bytes of options at [buf], from
    the pool [q] and the instance [i] to [q'] and [i']: the answer, the size field, the
    instance, and nothing else. *)
Definition answered (q : pool) (i : I) (buf sz id : Z) (q' : pool) (i' : I) : Prop :=
  let size := reply i + Nb.network_size in
  let start := load32 (p_mem q) (reply i + Nb.network) in
  let r := review judge taken (S (Z.to_nat sz)) (settings i) (bytes_at (p_mem q) buf sz) in
  let n := Z.of_nat (length (answer_packet id r.1)) in
  n <= 4 + sz
  /\ bytes_at (p_mem q') start n = answer_packet id r.1
  /\ load32 (p_mem q') size = n
  /\ i' = set_parse_state (worst r.1) (settle r.2 i)
  /\ q' = with_mem (fun _ => p_mem q') q
  /\ forall y, ~ start <= y < start + 4 + sz -> ~ size <= y < size + 4 -> load8 (p_mem q') y = load8 (p_mem q) y.

(** The request, the answer's buffer and the size field of its netbuf are apart. *)
Definition request_apart (q : pool) (i : I) (buf sz : Z) : Prop :=
  let size := reply i + Nb.network_size in
  let start := load32 (p_mem q) (reply i + Nb.network) in
  (buf + sz <= start \/ start + 4 + sz <= buf) /\ (size + 4 <= start \/ start + 4 + sz <= size).

Lemma request_answered q ii (x : X) buf sz id :
  let i : I := part_get x in
  good (settings i) -> 0 <= sz < 2 ^ 16 - 4 -> 0 <= id < 2 ^ 8 -> request_apart q i buf sz ->
  exists q' i', answer_request check buf sz id (World_ q ii x) = Ok (tt, World_ q' ii (part_put i' x))
    /\ answered q i buf sz id q' i'.
Proof.
  intros i Hg Hsz Hid [Hreq Hsize]. unfold answered. set (size := reply i + Nb.network_size) in *. set (start := load32 _ (reply i + Nb.network)) in *.
  set (r := review _ _ _ _ _). set (n := Z.of_nat _). cbv zeta. set (q0 := with_mem (start_mem CODE_CONF_ACK start id) q).
  assert (H0 : forall y, ~ start <= y < start + 4 -> load8 (p_mem q0) y = load8 (p_mem q) y).
  { intros y Hy. unfold q0. rewrite p_mem_with. unfold start_mem. by rewrite !load8_store8_ne by lia. }
  assert (Er : r = review judge taken (S (Z.to_nat sz)) (settings i) (bytes_at (p_mem q0) buf sz)).
  { unfold r. f_equal. symmetry. apply bytes_at_ext. intros y Hy. apply H0. lia. }
  destruct (option_loop_run (S (Z.to_nat sz)) q0 (start + 4) i ii x [] (settings i) 0 (start + 4) q0
    (set_parse_state PPP_USAGE_ACK i) buf sz) as (p' & q1 & i' & E & Ha); try done; try lia.
  { apply answering_start. }
  cbn [app] in Ha. rewrite <-Er in Ha. destruct (answering_state _ _ _ _ _ _ _ _ _ Ha) as (Est & _ & Hw).
  destruct Ha as [Hp _ He Hf Hc Hb Hfr Hi].
  assert (En : n = 4 + Z.of_nat (length (answer r.1))) by (unfold n, answer_packet, be16; rewrite !length_app; cbn; lia).
  exists (with_mem (finish_mem start size n) q1), i'.
  assert (Hid1 : load8 (p_mem q1) (start + 1) = id).
  { rewrite Hfr by lia. unfold q0. rewrite p_mem_with. unfold start_mem. rewrite !(load8_store8_ne _ _ (start + 1)), load8_store8 by lia.
    by apply u8_small. }
  replace (start + 4 - 4) with start in Hc, Hfr by lia.
  destruct (finish_bytes start size n (p_mem q1) id _ (answer r.1) sz En ltac:(lia) ltac:(lia) Hsize Hc Hid1 Hb) as [B1 B2].
  rewrite !p_mem_with. split_and!; try done; try lia.
  - unfold answer_request. rewrite part_mod, part_gets, part_get_put, w_rd32, reply_set. fold i start.
    rewrite !w_wr8. cbv zeta. erewrite st_run; [|exact E]. fold size.
    replace (p' - (start + 4)) with (n - 4) by lia. rewrite u16_small by lia. replace (4 + (n - 4)) with n by lia.
    rewrite w_wr32, w_rd32, p_mem_with, load32_store32, u16_small by lia.
    replace (start + 4 - 2) with (start + 2) by lia. reflexivity.
  - rewrite B1. unfold answer_packet. by rewrite En.
  - rewrite Hp. done.
  - intros y H1 H2. unfold finish_mem. rewrite load8_store16_ne, load8_store32_ne, Hfr by lia. apply H0. lia.
Qed.
End answer.
End options.
