(* ===== verification/LcpReq.v ===== *)
(** * The answer to a Configure-Request of the link

    [lcp_check_request] is the routine of [ConfReq.v] with the options of LCP: the
    maximum receive unit and the map of escaped control characters.  The reference
    [judge] says what becomes of an option; the theorem shows that the routine writes
    exactly the reference answer, takes the settings over from the acknowledged
    options, stays inside the buffer of the answer, and comes to its end for every
    request. *)

From stdpp Require Import base list gmap fin_maps strings.
From Stdlib Require Import ZArith Lia.
From S2P Require Import Prelude Heap Membuf NetbufMem Ip Parts Oneshot PppTable Ppp ConfReq.
Open Scope Z_scope.

(** ** The link as a negotiator *)

(** The settings: MRU and map. *)
#[export] Instance lcp_negotiator : Negotiator ppp_instance (Z * Z).
Proof.
  refine {|
    parse_state := pi_parse_state;
    set_parse_state s i := i <| pi_parse_state := s |>;
    reply := pi_send;
    settings i := (pi_mru i, pi_accm i);
    settle a i := i <| pi_mru := a.1 |> <| pi_accm := a.2 |> |}; try done; by intros [].
Defined.

(** ** The reference *)

Section reference.
Context (stack : list Z).

(** An option [opt] of [optsz] bytes in all, [body] without its two-byte head.  A
    suggestion of another length than the value has goes on with what lies behind the
    local variable. *)
Definition judge (a : Z * Z) (opt optsz : Z) (body : list Z) : list verdict :=
  if opt =? 0x01 then
    if optsz =? 4 then [(PPP_USAGE_ACK, opt :: optsz :: body)]
    else [(PPP_USAGE_NAK, opt :: optsz :: take (Z.to_nat (optsz - 2)) (be16 a.1 ++ stack))]
  else if opt =? 0x02 then
    if (optsz =? 6) && accm_acceptable (be_value body) then [(PPP_USAGE_ACK, opt :: optsz :: body)]
    else [(PPP_USAGE_NAK, opt :: optsz :: take (Z.to_nat (optsz - 2)) (be32 0xff0f0f0f ++ stack))]
  else [(PPP_USAGE_REJ, opt :: optsz :: body)].
End reference.

Definition taken (a : Z * Z) (opt optsz : Z) (body : list Z) : Z * Z :=
  if (opt =? 0x01) && (optsz =? 4) then (be_value body, a.2)
  else if (opt =? 0x02) && (optsz =? 6) && accm_acceptable (be_value body) then (a.1, be_value body)
  else a.

(** ** The options *)

Lemma mru_always_acceptable mru : mru_acceptable mru = true.
Proof. unfold mru_acceptable. lia. Qed.

Lemma be16_le v : 0 <= v < 2 ^ 16 -> le16 (hton16 v) = be16 v.
Proof.
  intros H. pose proof (hton16_bytes v H) as [H1 H2]. unfold le16, be16, u8 in *. f_equal; [done|]. f_equal. rewrite <-H2.
  assert (0 <= hton16 v < 2 ^ 16) by (unfold hton16, xchgb; Z.div_mod_to_equations; lia).
  symmetry. apply Z.mod_small. split; [apply Z.div_pos; lia|apply Z.div_lt_upper_bound; lia].
Qed.

Lemma be16_bytes v : 0 <= v < 2 ^ 16 -> Forall (fun b => 0 <= b < 2 ^ 8) (be16 v).
Proof. intros H. unfold be16. repeat constructor; Z.div_mod_to_equations; lia. Qed.

Lemma be_value16 m a : hton16 (load16 m a) = be_value (bytes_at m a 2).
Proof.
  unfold bytes_at. change (seqZ 0 2) with [0; 1]. cbn [fmap list_fmap be_value foldl]. rewrite Z.add_0_r.
  pose proof (load8_range m a). pose proof (load8_range m (a + 1)). unfold load16, hton16.
  replace (load8 m a + 2 ^ 8 * load8 m (a + 1)) with (0 * 2 ^ 16 + load8 m (a + 1) * 2 ^ 8 + load8 m a) by lia.
  rewrite xchgb_join by lia. unfold be_value. cbn. lia.
Qed.

Section request.
Context {X : Type} `{PI : Part X ppp_instance}.
Context (stack : list Z) (stack_long : (253 <= length stack)%nat) (stack_bytes : Forall (fun b => 0 <= b < 2 ^ 8) stack).

Definition mru_fits (a : Z * Z) : Prop := 0 <= a.1 < 2 ^ 16.

Lemma lcp_check_request_eq buf sz id :
  lcp_check_request (X:=X) stack buf sz id = answer_request (I:=ppp_instance) stack (check_option stack) buf sz id.
Proof. reflexivity. Qed.

Lemma nak_run q0 start (i0 : ppp_instance) vs a k p q i ii (x : X) opt optsz l :
  0 <= opt < 2 ^ 8 -> Forall (fun b => 0 <= b < 2 ^ 8) l ->
  option_run q0 start i0 vs a k p q i ii x optsz (frame_nak stack p start opt optsz (Local l))
    [(PPP_USAGE_NAK, opt :: optsz :: take (Z.to_nat (optsz - 2)) (l ++ stack))] a.
Proof. intros Ho Hl. exact (frame_run stack stack_long stack_bytes q0 start i0 vs a k p q i ii x PPP_USAGE_NAK opt optsz (Local l) ltac:(by cbv) Ho Hl). Qed.

Lemma lcp_option_run q0 start (i0 : ppp_instance) vs a k p q i ii (x : X) opt optsz buf :
  mru_fits a -> 0 <= opt < 2 ^ 8 -> source_clear start k optsz (In_packet buf) ->
  let body := bytes_at (p_mem q) buf (optsz - 2) in
  option_run q0 start i0 vs a k p q i ii x optsz (check_option stack p start opt optsz buf)
    (judge stack a opt optsz body) (taken a opt optsz body).
Proof.
  intros Hm Ho Hc body. intros Ha Hs. destruct (answering_state _ _ _ _ _ _ _ _ _ Ha) as (_ & Eset & _).
  assert (Emru : pi_mru i = a.1) by by rewrite <-Eset. unfold check_option, judge, taken.
  destruct (Z.eqb_spec opt 0x01) as [->|]; [|destruct (Z.eqb_spec opt 0x02) as [->|]]; cbn [andb].
  - unfold check_mru. rewrite part_gets, part_get_put, Emru, w_rd16, mru_always_acceptable, andb_true_r, be_value16.
    destruct (Z.eqb_spec optsz 4) as [E|].
    + replace (bytes_at (p_mem q) buf 2) with body by (unfold body; by rewrite E).
      refine (ack_run stack stack_long stack_bytes q0 start i0 vs a k p q i ii x 0x01 optsz buf _ (be_value body, a.2) Ho Hc _ Ha Hs).
      intros j <-. by destruct j.
    + rewrite be16_le by done. apply (nak_run q0 start i0 vs a k p q i ii x); try done. by apply be16_bytes.
  - unfold check_accm. rewrite w_rd32, be_value32. destruct (Z.eqb_spec optsz 6) as [E|]; cbn [andb].
    + replace (bytes_at (p_mem q) buf 4) with body by (unfold body; by rewrite E). destruct (accm_acceptable (be_value body)).
      * refine (ack_run stack stack_long stack_bytes q0 start i0 vs a k p q i ii x 0x02 optsz buf _ (a.1, be_value body) Ho Hc _ Ha Hs).
        intros j <-. by destruct j.
      * apply (nak_run q0 start i0 vs a k p q i ii x); try done. by repeat constructor.
    + apply (nak_run q0 start i0 vs a k p q i ii x); try done. by repeat constructor.
  - exact (rej_run stack stack_long stack_bytes q0 start i0 vs a k p q i ii x opt optsz buf Ho Hc Ha Hs).
Qed.

Lemma taken_fits m a opt optsz buf : mru_fits a -> mru_fits (taken a opt optsz (bytes_at m buf (optsz - 2))).
Proof.
  intros H. unfold taken. destruct ((opt =? 0x01) && (optsz =? 4)) eqn:E; [|by destruct (_ && accm_acceptable _)].
  apply andb_true_iff in E as [_ ->%Z.eqb_eq]. unfold bytes_at. change (seqZ 0 (4 - 2)) with [0; 1]. unfold mru_fits. cbn.
  pose proof (load8_range m (buf + 0)). pose proof (load8_range m (buf + 1)). lia.
Qed.

(** The answer to any Configure-Request of the link. *)
Lemma lcp_request_answered q ii (x : X) buf sz id :
  let i : ppp_instance := part_get x in
  0 <= sz < 2 ^ 16 - 4 -> 0 <= id < 2 ^ 8 -> 0 <= pi_mru i < 2 ^ 16 -> request_apart q i buf sz ->
  exists q' i',
    lcp_check_request stack buf sz id (World_ q ii x) = Ok (tt, World_ q' ii (part_put i' x))
    /\ answered (judge stack) taken q i buf sz id q' i'.
Proof.
  intros i Hsz Hid Hmru Hap. rewrite lcp_check_request_eq.
  by apply (request_answered stack stack_long stack_bytes (judge stack) taken mru_fits _ lcp_option_run taken_fits).
Qed.
End request.
