(* ===== verification/PppIp.v ===== *)
(** * IP over PPP (src/lib/ppp_ip/ppp_ip.c, include/ppp_ip.h)

    The IP control protocol: the automaton of LCP once more, with its own copy of the
    transition table, over the PPP instance whose client it is, and with one option,
    the IP address.  When the link comes up [ipcp_link_up] starts the negotiation.
    IP packets pass through to the one client of the datalink instance whatever the
    state of the automaton is.

    The conventions are those of Ppp.v.  The PPP service ([ps_send]) and the client
    ([idc_recv]) are parameters. *)

From stdpp Require Import base list gmap fin_maps strings.
From Stdlib Require Import ZArith Lia.
From S2P Require Import Prelude Heap Membuf NetbufMem Ip Parts Oneshot Ethernet EthernetIp PppTable Ppp.
Open Scope Z_scope.

(** ** The transition table *)

Definition ipcp_up : list transition :=
  [T_ ACTION_NONE STATE_CLOSED;
   T_ ACTION_IRC_SCR STATE_REQ_SENT;
   T_ ACTION_NONE STATE_CLOSED;
   T_ ACTION_NONE STATE_STOPPED;
   T_ ACTION_NONE STATE_CLOSING;
   T_ ACTION_NONE STATE_STOPPING;
   T_ ACTION_NONE STATE_REQ_SENT;
   T_ ACTION_NONE STATE_ACK_RCVD;
   T_ ACTION_NONE STATE_ACK_SENT;
   T_ ACTION_NONE STATE_OPENED].

Definition ipcp_down : list transition :=
  [T_ ACTION_NONE STATE_INITIAL;
   T_ ACTION_NONE STATE_STARTING;
   T_ ACTION_NONE STATE_INITIAL;
   T_ ACTION_TLS STATE_STARTING;
   T_ ACTION_NONE STATE_INITIAL;
   T_ ACTION_NONE STATE_STARTING;
   T_ ACTION_NONE STATE_STARTING;
   T_ ACTION_NONE STATE_STARTING;
   T_ ACTION_NONE STATE_STARTING;
   T_ ACTION_TLD STATE_STARTING].

Definition ipcp_open : list transition :=
  [T_ ACTION_TLS STATE_STARTING;
   T_ ACTION_NONE STATE_STARTING;
   T_ ACTION_IRC_SCR STATE_REQ_SENT;
   T_ ACTION_NONE STATE_STOPPED;
   T_ ACTION_NONE STATE_STOPPING;
   T_ ACTION_NONE STATE_STOPPING;
   T_ ACTION_NONE STATE_REQ_SENT;
   T_ ACTION_NONE STATE_ACK_RCVD;
   T_ ACTION_NONE STATE_ACK_SENT;
   T_ ACTION_NONE STATE_OPENED].

Definition ipcp_close : list transition :=
  [T_ ACTION_NONE STATE_INITIAL;
   T_ ACTION_TLF STATE_INITIAL;
   T_ ACTION_NONE STATE_CLOSED;
   T_ ACTION_NONE STATE_CLOSED;
   T_ ACTION_NONE STATE_CLOSING;
   T_ ACTION_NONE STATE_CLOSING;
   T_ ACTION_IRC_STR STATE_CLOSING;
   T_ ACTION_IRC_STR STATE_CLOSING;
   T_ ACTION_IRC_STR STATE_CLOSING;
   T_ ACTION_TLD_IRC_STR STATE_CLOSING].

Definition ipcp_to_p : list transition :=
  [T_ ACTION_NONE STATE_INITIAL;
   T_ ACTION_NONE STATE_STARTING;
   T_ ACTION_NONE STATE_CLOSED;
   T_ ACTION_NONE STATE_STOPPED;
   T_ ACTION_STR STATE_CLOSING;
   T_ ACTION_STR STATE_STOPPING;
   T_ ACTION_SCR STATE_REQ_SENT;
   T_ ACTION_SCR STATE_REQ_SENT;
   T_ ACTION_SCR STATE_ACK_SENT;
   T_ ACTION_NONE STATE_OPENED].

Definition ipcp_to_m : list transition :=
  [T_ ACTION_NONE STATE_INITIAL;
   T_ ACTION_NONE STATE_STARTING;
   T_ ACTION_NONE STATE_CLOSED;
   T_ ACTION_NONE STATE_STOPPED;
   T_ ACTION_TLF STATE_CLOSED;
   T_ ACTION_TLF STATE_STOPPED;
   T_ ACTION_TLF STATE_STOPPED;
   T_ ACTION_TLF STATE_STOPPED;
   T_ ACTION_TLF STATE_STOPPED;
   T_ ACTION_NONE STATE_OPENED].

Definition ipcp_rcr_p : list transition :=
  [T_ ACTION_NONE STATE_INITIAL;
   T_ ACTION_NONE STATE_STARTING;
   T_ ACTION_STA STATE_CLOSED;
   T_ ACTION_IRC_SCR_SCA STATE_ACK_SENT;
   T_ ACTION_NONE STATE_CLOSING;
   T_ ACTION_NONE STATE_STOPPING;
   T_ ACTION_SCA STATE_ACK_SENT;
   T_ ACTION_SCA_TLU STATE_OPENED;
   T_ ACTION_SCA STATE_ACK_SENT;
   T_ ACTION_TLD_SCR_SCA STATE_ACK_SENT].

Definition ipcp_rcr_m : list transition :=
  [T_ ACTION_NONE STATE_INITIAL;
   T_ ACTION_NONE STATE_STARTING;
   T_ ACTION_STA STATE_CLOSED;
   T_ ACTION_IRC_SCR_SCN STATE_REQ_SENT;
   T_ ACTION_NONE STATE_CLOSING;
   T_ ACTION_NONE STATE_STOPPING;
   T_ ACTION_SCN STATE_REQ_SENT;
   T_ ACTION_SCN STATE_ACK_RCVD;
   T_ ACTION_SCN STATE_REQ_SENT;
   T_ ACTION_TLD_SCR_SCN STATE_REQ_SENT].

Definition ipcp_rca : list transition :=
  [T_ ACTION_NONE STATE_INITIAL;
   T_ ACTION_NONE STATE_STARTING;
   T_ ACTION_STA STATE_CLOSED;
   T_ ACTION_STA STATE_STOPPED;
   T_ ACTION_NONE STATE_CLOSING;
   T_ ACTION_NONE STATE_STOPPING;
   T_ ACTION_IRC STATE_ACK_RCVD;
   T_ ACTION_SCR STATE_REQ_SENT;
   T_ ACTION_IRC_TLU STATE_OPENED;
   T_ ACTION_TLD_SCR STATE_REQ_SENT].

Definition ipcp_rcn : list transition :=
  [T_ ACTION_NONE STATE_INITIAL;
   T_ ACTION_NONE STATE_STARTING;
   T_ ACTION_STA STATE_CLOSED;
   T_ ACTION_STA STATE_STOPPED;
   T_ ACTION_NONE STATE_CLOSING;
   T_ ACTION_NONE STATE_STOPPING;
   T_ ACTION_IRC_SCR STATE_REQ_SENT;
   T_ ACTION_SCR STATE_REQ_SENT;
   T_ ACTION_IRC_SCR STATE_ACK_SENT;
   T_ ACTION_TLD_SCR STATE_REQ_SENT].

Definition ipcp_rtr : list transition :=
  [T_ ACTION_NONE STATE_INITIAL;
   T_ ACTION_NONE STATE_STARTING;
   T_ ACTION_STA STATE_CLOSED;
   T_ ACTION_STA STATE_STOPPED;
   T_ ACTION_STA STATE_CLOSING;
   T_ ACTION_STA STATE_STOPPING;
   T_ ACTION_STA STATE_REQ_SENT;
   T_ ACTION_STA STATE_REQ_SENT;
   T_ ACTION_STA STATE_REQ_SENT;
   T_ ACTION_TLD_ZRC_STA STATE_STOPPING].

Definition ipcp_rta : list transition :=
  [T_ ACTION_NONE STATE_INITIAL;
   T_ ACTION_NONE STATE_STARTING;
   T_ ACTION_NONE STATE_CLOSED;
   T_ ACTION_NONE STATE_STOPPED;
   T_ ACTION_TLF STATE_CLOSED;
   T_ ACTION_TLF STATE_STOPPED;
   T_ ACTION_NONE STATE_REQ_SENT;
   T_ ACTION_NONE STATE_REQ_SENT;
   T_ ACTION_NONE STATE_ACK_SENT;
   T_ ACTION_TLD_SCR STATE_REQ_SENT].

Definition ipcp_ruc : list transition :=
  [T_ ACTION_NONE STATE_INITIAL;
   T_ ACTION_NONE STATE_STARTING;
   T_ ACTION_SCJ STATE_CLOSED;
   T_ ACTION_SCJ STATE_STOPPED;
   T_ ACTION_SCJ STATE_CLOSING;
   T_ ACTION_SCJ STATE_STOPPING;
   T_ ACTION_SCJ STATE_REQ_SENT;
   T_ ACTION_SCJ STATE_ACK_RCVD;
   T_ ACTION_SCJ STATE_ACK_SENT;
   T_ ACTION_SCJ STATE_OPENED].

Definition ipcp_rxj_p : list transition :=
  [T_ ACTION_NONE STATE_INITIAL;
   T_ ACTION_NONE STATE_STARTING;
   T_ ACTION_NONE STATE_CLOSED;
   T_ ACTION_NONE STATE_STOPPED;
   T_ ACTION_NONE STATE_CLOSING;
   T_ ACTION_NONE STATE_STOPPING;
   T_ ACTION_NONE STATE_REQ_SENT;
   T_ ACTION_NONE STATE_REQ_SENT;
   T_ ACTION_NONE STATE_ACK_SENT;
   T_ ACTION_NONE STATE_OPENED].

Definition ipcp_rxj_m : list transition :=
  [T_ ACTION_NONE STATE_INITIAL;
   T_ ACTION_NONE STATE_STARTING;
   T_ ACTION_TLF STATE_CLOSED;
   T_ ACTION_TLF STATE_STOPPED;
   T_ ACTION_TLF STATE_CLOSED;
   T_ ACTION_TLF STATE_STOPPED;
   T_ ACTION_TLF STATE_STOPPED;
   T_ ACTION_TLF STATE_STOPPED;
   T_ ACTION_TLF STATE_STOPPED;
   T_ ACTION_TLD_IRC_STR STATE_STOPPING].

Definition ipcp_rxr : list transition :=
  [T_ ACTION_NONE STATE_INITIAL;
   T_ ACTION_NONE STATE_STARTING;
   T_ ACTION_NONE STATE_CLOSED;
   T_ ACTION_NONE STATE_STOPPED;
   T_ ACTION_NONE STATE_CLOSING;
   T_ ACTION_NONE STATE_STOPPING;
   T_ ACTION_NONE STATE_REQ_SENT;
   T_ ACTION_NONE STATE_ACK_RCVD;
   T_ ACTION_NONE STATE_ACK_SENT;
   T_ ACTION_SER STATE_OPENED].

Definition ipcp_trans : list (list transition) :=
  [ipcp_up; ipcp_down; ipcp_open; ipcp_close; ipcp_to_p; ipcp_to_m; ipcp_rcr_p; ipcp_rcr_m; ipcp_rca; ipcp_rcn; ipcp_rtr; ipcp_rta; ipcp_ruc; ipcp_rxj_p; ipcp_rxj_m; ipcp_rxr].

(** The two copies agree. *)
Lemma ipcp_trans_is_lcp : ipcp_trans = ppp_trans.
Proof. reflexivity. Qed.

Definition ipcp_transition (event state : Z) : option transition :=
  row ← ipcp_trans !! Z.to_nat event; row !! Z.to_nat state.

(** ** The instance *)

(** [struct ppp_ip_instance] with the [struct ip_datalink_instance] it starts with. *)
Record ppp_ip_instance := Ppp_ip_instance_ {
  pii_self : Z;
  pii_lock : bool; (* [idi_lock] *)
  pii_mru : Z;
  pii_mtu : Z;
  pii_client : option ip_datalink_client;
  pii_ip_server : option ppp_server;
  pii_ipcp_server : option ppp_server;
  pii_phase : Z;
  pii_state : Z;
  pii_ident : Z;
  pii_timeout_timer : tid;
  pii_restart_counter : Z;
  pii_send : Z;
  pii_parse_state : Z;
  pii_remote_ip_addr : Z;
  pii_local_ip_addr : Z;
  pii_local_ip_addr_usage : Z }.
#[export] Instance eta_ppp_ip_instance : Eta ppp_ip_instance := fun i =>
  Ppp_ip_instance_ (pii_self i) (pii_lock i) (pii_mru i) (pii_mtu i) (pii_client i) (pii_ip_server i) (pii_ipcp_server i)
    (pii_phase i) (pii_state i) (pii_ident i) (pii_timeout_timer i) (pii_restart_counter i) (pii_send i)
    (pii_parse_state i) (pii_remote_ip_addr i) (pii_local_ip_addr i) (pii_local_ip_addr_usage i).

Definition sizeof_ppp_ip_instance : Z := 68.

Module Ipcp.
Section ipcp.
Context {X : Type} `{Part X ppp_ip_instance} `{Part X timers}.
Context (ps_send : ppp_server -> Z -> W X unit)
        (idc_recv : ip_datalink_client -> Z -> W X unit).

Definition lock_pii : W X unit := lock_part pii_lock (fun l i => i <| pii_lock := l |>).
Definition unlock_pii : W X unit := unlock_part pii_lock (fun l i => i <| pii_lock := l |>).

(** ** Sending *)

Definition ipcp_send_netbuf (nb : Z) : W X unit :=
  s ← get_part pii_ipcp_server;
  ps ← not_null "NULL pii_ipcp_server" s;
  mem_ (membuf_ref (ps_self ps));;
  unlock_pii;;
  ps_send ps nb;;
  deref_ (ps_self ps);;
  lock_pii.

(** The address as an option of a request, if it is to be used; the result is the
    advanced pointer. *)
Definition put_addr (p : Z) : W X Z :=
  u ← get_part pii_local_ip_addr_usage;
  if u =? PPP_USAGE_ACK then
    addr ← get_part pii_local_ip_addr;
    mem_ (wr8 p 0x03);;
    mem_ (wr8 (p + 1) 6);;
    mem_ (wr32 (p + 2) (hton32 addr));;
    mret (p + 6)
  else mret p.

Definition ipcp_build_req (nb : Z) : W X unit :=
  mod_part (fun i => i <| pii_ident := u8 (pii_ident i + 1) |>);;
  p ← mem_ (rd32 (nb + Nb.network));
  ident ← get_part pii_ident;
  mem_ (wr8 p CODE_CONF_REQ);;
  mem_ (wr8 (p + 1) ident);;
  mem_ (wr8 (p + 2) 0);;
  mem_ (wr8 (p + 3) 4);;
  let reply_start := p + 4 in
  p ← put_addr reply_start;
  mem_ (wr32 (nb + Nb.network_size) (4 + u16 (p - reply_start)));;
  sz ← mem_ (rd32 (nb + Nb.network_size));
  mem_ (wr16 (reply_start - 2) (hton16 (u16 sz))).

(** [pii->pii_send = netbuf_alloc(); ...] *)
Definition new_reply (size used : Z) : W X unit :=
  nb ← mem_ (new_packet size used);
  mod_part (fun i => i <| pii_send := nb |>).

(** Both have empty bodies. *)
Definition ipcp_implement_options : W X unit := mret tt.
Definition ipcp_default_options : W X unit := mret tt.

(** ** Actions *)

Definition set_phase (phase : Z) : W X unit := mod_part (fun i => i <| pii_phase := phase |>).

Definition action_irc : W X unit :=
  mod_part (fun i => i <| pii_restart_counter :=
    if pii_phase i =? PHASE_TERMINATE then RESTART_MAX_TERMINATE else RESTART_MAX_CONFIGURE |>).

Definition restart_timer : W X unit :=
  t ← get_part pii_timeout_timer;
  timer_detach t;;
  timer_attach t.

Definition action_zrc : W X unit :=
  mod_part (fun i => i <| pii_restart_counter := 0 |>);;
  restart_timer.

Definition send_and_wait (nb : Z) : W X unit :=
  t ← get_part pii_timeout_timer;
  timer_set t TIMEOUT_TICKS;;
  restart_timer;;
  ipcp_send_netbuf nb;;
  deref_ nb.

Definition action_scr : W X unit :=
  c ← get_part pii_restart_counter;
  if 0 <? c then
    mod_part (fun i => i <| pii_restart_counter := u8 (pii_restart_counter i - 1) |>);;
    nb ← mem_ (new_packet 1500 0);
    ipcp_build_req nb;;
    send_and_wait nb
  else mret tt.

Definition action_str : W X unit :=
  c ← get_part pii_restart_counter;
  if 0 <? c then
    mod_part (fun i => i <| pii_restart_counter := u8 (pii_restart_counter i - 1) |>);;
    nb ← mem_ (new_packet 4 4);
    p ← mem_ (rd32 (nb + Nb.network));
    ident ← get_part pii_ident;
    mod_part (fun i => i <| pii_ident := u8 (pii_ident i + 1) |>);;
    mem_ (wr8 p CODE_TERM_REQ);;
    mem_ (wr8 (p + 1) ident);;
    mem_ (wr8 (p + 2) 0);;
    mem_ (wr8 (p + 3) 4);;
    send_and_wait nb
  else mret tt.

(** [ACTION_SCA], [ACTION_SCN] and [ACTION_STA]. *)
Definition send_reply : W X unit :=
  nb ← get_part pii_send;
  ipcp_send_netbuf nb;;
  nb ← get_part pii_send;
  deref_ nb.

(** The [switch]; [do] is the recursive call of the compound actions. *)
Definition action_step (do : Z -> W X unit) (action : Z) : W X unit :=
  if action =? ACTION_TLU then ipcp_implement_options;; set_phase PHASE_NETWORK
  else if action =? ACTION_TLD then ipcp_default_options;; set_phase PHASE_TERMINATE
  else if action =? ACTION_TLS then set_phase PHASE_ESTABLISH
  else if action =? ACTION_TLF then set_phase PHASE_DEAD
  else if action =? ACTION_IRC then action_irc
  else if action =? ACTION_ZRC then action_zrc
  else if action =? ACTION_SCR then action_scr
  else if action =? ACTION_SCA then send_reply
  else if action =? ACTION_SCN then send_reply
  else if action =? ACTION_STR then action_str
  else if action =? ACTION_STA then send_reply
  else if action =? ACTION_SCJ then mret tt
  else if action =? ACTION_SER then mret tt
  else if action =? ACTION_TLD_SCR then do ACTION_TLD;; do ACTION_SCR
  else if action =? ACTION_IRC_TLU then do ACTION_IRC;; do ACTION_TLU
  else if action =? ACTION_IRC_SCR then do ACTION_IRC;; do ACTION_SCR
  else if action =? ACTION_IRC_STR then do ACTION_IRC;; do ACTION_STR
  else if action =? ACTION_SCA_TLU then do ACTION_SCA;; do ACTION_TLU
  else if action =? ACTION_TLD_IRC_STR then do ACTION_TLD;; do ACTION_IRC_STR
  else if action =? ACTION_TLD_SCR_SCA then do ACTION_TLD_SCR;; do ACTION_SCA
  else if action =? ACTION_TLD_SCR_SCN then do ACTION_TLD_SCR;; do ACTION_SCN
  else if action =? ACTION_TLD_ZRC_STA then do ACTION_TLD;; do ACTION_ZRC;; do ACTION_STA
  else if action =? ACTION_IRC_SCR_SCA then do ACTION_IRC_SCR;; do ACTION_SCA
  else if action =? ACTION_IRC_SCR_SCN then do ACTION_IRC_SCR;; do ACTION_SCN
  else mret tt.

(** A compound action is at most two calls deep ([ipcp_action_depth]). *)
Fixpoint handle_action (depth : nat) (action : Z) : W X unit :=
  match depth with
  | O => fun _ => Fuel
  | S depth => action_step (handle_action depth) action
  end.

Lemma ipcp_action_step_ext do do' action :
  (forall a, (action_level a < action_level action)%nat -> do a = do' a) -> action_step do action = action_step do' action.
Proof.
  intros Hd. unfold action_step.
  repeat (match goal with |- (if action =? ?c then _ else _) = _ => destruct (Z.eqb_spec action c) as [->|] end;
    [first [reflexivity|rewrite !Hd by (apply Nat.ltb_lt; reflexivity); reflexivity]|]).
  reflexivity.
Qed.

(** Three levels are enough for every action: more make no difference. *)
Lemma ipcp_action_depth n action : handle_action (3 + n) action = handle_action 3 action.
Proof.
  assert (Hd : forall d d' a, (action_level a < d)%nat -> (action_level a < d')%nat -> handle_action d a = handle_action d' a).
  { intros d. induction d as [|d IH]; intros [|d'] a H1 H2; [lia..|]. cbn [handle_action]. apply ipcp_action_step_ext.
    intros b Hb. apply IH; lia. }
  apply Hd; unfold action_level; repeat case_match; lia.
Qed.

Definition handle_event (event : Z) : W X unit :=
  state ← get_part pii_state;
  match ipcp_transition event state with
  | None => fun _ => Stop "outside the transition table"
  | Some t =>
    handle_action 3 (t_action t);;
    (if (t_next_state t <=? STATE_STOPPED) || (t_next_state t =? STATE_OPENED) then
       tm ← get_part pii_timeout_timer; timer_detach tm
     else mret tt);;
    mod_part (fun i => i <| pii_state := t_next_state t |>)
  end.

Definition ipcp_tick_timeout : W X unit :=
  lock_pii;;
  mod_part (fun i => i <| pii_ident := u8 (pii_ident i - 1) |>);;
  c ← get_part pii_restart_counter;
  handle_event (if negb (c =? 0) then EVENT_TO_P else EVENT_TO_M);;
  unlock_pii.

(** ** Received options *)

(** Options are only ever copied from the packet. *)
Definition put_option (p opt optsz buf : Z) : P Z :=
  wr8 p opt;;
  wr8 (p + 1) optsz;;
  memcpy (p + 2) buf (optsz - 2);;
  mret (p + 2 + (optsz - 2)).

Definition frame_rej (p reply_start opt optsz buf : Z) : W X Z :=
  s ← get_part pii_parse_state;
  p ← (if s <? PPP_USAGE_REJ then
         mem_ (wr8 (reply_start - 4) CODE_CONF_REJ);;
         mod_part (fun i => i <| pii_parse_state := PPP_USAGE_REJ |>);;
         mret reply_start
       else mret p);
  mem_ (put_option p opt optsz buf).

Definition frame_nak (p reply_start opt optsz buf : Z) : W X Z :=
  s ← get_part pii_parse_state;
  p ← (if s <? PPP_USAGE_NAK then
         mem_ (wr8 (reply_start - 4) CODE_CONF_NAK);;
         mod_part (fun i => i <| pii_parse_state := PPP_USAGE_NAK |>);;
         mret reply_start
       else mret p);
  s ← get_part pii_parse_state;
  if s <=? PPP_USAGE_NAK then mem_ (put_option p opt optsz buf) else mret p.

Definition frame_ack (p opt optsz buf : Z) : W X Z :=
  s ← get_part pii_parse_state;
  if s <=? PPP_USAGE_ACK then mem_ (put_option p opt optsz buf) else mret p.

(** The [switch] on the option. *)
Definition check_option (p reply_start opt optsz buf : Z) : W X Z :=
  if opt =? 0x03 then
    if optsz =? 6 then
      addr ← mem_ (rd32 buf);
      p ← frame_ack p opt optsz buf;
      mod_part (fun i => i <| pii_remote_ip_addr := hton32 addr |>);;
      mret p
    else mret p
  else frame_rej p reply_start opt optsz buf.

Fixpoint check_options (fuel : nat) (p reply_start buf sz : Z) : W X Z :=
  match fuel with
  | O => fun _ => Fuel
  | S fuel =>
    if 2 <=? sz then
      opt ← mem_ (rd8 buf);
      optsz ← mem_ (rd8 (buf + 1));
      if (sz <? optsz) || (optsz <? 2) then frame_rej p reply_start opt 2 (buf + 2)
      else
        p ← check_option p reply_start opt optsz (buf + 2);
        check_options fuel p reply_start (buf + 2 + (optsz - 2)) (u16 (sz - optsz))
    else mret p
  end.

Definition ipcp_check_request (buf sz id : Z) : W X unit :=
  mod_part (fun i => i <| pii_parse_state := PPP_USAGE_ACK |>);;
  nb ← get_part pii_send;
  p ← mem_ (rd32 (nb + Nb.network));
  mem_ (wr8 p CODE_CONF_ACK);;
  mem_ (wr8 (p + 1) id);;
  mem_ (wr8 (p + 2) 0);;
  mem_ (wr8 (p + 3) 4);;
  let reply_start := p + 4 in
  p ← check_options (S (Z.to_nat sz)) reply_start reply_start buf sz;
  mem_ (wr32 (nb + Nb.network_size) (4 + u16 (p - reply_start)));;
  n ← mem_ (rd32 (nb + Nb.network_size));
  mem_ (wr16 (reply_start - 2) (hton16 (u16 n))).

Definition ack_option (opt optsz buf : Z) : W X unit :=
  if (opt =? 0x03) && (optsz =? 6) then
    addr ← mem_ (rd32 buf);
    mod_part (fun i => i <| pii_local_ip_addr := hton32 addr |> <| pii_local_ip_addr_usage := PPP_USAGE_ACK |>)
  else mret tt.

Definition ipcp_check_ack (buf sz : Z) : W X unit := walk_options (S (Z.to_nat sz)) ack_option buf sz.

Definition reject_option (opt optsz buf : Z) : W X unit :=
  if opt =? 0x03 then mod_part (fun i => i <| pii_local_ip_addr_usage := PPP_USAGE_REJ |>) else mret tt.

Definition ipcp_check_reject (buf sz : Z) : W X unit := walk_options (S (Z.to_nat sz)) reject_option buf sz.

(** ** Receiving *)

Definition recv_conf_req (p rlen rid : Z) : W X unit :=
  new_reply 1500 0;;
  ipcp_check_request p (u16 (rlen - 4)) rid;;
  s ← get_part pii_parse_state;
  handle_event (if s =? PPP_USAGE_ACK then EVENT_RCR_P else EVENT_RCR_M).

Definition if_ident (rid : Z) (m : W X unit) : W X unit :=
  ident ← get_part pii_ident;
  if rid =? ident then m else mret tt.

Definition recv_term_req (nb : Z) : W X unit :=
  new_reply 4 4;;
  s ← get_part pii_send;
  p ← mem_ (rd32 (s + Nb.network));
  mem_ (wr8 p CODE_TERM_ACK);;
  n ← mem_ (rd32 (nb + Nb.network));
  id ← mem_ (rd8 (n + 1));
  mem_ (wr8 (p + 1) id);;
  mem_ (wr8 (p + 2) 0);;
  mem_ (wr8 (p + 3) 4);;
  handle_event EVENT_RTR.

Definition ipcp_dispatch (rcode rid rlen p nb : Z) : W X unit :=
  if rcode =? CODE_CONF_REQ then recv_conf_req p rlen rid
  else if rcode =? CODE_CONF_ACK then
    if_ident rid (ipcp_check_ack p (u16 (rlen - 4));; handle_event EVENT_RCA)
  else if (rcode =? CODE_CONF_NAK) || (rcode =? CODE_CONF_REJ) then
    if_ident rid (new_reply 1500 0;; ipcp_check_reject p (u16 (rlen - 4));; handle_event EVENT_RCN)
  else if rcode =? CODE_TERM_REQ then recv_term_req nb
  else if rcode =? CODE_TERM_ACK then if_ident rid (handle_event EVENT_RTA)
  else if rcode =? CODE_CODE_REJ then
    badcode ← mem_ (rd8 p);
    handle_event (if badcode <=? CODE_CODE_REJ then EVENT_RXJ_M else EVENT_RXJ_P)
  else handle_event EVENT_RUC.

Definition ipcp_recv_netbuf (nb : Z) : W X unit :=
  p ← mem_ (rd32 (nb + Nb.network));
  rcode ← mem_ (rd8 p);
  rid ← mem_ (rd8 (p + 1));
  hi ← mem_ (rd8 (p + 2));
  lo ← mem_ (rd8 (p + 3));
  let rlen := Z.lor (u16 (Z.shiftl hi 8)) lo in
  sz ← mem_ (rd32 (nb + Nb.network_size));
  if sz <? rlen then mret tt
  else
    lock_pii;;
    ipcp_dispatch rcode rid rlen (p + 4) nb;;
    unlock_pii.

Definition ipcp_link_up : W X unit :=
  lock_pii;;
  handle_event EVENT_UP;;
  handle_event EVENT_OPEN;;
  unlock_pii.

(** ** IP packets *)

Definition ppp_ip_recv_netbuf (nb : Z) : W X unit :=
  lock_pii;;
  c ← get_part pii_client;
  idc ← not_null "NULL idi_client" c;
  mem_ (membuf_ref (idc_self idc));;
  unlock_pii;;
  idc_recv idc nb;;
  deref_ (idc_self idc).

Definition ppp_ip_send_netbuf (nb : Z) : W X unit :=
  s ← get_part pii_ip_server;
  ps ← not_null "NULL pii_ip_server" s;
  ps_send ps nb.

(** ** Clients *)

Definition ppp_ip_server_alloc : W X Z := mem_ (membuf_alloc sizeof_ip_datalink_server 0).

Definition ppp_ip_instance_ref : W X unit := self ← get_part pii_self; mem_ (membuf_ref self).
Definition ppp_ip_instance_deref : W X unit := self ← get_part pii_self; deref_ self.

(** [None] for [NULL]. *)
Definition ppp_ip_client_attach (idc : ip_datalink_client) : W X (option Z) :=
  lock_pii;;
  c ← get_part pii_client;
  match c with
  | Some _ => unlock_pii;; mret None
  | None =>
    ids ← ppp_ip_server_alloc;
    ppp_ip_instance_ref;;
    mod_part (fun i => i <| pii_client := Some (idc <| idc_server := ids |>) |>);;
    mem_ (membuf_ref (idc_self idc));;
    unlock_pii;;
    mret (Some ids)
  end.

(** [ip_datalink_client_detach] on this kind of instance. *)
Definition ppp_ip_client_detach (ids : Z) : W X unit :=
  lock_pii;;
  c ← get_part pii_client;
  idc ← not_null "NULL idi_client" c;
  (if idc_server idc =? ids then
     deref_ ids;;
     ppp_ip_instance_deref;;
     deref_ (idc_self idc);;
     mod_part (fun i => i <| pii_client := None |>)
   else mret tt);;
  unlock_pii.

(** The callback number of [ipcp_tick_timeout] in the timers. *)
Definition IPCP_TICK_TIMEOUT : nat := 2.

(** [attach] is the [pi_client_attach] of the PPP instance at [pi]; [old] has the
    fields the function does not initialise.  The argument of the timer's callback is
    [pi], not the new instance. *)
Definition ppp_ip_instance_alloc (pi : Z) (attach : ppp_client -> W X (option ppp_server)) (old : ppp_ip_instance) : W X Z :=
  self ← mem_ (membuf_alloc sizeof_ppp_ip_instance 0);
  t ← timer_alloc IPCP_TICK_TIMEOUT pi;
  mod_part (fun _ => old <| pii_self := self |> <| pii_lock := false |> <| pii_mru := 1500 |> <| pii_mtu := 1500 |>
    <| pii_client := None |> <| pii_state := STATE_INITIAL |> <| pii_phase := PHASE_DEAD |> <| pii_ident := 0 |>
    <| pii_timeout_timer := t |> <| pii_local_ip_addr := 0xbe010102 |> <| pii_local_ip_addr_usage := PPP_USAGE_ACK |>);;
  ippc ← ppp_client_alloc 0x0021 false;
  ppp_ip_instance_ref;;
  s ← attach ippc;
  mod_part (fun i => i <| pii_ip_server := s |>);;
  deref_ (pc_self ippc);;
  ipcppc ← ppp_client_alloc 0x8021 true;
  ppp_ip_instance_ref;;
  s ← attach ipcppc;
  mod_part (fun i => i <| pii_ipcp_server := s |>);;
  deref_ (pc_self ipcppc);;
  mret self.
End ipcp.
End Ipcp.
