(* ===== verification/IpcpReq.v ===== *)
(** * Addresses over PPP

    [ipcp_check_request] is the routine of [ConfReq.v] with the one option of IPCP, the
    address of the peer.  The file instantiates the reference for it, states the answer
    of both control protocols to any Configure-Request, and composes the three routines
    an address goes through: [ipcp_build_req] of one host, [ipcp_check_request] of the
    other, [ipcp_check_ack] of the first. *)

From stdpp Require Import base list gmap fin_maps strings.
From Stdlib Require Import ZArith Lia.
From S2P Require Import Prelude Heap Membuf NetbufMem Ip Parts Oneshot PppTable Ppp ConfReq LcpReq PppIp.
Open Scope Z_scope.

(** ** IPCP as a negotiator *)

(** The setting is the address of the peer. *)
#[export] Instance ipcp_negotiator : Negotiator ppp_ip_instance Z.
Proof.
  refine {|
    parse_state := pii_parse_state;
    set_parse_state s i := i <| pii_parse_state := s |>;
    reply := pii_send;
    settings := pii_remote_ip_addr;
    settle a i := i <| pii_remote_ip_addr := a |> |}; try done; by intros [].
Defined.

(** An address of the right size is acknowledged and taken over, one of another size is
    passed over in silence, every other option is rejected. *)
Definition judge_address (a : Z) (opt optsz : Z) (body : list Z) : list verdict :=
  if opt =? 0x03 then if optsz =? 6 then [(PPP_USAGE_ACK, opt :: optsz :: body)] else []
  else [(PPP_USAGE_REJ, opt :: optsz :: body)].

Definition taken_address (a : Z) (opt optsz : Z) (body : list Z) : Z :=
  if (opt =? 0x03) && (optsz =? 6) then be_value body else a.

Section request.
Context {X : Type} `{PI : Part X ppp_ip_instance}.

(** IPCP copies options from the packet only; the local variables are never read. *)
Definition no_locals : list Z := replicate 253 0.

Lemma no_locals_long : (253 <= length no_locals)%nat.
Proof. unfold no_locals. by rewrite length_replicate. Qed.

Lemma no_locals_bytes : Forall (fun b => 0 <= b < 2 ^ 8) no_locals.
Proof. by apply Forall_replicate. Qed.

Lemma ipcp_check_request_eq buf sz id :
  Ipcp.ipcp_check_request (X:=X) buf sz id = answer_request (I:=ppp_ip_instance) no_locals Ipcp.check_option buf sz id.
Proof. reflexivity. Qed.

Lemma ipcp_option_run q0 start (i0 : ppp_ip_instance) vs a k p q i ii (x : X) opt optsz buf :
  True -> 0 <= opt < 2 ^ 8 -> source_clear start k optsz (In_packet buf) ->
  let body := bytes_at (p_mem q) buf (optsz - 2) in
  option_run q0 start i0 vs a k p q i ii x optsz (Ipcp.check_option p start opt optsz buf)
    (judge_address a opt optsz body) (taken_address a opt optsz body).
Proof.
  intros _ Ho Hc body Ha Hs. unfold Ipcp.check_option, judge_address, taken_address.
  destruct (Z.eqb_spec opt 0x03) as [->|]; cbn [andb].
  - destruct (Z.eqb_spec optsz 6) as [E|].
    + rewrite w_rd32, be_value32. replace (bytes_at (p_mem q) buf 4) with body by (unfold body; by rewrite E).
      refine (ack_run no_locals no_locals_long no_locals_bytes q0 start i0 vs a k p q i ii x 0x03 optsz buf _ (be_value body) Ho Hc _ Ha Hs).
      done.
    + exists p, q, i. split; [done|]. rewrite app_nil_r. eapply answering_le; [|exact Ha]. lia.
  - exact (rej_run no_locals no_locals_long no_locals_bytes q0 start i0 vs a k p q i ii x opt optsz buf Ho Hc Ha Hs).
Qed.

Lemma ipcp_request_answered q ii (x : X) buf sz id :
  let i : ppp_ip_instance := part_get x in
  0 <= sz < 2 ^ 16 - 4 -> 0 <= id < 2 ^ 8 -> request_apart q i buf sz ->
  exists q' i',
    Ipcp.ipcp_check_request buf sz id (World_ q ii x) = Ok (tt, World_ q' ii (part_put i' x))
    /\ answered judge_address taken_address q i buf sz id q' i'.
Proof.
  intros i Hsz Hid Hap. rewrite ipcp_check_request_eq.
  by apply (request_answered no_locals no_locals_long no_locals_bytes judge_address taken_address (fun _ => True) _ ipcp_option_run).
Qed.
End request.

(** ** The answers of both protocols *)

(** C39: the answer to any Configure-Request of [4 + sz] bytes, of the link and of IPCP.
    The routine comes to its end, the fuel of its loop never runs out.  The answer is
    the packet of the reference: code Ack, Nak or Reject after the worst verdict, the
    identifier of the request, the length and, in their order, exactly the options with
    that verdict; an Ack of the link therefore repeats the options of the request byte
    for byte.  The answer is never longer than the request, and no byte of memory changes
    but the first [4 + sz] of the answer's buffer and the size field of its netbuf: with
    a request within the MRU of 1500 the buffer of 1500 bytes that the receiving routine
    gives it is enough.  Of the instance only the parse state and the settings change,
    and these become the values of the acknowledged options: MRU and map of the link,
    the address of the peer. *)
Theorem configure_requests_answered {X Y : Type} `{Part X ppp_instance} `{Part Y ppp_ip_instance} stack :
  (253 <= length stack)%nat -> Forall (fun b => 0 <= b < 2 ^ 8) stack ->
  (forall q ii (x : X) buf sz id,
    let i : ppp_instance := part_get x in
    0 <= sz < 2 ^ 16 - 4 -> 0 <= id < 2 ^ 8 -> 0 <= pi_mru i < 2 ^ 16 -> request_apart q i buf sz ->
    exists q' i', lcp_check_request stack buf sz id (World_ q ii x) = Ok (tt, World_ q' ii (part_put i' x))
      /\ answered (judge stack) taken q i buf sz id q' i')
  /\ (forall q ii (y : Y) buf sz id,
    let i : ppp_ip_instance := part_get y in
    0 <= sz < 2 ^ 16 - 4 -> 0 <= id < 2 ^ 8 -> request_apart q i buf sz ->
    exists q' i', Ipcp.ipcp_check_request buf sz id (World_ q ii y) = Ok (tt, World_ q' ii (part_put i' y))
      /\ answered judge_address taken_address q i buf sz id q' i').
Proof.
  intros Hl Hb. split; intros; [by apply lcp_request_answered|by apply ipcp_request_answered].
Qed.

(** An address option of another size than six bytes gets an acknowledgement that does
    not have it: the peer is told that options it did not send were accepted. *)
Theorem ipcp_ack_omits_address {X : Type} `{Part X ppp_ip_instance} q ii (x : X) buf id b1 b2 :
  let i : ppp_ip_instance := part_get x in
  0 <= id < 2 ^ 8 -> bytes_at (p_mem q) buf 4 = [0x03; 4; b1; b2] -> request_apart q i buf 4 ->
  exists q' (i' : ppp_ip_instance), Ipcp.ipcp_check_request buf 4 id (World_ q ii x) = Ok (tt, World_ q' ii (part_put i' x))
    /\ bytes_at (p_mem q') (load32 (p_mem q) (pii_send i + Nb.network)) 4 = [CODE_CONF_ACK; id; 0; 4].
Proof.
  intros i Hid Hb Hap. destruct (ipcp_request_answered q ii x buf 4 id ltac:(lia) Hid Hap) as (q' & i' & E & Hans).
  unfold answered in Hans. rewrite Hb in Hans. destruct Hans as (_ & Hans & _). by exists q', i'.
Qed.

(** ** Addresses as bytes *)

Lemma be_value_be32 v : 0 <= v < 2 ^ 32 -> be_value (be32 v) = v.
Proof. intros H. destruct (word_split v H) as [E _]. unfold be_value, be32. cbn [foldl]. lia. Qed.

Lemma bytes_at_four m a : bytes_at m a 4 = [load8 m a; load8 m (a + 1); load8 m (a + 2); load8 m (a + 3)].
Proof. unfold bytes_at. change (seqZ 0 4) with [0; 1; 2; 3]. cbn. by rewrite Z.add_0_r. Qed.

Lemma bytes_hton32 m a v : 0 <= v < 2 ^ 32 -> bytes_at (store32 m a (hton32 v)) a 4 = be32 v.
Proof.
  intros H. destruct (word_split v H) as [E Ha]. rewrite bytes_at_four. destruct (bytes_store32 m a (hton32 v)) as (-> & -> & -> & ->).
  pose proof (Z.mod_pos_bound (v / 2 ^ 16) (2 ^ 8)). pose proof (Z.mod_pos_bound (v / 2 ^ 8) (2 ^ 8)). pose proof (Z.mod_pos_bound v (2 ^ 8)).
  rewrite E, hton32_join by lia. 
  edestruct (word_bytes (v / 2 ^ 24) (v / 2 ^ 16 mod 2 ^ 8) (v / 2 ^ 8 mod 2 ^ 8) (v mod 2 ^ 8)) as (-> & -> & -> & ->); try lia.
  by rewrite <-E.
Qed.

Lemma be32_bytes v : 0 <= v < 2 ^ 32 -> Forall (fun b => 0 <= b < 2 ^ 8) (be32 v).
Proof. intros H. destruct (word_split v H) as [_ Ha]. unfold be32. repeat constructor; try apply Z.mod_pos_bound; lia. Qed.

(** ** The request *)

Definition address_option (addr : Z) : list Z := [0x03; 6] ++ be32 addr.

(** The options [ipcp_build_req] asks for. *)
Definition own_options (i : ppp_ip_instance) : list Z :=
  if pii_local_ip_addr_usage i =? PPP_USAGE_ACK then address_option (pii_local_ip_addr i) else [].

Definition request_packet (i : ppp_ip_instance) : list Z :=
  [CODE_CONF_REQ; u8 (pii_ident i + 1)] ++ be16 (4 + Z.of_nat (length (own_options i))) ++ own_options i.

Lemma own_options_used i : pii_local_ip_addr_usage i = PPP_USAGE_ACK -> own_options i = address_option (pii_local_ip_addr i).
Proof. intros E. unfold own_options. by rewrite E. Qed.

Lemma address_reviewed a addr : 0 <= addr < 2 ^ 32 ->
  review judge_address taken_address 7 a (address_option addr) = ([(PPP_USAGE_ACK, address_option addr)], addr).
Proof. intros H. rewrite <-(be_value_be32 addr H) at 3. reflexivity. Qed.

Section build.
Context {X : Type} `{PI : Part X ppp_ip_instance}.

(** The options behind the header that [start_mem] wrote. *)
Definition put_addr_mem (i : ppp_ip_instance) (p : Z) (m : mem) : mem :=
  if pii_local_ip_addr_usage i =? PPP_USAGE_ACK then
    store32 (store8 (store8 m p 0x03) (p + 1) 6) (p + 2) (hton32 (pii_local_ip_addr i))
  else m.

Lemma put_addr_run p q ii (x : X) :
  let i : ppp_ip_instance := part_get x in
  Ipcp.put_addr p (World_ q ii x)
  = Ok (p + Z.of_nat (length (own_options i)), World_ (with_mem (put_addr_mem i p) q) ii x).
Proof.
  intros i. unfold Ipcp.put_addr, own_options, put_addr_mem. rewrite part_gets. fold i.
  destruct (_ =? _); [|cbn; rewrite Z.add_0_r; by destruct q as [[] ? ?]].
  rewrite part_gets. fold i. rewrite !w_wr8, w_wr32. reflexivity.
Qed.

Lemma put_addr_bytes i p m : 0 <= pii_local_ip_addr i < 2 ^ 32 ->
  bytes_at (put_addr_mem i p m) p (Z.of_nat (length (own_options i))) = own_options i
  /\ forall y, y < p -> load8 (put_addr_mem i p m) y = load8 m y.
Proof.
  intros H. unfold own_options, put_addr_mem. destruct (_ =? _); [|done]. split.
  - change (Z.of_nat (length _)) with (2 + 4). rewrite bytes_at_app by lia. unfold address_option. f_equal; [|by apply bytes_hton32].
    rewrite bytes_at_two by lia. rewrite !load8_store32_ne by lia.
    rewrite load8_store8_ne, !load8_store8 by lia. reflexivity.
  - intros y Hy. by rewrite load8_store32_ne, !load8_store8_ne by lia.
Qed.

Lemma own_options_short i : Z.of_nat (length (own_options i)) <= 6.
Proof. unfold own_options. destruct (_ =? _); cbn; lia. Qed.

Lemma ipcp_request_built q ii (x : X) nb :
  let i : ppp_ip_instance := part_get x in
  let start := load32 (p_mem q) (nb + Nb.network) in
  let size := nb + Nb.network_size in
  let n := Z.of_nat (length (request_packet i)) in
  0 <= pii_local_ip_addr i < 2 ^ 32 -> size + 4 <= start \/ start + 10 <= size ->
  exists q', Ipcp.ipcp_build_req nb (World_ q ii x) = Ok (tt, World_ q' ii (part_put (i <| pii_ident := u8 (pii_ident i + 1) |>) x))
    /\ bytes_at (p_mem q') start n = request_packet i /\ load32 (p_mem q') size = n.
Proof.
  intros i start size n Ha Hs. set (i' := i <| pii_ident := u8 (pii_ident i + 1) |>).
  set (m1 := put_addr_mem i (start + 4) (start_mem CODE_CONF_REQ start (u8 (pii_ident i + 1)) (p_mem q))).
  pose proof (own_options_short i) as Hlen. destruct (put_addr_bytes i (start + 4) (start_mem CODE_CONF_REQ start (u8 (pii_ident i + 1)) (p_mem q)) Ha) as [Hb Hf].
  assert (En : n = 4 + Z.of_nat (length (own_options i))) by (unfold n, request_packet, be16; rewrite !length_app; cbn; lia).
  destruct (finish_bytes start size n m1 (u8 (pii_ident i + 1)) CODE_CONF_REQ (own_options i) 6) as [B1 B2]; try done; try lia.
  { unfold m1. rewrite Hf by lia. unfold start_mem. rewrite !load8_store8_ne, load8_store8 by lia. done. }
  { unfold m1. rewrite Hf by lia. unfold start_mem. rewrite !(load8_store8_ne _ _ (start + 1)), load8_store8 by lia.
    apply u8_small, u8_range. }
  exists (with_mem (fun _ => finish_mem start size n m1) q). rewrite p_mem_with. split_and!; [|by rewrite B1, En|done].
  unfold Ipcp.ipcp_build_req. rewrite part_mod, w_rd32. fold i start i'. rewrite part_gets, part_get_put, !w_wr8. cbv zeta.
  erewrite st_run; [|apply put_addr_run]. rewrite part_get_put. change (own_options i') with (own_options i).
  replace (start + 4 + _ - (start + 4)) with (n - 4) by lia. rewrite u16_small by lia. replace (4 + (n - 4)) with n by lia. fold size.
  rewrite w_wr32, w_rd32, p_mem_with, load32_store32, u16_small by lia. replace (start + 4 - 2) with (start + 2) by lia. reflexivity.
Qed.

Lemma same_address (i : ppp_ip_instance) : pii_local_ip_addr_usage i = PPP_USAGE_ACK ->
  i <| pii_local_ip_addr := pii_local_ip_addr i |> <| pii_local_ip_addr_usage := PPP_USAGE_ACK |> = i.
Proof. intros <-. by destruct i. Qed.

(** An acknowledgement with the host's own address changes nothing. *)
Lemma ipcp_ack_checked q ii (x : X) buf :
  let i : ppp_ip_instance := part_get x in
  bytes_at (p_mem q) buf 6 = address_option (pii_local_ip_addr i) ->
  0 <= pii_local_ip_addr i < 2 ^ 32 -> pii_local_ip_addr_usage i = PPP_USAGE_ACK ->
  Ipcp.ipcp_check_ack buf 6 (World_ q ii x) = Ok (tt, World_ q ii x).
Proof.
  intros i Hb Ha Hu. rewrite bytes_at_two in Hb by lia. pose proof (f_equal (drop 2) Hb) as E3.
  injection Hb as E1 E2 _ _ _ _.
  unfold Ipcp.ipcp_check_ack. cbn [walk_options]. change (2 <=? 6) with true. cbv iota. rewrite !w_rd8, E1, E2.
  change ((6 <? 6) || (6 <? 2)) with false. cbv iota.
  erewrite st_run; [|unfold Ipcp.ack_option; change ((0x03 =? 0x03) && (6 =? 6)) with true; cbv iota; rewrite w_rd32; reflexivity].
  rewrite be_value32. replace (bytes_at (p_mem q) (buf + 2) 4) with (be32 (pii_local_ip_addr i)) by (symmetry; exact E3).
  rewrite be_value_be32, same_address by done. unfold i. rewrite part_put_get. reflexivity.
Qed.
End build.

(** ** Agreement *)

(** A packet as it arrives: the same bytes somewhere in the memory of the receiver. *)
Definition carries (q : pool) (a : Z) (packet : list Z) : Prop :=
  bytes_at (p_mem q) a (Z.of_nat (length packet)) = packet.

Definition address_packet (code id addr : Z) : list Z := [code; id] ++ be16 10 ++ address_option addr.

Lemma carries_fields q a code id addr :
  carries q a (address_packet code id addr) ->
  load8 (p_mem q) a = code /\ load8 (p_mem q) (a + 1) = id /\ bytes_at (p_mem q) (a + 4) 6 = address_option addr.
Proof.
  unfold carries, address_packet. change (Z.of_nat _) with (4 + 6). intros H.
  rewrite bytes_at_app, bytes_at_four, app_assoc in H by lia. apply app_inj_1 in H as [H ->]; [|done]. by injection H as -> -> _ _.
Qed.

(** C17: two hosts agree on an address.  A host that wants its address used builds a
    request with it; the peer that checks this request comes to its end, records
    exactly that address as the remote one, changes no other field but its parse state,
    and answers with an acknowledgement of the request's identifier and ten bytes;
    checking this acknowledgement leaves the first host with the address it asked for.
    The packets may lie anywhere in the memory of their receiver, apart from the buffer
    of its answer. *)
Theorem ipcp_address_agreed {X Y : Type} `{Part X ppp_ip_instance} `{Part Y ppp_ip_instance} qa iia (xa : X) nb :
  let ia : ppp_ip_instance := part_get xa in
  let start := load32 (p_mem qa) (nb + Nb.network) in
  let ident := u8 (pii_ident ia + 1) in
  0 <= pii_local_ip_addr ia < 2 ^ 32 -> pii_local_ip_addr_usage ia = PPP_USAGE_ACK ->
  nb + Nb.network_size + 4 <= start \/ start + 10 <= nb + Nb.network_size ->
  exists qa', let xa' := part_put (ia <| pii_ident := ident |>) xa in
    Ipcp.ipcp_build_req nb (World_ qa iia xa) = Ok (tt, World_ qa' iia xa')
    /\ load32 (p_mem qa') (nb + Nb.network_size) = 10
    /\ forall qb iib (xb : Y) buf,
      let ib : ppp_ip_instance := part_get xb in
      carries qb buf (bytes_at (p_mem qa') start 10) -> request_apart qb ib (buf + 4) 6 ->
      load8 (p_mem qb) buf = CODE_CONF_REQ /\ load8 (p_mem qb) (buf + 1) = ident
      /\ exists qb',
        Ipcp.ipcp_check_request (buf + 4) 6 ident (World_ qb iib xb)
        = Ok (tt, World_ qb' iib (part_put (ib <| pii_remote_ip_addr := pii_local_ip_addr ia |> <| pii_parse_state := PPP_USAGE_ACK |>) xb))
        /\ load32 (p_mem qb') (pii_send ib + Nb.network_size) = 10
        /\ forall qc buf',
          carries qc buf' (bytes_at (p_mem qb') (load32 (p_mem qb) (pii_send ib + Nb.network)) 10) ->
          load8 (p_mem qc) buf' = CODE_CONF_ACK /\ load8 (p_mem qc) (buf' + 1) = ident
          /\ Ipcp.ipcp_check_ack (buf' + 4) 6 (World_ qc iia xa') = Ok (tt, World_ qc iia xa').
Proof.
  intros ia start ident Ha Hu Hap. destruct (ipcp_request_built qa iia xa nb Ha Hap) as (qa' & Ea & Ba & Sa).
  fold ia start ident in Ea, Ba, Sa. unfold request_packet in Ba, Sa. rewrite (own_options_used ia Hu) in Ba, Sa.
  exists qa'. split_and!; [done..|]. intros qb iib xb buf ib Hc Hq.
  replace (bytes_at _ _ 10) with (address_packet CODE_CONF_REQ ident (pii_local_ip_addr ia)) in Hc by by symmetry.
  apply carries_fields in Hc as (-> & -> & Hb).
  split_and!; [done..|]. pose proof (u8_range (pii_ident ia + 1)) as Hid.
  destruct (ipcp_request_answered qb iib xb (buf + 4) 6 ident ltac:(lia) ltac:(exact Hid) Hq) as (qb' & ib' & Eb & Hans).
  unfold answered in Hans. fold ib in Hans. rewrite Hb, address_reviewed in Hans by done. destruct Hans as (_ & Bb & Sb & -> & _ & _).
  exists qb'. split_and!; [done..|]. intros qc buf' Hc.
  replace (bytes_at _ _ 10) with (address_packet CODE_CONF_ACK ident (pii_local_ip_addr ia)) in Hc by by symmetry.
  apply carries_fields in Hc as (-> & -> & Hb').
  split_and!; [done..|]. apply ipcp_ack_checked; rewrite part_get_put; done.
Qed.

(** ** Witnesses *)

(** A request for an MRU of 1500 and no escaped characters; the answer of ten bytes
    asks for the map [0xff0f0f0f]. *)
Definition req_stack : list Z := replicate 253 0.
Definition req_inst : ppp_instance :=
  Ppp_instance_ 0 true 0 0 0 0%nat 0 0x100 0 1500 0 0 0 0 0 0 0 0 0 0 [] 0.
Definition req_pool : pool :=
  Pool_ (Heap_ false 0 0 (store32 (store_list ∅ 0x200 [1; 4; 5; 0xdc; 2; 6; 0; 0; 0; 0]) (0x100 + Nb.network) 0x400)) false false.
Definition req_ip : ip_instance := Ip_instance_ 0 false 0 0 0 [] [].

Definition req_ipcp : ppp_ip_instance :=
  Ppp_ip_instance_ 0 true 1500 1500 None None None 0 0 7 0%nat 0 0x100 0 0 0xc0a80001 PPP_USAGE_ACK.

Lemma configure_requests_answered_witness : exists q' i',
  lcp_check_request req_stack 0x200 10 7 (World_ req_pool req_ip req_inst) = Ok (tt, World_ q' req_ip i')
  /\ bytes_at (p_mem q') 0x400 10 = [CODE_CONF_NAK; 7; 0; 10; 2; 6; 0xff; 0x0f; 0x0f; 0x0f].
Proof.
  assert (Hs : Forall (fun b => 0 <= b < 2 ^ 8) req_stack) by by apply Forall_replicate.
  destruct (configure_requests_answered (X:=ppp_instance) (Y:=ppp_ip_instance) req_stack ltac:(unfold req_stack; by rewrite length_replicate) Hs) as [Hlcp _].
  destruct (Hlcp req_pool req_ip req_inst 0x200 10 7)
    as (q' & i' & E & _ & Hb & _); [by vm_compute..|by split; left; vm_compute|].
  exists q', i'. split; [exact E|].
  replace (answer_packet _ _) with [CODE_CONF_NAK; 7; 0; 10; 2; 6; 0xff; 0x0f; 0x0f; 0x0f] in Hb by by vm_compute.
  exact Hb.
Defined.

(** The packet as it arrives at the peer. *)
Definition arrived (l : list Z) : pool :=
  Pool_ (Heap_ false 0 0 (store32 (store_list ∅ 0x200 l) (0x100 + Nb.network) 0x400)) false false.

Lemma arrived_carries m a n : 0 <= n -> carries (arrived (bytes_at m a n)) 0x200 (bytes_at m a n).
Proof.
  intros Hn. unfold carries. rewrite <-(bytes_at_store_list ∅ 0x200 (bytes_at m a n)) at 3.
  - apply bytes_at_ext. intros y Hy. apply load8_store32_ne. right. transitivity 0x200; [by vm_compute|lia].
  - apply Forall_forall. intros b (y & -> & _)%list_elem_of_fmap. apply load8_range.
Qed.

(** The host with the address 192.168.0.1 asks for it with identifier 8. *)
Lemma ipcp_address_agreed_witness : exists qa' qb',
  Ipcp.ipcp_build_req 0x100 (World_ req_pool req_ip req_ipcp) = Ok (tt, World_ qa' req_ip (req_ipcp <| pii_ident := 8 |>))
  /\ Ipcp.ipcp_check_request 0x204 6 8 (World_ (arrived (bytes_at (p_mem qa') 0x400 10)) req_ip (req_ipcp <| pii_local_ip_addr := 0 |>))
     = Ok (tt, World_ qb' req_ip (req_ipcp <| pii_local_ip_addr := 0 |> <| pii_remote_ip_addr := 0xc0a80001 |> <| pii_parse_state := PPP_USAGE_ACK |>)).
Proof.
  destruct (ipcp_address_agreed (X:=ppp_ip_instance) (Y:=ppp_ip_instance) req_pool req_ip req_ipcp 0x100)
    as (qa' & Ea & _ & Hb); [by vm_compute..|by left; vm_compute|].
  change (load32 _ (0x100 + Nb.network)) with 0x400 in Hb.
  destruct (Hb (arrived (bytes_at (p_mem qa') 0x400 10)) req_ip (req_ipcp <| pii_local_ip_addr := 0 |>) 0x200) as (_ & _ & qb' & Eb & _).
  - by apply arrived_carries.
  - unfold request_apart. change (load32 _ _) with 0x400. by split; left; vm_compute.
  - exists qa', qb'. split; [exact Ea|exact Eb].
Defined.
