(* ===== verification/Tcp.v ===== *)
(** * The Transmission Control Protocol (src/lib/tcp/tcp.c, include/tcp.h)

    TCP is a client of the IP instance.  Segments, netbufs and reference counts are
    in memory; the fields of the sockets, servers and clients are records in the
    stores of the instance, by address.  A structure leaves its store when its last
    reference goes; a later access to it stops the model ("use of a freed ...").
    The socket list and the queue of unsent segments are lists of addresses in the
    order of their links.

    Parameters: the clock, the MRU of the datalink below, what a datalink does with a
    packet, the functions of the clients, and the two condition-variable calls, whose
    own model is in Sync.v: a signal makes another thread ready, a wait gives the
    instance to the other threads until it is over. *)

From stdpp Require Import base list gmap fin_maps strings.
From Stdlib Require Import ZArith Lia.
From S2P Require Import Prelude Heap Oneshot Membuf NetbufMem Ipcsum Ip Parts EthernetIp.
Open Scope Z_scope.

(** Offsets in [struct tcp_header]; the byte at 12 has [th_data_offs] in its high half. *)
Module Th.
Definition src_port : Z := 0.
Definition dest_port : Z := 2.
Definition sequence : Z := 4.
Definition ack : Z := 8.
Definition data_offs : Z := 12.
Definition ctrl_flags : Z := 13.
Definition window : Z := 14.
Definition csum : Z := 16.
Definition urgent_ptr : Z := 18.
Definition sizeof : Z := 20.
End Th.

Definition TCF_FIN : Z := 0x01.
Definition TCF_SYN : Z := 0x02.
Definition TCF_RST : Z := 0x04.
Definition TCF_PSH : Z := 0x08.
Definition TCF_ACK : Z := 0x10.

Definition TCS_CLOSED : Z := 0.
Definition TCS_LISTEN : Z := 1.
Definition TCS_SYN_SENT : Z := 2.
Definition TCS_SYN_RECEIVED : Z := 3.
Definition TCS_ESTABLISHED : Z := 4.
Definition TCS_FIN_WAIT1 : Z := 5.
Definition TCS_FIN_WAIT2 : Z := 6.
Definition TCS_CLOSE_WAIT : Z := 7.
Definition TCS_CLOSING : Z := 8.
Definition TCS_LAST_ACK : Z := 9.
Definition TCS_TIME_WAIT : Z := 10.

Definition TCP_SND_DEFERRED_FIN : Z := 0x01.
Definition TCP_SND_RETRANS_TIMING : Z := 0x02.
Definition TCP_SND_ACKED : Z := 0x04.
Definition TCP_SND_DEFERRED_ACK : Z := 0x08.

(** [flags & bit], [flags &= ~bit], [flags |= bit]. *)
Definition has (flags bit : Z) : bool := negb (Z.land flags bit =? 0).
Definition clear (flags bit : Z) : Z := Z.ldiff flags bit.

(** [u32_t << n]: the shift of the i386 takes the count modulo 32. *)
Definition shl32 (v n : Z) : Z := u32 (Z.shiftl v (n mod 32)).

Record tcp_socket := Tcp_socket_ {
  ts_state : Z;
  ts_local_port : Z;
  ts_remote_port : Z;
  ts_remote_addr : Z;
  ts_snd_nxt : Z;
  ts_snd_una : Z;
  ts_rcv_nxt : Z;
  ts_remote_mss : Z;
  ts_send_jiffies : Z;
  ts_awaiting_send : list Z;
  ts_awaiting_ack : Z;
  ts_wait_timer : tid;
  ts_retransmits : Z;
  ts_deferred_ack : Z;
  ts_deferred_ack_timer : tid;
  ts_send_flags : Z;
  ts_rto_next : Z;
  ts_srtt_avg : Z;
  ts_srtt_var : Z;
  ts_awaiting_accept : Z;
  ts_server : Z;
  ts_client : Z }.
#[export] Instance eta_tcp_socket : Eta tcp_socket := fun t =>
  Tcp_socket_ (ts_state t) (ts_local_port t) (ts_remote_port t) (ts_remote_addr t) (ts_snd_nxt t) (ts_snd_una t) (ts_rcv_nxt t)
    (ts_remote_mss t) (ts_send_jiffies t) (ts_awaiting_send t) (ts_awaiting_ack t) (ts_wait_timer t) (ts_retransmits t)
    (ts_deferred_ack t) (ts_deferred_ack_timer t) (ts_send_flags t) (ts_rto_next t) (ts_srtt_avg t) (ts_srtt_var t)
    (ts_awaiting_accept t) (ts_server t) (ts_client t).

(** [struct tcp_server]: its [ts_client] and [ts_socket]. *)
Record tcp_server := Tcp_server_ {
  tsv_client : Z;
  tsv_socket : Z }.
#[export] Instance eta_tcp_server : Eta tcp_server := fun s => Tcp_server_ (tsv_client s) (tsv_socket s).

Record tcp_client := Tcp_client_ {
  tc_server : Z;
  tc_socket : Z;
  tc_close_set : bool (* [tc_close] is not [NULL] *) }.
#[export] Instance eta_tcp_client : Eta tcp_client := fun c => Tcp_client_ (tc_server c) (tc_socket c) (tc_close_set c).

Record tcp_instance := Tcp_instance_ {
  ti_self : Z;
  ti_lock : bool;
  ti_client_list : list Z;
  ti_socks : list Z;
  ti_last_local_port : Z;
  ti_server : Z;
  ti_sockets : gmap Z tcp_socket;
  ti_servers : gmap Z tcp_server;
  ti_clients : gmap Z tcp_client }.
#[export] Instance eta_tcp_instance : Eta tcp_instance := fun t =>
  Tcp_instance_ (ti_self t) (ti_lock t) (ti_client_list t) (ti_socks t) (ti_last_local_port t) (ti_server t)
    (ti_sockets t) (ti_servers t) (ti_clients t).

Definition sizeof_tcp_socket : Z := 100.
Definition sizeof_tcp_server : Z := 36.
Definition sizeof_tcp_client : Z := 28.
Definition sizeof_tcp_instance : Z := 36.

(** The address of [__tcp_socket_free], as [mb_free] has it. *)
Definition TCP_SOCKET_FREE : Z := 0x100020.

(** The callback numbers in the timers. *)
Definition TCP_TICK_DEFERRED_ACK : nat := 3.
Definition TCP_TICK_RETRANSMIT : nat := 4.
Definition TCP_TICK_TIME_WAIT : nat := 5.

(** Sequence number, acknowledgement and flags of the segment with its header at [tch]. *)
Definition seg_seq (p : pool) (tch : Z) : Z := hton32 (load32 (p_mem p) (tch + Th.sequence)).
Definition seg_ack (p : pool) (tch : Z) : Z := hton32 (load32 (p_mem p) (tch + Th.ack)).
Definition seg_flags (p : pool) (tch : Z) : Z := load8 (p_mem p) (tch + Th.ctrl_flags).

(** ** Walks of the socket list *)

(** A socket already on the list that [sock] clashes with. *)
Definition clashes (sock ts : tcp_socket) : bool :=
  (ts_local_port ts =? ts_local_port sock)
  && (if ts_state sock =? TCS_LISTEN then ts_state ts =? TCS_LISTEN
      else negb (ts_state ts =? TCS_LISTEN) && (ts_remote_addr ts =? ts_remote_addr sock)
           && (ts_remote_port ts =? ts_remote_port sock)).

(** [while (ts && !p(ts)) ts = ts->ts_next;] *)
Fixpoint find_sock (p : tcp_socket -> bool) (m : gmap Z tcp_socket) (l : list Z) : res (option Z) :=
  match l with
  | [] => Ok None
  | a :: l =>
    match m !! a with
    | None => Stop "use of a freed socket"
    | Some t => if p t then Ok (Some a) else find_sock p m l
    end
  end.

(** The loop of [tcp_recv_netbuf]: the connected socket, or else the last listener
    met. *)
Fixpoint find_receiver (port addr rport : Z) (m : gmap Z tcp_socket) (listener : option Z) (l : list Z) : res (option Z) :=
  match l with
  | [] => Ok listener
  | a :: l =>
    match m !! a with
    | None => Stop "use of a freed socket"
    | Some t =>
      if ts_local_port t =? port then
        if ts_state t =? TCS_LISTEN then find_receiver port addr rport m (Some a) l
        else if (ts_remote_addr t =? addr) && (ts_remote_port t =? rport) then Ok (Some a)
        else find_receiver port addr rport m listener l
      else find_receiver port addr rport m listener l
    end
  end.

(** [do { port++; ... } while (port in use)]; among one port more than there are
    sockets one is free. *)
Fixpoint next_port (fuel : nat) (used : list Z) (port : Z) : res Z :=
  match fuel with
  | O => Fuel
  | S fuel =>
    let port := u16 (port + 1) in
    let port := if port =? 0x0000 then 0x1000 else port in
    if existsb (Z.eqb port) used then next_port fuel used port else Ok port
  end.

(** The [k]-th port tried after [port]. *)
Definition port_at (port k : Z) : Z := 0x1000 + (port - 0x1000 + k) mod 0xf000.

Lemma port_at_inj port j k : 0 <= j < 0xf000 -> 0 <= k < 0xf000 -> port_at port j = port_at port k -> j = k.
Proof.
  unfold port_at. intros Hj Hk E. assert (E' : (port - 0x1000 + j) mod 0xf000 = (port - 0x1000 + k) mod 0xf000) by lia.
  rewrite !Z.mod_eq in E' by lia. nia.
Qed.

Lemma next_port_tries fuel used port :
  0x1000 <= port < 0x10000 ->
  (exists k, 1 <= k <= Z.of_nat fuel /\ next_port fuel used port = Ok (port_at port k) /\ port_at port k ∉ used)
  \/ (next_port fuel used port = Fuel /\ forall k, 1 <= k <= Z.of_nat fuel -> port_at port k ∈ used).
Proof.
  revert port. induction fuel as [|fuel IH]; intros port Hp; cbn [next_port]; [right; split; [done|lia]|].
  set (q := if u16 (port + 1) =? 0 then 0x1000 else u16 (port + 1)).
  assert (Hq : q = port_at port 1 /\ 0x1000 <= q < 0x10000).
  { unfold q, port_at, u16. destruct (decide (port = 0xffff)) as [->|]; [done|]. rewrite !Z.mod_small by lia.
    replace (port + 1 =? 0) with false by lia. lia. }
  destruct Hq as [Eq Hq].
  assert (Hk : forall k, port_at q k = port_at port (k + 1)).
  { intros k. rewrite Eq. unfold port_at. f_equal. replace (0x1000 + (port - 0x1000 + 1) mod 0xf000 - 0x1000 + k)
      with ((port - 0x1000 + 1) mod 0xf000 + k) by lia. rewrite Zplus_mod_idemp_l. f_equal. lia. }
  destruct (existsb (Z.eqb q) used) eqn:Ex.
  - apply existsb_exists in Ex as (b & Hb & <-%Z.eqb_eq). apply list_elem_of_In in Hb.
    destruct (IH q Hq) as [(k & Hk1 & E & Hn)|[E Hall]].
    + left. exists (k + 1). rewrite <-Hk. split_and!; [lia|lia|done..].
    + right. split; [done|]. intros k Hk1. destruct (decide (k = 1)) as [->|]; [by rewrite <-Eq|].
      replace k with (k - 1 + 1) by lia. rewrite <-Hk. apply Hall. lia.
  - left. exists 1. rewrite <-Eq. split_and!; [lia|lia|done|]. intros Hin%list_elem_of_In.
    assert (existsb (Z.eqb q) used = true) by (apply existsb_exists; exists q; split; [done|lia]). congruence.
Qed.

(** With fewer sockets than there are ports the fuel of [tcp_connect] is enough. *)
Lemma next_port_free used port :
  0x1000 <= port < 0x10000 -> Z.of_nat (length used) < 0xefff ->
  exists q, next_port (S (length used)) used port = Ok q /\ q ∉ used.
Proof.
  intros Hp Hl. destruct (next_port_tries (S (length used)) used port Hp) as [(k & _ & E & Hn)|[_ Hall]]; [eauto|]. exfalso.
  set (l := port_at port <$> seqZ 1 (Z.of_nat (S (length used)))).
  assert (Hd : NoDup l).
  { apply NoDup_fmap_2_strong; [|apply NoDup_seqZ]. intros j k Hj%elem_of_seqZ Hk%elem_of_seqZ. apply port_at_inj; lia. }
  assert (Hs : l ⊆ used) by (intros q (k & -> & Hk%elem_of_seqZ)%list_elem_of_fmap; apply Hall; lia).
  pose proof (NoDup_submseteq l used Hd Hs) as Hsub%submseteq_length.
  unfold l in Hsub. rewrite length_fmap, length_seqZ in Hsub. lia.
Qed.

(** ** Round-trip times *)

Definition s32 (z : Z) : Z := (z + 2 ^ 31) mod 2 ^ 32 - 2 ^ 31.

(** Van Jacobson's estimator; [ticks] is the time measured. *)
Definition estimate (ticks : Z) (ts : tcp_socket) : tcp_socket :=
  let ticks := if ticks =? 0 then 1 else ticks in
  let ts :=
    if ts_srtt_avg ts =? 0 then
      let var := u32 (Z.shiftl ticks 2) in
      ts <| ts_srtt_var := var |> <| ts_srtt_avg := u32 (Z.shiftl var 1) |>
    else
      let ticks := s32 (ticks - Z.shiftr (ts_srtt_avg ts) 3) in
      let avg := u32 (ts_srtt_avg ts + ticks) in
      let ticks := if ticks <? 0 then s32 (- ticks) else ticks in
      let ticks := s32 (ticks - Z.shiftr (ts_srtt_var ts) 2) in
      ts <| ts_srtt_avg := avg |> <| ts_srtt_var := u32 (ts_srtt_var ts + ticks) |> in
  ts <| ts_rto_next := u32 (Z.shiftr (ts_srtt_avg ts) 3 + ts_srtt_var ts) |>.

Definition calc_round_trip (jiffies : Z) (ts : tcp_socket) : tcp_socket :=
  if has (ts_send_flags ts) TCP_SND_ACKED then ts
  else
    let ticks := s32 (jiffies - ts_send_jiffies ts) in
    let ts :=
      if negb (ts_retransmits ts =? 0) then ts <| ts_rto_next := shl32 (ts_rto_next ts) (ts_retransmits ts) |>
      else estimate ticks ts in
    let ts := if 240 * TICK_RATE <? ts_rto_next ts then ts <| ts_rto_next := 240 * TICK_RATE |> else ts in
    ts <| ts_send_flags := Z.lor (ts_send_flags ts) TCP_SND_ACKED |>.

Section tcp.
Context {X : Type} `{Part X tcp_instance} `{Part X timers}.
Context (ids_send : Z -> Z -> W X unit)
        (jiffies : X -> Z)                      (* [timer_get_jiffies] *)
        (idi_mru : X -> Z)                      (* of the datalink instance below IP *)
        (tc_recv : Z -> Z -> W X unit)          (* client, netbuf *)
        (tc_connect : Z -> Z -> W X unit)       (* client, listening server *)
        (tc_close : Z -> W X unit)              (* client *)
        (cv_signal : Z -> W X unit)             (* socket *)
        (cv_wait : Z -> W X bool).              (* socket; whether it was interrupted *)
(** The fields [tcp_socket_alloc] does not set. *)
Context (uninit : tcp_socket).

Definition lock_ti : W X unit := lock_part ti_lock (fun l i => i <| ti_lock := l |>).
Definition unlock_ti : W X unit := unlock_part ti_lock (fun l i => i <| ti_lock := l |>).

(** ** The stores *)

Definition get_sock {A} (sock : Z) (f : tcp_socket -> A) : W X A :=
  o ← get_part (fun i : tcp_instance => ti_sockets i !! sock);
  t ← not_null "use of a freed socket" o;
  mret (f t).

Definition mod_sock (sock : Z) (f : tcp_socket -> tcp_socket) : W X unit :=
  t ← get_sock sock id;
  mod_part (fun i : tcp_instance => i <| ti_sockets := <[sock := f t]> (ti_sockets i) |>).

Definition get_server {A} (srv : Z) (f : tcp_server -> A) : W X A :=
  o ← get_part (fun i : tcp_instance => ti_servers i !! srv);
  t ← not_null "use of a freed server" o;
  mret (f t).

Definition mod_server (srv : Z) (f : tcp_server -> tcp_server) : W X unit :=
  s ← get_server srv id;
  mod_part (fun i : tcp_instance => i <| ti_servers := <[srv := f s]> (ti_servers i) |>).

Definition get_client {A} (tc : Z) (f : tcp_client -> A) : W X A :=
  o ← get_part (fun i : tcp_instance => ti_clients i !! tc);
  t ← not_null "use of a freed client" o;
  mret (f t).

Definition mod_client (tc : Z) (f : tcp_client -> tcp_client) : W X unit :=
  c ← get_client tc id;
  mod_part (fun i : tcp_instance => i <| ti_clients := <[tc := f c]> (ti_clients i) |>).

Definition tcp_socket_ref (sock : Z) : W X unit := mem_ (membuf_ref sock).

(** With the last reference [__tcp_socket_free] drops the timers. *)
Definition tcp_socket_deref (sock : Z) : W X Z :=
  refs ← mem_ (membuf_deref (fun f b => if f =? TCP_SOCKET_FREE then mret tt
                                        else fun _ => Stop "call of an unknown function") sock);
  (if refs =? 0 then
     t ← get_sock sock ts_wait_timer;
     timer_deref t;;
     t ← get_sock sock ts_deferred_ack_timer;
     timer_deref t;;
     mod_part (fun i : tcp_instance => i <| ti_sockets := delete sock (ti_sockets i) |>)
   else mret tt);;
  mret refs.

Definition tcp_client_ref (tc : Z) : W X unit := mem_ (membuf_ref tc).
Definition tcp_client_deref (tc : Z) : W X unit :=
  refs ← mem_ (buf_deref 1 tc);
  if refs =? 0 then mod_part (fun i : tcp_instance => i <| ti_clients := delete tc (ti_clients i) |>) else mret tt.

Definition tcp_server_deref (srv : Z) : W X unit :=
  refs ← mem_ (buf_deref 1 srv);
  if refs =? 0 then mod_part (fun i : tcp_instance => i <| ti_servers := delete srv (ti_servers i) |>) else mret tt.

Definition tcp_instance_ref : W X unit := self ← get_part ti_self; mem_ (membuf_ref self).
Definition tcp_instance_deref : W X unit := self ← get_part ti_self; deref_ self.

(** ** Sockets *)

Definition tcp_socket_alloc : W X Z :=
  ts ← mem_ (membuf_alloc sizeof_tcp_socket TCP_SOCKET_FREE);
  dt ← timer_alloc TCP_TICK_DEFERRED_ACK ts;
  wt ← timer_alloc TCP_TICK_RETRANSMIT ts;
  let t := uninit <| ts_snd_nxt := 0x00a8393a |> <| ts_snd_una := 0x00a8393a |> <| ts_state := TCS_CLOSED |>
    <| ts_awaiting_send := [] |> <| ts_awaiting_accept := 0 |> <| ts_rto_next := 3 * TICK_RATE |> <| ts_srtt_avg := 0 |>
    <| ts_srtt_var := 3 * TICK_RATE |> <| ts_remote_mss := 536 |> <| ts_send_flags := 0 |>
    <| ts_deferred_ack_timer := dt |> <| ts_wait_timer := wt |> <| ts_client := 0 |> <| ts_server := 0 |> in
  mod_part (fun i : tcp_instance => i <| ti_sockets := <[ts := t]> (ti_sockets i) |>);;
  mret ts.

Definition tcp_socket_attach (sock : Z) : W X unit :=
  t ← get_sock sock id;
  m ← get_part ti_sockets;
  l ← get_part ti_socks;
  c ← of_res (find_sock (clashes t) m l);
  match c with
  | Some _ => mret tt
  | None =>
    mod_part (fun i : tcp_instance => i <| ti_socks := sock :: ti_socks i |>);;
    tcp_socket_ref sock
  end.

Definition tcp_socket_detach (sock : Z) : W X unit :=
  l ← get_part ti_socks;
  if existsb (Z.eqb sock) l then
    mod_part (fun i : tcp_instance => i <| ti_socks := remove Z.eq_dec sock (ti_socks i) |>);;
    _ ← tcp_socket_deref sock;
    mret tt
  else mret tt.

(** ** Segments *)

Definition build_netbuf (sock ctrl_flags nb : Z) : W X unit :=
  let sz := if has ctrl_flags TCF_SYN then Th.sizeof + 4 else Th.sizeof in
  m ← mem_ (membuf_alloc sz 0);
  mem_ (wr32 (nb + Nb.transport_membuf) m);;
  t ← mem_ (rd32 (nb + Nb.transport_membuf));
  mem_ (wr32 (nb + Nb.transport) t);;
  mem_ (wr32 (nb + Nb.transport_size) sz);;
  tch ← mem_ (rd32 (nb + Nb.transport));
  ts ← get_sock sock id;
  mem_ (wr16 (tch + Th.dest_port) (hton16 (ts_remote_port ts)));;
  mem_ (wr16 (tch + Th.src_port) (hton16 (ts_local_port ts)));;
  mem_ (wr32 (tch + Th.sequence) (hton32 (ts_snd_nxt ts)));;
  b ← mem_ (rd8 (tch + Th.data_offs));
  mem_ (wr8 (tch + Th.data_offs) (Z.lor (Z.land b 0x0f) (Z.shiftl (sz / 4) 4)));;
  mem_ (wr8 (tch + Th.ctrl_flags) ctrl_flags);;
  mem_ (wr16 (tch + Th.window) (hton16 2048));;
  mem_ (wr16 (tch + Th.urgent_ptr) 0);;
  if has ctrl_flags TCF_SYN then
    mem_ (wr8 (tch + Th.sizeof) 0x02);;
    mem_ (wr8 (tch + Th.sizeof + 1) 4);;
    mru ← gets (fun w => idi_mru (w_more w));
    mem_ (wr16 (tch + Th.sizeof + 2) (hton16 (u16 (mru - Th.sizeof - Ih.sizeof))))
  else mret tt.

(** Called without the lock. *)
Definition tcp_send_sequence (sock nb : Z) : W X unit :=
  tch ← mem_ (rd32 (nb + Nb.transport));
  rcv_nxt ← get_sock sock ts_rcv_nxt;
  mem_ (wr32 (tch + Th.ack) (hton32 rcv_nxt));;
  mem_ (wr16 (tch + Th.csum) 0);;
  lock_ti;;
  srv ← get_part ti_server;
  mem_ (membuf_ref srv);;
  unlock_ti;;
  addr ← get_ii ii_addr;
  remote ← get_sock sock ts_remote_addr;
  tsz ← mem_ (rd32 (nb + Nb.transport_size));
  asz ← mem_ (rd32 (nb + Nb.application_size));
  let c := ipcsum_pseudo_partial (hton32 addr) (hton32 remote) 0x06 (hton16 (u16 (tsz + asz))) in
  c ← mem_ (csum_partial c tch tsz);
  a ← mem_ (rd32 (nb + Nb.application));
  c ← mem_ (Ip.csum c a asz);
  mem_ (wr16 (tch + Th.csum) c);;
  ip_send_netbuf ids_send (hton32 remote) 0x06 nb;;
  deref_ srv.

(** A deferred ACK becomes superfluous. *)
Definition drop_deferred_ack (sock : Z) : W X unit :=
  flags ← get_sock sock ts_send_flags;
  if has flags TCP_SND_DEFERRED_ACK then
    mod_sock sock (fun t => t <| ts_send_flags := clear (ts_send_flags t) TCP_SND_DEFERRED_ACK |>);;
    t ← get_sock sock ts_deferred_ack_timer;
    timer_detach t;;
    _ ← tcp_socket_deref sock;
    nb ← get_sock sock ts_deferred_ack;
    deref_ nb
  else mret tt.

(** [nb], which takes [count] sequence numbers, is to be acknowledged. *)
Definition await_ack (sock nb count : Z) : W X unit :=
  mod_sock sock (fun t => t <| ts_snd_nxt := u32 (ts_snd_nxt t + count) |>);;
  c ← mem_ (netbuf_clone nb);
  mod_sock sock (fun t => t <| ts_awaiting_ack := c |>);;
  t ← get_sock sock id;
  timer_set (ts_wait_timer t) (ts_rto_next t);;
  now ← gets (fun w => jiffies (w_more w));
  mod_sock sock (fun t => t <| ts_retransmits := 0 |> <| ts_send_jiffies := now |>
                            <| ts_send_flags := TCP_SND_RETRANS_TIMING |>);;
  tcp_socket_ref sock;;
  timer_attach (ts_wait_timer t).

(** [sock->ts_send_flags &= ~TCP_SND_RETRANS_TIMING; ...] *)
Definition stop_retransmit (sock : Z) : W X unit :=
  mod_sock sock (fun t => t <| ts_send_flags := clear (ts_send_flags t) TCP_SND_RETRANS_TIMING |>);;
  t ← get_sock sock ts_wait_timer;
  timer_detach t;;
  _ ← tcp_socket_deref sock;
  nb ← get_sock sock ts_awaiting_ack;
  deref_ nb.

Definition retransmitting (sock : Z) : W X bool :=
  get_sock sock (fun t => has (ts_send_flags t) TCP_SND_RETRANS_TIMING).

(** Called without the lock. *)
Definition tcp_send_close (sock : Z) : W X unit :=
  nb ← mem_ netbuf_alloc;
  lock_ti;;
  drop_deferred_ack sock;;
  build_netbuf sock (Z.lor TCF_ACK TCF_FIN) nb;;
  await_ack sock nb 1;;
  unlock_ti;;
  tcp_send_sequence sock nb;;
  deref_ nb.

(** Called with the lock, which is released while a packet is sent. *)
Definition tcp_build_and_send_sequence (sock ctrl_flags : Z) : W X unit :=
  nb ← mem_ netbuf_alloc;
  build_netbuf sock ctrl_flags nb;;
  (if has ctrl_flags (Z.lor TCF_SYN TCF_FIN) then await_ack sock nb 1 else mret tt);;
  t ← get_sock sock id;
  if negb (clear ctrl_flags TCF_ACK =? 0) || has (ts_send_flags t) TCP_SND_DEFERRED_ACK
     || negb (ts_state t =? TCS_ESTABLISHED) then
    drop_deferred_ack sock;;
    unlock_ti;;
    tcp_send_sequence sock nb;;
    lock_ti;;
    deref_ nb
  else
    mod_sock sock (fun t => t <| ts_send_flags := Z.lor (ts_send_flags t) TCP_SND_DEFERRED_ACK |> <| ts_deferred_ack := nb |>);;
    timer_set (ts_deferred_ack_timer t) (TICK_RATE / 5);;
    tcp_socket_ref sock;;
    timer_attach (ts_deferred_ack_timer t).

Definition tcp_send_netbuf_now (sock nb : Z) : W X unit :=
  drop_deferred_ack sock;;
  build_netbuf sock (Z.lor TCF_PSH TCF_ACK) nb;;
  asz ← mem_ (rd32 (nb + Nb.application_size));
  await_ack sock nb asz;;
  unlock_ti;;
  tcp_send_sequence sock nb;;
  lock_ti.

(** ** Timers *)

Definition debug_not_closed (sock : Z) (why : string) : W X unit :=
  state ← get_sock sock ts_state;
  if negb (state =? TCS_CLOSED) then mret tt else fun _ => Stop why.

Definition tcp_tick_deferred_ack (ts : Z) : W X unit :=
  lock_ti;;
  refs ← tcp_socket_deref ts;
  due ← (if 0 <? refs then get_sock ts (fun t => has (ts_send_flags t) TCP_SND_DEFERRED_ACK) else mret false);
  (if due : bool then
     debug_not_closed ts "tcp tick_d_a in closed state";;
     mod_sock ts (fun t => t <| ts_send_flags := clear (ts_send_flags t) TCP_SND_DEFERRED_ACK |>);;
     nb ← get_sock ts ts_deferred_ack;
     unlock_ti;;
     tcp_send_sequence ts nb;;
     lock_ti;;
     deref_ nb
   else mret tt);;
  unlock_ti.

(** The timeout of a retransmission. *)
Definition backoff (t : tcp_socket) : Z :=
  let ticks := shl32 (ts_rto_next t) (ts_retransmits t) in
  if 240 * TICK_RATE <? ticks then 240 * TICK_RATE else ticks.

Definition tcp_tick_retransmit (ts : Z) : W X unit :=
  lock_ti;;
  refs ← tcp_socket_deref ts;
  due ← (if 0 <? refs then retransmitting ts else mret false);
  if due : bool then
    debug_not_closed ts "tcp tick_retx in closed state";;
    t ← get_sock ts id;
    timer_set (ts_wait_timer t) (backoff t);;
    tcp_socket_ref ts;;
    timer_attach (ts_wait_timer t);;
    n ← mem_ (netbuf_get_refs (ts_awaiting_ack t));
    if n =? 1 then
      drop_deferred_ack ts;;
      a ← get_sock ts ts_awaiting_ack;
      nb ← mem_ (netbuf_clone a);
      mod_sock ts (fun t => t <| ts_retransmits := u16 (ts_retransmits t + 1) |>);;
      unlock_ti;;
      tcp_send_sequence ts nb;;
      deref_ nb
    else unlock_ti
  else unlock_ti.

Definition tcp_tick_time_wait (ts : Z) : W X unit :=
  lock_ti;;
  mod_sock ts (fun t => t <| ts_state := TCS_CLOSED |>);;
  tcp_socket_detach ts;;
  unlock_ti.

(** ** Closing *)

Fixpoint drop_netbufs (l : list Z) : W X unit :=
  match l with [] => mret tt | nb :: l => deref_ nb;; drop_netbufs l end.

(** The retransmission and the queued segments of a socket that closes. *)
Definition purge (ts : Z) : W X unit :=
  r ← retransmitting ts;
  if r : bool then
    stop_retransmit ts;;
    l ← get_sock ts ts_awaiting_send;
    mod_sock ts (fun t => t <| ts_awaiting_send := [] |>);;
    drop_netbufs l
  else mret tt.

Definition close_socket (ts : Z) : W X unit :=
  purge ts;;
  mod_sock ts (fun t => t <| ts_state := TCS_CLOSED |>);;
  tcp_socket_detach ts;;
  _ ← get_sock ts id; (* [&ts->ts_wait_cv] *)
  cv_signal ts.

Definition send_reset_close_socket (ts : Z) : W X unit :=
  purge ts;;
  mod_sock ts (fun t => t <| ts_state := TCS_CLOSED |>);;
  tcp_build_and_send_sequence ts TCF_RST;;
  tcp_socket_detach ts;;
  _ ← get_sock ts id;
  cv_signal ts.

(** ** Received options *)

(** The loop of [tcp_recv_options]: the new MSS, if there is one; each pass takes a
    byte or more off [length]. *)
Fixpoint walk_tcp_options (fuel : nat) (p length : Z) (mss : option Z) : P (option Z) :=
  match fuel with
  | O => fun _ => Fuel
  | S fuel =>
    if length =? 0 then mret mss
    else
      opt ← rd8 p;
      if opt =? 0x00 then mret mss
      else if opt =? 0x01 then walk_tcp_options fuel (p + 1) (u8 (length - 1)) mss
      else if length =? 1 then mret mss
      else
        optsz ← rd8 (p + 1);
        if (optsz <? 2) || (length <? optsz) then mret mss
        else
          v ← rd16 (p + 2);
          walk_tcp_options fuel (p + 2 + (optsz - 2)) (u8 (length - optsz))
            (if (opt =? 0x02) && (optsz =? 0x02) then Some (hton16 v) else mss)
  end.

(** A pass takes at least a byte off, so the fuel [tcp_recv_options] gives is enough. *)
Lemma walk_tcp_options_ends fuel : forall p length mss q, 0 <= length < 2 ^ 8 -> (Z.to_nat length < fuel)%nat ->
  exists v, walk_tcp_options fuel p length mss q = Ok (v, q).
Proof.
  induction fuel as [|fuel IH]; intros p length mss q Hl Hf; [lia|]. cbn [walk_tcp_options].
  destruct (Z.eqb_spec length 0); [by eexists|].
  cbv [rd8 rd16 gets mbind ST_bind]. cbv beta iota. generalize (load8 (p_mem q) p). intros opt.
  destruct (opt =? 0x00); [by eexists|].
  destruct (opt =? 0x01); [rewrite u8_small by lia; apply IH; lia|].
  destruct (Z.eqb_spec length 1); [by eexists|].
  generalize (load8 (p_mem q) (p + 1)). intros optsz.
  destruct ((optsz <? 2) || (length <? optsz)) eqn:E; [by eexists|]. apply orb_false_iff in E as [E1%Z.ltb_ge E2%Z.ltb_ge].
  rewrite u8_small by lia. apply IH; lia.
Qed.

Definition tcp_recv_options (sock nb : Z) : W X unit :=
  th ← mem_ (rd32 (nb + Nb.transport));
  b ← mem_ (rd8 (th + Th.data_offs));
  let length := u8 (Z.shiftl (Z.shiftr b 4) 2 - Th.sizeof) in
  mss ← mem_ (walk_tcp_options (S (Z.to_nat length)) (th + Th.sizeof) length None);
  match mss with
  | Some v => mod_sock sock (fun t => t <| ts_remote_mss := v |>)
  | None => mret tt
  end.

(** ** The state machine *)

(** The fields of the segment's header, read where the source reads them. *)
Definition th_flags (tch : Z) : W X Z := mem_ (gets (fun p => seg_flags p tch)).
Definition th_seq (tch : Z) : W X Z := mem_ (gets (fun p => seg_seq p tch)).
Definition th_acked (tch : Z) : W X Z := mem_ (gets (fun p => seg_ack p tch)).

(** [tc = sock->ts_client; if (tc && tc->tc_close) ...] *)
Definition notify_close (sock : Z) : W X unit :=
  tc ← get_sock sock ts_client;
  if tc =? 0 then mret tt
  else
    set ← get_client tc tc_close_set;
    if set : bool then
      tcp_client_ref tc;;
      unlock_ti;;
      tc_close tc;;
      lock_ti;;
      tcp_client_deref tc
    else mret tt.

(** The data of a segment in sequence. *)
Definition recv_data (sock nb : Z) : W X unit :=
  asz ← mem_ (rd32 (nb + Nb.application_size));
  if negb (asz =? 0) then
    mod_sock sock (fun t => t <| ts_rcv_nxt := u32 (ts_rcv_nxt t + asz) |>);;
    tcp_build_and_send_sequence sock TCF_ACK;;
    tc ← get_sock sock ts_client;
    if tc =? 0 then mret tt
    else
      tcp_client_ref tc;;
      unlock_ti;;
      tc_recv tc nb;;
      lock_ti;;
      tcp_client_deref tc
  else mret tt.

(** The next queued segment, if there is one, is sent. *)
Definition send_next (sock : Z) : W X bool :=
  l ← get_sock sock ts_awaiting_send;
  match l with
  | [] => mret false
  | nb :: l =>
    mod_sock sock (fun t => t <| ts_awaiting_send := l |>);;
    tcp_send_netbuf_now sock nb;;
    deref_ nb;;
    mret true
  end.

Definition enter_time_wait (sock : Z) : W X unit :=
  mod_sock sock (fun t => t <| ts_state := TCS_TIME_WAIT |>);;
  t ← get_sock sock ts_wait_timer;
  timer_callback t TCP_TICK_TIME_WAIT;;
  timer_set t (60 * TICK_RATE);;
  timer_attach t.

(** What the states from [TCS_ESTABLISHED] on begin with, and [TCS_SYN_RECEIVED] up to
    the test of the ACK flag: only a segment in sequence with ACK and without RST and
    SYN goes on. *)
Definition acceptable (sock tch : Z) (on_close : W X unit) (go_on : W X unit) : W X unit :=
  seq ← th_seq tch;
  rcv_nxt ← get_sock sock ts_rcv_nxt;
  flags ← th_flags tch;
  if negb (seq =? rcv_nxt) && negb (has flags TCF_RST) then tcp_build_and_send_sequence sock TCF_ACK
  else if has flags TCF_RST then close_socket sock;; on_close
  else if has flags TCF_SYN then send_reset_close_socket sock;; on_close
  else if negb (has flags TCF_ACK) then mret tt
  else go_on.

(** The acknowledgement: [all_acked] when everything sent is acknowledged, its result
    says whether the segment is dealt with further, by [go_on]. *)
Definition acknowledge (sock tch : Z) (all_acked : W X bool) (go_on : W X unit) : W X unit :=
  netack ← th_acked tch;
  snd_nxt ← get_sock sock ts_snd_nxt;
  if snd_nxt <? netack then tcp_build_and_send_sequence sock TCF_ACK
  else
    snd_una ← get_sock sock ts_snd_una;
    more ← (if snd_una <=? netack then
              now ← gets (fun w => jiffies (w_more w));
              mod_sock sock (calc_round_trip now);;
              mod_sock sock (fun t => t <| ts_snd_una := netack |>);;
              snd_nxt ← get_sock sock ts_snd_nxt;
              if netack =? snd_nxt then all_acked else mret true
            else mret true);
    if more : bool then go_on else mret tt.

Definition recv_listen (sock nb iph tch : Z) : W X unit :=
  flags ← th_flags tch;
  if has flags TCF_RST then mret tt
  else if has flags TCF_ACK then
    sp ← mem_ (rd16 (tch + Th.src_port));
    sa ← mem_ (rd32 (iph + Ih.src_addr));
    a ← th_acked tch;
    mod_sock sock (fun t => t <| ts_remote_port := hton16 sp |> <| ts_remote_addr := hton32 sa |> <| ts_snd_nxt := a |>);;
    tcp_build_and_send_sequence sock TCF_RST
  else if has flags TCF_SYN then
    waiting ← get_sock sock ts_awaiting_accept;
    if waiting =? 0 then
      consock ← tcp_socket_alloc;
      t ← get_sock sock id;
      sp ← mem_ (rd16 (tch + Th.src_port));
      sa ← mem_ (rd32 (iph + Ih.src_addr));
      seq ← th_seq tch;
      mod_sock consock (fun c => c <| ts_local_port := ts_local_port t |> <| ts_remote_port := hton16 sp |>
        <| ts_remote_addr := hton32 sa |> <| ts_snd_nxt := ts_snd_nxt t |> <| ts_snd_una := ts_snd_una t |>
        <| ts_rcv_nxt := u32 (seq + 1) |>);;
      mod_sock sock (fun t => t <| ts_awaiting_accept := consock |>);;
      tc ← get_sock sock ts_client;
      if tc =? 0 then mret tt
      else
        tcp_client_ref tc;;
        unlock_ti;;
        srv ← get_sock sock ts_server;
        tc_connect tc srv;;
        lock_ti;;
        tcp_client_deref tc
    else mret tt
  else mret tt.

Definition recv_syn_sent (sock nb iph tch : Z) : W X unit :=
  flags ← th_flags tch;
  a ← th_acked tch;
  snd_nxt ← get_sock sock ts_snd_nxt;
  if has flags TCF_ACK && negb (a =? snd_nxt) then
    if negb (has flags TCF_RST) then tcp_build_and_send_sequence sock TCF_RST else mret tt
  else
    (if has flags TCF_ACK then
       now ← gets (fun w => jiffies (w_more w));
       mod_sock sock (calc_round_trip now);;
       r ← retransmitting sock;
       if r : bool then stop_retransmit sock else mret tt
     else mret tt);;
    flags ← th_flags tch;
    (if has flags TCF_RST && has flags TCF_ACK then
       mod_sock sock (fun t => t <| ts_state := TCS_CLOSED |>);;
       tcp_socket_detach sock;;
       _ ← get_sock sock id;
       cv_signal sock
     else mret tt);;
    flags ← th_flags tch;
    if has flags TCF_SYN then
      seq ← th_seq tch;
      mod_sock sock (fun t => t <| ts_rcv_nxt := u32 (seq + 1) |>);;
      if has flags TCF_ACK then
        mod_sock sock (fun t => t <| ts_state := TCS_ESTABLISHED |> <| ts_snd_una := u32 (ts_snd_una t + 1) |>);;
        tcp_build_and_send_sequence sock TCF_ACK;;
        _ ← get_sock sock id;
        cv_signal sock
      else
        r ← retransmitting sock;
        (if r : bool then stop_retransmit sock else mret tt);;
        mod_sock sock (fun t => t <| ts_state := TCS_SYN_RECEIVED |>);;
        tcp_build_and_send_sequence sock (Z.lor TCF_SYN TCF_ACK)
    else mret tt.

Definition recv_syn_received (sock nb iph tch : Z) : W X unit :=
  acceptable sock tch (notify_close sock) (
    a ← th_acked tch;
    snd_nxt ← get_sock sock ts_snd_nxt;
    if negb (a =? snd_nxt) then tcp_build_and_send_sequence sock TCF_RST
    else
      now ← gets (fun w => jiffies (w_more w));
      mod_sock sock (calc_round_trip now);;
      r ← retransmitting sock;
      (if r : bool then stop_retransmit sock;; _ ← send_next sock; mret tt else mret tt);;
      mod_sock sock (fun t => t <| ts_state := TCS_ESTABLISHED |> <| ts_snd_una := u32 (ts_snd_una t + 1) |>);;
      cv_signal sock;;
      flags ← th_flags tch;
      if has flags TCF_FIN then
        mod_sock sock (fun t => t <| ts_rcv_nxt := u32 (ts_rcv_nxt t + 1) |> <| ts_state := TCS_LAST_ACK |>);;
        tcp_build_and_send_sequence sock (Z.lor TCF_ACK TCF_FIN);;
        notify_close sock
      else mret tt).

(** Everything is acknowledged: the next segment can go. *)
Definition acked_send_next (sock : Z) : W X bool :=
  r ← retransmitting sock;
  (if r : bool then stop_retransmit sock;; _ ← send_next sock; mret tt else mret tt);;
  mret true.

Definition recv_established (sock nb iph tch : Z) : W X unit :=
  acceptable sock tch (notify_close sock) (
    acknowledge sock tch (acked_send_next sock) (
      recv_data sock nb;;
      flags ← th_flags tch;
      if has flags TCF_FIN then
        mod_sock sock (fun t => t <| ts_rcv_nxt := u32 (ts_rcv_nxt t + 1) |>);;
        r ← retransmitting sock;
        (if r : bool then
           mod_sock sock (fun t => t <| ts_state := TCS_CLOSE_WAIT |>);;
           tcp_build_and_send_sequence sock TCF_ACK
         else
           mod_sock sock (fun t => t <| ts_state := TCS_LAST_ACK |>);;
           tcp_build_and_send_sequence sock (Z.lor TCF_ACK TCF_FIN));;
        _ ← get_sock sock id;
        cv_signal sock;;
        notify_close sock
      else mret tt)).

(** In [TCS_FIN_WAIT1]. *)
Definition acked_fin_wait1 (sock : Z) : W X bool :=
  r ← retransmitting sock;
  (if r : bool then
     stop_retransmit sock;;
     n ← send_next sock;
     if n : bool then mret tt
     else
       flags ← get_sock sock ts_send_flags;
       if has flags TCP_SND_DEFERRED_FIN then
         mod_sock sock (fun t => t <| ts_send_flags := clear (ts_send_flags t) TCP_SND_DEFERRED_FIN |>);;
         unlock_ti;;
         tcp_send_close sock;;
         lock_ti
       else mod_sock sock (fun t => t <| ts_state := TCS_FIN_WAIT2 |>)
   else mod_sock sock (fun t => t <| ts_state := TCS_FIN_WAIT2 |>));;
  mret true.

Definition recv_fin_wait1 (sock nb iph tch : Z) : W X unit :=
  acceptable sock tch (mret tt) (
    acknowledge sock tch (acked_fin_wait1 sock) (
      recv_data sock nb;;
      flags ← th_flags tch;
      if has flags TCF_FIN then
        mod_sock sock (fun t => t <| ts_rcv_nxt := u32 (ts_rcv_nxt t + 1) |>);;
        state ← get_sock sock ts_state;
        (if state =? TCS_FIN_WAIT2 then enter_time_wait sock
         else mod_sock sock (fun t => t <| ts_state := TCS_CLOSING |>));;
        tcp_build_and_send_sequence sock TCF_ACK
      else mret tt)).

Definition recv_fin_wait2 (sock nb iph tch : Z) : W X unit :=
  acceptable sock tch (mret tt) (
    acknowledge sock tch (acked_send_next sock) (
      recv_data sock nb;;
      flags ← th_flags tch;
      if has flags TCF_FIN then
        mod_sock sock (fun t => t <| ts_rcv_nxt := u32 (ts_rcv_nxt t + 1) |>);;
        enter_time_wait sock;;
        tcp_build_and_send_sequence sock TCF_ACK
      else mret tt)).

(** In [TCS_CLOSE_WAIT]; after it has sent something the segment is done with. *)
Definition acked_close_wait (sock : Z) : W X bool :=
  r ← retransmitting sock;
  if r : bool then
    stop_retransmit sock;;
    n ← send_next sock;
    (if n : bool then mret tt
     else
       unlock_ti;;
       tcp_send_close sock;;
       lock_ti;;
       mod_sock sock (fun t => t <| ts_state := TCS_LAST_ACK |>));;
    mret false
  else mret true.

Definition recv_close_wait (sock nb iph tch : Z) : W X unit :=
  acceptable sock tch (mret tt) (
    acknowledge sock tch (acked_close_wait sock) (
      recv_data sock nb;;
      flags ← th_flags tch;
      if has flags TCF_FIN then tcp_build_and_send_sequence sock TCF_ACK else mret tt)).

Definition acked_closing (sock : Z) : W X bool :=
  r ← retransmitting sock;
  (if r : bool then stop_retransmit sock else mret tt);;
  enter_time_wait sock;;
  mret true.

Definition recv_closing (sock nb iph tch : Z) : W X unit :=
  acceptable sock tch (mret tt) (acknowledge sock tch (acked_closing sock) (mret tt)).

Definition recv_last_ack (sock nb iph tch : Z) : W X unit :=
  acceptable sock tch (mret tt) (acknowledge sock tch (close_socket sock;; mret true) (mret tt)).

Definition tcp_recv_state_machine (sock nb : Z) : W X unit :=
  iph ← mem_ (rd32 (nb + Nb.network));
  tch ← mem_ (rd32 (nb + Nb.transport));
  state ← get_sock sock ts_state;
  if state =? TCS_LISTEN then recv_listen sock nb iph tch
  else if state =? TCS_SYN_SENT then recv_syn_sent sock nb iph tch
  else if state =? TCS_SYN_RECEIVED then recv_syn_received sock nb iph tch
  else if state =? TCS_ESTABLISHED then recv_established sock nb iph tch
  else if state =? TCS_FIN_WAIT1 then recv_fin_wait1 sock nb iph tch
  else if state =? TCS_FIN_WAIT2 then recv_fin_wait2 sock nb iph tch
  else if state =? TCS_CLOSE_WAIT then recv_close_wait sock nb iph tch
  else if state =? TCS_CLOSING then recv_closing sock nb iph tch
  else if state =? TCS_LAST_ACK then recv_last_ack sock nb iph tch
  else mret tt.

(** ** Receiving *)

(** The walk is over the socket list as it is when it starts. *)
Definition tcp_recv_netbuf_icmp (nb : Z) : W X unit :=
  ich ← mem_ (rd32 (nb + Nb.transport));
  type ← mem_ (rd8 (ich + Ich.type));
  if negb (type =? 0x04) then mret tt
  else
    iph ← mem_ (rd32 (nb + Nb.application));
    b ← mem_ (rd8 iph);
    let tch := iph + Z.land b 0x0f * 4 in
    lock_ti;;
    dp ← mem_ (rd16 (tch + Th.dest_port));
    sa ← mem_ (rd32 (iph + Ih.src_addr));
    sp ← mem_ (rd16 (tch + Th.src_port));
    m ← get_part ti_sockets;
    l ← get_part ti_socks;
    o ← of_res (find_sock (fun t => (ts_local_port t =? hton16 dp) && (ts_remote_addr t =? hton32 sa)
                                    && (ts_remote_port t =? hton16 sp)) m l);
    match o with
    | Some sock =>
      code ← mem_ (rd8 (ich + Ich.code));
      state ← get_sock sock ts_state;
      if (2 <=? code) && (code <=? 4) then
        if (state =? TCS_SYN_RECEIVED) || (state =? TCS_ESTABLISHED) || (state =? TCS_FIN_WAIT1)
           || (state =? TCS_FIN_WAIT2) || (state =? TCS_CLOSE_WAIT)
        then send_reset_close_socket sock
        else close_socket sock
      else mret tt
    | None => mret tt
    end;;
    unlock_ti.

(** The ICMP "port unreachable" answer of [tcp_recv_netbuf]. *)
Definition tcp_unreachable (srv nb iph : Z) : W X unit :=
  nbrep ← mem_ netbuf_alloc;
  nsz ← mem_ (rd32 (nb + Nb.network_size));
  m ← mem_ (membuf_alloc (u32 (nsz + 8)) 0);
  mem_ (wr32 (nbrep + Nb.application_membuf) m);;
  a ← mem_ (rd32 (nbrep + Nb.application_membuf));
  mem_ (wr32 (nbrep + Nb.application) a);;
  mem_ (wr32 (nbrep + Nb.application_size) (u32 (nsz + 8)));;
  iphc ← mem_ (rd32 (nbrep + Nb.application));
  n ← mem_ (rd32 (nb + Nb.network));
  mem_ (memcpy iphc n nsz);;
  t ← mem_ (rd32 (nb + Nb.transport));
  mem_ (memcpy (iphc + Ih.sizeof) t 8);;
  src_addr ← mem_ (rd32 (iph + Ih.src_addr));
  icmp_send_netbuf ids_send src_addr 0x03 0x03 (mret 0) nbrep;;
  deref_ srv;;
  deref_ nbrep.

(** The checksum over pseudo header, header and data. *)
Definition segment_csum (nb src_addr : Z) : W X Z :=
  addr ← get_ii ii_addr;
  tsz ← mem_ (rd32 (nb + Nb.transport_size));
  asz ← mem_ (rd32 (nb + Nb.application_size));
  let c := ipcsum_pseudo_partial (hton32 addr) src_addr 0x06 (hton16 (u16 (tsz + asz))) in
  t ← mem_ (rd32 (nb + Nb.transport));
  c ← mem_ (csum_partial c t tsz);
  a ← mem_ (rd32 (nb + Nb.application));
  mem_ (Ip.csum c a asz).

Definition tcp_recv_netbuf (ic : ip_client) (nb : Z) : W X unit :=
  iph ← mem_ (rd32 (nb + Nb.network));
  tch ← mem_ (rd32 (nb + Nb.transport));
  b ← mem_ (rd8 (tch + Th.data_offs));
  let offs := Z.shiftr b 4 in
  mem_ (wr32 (nb + Nb.application) (tch + 4 * offs));;
  tsz ← mem_ (rd32 (nb + Nb.transport_size));
  mem_ (wr32 (nb + Nb.application_size) (u32 (tsz - offs * 4)));;
  mem_ (wr32 (nb + Nb.transport_size) (offs * 4));;
  cs ← mem_ (rd16 (tch + Th.csum));
  src_addr ← mem_ (rd32 (iph + Ih.src_addr));
  c ← (if negb (cs =? 0) then segment_csum nb src_addr else mret 0);
  if negb (c =? 0) then mret tt
  else
    lock_ti;;
    dp ← mem_ (rd16 (tch + Th.dest_port));
    sp ← mem_ (rd16 (tch + Th.src_port));
    m ← get_part ti_sockets;
    l ← get_part ti_socks;
    o ← of_res (find_receiver (hton16 dp) (hton32 src_addr) (hton16 sp) m None l);
    match o with
    | Some sock =>
      tcp_recv_options sock nb;;
      tcp_recv_state_machine sock nb;;
      unlock_ti
    | None =>
      srv ← get_part ti_server;
      mem_ (membuf_ref srv);;
      unlock_ti;;
      tcp_unreachable srv nb iph
    end.

(** ** The interface to the clients *)

(** A new socket goes to the server [ts] and its client. *)
Definition bind_socket (ts sock : Z) : W X unit :=
  tc ← get_server ts tsv_client;
  mod_client tc (fun c => c <| tc_socket := sock |>);;
  mod_server ts (fun s => s <| tsv_socket := sock |>);;
  mod_sock sock (fun t => t <| ts_client := tc |> <| ts_server := ts |>).

Definition tcp_listen (ts port : Z) : W X unit :=
  lock_ti;;
  s ← get_server ts tsv_socket;
  if negb (s =? 0) then unlock_ti
  else
    sock ← tcp_socket_alloc;
    mod_sock sock (fun t => t <| ts_state := TCS_LISTEN |> <| ts_local_port := port |>);;
    tcp_socket_attach sock;;
    _ ← tcp_socket_deref sock;
    bind_socket ts sock;;
    unlock_ti.

(** The listening socket of [listents] if [ts] can take its connection. *)
Definition listening (ts listents : Z) : W X (option Z) :=
  s ← get_server ts tsv_socket;
  l ← get_server listents tsv_socket;
  if negb (s =? 0) || (l =? 0) then mret None
  else
    state ← get_sock l ts_state;
    if negb (state =? TCS_LISTEN) then mret None else mret (Some l).

(** The socket that waits to be accepted, taken from the listener. *)
Definition take_waiting (listensock : Z) (why : string) : W X Z :=
  sock ← get_sock listensock ts_awaiting_accept;
  if negb (sock =? 0) then
    mod_sock listensock (fun t => t <| ts_awaiting_accept := 0 |>);;
    mret sock
  else fun _ => Stop why.

Definition tcp_accept (ts listents : Z) : W X Z :=
  lock_ti;;
  l ← listening ts listents;
  match l with
  | None => unlock_ti;; mret (-1)
  | Some listensock =>
    sock ← take_waiting listensock "tcp_accept: no waiting socket";
    mod_sock sock (fun t => t <| ts_state := TCS_SYN_RECEIVED |>);;
    tcp_socket_attach sock;;
    _ ← tcp_socket_deref sock;
    bind_socket ts sock;;
    tcp_build_and_send_sequence sock (Z.lor TCF_SYN TCF_ACK);;
    unlock_ti;;
    mret 0
  end.

Definition tcp_reject (ts listents : Z) : W X unit :=
  lock_ti;;
  l ← listening ts listents;
  match l with
  | None => unlock_ti
  | Some listensock =>
    sock ← take_waiting listensock "tcp_reject: no waiting socket";
    tcp_build_and_send_sequence sock TCF_RST;;
    _ ← tcp_socket_deref sock;
    unlock_ti
  end.

(** [while] the connection is being set up, for at most [fuel] wake-ups. *)
Fixpoint connect_wait (fuel : nat) (sock : Z) : W X unit :=
  match fuel with
  | O => fun _ => Fuel
  | S fuel =>
    state ← get_sock sock ts_state;
    if (state =? TCS_SYN_SENT) || (state =? TCS_SYN_RECEIVED) then
      interrupted ← cv_wait sock;
      (if interrupted : bool then
         r ← retransmitting sock;
         (if r : bool then stop_retransmit sock else mret tt);;
         mod_sock sock (fun t => t <| ts_state := TCS_CLOSED |>);;
         tcp_socket_detach sock
       else mret tt);;
      connect_wait fuel sock
    else mret tt
  end.

Fixpoint local_ports (m : gmap Z tcp_socket) (l : list Z) : res (list Z) :=
  match l with
  | [] => Ok []
  | a :: l =>
    match m !! a with
    | None => Stop "use of a freed socket"
    | Some t => ps ← local_ports m l; Ok (ts_local_port t :: ps)
    end
  end.

Definition tcp_connect (fuel : nat) (ts addr port : Z) : W X Z :=
  lock_ti;;
  s ← get_server ts tsv_socket;
  if negb (s =? 0) then unlock_ti;; mret (-1)
  else
    m ← get_part ti_sockets;
    l ← get_part ti_socks;
    used ← of_res (local_ports m l);
    last ← get_part ti_last_local_port;
    lp ← of_res (next_port (S (length used)) used last);
    mod_part (fun i : tcp_instance => i <| ti_last_local_port := lp |>);;
    sock ← tcp_socket_alloc;
    mod_sock sock (fun t => t <| ts_local_port := lp |> <| ts_remote_port := port |> <| ts_remote_addr := addr |>
                              <| ts_state := TCS_SYN_SENT |>);;
    tcp_socket_attach sock;;
    _ ← tcp_socket_deref sock;
    bind_socket ts sock;;
    tcp_build_and_send_sequence sock TCF_SYN;;
    connect_wait fuel sock;;
    unlock_ti;;
    mret 0.

Definition client_close_socket (sock : Z) : W X unit :=
  state ← get_sock sock ts_state;
  if state =? TCS_LISTEN then tcp_socket_detach sock
  else if state =? TCS_ESTABLISHED then
    mod_sock sock (fun t => t <| ts_state := TCS_FIN_WAIT1 |>);;
    r ← retransmitting sock;
    if negb r then
      unlock_ti;;
      tcp_send_close sock;;
      lock_ti
    else mod_sock sock (fun t => t <| ts_send_flags := Z.lor (ts_send_flags t) TCP_SND_DEFERRED_FIN |>)
  else mret tt.

Definition tcp_close (ts : Z) : W X unit :=
  lock_ti;;
  sock ← get_server ts tsv_socket;
  client_close_socket sock;;
  mod_server ts (fun s => s <| tsv_socket := 0 |>);;
  tc ← get_server ts tsv_client;
  mod_client tc (fun c => c <| tc_socket := 0 |>);;
  mod_sock sock (fun t => t <| ts_server := 0 |> <| ts_client := 0 |>);;
  unlock_ti.

(** [nb] behind the last netbuf of the queue. *)
Definition queue_segment (sock nb : Z) : W X unit :=
  mem_ (netbuf_ref nb);;
  l ← get_sock sock ts_awaiting_send;
  mem_ (wr32 (nb + Nb.next) 0);;
  (match last l with Some p => mem_ (wr32 (p + Nb.next) nb) | None => mret tt end);;
  mod_sock sock (fun t => t <| ts_awaiting_send := l ++ [nb] |>).

Definition tcp_send_netbuf (ts nb : Z) : W X unit :=
  lock_ti;;
  sock ← get_server ts tsv_socket;
  if sock =? 0 then unlock_ti
  else
    state ← get_sock sock ts_state;
    if negb (state =? TCS_ESTABLISHED) then unlock_ti
    else
      r ← retransmitting sock;
      if r : bool then
        queue_segment sock nb;;
        unlock_ti
      else
        drop_deferred_ack sock;;
        build_netbuf sock (Z.lor TCF_PSH TCF_ACK) nb;;
        asz ← mem_ (rd32 (nb + Nb.application_size));
        await_ack sock nb asz;;
        unlock_ti;;
        tcp_send_sequence sock nb.

(** ** Allocation *)

Definition tcp_server_alloc : W X Z := mem_ (membuf_alloc sizeof_tcp_server 0).

(** The callbacks are filled in by the caller. *)
Definition tcp_client_alloc (close : bool) : W X Z :=
  tc ← mem_ (membuf_alloc sizeof_tcp_client 0);
  mod_part (fun i : tcp_instance => i <| ti_clients := <[tc := Tcp_client_ 0 0 close]> (ti_clients i) |>);;
  mret tc.

Definition tcp_client_attach (tc : Z) : W X Z :=
  lock_ti;;
  ts ← tcp_server_alloc;
  mod_part (fun i : tcp_instance => i <| ti_servers := <[ts := Tcp_server_ tc 0]> (ti_servers i) |>);;
  tcp_instance_ref;;
  mod_client tc (fun c => c <| tc_server := ts |>);;
  mod_part (fun i : tcp_instance => i <| ti_client_list := tc :: ti_client_list i |>);;
  tcp_client_ref tc;;
  unlock_ti;;
  mret ts.

(** The client of the server [ts] and the list without it. *)
Fixpoint unlink_tcp_client (ts : Z) (m : gmap Z tcp_client) (l : list Z) : res (option (Z * list Z)) :=
  match l with
  | [] => Ok None
  | tc :: l =>
    match m !! tc with
    | None => Stop "use of a freed client"
    | Some c =>
      if tc_server c =? ts then Ok (Some (tc, l))
      else
        o ← unlink_tcp_client ts m l;
        Ok (match o with Some (a, l) => Some (a, tc :: l) | None => None end)
    end
  end.

Definition tcp_client_detach (ts : Z) : W X unit :=
  lock_ti;;
  sock ← get_server ts tsv_socket;
  (if negb (sock =? 0) then client_close_socket sock else mret tt);;
  m ← get_part ti_clients;
  l ← get_part ti_client_list;
  o ← of_res (unlink_tcp_client ts m l);
  match o with
  | Some (tc, l) =>
    mod_part (fun i : tcp_instance => i <| ti_client_list := l |>);;
    tcp_client_deref tc;;
    tcp_instance_deref;;
    tcp_server_deref ts
  | None => mret tt
  end;;
  unlock_ti.

(** The copies of the sockets, at most [max]; [ts_next] of a copy has the address. *)
Definition tcp_dump_stats (max : nat) : W X (list (Z * tcp_socket)) :=
  lock_ti;;
  m ← get_part ti_sockets;
  l ← get_part ti_socks;
  unlock_ti;;
  mret (omap (fun a => t ← m !! a; Some (a, t)) (take max l)).

Definition tcp_instance_alloc : W X Z :=
  ti ← mem_ (membuf_alloc sizeof_tcp_instance 0);
  mod_part (fun _ : tcp_instance => Tcp_instance_ ti false [] [] 0x1008 0 ∅ ∅ ∅);;
  ic ← ip_client_alloc 0x06 true;
  tcp_instance_ref;;
  srv ← ip_client_attach ic;
  mod_part (fun i : tcp_instance => i <| ti_server := srv |>);;
  ip_client_deref ic;;
  mret ti.
End tcp.
