(* ===== verification/TcpKeep.v ===== *)
(** * What the handlers of TCP leave alone

    A handler of [Tcp.v] keeps a relation on the state of the host if every run of it
    that comes to its end is in the relation.  This file has the rules for it, the
    class [SockRel] of the relations that look at the sockets only, and the operations
    that keep every such relation because they assign to no field of a socket.
    [TcpRecv.v] and [TcpSend.v] use it for the receiving and for the sending side. *)

From stdpp Require Import base list gmap fin_maps strings.
From Stdlib Require Import ZArith Lia.
From S2P Require Import Prelude Heap Oneshot Membuf NetbufMem Ipcsum Ip Parts EthernetIp Tcp.
Open Scope Z_scope.

(** ** Handlers that keep a relation *)

Section keeping.
Context {X : Type} (R : X -> X -> Prop) `{!PreOrder R}.

Definition keeping {A} (m : W X A) : Prop := forall p i x, wlp m (fun _ w => R x (w_more w)) (World_ p i x).

Lemma wlp_keep {A} (m : W X A) (Q : A -> world X -> Prop) p i x :
  keeping m -> (forall a p' i' y, R x y -> Q a (World_ p' i' y)) -> wlp m Q (World_ p i x).
Proof. intros Hm HQ. eapply wlp_mono; [|by apply Hm]. intros a [p' i' y] Hy. by apply HQ. Qed.

Lemma keeping_ret {A} (a : A) : keeping (mret a).
Proof. intros p i x. by apply wlp_ret. Qed.

Lemma keeping_bind {A B} (m : W X A) (k : A -> W X B) : keeping m -> (forall a, keeping (k a)) -> keeping (m ≫= k).
Proof.
  intros Hm Hk p i x. apply wlp_bind. eapply wlp_mono; [|by apply Hm]. intros a [p' i' x'] H1. eapply wlp_mono; [|by apply Hk].
  intros ? w H2. by transitivity x'.
Qed.

Lemma keeping_gets {A} (f : world X -> A) : keeping (gets f).
Proof. intros p i x. by apply wlp_gets. Qed.

Lemma keeping_mem {A} (m : P A) : keeping (mem_ m).
Proof. intros p i x. by apply wlp_mem. Qed.

Lemma keeping_deref a : keeping (deref_ a).
Proof. intros p i x. by apply wlp_deref. Qed.

Lemma keeping_mod_ii f : keeping (mod_ii f).
Proof. intros p i x. by apply wlp_mod_ii. Qed.

Lemma keeping_of_res {A} (r : res A) : keeping (of_res r).
Proof. intros p i x. by apply wlp_of_res. Qed.

Lemma keeping_if {A} (b : bool) (m n : W X A) : keeping m -> keeping n -> keeping (if b then m else n).
Proof. by destruct b. Qed.

Lemma keeping_stop {A} e : keeping ((fun _ => Stop e) : W X A).
Proof. intros p i x. exact I. Qed.

Lemma keeping_lock_ii : keeping lock_ii.
Proof. repeat (apply keeping_bind; [apply keeping_gets || apply keeping_of_res|intros ?]). apply keeping_mod_ii. Qed.

Lemma keeping_unlock_ii : keeping unlock_ii.
Proof. repeat (apply keeping_bind; [apply keeping_gets || apply keeping_of_res|intros ?]). apply keeping_mod_ii. Qed.

Context {A : Type} `{Part X A}.

Lemma keeping_get_part {B} (f : A -> B) : keeping (get_part f).
Proof. apply keeping_gets. Qed.

Lemma keeping_mod_part (f : A -> A) : (forall x, R x (part_put (f (part_get x)) x)) -> keeping (mod_part f).
Proof. intros Hf p i x. by apply wlp_mod_part. Qed.

Lemma keeping_run_part {B} (f : A -> res (B * A)) : (forall x (a : A), R x (part_put a x)) -> keeping (run_part f).
Proof. intros Hf p i x. apply wlp_run_part. intros. apply Hf. Qed.

Lemma keeping_lock_part (lock : A -> bool) set_lock :
  (forall x b, R x (part_put (set_lock b (part_get x)) x)) -> keeping (lock_part lock set_lock).
Proof. intros Hf p i x. apply wlp_lock_part. intros. apply Hf. Qed.

Lemma keeping_unlock_part (lock : A -> bool) set_lock :
  (forall x b, R x (part_put (set_lock b (part_get x)) x)) -> keeping (unlock_part lock set_lock).
Proof. intros Hf p i x. apply wlp_unlock_part. intros. apply Hf. Qed.
End keeping.

(** ** Relations on the sockets *)

(** The states in which a socket takes data. *)
Definition takes_data (t : tcp_socket) : Prop :=
  ts_state t ∈ [TCS_ESTABLISHED; TCS_FIN_WAIT1; TCS_FIN_WAIT2; TCS_CLOSE_WAIT].

Section sockets.
Context {X : Type} `{PI : Part X tcp_instance} `{PT : Part X timers}.

Definition socks (x : X) : gmap Z tcp_socket := ti_sockets (part_get x).

(** Relations that allow everything but an assignment to a field of a socket. *)
Class SockRel (R : X -> X -> Prop) := {
  sock_preorder :: PreOrder R;
  sock_stores x (j : tcp_instance) : ti_sockets j = socks x -> R x (part_put j x);
  sock_delete x (j : tcp_instance) a : ti_sockets j = delete a (socks x) -> R x (part_put j x);
  sock_timers x (s : timers) : R x (part_put s x) }.

(** The steps of a read and of an assignment. *)
Lemma wlp_get_sock {B} a (f : tcp_socket -> B) (Q : B -> world X -> Prop) p i x :
  (forall t, socks x !! a = Some t -> Q (f t) (World_ p i x)) -> wlp (get_sock a f) Q (World_ p i x).
Proof.
  intros HQ. apply wlp_bind, wlp_get_part, wlp_bind. fold (socks x). destruct (socks x !! a) as [t|] eqn:E; [|exact I].
  apply wlp_ret, wlp_ret. by apply HQ.
Qed.

Definition put_sock (a : Z) (t : tcp_socket) (x : X) : X :=
  part_put ((part_get x) <| ti_sockets := <[a := t]> (socks x) |>) x.

Lemma wlp_mod_sock a f (Q : unit -> world X -> Prop) p i x :
  (forall t, socks x !! a = Some t -> Q tt (World_ p i (put_sock a (f t) x))) -> wlp (mod_sock a f) Q (World_ p i x).
Proof. intros HQ. apply wlp_bind, wlp_get_sock. intros t Ht. apply wlp_mod_part. by apply HQ. Qed.

Lemma socks_put a t x : socks (put_sock a t x) = <[a := t]> (socks x).
Proof. unfold socks, put_sock. by rewrite part_get_put. Qed.

Lemma wlp_rd32 a (Q : Z -> world X -> Prop) p i x : Q (load32 (p_mem p) a) (World_ p i x) -> wlp (mem_ (rd32 a)) Q (World_ p i x).
Proof. done. Qed.

Lemma wlp_th_seq tch (Q : Z -> world X -> Prop) p i x : Q (seg_seq p tch) (World_ p i x) -> wlp (th_seq tch) Q (World_ p i x).
Proof. done. Qed.

Lemma wlp_th_acked tch (Q : Z -> world X -> Prop) p i x : Q (seg_ack p tch) (World_ p i x) -> wlp (th_acked tch) Q (World_ p i x).
Proof. done. Qed.

Lemma wlp_th_flags tch (Q : Z -> world X -> Prop) p i x : Q (seg_flags p tch) (World_ p i x) -> wlp (th_flags tch) Q (World_ p i x).
Proof. done. Qed.

(** ** What keeps every such relation *)

Context (R : X -> X -> Prop) `{!SockRel R}.

Lemma keep_lock : keeping R lock_ti.
Proof. apply keeping_lock_part. intros. by apply sock_stores. Qed.
Lemma keep_unlock : keeping R unlock_ti.
Proof. apply keeping_unlock_part. intros. by apply sock_stores. Qed.

Lemma keep_timer_run {B} (f : timers -> res (B * timers)) : keeping R (run_part f).
Proof. apply keeping_run_part. intros. apply sock_timers. Qed.
Lemma keep_timer_mod (f : timers -> timers) : keeping R (mod_part f).
Proof. apply keeping_mod_part. intros. apply sock_timers. Qed.

Lemma keep_not_null {B} e (o : option B) : keeping R (not_null e o).
Proof. destruct o; [apply keeping_ret, _|apply keeping_stop]. Qed.

Lemma keep_get_sock {B} a (f : tcp_socket -> B) : keeping R (get_sock a f).
Proof.
  apply keeping_bind; [apply _|apply keeping_get_part, _|intros o]. apply keeping_bind; [apply _|apply keep_not_null|intros t].
  apply keeping_ret, _.
Qed.

Lemma keep_mod_sock a f : (forall x t, socks x !! a = Some t -> R x (put_sock a (f t) x)) -> keeping R (mod_sock a f).
Proof. intros Hf p i x. apply wlp_mod_sock. intros t Ht. by apply Hf. Qed.
End sockets.

Create HintDb keep discriminated.
#[export] Hint Extern 0 (SockRel _) => apply _ : keep.

(** How a file shows that it may assign to a field. *)
Ltac keep_mod := fail.

Ltac keep_step :=
  lazymatch goal with
  | |- keeping _ (let _ := _ in _) => cbv zeta
  | |- keeping _ (mret _) => apply keeping_ret, _
  | |- keeping _ (_ ≫= _) => apply keeping_bind; [apply _| |intros ?]
  | |- keeping _ (mem_ _) => apply keeping_mem, _
  | |- keeping _ (deref_ _) => apply keeping_deref, _
  | |- keeping _ (gets _) => apply keeping_gets, _
  | |- keeping _ (get_ii _) => apply keeping_gets, _
  | |- keeping _ (mod_ii _) => apply keeping_mod_ii, _
  | |- keeping _ lock_ii => apply keeping_lock_ii, _
  | |- keeping _ unlock_ii => apply keeping_unlock_ii, _
  | |- keeping _ (get_part _) => apply keeping_get_part, _
  | |- keeping _ lock_ti => apply keep_lock, _
  | |- keeping _ unlock_ti => apply keep_unlock, _
  | |- keeping _ (get_sock _ _) => apply keep_get_sock, _
  | |- keeping _ (not_null _ _) => apply keep_not_null, _
  | |- keeping _ (mod_sock _ _) => keep_mod
  | |- keeping _ (timer_set _ _) => apply keep_timer_mod, _
  | |- keeping _ (timer_callback _ _) => apply keep_timer_mod, _
  | |- keeping _ (timer_attach _) => apply keep_timer_run, _
  | |- keeping _ (timer_detach _) => apply keep_timer_run, _
  | |- keeping _ (timer_deref _) => apply keep_timer_run, _
  | |- keeping _ (mod_part _) => apply keeping_mod_part; intros ?; by apply sock_stores
  | |- keeping _ (fun _ => Stop _) => apply keeping_stop
  | |- keeping _ (if _ then _ else _) => apply keeping_if
  | |- keeping _ (match _ with [] => _ | _ :: _ => _ end) => case_match
  | |- _ => solve [eauto with keep]
  end.
Ltac keeps := repeat keep_step.

Section operations.
Context {X : Type} `{PI : Part X tcp_instance} `{PT : Part X timers}.
Context (R : X -> X -> Prop) `{!SockRel R}.

Lemma keep_socket_deref a : keeping R (tcp_socket_deref a).
Proof. unfold tcp_socket_deref. keeps. apply keeping_mod_part. intros y. by eapply sock_delete. Qed.

Lemma keep_client_deref a : keeping R (tcp_client_deref a).
Proof. unfold tcp_client_deref. keeps. Qed.

Lemma keep_get_client {B} a (f : tcp_client -> B) : keeping R (get_client a f).
Proof. unfold get_client. keeps. Qed.

Lemma keep_get_server {B} a (f : tcp_server -> B) : keeping R (get_server a f).
Proof. unfold get_server. keeps. Qed.

Lemma keep_drop_netbufs l : keeping R (drop_netbufs l).
Proof. induction l; cbn [drop_netbufs]; keeps. Qed.

Lemma keep_build idi_mru a flags nb : keeping R (build_netbuf idi_mru a flags nb).
Proof. unfold build_netbuf. keeps. Qed.

#[local] Hint Resolve keep_socket_deref : keep.

Lemma keep_detach a : keeping R (tcp_socket_detach a).
Proof. unfold tcp_socket_detach. keeps. Qed.

Context (ids_send : Z -> Z -> W X unit) (send_keeps : forall ids nb, keeping R (ids_send ids nb)).

Lemma keep_ip_send dest protocol nb : keeping R (ip_send_netbuf ids_send dest protocol nb).
Proof. unfold ip_send_netbuf, ip_issue_netbuf. keeps. Qed.
#[local] Hint Resolve keep_ip_send : keep.

Lemma keep_send_sequence a nb : keeping R (tcp_send_sequence ids_send a nb).
Proof. unfold tcp_send_sequence. keeps. Qed.
End operations.

#[export] Hint Resolve keep_socket_deref keep_client_deref keep_get_client keep_get_server keep_drop_netbufs keep_build
  keep_detach keep_ip_send keep_send_sequence : keep.
