(* ===== verification/TcpRecv.v ===== *)
(** * What TCP hands to its clients

    The receiving side of a connection: which data a client gets, and in what order.
    A socket accepts a segment only where its stream goes on ([ts_rcv_nxt]), hands
    its data to the client once and moves [ts_rcv_nxt] behind it.

    The calls of [tc_recv] are logged in a part [deliveries] of the host.  The
    functions of the datalink, the clients and the condition variables are assumed
    to leave the receiving side of the socket alone while the handler runs. *)

From stdpp Require Import base list gmap fin_maps strings.
From Stdlib Require Import ZArith Lia.
From S2P Require Import Prelude Heap Oneshot Membuf NetbufMem Ipcsum Ip Parts EthernetIp Tcp TcpKeep.
Open Scope Z_scope.

(** The calls of [tc_recv]: client and netbuf. *)
Record deliveries := Deliveries_ { d_log : list (Z * Z) }.

Section receiver.
Context {X : Type} `{PI : Part X tcp_instance} `{PT : Part X timers} `{PD : Part X deliveries}
  `{!Apart X tcp_instance timers} `{!Apart X deliveries tcp_instance} `{!Apart X deliveries timers}
  `{!Apart X tcp_instance deliveries}.
Context (sock : Z).

Definition log (x : X) : list (Z * Z) := d_log (part_get x).

(** The socket, if it still exists, has the same place in its stream, and the same
    client if [b] is set; nothing was delivered. *)
Definition same_rx (b : bool) (x x' : X) : Prop :=
  log x' = log x
  /\ forall t', socks x' !! sock = Some t' -> exists t, socks x !! sock = Some t /\ ts_rcv_nxt t' = ts_rcv_nxt t
       /\ (b = true -> ts_client t' = ts_client t).

#[export] Instance same_rx_preorder b : PreOrder (same_rx b).
Proof.
  split; [intros x; split; [done|]; eauto|]. intros x y z [L1 H1] [L2 H2]. split; [congruence|].
  intros t3 E3. destruct (H2 _ E3) as (t2 & E2 & ? & Hc2). destruct (H1 _ E2) as (t1 & E1 & ? & Hc1). exists t1.
  split_and!; [done|congruence|]. intros Hb. rewrite Hc2, Hc1; done.
Qed.

Lemma same_rx_weak x x' : same_rx true x x' -> same_rx false x x'.
Proof. intros [L H]. split; [done|]. intros t' E. destruct (H t' E) as (t & ? & ? & _). by exists t. Qed.

Lemma same_rx_instance b x (j : tcp_instance) :
  (forall t', ti_sockets j !! sock = Some t' -> exists t, socks x !! sock = Some t /\ ts_rcv_nxt t' = ts_rcv_nxt t
    /\ (b = true -> ts_client t' = ts_client t)) -> same_rx b x (part_put j x).
Proof. intros Hj. split; [unfold log; by rewrite apart_get|]. unfold socks. by rewrite part_get_put. Qed.

Lemma same_rx_stores b x (j : tcp_instance) : ti_sockets j = socks x -> same_rx b x (part_put j x).
Proof. intros Hj. apply same_rx_instance. rewrite Hj. eauto. Qed.

Lemma same_rx_timers b x (s : timers) : same_rx b x (part_put s x).
Proof. split; [unfold log; by rewrite apart_get|]. unfold socks. rewrite apart_get. eauto. Qed.

#[export] Instance same_rx_sockets b : SockRel (same_rx b).
Proof.
  split; [apply _|apply same_rx_stores| |apply same_rx_timers]. intros x j a Hj. apply same_rx_instance.
  rewrite Hj. intros t' [_ Ht]%lookup_delete_Some. eauto.
Qed.

Abbreviation quiet m := (keeping (same_rx true) m).

Lemma log_put a t x : log (put_sock a t x) = log x.
Proof. unfold log, put_sock. by rewrite apart_get. Qed.

Lemma same_rx_put a t f x :
  socks x !! a = Some t -> ts_rcv_nxt (f t) = ts_rcv_nxt t -> ts_client (f t) = ts_client t -> same_rx true x (put_sock a (f t) x).
Proof.
  intros Ht Hr Hc. apply same_rx_instance. intros t'. cbn. destruct (decide (a = sock)) as [->|].
  - rewrite lookup_insert_eq. intros [= <-]. eauto.
  - rewrite lookup_insert_ne by done. eauto.
Qed.

Lemma quiet_mod_sock a f :
  (forall t, ts_rcv_nxt (f t) = ts_rcv_nxt t /\ ts_client (f t) = ts_client t) -> quiet (mod_sock a f).
Proof. intros Hf. apply keep_mod_sock. intros x t Ht. apply same_rx_put; [done|apply Hf..]. Qed.

(** ** The operations of the sending side leave the receiving side alone *)

Context (ids_send : Z -> Z -> W X unit) (jiffies idi_mru : X -> Z) (cv_signal : Z -> W X unit)
  (tc_recv : Z -> Z -> W X unit) (tc_close : Z -> W X unit).
Context (send_quiet : forall ids nb, quiet (ids_send ids nb)) (signal_quiet : forall a, quiet (cv_signal a)).
Context (recv_weak : forall tc nb, keeping (same_rx false) (tc_recv tc nb))
  (close_weak : forall tc, keeping (same_rx false) (tc_close tc)).

Ltac keep_mod ::= by apply quiet_mod_sock.

Lemma quiet_drop_deferred a : quiet (drop_deferred_ack a).
Proof. unfold drop_deferred_ack. keeps. Qed.
#[local] Hint Resolve quiet_drop_deferred : keep.

Lemma quiet_await_ack a nb n : quiet (await_ack jiffies a nb n).
Proof. unfold await_ack, tcp_socket_ref. keeps. Qed.
#[local] Hint Resolve quiet_await_ack : keep.

Lemma quiet_stop_retransmit a : quiet (stop_retransmit a).
Proof. unfold stop_retransmit. keeps. Qed.
#[local] Hint Resolve quiet_stop_retransmit : keep.

Lemma quiet_send_close a : quiet (tcp_send_close ids_send jiffies idi_mru a).
Proof. unfold tcp_send_close. keeps. Qed.
#[local] Hint Resolve quiet_send_close : keep.

Lemma quiet_build_and_send a flags : quiet (tcp_build_and_send_sequence ids_send jiffies idi_mru a flags).
Proof. unfold tcp_build_and_send_sequence, tcp_socket_ref. keeps. Qed.
#[local] Hint Resolve quiet_build_and_send : keep.

Lemma quiet_send_now a nb : quiet (tcp_send_netbuf_now ids_send jiffies idi_mru a nb).
Proof. unfold tcp_send_netbuf_now. keeps. Qed.
#[local] Hint Resolve quiet_send_now : keep.

Lemma quiet_purge a : quiet (purge a).
Proof. unfold purge, retransmitting. keeps. Qed.
#[local] Hint Resolve quiet_purge : keep.

Lemma quiet_close_socket a : quiet (close_socket cv_signal a).
Proof. unfold close_socket. keeps. Qed.
#[local] Hint Resolve quiet_close_socket : keep.

Lemma quiet_reset_close a : quiet (send_reset_close_socket ids_send jiffies idi_mru cv_signal a).
Proof. unfold send_reset_close_socket. keeps. Qed.
#[local] Hint Resolve quiet_reset_close : keep.

Lemma quiet_send_next a : quiet (send_next ids_send jiffies idi_mru a).
Proof. unfold send_next. keeps. Qed.
#[local] Hint Resolve quiet_send_next : keep.

Lemma quiet_time_wait a : quiet (enter_time_wait a).
Proof. unfold enter_time_wait. keeps. Qed.
#[local] Hint Resolve quiet_time_wait : keep.

(** ** One segment *)

(** The next segment of the stream, with an acknowledgement of something sent. *)
Definition in_sequence (p : pool) (tch : Z) (t : tcp_socket) : bool :=
  (seg_seq p tch =? ts_rcv_nxt t) && has (seg_flags p tch) TCF_ACK && negb (has (seg_flags p tch) TCF_RST)
  && negb (has (seg_flags p tch) TCF_SYN) && (seg_ack p tch <=? ts_snd_nxt t).

(** Nothing of ours is waiting for its acknowledgement. *)
Definition idle (t : tcp_socket) : bool := negb (has (ts_send_flags t) TCP_SND_RETRANS_TIMING).

(** The client's function, with the log. *)
Definition logged (tc nb : Z) : W X unit :=
  mod_part (fun d => Deliveries_ (d_log d ++ [(tc, nb)]));;
  tc_recv tc nb.

(** [k] sequence numbers further, [l] delivered. *)
Definition moved (k : Z) (l : list (Z * Z)) (x x' : X) : Prop :=
  log x' = log x ++ l
  /\ forall t', socks x' !! sock = Some t' -> exists t, socks x !! sock = Some t /\ ts_rcv_nxt t' = u32 (ts_rcv_nxt t + k).

Lemma moved_same k l x y z : moved k l x y -> same_rx false y z -> moved k l x z.
Proof.
  intros [L1 H1] [L2 H2]. split; [congruence|]. intros t3 E3. destruct (H2 _ E3) as (t2 & E2 & R2 & _).
  destruct (H1 _ E2) as (t1 & E1 & R1). exists t1. split; [done|congruence].
Qed.

Lemma same_moved k l x y z : same_rx false x y -> moved k l y z -> moved k l x z.
Proof.
  intros [L1 H1] [L2 H2]. split; [congruence|]. intros t3 E3. destruct (H2 _ E3) as (t2 & E2 & R2).
  destruct (H1 _ E2) as (t1 & E1 & R1 & _). exists t1. split; [done|congruence].
Qed.

Lemma moved_moved k1 k2 l1 l2 x y z : moved k1 l1 x y -> moved k2 l2 y z -> moved (k1 + k2) (l1 ++ l2) x z.
Proof.
  intros [L1 H1] [L2 H2]. split; [rewrite L2, L1; by rewrite app_assoc|]. intros t3 E3. destruct (H2 _ E3) as (t2 & E2 & R2).
  destruct (H1 _ E2) as (t1 & E1 & R1). exists t1. split; [done|]. rewrite R2, R1. unfold u32. rewrite Zplus_mod_idemp_l. f_equal. lia.
Qed.

Lemma weak_of_quiet {A} (m : W X A) : quiet m -> keeping (same_rx false) m.
Proof. intros Hm p i x. eapply wlp_mono; [|by apply Hm]. intros ? w. apply same_rx_weak. Qed.

Lemma weak_notify_close : keeping (same_rx false) (notify_close tc_close sock).
Proof.
  unfold notify_close. apply keeping_bind; [apply _|apply weak_of_quiet; keeps|intros tc].
  apply keeping_if; [apply keeping_ret, _|]. unfold get_client.
  apply keeping_bind; [apply _|apply weak_of_quiet; keeps|intros b].
  apply keeping_if; [|apply keeping_ret, _]. unfold tcp_client_ref.
  do 2 (apply keeping_bind; [apply _|apply weak_of_quiet; keeps|intros ?]).
  apply keeping_bind; [apply _|apply close_weak|intros ?]. apply weak_of_quiet. keeps.
Qed.

Lemma moved_none x t : socks x !! sock = Some t -> 0 <= ts_rcv_nxt t < 2 ^ 32 -> moved 0 [] x x.
Proof.
  intros Ht Hr. split; [by rewrite app_nil_r|]. intros t' Ht'. assert (t' = t) as -> by congruence. exists t. split; [done|].
  rewrite Z.add_0_r. symmetry. by apply u32_small.
Qed.

(** The data of a segment in sequence: all of it is handed over, once. *)
Lemma recv_data_wlp nb p i x t :
  let n := load32 (p_mem p) (nb + Nb.application_size) in
  socks x !! sock = Some t -> 0 <= ts_rcv_nxt t < 2 ^ 32 ->
  wlp (recv_data ids_send jiffies idi_mru logged sock nb)
    (fun _ w => moved n (if (n =? 0) || (ts_client t =? 0) then [] else [(ts_client t, nb)]) x (w_more w)) (World_ p i x).
Proof.
  intros n Ht Hr. unfold recv_data. apply wlp_bind, wlp_rd32. fold n. destruct (Z.eqb_spec n 0) as [E|E]; cbn [negb orb].
  { apply wlp_ret. rewrite E. by eapply moved_none. }
  apply wlp_bind, wlp_mod_sock. intros t0 Ht0. assert (t0 = t) as -> by congruence. set (y1 := put_sock _ _ _).
  assert (M1 : moved n [] x y1).
  { split; [unfold y1; by rewrite log_put, app_nil_r|]. intros t'. unfold y1. rewrite socks_put, lookup_insert_eq. intros [= <-]. eauto. }
  apply wlp_bind. eapply wlp_keep; [apply quiet_build_and_send|]. intros _ p2 i2 y2 S2. apply wlp_bind, wlp_get_sock. intros t2 Ht2.
  assert (Ec : ts_client t2 = ts_client t).
  { destruct S2 as [_ S2]. destruct (S2 _ Ht2) as (t1 & E1 & _ & Hc). rewrite (Hc eq_refl). unfold y1 in E1.
    rewrite socks_put, lookup_insert_eq in E1. by injection E1 as <-. }
  assert (M2 : moved n [] x y2) by (eapply moved_same; [exact M1|by apply same_rx_weak]). rewrite Ec.
  destruct (ts_client t =? 0); [by apply wlp_ret|]. apply wlp_bind. eapply (wlp_keep (same_rx true)); [apply keeping_mem, _|].
  intros _ p3 i3 y3 S3. apply wlp_bind. eapply wlp_keep; [apply keep_unlock, _|]. intros _ p4 i4 y4 S4.
  apply wlp_bind, wlp_bind, wlp_mod_part. set (y5 := part_put _ y4).
  assert (M5 : moved n [(ts_client t, nb)] x y5).
  { assert (M4 : moved n [] x y4) by (eapply moved_same; [exact M2|]; apply same_rx_weak; by transitivity y3).
    destruct M4 as [L4 M4]. split; [|unfold socks, y5; by rewrite apart_get].
    unfold log, y5. rewrite part_get_put. cbn. fold (log y4). by rewrite L4, app_nil_r. }
  eapply wlp_keep; [apply recv_weak|]. intros _ p6 i6 y6 S6. apply wlp_bind. eapply wlp_keep; [apply keep_lock, _|].
  intros _ p7 i7 y7 S7. eapply wlp_keep; [apply keep_client_deref, _|]. intros _ p8 i8 y8 S8. cbn [w_more].
  eapply moved_same; [exact M5|]. transitivity y6; [done|]. apply same_rx_weak. by transitivity y7.
Qed.

Lemma in_sequence_late p tch t : ts_snd_nxt t < seg_ack p tch -> in_sequence p tch t = false.
Proof. intros H. unfold in_sequence. replace (seg_ack p tch <=? ts_snd_nxt t) with false by lia. apply andb_false_r. Qed.

Lemma in_sequence_true p tch t :
  seg_seq p tch = ts_rcv_nxt t -> has (seg_flags p tch) TCF_ACK = true -> has (seg_flags p tch) TCF_RST = false ->
  has (seg_flags p tch) TCF_SYN = false -> seg_ack p tch <= ts_snd_nxt t -> in_sequence p tch t = true.
Proof.
  intros E1 E2 E3 E4 E5. unfold in_sequence. rewrite E1, E2, E3, E4, Z.eqb_refl. cbn. lia.
Qed.

Lemma in_sequence_cases p tch t :
  (seg_seq p tch <> ts_rcv_nxt t -> in_sequence p tch t = false)
  /\ (has (seg_flags p tch) TCF_RST = true -> in_sequence p tch t = false)
  /\ (has (seg_flags p tch) TCF_SYN = true -> in_sequence p tch t = false)
  /\ (has (seg_flags p tch) TCF_ACK = false -> in_sequence p tch t = false).
Proof.
  unfold in_sequence. generalize (seg_seq p tch) (seg_ack p tch) (seg_flags p tch). intros q a f.
  split_and!; intros E; rewrite ?E; cbn; rewrite ?andb_false_r; try done. destruct (Z.eqb_spec q (ts_rcv_nxt t)); done.
Qed.

(** What the states have in common before they look at the data. *)
Lemma acceptable_wlp tch on_close go_on p i x t (Q : unit -> world X -> Prop) :
  socks x !! sock = Some t -> keeping (same_rx false) on_close ->
  (in_sequence p tch t = false -> forall p' i' y, same_rx false x y -> Q tt (World_ p' i' y)) ->
  (seg_seq p tch = ts_rcv_nxt t -> has (seg_flags p tch) TCF_ACK = true -> has (seg_flags p tch) TCF_RST = false ->
   has (seg_flags p tch) TCF_SYN = false -> wlp go_on Q (World_ p i x)) ->
  wlp (acceptable ids_send jiffies idi_mru cv_signal sock tch on_close go_on) Q (World_ p i x).
Proof.
  intros Ht Hclose Hno Hgo. unfold acceptable. apply wlp_bind, wlp_th_seq.
  apply wlp_bind, wlp_get_sock. intros t0 Ht0. assert (t0 = t) as -> by congruence. apply wlp_bind, wlp_th_flags.
  assert (Hquiet : forall m : W X unit, keeping (same_rx false) m -> in_sequence p tch t = false -> wlp m Q (World_ p i x)).
  { intros m Hm Hin. eapply wlp_keep; [exact Hm|]. intros [] p' i' y Hy. by apply Hno. }
  destruct (in_sequence_cases p tch t) as (Hq & Hr & Hs & Ha).
  destruct (Z.eqb_spec (seg_seq p tch) (ts_rcv_nxt t)) as [Eq|Eq], (has (seg_flags p tch) TCF_RST) eqn:Er; cbn [negb andb].
  - apply Hquiet; [|by apply Hr]. apply keeping_bind; [apply _|apply weak_of_quiet, quiet_close_socket|done].
  - destruct (has (seg_flags p tch) TCF_SYN) eqn:Es.
    { apply Hquiet; [|by apply Hs]. apply keeping_bind; [apply _|apply weak_of_quiet, quiet_reset_close|done]. }
    destruct (has (seg_flags p tch) TCF_ACK) eqn:Ea; cbn [negb]; [by apply Hgo|]. apply Hquiet; [|by apply Ha]. apply keeping_ret, _.
  - apply Hquiet; [|by apply Hq]. apply keeping_bind; [apply _|apply weak_of_quiet, quiet_close_socket|done].
  - apply Hquiet; [|by apply Hq]. apply weak_of_quiet, quiet_build_and_send.
Qed.

(** What a state does when everything sent is acknowledged. *)
Definition acked_ok (all_acked : W X bool) : Prop := forall p i x t,
  socks x !! sock = Some t ->
  wlp all_acked (fun more w => same_rx true x (w_more w) /\ (idle t = true -> more = true /\ w_pool w = p)) (World_ p i x).

(** The estimator touches nothing but its own fields. *)
Definition same_but_rtt (t t' : tcp_socket) : Prop :=
  ts_rcv_nxt t' = ts_rcv_nxt t /\ ts_client t' = ts_client t /\ ts_snd_nxt t' = ts_snd_nxt t /\ ts_send_flags t' = ts_send_flags t.

Lemma estimate_fields ticks t : same_but_rtt t (estimate ticks t).
Proof. unfold estimate, same_but_rtt. by destruct (ts_srtt_avg t =? 0). Qed.

Lemma calc_round_trip_fields now t :
  ts_rcv_nxt (calc_round_trip now t) = ts_rcv_nxt t /\ ts_client (calc_round_trip now t) = ts_client t
  /\ ts_snd_nxt (calc_round_trip now t) = ts_snd_nxt t /\ idle (calc_round_trip now t) = idle t.
Proof.
  unfold calc_round_trip. destruct (has (ts_send_flags t) TCP_SND_ACKED); [done|].
  assert (Hi : forall f, has (Z.lor f TCP_SND_ACKED) TCP_SND_RETRANS_TIMING = has f TCP_SND_RETRANS_TIMING).
  { intros f. unfold has. rewrite Z.land_lor_distr_l. change (Z.land TCP_SND_ACKED TCP_SND_RETRANS_TIMING) with 0. by rewrite Z.lor_0_r. }
  set (t1 := if negb _ then _ else _).
  assert (H1 : same_but_rtt t t1) by (unfold t1; destruct (negb _); [done|apply estimate_fields]). clearbody t1.
  set (t2 := if _ <? _ then _ else _). assert (H2 : same_but_rtt t t2) by (unfold t2; by destruct (_ <? _)). clearbody t2.
  destruct H2 as (? & ? & ? & Hf). unfold idle. cbn [ts_send_flags]. split_and!; [done..|].
  change (negb (has (Z.lor (ts_send_flags t2) TCP_SND_ACKED) TCP_SND_RETRANS_TIMING) = negb (has (ts_send_flags t) TCP_SND_RETRANS_TIMING)).
  by rewrite Hi, Hf.
Qed.

Lemma acknowledge_wlp tch all_acked go_on p i x t (Q : unit -> world X -> Prop) :
  socks x !! sock = Some t -> acked_ok all_acked ->
  (ts_snd_nxt t < seg_ack p tch -> forall p' i' y, same_rx false x y -> Q tt (World_ p' i' y)) ->
  (idle t = false -> forall p' i' y, same_rx false x y -> Q tt (World_ p' i' y)) ->
  (seg_ack p tch <= ts_snd_nxt t -> forall p' i' y, same_rx true x y -> (idle t = true -> p' = p) -> wlp go_on Q (World_ p' i' y)) ->
  wlp (acknowledge ids_send jiffies idi_mru sock tch all_acked go_on) Q (World_ p i x).
Proof.
  intros Ht Hall Hno Hbusy Hgo. unfold acknowledge. apply wlp_bind, wlp_th_acked.
  apply wlp_bind, wlp_get_sock. intros t0 Ht0. assert (t0 = t) as -> by congruence.
  destruct (Z.ltb_spec (ts_snd_nxt t) (seg_ack p tch)) as [Hlt|Hle].
  { eapply wlp_keep; [apply quiet_build_and_send|]. intros [] p' i' y Hy. apply Hno; [done|by apply same_rx_weak]. }
  apply wlp_bind, wlp_get_sock. intros t0 Ht1. assert (t0 = t) as -> by congruence. clear Ht0 Ht1.
  assert (Hmore : forall p' i' y (more : bool), same_rx true x y -> (idle t = true -> more = true /\ p' = p) ->
    wlp (if more then go_on else mret tt) Q (World_ p' i' y)).
  { intros p' i' y more Hy Hidle. destruct more.
    - apply Hgo; [done..|]. intros Hi. by apply Hidle.
    - apply wlp_ret. apply Hbusy; [|by apply same_rx_weak]. destruct (idle t); [|done]. by destruct (Hidle eq_refl). }
  apply wlp_bind. destruct (ts_snd_una t <=? seg_ack p tch); [|apply wlp_ret, (Hmore _ _ _ true); done].
  apply wlp_bind, wlp_gets. apply wlp_bind, wlp_mod_sock. intros t0 Ht0. assert (t0 = t) as -> by congruence. clear Ht0.
  destruct (calc_round_trip_fields (jiffies x) t) as (Hr & Hc & Hn & Hi). cbn [w_more] in *.
  set (t1 := calc_round_trip (jiffies x) t) in *. set (y1 := put_sock sock t1 x).
  assert (S1 : same_rx true x y1) by (by apply (same_rx_put sock t (fun _ => t1))).
  apply wlp_bind, wlp_mod_sock. intros t0 Ht0. unfold y1 in Ht0. rewrite socks_put, lookup_insert_eq in Ht0. injection Ht0 as <-.
  set (t2 := t1 <| ts_snd_una := _ |>). fold y1. set (y2 := put_sock sock t2 y1).
  assert (E1 : socks y1 !! sock = Some t1) by (unfold y1; by rewrite socks_put, lookup_insert_eq).
  assert (S2 : same_rx true x y2) by (transitivity y1; [done|]; by apply (same_rx_put sock t1 (fun _ => t2))).
  assert (E2 : socks y2 !! sock = Some t2) by (unfold y2; by rewrite socks_put, lookup_insert_eq).
  apply wlp_bind, wlp_get_sock. intros t0 Ht0. rewrite E2 in Ht0. injection Ht0 as <-.
  destruct (_ =? _); [|by apply wlp_ret, (Hmore _ _ _ true)]. eapply wlp_mono; [|by apply (Hall p i y2 t2)].
  intros more [p' i' y] [S3 Hid]. apply Hmore; [by transitivity y2|]. intros Hi'. apply Hid. unfold t2, idle. cbn. unfold idle in Hi, Hi'. by rewrite Hi.
Qed.

Lemma acked_if (busy free : W X bool) :
  quiet busy ->
  (forall p i x, wlp free (fun more w => same_rx true x (w_more w) /\ more = true /\ w_pool w = p) (World_ p i x)) ->
  acked_ok (r ← retransmitting sock; if r : bool then busy else free).
Proof.
  intros Hb Hf p i x t Ht. apply wlp_bind, wlp_get_sock. intros t0 Ht0. assert (t0 = t) as -> by congruence. unfold idle.
  destruct (has (ts_send_flags t) TCP_SND_RETRANS_TIMING); cbn [negb].
  - eapply wlp_keep; [exact Hb|]. by intros.
  - eapply wlp_mono; [|apply Hf]. intros more w (? & ? & ?). auto.
Qed.

Lemma acked_ext (m m' : W X bool) : (forall w, m w = m' w) -> acked_ok m -> acked_ok m'.
Proof. intros E Hm p i x t Ht. specialize (Hm p i x t Ht). unfold wlp in *. by rewrite <-E. Qed.

(** [(if r then m else n);; mret a] *)
Lemma if_ret {A B} (r : W X bool) (m n : W X A) (b : B) w :
  (a ← r; if a : bool then m;; mret b else n;; mret b) w = (a ← r; (if a : bool then m else n);; mret b) w.
Proof. unfold mbind, ST_bind. destruct (r w) as [[[] w']| |]; reflexivity. Qed.

Lemma free_true p i x :
  wlp (mret tt;; mret true) (fun (more : bool) w => same_rx true x (w_more w) /\ more = true /\ w_pool w = p) (World_ p i x).
Proof. apply wlp_bind, wlp_ret, wlp_ret. by split; [|split]. Qed.

Lemma acked_send_next_ok : acked_ok (acked_send_next ids_send jiffies idi_mru sock).
Proof. eapply acked_ext; [apply if_ret|]. apply acked_if; [keeps|apply free_true]. Qed.

Lemma acked_fin_wait1_ok : acked_ok (acked_fin_wait1 ids_send jiffies idi_mru sock).
Proof.
  eapply acked_ext; [apply if_ret|]. apply acked_if; [keeps|]. intros p i x. apply wlp_bind, wlp_mod_sock. intros t Ht. apply wlp_ret.
  split; [|done]. by apply same_rx_put.
Qed.

Lemma acked_close_wait_ok : acked_ok (acked_close_wait ids_send jiffies idi_mru sock).
Proof. apply acked_if; [keeps|]. intros p i x. apply wlp_ret. by split. Qed.

(** What a state does with a FIN: the stream ends, or ended before. *)
Definition fin_ok (fin_part : W X unit) : Prop := forall p i y,
  wlp fin_part (fun _ w => exists fin, (fin = 0 \/ fin = 1) /\ forall k l x, moved k l x y -> moved (k + fin) l x (w_more w)) (World_ p i y).

Lemma fin_ok_quiet m : keeping (same_rx false) m -> fin_ok m.
Proof.
  intros Hm p i y. eapply wlp_keep; [exact Hm|]. intros _ p' i' z Hz. exists 0. split; [by left|]. intros k l x Hx.
  rewrite Z.add_0_r. by eapply moved_same.
Qed.

Lemma fin_ok_end m :
  keeping (same_rx false) m -> fin_ok (mod_sock sock (fun t => t <| ts_rcv_nxt := u32 (ts_rcv_nxt t + 1) |>);; m).
Proof.
  intros Hm p i y. apply wlp_bind, wlp_mod_sock. intros t Ht. set (y1 := put_sock _ _ _).
  assert (M1 : moved 1 [] y y1).
  { split; [unfold y1; by rewrite log_put, app_nil_r|]. intros t'. unfold y1. rewrite socks_put, lookup_insert_eq. intros [= <-]. eauto. }
  eapply wlp_keep; [exact Hm|]. intros _ p' i' z Hz. exists 1. split; [by right|]. intros k l x Hx.
  eapply moved_same; [|exact Hz]. rewrite <-(app_nil_r l). by eapply moved_moved.
Qed.

(** ** The outcome *)

(** What became of the segment [nb] that socket [t] got in memory [p]: [n] bytes of
    data and [fin] for the end of the stream were taken. *)
Definition received (p : pool) (nb tch : Z) (t : tcp_socket) (x x' : X) : Prop := exists n fin,
  0 <= n /\ (fin = 0 \/ fin = 1)
  /\ moved (n + fin) (if (n =? 0) || (ts_client t =? 0) then [] else [(ts_client t, nb)]) x x'
  /\ (in_sequence p tch t = false -> n = 0 /\ fin = 0)
  /\ (idle t = true -> n = if in_sequence p tch t then load32 (p_mem p) (nb + Nb.application_size) else 0).

Lemma received_nothing p nb tch t x y :
  socks x !! sock = Some t -> 0 <= ts_rcv_nxt t < 2 ^ 32 -> same_rx false x y ->
  (idle t = true -> in_sequence p tch t = false) -> received p nb tch t x y.
Proof.
  intros Ht Hr Hs Hi. exists 0, 0. split; [done|]. split; [by left|]. split.
  - cbn. eapply moved_same; [|exact Hs]. by eapply moved_none.
  - split; [done|]. intros E. by rewrite Hi.
Qed.

Lemma recv_data_after nb p i x y t :
  let n := load32 (p_mem p) (nb + Nb.application_size) in
  socks x !! sock = Some t -> 0 <= ts_rcv_nxt t < 2 ^ 32 -> same_rx true x y ->
  wlp (recv_data ids_send jiffies idi_mru logged sock nb)
    (fun _ w => moved n (if (n =? 0) || (ts_client t =? 0) then [] else [(ts_client t, nb)]) y (w_more w)) (World_ p i y).
Proof.
  intros n Ht Hr [_ Hs]. destruct (socks y !! sock) as [ty|] eqn:Ey.
  - destruct (Hs _ eq_refl) as (t0 & E0 & Er & Ec). assert (t0 = t) as -> by congruence. rewrite <-(Ec eq_refl).
    apply recv_data_wlp; [done|]. by rewrite Er.
  - unfold recv_data. apply wlp_bind, wlp_rd32. fold n. destruct (Z.eqb_spec n 0) as [E|E]; cbn [negb orb].
    + apply wlp_ret. rewrite E. split; [by rewrite app_nil_r|]. cbn [w_more]. rewrite Ey. done.
    + apply wlp_bind, wlp_mod_sock. rewrite Ey. done.
Qed.

(** The four states that take data. *)
Lemma data_state_wlp nb tch on_close all_acked fin_part p i x t :
  socks x !! sock = Some t -> 0 <= ts_rcv_nxt t < 2 ^ 32 ->
  keeping (same_rx false) on_close -> acked_ok all_acked -> fin_ok fin_part ->
  wlp (acceptable ids_send jiffies idi_mru cv_signal sock tch on_close
        (acknowledge ids_send jiffies idi_mru sock tch all_acked
          (recv_data ids_send jiffies idi_mru logged sock nb;;
           flags ← th_flags tch;
           if has flags TCF_FIN then fin_part else mret tt)))
    (fun _ w => received p nb tch t x (w_more w)) (World_ p i x).
Proof.
  intros Ht Hr Hclose Hall Hfin. apply (acceptable_wlp _ _ _ _ _ _ t); [done|done| |].
  { intros Hin p' i' y Hy. by apply received_nothing. }
  intros Eq Ea Er Es. apply (acknowledge_wlp _ _ _ _ _ _ t); [done|done| | |].
  { intros Hlt p' i' y Hy. apply received_nothing; [done..|]. intros _. by apply in_sequence_late. }
  { intros Hi p' i' y Hy. apply received_nothing; [done..|]. congruence. }
  intros Hle p' i' y Hy Hp.
  assert (Hin : in_sequence p tch t = true) by by apply in_sequence_true.
  apply wlp_bind. eapply wlp_mono; [|by apply (recv_data_after nb p' i' x y t)]. intros _ [p2 i2 z]. cbn [w_more].
  set (n := load32 (p_mem p') _). set (l := if _ : bool then _ else _ : list (Z * Z)). intros Mz.
  assert (Mx : moved n l x z) by (eapply same_moved; [by apply same_rx_weak|done]).
  assert (Hrec : forall fin y', (fin = 0 \/ fin = 1) -> moved (n + fin) l x y' -> received p nb tch t x y').
  { intros fin y' Hf Hm. exists n, fin. split; [apply load32_range|]. split_and!; [done|done|by rewrite Hin|]. intros Hi. rewrite Hin.
    unfold n. by rewrite (Hp Hi). }
  apply wlp_bind, wlp_th_flags. destruct (has _ TCF_FIN).
  - eapply wlp_mono; [|apply Hfin]. intros _ w (fin & Hf & Hm). by eapply Hrec, Hm.
  - apply wlp_ret. apply (Hrec 0); [by left|]. by rewrite Z.add_0_r.
Qed.

Context (tc_connect : Z -> Z -> W X unit) (uninit : tcp_socket).

Abbreviation state_machine nb :=
  (tcp_recv_state_machine ids_send jiffies idi_mru logged tc_connect tc_close cv_signal uninit sock nb).

Lemma segment_received nb p i x t :
  socks x !! sock = Some t -> 0 <= ts_rcv_nxt t < 2 ^ 32 -> takes_data t ->
  wlp (state_machine nb) (fun _ w => received p nb (load32 (p_mem p) (nb + Nb.transport)) t x (w_more w)) (World_ p i x).
Proof.
  intros Ht Hr Hst. unfold tcp_recv_state_machine. apply wlp_bind, wlp_rd32, wlp_bind, wlp_rd32, wlp_bind, wlp_get_sock.
  intros t0 Ht0. assert (t0 = t) as -> by congruence. clear Ht0. unfold takes_data in Hst.
  assert (Hret : keeping (same_rx false) (mret tt : W X unit)) by apply keeping_ret, _.
  repeat (apply elem_of_cons in Hst as [->|Hst]); [..|by apply elem_of_nil in Hst].
  - apply data_state_wlp; [done|done|apply weak_notify_close|apply acked_send_next_ok|]. apply fin_ok_end. unfold retransmitting.
    apply keeping_bind; [apply _|apply weak_of_quiet; keeps|intros r].
    do 3 (apply keeping_bind; [apply _|apply weak_of_quiet; keeps|intros ?]). apply weak_notify_close.
  - apply data_state_wlp; [done|done|done|apply acked_fin_wait1_ok|]. apply fin_ok_end, weak_of_quiet. keeps.
  - apply data_state_wlp; [done|done|done|apply acked_send_next_ok|]. apply fin_ok_end, weak_of_quiet. keeps.
  - apply data_state_wlp; [done|done|done|apply acked_close_wait_ok|]. apply fin_ok_quiet, weak_of_quiet. keeps.
Qed.

(** ** A connection *)

(** The segments a socket gets while it takes data, each with the memory and the
    socket as they are on its arrival; between them anything else may run that leaves
    the receiving side alone. *)
Inductive connection : world X -> list (pool * tcp_socket * Z) -> world X -> Prop :=
  | Conn_start w : connection w [] w
  | Conn_other w segs w1 w2 : connection w segs w1 -> same_rx false (w_more w1) (w_more w2) -> connection w segs w2
  | Conn_segment w segs p i x t nb w2 :
      connection w segs (World_ p i x) -> socks x !! sock = Some t -> takes_data t ->
      state_machine nb (World_ p i x) = Ok (tt, w2) -> connection w (segs ++ [(p, t, nb)]) w2.

Definition total (ms : list (Z * Z)) : Z := foldr (fun m a => m.1 + m.2 + a) 0 ms.

(** [m]: the bytes of data and the end of the stream taken from a segment. *)
Definition taken (seg : pool * tcp_socket * Z) (m : Z * Z) : Prop :=
  let '(p, t, nb) := seg in
  let in_seq := in_sequence p (load32 (p_mem p) (nb + Nb.transport)) t in
  0 <= m.1 /\ (m.2 = 0 \/ m.2 = 1) /\ (in_seq = false -> m.1 = 0 /\ m.2 = 0)
  /\ (idle t = true -> m.1 = if in_seq then load32 (p_mem p) (nb + Nb.application_size) else 0).

(** The calls of [tc_recv] for it. *)
Definition delivered (seg : pool * tcp_socket * Z) (m : Z * Z) : list (Z * Z) :=
  let '(p, t, nb) := seg in if (m.1 =? 0) || (ts_client t =? 0) then [] else [(ts_client t, nb)].

Lemma sizes_app ms m : total (ms ++ [m]) = total ms + (m.1 + m.2).
Proof. induction ms as [|a ms IH]; cbn; [lia|]. unfold total in IH. rewrite IH. lia. Qed.

End receiver.

(** ** Witness *)

(** A host with an established connection; the datalink and the client do nothing. *)
Definition conn_host : Type := tcp_instance * (timers * deliveries).
Definition quiet_call (a b : Z) : W conn_host unit := mret tt.
Definition quiet_notify (a : Z) : W conn_host unit := mret tt.
Definition conn_clock (x : conn_host) : Z := 0.
Definition conn_mru (x : conn_host) : Z := 1500.
Definition conn_uninit : tcp_socket :=
  Tcp_socket_ 0 0 0 0 0 0 0 0 0 [] 0 0%nat 0 0 0%nat 0 0 0 0 0 0 0.

(** A socket that expects byte 1000 of its stream, and a segment with the four bytes
    from there on. *)
Definition conn_setup : W conn_host (Z * Z) :=
  srv ← mem_ (membuf_alloc 8 0);
  ids ← mem_ (membuf_alloc 8 0);
  mod_ii (fun i => i <| ii_server := ids |>);;
  mod_part (fun i : tcp_instance => i <| ti_server := srv |>);;
  tc ← tcp_client_alloc false;
  sock ← tcp_socket_alloc conn_uninit;
  mod_sock sock (fun t => t <| ts_state := TCS_ESTABLISHED |> <| ts_rcv_nxt := 1000 |> <| ts_client := tc |>
                            <| ts_remote_addr := 0x0a000002 |> <| ts_local_port := 7 |> <| ts_remote_port := 4000 |>);;
  tcp_socket_attach sock;;
  nb ← mem_ netbuf_alloc;
  t ← mem_ (membuf_alloc 24 0);
  mem_ (wr32 (nb + Nb.transport) t);;
  mem_ (wr32 (nb + Nb.application) (t + Th.sizeof));;
  mem_ (wr32 (nb + Nb.application_size) 4);;
  mem_ (wr32 (t + Th.sequence) (hton32 1000));;
  mem_ (wr32 (t + Th.ack) (hton32 0x00a8393a));;
  mem_ (wr8 (t + Th.data_offs) 0x50);;
  mem_ (wr8 (t + Th.ctrl_flags) TCF_ACK);;
  lock_ti;;
  mret (sock, nb).

Definition conn_start : world conn_host :=
  Eval vm_compute in
  World_ match heap_add 1 0x1000 2000 (Heap_ false 0 0 ∅) with Ok h => Pool_ h false false | _ => region_pool end
    (Ip_instance_ 0 false 0x0a000001 0 0 [] [])
    (Tcp_instance_ 0 false [] [] 0x1008 0 ∅ ∅ ∅, (Timers_ None false ∅, Deliveries_ [])).
Definition conn_0 : (Z * Z) * world conn_host :=
  Eval vm_compute in match conn_setup conn_start with Ok r => r | _ => ((0, 0), conn_start) end.

(** The segment arrives, and a second time. *)
Definition conn_sock : Z := Eval vm_compute in conn_0.1.1.
Definition conn_nb : Z := Eval vm_compute in conn_0.1.2.
Definition conn_recv : W conn_host unit :=
  tcp_recv_state_machine quiet_call conn_clock conn_mru (logged quiet_call) quiet_call quiet_notify quiet_notify conn_uninit
    conn_sock conn_nb.
Definition conn_1 : world conn_host := Eval vm_compute in match conn_recv conn_0.2 with Ok (_, w) => w | _ => conn_start end.
Definition conn_2 : world conn_host := Eval vm_compute in match conn_recv conn_1 with Ok (_, w) => w | _ => conn_start end.
Definition conn_t (w : world conn_host) : tcp_socket := default conn_uninit (socks (w_more w) !! conn_sock).
Definition conn_segs : list (pool * tcp_socket * Z) :=
  [(w_pool conn_0.2, conn_t conn_0.2, conn_nb); (w_pool conn_1, conn_t conn_1, conn_nb)].

Lemma conn_runs :
  connection conn_sock quiet_call conn_clock conn_mru quiet_notify quiet_call quiet_notify quiet_call conn_uninit
    conn_0.2 conn_segs conn_2.
Proof.
  assert (Hrun : forall w segs w', conn_recv w = Ok (tt, w') -> socks (w_more w) !! conn_sock = Some (conn_t w) -> takes_data (conn_t w) ->
    connection conn_sock quiet_call conn_clock conn_mru quiet_notify quiet_call quiet_notify quiet_call conn_uninit conn_0.2 segs w ->
    connection conn_sock quiet_call conn_clock conn_mru quiet_notify quiet_call quiet_notify quiet_call conn_uninit conn_0.2
      (segs ++ [(w_pool w, conn_t w, conn_nb)]) w').
  { intros [p i x] segs w' E Ht Hst Hc. by eapply Conn_segment. }
  assert (Hst : forall w, ts_state (conn_t w) = TCS_ESTABLISHED -> takes_data (conn_t w)).
  { intros w E. unfold takes_data. rewrite E. by left. }
  apply (Hrun conn_1 [_]); [by vm_compute|by vm_compute|apply Hst; by vm_compute|].
  apply (Hrun conn_0.2 []); [by vm_compute|by vm_compute|apply Hst; by vm_compute|constructor].
Qed.

