(* ===== verification/TcpSend.v ===== *)
(** * What TCP sends

    The sending side of a connection.  A socket sends one segment at a time: it is sent
    at once when nothing waits for an acknowledgement, and queued otherwise; the next
    one goes out when everything sent before is acknowledged.

    [tx_step] is this sender as a machine of its own, with labels for what it does; the
    theorem shows that the handlers of [Tcp.v] do nothing else.  The functions of the
    datalink and of the condition variables are assumed to leave the sending side of
    the socket alone, those of the clients may send and close in their turn. *)

From stdpp Require Import base list gmap fin_maps strings.
From Stdlib Require Import ZArith Lia.
From S2P Require Import Prelude Heap Oneshot Membuf NetbufMem Ipcsum Ip Parts EthernetIp Tcp TcpKeep.
Open Scope Z_scope.

(** ** A stop-and-wait sender *)

(** The segments not yet sent, whether one waits for its acknowledgement, and the next
    sequence number. *)
Record sender := Sender { s_queue : list Z; s_busy : bool; s_nxt : Z }.

(** [Queued nb]: [nb] is to be sent later.  [Sent nb k]: it is sent at once, and takes
    [k] sequence numbers.  [Next a nb k]: everything up to [a] is acknowledged and [nb]
    is sent, the first of the queue.  [Acked a]: the same with nothing to send.
    [Control]: a SYN or FIN is sent.  [Dropped]: the connection is reset. *)
Inductive label := Queued (nb : Z) | Sent (nb k : Z) | Next (a nb k : Z) | Acked (a : Z) | Control | Dropped.

Inductive tx_step : sender -> label -> sender -> Prop :=
  | St_queued q n nb : tx_step (Sender q true n) (Queued nb) (Sender (q ++ [nb]) true n)
  | St_sent n nb k : 0 <= k < 2 ^ 32 -> tx_step (Sender [] false n) (Sent nb k) (Sender [] true (u32 (n + k)))
  | St_next q n nb k : 0 <= k < 2 ^ 32 -> tx_step (Sender (nb :: q) true n) (Next n nb k) (Sender q true (u32 (n + k)))
  | St_acked n : tx_step (Sender [] true n) (Acked n) (Sender [] false n)
  | St_control n : tx_step (Sender [] false n) Control (Sender [] true (u32 (n + 1)))
  | St_dropped s : tx_step s Dropped (Sender [] false (s_nxt s)).

Fixpoint tx_steps (s : sender) (tr : list label) (s' : sender) : Prop :=
  match tr with
  | [] => s' = s
  | l :: tr => exists s1, tx_step s l s1 /\ tx_steps s1 tr s'
  end.

(** What was given to the sender, what it sent for the first time, and the sequence
    numbers this took. *)
Definition accepted (tr : list label) : list Z :=
  omap (fun l => match l with Queued nb | Sent nb _ => Some nb | _ => None end) tr.
Definition started (tr : list label) : list Z :=
  omap (fun l => match l with Sent nb _ | Next _ nb _ => Some nb | _ => None end) tr.
Definition numbers (tr : list label) : Z :=
  foldr (fun l a => match l with Sent _ k | Next _ _ k => k | Control => 1 | _ => 0 end + a) 0 tr.

(** Nothing is queued while nothing waits. *)
Definition sender_ok (s : sender) : Prop := s_busy s = false -> s_queue s = [].

Lemma tx_step_ok s l s' : tx_step s l s' -> sender_ok s'.
Proof. by destruct 1. Qed.

Lemma tx_steps_ok s tr s' : tx_steps s tr s' -> sender_ok s -> sender_ok s'.
Proof. revert s. induction tr as [|l tr IH]; cbn; [by intros s ->|]. intros s (s1 & H1 & H2) _. eauto using tx_step_ok. Qed.

Lemma tx_steps_app s tr1 tr2 s' : tx_steps s (tr1 ++ tr2) s' <-> exists s1, tx_steps s tr1 s1 /\ tx_steps s1 tr2 s'.
Proof.
  revert s. induction tr1 as [|l tr1 IH]; intros s; cbn.
  - split; [eauto|]. by intros (? & -> & ?).
  - setoid_rewrite IH. split; [intros (s1 & ? & s2 & ? & ?); eauto|]. intros (s2 & (s1 & ? & ?) & ?). eauto.
Qed.

(** First in, first out: nothing is left out, repeated or overtaken. *)
Lemma tx_steps_fifo s tr s' : tx_steps s tr s' -> Dropped ∉ tr -> s_queue s ++ accepted tr = started tr ++ s_queue s'.
Proof.
  revert s. induction tr as [|l tr IH]; cbn; [intros s -> _; by rewrite app_nil_r|]. intros s (s1 & H1 & H2) Hd.
  apply not_elem_of_cons in Hd as [Hl Hd]. specialize (IH s1 H2 Hd).
  destruct H1; try done; [etransitivity; [apply (app_assoc q [nb] (accepted tr))|exact IH]|cbn in *; f_equal; exact IH..].
Qed.

Lemma tx_steps_numbers s tr s' : tx_steps s tr s' -> 0 <= s_nxt s < 2 ^ 32 -> s_nxt s' = u32 (s_nxt s + numbers tr).
Proof.
  revert s. induction tr as [|l tr IH]; cbn; [intros s -> H; rewrite Z.add_0_r; symmetry; by apply u32_small|].
  intros s (s1 & H1 & H2) Hr. assert (Hr1 : 0 <= s_nxt s1 < 2 ^ 32) by (destruct H1; cbn in *; try done; apply u32_range).
  rewrite (IH s1 H2 Hr1). fold (numbers tr). destruct H1; cbn [s_nxt]; unfold u32; rewrite ?Zplus_mod_idemp_l; f_equal; lia.
Qed.

(** ** The sender of a socket *)

Definition sender_of (t : tcp_socket) : sender :=
  Sender (ts_awaiting_send t) (has (ts_send_flags t) TCP_SND_RETRANS_TIMING) (ts_snd_nxt t).

Lemma busy_bit f : has f TCP_SND_RETRANS_TIMING = Z.testbit f 1.
Proof.
  unfold has. change TCP_SND_RETRANS_TIMING with (2 ^ 1). destruct (Z.testbit f 1) eqn:E.
  - destruct (Z.eqb_spec (Z.land f (2 ^ 1)) 0) as [E0|]; [|done].
    assert (Hb : Z.testbit (Z.land f (2 ^ 1)) 1 = true) by by rewrite Z.land_spec, E. by rewrite E0 in Hb.
  - replace (Z.land f (2 ^ 1)) with 0; [done|]. symmetry. apply Z.bits_inj_0. intros k. rewrite Z.land_spec.
    destruct (decide (k = 1)) as [->|]; [by rewrite E|]. rewrite Z.pow2_bits_false by done. apply andb_false_r.
Qed.

(** The other flags are apart from the one that says that a segment waits. *)
Lemma busy_other f b : Z.testbit b 1 = false ->
  has (clear f b) TCP_SND_RETRANS_TIMING = has f TCP_SND_RETRANS_TIMING
  /\ has (Z.lor f b) TCP_SND_RETRANS_TIMING = has f TCP_SND_RETRANS_TIMING.
Proof.
  intros Hb. rewrite !busy_bit. unfold clear. by rewrite Z.ldiff_spec, Z.lor_spec, Hb, andb_true_r, orb_false_r.
Qed.

Lemma sender_flags t f : has f TCP_SND_RETRANS_TIMING = has (ts_send_flags t) TCP_SND_RETRANS_TIMING ->
  sender_of (t <| ts_send_flags := f |>) = sender_of t.
Proof. intros E. unfold sender_of. by rewrite <-E. Qed.

Lemma busy_clear f : has (clear f TCP_SND_RETRANS_TIMING) TCP_SND_RETRANS_TIMING = false.
Proof. rewrite busy_bit. unfold clear. rewrite Z.ldiff_spec. apply andb_false_r. Qed.

(** The estimator of the round-trip time does not touch it. *)
Lemma calc_round_trip_sender now t : sender_of (calc_round_trip now t) = sender_of t.
Proof.
  unfold calc_round_trip. destruct (has (ts_send_flags t) TCP_SND_ACKED); [done|]. set (t1 := if negb _ then _ else _).
  assert (H1 : sender_of t1 = sender_of t).
  { unfold t1. destruct (negb _); [done|]. unfold estimate. by destruct (ts_srtt_avg t =? 0). }
  clearbody t1. rewrite <-H1. destruct (_ <? _).
  all: etransitivity; [apply sender_flags; apply busy_other; reflexivity|reflexivity].
Qed.

Section sending.
Context {X : Type} `{PI : Part X tcp_instance} `{PT : Part X timers} `{!Apart X tcp_instance timers}.
Context (sock : Z).

Definition tx (x : X) : option sender := sender_of <$> socks x !! sock.

(** The sender, if the socket still exists, became what [f] makes of it. *)
Definition moves (f : sender -> sender) (x x' : X) : Prop :=
  forall s', tx x' = Some s' -> exists s, tx x = Some s /\ s' = f s.

(** It took steps with labels in [L]. *)
Definition runs (L : label -> Prop) (x x' : X) : Prop :=
  forall s', tx x' = Some s' -> exists s, tx x = Some s
    /\ (sender_ok s -> exists tr, Forall L tr /\ tx_steps s tr s').

Lemma moves_trans f g x y z : moves f x y -> moves g y z -> moves (fun s => g (f s)) x z.
Proof. intros H1 H2 s' E. destruct (H2 _ E) as (s1 & E1 & ->). destruct (H1 _ E1) as (s & Es & ->). eauto. Qed.

Lemma tx_stores x (j : tcp_instance) : ti_sockets j = socks x -> tx (part_put j x) = tx x.
Proof. intros Hj. unfold tx, socks. rewrite part_get_put. unfold socks in Hj. by rewrite Hj. Qed.

Lemma tx_delete x (j : tcp_instance) a s : ti_sockets j = delete a (socks x) -> tx (part_put j x) = Some s -> tx x = Some s.
Proof.
  intros Hj. unfold tx, socks. rewrite part_get_put, Hj. intros (t & E & ->)%fmap_Some. apply lookup_delete_Some in E as [_ E].
  unfold socks in E. by rewrite E.
Qed.

Lemma tx_timers x (s : timers) : tx (part_put s x) = tx x.
Proof. unfold tx, socks. by rewrite apart_get. Qed.

#[export] Instance moves_id_sockets : SockRel (moves id).
Proof.
  split.
  - split; [intros x s'; eauto|]. intros x y z H1 H2. exact (moves_trans _ _ _ _ _ H1 H2).
  - intros x j Hj s' E. rewrite tx_stores in E by done. eauto.
  - intros x j a Hj s' E. apply (tx_delete x j a) in E; eauto.
  - intros x s s' E. rewrite tx_timers in E. eauto.
Qed.

Lemma runs_same L x y : moves id x y -> runs L x y.
Proof. intros H s' E. destruct (H _ E) as (s & Es & ->). exists s. split; [done|]. intros _. by exists []. Qed.

#[export] Instance runs_sockets L : SockRel (runs L).
Proof.
  split.
  - split; [intros x; by apply runs_same; intros s'; eauto|]. intros x y z H1 H2 s' E.
    destruct (H2 _ E) as (s1 & E1 & R2). destruct (H1 _ E1) as (s & Es & R1). exists s. split; [done|]. intros Hok.
    destruct (R1 Hok) as (tr1 & L1 & T1). destruct (R2 (tx_steps_ok _ _ _ T1 Hok)) as (tr2 & L2 & T2).
    exists (tr1 ++ tr2). split; [by apply Forall_app|]. apply tx_steps_app. eauto.
  - intros. by apply runs_same, sock_stores.
  - intros. by eapply runs_same, sock_delete.
  - intros. by apply runs_same, sock_timers.
Qed.

Lemma runs_step (L : label -> Prop) f x y :
  moves f x y -> (forall s, tx x = Some s -> sender_ok s -> exists l, L l /\ tx_step s l (f s)) -> runs L x y.
Proof.
  intros Hm Hl s' E. destruct (Hm _ E) as (s & Es & ->). exists s. split; [done|]. intros Hok. destruct (Hl s Es Hok) as (l & ? & ?).
  exists [l]. split; [by constructor|]. cbn. eauto.
Qed.

Lemma runs_mono (L L' : label -> Prop) x y : (forall l, L l -> L' l) -> runs L x y -> runs L' x y.
Proof.
  intros HL H s' E. destruct (H _ E) as (s & Es & R). exists s. split; [done|]. intros Hok. destruct (R Hok) as (tr & ? & ?).
  exists tr. split; [|done]. by eapply Forall_impl.
Qed.

(** ** Assignments *)

Lemma tx_put a f x t : socks x !! a = Some t ->
  forall s', tx (put_sock a (f t) x) = Some s' ->
    if decide (a = sock) then tx x = Some (sender_of t) /\ s' = sender_of (f t) else tx x = Some s'.
Proof.
  intros Ht s'. unfold tx. rewrite socks_put. case_decide as Ha.
  - subst. rewrite lookup_insert_eq, Ht. cbn. by intros [= <-].
  - by rewrite lookup_insert_ne.
Qed.

Lemma keeping_mono {A} (R R' : X -> X -> Prop) (m : W X A) :
  (forall x y, R x y -> R' x y) -> keeping R m -> keeping R' m.
Proof. intros HR Hm p i x. eapply wlp_mono; [|by apply Hm]. intros ? w. apply HR. Qed.

Lemma mod_same a f : (forall t, sender_of (f t) = sender_of t) -> keeping (moves id) (mod_sock a f).
Proof.
  intros Hf. apply keep_mod_sock. intros x t Ht s' E. apply tx_put in E; [|done]. case_decide; [|eauto].
  destruct E as [E ->]. rewrite Hf. eauto.
Qed.

Lemma mod_moves f g : (forall t, sender_of (f t) = g (sender_of t)) -> keeping (moves g) (mod_sock sock f).
Proof.
  intros Hf. apply keep_mod_sock. intros x t Ht s' E. apply tx_put in E; [|done]. rewrite decide_True in E by done.
  destruct E as [E ->]. rewrite Hf. eauto.
Qed.

(** A handler that begins or ends with a part that leaves the sender alone. *)
Lemma moves_bind {A B} f g (m : W X A) (k : A -> W X B) :
  keeping (moves f) m -> (forall a, keeping (moves g) (k a)) -> keeping (moves (fun s => g (f s))) (m ≫= k).
Proof.
  intros Hm Hk p i x. apply wlp_bind. eapply wlp_keep; [exact Hm|]. intros a p' i' y Hy. eapply wlp_mono; [|apply Hk].
  intros ? w Hw. by eapply moves_trans.
Qed.

Lemma moves_after {A B} f (m : W X A) (k : A -> W X B) :
  keeping (moves f) m -> (forall a, keeping (moves id) (k a)) -> keeping (moves f) (m ≫= k).
Proof. exact (moves_bind f id m k). Qed.

Lemma moves_before {A B} f (m : W X A) (k : A -> W X B) :
  keeping (moves id) m -> (forall a, keeping (moves f) (k a)) -> keeping (moves f) (m ≫= k).
Proof. exact (moves_bind id f m k). Qed.

Lemma keeping_runs {A} L (m : W X A) : keeping (moves id) m -> keeping (runs L) m.
Proof. apply keeping_mono, runs_same. Qed.

(** ** The operations *)

Context (ids_send : Z -> Z -> W X unit) (jiffies idi_mru : X -> Z) (cv_signal : Z -> W X unit)
  (tc_recv : Z -> Z -> W X unit) (tc_close : Z -> W X unit).
Context (send_quiet : forall ids nb, keeping (moves id) (ids_send ids nb)) (signal_quiet : forall a, keeping (moves id) (cv_signal a)).

Abbreviation quiet m := (keeping (moves id) m).

Ltac keep_mod ::=
  apply mod_same; intros ?; first [reflexivity
    |refine (sender_flags _ _ (proj1 (busy_other _ _ _))); reflexivity
    |refine (sender_flags _ _ (proj2 (busy_other _ _ _))); reflexivity].

Lemma tx_quiet_drop_deferred a : quiet (drop_deferred_ack a).
Proof. unfold drop_deferred_ack. keeps. Qed.
#[local] Hint Resolve tx_quiet_drop_deferred : keep.

(** Something that takes [k] sequence numbers is sent and waits. *)
Definition waits (k : Z) (s : sender) : sender := Sender (s_queue s) true (u32 (s_nxt s + k)).
Definition stops (s : sender) : sender := Sender (s_queue s) false (s_nxt s).

Lemma await_ack_waits nb k : keeping (moves (waits k)) (await_ack jiffies sock nb k).
Proof.
  unfold await_ack. apply (moves_bind (fun s => Sender (s_queue s) (s_busy s) (u32 (s_nxt s + k))) (fun s => Sender (s_queue s) true (s_nxt s))).
  { by apply mod_moves. }
  intros _. apply moves_before; [keeps|intros c]. apply moves_before; [keeps|intros _]. apply moves_before; [keeps|intros t].
  apply moves_before; [keeps|intros _]. apply moves_before; [keeps|intros now]. apply moves_after; [by apply mod_moves|intros _].
  unfold tcp_socket_ref. keeps.
Qed.

Lemma stop_retransmit_stops : keeping (moves stops) (stop_retransmit sock).
Proof.
  unfold stop_retransmit. apply moves_after; [|intros _; keeps]. apply mod_moves. intros t. unfold sender_of, stops. cbn. by rewrite busy_clear.
Qed.

(** Without SYN and FIN the sender does not notice. *)
Lemma tx_quiet_build_and_send flags : has flags (Z.lor TCF_SYN TCF_FIN) = false ->
  quiet (tcp_build_and_send_sequence ids_send jiffies idi_mru sock flags).
Proof. intros Hf. unfold tcp_build_and_send_sequence, tcp_socket_ref. rewrite Hf. keeps. Qed.

Lemma fin_waits : keeping (moves (waits 1)) (tcp_build_and_send_sequence ids_send jiffies idi_mru sock (Z.lor TCF_ACK TCF_FIN)).
Proof.
  unfold tcp_build_and_send_sequence, tcp_socket_ref. apply moves_before; [keeps|intros nb]. apply moves_before; [keeps|intros _].
  apply moves_after; [apply await_ack_waits|intros _]. keeps.
Qed.

Lemma close_waits : keeping (moves (waits 1)) (tcp_send_close ids_send jiffies idi_mru sock).
Proof.
  unfold tcp_send_close. apply moves_before; [keeps|intros nb]. apply moves_before; [keeps|intros _]. apply moves_before; [keeps|intros _].
  apply moves_before; [keeps|intros _]. apply moves_after; [apply await_ack_waits|intros _]. keeps.
Qed.

(** The size of the data is read on the way. *)
Definition sends (x x' : X) : Prop := exists k, 0 <= k < 2 ^ 32 /\ moves (waits k) x x'.

Lemma data_sends nb (m : W X unit) : quiet m ->
  keeping sends (drop_deferred_ack sock;; build_netbuf idi_mru sock (Z.lor TCF_PSH TCF_ACK) nb;;
    (asz ← mem_ (rd32 (nb + Nb.application_size)); await_ack jiffies sock nb asz;; m)).
Proof.
  intros Hm p i x. apply wlp_bind. eapply wlp_keep; [apply tx_quiet_drop_deferred|]. intros _ p1 i1 x1 S1.
  apply wlp_bind. eapply (wlp_keep (moves id)); [keeps|]. intros _ p2 i2 x2 S2. apply wlp_bind, wlp_rd32.
  set (k := load32 _ _). eapply (wlp_keep (moves (waits k))); [by apply moves_after; [apply await_ack_waits|]|].
  intros _ p3 i3 x3 S3. exists k. split; [apply load32_range|]. cbn [w_more].
  apply (moves_trans id (waits k) x x2); [|done]. by transitivity x1.
Qed.

Lemma send_now_sends nb : keeping sends (tcp_send_netbuf_now ids_send jiffies idi_mru sock nb).
Proof. apply data_sends. keeps. Qed.

(** ** An acknowledgement of everything sent *)

(** [stop_retransmit] and [send_next]: the sender goes on with its queue. *)
Lemma stop_next_wlp p i x :
  wlp (stop_retransmit sock;; send_next ids_send jiffies idi_mru sock)
    (fun b w => forall s', tx (w_more w) = Some s' -> exists s, tx x = Some s
      /\ if b : bool then exists nb q k, s_queue s = nb :: q /\ 0 <= k < 2 ^ 32 /\ s' = waits k (Sender q true (s_nxt s))
         else s_queue s = [] /\ s' = stops s) (World_ p i x).
Proof.
  apply wlp_bind. eapply wlp_keep; [apply stop_retransmit_stops|]. intros _ p1 i1 x1 S1. unfold send_next.
  apply wlp_bind, wlp_get_sock. intros t Ht.
  destruct (S1 (sender_of t)) as (s & Es & Et); [unfold tx; by rewrite Ht|]. injection Et as Eq _ En.
  destruct (ts_awaiting_send t) as [|nb q] eqn:Eql.
  - apply wlp_ret. cbn [w_more]. intros s' E. destruct (S1 _ E) as (s0 & Es0 & ->). simplify_eq. by exists s.
  - apply wlp_bind. eapply wlp_keep; [by apply (mod_moves _ (fun s => Sender q (s_busy s) (s_nxt s)))|]. intros _ p2 i2 x2 S2.
    apply wlp_bind. eapply wlp_keep; [apply send_now_sends|]. intros _ p3 i3 x3 (k & Hk & S3).
    apply wlp_bind. eapply (wlp_keep (moves id)); [keeps|]. intros _ p4 i4 x4 S4. apply wlp_ret. cbn [w_more]. intros s' E.
    destruct (S4 _ E) as (s4 & E4 & ->). destruct (S3 _ E4) as (s3 & E3 & ->). destruct (S2 _ E3) as (s2 & E2 & ->).
    destruct (S1 _ E2) as (s0 & Es0 & ->). simplify_eq. exists s. split; [done|]. exists nb, q, k. by split_and!; [|lia|lia|].
Qed.

(** The labels of a segment that acknowledges [a]. *)
Inductive segment_label (a : Z) : label -> Prop :=
  | Sl_acked : segment_label a (Acked a)
  | Sl_next nb k : segment_label a (Next a nb k)
  | Sl_queued nb : segment_label a (Queued nb)
  | Sl_sent nb k : segment_label a (Sent nb k)
  | Sl_control : segment_label a Control
  | Sl_dropped : segment_label a Dropped.
#[local] Hint Constructors segment_label : core.

(** The labels of a client. *)
Definition client_label (l : label) : Prop := match l with Queued _ | Sent _ _ | Control => True | _ => False end.

Lemma client_segment a l : client_label l -> segment_label a l.
Proof. destruct l; cbn; intros []; auto. Qed.

(** After an acknowledgement of everything the socket has sent. *)
Lemma stop_next_runs a p i x s :
  tx x = Some s -> s_busy s = true -> s_nxt s = a ->
  wlp (stop_retransmit sock;; send_next ids_send jiffies idi_mru sock)
    (fun b w => runs (segment_label a) x (w_more w)
      /\ (b = false -> forall s', tx (w_more w) = Some s' -> s_busy s' = false)) (World_ p i x).
Proof.
  intros Es Hb Hn. eapply wlp_mono; [|apply stop_next_wlp]. intros b [p' i' y] H. cbn [w_more] in *. split.
  - intros s' E. destruct (H _ E) as (s0 & Es0 & Hs0). simplify_eq. exists s. split; [done|]. intros _.
    destruct s as [q bb n]. cbn in *. subst bb. destruct b.
    + destruct Hs0 as (nb & q' & k & -> & Hk & ->). exists [Next n nb k]. split; [by constructor|]. eexists. by split; [constructor|].
    + destruct Hs0 as [-> ->]. exists [Acked n]. split; [by constructor|]. eexists. by split; [constructor|].
  - intros -> s' E. destruct (H _ E) as (s0 & Es0 & _ & ->). done.
Qed.

(** Sending a FIN when nothing waits. *)
Lemma control_runs (L : label -> Prop) (m : W X unit) p i x :
  L Control -> keeping (moves (waits 1)) m -> (forall s, tx x = Some s -> s_busy s = false) ->
  wlp m (fun _ w => runs L x (w_more w)) (World_ p i x).
Proof.
  intros HL Hm Hx. eapply wlp_keep; [exact Hm|]. intros _ p' i' y Hy. cbn [w_more]. apply (runs_step _ _ _ _ Hy).
  intros [q b n] Es Hok. exists Control. split; [done|]. specialize (Hx _ Es). cbn in Hx. subst b. cbv in Hok. rewrite (Hok eq_refl).
  constructor.
Qed.

(** ** Closing *)

Section labels.
Context (a : Z).
Abbreviation L := (segment_label a).

Lemma purge_runs : keeping (runs L) (purge sock).
Proof.
  intros p i x. unfold purge. apply wlp_bind, wlp_get_sock. intros t Ht. destruct (has _ _); [|by apply wlp_ret; apply sock_preorder].
  eapply (wlp_keep (moves (fun s => Sender [] false (s_nxt s)))).
  - apply (moves_bind stops (fun s => Sender [] (s_busy s) (s_nxt s))); [apply stop_retransmit_stops|intros _].
    apply moves_before; [keeps|intros l]. apply moves_after; [by apply mod_moves|intros _]. keeps.
  - intros _ p' i' y Hy. cbn [w_more]. apply (runs_step _ _ _ _ Hy). intros s _ _. exists Dropped. split; [auto|constructor].
Qed.

Lemma close_socket_runs : keeping (runs L) (close_socket cv_signal sock).
Proof. unfold close_socket. apply keeping_bind; [apply _|apply purge_runs|intros _]. apply keeping_runs. keeps. Qed.

Lemma reset_close_runs : keeping (runs L) (send_reset_close_socket ids_send jiffies idi_mru cv_signal sock).
Proof.
  unfold send_reset_close_socket. apply keeping_bind; [apply _|apply purge_runs|intros _]. apply keeping_runs.
  keeps. by apply tx_quiet_build_and_send.
Qed.

(** The functions of the client may send and close. *)
Context (recv_client : forall tc nb, keeping (runs client_label) (tc_recv tc nb))
  (close_client : forall tc, keeping (runs client_label) (tc_close tc)).

Lemma client_runs {A} (m : W X A) : keeping (runs client_label) m -> keeping (runs L) m.
Proof. apply keeping_mono. intros x y. apply runs_mono, client_segment. Qed.

Lemma notify_close_runs : keeping (runs L) (notify_close tc_close sock).
Proof.
  unfold notify_close, tcp_client_ref. keeps. apply client_runs, close_client.
Qed.

Lemma recv_data_runs nb : keeping (runs L) (recv_data ids_send jiffies idi_mru tc_recv sock nb).
Proof.
  unfold recv_data, tcp_client_ref. apply keeping_bind; [apply _|apply keeping_runs; keeps|intros asz]. apply keeping_if; [|apply keeping_ret, _].
  apply keeping_bind; [apply _|apply keeping_runs; keeps|intros _].
  apply keeping_bind; [apply _|apply keeping_runs; by apply tx_quiet_build_and_send|intros _]. keeps. apply client_runs, recv_client.
Qed.

(** ** One segment *)

Lemma wlp_seq {A B C} (m : W X A) (n : W X B) (k : B -> W X C) (Q : B -> world X -> Prop) (Q' : C -> world X -> Prop) w :
  wlp (m;; n) Q w -> (forall b w', Q b w' -> wlp (k b) Q' w') -> wlp (m;; (b ← n; k b)) Q' w.
Proof.
  unfold wlp, mbind, ST_bind. intros H HQ. destruct (m w) as [[c w1]| |]; [|done..]. destruct (n w1) as [[b w2]| |]; [|done..].
  exact (HQ b w2 H).
Qed.

(** What a state does when everything sent, up to [a], is acknowledged. *)
Definition acked_ok (all_acked : W X bool) : Prop := forall p i x s,
  tx x = Some s -> s_nxt s = a -> wlp all_acked (fun _ w => runs L x (w_more w)) (World_ p i x).

Lemma wlp_runs {A} (m : W X A) x y p i :
  keeping (runs L) m -> runs L x y -> wlp m (fun _ w => runs L x (w_more w)) (World_ p i y).
Proof. intros Hm Hxy. eapply wlp_keep; [exact Hm|]. intros _ p' i' z Hz. cbn [w_more]. by transitivity y. Qed.

Lemma wlp_retransmitting (Q : bool -> world X -> Prop) p i x s :
  tx x = Some s -> Q (s_busy s) (World_ p i x) -> wlp (retransmitting sock) Q (World_ p i x).
Proof.
  intros Es HQ. apply wlp_get_sock. intros t Ht. unfold tx in Es. rewrite Ht in Es. by injection Es as <-.
Qed.

Lemma tx_acked_send_next_ok : acked_ok (acked_send_next ids_send jiffies idi_mru sock).
Proof.
  intros p i x s Es Hn. unfold acked_send_next. apply wlp_bind. apply (wlp_retransmitting _ _ _ _ s Es). apply wlp_bind.
  destruct (s_busy s) eqn:Hb; [|by apply wlp_ret, wlp_ret; apply sock_preorder].
  eapply wlp_seq; [by apply (stop_next_runs a p i x s)|]. intros b w' [H _]. by apply wlp_ret, wlp_ret.
Qed.

(** The end of the stream after the last segment. *)
Lemma close_runs (m : W X unit) p i x y :
  runs L x y -> (forall s, tx y = Some s -> s_busy s = false) -> keeping (moves id) m ->
  wlp (unlock_ti;; tcp_send_close ids_send jiffies idi_mru sock;; m) (fun _ w => runs L x (w_more w)) (World_ p i y).
Proof.
  intros Hxy Hy Hm. eapply wlp_mono; [|apply (control_runs L _ p i y); [constructor| |done]].
  - intros [] w Hw. by transitivity y.
  - apply moves_before; [keeps|intros _]. by apply moves_after; [apply close_waits|intros _].
Qed.

Lemma tx_acked_fin_wait1_ok : acked_ok (acked_fin_wait1 ids_send jiffies idi_mru sock).
Proof.
  intros p i x s Es Hn. unfold acked_fin_wait1. apply wlp_bind. apply (wlp_retransmitting _ _ _ _ s Es). apply wlp_bind.
  destruct (s_busy s) eqn:Hb.
  2:{ eapply (wlp_keep (moves id)); [keeps|]. intros _ p' i' y Hy. apply wlp_ret. by apply runs_same. }
  eapply wlp_seq; [by apply (stop_next_runs a p i x s)|]. intros b [p1 i1 y] [Hy Hb1]. cbn [w_more] in *.
  destruct b; [by apply wlp_ret, wlp_ret|]. apply wlp_bind, wlp_get_sock. intros t Ht. destruct (has _ _).
  - apply wlp_bind. eapply (wlp_keep (moves id)); [keeps|]. intros _ p2 i2 z Hz.
    eapply wlp_mono; [|apply (close_runs lock_ti p2 i2 x z)]; [|by transitivity y; [|apply runs_same]| |keeps].
    + intros [] w Hw. by apply wlp_ret.
    + intros s' E. destruct (Hz _ E) as (s1 & E1 & ->). by apply Hb1.
  - eapply (wlp_keep (moves id)); [keeps|]. intros _ p2 i2 z Hz. apply wlp_ret. cbn [w_more]. by transitivity y; [|apply runs_same].
Qed.

Lemma tx_acked_close_wait_ok : acked_ok (acked_close_wait ids_send jiffies idi_mru sock).
Proof.
  intros p i x s Es Hn. unfold acked_close_wait. apply wlp_bind. apply (wlp_retransmitting _ _ _ _ s Es).
  destruct (s_busy s) eqn:Hb; [|by apply wlp_ret; apply sock_preorder].
  eapply wlp_seq; [by apply (stop_next_runs a p i x s)|]. intros b [p1 i1 y] [Hy Hb1]. cbn [w_more] in *. apply wlp_bind.
  destruct b; [by apply wlp_ret, wlp_ret|].
  eapply wlp_mono; [|apply (close_runs (lock_ti;; mod_sock sock (fun t => t <| ts_state := TCS_LAST_ACK |>)) p1 i1 x y); [done|by apply Hb1|keeps]].
  intros [] w Hw. by apply wlp_ret.
Qed.

Lemma acceptable_runs tch on_close go_on p i x :
  keeping (runs L) on_close -> wlp go_on (fun _ w => runs L x (w_more w)) (World_ p i x) ->
  wlp (acceptable ids_send jiffies idi_mru cv_signal sock tch on_close go_on) (fun _ w => runs L x (w_more w)) (World_ p i x).
Proof.
  intros Hc Hgo. unfold acceptable. apply wlp_bind, wlp_th_seq. apply wlp_bind, wlp_get_sock. intros t Ht. apply wlp_bind, wlp_th_flags.
  destruct (_ && _); [apply keeping_runs; by apply tx_quiet_build_and_send|].
  destruct (has _ TCF_RST); [apply keeping_bind; [apply _|apply close_socket_runs|done]|].
  destruct (has _ TCF_SYN); [apply keeping_bind; [apply _|apply reset_close_runs|done]|].
  destruct (negb _); [by apply wlp_ret; apply sock_preorder|done].
Qed.

Lemma acknowledge_runs tch all_acked go_on p i x :
  seg_ack p tch = a -> acked_ok all_acked -> keeping (runs L) go_on ->
  wlp (acknowledge ids_send jiffies idi_mru sock tch all_acked go_on) (fun _ w => runs L x (w_more w)) (World_ p i x).
Proof.
  intros Ha Hall Hgo. unfold acknowledge. apply wlp_bind, wlp_th_acked. rewrite Ha. apply wlp_bind, wlp_get_sock. intros t Ht.
  destruct (_ <? _); [apply keeping_runs; by apply tx_quiet_build_and_send|]. apply wlp_bind, wlp_get_sock. intros t' _. apply wlp_bind.
  assert (Hmore : forall p' i' y (b : bool), runs L x y -> wlp (if b then go_on else mret tt) (fun _ w => runs L x (w_more w)) (World_ p' i' y)).
  { intros p' i' y [] Hy; [by apply wlp_runs|by apply wlp_ret]. }
  destruct (_ <=? _); [|by apply wlp_ret, (Hmore _ _ _ true); apply sock_preorder].
  apply wlp_bind, wlp_gets. apply wlp_bind. eapply (wlp_keep (moves id)); [apply mod_same, calc_round_trip_sender|]. intros _ p1 i1 x1 S1.
  apply wlp_bind. eapply (wlp_keep (moves id)); [keeps|]. intros _ p2 i2 x2 S2. apply wlp_bind, wlp_get_sock. intros t2 Ht2.
  assert (S12 : runs L x x2) by (apply runs_same; by transitivity x1).
  destruct (Z.eqb_spec a (ts_snd_nxt t2)) as [En|]; [|by apply wlp_ret, (Hmore _ _ _ true)].
  eapply wlp_mono; [|apply (Hall p2 i2 x2 (sender_of t2)); [unfold tx; by rewrite Ht2|done]]. intros b [p3 i3 x3] H3.
  apply Hmore. by transitivity x2.
Qed.

(** The four states that take data. *)
Lemma data_state_runs nb tch on_close all_acked fin_part p i x :
  seg_ack p tch = a -> keeping (runs L) on_close -> acked_ok all_acked -> keeping (runs L) fin_part ->
  wlp (acceptable ids_send jiffies idi_mru cv_signal sock tch on_close
        (acknowledge ids_send jiffies idi_mru sock tch all_acked
          (recv_data ids_send jiffies idi_mru tc_recv sock nb;;
           flags ← th_flags tch;
           if has flags TCF_FIN then fin_part else mret tt)))
    (fun _ w => runs L x (w_more w)) (World_ p i x).
Proof.
  intros Ha Hc Hall Hfin. apply acceptable_runs; [done|]. apply acknowledge_runs; [done..|].
  apply keeping_bind; [apply _|apply recv_data_runs|intros _]. apply keeping_bind; [apply _|apply keeping_mem, _|intros flags].
  apply keeping_if; [done|apply keeping_ret, _].
Qed.

(** The end of the other side's stream: ours ends too when nothing waits. *)
Lemma fin_established_runs (m : W X unit) :
  keeping (runs L) m ->
  keeping (runs L) (
    mod_sock sock (fun t => t <| ts_rcv_nxt := u32 (ts_rcv_nxt t + 1) |>);;
    r ← retransmitting sock;
    (if r : bool then
       mod_sock sock (fun t => t <| ts_state := TCS_CLOSE_WAIT |>);;
       tcp_build_and_send_sequence ids_send jiffies idi_mru sock TCF_ACK
     else
       mod_sock sock (fun t => t <| ts_state := TCS_LAST_ACK |>);;
       tcp_build_and_send_sequence ids_send jiffies idi_mru sock (Z.lor TCF_ACK TCF_FIN));;
    m).
Proof.
  intros Hm. apply keeping_bind; [apply _|apply keeping_runs; keeps|intros _]. intros p i x. apply wlp_bind, wlp_get_sock. intros t Ht.
  apply wlp_bind. destruct (has _ _) eqn:Hb.
  - eapply (wlp_keep (runs L)); [apply keeping_runs; keeps; by apply tx_quiet_build_and_send|]. intros _ p1 i1 y Hy. by apply wlp_runs.
  - eapply wlp_mono; [|apply (control_runs L _ p i x)].
    + intros [] [p1 i1 y] Hy. by apply wlp_runs.
    + constructor.
    + apply moves_before; [keeps|intros _]. apply fin_waits.
    + intros s Es. unfold tx in Es. rewrite Ht in Es. by injection Es as <-.
Qed.

Context (tc_connect : Z -> Z -> W X unit) (uninit : tcp_socket).

Lemma segment_runs nb p i x t :
  socks x !! sock = Some t -> takes_data t -> seg_ack p (load32 (p_mem p) (nb + Nb.transport)) = a ->
  wlp (tcp_recv_state_machine ids_send jiffies idi_mru tc_recv tc_connect tc_close cv_signal uninit sock nb)
    (fun _ w => runs L x (w_more w)) (World_ p i x).
Proof.
  intros Ht Hst Ha. unfold tcp_recv_state_machine. apply wlp_bind, wlp_rd32, wlp_bind, wlp_rd32, wlp_bind, wlp_get_sock.
  intros t0 Ht0. assert (t0 = t) as -> by congruence. clear Ht0. unfold takes_data in Hst.
  assert (Hret : keeping (runs L) (mret tt : W X unit)) by apply keeping_ret, _.
  repeat (apply elem_of_cons in Hst as [->|Hst]); [..|by apply elem_of_nil in Hst].
  - apply data_state_runs; [done|apply notify_close_runs|apply tx_acked_send_next_ok|]. apply fin_established_runs.
    apply keeping_bind; [apply _|apply keeping_runs; keeps|intros _].
    apply keeping_bind; [apply _|apply keeping_runs; keeps|intros _]. apply notify_close_runs.
  - apply data_state_runs; [done|done|apply tx_acked_fin_wait1_ok|]. apply keeping_runs. unfold enter_time_wait. keeps. by apply tx_quiet_build_and_send.
  - apply data_state_runs; [done|done|apply tx_acked_send_next_ok|]. apply keeping_runs. unfold enter_time_wait. keeps. by apply tx_quiet_build_and_send.
  - apply data_state_runs; [done|done|apply tx_acked_close_wait_ok|]. apply keeping_runs. by apply tx_quiet_build_and_send.
Qed.
End labels.

(** ** The timers *)

Lemma quiet_tick_retransmit ts : quiet (tcp_tick_retransmit ids_send ts).
Proof. unfold tcp_tick_retransmit, retransmitting, debug_not_closed, tcp_socket_ref. keeps. Qed.

Lemma quiet_tick_deferred ts : quiet (tcp_tick_deferred_ack ids_send ts).
Proof. unfold tcp_tick_deferred_ack, debug_not_closed. keeps. Qed.

(** ** The calls of the client *)

Context (sock_set : sock <> 0).

(** The server [ts] belongs to the socket. *)
Definition bound (ts : Z) (x : X) : Prop := exists srv, ti_servers (part_get x) !! ts = Some srv /\ tsv_socket srv = sock.

(** Taking the lock and finding the socket. *)
Lemma bound_wlp {B} ts (f : Z -> W X B) (Q : B -> world X -> Prop) p i x :
  bound ts x -> (forall y, tx y = tx x -> socks y = socks x -> wlp (f sock) Q (World_ p i y)) ->
  wlp (lock_ti;; (s ← get_server ts tsv_socket; f s)) Q (World_ p i x).
Proof.
  intros (srv & Es & Et) HQ. apply wlp_bind, wlp_lock_part. intros _. set (y := part_put _ x).
  apply wlp_bind. unfold get_server. apply wlp_bind, wlp_get_part. unfold y. rewrite part_get_put. cbn. rewrite Es. cbn.
  apply wlp_bind, wlp_ret, wlp_ret. rewrite Et. apply HQ; [by apply tx_stores|]. unfold socks. by rewrite part_get_put.
Qed.

Lemma queue_segment_moves nb : keeping (moves (fun s => Sender (s_queue s ++ [nb]) (s_busy s) (s_nxt s))) (queue_segment sock nb).
Proof.
  intros p i x. unfold queue_segment. apply wlp_bind. eapply (wlp_keep (moves id)); [keeps|]. intros _ p1 i1 x1 S1.
  apply wlp_bind, wlp_get_sock. intros t Ht. set (l := ts_awaiting_send t). apply wlp_bind. eapply (wlp_keep eq); [apply keeping_mem, _|].
  intros _ p2 i2 x2 <-. apply wlp_bind. eapply (wlp_keep eq); [by destruct (last l); [apply keeping_mem, _|apply keeping_ret, _]|].
  intros _ p3 i3 x3 <-. apply wlp_mod_sock. intros t' Ht'. assert (t' = t) as -> by congruence. cbn [w_more]. intros s' E.
  apply tx_put in E; [|done]. rewrite decide_True in E by done. destruct E as [E ->]. destruct (S1 _ E) as (s & Es & Eq). exists s.
  split; [done|]. cbn in Eq. by rewrite <-Eq.
Qed.

(** What a call of [ts_send] does to a socket [t]. *)
Definition call_outcome (nb : Z) (t : tcp_socket) (x x' : X) : Prop :=
  forall s', tx x' = Some s' -> sender_ok (sender_of t) ->
    if ts_state t =? TCS_ESTABLISHED then exists l, (l = Queued nb \/ exists k, l = Sent nb k) /\ tx_step (sender_of t) l s'
    else s' = sender_of t.

Lemma call_wlp ts nb p i x t : bound ts x -> socks x !! sock = Some t ->
  wlp (tcp_send_netbuf ids_send jiffies idi_mru ts nb) (fun _ w => call_outcome nb t x (w_more w)) (World_ p i x).
Proof.
  intros Hbd Ht. unfold tcp_send_netbuf. apply bound_wlp; [done|]. intros y Ey Esy. replace (sock =? 0) with false by lia.
  assert (Hty : tx y = Some (sender_of t)) by (unfold tx; by rewrite Esy, Ht).
  apply wlp_bind, wlp_get_sock. rewrite Esy. intros t' Ht'. assert (t' = t) as -> by congruence. unfold call_outcome.
  destruct (ts_state t =? TCS_ESTABLISHED); cbn [negb].
  2:{ eapply (wlp_keep (moves id)); [keeps|]. intros _ p1 i1 z Hz s' E _. destruct (Hz _ E) as (s & Es & ->). by simplify_eq. }
  apply wlp_bind. apply (wlp_retransmitting _ _ _ _ _ Hty). destruct (s_busy (sender_of t)) eqn:Hb.
  - eapply wlp_keep; [apply moves_after; [apply queue_segment_moves|intros _; keeps]|]. intros _ p1 i1 z Hz s' E _.
    destruct (Hz _ E) as (s & Es & ->). simplify_eq. exists (Queued nb). split; [by left|]. destruct (sender_of t). cbn in *. subst. constructor.
  - eapply (wlp_keep sends); [apply data_sends; keeps|].
    intros _ p1 i1 z (k & Hk & Hz) s' E Hok. destruct (Hz _ E) as (s & Es & ->). simplify_eq. exists (Sent nb k). split; [eauto|].
    specialize (Hok Hb). destruct (sender_of t). cbn in *. subst. by constructor.
Qed.

Lemma quiet_mod_server ts f : quiet (mod_server ts f).
Proof. unfold mod_server. keeps. Qed.
Lemma quiet_mod_client tc f : quiet (mod_client tc f).
Proof. unfold mod_client. keeps. Qed.
#[local] Hint Resolve quiet_mod_server quiet_mod_client : keep.

(** Closing sends a FIN, now or when the last segment is acknowledged. *)
Lemma client_close_runs : keeping (runs (fun l => l = Control)) (client_close_socket ids_send jiffies idi_mru sock).
Proof.
  intros p i x. unfold client_close_socket. apply wlp_bind, wlp_get_sock. intros t Ht.
  destruct (_ =? _); [apply keeping_runs; keeps|]. destruct (_ =? _); [|by apply wlp_ret; apply sock_preorder].
  apply wlp_bind. eapply (wlp_keep (moves id)); [keeps|]. intros _ p1 i1 y Hy. apply wlp_bind, wlp_get_sock. intros t1 Ht1.
  destruct (has _ _) eqn:Hb; cbn [negb].
  - eapply (wlp_keep (moves id)); [keeps|]. intros _ p2 i2 z Hz. apply runs_same. by transitivity y.
  - eapply wlp_mono; [|apply (control_runs (fun l => l = Control) _ p1 i1 y); [done| |]].
    + intros [] w Hw. transitivity y; [by apply runs_same|exact Hw].
    + apply moves_before; [keeps|intros _]. apply moves_after; [apply close_waits|intros _]. keeps.
    + intros s Es. unfold tx in Es. rewrite Ht1 in Es. by injection Es as <-.
Qed.

Lemma close_wlp ts p i x : bound ts x ->
  wlp (tcp_close ids_send jiffies idi_mru ts) (fun _ w => runs (fun l => l = Control) x (w_more w)) (World_ p i x).
Proof.
  intros Hbd. unfold tcp_close. apply bound_wlp; [done|]. intros y Ey _.
  assert (Hxy : runs (fun l => l = Control) x y) by (apply runs_same; intros s' E; rewrite Ey in E; eauto).
  eapply (wlp_keep (runs (fun l => l = Control))); [|intros _ p1 i1 z Hz; by transitivity y].
  apply keeping_bind; [apply _|apply client_close_runs|intros _]. apply keeping_runs. keeps.
Qed.

(** ** A connection *)

Context (recv_client : forall tc nb, keeping (runs client_label) (tc_recv tc nb))
  (close_client : forall tc, keeping (runs client_label) (tc_close tc)).
Context (tc_connect : Z -> Z -> W X unit) (uninit : tcp_socket).

(** [Call nb b]: the client gives [nb] to the socket, which is established if [b].
    [Segment a]: a segment with acknowledgement number [a] arrives.  [Close]: the client
    closes.  [Timer]: a timer of a socket runs out.  [Other]: anything that does not do
    more to the sender than clients do. *)
Inductive act := Call (nb : Z) (established : bool) | Segment (a : Z) | Close | Timer | Other.

Inductive session : world X -> list act -> world X -> Prop :=
  | Ses_start w : session w [] w
  | Ses_call w acts p i x t ts nb w2 :
      session w acts (World_ p i x) -> bound ts x -> socks x !! sock = Some t ->
      tcp_send_netbuf ids_send jiffies idi_mru ts nb (World_ p i x) = Ok (tt, w2) ->
      session w (acts ++ [Call nb (ts_state t =? TCS_ESTABLISHED)]) w2
  | Ses_segment w acts p i x t nb w2 :
      session w acts (World_ p i x) -> socks x !! sock = Some t -> takes_data t ->
      tcp_recv_state_machine ids_send jiffies idi_mru tc_recv tc_connect tc_close cv_signal uninit sock nb (World_ p i x) = Ok (tt, w2) ->
      session w (acts ++ [Segment (seg_ack p (load32 (p_mem p) (nb + Nb.transport)))]) w2
  | Ses_close w acts p i x ts w2 :
      session w acts (World_ p i x) -> bound ts x -> tcp_close ids_send jiffies idi_mru ts (World_ p i x) = Ok (tt, w2) ->
      session w (acts ++ [Close]) w2
  | Ses_retransmit w acts w1 ts w2 :
      session w acts w1 -> tcp_tick_retransmit ids_send ts w1 = Ok (tt, w2) -> session w (acts ++ [Timer]) w2
  | Ses_deferred w acts w1 ts w2 :
      session w acts w1 -> tcp_tick_deferred_ack ids_send ts w1 = Ok (tt, w2) -> session w (acts ++ [Timer]) w2
  | Ses_other w acts w1 w2 :
      session w acts w1 -> runs client_label (w_more w1) (w_more w2) -> session w (acts ++ [Other]) w2.

(** The steps of the sender for each of them. *)
Definition allowed (o : act) (tr : list label) : Prop :=
  match o with
  | Call nb true => tr = [Queued nb] \/ exists k, tr = [Sent nb k]
  | Call _ false => tr = []
  | Segment a => Forall (segment_label a) tr
  | Close => Forall (fun l => l = Control) tr
  | Timer => tr = []
  | Other => Forall client_label tr
  end.

(** One more act of the sender. *)
Lemma session_snoc s0 acts o (x x' : X) s' :
  (forall s, tx x = Some s -> exists trs, Forall2 allowed acts trs /\ tx_steps s0 (concat trs) s /\ sender_ok s) ->
  tx x' = Some s' -> (exists s, tx x = Some s /\ (sender_ok s -> exists tr, allowed o tr /\ tx_steps s tr s')) ->
  exists trs, Forall2 allowed (acts ++ [o]) trs /\ tx_steps s0 (concat trs) s' /\ sender_ok s'.
Proof.
  intros IH E (s & Es & Hs). destruct (IH s Es) as (trs' & H1 & H2 & Hok). destruct (Hs Hok) as (tr & Ha & Ht).
  exists (trs' ++ [tr]). split; [apply Forall2_app; by repeat constructor|]. rewrite concat_app. cbn. rewrite app_nil_r.
  split; [apply tx_steps_app; eauto|]. by eapply tx_steps_ok.
Qed.

Lemma wlp_ok {A} (m : W X A) (Q : A -> world X -> Prop) w a w' : wlp m Q w -> m w = Ok (a, w') -> Q a w'.
Proof. unfold wlp. by intros H E; rewrite E in H. Qed.

Lemma session_refines w acts w' s0 :
  session w acts w' -> tx (w_more w) = Some s0 -> sender_ok s0 ->
  forall s', tx (w_more w') = Some s' -> exists trs, Forall2 allowed acts trs /\ tx_steps s0 (concat trs) s' /\ sender_ok s'.
Proof.
  intros Hs E0 Hok. induction Hs as [w|w acts p i x t ts nb w2 _ IH Hb Ht Hrun|w acts p i x t nb w2 _ IH Ht Hst Hrun
    |w acts p i x ts w2 _ IH Hb Hrun|w acts [p i x] ts w2 _ IH Hrun|w acts [p i x] ts w2 _ IH Hrun|w acts w1 w2 _ IH Hr]; intros s' E.
  - exists []. simplify_eq. by split_and!.
  - eapply session_snoc; [apply IH; done|exact E|]. exists (sender_of t). split; [unfold tx; cbn; by rewrite Ht|]. intros Hk.
    pose proof (wlp_ok _ _ _ _ _ (call_wlp ts nb p i x t Hb Ht) Hrun s' E Hk) as Hc. cbn. destruct (ts_state t =? TCS_ESTABLISHED).
    + destruct Hc as (l & Hl & Hstep). exists [l]. split; [destruct Hl as [->|[k ->]]; eauto|]. cbn. eauto.
    + subst. by exists [].
  - eapply session_snoc; [apply IH; done|exact E|].
    exact (wlp_ok _ _ _ _ _ (segment_runs _ recv_client close_client tc_connect uninit nb p i x t Ht Hst eq_refl) Hrun s' E).
  - eapply session_snoc; [apply IH; done|exact E|]. exact (wlp_ok _ _ _ _ _ (close_wlp ts p i x Hb) Hrun s' E).
  - eapply session_snoc; [apply IH; done|exact E|].
    destruct (wlp_ok _ _ _ _ _ (quiet_tick_retransmit ts p i x) Hrun s' E) as (s & Es & ->). exists s. split; [done|]. by exists [].
  - eapply session_snoc; [apply IH; done|exact E|].
    destruct (wlp_ok _ _ _ _ _ (quiet_tick_deferred ts p i x) Hrun s' E) as (s & Es & ->). exists s. split; [done|]. by exists [].
  - eapply session_snoc; [apply IH; done|exact E|]. exact (Hr s' E).
Qed.

End sending.

(** ** Witness *)

(** A host with an established connection; the datalink and the client do nothing. *)
Definition send_host : Type := tcp_instance * timers.
Definition no_call (a b : Z) : W send_host unit := mret tt.
Definition no_notify (a : Z) : W send_host unit := mret tt.
Definition send_clock (x : send_host) : Z := 0.
Definition send_mru (x : send_host) : Z := 1500.
Definition send_uninit : tcp_socket := Tcp_socket_ 0 0 0 0 0 0 0 0 0 [] 0 0%nat 0 0 0%nat 0 0 0 0 0 0 0.

(** A packet of three bytes. *)
Definition new_data : W send_host Z :=
  nb ← mem_ netbuf_alloc;
  m ← mem_ (membuf_alloc 3 0);
  mem_ (wr32 (nb + Nb.application_membuf) m);;
  mem_ (wr32 (nb + Nb.application) m);;
  mem_ (wr32 (nb + Nb.application_size) 3);;
  mret nb.

(** A segment that acknowledges [k] bytes. *)
Definition new_ack (k : Z) : W send_host Z :=
  nb ← mem_ netbuf_alloc;
  t ← mem_ (membuf_alloc 20 0);
  mem_ (wr32 (nb + Nb.transport) t);;
  mem_ (wr32 (t + Th.sequence) (hton32 1000));;
  mem_ (wr32 (t + Th.ack) (hton32 (0x00a8393a + k)));;
  mem_ (wr8 (t + Th.data_offs) 0x50);;
  mem_ (wr8 (t + Th.ctrl_flags) TCF_ACK);;
  mret nb.

(** The socket, its server, two packets of the client and a segment that acknowledges
    each. *)
Record send_parts := Send_parts { c_sock : Z; c_ts : Z; c_nb1 : Z; c_nb2 : Z; c_ack1 : Z; c_ack2 : Z }.

Definition send_setup : W send_host send_parts :=
  srv ← mem_ (membuf_alloc 8 0);
  ids ← mem_ (membuf_alloc 8 0);
  ti ← mem_ (membuf_alloc sizeof_tcp_instance 0);
  mod_ii (fun i => i <| ii_server := ids |>);;
  mod_part (fun i : tcp_instance => i <| ti_server := srv |> <| ti_self := ti |>);;
  tc ← tcp_client_alloc false;
  ts ← tcp_client_attach tc;
  sock ← tcp_socket_alloc send_uninit;
  bind_socket ts sock;;
  mod_sock sock (fun t => t <| ts_state := TCS_ESTABLISHED |> <| ts_rcv_nxt := 1000 |>
                            <| ts_remote_addr := 0x0a000002 |> <| ts_local_port := 7 |> <| ts_remote_port := 4000 |>);;
  tcp_socket_attach sock;;
  nb1 ← new_data;
  nb2 ← new_data;
  ack1 ← new_ack 3;
  ack2 ← new_ack 6;
  mret (Send_parts sock ts nb1 nb2 ack1 ack2).

Definition send_start : world send_host :=
  Eval vm_compute in
  World_ match heap_add 1 0x1000 1200 (Heap_ false 0 0 ∅) with Ok h => Pool_ h false false | _ => region_pool end
    (Ip_instance_ 0 false 0x0a000001 0 0 [] [])
    (Tcp_instance_ 0 false [] [] 0x1008 0 ∅ ∅ ∅, Timers_ None false ∅).
Definition send_0 : send_parts * world send_host :=
  Eval vm_compute in match send_setup send_start with Ok r => r | _ => (Send_parts 0 0 0 0 0 0, send_start) end.
Definition send_sock : Z := Eval vm_compute in c_sock send_0.1.

Definition after {A} (m : W send_host A) (w : world send_host) : world send_host := match m w with Ok (_, w') => w' | _ => send_start end.
Definition give (nb : Z) : W send_host unit := tcp_send_netbuf no_call send_clock send_mru (c_ts send_0.1) nb.
Definition arrive (nb : Z) : W send_host unit :=
  tcp_recv_state_machine no_call send_clock send_mru no_call no_call no_notify no_notify send_uninit send_sock nb.

(** Two packets are given, the first is acknowledged. *)
Definition send_1 : world send_host := Eval vm_compute in after (give (c_nb1 send_0.1)) send_0.2.
Definition send_2 : world send_host := Eval vm_compute in after (give (c_nb2 send_0.1)) send_1.
Definition send_3 : world send_host := Eval vm_compute in after lock_ti send_2.
Definition send_4 : world send_host := Eval vm_compute in after (arrive (c_ack1 send_0.1)) send_3.
Definition send_t (w : world send_host) : tcp_socket := default send_uninit (socks (w_more w) !! send_sock).
Definition send_acts : list act :=
  [Call (c_nb1 send_0.1) true; Call (c_nb2 send_0.1) true; Other; Segment (0x00a8393a + 3)].

Abbreviation send_session := (session send_sock no_call send_clock send_mru no_notify no_call no_notify no_call send_uninit).

Lemma send_runs : send_session send_0.2 send_acts send_4.
Proof.
  assert (Hcall : forall w acts nb w' t, send_session send_0.2 acts w -> bound send_sock (c_ts send_0.1) (w_more w) ->
    socks (w_more w) !! send_sock = Some t -> (ts_state t =? TCS_ESTABLISHED) = true -> give nb w = Ok (tt, w') ->
    send_session send_0.2 (acts ++ [Call nb true]) w').
  { intros [p i x] acts nb w' t Hs Hb Ht <- Hg. exact (Ses_call _ _ _ _ _ _ _ _ _ _ _ p i x t _ nb w' Hs Hb Ht Hg). }
  assert (Hbound : forall (w : world send_host) srv, ti_servers (part_get (w_more w)) !! c_ts send_0.1 = Some srv -> tsv_socket srv = send_sock ->
    bound send_sock (c_ts send_0.1) (w_more w)) by (intros w srv ? ?; by exists srv).
  assert (H1 : send_session send_0.2 [Call (c_nb1 send_0.1) true] send_1).
  { apply (Hcall send_0.2 [] _ _ (send_t send_0.2)); [constructor|eapply Hbound; by vm_compute|by vm_compute..]. }
  assert (H2 : send_session send_0.2 [Call (c_nb1 send_0.1) true; Call (c_nb2 send_0.1) true] send_2).
  { apply (Hcall send_1 [_] _ _ (send_t send_1)); [done|eapply Hbound; by vm_compute|by vm_compute..]. }
  assert (H3 : send_session send_0.2 [Call (c_nb1 send_0.1) true; Call (c_nb2 send_0.1) true; Other] send_3).
  { apply (Ses_other _ _ _ _ _ _ _ _ _ _ [_; _] send_2); [done|]. apply runs_same. intros s'. replace (tx send_sock (w_more send_3))
      with (tx send_sock (w_more send_2)) by by vm_compute. eauto. }
  apply (Ses_segment _ _ _ _ _ _ _ _ _ _ [_; _; _] (w_pool send_3) (w_ip send_3) (w_more send_3) (send_t send_3) (c_ack1 send_0.1));
    [done|by vm_compute|by left|by vm_compute].
Qed.


(** ** A FIN that is lost *)

(** The client gives two packets and closes; both are acknowledged. *)
Definition lost_1 : world send_host := after (tcp_close no_call send_clock send_mru (c_ts send_0.1);; lock_ti) send_2.
Definition lost_2 : world send_host := after (arrive (c_ack1 send_0.1)) lost_1.
Definition lost_3 : world send_host := after (arrive (c_ack2 send_0.1)) lost_2.

(** The FIN of a client that closes is deferred while a segment waits for its
    acknowledgement; sending the next segment of the queue assigns the flags and forgets
    it.  When everything is acknowledged the socket is in FIN_WAIT2, as if its FIN had
    been acknowledged, and its sequence number has moved by the data alone. *)
Theorem tcp_deferred_fin_is_lost :
  has (ts_send_flags (send_t lost_1)) TCP_SND_DEFERRED_FIN = true /\ ts_state (send_t lost_1) = TCS_FIN_WAIT1
  /\ is_ok (arrive (c_ack1 send_0.1) lost_1) = true /\ is_ok (arrive (c_ack2 send_0.1) lost_2) = true
  /\ has (ts_send_flags (send_t lost_2)) TCP_SND_DEFERRED_FIN = false
  /\ ts_state (send_t lost_3) = TCS_FIN_WAIT2 /\ ts_awaiting_send (send_t lost_3) = []
  /\ ts_snd_nxt (send_t lost_3) = ts_snd_nxt (send_t send_0.2) + 6.
Proof. by vm_compute. Qed.
